(* ===== verification/_CoqProject ===== *)
-Q . S2P
Meridian.v
Prelude.v
Grouping.v
StrFacts.v
Crypto.v
GoJson.v
Ids.v
Auth.v
GoTime.v
PosLedger.v
GoAny.v
Yaml.v
Migrate.v
GoFmt.v
PosPacks.v
PosPackData.v
PosPackFetch.v
PosStore.v
Citation.v
PosReceipt.v
PosCache.v
Geo.v
CitationIndex.v
PosSettle.v
PosHttpLedger.v
PosWorkflows.v
PosHistory.v
CarfEngine.v
CarfYaml.v
CarfPacks.v
CarfGates.v
Xml.v
CarfMessages.v
CaseStore.v
CaseHandlers.v
CaseProps.v
CaseFiles.v
EinvIrn.v
EinvModel.v
EinvStore.v
Outbox.v
EnvelopeBus.v
Prodx.v
RulePack.v
EinvValidate.v
RulePackLoad.v
EinvSchema.v
EinvApiKeys.v
Keyx.v
Mux.v
KeyxRemote.v
Otelx.v
EinvWebhooks.v
EinvWebhookSink.v
EinvUbl.v
EinvAdapters.v
EinvWorkflow.v
EinvHandlers.v
EinvNrsProps.v
EinvHandlerProps.v
EinvRail.v
EinvQr.v
ReedSolomon.v
EinvQrProps.v
Authx.v
Routes.v
CarfServed.v
Startup.v
