(* ===== verification/Meridian.v ===== *)
(** * Meridian compliance suite: a verification library

    The Go services of the suite and the packages they share, modelled as
    executable functions, with the theorems that make them correct.  Python
    services, portals and the Odoo integration of the repository are other
    programs and are not part of it.

    ** The program

    Four services, each a process with an HTTP interface, an in-memory state
    and an append-only log on disk: [services/pos-vat] takes receipts of
    points of sale, classifies them, attributes the VAT to federation, state
    and local government and posts the shares to a double-entry remittance
    ledger; [services/vasp-carf] books trades of virtual assets, computes
    gains and produces CARF messages; [services/case-mgmt] keeps matters,
    documents and deadlines with privilege rules; [services/einvoicing]
    validates, numbers, signs, transmits and confirms invoices.  They share
    [packages/]: rule packs and citations, the event envelope with its outbox,
    authentication, key providers and migrations.

    ** Conventions

    - An [int64] is a [Z] and every operation on it wraps ([+!], [-!], [*!]
      and [/!] of [go_scope]); a [float64] is a [spec_float] of the Standard
      Library in binary64; a Go string or byte slice is a [string]; times are
      nanoseconds of the Unix epoch in [Z].
    - State is passed explicitly: an operation takes the state last and returns
      the new state with its result; errors are values ([option], [result]);
      a handler returns a [response].  Where the code panics or ends the
      process the model says so ([panicked_], [exits], [None]).
    - What is outside the process - clock, random bytes, disk, network,
      database, other services, goroutines that run in between - is an
      argument: a function or a record of answers.  A disk write can fail,
      and a process can stop between two writes.
    - SHA-256, HMAC and base64 are the fields of the class [Crypto]; theorems
      that need them injective say so; the witnesses use [Toy.crypto].  RSA
      and Ed25519 are functions; JSON is written by [GoJson] and decoded by a
      parameter.
    - Loops are structural, or take fuel.  Three steps per line are enough for
      CarfYaml, which is proved; Yaml's parser does not return on some inputs,
      so a theorem names a family of them and the others are stated for
      enough fuel, of which more changes nothing.  The retries of workflows
      are bounded by the code's own constants.

    ** Files

    Foundations: Prelude (integers, strings, sums, responses), Grouping
    (lists grouped by a key), StrFacts (string lemmas), Crypto, GoJson, GoTime,
    GoAny, GoFmt, Xml (the standard library the services print and parse with),
    Mux (the routing of net/http), Ids ([ULID]).

    Shared packages: Auth (HS256 tokens and the middlewares of pos-vat,
    vasp-carf and case-mgmt), Authx (packages/authx, packages/shared/devjwt),
    Citation and CitationIndex (rulepack/citation.go: what a citation is, and
    the index with its shared sort), RulePack and RulePackLoad
    (rulepack/rulepack.go: evaluation, and the sources of packs, with the
    registry client of services/einvoicing/validate.go), Outbox and EnvelopeBus
    (envelope/envelope.go: the log with its relay, and identifiers, envelopes
    and publishers), Migrate (packages/pgmigrate), Keyx
    (packages/keyx/provider and the signing identity of
    services/einvoicing/sign.go), KeyxRemote (pkcs11.go, cloudkms.go and the
    interface of the providers), Prodx (the tables of packages/prodx), Otelx
    (packages/otelx).  Routes has the route tables of the four main functions and the
    way of a request through the middlewares; Startup has the main functions
    themselves, from the environment to the server.

    pos-vat: PosLedger (ledger.go: the interface and DevLedger),
    PosHttpLedger (ledger.go: HTTPLedger), Yaml, PosPacks and PosPackFetch
    (packs.go), PosPackData (embedded_packs.go), Geo (geo.go), PosStore
    (store.go, types.go), PosCache (store.go: RedisCache), PosReceipt and
    PosSettle (handlers.go), PosWorkflows (workflows.go), PosHistory (the
    service over time: the handlers of main.go, flushes and restarts as steps).

    vasp-carf: CarfEngine (engine.go), CarfYaml (yaml.go), CarfPacks
    (packs.go), CarfGates (gates.go), CarfMessages (carf.go, main.go),
    CarfServed (the listings of main.go, and handlers behind the routes).

    case-mgmt: CaseStore (store.go, permify.go), CaseHandlers (handlers.go,
    workflows.go, integrations.go), CaseProps, CaseFiles (the relation file of
    store.go, the archives and notifiers of integrations.go, the reads of
    permify.go).

    einvoicing: EinvIrn (nrs_irn.go), EinvModel (model.go), EinvStore
    (store.go, vatsummary.go), EinvValidate (validate.go and two packs),
    EinvSchema (nrs_schema.go, catalogs.go), EinvApiKeys (apikeys.go),
    EinvWebhooks and EinvWebhookSink (webhooks.go: registry and
    delivery, and the sinks), EinvUbl (ubl.go), EinvAdapters (adapters.go),
    EinvWorkflow (workflow.go, nrs_lifecycle.go, nrs_resume.go, sign.go and
    the simulator of mbs.go), EinvHandlers (main.go, nrs_handlers.go),
    EinvNrsProps, EinvHandlerProps, EinvRail (nrs_rail.go, mbs.go,
    router.go), EinvQr, ReedSolomon and EinvQrProps (qr.go).

    Names follow the source: a Go function is a definition of the same name,
    a struct a record with its fields (prefixed where two structs of one file
    share a field name), an enumeration of strings stays strings.

    ** What the theorems show

    - The ledger is double entry: over any run the totals of debits and
      credits agree, holds match their accounts, the float is never
      overdrawn, and transfers follow their life cycle ([PosLedger]).
    - A settlement that stops anywhere is completed by its retry without a
      second posting and posts exactly the shares of its receipts
      ([PosSettle]); a sale that was taken in stays so over any requests,
      settlements and restarts, and sending it again changes nothing
      ([PosHistory]); its totals are those of its lines, and attribution loses
      no kobo ([PosReceipt], [PosPacks]).  The core ledger over a failing
      network and the Redis cache refine the ledger and the cache in memory
      ([PosHttpLedger], [PosCache]); loading the packs ends exactly when the
      parser does and leaves none out ([PosPackFetch]).
    - FIFO relief takes the oldest units exactly and a restart rebuilds the
      books ([CarfEngine]); a message is transmitted only behind open gates
      ([CarfMessages]); the parser returns on every input ([CarfYaml]).
    - With the file-backed checker no request changes a matter beyond the
      caller's rights - whoever runs the deadline watch, it alone moves the
      deadlines -, and privileged documents stay confidential; no deadline is
      overlooked ([CaseProps]);
      the relation file keeps grants and revocations as far as its writes
      reach the disk ([CaseFiles]).
    - An invoice is confirmed only after every step of its life cycle held of
      it, an undisturbed run confirms it, its signed core binds number and
      amounts, its payment status alone changes afterwards, and identical
      uploads are stored once ([EinvNrsProps], [EinvHandlerProps],
      [EinvStore], [EinvIrn]); validation is what the packs say
      ([EinvValidate], [RulePack]); the schema is converted exactly
      ([EinvSchema]), the CSV rows and UBL subtotals are grouped exactly
      ([EinvAdapters], [EinvUbl]).
    - The live rail submits at most twice, never invents a clearance and
      recovers from an expired token ([EinvRail]); published events are never
      lost ([Outbox]), arrive at the bus of the process once and in order
      under identifiers that can be read back ([EnvelopeBus]); webhooks are
      registered only for allowed hosts ([EinvWebhooks]), which a redirect
      gets around ([EinvWebhookSink]);
      only the secret of an API key that the service knows as current is
      accepted, with what failed writes of the snapshot do to a restart
      ([EinvApiKeys]).
    - The printed QR code is read back by a reference scanner with its error
      correction verified ([EinvQrProps], [ReedSolomon]).
    - A service of authx in production lets only genuine tokens pass
      ([Authx]); a migration is committed once, whatever fails and however
      many processes boot ([Migrate]).
    - Every handler but the health probes runs with a principal, an API key
      reaches the invoice and VAT handlers alone, and every request goes to the
      most specific route ([Routes], [Mux]); no invoice's number reaches a
      span ([Otelx]), and behind the tracing middleware an identifier in the
      path reaches no handler, so that an invoice is never found and the
      switch of a gate changes no gate, dropping the cached reading only
      ([Routes], [CarfServed]); a signing key lasts over restarts until it is
      rotated ([Keyx]), signed invoices verify under the key in use, with the
      software provider, the soft token and the key service alike
      ([KeyxRemote]), and a process that boots from Postgres has the invoices
      of the one before ([Prodx]).  With AUTH_MODE=keycloak no service starts
      on a development fallback ([Startup]).
    - A citation lists exactly the sections that implement its rule, the sort
      on the shared index refines that, and two first requests can spoil it
      ([CitationIndex]); rules come from the engine, the override directory
      and the binary in this order ([RulePackLoad]).
    - Theorems of kind error state what the code gets wrong, on the inputs
      where it does; each is a finding of the manifest.

    ** Not modelled, and why

    HTTP plumbing (timeouts and shutdown of [packages/httpx], the exporters
    behind [packages/otelx], writers of JSON and problems, request logs and the
    recovery from panics) moves bytes; the connection pool, the DDL and the
    Kafka client of [packages/prodx] wrap software that is not in the
    repository; the table of HS codes of [catalogs.go] is used nowhere.  The
    rendering of texts of errors and log lines is left out throughout.  Of
    files: a write that fails leaves no part of a line, the lines of the logs of
    pos-vat and case-mgmt are within the megabyte their replay reads, and bytes
    that are not UTF-8 are not rewritten when JSON is printed.  [EinvQrProps]
    reads a code with the layout the encoder uses: the drawing of the finder and
    alignment patterns is modelled, but no theorem reads it back.  The
    tickers that repeat a scan, a sweep or a relay pass are not modelled; each
    repetition is one of the operations that are. *)
