(* ===== verification/Prelude.v ===== *)
(** * Foundations

    Go's 64-bit integers and their wrap-around, results and responses, sums
    over lists and maps, and the string functions the services use, with the
    tactics and hints of the development. *)

From stdpp Require Export base gmap strings list fin_maps pretty sorting.
From Stdlib Require Export ZArith Lia.
From Stdlib Require String.
From Stdlib Require Export Ascii.
From Stdlib Require Import Morphisms.

#[global] Open Scope Z_scope.

(** ** Go's 64-bit signed integers

    An [int64] is a [Z] in the range of [in64]; every arithmetic operation of
    the source on [int64] is the operation on [Z] followed by [wrap64] (Go
    wraps around silently).  Go's [/] truncates towards zero, which is
    [Z.quot]. *)

Definition two63 : Z := 9223372036854775808.
Definition two64 : Z := 18446744073709551616.

Definition wrap64 (z : Z) : Z := (z + two63) mod two64 - two63.

Definition in64 (z : Z) : Prop := - two63 <= z < two63.

#[export] Instance in64_dec z : Decision (in64 z).
Proof. unfold in64. solve_decision. Defined.

Declare Scope go_scope.
Delimit Scope go_scope with go.
Notation "a +! b" := (wrap64 (a + b)) (at level 50, left associativity) : go_scope.
Notation "a -! b" := (wrap64 (a - b)) (at level 50, left associativity) : go_scope.
Notation "a *! b" := (wrap64 (a * b)) (at level 40, left associativity) : go_scope.
Notation "a /! b" := (wrap64 (Z.quot a b)) (at level 40, left associativity) : go_scope.
Notation "-! a" := (wrap64 (- a)) (at level 35, right associativity) : go_scope.
#[global] Open Scope go_scope.

(** Create the hint database of the development: the facts about widths,
    sums and lookups that the component files close goals with. *)
Create HintDb meridian.

Section Width.

Lemma wrap64_range z : in64 (wrap64 z).
Proof.
  unfold in64, wrap64, two63, two64.
  pose proof (Z.mod_pos_bound (z + 9223372036854775808) 18446744073709551616).
  lia.
Qed.

Lemma wrap64_id z : in64 z -> wrap64 z = z.
Proof.
  unfold in64, wrap64. intros H.
  rewrite Z.mod_small; unfold two63, two64 in *; lia.
Qed.

Lemma wrap64_idem z : wrap64 (wrap64 z) = wrap64 z.
Proof. apply wrap64_id, wrap64_range. Qed.

(** [wrap64 z] and [z] differ by a multiple of [2^64]. *)
Lemma wrap64_ex z : exists k, wrap64 z = z + k * two64.
Proof.
  exists (- ((z + two63) / two64)). unfold wrap64.
  pose proof (Z.div_mod (z + two63) two64 ltac:(unfold two64; lia)). lia.
Qed.

Lemma wrap64_add_mul z k : wrap64 (z + k * two64) = wrap64 z.
Proof.
  unfold wrap64. replace (z + k * two64 + two63) with (z + two63 + k * two64) by lia.
  rewrite Z.mod_add; [done | unfold two64; lia].
Qed.

End Width.

#[export] Hint Resolve wrap64_range : meridian.

(** Congruence modulo [2^64], the equality that survives wrap-around: sums of
    balances are compared with it, and setoid rewriting works under [+], [-],
    [*] and [wrap64]. *)
Definition eq64 (a b : Z) : Prop := exists k, a = b + k * two64.
Infix "≡64" := eq64 (at level 70, no associativity) : go_scope.

Lemma eq64_ex a b : a ≡64 b <-> exists k, a = b + k * two64.
Proof. done. Qed.

Lemma eq64_wrap a b : a ≡64 b <-> wrap64 a = wrap64 b.
Proof.
  rewrite eq64_ex. split.
  - intros [k ->]. apply wrap64_add_mul.
  - intros H. destruct (wrap64_ex a) as [i Hi], (wrap64_ex b) as [j Hj].
    exists (j - i). lia.
Qed.

#[export] Instance eq64_equiv : Equivalence eq64.
Proof.
  split.
  - intros x. by apply eq64_wrap.
  - intros x y. rewrite !eq64_wrap. done.
  - intros x y z. rewrite !eq64_wrap. congruence.
Qed.

Lemma wrap64_eq64 z : wrap64 z ≡64 z.
Proof. apply eq64_wrap, wrap64_idem. Qed.

#[export] Hint Resolve wrap64_eq64 : meridian.

#[export] Instance add_eq64 : Proper (eq64 ==> eq64 ==> eq64) Z.add.
Proof. intros a a' [i ->]%eq64_ex b b' [j ->]%eq64_ex. apply eq64_ex. exists (i + j). lia. Qed.

#[export] Instance sub_eq64 : Proper (eq64 ==> eq64 ==> eq64) Z.sub.
Proof. intros a a' [i ->]%eq64_ex b b' [j ->]%eq64_ex. apply eq64_ex. exists (i - j). lia. Qed.

#[export] Instance mul_eq64 : Proper (eq64 ==> eq64 ==> eq64) Z.mul.
Proof.
  intros a a' [i ->]%eq64_ex b b' [j ->]%eq64_ex. apply eq64_ex.
  exists (a' * j + i * b' + i * j * two64). ring.
Qed.

#[export] Instance opp_eq64 : Proper (eq64 ==> eq64) Z.opp.
Proof. intros a a' [i ->]%eq64_ex. apply eq64_ex. exists (- i). lia. Qed.

#[export] Instance wrap_eq64 : Proper (eq64 ==> eq) wrap64.
Proof. intros a b H. by apply eq64_wrap. Qed.

Lemma eq64_of_eq a b : a = b -> a ≡64 b.
Proof. intros ->. reflexivity. Qed.

Lemma eq64_in64 a b : in64 a -> in64 b -> a ≡64 b -> a = b.
Proof. rewrite eq64_wrap. intros Ha Hb. rewrite !wrap64_id; done. Qed.

(** [wrap_norm] drops the inner [wrap64]s of a congruence. *)
Ltac wrap_norm := repeat setoid_rewrite wrap64_eq64.

Lemma wrap64_add_l a b : wrap64 (wrap64 a + b) = wrap64 (a + b).
Proof. apply eq64_wrap. by rewrite wrap64_eq64. Qed.

Lemma wrap64_add_r a b : wrap64 (a + wrap64 b) = wrap64 (a + b).
Proof. apply eq64_wrap. by rewrite wrap64_eq64. Qed.

Lemma wrap64_sub_l a b : wrap64 (wrap64 a - b) = wrap64 (a - b).
Proof. apply eq64_wrap. by rewrite wrap64_eq64. Qed.

Lemma wrap64_sub_r a b : wrap64 (a - wrap64 b) = wrap64 (a - b).
Proof. apply eq64_wrap. by rewrite wrap64_eq64. Qed.

Create Rewrite HintDb wrap64.
#[export] Hint Rewrite wrap64_add_l wrap64_add_r wrap64_sub_l wrap64_sub_r wrap64_idem : wrap64.

(** Close a goal [wrap64 x = x] (or remove such wraps) by range reasoning. *)
Ltac wrap_id := rewrite ?wrap64_id by (unfold in64, two63 in *; lia).

(** ** Errors

    A Go function returning [(T, error)] is a function to [result E T], with
    [E] the component's own enumeration of its error values. *)

Inductive result (E A : Type) : Type :=
| Ok (a : A)
| Err (e : E).
Arguments Ok {E A} a.
Arguments Err {E A} e.

#[export] Instance result_ret E : MRet (result E) := fun A a => Ok a.
#[export] Instance result_bind E : MBind (result E) :=
  fun A B f m => match m with Ok a => f a | Err e => Err e end.

#[export] Instance result_eq_dec E A `{EqDecision E, EqDecision A} : EqDecision (result E A).
Proof. solve_decision. Defined.

(** [if cond { return err }] *)
Definition guard_err {E} (cond : bool) (e : E) : result E unit :=
  if cond then Err e else Ok tt.

Definition is_ok {E A} (r : result E A) : bool :=
  match r with Ok _ => true | Err _ => false end.

(** ** HTTP responses

    A handler of the source writes exactly one response: a JSON body with a
    status code ([writeJSON]) or an RFC 7807 problem ([writeProblem],
    [devjwt.Problem]).  A problem carries the status and the title; the detail
    text, which only repeats the cause, is dropped. *)

Inductive response (A : Type) : Type :=
| JSON (code : Z) (body : A)
| Problem (code : Z) (title : string).
Arguments JSON {A} code body.
Arguments Problem {A} code title.

Definition status {A} (r : response A) : Z :=
  match r with JSON c _ => c | Problem c _ => c end.

(** ** Sums over lists and maps *)

Definition sumZ {A} (f : A -> Z) (l : list A) : Z :=
  foldr (fun x acc => f x + acc) 0 l.

Section Sums.
Context {A : Type}.
Implicit Types (f g : A -> Z) (l : list A).

Lemma sumZ_cons f x l : sumZ f (x :: l) = f x + sumZ f l.
Proof. done. Qed.

Lemma sumZ_app f l k : sumZ f (l ++ k) = sumZ f l + sumZ f k.
Proof. unfold sumZ. induction l as [|x l IH]; simpl; lia. Qed.

Lemma sumZ_ext f g l : (forall x, x ∈ l -> f x = g x) -> sumZ f l = sumZ g l.
Proof.
  unfold sumZ. induction l as [|x l IH]; intros H; simpl; [done|].
  rewrite (H x), IH; [done| |]; set_solver.
Qed.

Lemma sumZ_zero f l : (forall x, x ∈ l -> f x = 0) -> sumZ f l = 0.
Proof.
  unfold sumZ. induction l as [|x l IH]; intros H; simpl; [done|].
  rewrite (H x), IH; [done| |]; set_solver.
Qed.

Lemma sumZ_add f g l : sumZ (fun x => f x + g x) l = sumZ f l + sumZ g l.
Proof. unfold sumZ. induction l as [|x l IH]; simpl; lia. Qed.

Lemma sumZ_nonneg f l : (forall x, x ∈ l -> 0 <= f x) -> 0 <= sumZ f l.
Proof.
  unfold sumZ. induction l as [|x l IH]; intros H; simpl; [done|].
  pose proof (H x ltac:(set_solver)).
  assert (0 <= foldr (fun x acc => f x + acc) 0 l) by (apply IH; set_solver). lia.
Qed.

Lemma sumZ_le f g l : (forall x, x ∈ l -> f x <= g x) -> sumZ f l <= sumZ g l.
Proof.
  unfold sumZ. induction l as [|x l IH]; intros H; simpl; [done|].
  pose proof (H x ltac:(set_solver)).
  assert (foldr (fun x acc => f x + acc) 0 l <= foldr (fun x acc => g x + acc) 0 l)
    by (apply IH; set_solver). lia.
Qed.

Lemma sumZ_perm f l k : l ≡ₚ k -> sumZ f l = sumZ f k.
Proof. unfold sumZ. induction 1; simpl; lia. Qed.

#[global] Instance sumZ_proper f : Proper ((≡ₚ) ==> eq) (sumZ f).
Proof. intros l k. apply sumZ_perm. Qed.

Lemma sumZ_filter_split f (P : A -> bool) l :
  sumZ f l = sumZ f (List.filter P l) + sumZ f (List.filter (fun x => negb (P x)) l).
Proof.
  unfold sumZ. induction l as [|x l IH]; simpl; [done|]. destruct (P x); simpl; lia.
Qed.
End Sums.

(** The accumulator loop of Go ([for _, x := range l { acc += f(x) }]) wraps
    at every step; modulo [2^64] it is the sum. *)
Definition loop_sum {A} (f : A -> Z) (l : list A) (acc : Z) : Z :=
  foldl (fun a x => a +! f x) acc l.

Lemma loop_sum_eq64 {A} (f : A -> Z) l acc : loop_sum f l acc ≡64 acc + sumZ f l.
Proof.
  unfold loop_sum. revert acc. induction l as [|x l IH]; intros acc; simpl.
  - by rewrite Z.add_0_r.
  - rewrite IH, wrap64_eq64. apply eq64_of_eq. unfold sumZ. lia.
Qed.

Lemma loop_sum_exact {A} (f : A -> Z) l acc :
  in64 acc -> in64 (acc + sumZ f l) -> loop_sum f l acc = acc + sumZ f l.
Proof.
  intros Ha Hs. apply eq64_in64; [|done|apply loop_sum_eq64].
  clear Hs. unfold loop_sum. revert acc Ha. induction l as [|x l IH]; intros acc Ha; simpl; [done|].
  apply IH, wrap64_range.
Qed.

Section MapSums.
Context `{Countable K} {A : Type}.
Implicit Types (f : A -> Z) (m : gmap K A).

Definition msum f m : Z := sumZ (fun kv : K * A => f kv.2) (map_to_list m).

Lemma msum_empty f : msum f ∅ = 0.
Proof. unfold msum. by rewrite map_to_list_empty. Qed.

Lemma msum_insert_None f m k x :
  m !! k = None -> msum f (<[k:=x]> m) = f x + msum f m.
Proof. intros Hk. unfold msum. by rewrite map_to_list_insert. Qed.

Lemma msum_delete f m k x : m !! k = Some x -> msum f m = f x + msum f (delete k m).
Proof.
  intros Hk. rewrite <- (insert_delete_id m k x) at 1 by done.
  apply msum_insert_None, lookup_delete_eq.
Qed.

Lemma msum_insert_Some f m k x y :
  m !! k = Some x -> msum f (<[k:=y]> m) = msum f m - f x + f y.
Proof.
  intros Hk. rewrite (msum_delete f m k x Hk), <- (insert_delete_eq m k y).
  rewrite msum_insert_None by apply lookup_delete_eq. lia.
Qed.

Lemma msum_ext f g m :
  (forall k x, m !! k = Some x -> f x = g x) -> msum f m = msum g m.
Proof.
  intros Hfg. apply sumZ_ext. intros [k x] Hin%elem_of_map_to_list. eauto.
Qed.

Lemma alter_Some (g : A -> A) m k x : m !! k = Some x -> alter g k m = <[k := g x]> m.
Proof.
  intros Hk. apply map_eq. intros j. destruct (decide (k = j)) as [->|Hne].
  - by rewrite lookup_alter_eq, lookup_insert_eq, Hk.
  - by rewrite lookup_alter_ne, lookup_insert_ne.
Qed.

Lemma alter_None (g : A -> A) m k : m !! k = None -> alter g k m = m.
Proof.
  intros Hk. apply map_eq. intros j. destruct (decide (k = j)) as [->|Hne].
  - by rewrite lookup_alter_eq, Hk.
  - by rewrite lookup_alter_ne.
Qed.

(** A 64-bit field moved by [x] in one entry moves the sum by [x]. *)
Lemma msum_alter f (g : A -> A) m k x :
  (forall a, f (g a) ≡64 f a + x) -> is_Some (m !! k) ->
  msum f (alter g k m) ≡64 msum f m + x.
Proof.
  intros Hg [y Hy]. rewrite (alter_Some _ _ _ _ Hy), (msum_insert_Some _ _ _ _ _ Hy), Hg.
  apply eq64_of_eq. lia.
Qed.

Lemma msum_alter_same f (g : A -> A) m k :
  (forall a, f (g a) = f a) -> msum f (alter g k m) = msum f m.
Proof.
  intros Hg. destruct (m !! k) as [y|] eqn:Hy.
  - rewrite (alter_Some _ _ _ _ Hy), (msum_insert_Some _ _ _ _ _ Hy), Hg. lia.
  - by rewrite alter_None.
Qed.

Lemma lookup_alter_if (g : A -> A) m k j :
  alter g k m !! j = (fun x => if decide (k = j) then g x else x) <$> m !! j.
Proof.
  destruct (decide (k = j)) as [->|Hne].
  - by rewrite lookup_alter_eq.
  - rewrite lookup_alter_ne by done. by destruct (m !! j).
Qed.

Lemma is_Some_alter (g : A -> A) m k j : is_Some (alter g k m !! j) <-> is_Some (m !! j).
Proof.
  destruct (decide (k = j)) as [->|Hne].
  - rewrite lookup_alter_eq. apply fmap_is_Some.
  - by rewrite lookup_alter_ne.
Qed.
End MapSums.

#[export] Hint Resolve sumZ_perm : meridian.

(** ** Tactics of the development *)

(** Split on the innermost test of a hypothesis or of the goal, simplifying
    the equations it produces. *)
Ltac case_step :=
  match goal with
  | H : context [if decide ?P then _ else _] |- _ => destruct (decide P)
  | |- context [if decide ?P then _ else _] => destruct (decide P)
  | H : context [match ?x with _ => _ end] |- _ =>
      lazymatch x with
      | context [match _ with _ => _ end] => fail
      | _ => destruct x eqn:?
      end
  | |- context [match ?x with _ => _ end] =>
      lazymatch x with
      | context [match _ with _ => _ end] => fail
      | _ => destruct x eqn:?
      end
  end; simplify_eq/=.

Ltac cases := repeat case_step.

(** Boolean guards of the code to propositions. *)
Ltac bools :=
  repeat match goal with
  | H : (_ && _)%bool = true |- _ => apply andb_true_iff in H as [? ?]
  | H : (_ || _)%bool = false |- _ => apply orb_false_iff in H as [? ?]
  | H : negb _ = true |- _ => apply negb_true_iff in H
  | H : negb _ = false |- _ => apply negb_false_iff in H
  | H : bool_decide _ = true |- _ => apply bool_decide_eq_true_1 in H
  | H : bool_decide _ = false |- _ => apply bool_decide_eq_false_1 in H
  | H : (_ <=? _) = true |- _ => apply Z.leb_le in H
  | H : (_ <=? _) = false |- _ => apply Z.leb_gt in H
  | H : (_ <? _) = true |- _ => apply Z.ltb_lt in H
  | H : (_ <? _) = false |- _ => apply Z.ltb_ge in H
  | H : (_ =? _) = true |- _ => apply Z.eqb_eq in H
  | H : (_ =? _) = false |- _ => apply Z.eqb_neq in H
  end.

(** ** Strings of Go, as ASCII byte strings *)

Module Str.

Definition has_prefix (s p : string) : bool := String.prefix p s.

Definition rev (s : string) : string :=
  String.string_of_list_ascii (List.rev (String.list_ascii_of_string s)).

Definition has_suffix (s p : string) : bool := String.prefix (rev p) (rev s).

Definition len (s : string) : Z := Z.of_nat (String.length s).

(** [s\[:n\]] and [s\[n:\]], for [n] in range *)
Definition take (n : nat) (s : string) : string := String.substring 0 n s.
Definition drop (n : nat) (s : string) : string :=
  String.substring n (String.length s - n) s.

(** [strings.TrimPrefix], [strings.TrimSuffix] *)
Definition trim_prefix (s p : string) : string :=
  if has_prefix s p then drop (String.length p) s else s.
Definition trim_suffix (s p : string) : string :=
  if has_suffix s p then take (String.length s - String.length p) s else s.

Definition is_space (c : ascii) : bool :=
  let n := Ascii.nat_of_ascii c in (n =? 32)%nat || ((9 <=? n)%nat && (n <=? 13)%nat).

Fixpoint trim_left (s : string) : string :=
  match s with
  | EmptyString => EmptyString
  | String c s' => if is_space c then trim_left s' else s
  end.

(** [strings.TrimSpace] *)
Definition trim_space (s : string) : string := rev (trim_left (rev (trim_left s))).

Fixpoint map (f : ascii -> ascii) (s : string) : string :=
  match s with
  | EmptyString => EmptyString
  | String c s' => String (f c) (map f s')
  end.

Definition lower (c : ascii) : ascii :=
  let n := Ascii.nat_of_ascii c in
  if (65 <=? n)%nat && (n <=? 90)%nat then Ascii.ascii_of_nat (n + 32) else c.
Definition upper (c : ascii) : ascii :=
  let n := Ascii.nat_of_ascii c in
  if (97 <=? n)%nat && (n <=? 122)%nat then Ascii.ascii_of_nat (n - 32) else c.

(** [strings.ToLower], [strings.ToUpper], [strings.EqualFold] *)
Definition to_lower : string -> string := map lower.
Definition to_upper : string -> string := map upper.
Definition equal_fold (s t : string) : bool := bool_decide (to_lower s = to_lower t).

(** [strings.Split(s, sep)] for a one-byte separator *)
Fixpoint split (sep : ascii) (s : string) : list string :=
  match s with
  | EmptyString => [EmptyString]
  | String c s' =>
      if bool_decide (c = sep) then EmptyString :: split sep s'
      else match split sep s' with
           | [] => [String c EmptyString]
           | w :: ws => String c w :: ws
           end
  end.

(** [strings.Join(l, sep)] *)
Fixpoint join (sep : string) (l : list string) : string :=
  match l with
  | [] => EmptyString
  | [w] => w
  | w :: ws => w +:+ sep +:+ join sep ws
  end.

(** [strings.Cut] / [strings.Index] on a one-byte separator: the parts
    before and after its first occurrence *)
Fixpoint cut (sep : ascii) (s : string) : option (string * string) :=
  match s with
  | EmptyString => None
  | String c s' =>
      if bool_decide (c = sep) then Some (EmptyString, s')
      else match cut sep s' with
           | None => None
           | Some (a, b) => Some (String c a, b)
           end
  end.

(** [strings.LastIndex]: the parts around the last occurrence *)
Fixpoint cut_last (sep : ascii) (s : string) : option (string * string) :=
  match s with
  | EmptyString => None
  | String c s' =>
      match cut_last sep s' with
      | Some (a, b) => Some (String c a, b)
      | None => if bool_decide (c = sep) then Some (EmptyString, s') else None
      end
  end.

(** [strings.ReplaceAll(s, c, "")] *)
Fixpoint remove (x : ascii) (s : string) : string :=
  match s with
  | EmptyString => EmptyString
  | String c s' => if bool_decide (c = x) then remove x s' else String c (remove x s')
  end.

Fixpoint all (P : ascii -> bool) (s : string) : bool :=
  match s with
  | EmptyString => true
  | String c s' => P c && all P s'
  end.

Fixpoint contains (c : ascii) (s : string) : bool :=
  match s with
  | EmptyString => false
  | String d s' => bool_decide (c = d) || contains c s'
  end.

Definition is_digit (c : ascii) : bool :=
  let n := Ascii.nat_of_ascii c in (48 <=? n)%nat && (n <=? 57)%nat.
Definition is_alpha (c : ascii) : bool :=
  let n := Ascii.nat_of_ascii c in
  ((65 <=? n)%nat && (n <=? 90)%nat) || ((97 <=? n)%nat && (n <=? 122)%nat).
Definition is_alnum (c : ascii) : bool := is_digit c || is_alpha c.

(** The value of a string of digits, most significant first *)
Fixpoint digits_from (acc : Z) (s : string) : Z :=
  match s with
  | EmptyString => acc
  | String c s' => digits_from (10 * acc + (Z.of_nat (Ascii.nat_of_ascii c) - 48)) s'
  end.
Definition digits_val (s : string) : Z := digits_from 0 s.

(** [if s == "" { return d }; return s] *)
Definition or_default (s d : string) : string :=
  if bool_decide (s = EmptyString) then d else s.

End Str.
