(* ===== verification/Grouping.v ===== *)
(** * Grouping a list by a key

    The keys in the order of their first element, the elements of a key in
    order, and the sums over groups: what the code that groups rows or lines
    with a map and a list of keys computes (the UBL tax subtotals, the CSV
    adapter). *)

From S2P Require Import Prelude.

Section Grouping.
Context {A K : Type} `{EqDecision K} (key : A -> K).

Definition firstKeys (l : list A) : list K :=
  foldl (fun ks x => if decide (key x ∈ ks) then ks else ks ++ [key x]) [] l.

Definition ofKey (k : K) (l : list A) : list A := filter (fun x => key x = k) l.

Lemma firstKeys_snoc l x : firstKeys (l ++ [x]) = if decide (key x ∈ firstKeys l) then firstKeys l else firstKeys l ++ [key x].
Proof. unfold firstKeys. by rewrite foldl_app. Qed.

Lemma ofKey_snoc k l x : ofKey k (l ++ [x]) = if decide (key x = k) then ofKey k l ++ [x] else ofKey k l.
Proof. unfold ofKey. rewrite filter_app. cbn. destruct (decide _); [done|]. by rewrite app_nil_r. Qed.

Lemma firstKeys_elem l k : k ∈ firstKeys l <-> exists x, x ∈ l /\ key x = k.
Proof.
  induction l as [|x l IH] using rev_ind; [split; [by intros ?%elem_of_nil|by intros (? & ?%elem_of_nil & _)]|].
  rewrite firstKeys_snoc. setoid_rewrite elem_of_app. setoid_rewrite list_elem_of_singleton. destruct (decide _) as [Hin|Hn].
  - rewrite IH. split; [intros (y & Hy & <-); eauto|]. intros (y & [Hy| ->] & <-); [eauto|]. by apply IH.
  - rewrite elem_of_app, IH, list_elem_of_singleton. split; [intros [(y & Hy & <-)| ->]; eauto|].
    intros (y & [Hy| ->] & <-); [left; eauto|by right].
Qed.

Lemma firstKeys_NoDup l : NoDup (firstKeys l).
Proof.
  induction l as [|x l IH] using rev_ind; [constructor|]. rewrite firstKeys_snoc. destruct (decide _) as [Hin|Hn]; [done|].
  apply NoDup_app. split; [done|]. split; [|apply NoDup_singleton]. by intros k Hk ->%list_elem_of_singleton.
Qed.

Lemma ofKey_fresh l k : k ∉ firstKeys l -> ofKey k l = [].
Proof.
  intros Hn. destruct (ofKey k l) as [|x xs] eqn:E; [done|]. exfalso. apply Hn, firstKeys_elem. exists x.
  assert (Hx : x ∈ ofKey k l) by (rewrite E; apply list_elem_of_here). unfold ofKey in Hx. by apply list_elem_of_filter in Hx as [? ?].
Qed.

Lemma ofKey_head l k : k ∈ firstKeys l -> exists x xs, ofKey k l = x :: xs /\ key x = k.
Proof.
  intros (y & Hy & Hk)%firstKeys_elem. assert (Hin : y ∈ ofKey k l) by (unfold ofKey; by apply list_elem_of_filter).
  destruct (ofKey k l) as [|x xs] eqn:E; [by apply elem_of_nil in Hin|]. exists x, xs. split; [done|].
  assert (Hx : x ∈ ofKey k l) by (rewrite E; apply list_elem_of_here). unfold ofKey in Hx. by apply list_elem_of_filter in Hx as [? ?].
Qed.

(** A group is a part of the whole. *)
Lemma ofKey_sum_le (f : A -> Z) k l : (forall x, x ∈ l -> 0 <= f x) -> 0 <= sumZ f (ofKey k l) <= sumZ f l.
Proof.
  intros Hf. induction l as [|x l IH]; [done|]. assert (Hx : 0 <= f x) by (apply Hf, list_elem_of_here).
  specialize (IH (fun y Hy => Hf y (list_elem_of_further _ _ _ Hy))). unfold ofKey in *. rewrite filter_cons, sumZ_cons.
  destruct (decide _); rewrite ?sumZ_cons; lia.
Qed.

(** The groups partition the list. *)
Lemma groups_sum (f : A -> Z) l : sumZ (fun k => sumZ f (ofKey k l)) (firstKeys l) = sumZ f l.
Proof.
  assert (H : forall ks, NoDup ks -> (forall x, x ∈ l -> key x ∈ ks) -> sumZ (fun k => sumZ f (ofKey k l)) ks = sumZ f l).
  2: { apply H; [apply firstKeys_NoDup|]. intros x Hx. apply firstKeys_elem. by exists x. }
  induction l as [|x l IH]; intros ks Hnd Hin; [by apply sumZ_zero|].
  rewrite sumZ_cons, <- (IH ks Hnd (fun y Hy => Hin y (list_elem_of_further _ _ _ Hy))).
  assert (Hx : key x ∈ ks) by apply Hin, list_elem_of_here. clear IH Hin. revert Hx Hnd.
  induction ks as [|k ks IH]; intros Hx Hnd; [by apply elem_of_nil in Hx|]. apply NoDup_cons in Hnd as [Hk Hnd]. rewrite !sumZ_cons.
  unfold ofKey in *. rewrite filter_cons. destruct (decide (key x = k)) as [<-|Hne].
  - rewrite sumZ_cons. assert (E : sumZ (fun k => sumZ f (filter (fun y => key y = k) (x :: l))) ks = sumZ (fun k => sumZ f (filter (fun y => key y = k) l)) ks).
    { apply sumZ_ext. intros k' Hk'. rewrite filter_cons, decide_False by (by intros <-). done. }
    rewrite E. lia.
  - apply elem_of_cons in Hx as [?|Hx]; [done|]. rewrite IH by done. lia.
Qed.
End Grouping.
