(* ===== verification/StrFacts.v ===== *)
(** * Facts on strings

    Concatenation, length, prefixes, the cuts at a separator and the trimming
    of spaces, shared by the files that reason on texts. *)

From S2P Require Import Prelude.

Lemma str_app_cons c a b : String c a +:+ b = String c (a +:+ b).
Proof. done. Qed.

Lemma str_app_one c b : String c "" +:+ b = String c b.
Proof. done. Qed.

Lemma str_app_nil_l b : "" +:+ b = b.
Proof. done. Qed.

Lemma str_app_assoc a b c : a +:+ (b +:+ c) = (a +:+ b) +:+ c.
Proof. induction a as [|x a IH]; [done|]. by rewrite !str_app_cons, IH. Qed.

Lemma str_app_nil_r a : a +:+ "" = a.
Proof. induction a as [|x a IH]; [done|]. by rewrite str_app_cons, IH. Qed.

Lemma str_length_app s t : String.length (s +:+ t) = (String.length s + String.length t)%nat.
Proof. induction s as [|c s IH]; [done|]. rewrite str_app_cons. cbn [String.length]. by rewrite IH. Qed.

Lemma str_app_inj s s' t t' :
  String.length s = String.length s' -> s +:+ t = s' +:+ t' -> s = s' /\ t = t'.
Proof.
  revert s'. induction s as [|c s IH]; intros [|d s'] Hl He; [done..|].
  rewrite !str_app_cons in He. injection He as -> He. injection Hl as Hl.
  by destruct (IH s' Hl He) as [-> ->].
Qed.

Lemma prefix_app p s : String.prefix p (p +:+ s) = true.
Proof. induction p as [|c p IH]; [by destruct s|]. simpl. destruct (Ascii.ascii_dec c c); done. Qed.

(** ** Characters of a text *)

Lemma str_all_app P a b : Str.all P (a +:+ b) = Str.all P a && Str.all P b.
Proof.
  induction a as [|c a IH]; [done|]. rewrite str_app_cons. cbn [Str.all]. by rewrite IH, andb_assoc.
Qed.

Lemma str_all_mono (P Q : ascii -> bool) s : (forall c, P c = true -> Q c = true) -> Str.all P s = true -> Str.all Q s = true.
Proof. intros HPQ. induction s as [|c s IH]; [done|]. cbn [Str.all]. rewrite !andb_true_iff. intros [? ?]. auto. Qed.

Lemma str_contains_app c a b : Str.contains c (a +:+ b) = Str.contains c a || Str.contains c b.
Proof.
  induction a as [|d a IH]; [done|]. rewrite str_app_cons. cbn [Str.contains]. by rewrite IH, orb_assoc.
Qed.

Lemma str_all_contains P c s : Str.all P s = true -> P c = false -> Str.contains c s = false.
Proof.
  intros Hs Hc. induction s as [|d s IH]; [done|]. cbn [Str.all Str.contains] in *. apply andb_true_iff in Hs as [Hd Hs].
  rewrite IH by done. rewrite bool_decide_false; [done|]. intros ->. congruence.
Qed.

(** ** Cutting at a separator *)

Lemma cut_app sep a b : Str.contains sep a = false -> Str.cut sep (a +:+ String sep b) = Some (a, b).
Proof.
  induction a as [|c a IH]; intros Hc.
  - change ("" +:+ String sep b) with (String sep b). cbn [Str.cut]. by rewrite bool_decide_true.
  - cbn [Str.contains] in Hc. apply orb_false_iff in Hc as [Hc Ha]. apply bool_decide_eq_false_1 in Hc.
    rewrite str_app_cons. cbn [Str.cut]. rewrite bool_decide_false by congruence. by rewrite IH.
Qed.

Lemma cut_none sep s : Str.contains sep s = false -> Str.cut sep s = None.
Proof.
  induction s as [|c s IH]; [done|]. cbn [Str.contains Str.cut]. intros [Hc Hs]%orb_false_iff.
  apply bool_decide_eq_false_1 in Hc. rewrite bool_decide_false by congruence. by rewrite IH.
Qed.

Lemma cut_spec sep s a b : Str.cut sep s = Some (a, b) -> s = a +:+ String sep b /\ Str.contains sep a = false.
Proof.
  revert a. induction s as [|c s IH]; intros a; cbn [Str.cut]; [done|].
  destruct (bool_decide (c = sep)) eqn:Ec; bools; [intros [= <- <-]; by subst|].
  destruct (Str.cut sep s) as [[x y]|]; [|done]. intros [= <- <-]. destruct (IH x eq_refl) as [-> Hx].
  split; [done|]. cbn [Str.contains]. rewrite Hx, bool_decide_false by congruence. done.
Qed.

Lemma cut_last_none sep s : Str.contains sep s = false -> Str.cut_last sep s = None.
Proof.
  induction s as [|c s IH]; [done|]. cbn [Str.contains Str.cut_last]. intros [Hc Hs]%orb_false_iff.
  apply bool_decide_eq_false_1 in Hc. rewrite IH, bool_decide_false by congruence. done.
Qed.

Lemma cut_last_app sep a b : Str.contains sep b = false -> Str.cut_last sep (a +:+ String sep b) = Some (a, b).
Proof.
  intros Hb. induction a as [|c a IH].
  - change ("" +:+ String sep b) with (String sep b). cbn [Str.cut_last]. by rewrite cut_last_none, bool_decide_true.
  - rewrite str_app_cons. cbn [Str.cut_last]. by rewrite IH.
Qed.

Lemma cut_last_spec sep s a b : Str.cut_last sep s = Some (a, b) -> s = a +:+ String sep b /\ Str.contains sep b = false.
Proof.
  revert a b. induction s as [|c s IH]; intros a b; cbn [Str.cut_last]; [done|].
  destruct (Str.cut_last sep s) as [[x y]|] eqn:E.
  - intros [= <- <-]. destruct (IH x y eq_refl) as [-> Hy]. by rewrite str_app_cons.
  - destruct (bool_decide (c = sep)) eqn:Ec; bools; [|done]. intros [= <- <-]. subst. split; [done|].
    clear IH. destruct (Str.contains sep s) eqn:Ec; [|done].
    exfalso. revert E Ec. clear. induction s as [|d s IH]; [done|]. cbn [Str.cut_last Str.contains].
    destruct (Str.cut_last sep s) as [[x y]|]; [done|].
    destruct (bool_decide (d = sep)) eqn:Ed; bools; [done|]. intros _. rewrite bool_decide_false by congruence. auto.
Qed.

(** ** Reversal and trimming *)

Lemma rev_app a b : Str.rev (a +:+ b) = Str.rev b +:+ Str.rev a.
Proof.
  unfold Str.rev.
  assert (E : forall x y, String.list_ascii_of_string (x +:+ y) = String.list_ascii_of_string x ++ String.list_ascii_of_string y).
  { induction x as [|c x IH]; intros y; [done|]. rewrite str_app_cons. cbn. by rewrite IH. }
  assert (F : forall x y, String.string_of_list_ascii (x ++ y) = String.string_of_list_ascii x +:+ String.string_of_list_ascii y).
  { induction x as [|c x IH]; intros y; [done|]. cbn. by rewrite IH. }
  rewrite E, List.rev_app_distr. apply F.
Qed.

Lemma rev_involutive s : Str.rev (Str.rev s) = s.
Proof. unfold Str.rev. by rewrite String.list_ascii_of_string_of_list_ascii, List.rev_involutive, String.string_of_list_ascii_of_string. Qed.

Lemma rev_cons c s : Str.rev (String c s) = Str.rev s +:+ String c "".
Proof. apply (rev_app (String c "") s). Qed.

(** Without a space in front *)
Definition unspaced (s : string) : bool :=
  match s with String c _ => negb (Str.is_space c) | EmptyString => true end.

Lemma trim_left_unspaced s : unspaced (Str.trim_left s) = true.
Proof. induction s as [|c s IH]; [done|]. cbn [Str.trim_left]. destruct (Str.is_space c) eqn:E; [done|]. cbn. by rewrite E. Qed.

Lemma trim_left_id s : unspaced s = true -> Str.trim_left s = s.
Proof. destruct s as [|c s]; [done|]. cbn. destruct (Str.is_space c); done. Qed.

Lemma trim_left_suffix s : exists w, s = w +:+ Str.trim_left s.
Proof.
  induction s as [|c s [w IH]]; [by exists ""|]. cbn [Str.trim_left]. destruct (Str.is_space c); [|by exists ""].
  exists (String c w). by rewrite str_app_cons, <-IH.
Qed.

Lemma trim_space_unspaced s : unspaced (Str.trim_space s) = true /\ unspaced (Str.rev (Str.trim_space s)) = true.
Proof.
  unfold Str.trim_space. rewrite rev_involutive. split; [|apply trim_left_unspaced].
  destruct (trim_left_suffix (Str.rev (Str.trim_left s))) as [w Hw].
  apply (f_equal Str.rev) in Hw. rewrite rev_involutive, rev_app in Hw.
  pose proof (trim_left_unspaced s) as Hu. rewrite Hw in Hu. by destruct (Str.rev (Str.trim_left _)).
Qed.

Lemma trim_space_id s : unspaced s = true -> unspaced (Str.rev s) = true -> Str.trim_space s = s.
Proof. intros H1 H2. unfold Str.trim_space. by rewrite (trim_left_id s), trim_left_id, rev_involutive. Qed.

Lemma unspaced_app a b : a <> "" -> unspaced a = true -> unspaced (a +:+ b) = true.
Proof. by destruct a. Qed.

Lemma trim_space_app a b c :
  a <> "" -> c <> "" -> unspaced a = true -> unspaced (Str.rev c) = true -> Str.trim_space (a +:+ b +:+ c) = a +:+ b +:+ c.
Proof.
  intros Ha Hc Hua Huc. apply trim_space_id; [by apply unspaced_app|].
  rewrite str_app_assoc, rev_app. apply unspaced_app; [|done].
  intros E. apply Hc. apply (f_equal Str.rev) in E. by rewrite rev_involutive in E.
Qed.

(** ** Prefixes and suffixes *)

Lemma str_take_app a b : Str.take (String.length a) (a +:+ b) = a.
Proof. unfold Str.take. induction a as [|c a IH]; [by destruct b|]. rewrite str_app_cons. cbn. by rewrite IH. Qed.

Lemma str_substring_all s n : (String.length s <= n)%nat -> String.substring 0 n s = s.
Proof. revert n. induction s as [|c s IH]; intros [|n] Hn; cbn in *; try done; try lia. by rewrite IH by lia. Qed.

Lemma str_drop_app a b : Str.drop (String.length a) (a +:+ b) = b.
Proof.
  unfold Str.drop. induction a as [|c a IH].
  - rewrite str_app_nil_l. cbn [String.length]. rewrite Nat.sub_0_r. by apply str_substring_all.
  - rewrite str_app_cons. cbn [String.length]. cbn [Nat.sub]. cbn [String.substring]. exact IH.
Qed.

(** ** Decimal texts read back *)

Lemma digit_char_val (x : N) : (x < 10)%N -> Z.of_nat (Ascii.nat_of_ascii (pretty_N_char x)) - 48 = Z.of_N x.
Proof.
  intros Hx. assert (H : (x = 0 \/ x = 1 \/ x = 2 \/ x = 3 \/ x = 4 \/ x = 5 \/ x = 6 \/ x = 7 \/ x = 8 \/ x = 9)%N) by lia.
  repeat destruct H as [->|H]; try reflexivity. by rewrite H.
Qed.

Lemma digits_pretty_go n s : Str.digits_val (pretty_N_go n s) = Str.digits_from (Z.of_N n) s.
Proof.
  revert s. induction (N.lt_wf_0 n) as [n _ IH]; intros s.
  destruct (decide (n = 0%N)) as [->|Hn]; [by rewrite pretty_N_go_0|].
  rewrite pretty_N_go_step by lia. rewrite IH by (apply N.div_lt; lia). cbn [Str.digits_from]. f_equal.
  rewrite digit_char_val by (apply N.mod_lt; lia). rewrite N2Z.inj_div, N2Z.inj_mod. pose proof (Z.div_mod (Z.of_N n) 10 ltac:(lia)). lia.
Qed.

Lemma digits_pretty (n : N) : Str.digits_val (pretty n) = Z.of_N n.
Proof. unfold pretty, pretty_N. case_decide as Hn; [by subst|]. by rewrite digits_pretty_go. Qed.
