(* ===== verification/Crypto.v ===== *)
(** * Digests, and the textual encodings the services apply to them

    The services hash with Go's [crypto/sha256] and [crypto/hmac].  A digest
    is a parameter of the development ([Crypto]): the theorems that depend on
    one say what they need of it (that some given inputs do not collide), and
    their witnesses instantiate it with a concrete function.  The encodings
    of digests and of identifiers as text are modelled. *)

From S2P Require Import Prelude.

Class Crypto := {
  (** [sha256.Sum256], as the 32 bytes of the digest *)
  sha256 : string -> string;
  (** [hmac.New(sha256.New, key)] on one message *)
  hmac256 : string -> string -> string;
}.

(** [fmt.Sprintf("%x", b)] and [hex.EncodeToString(b)] *)
Definition hex_char (n : nat) : ascii :=
  Ascii.ascii_of_nat (if (n <? 10)%nat then n + 48 else n + 87).

Fixpoint hex (s : string) : string :=
  match s with
  | EmptyString => EmptyString
  | String c s' =>
      let n := Ascii.nat_of_ascii c in
      String (hex_char (n / 16)) (String (hex_char (n mod 16)) (hex s'))
  end.

(** [binary.BigEndian.PutUint64]: [n] bytes of [z], most significant first *)
Fixpoint be_bytes (n : nat) (z : Z) : string :=
  match n with
  | O => EmptyString
  | S n' => be_bytes n' (Z.shiftr z 8) +:+ String (Ascii.ascii_of_N (Z.to_N (Z.land z 255))) EmptyString
  end.
Definition be64 (z : Z) : string := be_bytes 8 z.

(** [base64.RawURLEncoding.EncodeToString] *)
Definition b64_char (n : Z) : ascii :=
  Ascii.ascii_of_N (Z.to_N (
    if n <? 26 then n + 65 else if n <? 52 then n + 71
    else if n <? 62 then n - 4 else if n =? 62 then 45 else 95)).

Definition byte_val (c : ascii) : Z := Z.of_N (Ascii.N_of_ascii c).

Fixpoint b64url (s : string) : string :=
  match s with
  | EmptyString => EmptyString
  | String a EmptyString =>
      let v := Z.shiftl (byte_val a) 4 in
      String (b64_char (Z.shiftr v 6)) (String (b64_char (Z.land v 63)) EmptyString)
  | String a (String b EmptyString) =>
      let v := Z.shiftl (Z.shiftl (byte_val a) 8 + byte_val b) 2 in
      String (b64_char (Z.shiftr v 12)) (String (b64_char (Z.land (Z.shiftr v 6) 63))
        (String (b64_char (Z.land v 63)) EmptyString))
  | String a (String b (String c s')) =>
      let v := Z.shiftl (byte_val a) 16 + Z.shiftl (byte_val b) 8 + byte_val c in
      String (b64_char (Z.shiftr v 18)) (String (b64_char (Z.land (Z.shiftr v 12) 63))
        (String (b64_char (Z.land (Z.shiftr v 6) 63)) (String (b64_char (Z.land v 63)) (b64url s'))))
  end.

Section Digests.
Context `{Crypto}.

(** [DeterministicTransferID] of pos-vat/ledger.go: a stable 128-bit id *)
Definition DeterministicTransferID (seed : string) : string :=
  hex (Str.take 16 (sha256 seed)).

(** [TINHash] of pos-vat/types.go and case-mgmt/shared.go *)
Definition TINHash (tin key : string) : string :=
  b64url (Str.take 16 (hmac256 key tin)).
End Digests.

(** A concrete instance, for the witnesses: the message itself, padded or cut
    to 32 bytes after a checksum that depends on every byte. *)
Module Toy.
Fixpoint mix (acc : Z) (s : string) : Z :=
  match s with
  | EmptyString => acc
  | String c s' => mix ((acc * 257 + byte_val c + 1) mod (2 ^ 251 - 9)) s'
  end.
Definition digest (s : string) : string := be_bytes 32 (mix 7 s).
Definition crypto : Crypto := {| sha256 := digest; hmac256 := fun k m => digest (k +:+ m) |}.
End Toy.

Example b64url_rfc : b64url "Man" = "TWFu" /\ b64url "Ma" = "TWE" /\ b64url "M" = "TQ".
Proof. repeat split. Qed.
Example hex_be64 : hex (be64 300) = "000000000000012c".
Proof. reflexivity. Qed.
