(* ===== verification/GoJson.v ===== *)
(** * [encoding/json.Marshal], as the services use it

    A document is a tree; its text is what [json.Marshal] writes for structs
    and slices, in the order of the fields, on valid UTF-8 without the line
    and paragraph separators.  Two different documents have different texts.
    Bytes that are not UTF-8, for which Go writes U+FFFD, stay as they are, and
    a nil slice is written as an empty one. *)

From S2P Require Import Prelude StrFacts Crypto.

Inductive json :=
| JNull
| JBool (b : bool)
| JNum (z : Z)
| JStr (s : string)
| JArr (l : list json)
| JObj (l : list (string * json)).

Definition dq : ascii := "034"%char.

Definition u00 (n : nat) : string := "\u00" +:+ String (hex_char (n / 16)) (String (hex_char (n mod 16)) "").

(** One byte of a string: [<], [>] and [&] are escaped, as the default
    encoder does *)
Definition jchar (c : ascii) : string :=
  let n := Ascii.nat_of_ascii c in
  if (n =? 34)%nat then String "\" (String dq "")
  else if (n =? 92)%nat then "\\"
  else if (n =? 8)%nat then "\b"
  else if (n =? 12)%nat then "\f"
  else if (n =? 10)%nat then "\n"
  else if (n =? 13)%nat then "\r"
  else if (n =? 9)%nat then "\t"
  else if (n <? 32)%nat || (n =? 60)%nat || (n =? 62)%nat || (n =? 38)%nat then u00 n
  else String c "".

Fixpoint jesc (s : string) : string :=
  match s with
  | EmptyString => EmptyString
  | String c s => jchar c +:+ jesc s
  end.

Definition jstr (s : string) : string := String dq (jesc s +:+ String dq "").

Fixpoint json_text (j : json) : string :=
  match j with
  | JNull => "null"
  | JBool b => if b then "true" else "false"
  | JNum z => pretty z
  | JStr s => jstr s
  | JArr l =>
      String "[" ((fix items l := match l with
                                  | [] => "]"
                                  | x :: l => json_text x +:+ match l with [] => "]" | _ => String "," (items l) end
                                  end) l)
  | JObj l =>
      String "{" ((fix fields l := match l with
                                   | [] => "}"
                                   | (k, x) :: l => jstr k +:+ String ":" (json_text x +:+
                                       match l with [] => "}" | _ => String "," (fields l) end)
                                   end) l)
  end.

(** A field with [omitempty] *)
Definition jopt (k v : string) : list (string * json) := if bool_decide (v = "") then [] else [(k, JStr v)].

Example json_example :
  json_text (JObj [("n", JStr "A&B"); ("l", JArr [JNum (-5); JBool true]); ("e", JArr [])])
  = String "{" (jstr "n" +:+ ":" +:+ String dq "A\u0026B" +:+ String dq "," +:+ jstr "l" +:+ ":[-5,true]," +:+ jstr "e" +:+ ":[]}").
Proof. vm_compute. reflexivity. Qed.

(** ** The text determines the document *)

(** Reading one escaped byte *)
Definition unhex (c : ascii) : nat :=
  let n := Ascii.nat_of_ascii c in if (n <? 58)%nat then (n - 48)%nat else (n - 87)%nat.

Definition junchar (s : string) : option (ascii * string) :=
  match s with
  | String c s =>
      if bool_decide (c = dq) then None
      else if bool_decide (c = "\"%char) then
        match s with
        | String d s =>
            if bool_decide (d = "u"%char) then
              match s with
              | String _ (String _ (String a (String b s))) => Some (Ascii.ascii_of_nat (16 * unhex a + unhex b), s)
              | _ => None
              end
            else if bool_decide (d = "b"%char) then Some ("008"%char, s)
            else if bool_decide (d = "f"%char) then Some ("012"%char, s)
            else if bool_decide (d = "n"%char) then Some ("010"%char, s)
            else if bool_decide (d = "r"%char) then Some ("013"%char, s)
            else if bool_decide (d = "t"%char) then Some ("009"%char, s)
            else Some (d, s)
        | EmptyString => None
        end
      else Some (c, s)
  | EmptyString => None
  end.

Lemma junchar_jchar c s : junchar (jchar c +:+ s) = Some (c, s).
Proof. destruct c as [[] [] [] [] [] [] [] []]; reflexivity. Qed.

Lemma jesc_inj s s' r r' :
  jesc s +:+ String dq r = jesc s' +:+ String dq r' -> s = s' /\ r = r'.
Proof.
  revert s'. induction s as [|c s IH]; intros [|c' s']; cbn [jesc]; intros E.
  - change ("" +:+ String dq r) with (String dq r) in E. change ("" +:+ String dq r') with (String dq r') in E. by simplify_eq.
  - apply (f_equal junchar) in E. by rewrite <-!str_app_assoc, junchar_jchar in E.
  - apply (f_equal junchar) in E. by rewrite <-!str_app_assoc, junchar_jchar in E.
  - rewrite <-!str_app_assoc in E. apply (f_equal junchar) in E. rewrite !junchar_jchar in E.
    injection E as -> E. by destruct (IH s' E) as [-> ->].
Qed.

Lemma jstr_inj s s' r r' : jstr s +:+ r = jstr s' +:+ r' -> s = s' /\ r = r'.
Proof.
  unfold jstr. rewrite !str_app_cons. intros [= E]. rewrite <-!str_app_assoc in E. by apply jesc_inj in E.
Qed.

(** What may follow a value *)
Definition delim (s : string) : bool :=
  match s with String c _ => negb (Str.is_digit c) | EmptyString => true end.

Lemma pretty_N_char_digit n : Str.is_digit (pretty_N_char n) = true.
Proof. unfold pretty_N_char. repeat case_match; reflexivity. Qed.

Lemma pretty_N_go_all P n s :
  (forall x, P (pretty_N_char x) = true) -> Str.all P s = true -> Str.all P (pretty_N_go n s) = true.
Proof.
  intros HP. revert s. induction (N.lt_wf_0 n) as [n _ IH]; intros s Hs.
  destruct (decide (n = 0%N)) as [->|Hn]; [by rewrite pretty_N_go_0|].
  rewrite pretty_N_go_step by lia. apply IH; [apply N.div_lt; lia|]. cbn [Str.all]. by rewrite HP, Hs.
Qed.

Lemma pretty_N_digits (n : N) : Str.all Str.is_digit (pretty n) = true.
Proof.
  unfold pretty, pretty_N. case_decide; [reflexivity|].
  apply pretty_N_go_all; [apply pretty_N_char_digit|done].
Qed.

Lemma digits_app_inj a a' r r' :
  Str.all Str.is_digit a = true -> Str.all Str.is_digit a' = true -> delim r = true -> delim r' = true ->
  a +:+ r = a' +:+ r' -> a = a' /\ r = r'.
Proof.
  revert a'. induction a as [|c a IH]; intros [|c' a'] Ha Ha' Hr Hr' E.
  - done.
  - change ("" +:+ r) with r in E. subst r. rewrite str_app_cons in Hr. cbn in Ha', Hr. by destruct (Str.is_digit c').
  - change ("" +:+ r') with r' in E. subst r'. rewrite str_app_cons in Hr'. cbn in Ha, Hr'. by destruct (Str.is_digit c).
  - rewrite !str_app_cons in E. injection E as -> E. cbn [Str.all] in *. bools.
    by destruct (IH a' ltac:(done) ltac:(done) Hr Hr' E) as [-> ->].
Qed.

Lemma pretty_N_go_nonempty n s : s <> "" -> pretty_N_go n s <> "".
Proof.
  revert s. induction (N.lt_wf_0 n) as [n _ IH]; intros s Hs.
  destruct (decide (n = 0%N)) as [->|Hn]; [by rewrite pretty_N_go_0|].
  rewrite pretty_N_go_step by lia. apply IH; [apply N.div_lt; lia|done].
Qed.

Lemma pretty_N_head (n : N) : exists c s, pretty n = String c s /\ Str.is_digit c = true.
Proof.
  pose proof (pretty_N_digits n) as Hd. destruct (pretty n) as [|c s] eqn:E.
  - exfalso. unfold pretty, pretty_N in E. case_decide; [done|]. rewrite pretty_N_go_step in E by lia. revert E. by apply pretty_N_go_nonempty.
  - exists c, s. cbn in Hd. by apply andb_true_iff in Hd as [? _].
Qed.

(** A number is a sign and digits. *)
Lemma pretty_Z_cases (z : Z) :
  (exists n : N, pretty z = pretty n /\ z = Z.of_N n) \/ (exists n : N, pretty z = String "-" (pretty n) /\ z = - Z.of_N n).
Proof.
  destruct z as [|p|p]; [left; by exists 0%N|left; by exists (N.pos p)|right; by exists (N.pos p)].
Qed.

Lemma num_inj (z z' : Z) r r' :
  delim r = true -> delim r' = true -> pretty z +:+ r = pretty z' +:+ r' -> z = z' /\ r = r'.
Proof.
  intros Hr Hr'.
  destruct (pretty_Z_cases z) as [(n & -> & ->)|(n & -> & ->)];
    destruct (pretty_Z_cases z') as [(n' & -> & ->)|(n' & -> & ->)]; rewrite ?str_app_cons; intros E.
  - apply digits_app_inj in E as [E ->]; [|by auto using pretty_N_digits..]. apply (inj pretty) in E. by subst.
  - destruct (pretty_N_head n) as (c & s & Ec & Hc). rewrite Ec, str_app_cons in E. injection E as -> _. vm_compute in Hc. discriminate.
  - destruct (pretty_N_head n') as (c & s & Ec & Hc). rewrite Ec, str_app_cons in E. injection E as <- _. vm_compute in Hc. discriminate.
  - injection E as E. apply digits_app_inj in E as [E ->]; [|by auto using pretty_N_digits..].
    apply (inj pretty) in E. by subst.
Qed.

Section Induction.
Context (P : json -> Prop) (Hnull : P JNull) (Hbool : forall b, P (JBool b)) (Hnum : forall z, P (JNum z))
  (Hstr : forall s, P (JStr s)) (Harr : forall l, Forall P l -> P (JArr l))
  (Hobj : forall l, Forall (fun kx => P kx.2) l -> P (JObj l)).

Fixpoint json_rect' (j : json) : P j :=
  match j with
  | JNull => Hnull
  | JBool b => Hbool b
  | JNum z => Hnum z
  | JStr s => Hstr s
  | JArr l => Harr l ((fix go l : Forall P l :=
                         match l with [] => Forall_nil_2 _ | x :: l => Forall_cons_2 _ _ _ (json_rect' x) (go l) end) l)
  | JObj l => Hobj l ((fix go l : Forall (fun kx => P kx.2) l :=
                         match l with
                         | [] => Forall_nil_2 _
                         | kx :: l => Forall_cons_2 _ _ _ (json_rect' kx.2) (go l)
                         end) l)
  end.
End Induction.

(** The lists inside a document *)
Fixpoint items_text (l : list json) : string :=
  match l with
  | [] => "]"
  | x :: l => json_text x +:+ match l with [] => "]" | _ => String "," (items_text l) end
  end.
Fixpoint fields_text (l : list (string * json)) : string :=
  match l with
  | [] => "}"
  | (k, x) :: l => jstr k +:+ String ":" (json_text x +:+ match l with [] => "}" | _ => String "," (fields_text l) end)
  end.

Lemma json_text_arr l : json_text (JArr l) = String "[" (items_text l).
Proof. done. Qed.
Lemma json_text_obj l : json_text (JObj l) = String "{" (fields_text l).
Proof. done. Qed.

(** What starts the text of each kind of value *)
Definition kindOf (c : ascii) : option Z :=
  if bool_decide (c = dq) then Some 1 else if bool_decide (c = "["%char) then Some 2
  else if bool_decide (c = "{"%char) then Some 3 else if bool_decide (c = "n"%char) then Some 4
  else if bool_decide (c = "t"%char) then Some 5 else if bool_decide (c = "f"%char) then Some 6
  else if bool_decide (c = "-"%char) || Str.is_digit c then Some 7 else None.
Definition kind (j : json) : Z :=
  match j with JNull => 4 | JBool b => if b then 5 else 6 | JNum _ => 7 | JStr _ => 1 | JArr _ => 2 | JObj _ => 3 end.

Lemma json_text_head j : exists c s, json_text j = String c s /\ kindOf c = Some (kind j).
Proof.
  destruct j as [|[]|z|s|l|l]; try by eexists _, _.
  cbn [json_text kind]. destruct (pretty_Z_cases z) as [(n & -> & _)|(n & -> & _)]; [|by eexists _, _].
  destruct (pretty_N_head n) as (c & s & -> & Hc). exists c, s. split; [done|].
  destruct c as [[] [] [] [] [] [] [] []]; vm_compute in Hc |- *; congruence.
Qed.

Lemma kind_eq j j' r r' : json_text j +:+ r = json_text j' +:+ r' -> kind j = kind j'.
Proof.
  destruct (json_text_head j) as (c & s & -> & Hc), (json_text_head j') as (c' & s' & -> & Hc').
  rewrite !str_app_cons. intros E. injection E as -> _. congruence.
Qed.

Definition determined (j : json) : Prop :=
  forall j' r r', delim r = true -> delim r' = true -> json_text j +:+ r = json_text j' +:+ r' -> j = j' /\ r = r'.

Lemma head_not j c r r' : kindOf c = None -> json_text j +:+ r <> String c r'.
Proof. destruct (json_text_head j) as (d & s & -> & Hd). rewrite str_app_cons. intros Hc E. injection E as -> _. congruence. Qed.

Lemma items_inj l : Forall determined l ->
  forall l' r r', items_text l +:+ r = items_text l' +:+ r' -> l = l' /\ r = r'.
Proof.
  induction 1 as [|x l Hx Hl IH]; intros [|x' l'] r r'; cbn [items_text]; intros E.
  - rewrite !str_app_one in E. by injection E as <-.
  - rewrite <-str_app_assoc in E. symmetry in E. by apply (head_not _ "]") in E.
  - rewrite <-str_app_assoc in E. by apply (head_not _ "]") in E.
  - rewrite <-!str_app_assoc in E. apply Hx in E as [-> E]; [|by destruct l|by destruct l'].
    destruct l as [|y l], l' as [|y' l']; rewrite ?str_app_cons in E; try done.
    + rewrite !str_app_nil_l in E. by injection E as <-.
    + injection E as E. apply (IH (y' :: l')) in E as [-> ->]. done.
Qed.

Lemma jstr_not k c r r' : c <> dq -> jstr k +:+ r <> String c r'.
Proof. unfold jstr. rewrite str_app_cons. intros Hc E. by injection E as <- _. Qed.

Lemma fields_inj l : Forall (fun kx => determined kx.2) l ->
  forall l' r r', fields_text l +:+ r = fields_text l' +:+ r' -> l = l' /\ r = r'.
Proof.
  induction 1 as [|[k x] l Hx Hl IH]; intros [|[k' x'] l'] r r'; cbn [fields_text]; intros E.
  - rewrite !str_app_one in E. by injection E as <-.
  - rewrite <-str_app_assoc in E. symmetry in E. by apply (jstr_not _ "}") in E.
  - rewrite <-str_app_assoc in E. by apply (jstr_not _ "}") in E.
  - rewrite <-!str_app_assoc in E. apply jstr_inj in E as [-> E]. rewrite !str_app_cons in E. injection E as E.
    rewrite <-!str_app_assoc in E. cbn in Hx. apply Hx in E as [-> E]; [|by destruct l|by destruct l'].
    destruct l as [|y l], l' as [|y' l']; rewrite ?str_app_cons in E; try done.
    + rewrite !str_app_nil_l in E. by injection E as <-.
    + injection E as E. destruct y as [ky y], y' as [ky' y']. apply (IH ((ky', y') :: l')) in E as [-> ->]. done.
Qed.

Lemma json_determined j : determined j.
Proof.
  induction j as [|b|z|s|l Hl|l Hl] using json_rect'; intros j' r r' Hr Hr' E; pose proof (kind_eq _ _ _ _ E) as Hk.
  - destruct j' as [|[]|z'|s'|l'|l']; try done. cbn [json_text] in E. by simplify_eq/=.
  - destruct b, j' as [|[]|z'|s'|l'|l']; try done; cbn [json_text] in E; by simplify_eq/=.
  - destruct j' as [|[]|z'|s'|l'|l']; try done. apply num_inj in E as [-> ->]; done.
  - destruct j' as [|[]|z'|s'|l'|l']; try done. apply jstr_inj in E as [-> ->]; done.
  - destruct j' as [|[]|z'|s'|l'|l']; try done. rewrite !json_text_arr, !str_app_cons in E. injection E as E.
    apply items_inj in E as [-> ->]; done.
  - destruct j' as [|[]|z'|s'|l'|l']; try done. rewrite !json_text_obj, !str_app_cons in E. injection E as E.
    apply fields_inj in E as [-> ->]; done.
Qed.

(** Two documents with the same text are the same. *)
Lemma json_text_inj j j' : json_text j = json_text j' -> j = j'.
Proof.
  intros E. destruct (json_determined j j' "" ""); [done..|by rewrite !str_app_nil_r|done].
Qed.

(** ** Hexadecimal digests *)

Lemma hex_inj s t : hex s = hex t -> s = t.
Proof.
  assert (Hd : forall c, Ascii.ascii_of_nat (16 * unhex (hex_char (Ascii.nat_of_ascii c / 16)) +
                                    unhex (hex_char (Ascii.nat_of_ascii c mod 16))) = c).
  { intros c. destruct c as [[] [] [] [] [] [] [] []]; reflexivity. }
  revert t. induction s as [|c s IH]; intros [|d t]; cbn [hex]; intros E; [done..|].
  assert (E1 : hex_char (Ascii.nat_of_ascii c / 16) = hex_char (Ascii.nat_of_ascii d / 16)) by congruence.
  assert (E2 : hex_char (Ascii.nat_of_ascii c mod 16) = hex_char (Ascii.nat_of_ascii d mod 16)) by congruence.
  assert (E3 : hex s = hex t) by congruence. by rewrite <-(Hd c), <-(Hd d), E1, E2, (IH t E3).
Qed.
