(* ===== verification/Ids.v ===== *)
(** * Identifiers (the [ULID] of services/pos-vat/types.go and of the shared.go
    of services/vasp-carf and services/case-mgmt)

    A fresh identifier is 64 bits of milliseconds and 64 random bits, written
    in 26 characters of Crockford's base 32.  The generator remembers the last
    time it used and never goes back.  The clock and the random bytes are
    arguments.  Elsewhere in the development the fresh identifiers of a request
    are arguments too; [ulid_injective] says when they differ. *)

From S2P Require Import Prelude StrFacts Crypto.

Definition crockford : string := "0123456789ABCDEFGHJKMNPQRSTVWXYZ".

Definition bits_of_byte (c : ascii) : list bool :=
  map (fun i => Z.testbit (byte_val c) i) [7; 6; 5; 4; 3; 2; 1; 0].

Definition bits_of (s : string) : list bool := flat_map bits_of_byte (String.list_ascii_of_string s).

(** [v = v<<1 | bit], five times; bits past the end are zero *)
Definition take_bit (bits : list bool) (i : nat) : Z := if nth i bits false then 1 else 0.
Definition group (bits : list bool) : Z :=
  foldl (fun v j => Z.lor (Z.shiftl v 1) (take_bit bits j)) 0 [0; 1; 2; 3; 4]%nat.

Definition crockford_char (v : Z) : ascii := nth (Z.to_nat v) (String.list_ascii_of_string crockford) "0"%char.

(** The [n] characters from the bit [5 * i] on *)
Fixpoint encode (n : nat) (bits : list bool) : string :=
  match n with
  | O => EmptyString
  | S n => String (crockford_char (group bits)) (encode n (drop 5 bits))
  end.

(** [rand]: the eight random bytes *)
Definition ULID_text (now : Z) (rand : string) : string := encode 26 (bits_of (be64 now +:+ rand)).

(** The generator: [last] is [ulidLast], the state *)
Definition ULID (now : Z) (rand : string) (last : Z) : Z * string :=
  let now := if now <? last then last else now in
  (now, ULID_text now rand).

(** ** Auxiliary lemmas *)

Section Encoding.

Lemma crockford_group_inj (a b : list bool) :
  length a = 5%nat -> length b = 5%nat -> crockford_char (group a) = crockford_char (group b) -> a = b.
Proof.
  intros Ha Hb.
  do 5 (destruct a as [|? a]; [done|]). destruct a; [|done].
  do 5 (destruct b as [|? b]; [done|]). destruct b; [|done]. clear Ha Hb.
  repeat match goal with x : bool |- _ => destruct x end; vm_compute; congruence.
Qed.

Lemma group_take bits : (5 <= length bits)%nat -> group bits = group (take 5 bits).
Proof. intros H. do 5 (destruct bits as [|? bits]; [simpl in H; lia|]). done. Qed.

Lemma encode_inj n a b :
  length a = length b -> (5 * n <= length a)%nat -> encode n a = encode n b -> take (5 * n) a = take (5 * n) b.
Proof.
  revert a b. induction n as [|n IH]; intros a b Hl Hn; [done|]. simpl encode. intros [= Hc He].
  rewrite (group_take a), (group_take b) in Hc by lia.
  apply crockford_group_inj in Hc; [|rewrite length_take; lia ..].
  specialize (IH (drop 5 a) (drop 5 b)). rewrite !length_drop in IH.
  specialize (IH ltac:(lia) ltac:(lia) He).
  replace (5 * S n)%nat with (5 + 5 * n)%nat by lia. rewrite <- !take_take_drop. by rewrite Hc, IH.
Qed.

(** Bits past the end count as zero. *)
Lemma nth_drop_bits k i (a : list bool) : nth i (drop k a) false = nth (k + i) a false.
Proof. revert a. induction k as [|k IH]; intros [|x a]; simpl; [done | done | by destruct i | apply IH]. Qed.

Lemma encode_ext n a b : (forall i, nth i a false = nth i b false) -> encode n a = encode n b.
Proof.
  revert a b. induction n as [|n IH]; intros a b H; [done|]. cbn [encode]. f_equal.
  - unfold group, take_bit. cbn [foldl]. by rewrite !H.
  - apply IH. intros i. by rewrite !nth_drop_bits.
Qed.

Lemma encode_pad n a : encode n (a ++ [false; false]) = encode n a.
Proof.
  apply encode_ext. intros i. destruct (Nat.lt_ge_cases i (length a)) as [Hi|Hi].
  - by rewrite app_nth1.
  - rewrite app_nth2, (nth_overflow a) by done. destruct (i - length a)%nat as [|[|[|k]]]; done.
Qed.

Lemma bits_of_byte_eq a b c d e f g h :
  bits_of_byte (Ascii a b c d e f g h) = [h; g; f; e; d; c; b; a].
Proof. destruct a, b, c, d, e, f, g, h; reflexivity. Qed.

Lemma bits_of_byte_inj c d : bits_of_byte c = bits_of_byte d -> c = d.
Proof. destruct c, d. rewrite !bits_of_byte_eq. by intros [= -> -> -> -> -> -> -> ->]. Qed.

Lemma bits_of_inj s t : String.length s = String.length t -> bits_of s = bits_of t -> s = t.
Proof.
  unfold bits_of. revert t. induction s as [|c s IH]; intros [|d t] Hl He; [done..|].
  cbn [String.list_ascii_of_string flat_map] in He. injection Hl as Hl.
  apply app_inj_1 in He as [Hc He]; [|done]. f_equal; [by apply bits_of_byte_inj | by apply IH].
Qed.

Lemma length_bits_of s : length (bits_of s) = (8 * String.length s)%nat.
Proof. unfold bits_of. induction s as [|c s IH]; [done|]. simpl in *. rewrite IH. lia. Qed.
End Encoding.

Section Bytes.
Lemma be_bytes_length n z : String.length (be_bytes n z) = n.
Proof. revert z. induction n as [|n IH]; intros z; [done|]. simpl. rewrite str_length_app, IH. simpl. lia. Qed.

(** The low byte of a number as a character *)
Lemma byte_inj x y : 0 <= x < 256 -> 0 <= y < 256 ->
  Ascii.ascii_of_N (Z.to_N x) = Ascii.ascii_of_N (Z.to_N y) -> x = y.
Proof.
  intros Hx Hy E. apply (f_equal Ascii.N_of_ascii) in E.
  rewrite !Ascii.N_ascii_embedding in E by lia. lia.
Qed.

Lemma be_bytes_inj n x y :
  0 <= x < 2 ^ (8 * Z.of_nat n) -> 0 <= y < 2 ^ (8 * Z.of_nat n) -> be_bytes n x = be_bytes n y -> x = y.
Proof.
  revert x y. induction n as [|n IH]; intros x y Hx Hy; [intros _; simpl in *; lia|]. simpl be_bytes. intros He.
  apply str_app_inj in He as [Hh Hl]; [|by rewrite !be_bytes_length]. injection Hl as Hl.
  replace (8 * Z.of_nat (S n)) with (8 * Z.of_nat n + 8) in Hx, Hy by lia.
  rewrite Z.pow_add_r in Hx, Hy by lia.
  rewrite !Z.shiftr_div_pow2 in Hh by lia.
  assert (Hdx : forall z, Z.land z 255 = z mod 256) by (intros z; apply (Z.land_ones z 8); lia).
  rewrite !Hdx in Hl. apply byte_inj in Hl; [|apply Z.mod_pos_bound; lia..].
  assert (Hq : x / 2 ^ 8 = y / 2 ^ 8).
  { apply IH; [..|exact Hh]; (split; [apply Z.div_pos; lia | apply Z.div_lt_upper_bound; lia]). }
  pose proof (Z.div_mod x 256). pose proof (Z.div_mod y 256). change (2 ^ 8) with 256 in *. lia.
Qed.
End Bytes.

(** ** Properties *)

(** Identifiers are as unique as their sources: two of them are equal only
    if the clock readings used and the eight random bytes are equal, and the
    clock reading used never decreases over the calls of a process. *)
Theorem ulid_injective (now now' last last' : Z) (rand rand' : string) :
  let '(t, id) := ULID now rand last in
  let '(t', id') := ULID now' rand' last' in
  0 <= t < 2 ^ 64 -> 0 <= t' < 2 ^ 64 -> String.length rand = 8%nat -> String.length rand' = 8%nat ->
  (id = id' -> t = t' /\ rand = rand') /\ last <= t /\ (last <= now -> t = now).
Proof.
  unfold ULID. set (t := if now <? last then last else now). set (t' := if now' <? last' then last' else now').
  intros Ht Ht' Hr Hr'. split; [|subst t; destruct (now <? last) eqn:E; bools; lia].
  intros He. unfold ULID_text in He. rewrite <- (encode_pad 26 (bits_of (be64 t +:+ rand))),
    <- (encode_pad 26 (bits_of (be64 t' +:+ rand'))) in He.
  assert (Hlen : forall z r, String.length r = 8%nat -> length (bits_of (be64 z +:+ r) ++ [false; false]) = 130%nat).
  { intros z r Hz. rewrite length_app, length_bits_of, str_length_app. unfold be64. by rewrite be_bytes_length, Hz. }
  apply encode_inj in He; [|rewrite !Hlen by done; lia..].
  rewrite !take_ge in He by (rewrite Hlen by done; lia).
  apply app_inj_2 in He as [He _]; [|done].
  apply bits_of_inj in He; [|rewrite !str_length_app; unfold be64; rewrite !be_bytes_length; lia].
  apply str_app_inj in He as [Hb ->]; [|unfold be64; by rewrite !be_bytes_length].
  split; [|done]. apply (be_bytes_inj 8) in Hb; [done | exact Ht | exact Ht'].
Qed.

(** ** Witnesses *)

Theorem ulid_injective_witness :
  let r := String (Ascii.ascii_of_nat 200) "abcdefg" in
  (ULID 1735689600000 r 0).2 = "0000350Z55Y01J31C9HP8SB6CW" /\
  ((ULID 1735689600000 r 0).2 = (ULID 5 r 1735689600000).2 -> 1735689600000 = 1735689600000 /\ r = r).
Proof.
  split; [vm_compute; reflexivity|].
  refine (proj1 (ulid_injective 1735689600000 5 0 1735689600000 (String (Ascii.ascii_of_nat 200) "abcdefg")
    (String (Ascii.ascii_of_nat 200) "abcdefg") _ _ eq_refl eq_refl)); vm_compute; split; congruence.
Defined.
