(* ===== verification/Auth.v ===== *)
(** * Authentication (services/pos-vat/types.go, services/vasp-carf/shared.go
    and main.go, services/case-mgmt/shared.go and main.go)

    The HS256 verification of bearer tokens and the three [auth] middlewares.
    A request is its header; a middleware answers 401 or passes the request on
    with what it established of the caller.  The Keycloak verifier of
    packages/authx (modelled in Authx) is a parameter here, as is the decoding of the claims' JSON
    document. *)

From S2P Require Import Prelude Crypto.

Record Claims := mkClaims {
  Sub : string;
  Roles : list string;
  c_TenantID : string;
  Exp : Z;
}.

(** ** [base64.RawURLEncoding.DecodeString] *)

Definition b64_val (c : ascii) : option Z :=
  let n := byte_val c in
  if (65 <=? n) && (n <=? 90) then Some (n - 65)
  else if (97 <=? n) && (n <=? 122) then Some (n - 71)
  else if (48 <=? n) && (n <=? 57) then Some (n + 4)
  else if n =? 45 then Some 62
  else if n =? 95 then Some 63
  else None.

Definition byte_char (n : Z) : ascii := Ascii.ascii_of_N (Z.to_N n).

(** Groups of four characters; a rest of two or three is one or two bytes,
    whose spare bits are not looked at; a rest of one is an error. *)
Fixpoint decode_vals (l : list Z) : option string :=
  match l with
  | [] => Some EmptyString
  | [_] => None
  | [a; b] => Some (String (byte_char (Z.shiftr (Z.lor (Z.shiftl a 6) b) 4)) EmptyString)
  | [a; b; c] =>
      let v := Z.lor (Z.shiftl (Z.lor (Z.shiftl a 6) b) 6) c in
      Some (String (byte_char (Z.shiftr v 10)) (String (byte_char (Z.land (Z.shiftr v 2) 255)) EmptyString))
  | a :: b :: c :: d :: l =>
      let v := Z.lor (Z.shiftl (Z.lor (Z.shiftl (Z.lor (Z.shiftl a 6) b) 6) c) 6) d in
      match decode_vals l with
      | Some s => Some (String (byte_char (Z.shiftr v 16))
                    (String (byte_char (Z.land (Z.shiftr v 8) 255)) (String (byte_char (Z.land v 255)) s)))
      | None => None
      end
  end.

(** Go's decoder skips line feeds and carriage returns. *)
Definition b64_decode (s : string) : option string :=
  let cs := List.filter (fun c => negb (bool_decide (c = Ascii.ascii_of_nat 10)) &&
                                  negb (bool_decide (c = Ascii.ascii_of_nat 13))) (String.list_ascii_of_string s) in
  match mapM b64_val cs with
  | Some vs => decode_vals vs
  | None => None
  end.

(** ** HS256 *)

Inductive tokenError := malformedToken | badSignature | badPayload | badClaims | tokenExpired.

Section HS256.
Context `{Crypto} (decodeClaims : string -> option Claims).

(** [now]: seconds *)
Definition verifyHS256 (now : Z) (token secret : string) : result tokenError Claims :=
  match Str.split "."%char token with
  | [p0; p1; p2] =>
      match b64_decode p2 with
      | None => Err badSignature
      | Some sig =>
          if negb (bool_decide (hmac256 secret (p0 +:+ "." +:+ p1) = sig)) then Err badSignature
          else match b64_decode p1 with
               | None => Err badPayload
               | Some payload =>
                   match decodeClaims payload with
                   | None => Err badClaims
                   | Some c =>
                       if negb (Exp c =? 0) && (Exp c <? now) then Err tokenExpired else Ok c
                   end
               end
      end
  | _ => Err malformedToken
  end.

(** What the issuer of a token does with a header and a payload *)
Definition signHS256 (header payload secret : string) : string :=
  let p0 := b64url header in
  let p1 := b64url payload in
  p0 +:+ "." +:+ p1 +:+ "." +:+ b64url (hmac256 secret (p0 +:+ "." +:+ p1)).
End HS256.

(** ** The middlewares *)

(** The first value of each header, by canonical name *)
Abbreviation Header := (gmap string string).
Definition header (k : string) (h : Header) : string := default "" (h !! k).

Record AuthConfig := mkAuthConfig {
  AuthMode : string;
  JWTSecret : string;
}.

(** The Keycloak verifier: [Some] of the claims of a token it accepts *)
Abbreviation Verifier := (string -> option Claims).

Definition bearer (h : Header) : option string :=
  let a := header "Authorization" h in
  if Str.has_prefix a "Bearer " then Some (Str.trim_prefix a "Bearer ") else None.

Definition devRoles : list string := ["admin"; "operator"; "auditor"].

Section Middlewares.
Context `{Crypto} (decodeClaims : string -> option Claims).

(** [devClaims] of an allowlisted X-Dev-Role *)
Definition devClaims (h : Header) : option Claims :=
  let role := header "X-Dev-Role" h in
  if bool_decide (role ∈ devRoles)
  then Some (mkClaims ("dev-" +:+ role) [role] (header "X-Tenant-ID" h) 0) else None.

(** services/pos-vat/types.go; [None] is 401 *)
Definition posAuth (cfg : AuthConfig) (kc : Verifier) (now : Z) (h : Header) : option Claims :=
  match bearer h with
  | Some tok =>
      if bool_decide (AuthMode cfg = "keycloak") then kc tok
      else match verifyHS256 decodeClaims now tok (JWTSecret cfg) with Ok c => Some c | Err _ => None end
  | None => if bool_decide (AuthMode cfg = "dev") then devClaims h else None
  end.

(** services/vasp-carf/main.go; [kc] is set exactly when a verifier was
    configured at startup *)
Definition carfAuth (cfg : AuthConfig) (kc : option Verifier) (now : Z) (h : Header) : option Claims :=
  match bearer h with
  | Some tok =>
      match kc with
      | Some verify => verify tok
      | None => match verifyHS256 decodeClaims now tok (JWTSecret cfg) with Ok c => Some c | Err _ => None end
      end
  | None =>
      match kc with
      | None => if bool_decide (AuthMode cfg = "dev") then devClaims h else None
      | Some _ => None
      end
  end.

(** services/case-mgmt/main.go: identity headers are removed first; the
    handler reads the ones set here *)
Definition identityHeader (k : string) : bool :=
  bool_decide (k = "X-Role") || bool_decide (k = "X-Subject") ||
  Str.has_prefix (Str.to_lower k) "x-meridian-".

Definition strip (h : Header) : Header := filter (fun kv => identityHeader kv.1 = false) h.

Definition withClaims (c : Claims) (h : Header) : Header :=
  let h := <["X-Subject" := "user:" +:+ Sub c]> h in
  match Roles c with
  | role :: _ => <["X-Role" := role]> h
  | [] => h
  end.

Definition caseAuth (cfg : AuthConfig) (kc : option Verifier) (now : Z) (h : Header) : option Header :=
  let h := strip h in
  match bearer h with
  | Some tok =>
      match kc with
      | Some verify => match verify tok with Some c => Some (withClaims c h) | None => None end
      | None =>
          match verifyHS256 decodeClaims now tok (JWTSecret cfg) with
          | Ok c => Some (withClaims c h)
          | Err _ => None
          end
      end
  | None =>
      if bool_decide (AuthMode cfg = "dev") then
        let role := header "X-Dev-Role" h in
        if bool_decide (role = "") then None
        else
          let subj := Str.or_default (header "X-Dev-Subject" h) ("dev-" +:+ role) in
          Some (<["X-Role" := role]> (<["X-Subject" := "user:" +:+ subj]> h))
      else None
  end.

Definition subjectOf (h : Header) : string := header "X-Subject" h.
Definition roleOf (h : Header) : string := header "X-Role" h.
End Middlewares.

(** ** [resolveTINKey] of services/pos-vat/types.go: [None] refuses to start *)
Definition devTINKey : string := "meridian-dev-tin-key".
Definition resolveTINKey (key profile authMode : string) : option string :=
  let prod := bool_decide (profile = "prod") || bool_decide (authMode = "keycloak") in
  if bool_decide (key = "") || bool_decide (key = devTINKey)
  then (if prod then None else Some devTINKey)
  else Some key.

(** ** Auxiliary lemmas: base 64 *)

Section Base64.

Lemma lor_shiftl_add a b n : 0 <= n -> 0 <= b < 2 ^ n -> Z.lor (Z.shiftl a n) b = a * 2 ^ n + b.
Proof.
  intros Hn Hb. rewrite <- Z.shiftl_mul_pow2 by done.
  assert (E : Z.land (Z.shiftl a n) b = 0).
  { apply Z.bits_inj'. intros i Hi. rewrite Z.land_spec, Z.bits_0.
    destruct (Z.lt_ge_cases i n); [by rewrite Z.shiftl_spec_low|].
    rewrite <- (Z.mod_small b (2 ^ n)), Z.mod_pow2_bits_high by lia. apply andb_false_r. }
  rewrite <- Z.lxor_lor by done. symmetry. by apply Z.add_nocarry_lxor.
Qed.

Lemma b64_val_char n : 0 <= n < 64 -> b64_val (b64_char n) = Some n.
Proof.
  intros Hn. assert (H : forallb (fun n => bool_decide (b64_val (b64_char n) = Some n)) (seqZ 0 64) = true)
    by (vm_compute; reflexivity).
  rewrite forallb_forall in H.
  assert (Hb : bool_decide (b64_val (b64_char n) = Some n) = true)
    by (apply H, list_elem_of_In, elem_of_seqZ; lia).
  by apply bool_decide_eq_true_1 in Hb.
Qed.

(** The values of the characters of an encoding *)
Fixpoint enc_vals (s : string) : list Z :=
  match s with
  | EmptyString => []
  | String a EmptyString =>
      let v := Z.shiftl (byte_val a) 4 in [Z.shiftr v 6; Z.land v 63]
  | String a (String b EmptyString) =>
      let v := Z.shiftl (Z.shiftl (byte_val a) 8 + byte_val b) 2 in
      [Z.shiftr v 12; Z.land (Z.shiftr v 6) 63; Z.land v 63]
  | String a (String b (String c s')) =>
      let v := Z.shiftl (byte_val a) 16 + Z.shiftl (byte_val b) 8 + byte_val c in
      Z.shiftr v 18 :: Z.land (Z.shiftr v 12) 63 :: Z.land (Z.shiftr v 6) 63 :: Z.land v 63 :: enc_vals s'
  end.

Lemma string_ind3 (P : string -> Prop) :
  P "" -> (forall a, P (String a "")) -> (forall a b, P (String a (String b ""))) ->
  (forall a b c s, P s -> P (String a (String b (String c s)))) -> forall s, P s.
Proof.
  intros H0 H1 H2 H3. fix IH 1. intros [|a [|b [|c s]]]; [done | apply H1 | apply H2 |].
  apply H3, IH.
Qed.

Lemma byte_range c : 0 <= byte_val c < 256.
Proof. unfold byte_val. pose proof (Ascii.N_ascii_bounded c). lia. Qed.

Lemma byte_char_val c : byte_char (byte_val c) = c.
Proof. unfold byte_char, byte_val. by rewrite N2Z.id, Ascii.ascii_N_embedding. Qed.

Lemma land63 z : Z.land z 63 = z mod 64.
Proof. apply (Z.land_ones z 6). lia. Qed.
Lemma land255 z : Z.land z 255 = z mod 256.
Proof. apply (Z.land_ones z 8). lia. Qed.

Ltac shifts := rewrite ?land63, ?land255, ?Z.shiftr_div_pow2, ?Z.shiftl_mul_pow2 by lia.
Ltac pows :=
  change (2 ^ 4) with 16 in *; change (2 ^ 6) with 64 in *; change (2 ^ 12) with 4096 in *;
  change (2 ^ 18) with 262144 in *; change (2 ^ 8) with 256 in *; change (2 ^ 16) with 65536 in *;
  change (2 ^ 2) with 4 in *; change (2 ^ 10) with 1024 in *.
Ltac in_range :=
  first [apply Z.mod_pos_bound; lia | split; [apply Z.div_pos; lia | apply Z.div_lt_upper_bound; lia]].

Lemma list_b64url s : String.list_ascii_of_string (b64url s) = map b64_char (enc_vals s).
Proof. induction s using string_ind3; [done..|]. simpl. by rewrite IHs. Qed.

Lemma enc_vals_range s : Forall (fun n => 0 <= n < 64) (enc_vals s).
Proof.
  induction s as [|a|a b|a b c s IH] using string_ind3; cbn [enc_vals]; cbv zeta;
    try pose proof (byte_range a); try pose proof (byte_range b); try pose proof (byte_range c);
    shifts; pows; repeat (apply Forall_cons; split); try (by apply Forall_nil); try exact IH; in_range.
Qed.

(** Putting 6-bit values back together *)
Lemma lor6 a b : 0 <= b < 64 -> Z.lor (a * 64) b = a * 64 + b.
Proof. intros Hb. change 64 with (2 ^ 6) at 1. rewrite <- Z.shiftl_mul_pow2 by lia. by apply (lor_shiftl_add a b 6). Qed.

Lemma join2 v : Z.lor (v / 64 * 64) (v mod 64) = v.
Proof.
  rewrite lor6 by (apply Z.mod_pos_bound; lia). pose proof (Z.div_mod v 64 ltac:(lia)). lia.
Qed.

Lemma join3 v : Z.lor (Z.lor (v / 4096 * 64) (v / 64 mod 64) * 64) (v mod 64) = v.
Proof. change 4096 with (64 * 64). rewrite <- Z.div_div by lia. by rewrite !join2. Qed.

Lemma join4 v :
  Z.lor (Z.lor (Z.lor (v / 262144 * 64) (v / 4096 mod 64) * 64) (v / 64 mod 64) * 64) (v mod 64) = v.
Proof.
  change 262144 with (64 * 4096). change 4096 with (64 * 64). rewrite <- !Z.div_div by lia. by rewrite !join2.
Qed.

Lemma decode_enc s : decode_vals (enc_vals s) = Some s.
Proof.
  induction s as [|a|a b|a b c s IH] using string_ind3; cbn [enc_vals]; cbv zeta; [done|..];
    cbn [decode_vals]; shifts; pows.
  - rewrite join2. pose proof (byte_range a).
    rewrite Z.div_mul by lia. by rewrite byte_char_val.
  - rewrite join3. pose proof (byte_range a). pose proof (byte_range b).
    rewrite (Z.div_mul _ 4) by lia. change 1024 with (4 * 256). rewrite <- Z.div_div, Z.div_mul by lia.
    rewrite (Z.add_comm (_ * 256)), Z.mod_add, Z.div_add, Z.mod_small, Z.div_small by lia.
    by rewrite Z.add_0_l, !byte_char_val.
  - rewrite IH. rewrite join4. pose proof (byte_range a). pose proof (byte_range b). pose proof (byte_range c).
    set (v := byte_val a * 65536 + byte_val b * 256 + byte_val c).
    assert (Hv : v mod 256 = byte_val c /\ v / 256 mod 256 = byte_val b /\ v / 65536 = byte_val a).
    { subst v. replace (byte_val a * 65536 + byte_val b * 256 + byte_val c)
        with (byte_val c + (byte_val b + byte_val a * 256) * 256) by lia.
      rewrite Z.mod_add, Z.div_add, Z.mod_small, (Z.div_small (byte_val c)), Z.add_0_l by lia.
      rewrite Z.mod_add, Z.mod_small by lia. split; [done|]. split; [done|].
      change 65536 with (256 * 256). rewrite <- Z.div_div, Z.div_add, (Z.div_small (byte_val c) 256), Z.add_0_l by lia.
      rewrite Z.div_add, (Z.div_small (byte_val b) 256) by lia. lia. }
    destruct Hv as (-> & -> & ->). by rewrite !byte_char_val.
Qed.

Lemma b64_char_plain n : 0 <= n < 64 ->
  b64_char n <> Ascii.ascii_of_nat 10 /\ b64_char n <> Ascii.ascii_of_nat 13 /\ b64_char n <> "."%char.
Proof.
  intros Hn. assert (H : forallb (fun n => bool_decide (b64_char n <> Ascii.ascii_of_nat 10 /\
    b64_char n <> Ascii.ascii_of_nat 13 /\ b64_char n <> "."%char)) (seqZ 0 64) = true) by (vm_compute; reflexivity).
  rewrite forallb_forall in H.
  assert (Hb : bool_decide (b64_char n <> Ascii.ascii_of_nat 10 /\
    b64_char n <> Ascii.ascii_of_nat 13 /\ b64_char n <> "."%char) = true)
    by (apply H, list_elem_of_In, elem_of_seqZ; lia).
  by apply bool_decide_eq_true_1 in Hb.
Qed.

(** Decoding inverts encoding. *)
Lemma b64_roundtrip s : b64_decode (b64url s) = Some s.
Proof.
  unfold b64_decode. rewrite list_b64url. pose proof (enc_vals_range s) as Hr.
  assert (Hf : List.filter (fun c => negb (bool_decide (c = Ascii.ascii_of_nat 10)) &&
      negb (bool_decide (c = Ascii.ascii_of_nat 13))) (map b64_char (enc_vals s)) = map b64_char (enc_vals s)).
  { induction Hr as [|n l Hn _ IH]; [done|]. cbn [map List.filter].
    destruct (b64_char_plain n Hn) as (H1 & H2 & _). by rewrite !bool_decide_false, IH. }
  rewrite Hf. assert (Hm : mapM b64_val (map b64_char (enc_vals s)) = Some (enc_vals s)).
  { clear Hf. induction Hr as [|n l Hn _ IH]; [done|]. cbn [map]. change (b64_val (b64_char n) ≫= (fun x => mapM b64_val (map b64_char l) ≫= (fun k => Some (x :: k))) = Some (n :: l)). by rewrite b64_val_char, IH. }
  rewrite Hm. apply decode_enc.
Qed.

Lemma split_cons c s : c <> "."%char ->
  Str.split "."%char (String c s) = match Str.split "."%char s with [] => [String c ""] | w :: ws => String c w :: ws end.
Proof. intros Hc. cbn [Str.split]. by rewrite (bool_decide_false _ Hc). Qed.

(** An encoding holds no dot. *)
Lemma split_b64url s t :
  Str.split "."%char (b64url s +:+ "." +:+ t) = b64url s :: Str.split "."%char t.
Proof.
  pose proof (enc_vals_range s) as Hr. pose proof (list_b64url s) as Hl. revert Hr Hl.
  generalize (enc_vals s) as vs, (b64url s) as u. intros vs u Hr. revert u.
  induction Hr as [|n l Hn _ IH]; intros [|c u]; cbn [String.list_ascii_of_string map]; intros He; try discriminate He.
  - change (Str.split "."%char (String "."%char t) = "" :: Str.split "."%char t). done.
  - injection He as -> Hu. change (String (b64_char n) u +:+ "." +:+ t) with (String (b64_char n) (u +:+ "." +:+ t)).
    destruct (b64_char_plain n Hn) as (_ & _ & Hd). rewrite split_cons by done. by rewrite IH.
Qed.

Lemma split_b64url_last s : Str.split "."%char (b64url s) = [b64url s].
Proof.
  pose proof (enc_vals_range s) as Hr. pose proof (list_b64url s) as Hl. revert Hr Hl.
  generalize (enc_vals s) as vs, (b64url s) as u. intros vs u Hr. revert u.
  induction Hr as [|n l Hn _ IH]; intros [|c u]; cbn [String.list_ascii_of_string map]; intros He; try discriminate He; [done|].
  injection He as -> Hu. destruct (b64_char_plain n Hn) as (_ & _ & Hd). rewrite split_cons by done. by rewrite IH.
Qed.
End Base64.

(** ** Auxiliary lemmas: headers *)

Section Headers.

Lemma header_strip k h : identityHeader k = false -> header k (strip h) = header k h.
Proof.
  intros Hk. unfold header, strip. destruct (h !! k) as [v|] eqn:E.
  - rewrite (map_lookup_filter_Some_2 _ h k v); done.
  - rewrite (proj2 (map_lookup_filter_None _ h k)); [done|]. by left.
Qed.

Lemma strip_identity k h : identityHeader k = true -> header k (strip h) = "".
Proof.
  intros Hk. unfold header, strip. rewrite (proj2 (map_lookup_filter_None _ h k)); [done|].
  right. intros v _. simpl. congruence.
Qed.

(** Two requests that agree on everything but identity headers *)
Lemma strip_eq h h' :
  (forall k, identityHeader k = false -> h !! k = h' !! k) -> strip h = strip h'.
Proof.
  intros He. apply map_eq. intros k. unfold strip. destruct (identityHeader k) eqn:Hk.
  - rewrite !(proj2 (map_lookup_filter_None _ _ k)); [done | right; intros v _; simpl; congruence ..].
  - specialize (He k Hk). destruct (h !! k) as [v|] eqn:E.
    + rewrite (map_lookup_filter_Some_2 _ h k v), (map_lookup_filter_Some_2 _ h' k v); done.
    + rewrite !(proj2 (map_lookup_filter_None _ _ k)); [done | by left; congruence ..].
Qed.
End Headers.

(** ** Properties *)

Section AuthProperties.
Context `{Crypto} (decodeClaims : string -> option Claims).

(** Token verification is sound and complete.  A token made with the secret
    is accepted exactly when its payload decodes to claims that have not
    expired, and yields those claims; and a token accepted carries the MAC,
    under the secret, of its own header and payload. *)
Theorem hs256_sound_complete (now : Z) (secret : string) :
  (forall hd payload c, decodeClaims payload = Some c ->
     verifyHS256 decodeClaims now (signHS256 hd payload secret) secret =
       (if negb (Exp c =? 0) && (Exp c <? now) then Err tokenExpired else Ok c)) /\
  (forall token c, verifyHS256 decodeClaims now token secret = Ok c ->
     exists p0 p1 p2 payload,
       Str.split "."%char token = [p0; p1; p2] /\
       b64_decode p2 = Some (hmac256 secret (p0 +:+ "." +:+ p1)) /\
       b64_decode p1 = Some payload /\ decodeClaims payload = Some c /\ (Exp c = 0 \/ now <= Exp c)).
Proof.
  split.
  - intros hd payload c Hc. unfold verifyHS256, signHS256.
    rewrite split_b64url, split_b64url, split_b64url_last, b64_roundtrip.
    rewrite bool_decide_true by done. cbn [negb]. by rewrite b64_roundtrip, Hc.
  - intros token c. unfold verifyHS256. destruct (Str.split _ token) as [|p0 [|p1 [|p2 [|]]]]; try done.
    destruct (b64_decode p2) as [sig|] eqn:Es; [|done].
    destruct (bool_decide (_ = sig)) eqn:Em; bools; cbn [negb]; [|done]. subst sig.
    destruct (b64_decode p1) as [payload|] eqn:Ep; [|done]. destruct (decodeClaims payload) as [c'|] eqn:Ec; [|done].
    destruct (_ && _) eqn:Ex; [done|]. intros [= ->]. exists p0, p1, p2, payload.
    split_and!; try done. apply andb_false_iff in Ex as [Ex|Ex]; bools; [left|right]; lia.
Qed.

(** Keycloak mode fails closed in all three services: a request passes only
    with a bearer token that the verifier accepts, and then with those very
    claims; no header but Authorization matters for that, X-Dev-Role least of
    all. *)
Theorem keycloak_fails_closed (cfg : AuthConfig) (verify : Verifier) (now : Z) (h : Header) :
  AuthMode cfg = "keycloak" ->
  let claims := tok ← bearer h; verify tok in
  posAuth decodeClaims cfg verify now h = claims /\
  carfAuth decodeClaims cfg (Some verify) now h = claims /\
  (forall h', caseAuth decodeClaims cfg (Some verify) now h = Some h' ->
     exists c, claims = Some c /\ subjectOf h' = "user:" +:+ Sub c /\ roleOf h' = default "" (head (Roles c))) /\
  (claims = None -> caseAuth decodeClaims cfg (Some verify) now h = None).
Proof.
  intros Hk claims. subst claims. unfold posAuth, carfAuth, caseAuth. rewrite Hk.
  assert (Hb : bearer (strip h) = bearer h) by (unfold bearer; by rewrite header_strip).
  rewrite Hb. destruct (bearer h) as [tok|]; simpl; [|done].
  split_and!; try done.
  - intros h'. destruct (verify tok) as [c|]; [|done]. intros [= <-]. exists c. split; [done|].
    unfold withClaims, subjectOf, roleOf. destruct (Roles c) as [|r rs].
    + split; [unfold header; by rewrite lookup_insert_eq|].
      unfold header. rewrite lookup_insert_ne by done. by apply (strip_identity "X-Role").
    + unfold header. split; [by rewrite lookup_insert_ne, lookup_insert_eq | by rewrite lookup_insert_eq].
  - by intros ->.
Qed.

(** In case-mgmt identity is never taken from the request: two requests
    that differ only in X-Role, X-Subject or any X-Meridian header get the
    same answer and are passed on with the same header. *)
Theorem case_identity_not_forgeable (cfg : AuthConfig) (kc : option Verifier) (now : Z) (h h' : Header) :
  (forall k, identityHeader k = false -> h !! k = h' !! k) ->
  caseAuth decodeClaims cfg kc now h = caseAuth decodeClaims cfg kc now h'.
Proof. intros He. unfold caseAuth. by rewrite (strip_eq h h' He). Qed.

(** The dev roles are allowlisted in pos-vat and vasp-carf, but not in
    case-mgmt: without a bearer token the first two let a request pass, in dev
    mode, exactly with one of the three roles, while case-mgmt takes any
    non-empty role and a subject of the caller's choice. *)
Theorem case_dev_role_not_allowlisted (cfg : AuthConfig) (verify : Verifier) (now : Z) (h : Header) :
  AuthMode cfg = "dev" -> bearer h = None ->
  (is_Some (posAuth decodeClaims cfg verify now h) <-> header "X-Dev-Role" h ∈ devRoles) /\
  (is_Some (carfAuth decodeClaims cfg None now h) <-> header "X-Dev-Role" h ∈ devRoles) /\
  (header "X-Dev-Role" h <> "" -> header "X-Dev-Subject" h <> "" ->
     exists h', caseAuth decodeClaims cfg None now h = Some h' /\
       roleOf h' = header "X-Dev-Role" h /\ subjectOf h' = "user:" +:+ header "X-Dev-Subject" h).
Proof.
  intros Hd Hb. unfold posAuth, carfAuth, caseAuth.
  assert (Hb' : bearer (strip h) = None) by (rewrite <- Hb; unfold bearer; by rewrite header_strip).
  rewrite Hb, Hb', Hd, !bool_decide_true by done. unfold devClaims.
  assert (Hiff : is_Some (if bool_decide (header "X-Dev-Role" h ∈ devRoles)
      then Some (mkClaims ("dev-" +:+ header "X-Dev-Role" h) [header "X-Dev-Role" h] (header "X-Tenant-ID" h) 0)
      else None) <-> header "X-Dev-Role" h ∈ devRoles).
  { case_bool_decide; split; [done | eauto | by intros [] | done]. }
  split; [exact Hiff|]. split; [exact Hiff|]. intros Hr Hs.
  rewrite !header_strip by done. rewrite (bool_decide_false _ Hr).
  unfold Str.or_default. rewrite (bool_decide_false _ Hs). eexists. split; [reflexivity|].
  unfold roleOf, subjectOf, header. by rewrite lookup_insert_eq, lookup_insert_ne, lookup_insert_eq.
Qed.
End AuthProperties.

(** The public development key never hashes a TIN in production: there, the
    service starts exactly with an explicit key other than the default. *)
Theorem tin_key_fails_closed (key profile authMode : string) :
  (profile = "prod" \/ authMode = "keycloak") ->
  (forall k, resolveTINKey key profile authMode = Some k -> k = key /\ key <> "" /\ key <> devTINKey) /\
  (key <> "" -> key <> devTINKey -> resolveTINKey key profile authMode = Some key).
Proof.
  intros Hp. unfold resolveTINKey.
  replace (bool_decide (profile = "prod") || bool_decide (authMode = "keycloak")) with true
    by (destruct Hp as [->| ->]; [done|]; by rewrite orb_true_r).
  split; [intros k|intros H1 H2]; destruct (bool_decide (key = "")) eqn:E1, (bool_decide (key = devTINKey)) eqn:E2;
    bools; simpl; try done. by intros [= ->].
Qed.

(** ** Witnesses *)

Definition exampleClaims : Claims := mkClaims "ada" ["operator"] "t1" 0.
Definition exampleVerifier : Verifier := fun tok => if bool_decide (tok = "abc") then Some exampleClaims else None.
Definition exampleHeader : Header :=
  {[ "Authorization" := "Bearer abc"; "X-Dev-Role" := "admin"; "X-Role" := "admin" ]}.

Theorem keycloak_fails_closed_witness :
  posAuth (H := Toy.crypto) (fun _ => None) (mkAuthConfig "keycloak" "s") exampleVerifier 0 exampleHeader = Some exampleClaims.
Proof.
  exact (proj1 (@keycloak_fails_closed Toy.crypto (fun _ => None) (mkAuthConfig "keycloak" "s") exampleVerifier 0
    exampleHeader eq_refl)).
Defined.

Theorem case_identity_not_forgeable_witness :
  caseAuth (H := Toy.crypto) (fun _ => None) (mkAuthConfig "keycloak" "s") (Some exampleVerifier) 0 exampleHeader =
  caseAuth (H := Toy.crypto) (fun _ => None) (mkAuthConfig "keycloak" "s") (Some exampleVerifier) 0
    (delete "X-Role" exampleHeader).
Proof.
  apply (@case_identity_not_forgeable Toy.crypto). intros k Hk.
  rewrite lookup_delete_ne; [done|]. intros <-. by vm_compute in Hk.
Defined.

Definition devHeader : Header := {[ "X-Dev-Role" := "root"; "X-Dev-Subject" := "ada" ]}.

Theorem case_dev_role_not_allowlisted_witness :
  exists h', caseAuth (H := Toy.crypto) (fun _ => None) (mkAuthConfig "dev" "s") None 0 devHeader = Some h' /\ roleOf h' = "root".
Proof.
  destruct (proj2 (proj2 (@case_dev_role_not_allowlisted Toy.crypto (fun _ => None) (mkAuthConfig "dev" "s")
    exampleVerifier 0 devHeader eq_refl ltac:(vm_compute; reflexivity))))
    as (h' & H1 & H2 & _); [vm_compute; congruence .. |].
  exists h'. split; [exact H1|]. rewrite H2. vm_compute. reflexivity.
Defined.

Theorem tin_key_fails_closed_witness : resolveTINKey "k3y" "prod" "dev" = Some "k3y".
Proof. by apply (proj2 (tin_key_fails_closed "k3y" "prod" "dev" (or_introl eq_refl))). Defined.
