(* ===== verification/GoTime.v ===== *)
(** * Go's [time.RFC3339] texts

    [time.Parse(time.RFC3339, s)] and [t.UTC().Format(time.RFC3339)] for the
    services that read and write timestamps.  A time is its nanoseconds since
    1970-01-01T00:00:00Z.  [parse] accepts what Go accepts, the leniences
    included: an hour of one digit, a fraction after a point or a comma, an
    offset of 24 hours or 60 minutes. *)

From S2P Require Import Prelude StrFacts.

Definition second : Z := 1000000000.
Definition hour : Z := 3600 * second.

(** ** The proleptic Gregorian calendar *)

Definition is_leap (y : Z) : bool := (y mod 4 =? 0) && (negb (y mod 100 =? 0) || (y mod 400 =? 0)).

Definition days_in (m y : Z) : Z :=
  if m =? 2 then (if is_leap y then 29 else 28)
  else if (m =? 4) || (m =? 6) || (m =? 9) || (m =? 11) then 30 else 31.

(** Days since 1970-01-01; years are counted from March here. *)
Definition days_from_civil (y m d : Z) : Z :=
  let y := if m <=? 2 then y - 1 else y in
  let era := y / 400 in
  let yoe := y mod 400 in
  let mp := if 2 <? m then m - 3 else m + 9 in
  let doy := (153 * mp + 2) / 5 + d - 1 in
  let doe := yoe * 365 + yoe / 4 - yoe / 100 + doy in
  era * 146097 + doe - 719468.

Definition civil_from_days (n : Z) : Z * Z * Z :=
  let z := n + 719468 in
  let era := z / 146097 in
  let doe := z mod 146097 in
  let yoe := (doe - doe / 1460 + doe / 36524 - doe / 146096) / 365 in
  let doy := doe - (365 * yoe + yoe / 4 - yoe / 100) in
  let mp := (5 * doy + 2) / 153 in
  let d := doy - (153 * mp + 2) / 5 + 1 in
  let m := if mp <? 10 then mp + 3 else mp - 9 in
  (yoe + era * 400 + (if m <=? 2 then 1 else 0), m, d).

(** ** Reading *)

Definition digit_val (c : ascii) : option Z :=
  if Str.is_digit c then Some (Z.of_nat (Ascii.nat_of_ascii c) - 48) else None.

(** Exactly [k] digits *)
Fixpoint num (k : nat) (acc : Z) (s : string) : option (Z * string) :=
  match k with
  | O => Some (acc, s)
  | S k =>
      match s with
      | String c s => d ← digit_val c; num k (10 * acc + d) s
      | EmptyString => None
      end
  end.

Definition expect (c : ascii) (s : string) : option string :=
  match s with
  | String d s => if bool_decide (c = d) then Some s else None
  | EmptyString => None
  end.

(** Two digits or one *)
Definition num12 (s : string) : option (Z * string) :=
  match num 2 0 s with
  | Some r => Some r
  | None => num 1 0 s
  end.

(** The digits of a fraction: nanoseconds from the first nine *)
Fixpoint fraction (k : nat) (acc : Z) (s : string) : Z * string :=
  match s with
  | String c s' =>
      match digit_val c with
      | Some d => match k with
                  | O => fraction O acc s'
                  | S k => fraction k (10 * acc + d) s'
                  end
      | None => (acc * 10 ^ Z.of_nat k, s)
      end
  | EmptyString => (acc * 10 ^ Z.of_nat k, s)
  end.

Definition parse_fraction (s : string) : Z * string :=
  match s with
  | String c (String d s') =>
      if (bool_decide (c = "."%char) || bool_decide (c = ","%char)) && Str.is_digit d
      then fraction 9 0 (String d s') else (0, s)
  | _ => (0, s)
  end.

(** The offset in seconds; nothing may follow *)
Definition parse_zone (s : string) : option Z :=
  match s with
  | String c s' =>
      if bool_decide (c = "Z"%char) then (if bool_decide (s' = "") then Some 0 else None)
      else
        sign ← (if bool_decide (c = "+"%char) then Some 1 else if bool_decide (c = "-"%char) then Some (-1) else None);
        '(h, s) ← num 2 0 s'; s ← expect ":" s; '(m, s) ← num 2 0 s;
        if (h <=? 24) && (m <=? 60) && bool_decide (s = "") then Some (sign * (h * 60 + m) * 60) else None
  | EmptyString => None
  end.

Definition parse (s : string) : option Z :=
  '(y, s) ← num 4 0 s; s ← expect "-" s; '(mo, s) ← num 2 0 s; s ← expect "-" s; '(d, s) ← num 2 0 s;
  s ← expect "T" s; '(h, s) ← num12 s; s ← expect ":" s; '(mi, s) ← num 2 0 s; s ← expect ":" s;
  '(se, s) ← num 2 0 s;
  let '(ns, s) := parse_fraction s in
  off ← parse_zone s;
  if (1 <=? mo) && (mo <=? 12) && (1 <=? d) && (d <=? days_in mo y) && (h <? 24) && (mi <? 60) && (se <? 60)
  then Some ((days_from_civil y mo d * 86400 + h * 3600 + mi * 60 + se - off) * second + ns)
  else None.

(** ** Writing *)

Definition digit_char (d : Z) : ascii := Ascii.ascii_of_N (Z.to_N (48 + d)).

(** The last [k] digits *)
Fixpoint pad (k : nat) (n : Z) : string :=
  match k with
  | O => EmptyString
  | S k => pad k (n / 10) +:+ String (digit_char (n mod 10)) EmptyString
  end.

(** For a year of four digits *)
Definition format (t : Z) : string :=
  let s := t / second in
  let '(y, mo, d) := civil_from_days (s / 86400) in
  let r := s mod 86400 in
  pad 4 y +:+ "-" +:+ pad 2 mo +:+ "-" +:+ pad 2 d +:+ "T" +:+
  pad 2 (r / 3600) +:+ ":" +:+ pad 2 (r / 60 mod 60) +:+ ":" +:+ pad 2 (r mod 60) +:+ "Z".

Example parse_utc : parse "2026-01-02T15:04:05Z" = Some (1767366245 * second).
Proof. vm_compute. reflexivity. Qed.
Example parse_offset : parse "2026-01-02T15:04:05.25+01:00" = Some (1767362645 * second + 250000000).
Proof. vm_compute. reflexivity. Qed.
Example parse_invalid_day : parse "2026-02-29T00:00:00Z" = None.
Proof. vm_compute. reflexivity. Qed.
Example format_utc : format (1767366245 * second + 7) = "2026-01-02T15:04:05Z".
Proof. vm_compute. reflexivity. Qed.

(** ** Auxiliary lemmas: the calendar *)

Section Calendar.

Lemma is_leap_period y k : is_leap (y + k * 400) = is_leap y.
Proof.
  unfold is_leap.
  replace ((y + k * 400) mod 4) with (y mod 4) by (replace (k * 400) with (k * 100 * 4) by lia; by rewrite Z.mod_add by lia).
  replace ((y + k * 400) mod 100) with (y mod 100) by (replace (k * 400) with (k * 4 * 100) by lia; by rewrite Z.mod_add by lia).
  by rewrite Z.mod_add by lia.
Qed.

Lemma days_in_period m y k : days_in m (y + k * 400) = days_in m y.
Proof. unfold days_in. by rewrite is_leap_period. Qed.

(** One era of 400 years, counted from March *)
Definition era_day (doe : Z) : Z * Z * Z :=
  let yoe := (doe - doe / 1460 + doe / 36524 - doe / 146096) / 365 in
  let doy := doe - (365 * yoe + yoe / 4 - yoe / 100) in
  let mp := (5 * doy + 2) / 153 in
  (yoe, mp, doy - (153 * mp + 2) / 5 + 1).

Definition year_start (y : Z) : Z := 365 * y + y / 4 - y / 100.
Definition year_len (y : Z) : Z := if is_leap (y + 1) then 366 else 365.
Definition year_num (doe : Z) : Z := (doe - doe / 1460 + doe / 36524) / 365.

(** The year formula at the first and the last day of a year *)
Definition year_ok (y : Z) : bool :=
  (year_num (year_start y) =? y) && (year_num (Z.min (year_start y + year_len y - 1) 146095) =? y) &&
  (if y =? 399 then year_start y + year_len y =? 146097 else year_start y + year_len y =? year_start (y + 1)).

(** The month formulas at a day of the year *)
Definition month_ok (doy : Z) : bool :=
  let mp := (5 * doy + 2) / 153 in
  let d := doy - (153 * mp + 2) / 5 + 1 in
  let m := if mp <? 10 then mp + 3 else mp - 9 in
  (0 <=? mp) && (mp <? 12) && (1 <=? d) &&
  (if m =? 2 then (d <=? (if doy =? 365 then 29 else 28)) && (1 <=? m) else d <=? days_in m 1).

Fixpoint all_from (P : Z -> bool) (n : nat) (z : Z) : bool :=
  match n with
  | O => true
  | S n => P z && all_from P n (z + 1)
  end.

Lemma all_from_ok P n z x : all_from P n z = true -> z <= x < z + Z.of_nat n -> P x = true.
Proof.
  revert z. induction n as [|n IH]; intros z; simpl; [lia|]. intros [Hz H]%andb_true_iff Hx.
  destruct (decide (x = z)) as [->|Hne]; [done|]. apply (IH (z + 1)); [done|lia].
Qed.

Lemma years_ok y : 0 <= y < 400 -> year_ok y = true.
Proof. intros H. apply (all_from_ok _ 400 0); [vm_compute; reflexivity | lia]. Qed.

Lemma months_ok doy : 0 <= doy < 366 -> month_ok doy = true.
Proof. intros H. apply (all_from_ok _ 366 0); [vm_compute; reflexivity | lia]. Qed.

Lemma year_num_mono a b : 0 <= a <= b -> year_num a <= year_num b.
Proof. intros H. unfold year_num. apply Z.div_le_mono; [lia|]. Z.to_euclidean_division_equations. lia. Qed.

Lemma year_exists n doe : (n <= 400)%nat -> 0 <= doe ->
  doe < (if (n =? 400)%nat then 146097 else year_start (Z.of_nat n)) ->
  exists y, 0 <= y < Z.of_nat n /\ year_start y <= doe < year_start y + year_len y.
Proof.
  induction n as [|n IH]; intros Hn H0 Hd; [simpl in Hd; vm_compute (year_start _) in Hd; lia|].
  destruct (Z.lt_ge_cases doe (year_start (Z.of_nat n))) as [Hlt|Hge].
  - destruct IH as (y & Hy & Hs); [lia | done | | by exists y; split; [lia|]].
    by rewrite (proj2 (Nat.eqb_neq n 400)) by lia.
  - exists (Z.of_nat n). split; [lia|]. split; [done|].
    pose proof (years_ok (Z.of_nat n) ltac:(lia)) as Hok. unfold year_ok in Hok. bools.
    destruct (S n =? 400)%nat eqn:E.
    + apply Nat.eqb_eq in E. replace (Z.of_nat n =? 399) with true in * by (symmetry; apply Z.eqb_eq; lia). bools. lia.
    + apply Nat.eqb_neq in E. replace (Z.of_nat n =? 399) with false in * by (symmetry; apply Z.eqb_neq; lia). bools.
      rewrite Nat2Z.inj_succ in Hd. unfold Z.succ in Hd. lia.
Qed.

Lemma year_formula doe : 0 <= doe < 146097 ->
  exists y, 0 <= y < 400 /\ (doe - doe / 1460 + doe / 36524 - doe / 146096) / 365 = y /\
    year_start y <= doe < year_start y + year_len y.
Proof.
  intros Hd. destruct (year_exists 400 doe) as (y & Hy & Hs); [lia | lia | exact (proj2 Hd) |]. exists y. split; [lia|]. split; [|done].
  destruct (decide (doe = 146096)) as [->|Hne].
  { change ((146096 - 146096 / 1460 + 146096 / 36524 - 146096 / 146096) / 365) with 399.
    pose proof (years_ok y ltac:(lia)) as Hok. unfold year_ok in Hok. bools.
    destruct (y =? 399) eqn:E; bools; [done|].
    assert (Hy' : 0 <= y + 1 < 400) by lia. pose proof (years_ok (y + 1) Hy') as Hok'. unfold year_ok in Hok'. bools.
    assert (year_start (y + 1) <= 145731); [|lia]. unfold year_start. Z.to_euclidean_division_equations. lia. }
  rewrite (Z.div_small doe 146096), Z.sub_0_r by lia. change ((doe - doe / 1460 + doe / 36524) / 365) with (year_num doe).
  pose proof (years_ok y ltac:(lia)) as Hok. unfold year_ok in Hok. bools.
  assert (Hst0 : 0 <= year_start y) by (unfold year_start; Z.to_euclidean_division_equations; lia).
  pose proof (year_num_mono (year_start y) doe ltac:(lia)).
  pose proof (year_num_mono doe (Z.min (year_start y + year_len y - 1) 146095) ltac:(lia)). lia.
Qed.

Definition era_ok (doe : Z) : Prop :=
  let '(yoe, mp, d) := era_day doe in
  let m := if mp <? 10 then mp + 3 else mp - 9 in
  0 <= yoe < 400 /\ 0 <= mp < 12 /\ 1 <= d <= days_in m (yoe + (if m <=? 2 then 1 else 0)) /\
  yoe * 365 + yoe / 4 - yoe / 100 + ((153 * mp + 2) / 5 + d - 1) = doe.

Lemma era_day_ok doe : 0 <= doe < 146097 -> era_ok doe.
Proof.
  intros Hd. destruct (year_formula doe Hd) as (y & Hy & Heq & Hs). unfold era_ok, era_day. rewrite Heq. cbv zeta.
  change (365 * y + y / 4 - y / 100) with (year_start y). set (doy := doe - year_start y).
  assert (Hlen : year_len y <= 366 /\ (year_len y = 366 -> is_leap (y + 1) = true))
    by (unfold year_len; destruct (is_leap (y + 1)); split; done || lia).
  pose proof (months_ok doy ltac:(lia)) as Hok. unfold month_ok in Hok. cbv zeta in Hok.
  set (mp := (5 * doy + 2) / 153) in *. set (d := doy - (153 * mp + 2) / 5 + 1) in *.
  set (m := if mp <? 10 then mp + 3 else mp - 9) in *. bools.
  split_and!; try lia; [|unfold year_start in *; lia].
  destruct (m =? 2) eqn:Em; bools.
  - rewrite Em. unfold days_in. cbn [Z.eqb Pos.eqb Z.leb Z.compare Pos.compare Pos.compare_cont].
    destruct (doy =? 365) eqn:E365; bools; [|destruct (is_leap _); lia].
    rewrite (proj2 Hlen) by lia. lia.
  - replace (days_in m (y + (if m <=? 2 then 1 else 0))) with (days_in m 1); [done|].
    unfold days_in. by rewrite (proj2 (Z.eqb_neq m 2)).
Qed.

Lemma civil_roundtrip n :
  let '(y, m, d) := civil_from_days n in
  days_from_civil y m d = n /\ 1 <= m <= 12 /\ 1 <= d <= days_in m y.
Proof.
  unfold civil_from_days. set (z := n + 719468).
  pose proof (Z.mod_pos_bound z 146097 ltac:(lia)) as Hr. pose proof (Z.div_mod z 146097 ltac:(lia)) as Hd.
  pose proof (era_day_ok (z mod 146097) Hr) as Hok. unfold era_ok, era_day in Hok.
  set (doe := z mod 146097) in *. set (era := z / 146097) in *. cbv zeta in *.
  set (yoe := (doe - doe / 1460 + doe / 36524 - doe / 146096) / 365) in *.
  set (mp := (5 * (doe - (365 * yoe + yoe / 4 - yoe / 100)) + 2) / 153) in *.
  set (d := doe - (365 * yoe + yoe / 4 - yoe / 100) - (153 * mp + 2) / 5 + 1) in *.
  clearbody yoe mp d. cbv zeta in Hok. destruct Hok as (Hy & Hmp0 & Hd0 & Hdoe).
  set (m := if mp <? 10 then mp + 3 else mp - 9) in *.
  assert (Hm : 1 <= m <= 12 /\ (if 2 <? m then m - 3 else m + 9) = mp).
  { subst m. destruct (mp <? 10) eqn:E; bools; [|]; (split; [lia|]).
    - destruct (2 <? mp + 3) eqn:E'; bools; lia.
    - destruct (2 <? mp - 9) eqn:E'; bools; lia. }
  destruct Hm as [Hm Hmp].
  replace (yoe + era * 400 + (if m <=? 2 then 1 else 0)) with (yoe + (if m <=? 2 then 1 else 0) + era * 400) by lia.
  rewrite days_in_period. split; [|split; [done|lia]].
  unfold days_from_civil. rewrite Hmp.
  replace (if m <=? 2 then yoe + (if m <=? 2 then 1 else 0) + era * 400 - 1 else yoe + (if m <=? 2 then 1 else 0) + era * 400)
    with (yoe + era * 400) by (destruct (m <=? 2); lia).
  cbv zeta. rewrite Z.div_add, Z.mod_add, (Z.div_small yoe), (Z.mod_small yoe) by lia. subst z. lia.
Qed.
End Calendar.

(** ** Auxiliary lemmas: texts *)

Section Texts.

Lemma digit_val_char d : 0 <= d < 10 -> digit_val (digit_char d) = Some d.
Proof.
  intros H. assert (E : d = 0 \/ d = 1 \/ d = 2 \/ d = 3 \/ d = 4 \/ d = 5 \/ d = 6 \/ d = 7 \/ d = 8 \/ d = 9) by lia.
  repeat (destruct E as [->|E]; [reflexivity|]). subst. reflexivity.
Qed.

Lemma num_app k acc s rest n : num k acc s = Some (n, "") -> num k acc (s +:+ rest) = Some (n, rest).
Proof.
  revert acc s. induction k as [|k IH]; intros acc s; cbn [num]; [by intros [= -> ->]|].
  destruct s as [|c s]; [done|]. change (String c s +:+ rest) with (String c (s +:+ rest)).
  cbn [num]. destruct (digit_val c); cbn [mbind option_bind]; [apply IH|done].
Qed.

Lemma num_S k acc s d n :
  num k acc s = Some (n, "") -> 0 <= d < 10 -> num (S k) acc (s +:+ String (digit_char d) "") = Some (10 * n + d, "").
Proof.
  revert acc s. induction k as [|k IH]; intros acc s H Hd.
  - simpl in H. injection H as -> ->. simpl. by rewrite digit_val_char.
  - destruct s as [|c s]; [done|]. change (String c s +:+ String (digit_char d) "") with (String c (s +:+ String (digit_char d) "")).
    cbn [num] in H |- *. destruct (digit_val c) as [v|]; [|done]. cbn [mbind option_bind] in *. by apply IH.
Qed.

Lemma num_pad k n rest : 0 <= n < 10 ^ Z.of_nat k -> num k 0 (pad k n +:+ rest) = Some (n, rest).
Proof.
  intros Hn. apply num_app. revert n Hn. induction k as [|k IH]; intros n Hn.
  - simpl. f_equal. f_equal. change (10 ^ Z.of_nat 0) with 1 in Hn. lia.
  - cbn [pad]. rewrite Nat2Z.inj_succ, Z.pow_succ_r in Hn by lia.
    rewrite (Z.div_mod n 10) at 3 by lia. apply num_S; [|apply Z.mod_pos_bound; lia].
    apply IH. split; [apply Z.div_pos; lia | apply Z.div_lt_upper_bound; lia].
Qed.
End Texts.

(** A time written and read back is the time to the second, while its year has
    four digits. *)
Lemma parse_format (t : Z) :
  (let '(y, _, _) := civil_from_days (t / second / 86400) in 0 <= y <= 9999) ->
  parse (format t) = Some (t / second * second).
Proof.
  unfold format. set (s := t / second). pose proof (civil_roundtrip (s / 86400)) as Hc.
  destruct (civil_from_days (s / 86400)) as [[y mo] d]. destruct Hc as (Hdays & Hmo & Hd). intros Hy.
  pose proof (Z.mod_pos_bound s 86400 ltac:(lia)) as Hr. pose proof (Z.div_mod s 86400 ltac:(lia)) as Hs.
  set (r := s mod 86400) in *.
  assert (Hh : 0 <= r / 3600 < 24) by (split; [apply Z.div_pos; lia | apply Z.div_lt_upper_bound; lia]).
  pose proof (Z.mod_pos_bound (r / 60) 60 ltac:(lia)) as Hmi. pose proof (Z.mod_pos_bound r 60 ltac:(lia)) as Hse.
  assert (Hdm : days_in mo y <= 31).
  { unfold days_in. repeat case_match; lia. }
  unfold parse. rewrite num_pad by (change (10 ^ Z.of_nat 4) with 10000; lia). cbn [mbind option_bind].
  assert (E2 : 10 ^ Z.of_nat 2 = 100) by done.
  assert (Hx : forall c u, expect c (String c "" +:+ u) = Some u).
  { intros c u. change (String c "" +:+ u) with (String c u). unfold expect. by rewrite bool_decide_true. }
  rewrite (Hx "-"%char). cbn [mbind option_bind]. rewrite num_pad by lia. cbn [mbind option_bind].
  rewrite (Hx "-"%char). cbn [mbind option_bind]. rewrite num_pad by lia. cbn [mbind option_bind].
  rewrite (Hx "T"%char). cbn [mbind option_bind]. unfold num12. rewrite num_pad by lia. cbn [mbind option_bind].
  rewrite (Hx ":"%char). cbn [mbind option_bind]. rewrite num_pad by lia. cbn [mbind option_bind].
  rewrite (Hx ":"%char). cbn [mbind option_bind]. rewrite num_pad by lia. cbn [mbind option_bind].
  change (parse_fraction "Z") with (0, "Z"). cbv iota beta. change (parse_zone "Z") with (Some 0). cbn [mbind option_bind].
  rewrite Hdays.
  replace ((1 <=? mo) && (mo <=? 12) && (1 <=? d) && (d <=? days_in mo y) && (r / 3600 <? 24) &&
           (r / 60 mod 60 <? 60) && (r mod 60 <? 60)) with true.
  2: { symmetry. rewrite !andb_true_iff, !Z.leb_le, !Z.ltb_lt. lia. }
  f_equal. rewrite Z.add_0_r. f_equal.
  pose proof (Z.div_mod r 60 ltac:(lia)). pose proof (Z.div_mod (r / 60) 60 ltac:(lia)).
  replace (r / 3600) with (r / 60 / 60) by (rewrite Z.div_div by lia; done). lia.
Qed.
