(* ===== verification/PosLedger.v ===== *)
(** * pos-vat: the VAT remittance ledger (services/pos-vat/ledger.go)

    [DevLedger] is the in-memory double-entry ledger with two-phase transfers
    that the service runs against when no core ledger is configured, and the
    reference for the contract [LedgerClient] that the settlement saga uses
    (PosSettle.v).  An operation returns the ledger after the call together
    with its result, because [PostPending] changes the ledger before it
    returns an error. *)

From S2P Require Import Prelude Crypto.

Definition LedgerVATRemittance : Z := 300.
Definition NSVATFederalPool : Z := 1.
Definition NSVATStatePool : Z := 2.
Definition NSVATMerchant : Z := 3.
Definition NSVATLGAPool : Z := 4.

(** Account id: high 64 bits the namespace code, low 64 bits the serial *)
Definition accountID (namespace serial : Z) : string :=
  hex (be64 namespace +:+ be64 serial).

Record LedgerAccount := mkLedgerAccount {
  la_ID : string;
  la_Ledger : Z;
  la_Code : Z;
  la_Flags : string;
}.

Record LedgerTransfer := mkLedgerTransfer {
  lt_ID : string;
  DebitAccountID : string;
  CreditAccountID : string;
  AmountKobo : Z;
  lt_Ledger : Z;
  lt_Code : Z;
}.

(** The lifecycle view of a transfer that [GetTransfer] reports *)
Record LedgerTransferState := mkLedgerTransferState {
  ts_ID : string;
  ts_Pending : bool;
  ts_Posted : bool;
  ts_Voided : bool;
}.

Record LedgerBalance := mkLedgerBalance {
  AccountID : string;
  DebitsPosted : Z;
  CreditsPosted : Z;
  DebitsPending : Z;
  CreditsPending : Z;
}.

Definition sameLedgerTransfer (a b : LedgerTransfer) : bool :=
  bool_decide (DebitAccountID a = DebitAccountID b) &&
  bool_decide (CreditAccountID a = CreditAccountID b) &&
  (AmountKobo a =? AmountKobo b) && (lt_Ledger a =? lt_Ledger b) && (lt_Code a =? lt_Code b).

(** The error values of the ledger; [transportError] is what an HTTP client of
    a remote ledger adds. *)
Inductive ledgerError :=
| amountNotPositive
| debitAccountMissing (id : string)
| creditAccountMissing (id : string)
| floatViolated
| transferExists
| pendingNotPostable
| postAmountTooLarge
| pendingNotVoidable
| transferNotFound
| accountNotFound
| transportError.

(** [LedgerClient]: the contract between the settlement code and a ledger,
    over the ledger's state [L]. *)
Class LedgerClient (L : Type) := {
  lc_CreateAccounts : list LedgerAccount -> L -> L;
  lc_Transfer : LedgerTransfer -> L -> L * result ledgerError string;
  lc_PendingTransfer : LedgerTransfer -> L -> L * result ledgerError string;
  lc_PostPending : string -> Z -> L -> L * result ledgerError string;
  lc_VoidPending : string -> L -> L * result ledgerError unit;
  lc_GetTransfer : string -> L -> result ledgerError LedgerTransferState;
  lc_Balance : string -> L -> result ledgerError LedgerBalance;
}.

Record devAccount := mkDevAccount {
  da_LedgerAccount : LedgerAccount;
  debitsPosted : Z;
  creditsPosted : Z;
  debitsPending : Z;
  creditsPending : Z;
}.

Record devTransfer := mkDevTransfer {
  dt_LedgerTransfer : LedgerTransfer;
  pending : bool;
  voided : bool;
  posted : bool;
}.

Module DevLedger.

Record t := mk {
  accounts : gmap string devAccount;
  transfers : gmap string devTransfer;
  seq : Z;
}.

Definition set_accounts (f : gmap string devAccount -> gmap string devAccount) (d : t) : t :=
  mk (f (accounts d)) (transfers d) (seq d).
Definition put_transfer (id : string) (tr : devTransfer) (d : t) : t :=
  mk (accounts d) (<[id := tr]> (transfers d)) (seq d).

Definition add_debitsPosted (x : Z) (a : devAccount) : devAccount :=
  mkDevAccount (da_LedgerAccount a) (debitsPosted a +! x) (creditsPosted a)
    (debitsPending a) (creditsPending a).
Definition add_creditsPosted (x : Z) (a : devAccount) : devAccount :=
  mkDevAccount (da_LedgerAccount a) (debitsPosted a) (creditsPosted a +! x)
    (debitsPending a) (creditsPending a).
Definition add_debitsPending (x : Z) (a : devAccount) : devAccount :=
  mkDevAccount (da_LedgerAccount a) (debitsPosted a) (creditsPosted a)
    (debitsPending a +! x) (creditsPending a).
Definition add_creditsPending (x : Z) (a : devAccount) : devAccount :=
  mkDevAccount (da_LedgerAccount a) (debitsPosted a) (creditsPosted a)
    (debitsPending a) (creditsPending a +! x).

(** Accounts are shared pointers: [dr] and [cr] may be the same account, so
    each update goes to the map. *)
Definition apply (tr : LedgerTransfer) (d : t) : t :=
  set_accounts (alter (add_creditsPosted (AmountKobo tr)) (CreditAccountID tr)
    ∘ alter (add_debitsPosted (AmountKobo tr)) (DebitAccountID tr)) d.

Definition hold (x : Z) (tr : LedgerTransfer) (d : t) : t :=
  set_accounts (alter (add_creditsPending x) (CreditAccountID tr)
    ∘ alter (add_debitsPending x) (DebitAccountID tr)) d.

Definition floatFlag : string := "DEBITS_MUST_NOT_EXCEED_CREDITS".

Definition checkFloat (a : devAccount) (amount : Z) : result ledgerError unit :=
  if bool_decide (la_Flags (da_LedgerAccount a) = floatFlag)
  then guard_err (creditsPosted a <? debitsPosted a +! amount) floatViolated
  else Ok tt.

Definition checkAccounts (tr : LedgerTransfer) (d : t) : result ledgerError unit :=
  guard_err (AmountKobo tr <=? 0) amountNotPositive ≫= fun _ =>
  match accounts d !! DebitAccountID tr with
  | None => Err (debitAccountMissing (DebitAccountID tr))
  | Some dr =>
      match accounts d !! CreditAccountID tr with
      | None => Err (creditAccountMissing (CreditAccountID tr))
      | Some _ => checkFloat dr (AmountKobo tr)
      end
  end.

Definition CreateAccount (a : LedgerAccount) (m : gmap string devAccount) : gmap string devAccount :=
  match m !! la_ID a with
  | Some _ => m
  | None => <[la_ID a := mkDevAccount a 0 0 0 0]> m
  end.
Definition CreateAccounts (accts : list LedgerAccount) (d : t) : t :=
  set_accounts (fun m => foldl (fun m a => CreateAccount a m) m accts) d.

Definition NewDevLedger : t :=
  CreateAccounts
    [ mkLedgerAccount (accountID LedgerVATRemittance NSVATFederalPool) LedgerVATRemittance 5 "";
      mkLedgerAccount (accountID LedgerVATRemittance NSVATStatePool) LedgerVATRemittance 5 "";
      mkLedgerAccount (accountID LedgerVATRemittance NSVATLGAPool) LedgerVATRemittance 5 "" ]
    (mk ∅ ∅ 0).

(** [seq] is a uint64 *)
Definition nextID (d : t) : t * string :=
  let s := (seq d + 1) mod two64 in
  (mk (accounts d) (transfers d) s, "dev-tx-" +:+ pretty s).

(** [if t.ID == "" { t.ID = d.nextID() }] *)
Definition with_id (tr : LedgerTransfer) (d : t) : t * LedgerTransfer :=
  if bool_decide (lt_ID tr = "") then
    let '(d, id) := nextID d in
    (d, mkLedgerTransfer id (DebitAccountID tr) (CreditAccountID tr) (AmountKobo tr)
          (lt_Ledger tr) (lt_Code tr))
  else (d, tr).

Definition Transfer (tr : LedgerTransfer) (d : t) : t * result ledgerError string :=
  match checkAccounts tr d with
  | Err e => (d, Err e)
  | Ok _ =>
      let '(d, tr) := with_id tr d in
      (put_transfer (lt_ID tr) (mkDevTransfer tr false false true) (apply tr d), Ok (lt_ID tr))
  end.

Definition createPending (tr : LedgerTransfer) (d : t) : t * result ledgerError string :=
  match checkAccounts tr d with
  | Err e => (d, Err e)
  | Ok _ =>
      let '(d, tr) := with_id tr d in
      (put_transfer (lt_ID tr) (mkDevTransfer tr true false false)
         (hold (AmountKobo tr) tr d), Ok (lt_ID tr))
  end.

Definition PendingTransfer (tr : LedgerTransfer) (d : t) : t * result ledgerError string :=
  if bool_decide (lt_ID tr = "") then createPending tr d
  else match transfers d !! lt_ID tr with
       | Some existing =>
           if pending existing && sameLedgerTransfer (dt_LedgerTransfer existing) tr
           then (d, Ok (lt_ID tr))
           else (d, Err transferExists)
       | None => createPending tr d
       end.

Definition with_amount (x : Z) (tr : LedgerTransfer) : LedgerTransfer :=
  mkLedgerTransfer (lt_ID tr) (DebitAccountID tr) (CreditAccountID tr) x
    (lt_Ledger tr) (lt_Code tr).

(** The hold is released before the float check, whose failure leaves it
    released. *)
Definition PostPending (pendingID : string) (amount : Z) (d : t) : t * result ledgerError string :=
  match transfers d !! pendingID with
  | None => (d, Err pendingNotPostable)
  | Some tr =>
      if negb (pending tr) || voided tr then (d, Err pendingNotPostable)
      else if (amount <=? 0) || (AmountKobo (dt_LedgerTransfer tr) <? amount)
      then (d, Err postAmountTooLarge)
      else
        let lt := dt_LedgerTransfer tr in
        let d := hold (- AmountKobo lt) lt d in
        match (dr ← accounts d !! DebitAccountID lt; Some (checkFloat dr amount)) with
        | Some (Err e) => (d, Err e)
        | _ =>
            (put_transfer pendingID (mkDevTransfer lt false (voided tr) true)
               (apply (with_amount amount lt) d), Ok pendingID)
        end
  end.

Definition VoidPending (pendingID : string) (d : t) : t * result ledgerError unit :=
  match transfers d !! pendingID with
  | None => (d, Err pendingNotVoidable)
  | Some tr =>
      if negb (pending tr) || voided tr then (d, Err pendingNotVoidable)
      else
        let lt := dt_LedgerTransfer tr in
        (put_transfer pendingID (mkDevTransfer lt false true (posted tr))
           (hold (- AmountKobo lt) lt d), Ok tt)
  end.

Definition GetTransfer (id : string) (d : t) : result ledgerError LedgerTransferState :=
  match transfers d !! id with
  | None => Err transferNotFound
  | Some tr => Ok (mkLedgerTransferState id (pending tr) (posted tr) (voided tr))
  end.

Definition Balance (id : string) (d : t) : result ledgerError LedgerBalance :=
  match accounts d !! id with
  | None => Err accountNotFound
  | Some a => Ok (mkLedgerBalance id (debitsPosted a) (creditsPosted a)
                    (debitsPending a) (creditsPending a))
  end.

End DevLedger.

#[export] Instance DevLedger_client : LedgerClient DevLedger.t := {|
  lc_CreateAccounts := DevLedger.CreateAccounts;
  lc_Transfer := DevLedger.Transfer;
  lc_PendingTransfer := DevLedger.PendingTransfer;
  lc_PostPending := DevLedger.PostPending;
  lc_VoidPending := DevLedger.VoidPending;
  lc_GetTransfer := DevLedger.GetTransfer;
  lc_Balance := DevLedger.Balance;
|}.

(** ** The operations as a transition system *)

Inductive ledgerOp :=
| opCreate (accts : list LedgerAccount)
| opTransfer (tr : LedgerTransfer)
| opPending (tr : LedgerTransfer)
| opPost (id : string) (amount : Z)
| opVoid (id : string).

Definition exec (d : DevLedger.t) (o : ledgerOp) : DevLedger.t :=
  match o with
  | opCreate l => DevLedger.CreateAccounts l d
  | opTransfer tr => (DevLedger.Transfer tr d).1
  | opPending tr => (DevLedger.PendingTransfer tr d).1
  | opPost id x => (DevLedger.PostPending id x d).1
  | opVoid id => (DevLedger.VoidPending id d).1
  end.

Definition run (ops : list ledgerOp) : DevLedger.t := foldl exec DevLedger.NewDevLedger ops.

(** The amount a transfer holds against account [x] as debit or credit *)
Definition heldDebit (x : string) (tr : devTransfer) : Z :=
  if pending tr && bool_decide (DebitAccountID (dt_LedgerTransfer tr) = x)
  then AmountKobo (dt_LedgerTransfer tr) else 0.
Definition heldCredit (x : string) (tr : devTransfer) : Z :=
  if pending tr && bool_decide (CreditAccountID (dt_LedgerTransfer tr) = x)
  then AmountKobo (dt_LedgerTransfer tr) else 0.

(** The operations that keep the holds accounted for: a transfer recorded
    under an id (given or generated) does not overwrite a pending one, and a
    post is not refused by the float check after its hold was released. *)
Definition overwritesHold (d : DevLedger.t) (id : string) : bool :=
  match DevLedger.transfers d !! id with Some tr => pending tr | None => false end.

Definition accounted (d : DevLedger.t) (o : ledgerOp) : bool :=
  match o with
  | opTransfer tr => negb (overwritesHold d (lt_ID (DevLedger.with_id tr d).2))
  | opPending tr =>
      if bool_decide (lt_ID tr = "")
      then negb (overwritesHold d (lt_ID (DevLedger.with_id tr d).2)) else true
  | opPost id x =>
      match (DevLedger.PostPending id x d).2 with Err floatViolated => false | _ => true end
  | _ => true
  end.

Fixpoint accounted_run (d : DevLedger.t) (ops : list ledgerOp) : bool :=
  match ops with
  | [] => true
  | o :: ops => accounted d o && accounted_run (exec d o) ops
  end.

(** Every account a transfer names exists (a nil account would be a panic). *)
Definition wf (d : DevLedger.t) : Prop :=
  forall id tr, DevLedger.transfers d !! id = Some tr ->
    is_Some (DevLedger.accounts d !! DebitAccountID (dt_LedgerTransfer tr)) /\
    is_Some (DevLedger.accounts d !! CreditAccountID (dt_LedgerTransfer tr)).

Definition balanced (d : DevLedger.t) : Prop :=
  msum debitsPosted (DevLedger.accounts d) ≡64 msum creditsPosted (DevLedger.accounts d) /\
  msum debitsPending (DevLedger.accounts d) ≡64 msum creditsPending (DevLedger.accounts d).

Definition holdsMatch (d : DevLedger.t) : Prop :=
  forall x a, DevLedger.accounts d !! x = Some a ->
    debitsPending a = wrap64 (msum (heldDebit x) (DevLedger.transfers d)) /\
    creditsPending a = wrap64 (msum (heldCredit x) (DevLedger.transfers d)).

(** ** Auxiliary lemmas *)

Section Balances.
Import DevLedger.
Implicit Types (d : DevLedger.t) (tr : LedgerTransfer).

Definition present d tr : Prop :=
  is_Some (accounts d !! DebitAccountID tr) /\ is_Some (accounts d !! CreditAccountID tr).

Lemma checkAccounts_present d tr u : checkAccounts tr d = Ok u -> present d tr.
Proof.
  unfold checkAccounts, guard_err. intros H. simpl in H.
  destruct (AmountKobo tr <=? 0); simpl in H; [done|].
  unfold present.
  destruct (accounts d !! DebitAccountID tr); [|done].
  destruct (accounts d !! CreditAccountID tr); [|done]. eauto.
Qed.

Lemma with_id_fields d tr :
  let r := with_id tr d in
  accounts r.1 = accounts d /\ transfers r.1 = transfers d /\
  DebitAccountID r.2 = DebitAccountID tr /\ CreditAccountID r.2 = CreditAccountID tr /\
  AmountKobo r.2 = AmountKobo tr.
Proof. unfold with_id, nextID. by case_bool_decide. Qed.

Ltac side64 := first [ done | by apply is_Some_alter | by intros; apply wrap64_eq64 ].

Lemma balanced_apply d tr : present d tr -> balanced d -> balanced (apply tr d).
Proof.
  intros [Hd Hc] [Hposted Hpending].
  unfold balanced, apply, set_accounts. simpl. split.
  - rewrite (msum_alter_same debitsPosted) by done.
    rewrite (msum_alter debitsPosted _ _ _ (AmountKobo tr)) by side64.
    rewrite (msum_alter creditsPosted _ _ _ (AmountKobo tr))
      by side64.
    rewrite (msum_alter_same creditsPosted) by done. by rewrite Hposted.
  - by rewrite !(msum_alter_same debitsPending), !(msum_alter_same creditsPending).
Qed.

Lemma balanced_hold d tr x : present d tr -> balanced d -> balanced (hold x tr d).
Proof.
  intros [Hd Hc] [Hposted Hpending].
  unfold balanced, hold, set_accounts. simpl. split.
  - by rewrite !(msum_alter_same debitsPosted), !(msum_alter_same creditsPosted).
  - rewrite (msum_alter_same debitsPending) by done.
    rewrite (msum_alter debitsPending _ _ _ x) by side64.
    rewrite (msum_alter creditsPending _ _ _ x)
      by side64.
    rewrite (msum_alter_same creditsPending) by done. by rewrite Hpending.
Qed.

(** Both updates keep the set of accounts, hence [present] and [wf]. *)
Lemma is_Some_apply d tr x : is_Some (accounts (apply tr d) !! x) <-> is_Some (accounts d !! x).
Proof. unfold apply, set_accounts. simpl. by rewrite !is_Some_alter. Qed.

Lemma is_Some_hold d tr y x : is_Some (accounts (hold y tr d) !! x) <-> is_Some (accounts d !! x).
Proof. unfold hold, set_accounts. simpl. by rewrite !is_Some_alter. Qed.

Lemma is_Some_CreateAccount a m x :
  is_Some (m !! x) -> is_Some (CreateAccount a m !! x).
Proof.
  unfold CreateAccount. destruct (m !! la_ID a) eqn:E; [done|].
  destruct (decide (la_ID a = x)) as [->|?];
    [by rewrite lookup_insert_eq | by rewrite lookup_insert_ne].
Qed.

Lemma balanced_CreateAccounts l d : balanced d -> balanced (CreateAccounts l d).
Proof.
  unfold CreateAccounts, balanced, set_accounts. simpl. generalize (accounts d) as m.
  induction l as [|a l IH]; intros m Hm; simpl; [done|]. apply IH.
  unfold CreateAccount. destruct (m !! la_ID a) eqn:E; [done|].
  rewrite !msum_insert_None by done. simpl. by rewrite !Z.add_0_l.
Qed.

Lemma is_Some_CreateAccounts l d x :
  is_Some (accounts d !! x) -> is_Some (accounts (CreateAccounts l d) !! x).
Proof.
  unfold CreateAccounts, set_accounts. simpl. generalize (accounts d) as m.
  induction l as [|a l IH]; intros m Hm; simpl; [done|].
  apply IH, is_Some_CreateAccount, Hm.
Qed.
End Balances.

Section Holds.
Import DevLedger.
Implicit Types (d : DevLedger.t) (tr : LedgerTransfer).

(** The pending balances of every account are given by [Sd] and [Sc]. *)
Definition holdsAre d (Sd Sc : string -> Z) : Prop :=
  forall x a, accounts d !! x = Some a ->
    debitsPending a = wrap64 (Sd x) /\ creditsPending a = wrap64 (Sc x).

Definition at_ (k x : string) (v : Z) : Z := if decide (k = x) then v else 0.

Lemma holdsAre_ext d Sd Sc Sd' Sc' :
  (forall x, Sd x ≡64 Sd' x) -> (forall x, Sc x ≡64 Sc' x) ->
  holdsAre d Sd Sc -> holdsAre d Sd' Sc'.
Proof. intros HD HC H x a Hx. rewrite <- (HD x), <- (HC x). by apply H. Qed.

Lemma holdsAre_hold d tr v Sd Sc :
  holdsAre d Sd Sc ->
  holdsAre (hold v tr d) (fun x => Sd x + at_ (DebitAccountID tr) x v)
    (fun x => Sc x + at_ (CreditAccountID tr) x v).
Proof.
  intros H x a. unfold hold, set_accounts, at_. simpl. rewrite !lookup_alter_if.
  destruct (accounts d !! x) as [b|] eqn:Hb; simpl; [|done].
  specialize (H x b Hb) as [HD HC]. intros Ha.
  repeat case_decide; simplify_eq/=; rewrite ?HD, ?HC;
    autorewrite with wrap64; rewrite ?Z.add_0_r; done.
Qed.

Lemma holdsAre_apply d tr Sd Sc : holdsAre d Sd Sc -> holdsAre (apply tr d) Sd Sc.
Proof.
  intros H x a. unfold apply, set_accounts. simpl. rewrite !lookup_alter_if.
  destruct (accounts d !! x) as [b|] eqn:Hb; simpl; [|done].
  specialize (H x b Hb). intros Ha. by repeat case_decide; simplify_eq/=.
Qed.

(** Recording a transfer changes the sum of holds by the holds of the new
    record, when the record it replaces holds nothing. *)
Lemma msum_put_transfer (f : devTransfer -> Z) (m : gmap string devTransfer) id (tr : devTransfer) :
  (forall old, m !! id = Some old -> f old = 0) ->
  msum f (<[id := tr]> m) = msum f m + f tr.
Proof.
  intros Hold. destruct (m !! id) as [old|] eqn:E.
  - rewrite (msum_insert_Some _ _ _ old) by done. rewrite (Hold old eq_refl). lia.
  - rewrite msum_insert_None by done. lia.
Qed.

Lemma heldDebit_at x tr : heldDebit x (mkDevTransfer tr true false false)
  = at_ (DebitAccountID tr) x (AmountKobo tr).
Proof. unfold heldDebit, at_. simpl. by case_bool_decide; case_decide. Qed.

Lemma heldCredit_at x tr : heldCredit x (mkDevTransfer tr true false false)
  = at_ (CreditAccountID tr) x (AmountKobo tr).
Proof. unfold heldCredit, at_. simpl. by case_bool_decide; case_decide. Qed.

Lemma overwritesHold_false d id old :
  overwritesHold d id = false -> transfers d !! id = Some old -> pending old = false.
Proof. unfold overwritesHold. intros H E. by rewrite E in H. Qed.

Lemma held_not_pending x (tr : devTransfer) : pending tr = false -> heldDebit x tr = 0 /\ heldCredit x tr = 0.
Proof. unfold heldDebit, heldCredit. by intros ->. Qed.

Lemma holdsMatch_alt d : holdsMatch d <-> holdsAre d
  (fun x => msum (heldDebit x) (transfers d)) (fun x => msum (heldCredit x) (transfers d)).
Proof. done. Qed.

(** Recording a non-pending transfer over one that holds nothing *)
Lemma holdsMatch_put_settled d id (tr : devTransfer) :
  overwritesHold d id = false -> pending tr = false ->
  holdsMatch d -> holdsMatch (put_transfer id tr d).
Proof.
  intros Hov Hp H x a Hx. destruct (held_not_pending x tr Hp) as [HD HC]. simpl.
  rewrite !msum_put_transfer, HD, HC, !Z.add_0_r; [by apply H| |];
    intros old E; by apply held_not_pending, (overwritesHold_false d id).
Qed.

(** Placing a hold and recording it *)
Lemma holdsMatch_put_hold d id tr :
  overwritesHold d id = false -> holdsMatch d ->
  holdsMatch (put_transfer id (mkDevTransfer tr true false false) (hold (AmountKobo tr) tr d)).
Proof.
  intros Hov H x a Hx. simpl in *.
  destruct (holdsAre_hold d tr (AmountKobo tr) _ _ H x a Hx) as [-> ->].
  rewrite !msum_put_transfer, heldDebit_at, heldCredit_at; [done| |];
    intros old E; by apply held_not_pending, (overwritesHold_false d id).
Qed.

(** Releasing the hold of a pending transfer and closing its record *)
Lemma holdsMatch_release d d' id (tr tr' : devTransfer) :
  transfers d !! id = Some tr -> pending tr = true -> pending tr' = false ->
  holdsMatch d ->
  (forall Sd Sc, holdsAre (hold (- AmountKobo (dt_LedgerTransfer tr)) (dt_LedgerTransfer tr) d) Sd Sc ->
     holdsAre d' Sd Sc) ->
  transfers d' = transfers d ->
  holdsMatch (put_transfer id tr' d').
Proof.
  intros Hid Hp Hp' H Hd' Htr x a Hx. simpl in *. rewrite Htr.
  pose proof (holdsAre_hold d (dt_LedgerTransfer tr) (- AmountKobo (dt_LedgerTransfer tr)) _ _ H) as Hh.
  destruct (Hd' _ _ Hh x a Hx) as [-> ->].
  destruct (held_not_pending x tr' Hp') as [HD HC].
  rewrite !(msum_insert_Some _ _ _ tr) by done. rewrite HD, HC.
  unfold heldDebit at 3, heldCredit at 3. rewrite Hp. simpl. unfold at_.
  split; f_equal; [case_bool_decide | case_bool_decide]; case_decide; try done; lia.
Qed.
End Holds.

Section Steps.
Import DevLedger.
Implicit Types (d : DevLedger.t) (tr : LedgerTransfer).

Lemma wf_mono d d' :
  (forall x, is_Some (accounts d !! x) -> is_Some (accounts d' !! x)) ->
  transfers d' = transfers d -> wf d -> wf d'.
Proof. intros Hm Ht Hwf id tr. rewrite Ht. intros [? ?]%Hwf. eauto. Qed.

Lemma wf_put d id (tr : devTransfer) :
  present d (dt_LedgerTransfer tr) -> wf d -> wf (put_transfer id tr d).
Proof.
  intros Hp Hwf j tr'. simpl. destruct (decide (id = j)) as [->|Hne].
  - rewrite lookup_insert_eq. intros [= <-]. exact Hp.
  - rewrite lookup_insert_ne by done. apply Hwf.
Qed.

Lemma wf_present d id (tr : devTransfer) :
  wf d -> transfers d !! id = Some tr -> present d (dt_LedgerTransfer tr).
Proof. intros H. apply H. Qed.
Lemma present_hold d tr y t : present d t -> present (hold y tr d) t.
Proof. unfold present. by rewrite !is_Some_hold. Qed.
Lemma present_apply d tr t : present d t -> present (apply tr d) t.
Proof. unfold present. by rewrite !is_Some_apply. Qed.
Lemma wf_hold d tr y : wf d -> wf (hold y tr d).
Proof. apply wf_mono; [intros x; by rewrite is_Some_hold | done]. Qed.
Lemma wf_apply d tr : wf d -> wf (apply tr d).
Proof. apply wf_mono; [intros x; by rewrite is_Some_apply | done]. Qed.

(** The cases of the operations that change a ledger: refused, or the two
    account updates followed by the record of the transfer. *)
Lemma Transfer_cases tr d :
  (exists e, Transfer tr d = (d, Err e)) \/
  (exists d' t, Transfer tr d = (put_transfer (lt_ID t) (mkDevTransfer t false false true)
                                   (apply t d'), Ok (lt_ID t))
     /\ with_id tr d = (d', t) /\ checkAccounts tr d = Ok tt).
Proof.
  unfold Transfer. destruct (checkAccounts tr d) as [[]|e] eqn:?; [right|eauto].
  destruct (with_id tr d) as [d' t] eqn:?. eauto 10.
Qed.

Lemma PendingTransfer_cases tr d :
  (exists r, PendingTransfer tr d = (d, r)) \/
  (exists d' t, PendingTransfer tr d = (put_transfer (lt_ID t) (mkDevTransfer t true false false)
                                   (hold (AmountKobo t) t d'), Ok (lt_ID t))
     /\ with_id tr d = (d', t) /\ checkAccounts tr d = Ok tt
     /\ (lt_ID tr <> "" -> transfers d !! lt_ID tr = None)).
Proof.
  unfold PendingTransfer, createPending.
  destruct (checkAccounts tr d) as [[]|e] eqn:?; destruct (with_id tr d) as [d' t] eqn:?; cases;
    first [ by left; eauto | right; do 2 eexists; repeat split; eauto; intros; bools; done ].
Qed.

Lemma PostPending_cases id x d :
  (exists e, PostPending id x d = (d, Err e) /\ e <> floatViolated) \/
  (exists tr : devTransfer, transfers d !! id = Some tr /\ pending tr = true /\ voided tr = false /\
     0 < x <= AmountKobo (dt_LedgerTransfer tr) /\
     let lt := dt_LedgerTransfer tr in
     let d' := hold (- AmountKobo lt) lt d in
     (PostPending id x d = (d', Err floatViolated) \/
      (PostPending id x d = (put_transfer id (mkDevTransfer lt false (voided tr) true)
          (apply (with_amount x lt) d'), Ok id) /\
       (forall a, accounts d' !! DebitAccountID lt = Some a -> checkFloat a x = Ok tt)))).
Proof.
  unfold PostPending. destruct (transfers d !! id) as [tr|]; [|by left; eauto].
  destruct (negb (pending tr) || voided tr) eqn:Hp; [by left; eauto|].
  destruct ((x <=? 0) || _) eqn:Hx; [by left; eauto|]. bools. right. exists tr.
  repeat split; [done|done|lia|lia|]. simpl.
  destruct (_ !! DebitAccountID _) as [a|] eqn:Ha; simpl; [|right; split; [done|]; congruence].
  destruct (checkFloat a x) as [[]|e] eqn:Hf.
  - right. split; [done|]. congruence.
  - left. unfold checkFloat, guard_err in Hf. repeat case_match; congruence.
Qed.

Lemma PostPending_ok id x d tr a :
  transfers d !! id = Some (mkDevTransfer tr true false false) -> 0 < x <= AmountKobo tr ->
  accounts (hold (- AmountKobo tr) tr d) !! DebitAccountID tr = Some a -> checkFloat a x = Ok tt ->
  PostPending id x d =
    (put_transfer id (mkDevTransfer tr false false true)
       (apply (with_amount x tr) (hold (- AmountKobo tr) tr d)), Ok id).
Proof.
  intros Ht Hx Ha Hf. unfold PostPending. rewrite Ht. cbv zeta. cbn [pending voided dt_LedgerTransfer].
  destruct (x <=? 0) eqn:E1; [bools; lia|]. destruct (_ <? x) eqn:E2; [bools; lia|].
  cbn [negb orb]. rewrite Ha. cbn. by rewrite Hf.
Qed.

Lemma VoidPending_cases id d :
  VoidPending id d = (d, Err pendingNotVoidable) \/
  (exists tr : devTransfer, transfers d !! id = Some tr /\ pending tr = true /\ voided tr = false /\
     let lt := dt_LedgerTransfer tr in
     VoidPending id d = (put_transfer id (mkDevTransfer lt false true (posted tr))
                           (hold (- AmountKobo lt) lt d), Ok tt)).
Proof.
  unfold VoidPending. destruct (transfers d !! id) as [tr|]; [|by left].
  destruct (negb (pending tr) || voided tr) eqn:Hp; [by left|]. bools. right. by exists tr.
Qed.

Lemma with_id_inv tr d d' t :
  with_id tr d = (d', t) ->
  accounts d' = accounts d /\ transfers d' = transfers d /\
  DebitAccountID t = DebitAccountID tr /\ CreditAccountID t = CreditAccountID tr /\
  AmountKobo t = AmountKobo tr.
Proof. intros E. pose proof (with_id_fields d tr) as H. by rewrite E in H. Qed.

Lemma present_with_id tr d d' t u :
  with_id tr d = (d', t) -> checkAccounts tr d = Ok u -> present d' t.
Proof.
  intros (Ha & _ & Hd & Hc & _)%with_id_inv H%checkAccounts_present.
  unfold present in *. congruence.
Qed.

Lemma wf_exec d o : wf d -> wf (exec d o).
Proof.
  intros Hwf. destruct o as [l|tr|tr|id x|id]; simpl.
  - apply (wf_mono d); [|done..]. intros x. apply is_Some_CreateAccounts.
  - destruct (Transfer_cases tr d) as [[e ->] | (d' & t & -> & Hid & Hck)]; [done|].
    apply wf_put; [by eapply present_apply, present_with_id|]. apply wf_apply.
    apply with_id_inv in Hid as (Ha & Ht & _). unfold wf. by rewrite Ha, Ht.
  - destruct (PendingTransfer_cases tr d) as [[e ->] | (d' & t & -> & Hid & Hck & _)]; [done|].
    apply wf_put; [by eapply present_hold, present_with_id|]. apply wf_hold.
    apply with_id_inv in Hid as (Ha & Ht & _). unfold wf. by rewrite Ha, Ht.
  - destruct (PostPending_cases id x d) as [[e [-> _]] | (tr & Htr & _ & _ & _ & [-> | [-> _]])];
      [done | by apply wf_hold |].
    apply wf_put; [by apply present_apply, present_hold, (wf_present d id tr) | by apply wf_apply, wf_hold].
  - destruct (VoidPending_cases id d) as [-> | (tr & Htr & _ & _ & ->)]; [done|].
    apply wf_put; [by apply present_hold, (wf_present d id tr) | by apply wf_hold].
Qed.

Lemma wf_New : wf NewDevLedger.
Proof.
  intros id tr Hid. change ((∅ : gmap string devTransfer) !! id = Some tr) in Hid.
  by rewrite lookup_empty in Hid.
Qed.

(** Reasoning by induction on the sequence of operations *)
Lemma run_ind (P : DevLedger.t -> Prop) :
  P NewDevLedger -> (forall d o, wf d -> P d -> P (exec d o)) -> forall ops, P (run ops).
Proof.
  intros H0 HS ops. unfold run.
  pose proof wf_New as Hwf.
  revert H0 Hwf. generalize NewDevLedger as d. induction ops as [|o ops IH]; simpl; [done|].
  intros d Hd Hwf. apply IH; [by apply HS | by apply wf_exec].
Qed.

Lemma balanced_exec d o : wf d -> balanced d -> balanced (exec d o).
Proof.
  intros Hwf Hb. destruct o as [l|tr|tr|id x|id]; simpl.
  - by apply balanced_CreateAccounts.
  - destruct (Transfer_cases tr d) as [[e ->] | (d' & t & -> & Hid & Hck)]; [done|].
    pose proof (present_with_id _ _ _ _ _ Hid Hck).
    apply with_id_inv in Hid as (Ha & _). apply (balanced_apply d' t); [done|].
    unfold balanced. by rewrite Ha.
  - destruct (PendingTransfer_cases tr d) as [[e ->] | (d' & t & -> & Hid & Hck & _)]; [done|].
    pose proof (present_with_id _ _ _ _ _ Hid Hck).
    apply with_id_inv in Hid as (Ha & _). apply (balanced_hold d' t); [done|].
    unfold balanced. by rewrite Ha.
  - destruct (PostPending_cases id x d) as [[e [-> _]] | (tr & Htr & _ & _ & _ & [-> | [-> _]])];
      [done | by apply balanced_hold; [apply (wf_present d id tr)|] |].
    apply (balanced_apply _ (with_amount x _)); [by apply present_hold, (wf_present d id tr)|].
    by apply balanced_hold; [apply (wf_present d id tr)|].
  - destruct (VoidPending_cases id d) as [-> | (tr & Htr & _ & _ & ->)]; [done|].
    by apply (balanced_hold d); [apply (wf_present d id tr)|].
Qed.
End Steps.

Section Accounting.
Import DevLedger.
Implicit Types (d : DevLedger.t) (tr : LedgerTransfer).

Lemma holdsMatch_CreateAccounts l d :
  wf d -> holdsMatch d -> holdsMatch (CreateAccounts l d).
Proof.
  intros Hwf. unfold CreateAccounts, holdsMatch, set_accounts. simpl.
  assert (Hz : forall x, accounts d !! x = None ->
    msum (heldDebit x) (transfers d) = 0 /\ msum (heldCredit x) (transfers d) = 0).
  { intros x Hx. split; apply sumZ_zero; intros [id tr] Hid%elem_of_map_to_list; simpl;
      destruct (wf_present _ _ _ Hwf Hid) as [Hd Hc]; unfold heldDebit, heldCredit;
      case_bool_decide; rewrite ?andb_false_r; try done; subst;
      [rewrite Hx in Hd | rewrite Hx in Hc]; by destruct Hd || by destruct Hc. }
  revert Hz. generalize (accounts d) as m. induction l as [|a l IH]; intros m Hz H; simpl; [done|].
  apply IH; unfold CreateAccount; destruct (m !! la_ID a) eqn:E; try done.
  - intros x Hx. apply Hz. by apply lookup_insert_None in Hx as [? _].
  - intros x b. destruct (decide (la_ID a = x)) as [<-|Hne].
    + rewrite lookup_insert_eq. intros [= <-]. destruct (Hz _ E) as [-> ->]. done.
    + rewrite lookup_insert_ne by done. apply H.
Qed.

Lemma holdsMatch_exec d o : wf d -> accounted d o = true -> holdsMatch d -> holdsMatch (exec d o).
Proof.
  intros Hwf Hacc Hm. destruct o as [l|tr|tr|id x|id]; simpl.
  - by apply holdsMatch_CreateAccounts.
  - destruct (Transfer_cases tr d) as [[e ->] | (d' & t & -> & Hid & Hck)]; [done|].
    simpl in Hacc. rewrite Hid in Hacc. apply negb_true_iff in Hacc.
    apply with_id_inv in Hid as (Ha & Ht & _).
    apply holdsMatch_put_settled; [|done|].
    + change (overwritesHold d' (lt_ID t) = false). unfold overwritesHold in *. by rewrite Ht.
    + apply holdsMatch_alt, holdsAre_apply. change (transfers (apply t d')) with (transfers d').
      intros y a. rewrite Ha, Ht. apply Hm.
  - destruct (PendingTransfer_cases tr d) as [[e ->] | (d' & t & -> & Hid & Hck & Hnew)]; [done|].
    simpl in Hacc. rewrite Hid in Hacc. pose proof Hid as (Ha & Ht & _)%with_id_inv.
    apply holdsMatch_put_hold.
    + unfold overwritesHold in *. rewrite Ht. case_bool_decide as Hempty; [by bools|].
      unfold with_id in Hid. rewrite bool_decide_false in Hid by done.
      injection Hid as <- <-. by rewrite Hnew.
    + intros y a. rewrite Ha, Ht. apply Hm.
  - simpl in Hacc.
    destruct (PostPending_cases id x d) as [[e [-> _]] | (tr & Htr & Hp & Hv & _ & [E | [-> _]])];
      [done | by rewrite E in Hacc |].
    apply (holdsMatch_release d _ id tr); [done..| |done].
    intros Sd Sc H. by apply holdsAre_apply.
  - destruct (VoidPending_cases id d) as [-> | (tr & Htr & Hp & Hv & ->)]; [done|].
    apply (holdsMatch_release d _ id tr); [done..| |done]. done.
Qed.

Lemma holdsMatch_New : holdsMatch NewDevLedger.
Proof.
  apply (holdsMatch_CreateAccounts _ (mk ∅ ∅ 0)).
  - intros id tr. simpl. by rewrite lookup_empty.
  - intros x a. simpl. by rewrite lookup_empty.
Qed.

(** Float accounts, when the amounts of the run fit in 63 bits. *)
Definition opAmount (o : ledgerOp) : Z :=
  match o with
  | opTransfer tr => Z.max 0 (AmountKobo tr)
  | opPost _ x => Z.max 0 x
  | _ => 0
  end.

Definition within (T : Z) d : Prop := forall x a, accounts d !! x = Some a ->
  0 <= debitsPosted a <= T /\ 0 <= creditsPosted a <= T /\
  (la_Flags (da_LedgerAccount a) = floatFlag -> debitsPosted a <= creditsPosted a).

Lemma within_mono T T' d : T <= T' -> within T d -> within T' d.
Proof. intros HT H x a Hx. destruct (H x a Hx) as (? & ? & ?). repeat split; try lia; done. Qed.

Lemma within_accounts T d d' : accounts d' = accounts d -> within T d -> within T d'.
Proof. unfold within. by intros ->. Qed.

Lemma within_hold T d tr y : within T d -> within T (hold y tr d).
Proof.
  intros H x a. unfold hold, set_accounts. simpl. rewrite !lookup_alter_if.
  destruct (accounts d !! x) as [b|] eqn:Hb; simpl; [|done]. intros [= <-].
  specialize (H x b Hb). by repeat case_decide.
Qed.

Lemma checkFloat_ok a x u : checkFloat a x = Ok u ->
  la_Flags (da_LedgerAccount a) = floatFlag -> debitsPosted a +! x <= creditsPosted a.
Proof.
  unfold checkFloat, guard_err. intros H Hf. rewrite bool_decide_true in H by done.
  destruct (_ <? _) eqn:E; [done|]. by bools.
Qed.

Lemma within_apply T d tr :
  0 <= AmountKobo tr -> T + AmountKobo tr < two63 ->
  (forall a, accounts d !! DebitAccountID tr = Some a -> checkFloat a (AmountKobo tr) = Ok tt) ->
  within T d -> within (T + AmountKobo tr) (apply tr d).
Proof.
  intros H0 HT Hck H x a. unfold apply, set_accounts. simpl. rewrite !lookup_alter_if.
  destruct (accounts d !! x) as [b|] eqn:Hb; simpl; [|done]. intros [= <-].
  pose proof (H x b Hb) as (Hd & Hc & Hf).
  assert (Hck' : DebitAccountID tr = x -> la_Flags (da_LedgerAccount b) = floatFlag ->
    debitsPosted b + AmountKobo tr <= creditsPosted b).
  { intros <- Hfl. pose proof (checkFloat_ok _ _ _ (Hck b Hb) Hfl) as Hle.
    rewrite wrap64_id in Hle; [done|unfold in64, two63 in *; lia]. }
  repeat case_decide; simpl; wrap_id; repeat split; try lia; intros Hfl; try (specialize (Hf Hfl));
    try (specialize (Hck' ltac:(done) Hfl)); lia.
Qed.

Lemma within_exec T d o :
  0 <= T -> T + opAmount o < two63 -> within T d -> within (T + opAmount o) (exec d o).
Proof.
  intros H0 HT H. destruct o as [l|tr|tr|id x|id]; simpl in *; rewrite ?Z.add_0_r.
  - revert H. unfold CreateAccounts, within, set_accounts. simpl. generalize (accounts d) as m.
    induction l as [|a l IH]; intros m H; simpl; [done|]. apply IH. intros x b.
    unfold CreateAccount. destruct (m !! la_ID a); [apply H|].
    destruct (decide (la_ID a = x)) as [->|?]; [|rewrite lookup_insert_ne by done; apply H].
    rewrite lookup_insert_eq. intros [= <-]. simpl. lia.
  - destruct (Transfer_cases tr d) as [[e ->] | (d' & t & -> & Hid & Hck)].
    { apply (within_mono T); [lia|done]. }
    apply with_id_inv in Hid as (Ha & Ht & Hda & Hca & Hamt).
    assert (Hpos : 0 < AmountKobo tr) by (unfold checkAccounts, guard_err in Hck; cases; bools; lia).
    rewrite Z.max_r, <- Hamt in * by lia.
    apply (within_apply T d' t); [lia|lia| |by apply (within_accounts T d)].
    intros a. rewrite Ha, Hda, Hamt. intros E. unfold checkAccounts in Hck. rewrite E in Hck.
    unfold guard_err in Hck. cases; done.
  - destruct (PendingTransfer_cases tr d) as [[e ->] | (d' & t & -> & Hid & _)]; [done|].
    apply with_id_inv in Hid as (Ha & _). apply (within_hold T d' t). by apply (within_accounts T d).
  - destruct (PostPending_cases id x d) as [[e [-> _]] | (tr & Htr & _ & _ & Hx & [-> | [-> Hck]])].
    + apply (within_mono T); [lia|done].
    + apply (within_mono T); [lia|]. by apply within_hold.
    + rewrite Z.max_r in * by lia.
      apply (within_apply T _ (with_amount x (dt_LedgerTransfer tr)));
        [simpl; lia | simpl; lia | done | by apply within_hold].
  - destruct (VoidPending_cases id d) as [-> | (tr & Htr & Hp & Hv & ->)]; [done|].
    by apply within_hold.
Qed.

Lemma within_run ops T d :
  0 <= T -> within T d -> T + sumZ opAmount ops < two63 ->
  within (T + sumZ opAmount ops) (foldl exec d ops).
Proof.
  revert T d. induction ops as [|o ops IH]; intros T d HT Hd Hsum; simpl; [by rewrite Z.add_0_r|].
  assert (0 <= opAmount o) by (destruct o; simpl; lia).
  assert (0 <= sumZ opAmount ops) by (apply sumZ_nonneg; intros [] _; simpl; lia).
  unfold sumZ in *. simpl in *. rewrite Z.add_assoc in *.
  apply IH; [lia | apply within_exec; [lia | lia | done] | done].
Qed.
End Accounting.

(** ** Properties *)

(** The phases of a transfer, and the steps between them *)
Inductive phase := absent | isPending | isPosted | isVoided.

Inductive phase_step : phase -> phase -> Prop :=
| step_stay p : phase_step p p
| step_hold : phase_step absent isPending
| step_post_direct : phase_step absent isPosted
| step_post : phase_step isPending isPosted
| step_void : phase_step isPending isVoided.

Definition phase_of (d : DevLedger.t) (id : string) : phase :=
  match DevLedger.transfers d !! id with
  | None => absent
  | Some tr => if pending tr then isPending else if voided tr then isVoided else isPosted
  end.

(** The operation records a transfer over an existing one of that id. *)
Definition overwrites (d : DevLedger.t) (o : ledgerOp) (id : string) : bool :=
  match o with
  | opTransfer tr =>
      bool_decide (lt_ID (DevLedger.with_id tr d).2 = id) &&
      bool_decide (is_Some (DevLedger.transfers d !! id))
  | opPending tr =>
      bool_decide (lt_ID tr = "") && bool_decide (lt_ID (DevLedger.with_id tr d).2 = id) &&
      bool_decide (is_Some (DevLedger.transfers d !! id))
  | _ => false
  end.

Section Lifecycle.
Import DevLedger.

(** An accepted hold is on record under its id. *)
Lemma PendingTransfer_recorded tr d id :
  lt_ID tr <> "" -> (PendingTransfer tr d).2 = Ok id ->
  id = lt_ID tr /\ exists e, transfers (PendingTransfer tr d).1 !! lt_ID tr = Some e /\
    pending e = true /\
    (forall tr', sameLedgerTransfer (dt_LedgerTransfer e) tr' = sameLedgerTransfer tr tr').
Proof.
  intros Hne. unfold PendingTransfer, createPending, with_id. rewrite bool_decide_false by done.
  destruct (transfers d !! lt_ID tr) as [e|] eqn:He.
  - destruct (pending e && _) eqn:Hs; simpl; [|done]. intros [= <-]. bools.
    split; [done|]. exists e. split_and!; [done..|]. intros tr'.
    unfold sameLedgerTransfer in *. bools.
    repeat match goal with H : _ = _ |- _ => progress rewrite ?H end. done.
  - destruct (checkAccounts tr d); simpl; [|done]. intros [= <-].
    split; [done|]. eexists. by rewrite lookup_insert_eq.
Qed.

Lemma sameLedgerTransfer_refl tr : sameLedgerTransfer tr tr = true.
Proof. unfold sameLedgerTransfer. by rewrite !bool_decide_true, !Z.eqb_refl. Qed.


Lemma phase_put d id (tr : devTransfer) j :
  phase_of (put_transfer id tr d) j =
    if decide (id = j) then (if pending tr then isPending else if voided tr then isVoided else isPosted)
    else phase_of d j.
Proof.
  unfold phase_of. simpl. destruct (decide (id = j)) as [->|];
    [by rewrite lookup_insert_eq | by rewrite lookup_insert_ne].
Qed.

Lemma phase_hold d tr y j : phase_of (hold y tr d) j = phase_of d j.
Proof. done. Qed.
Lemma phase_apply d tr j : phase_of (apply tr d) j = phase_of d j.
Proof. done. Qed.

Lemma phase_ext d d' id : transfers d' = transfers d -> phase_of d' id = phase_of d id.
Proof. unfold phase_of. by intros ->. Qed.

Lemma phase_pending d id (tr : devTransfer) :
  transfers d !! id = Some tr -> pending tr = true -> phase_of d id = isPending.
Proof. unfold phase_of. by intros -> ->. Qed.
End Lifecycle.

(** C1: Double entry.  After any sequence of ledger operations, from the
    service's initial ledger and with any arguments, the debits and the credits
    posted over all accounts agree, and so do the debits and credits held
    pending (modulo the 64-bit width of the balances). *)
Theorem ledger_double_entry (ops : list ledgerOp) : balanced (run ops).
Proof.
  apply run_ind; [|intros; by apply balanced_exec].
  apply (balanced_CreateAccounts _ (DevLedger.mk ∅ ∅ 0)).
  unfold balanced. simpl. rewrite !msum_empty. done.
Qed.

(** C2: The pending balances of every account are exactly the amounts of the
    transfers pending against it, after every sequence of operations that
    neither overwrites a pending transfer nor has a post refused by the float
    check: no hold is lost, duplicated or left behind. *)
Theorem ledger_holds_match (ops : list ledgerOp) :
  accounted_run DevLedger.NewDevLedger ops = true -> holdsMatch (run ops).
Proof.
  generalize wf_New, holdsMatch_New. unfold run.
  generalize DevLedger.NewDevLedger as d.
  induction ops as [|o ops IH]; intros d Hwf Hm Hacc; simpl in *; [done|]. bools.
  apply IH; [by apply wf_exec | by apply holdsMatch_exec | done].
Qed.

(** C3: A float account (flag DEBITS_MUST_NOT_EXCEED_CREDITS) is never
    overdrawn: after any sequence of operations whose posted amounts fit in 63
    bits, its posted debits do not exceed its posted credits, and no posted
    balance of any account is negative. *)
Theorem ledger_float_never_overdrawn (ops : list ledgerOp) (x : string) (a : devAccount) :
  sumZ opAmount ops < two63 ->
  DevLedger.accounts (run ops) !! x = Some a ->
  0 <= debitsPosted a /\ 0 <= creditsPosted a /\
  (la_Flags (da_LedgerAccount a) = DevLedger.floatFlag -> debitsPosted a <= creditsPosted a).
Proof.
  intros Hsum Hx. cut (within (0 + sumZ opAmount ops) (run ops)).
  { intros H. destruct (H x a Hx) as (? & ? & ?). repeat split; try lia; done. }
  assert (H0 : within 0 DevLedger.NewDevLedger).
  { apply (within_exec 0 (DevLedger.mk ∅ ∅ 0) (opCreate _)); [lia | done |].
    intros y b. simpl. by rewrite lookup_empty. }
  apply within_run; [done | done | lia].
Qed.

(** C4: The life cycle of a transfer: whatever operation runs, a transfer
    that it does not overwrite stays as it is, is created (held or posted),
    is posted from pending or voided from pending.  Posted and voided are
    final: a transfer is posted at most once and never after a void. *)
Theorem ledger_lifecycle (d : DevLedger.t) (o : ledgerOp) (id : string) :
  overwrites d o id = false -> phase_step (phase_of d id) (phase_of (exec d o) id).
Proof.
  intros Hov. destruct o as [l|tr|tr|pid x|pid]; simpl in *.
  - apply step_stay.
  - destruct (Transfer_cases tr d) as [[e ->] | (d' & t & -> & Hid & _)]; [apply step_stay|].
    simpl. rewrite Hid in Hov. apply with_id_inv in Hid as (_ & Ht & _).
    rewrite phase_put, phase_apply, (phase_ext d d' id Ht).
    destruct (decide _) as [E|]; [|apply step_stay].
    rewrite bool_decide_true in Hov by done. simpl in Hov. bools.
    unfold phase_of. destruct (_ !! id); [destruct Hov; eauto|apply step_post_direct].
  - destruct (PendingTransfer_cases tr d) as [[e ->] | (d' & t & -> & Hid & _ & Hnew)]; [apply step_stay|].
    simpl. rewrite Hid in Hov. pose proof Hid as (_ & Ht & _)%with_id_inv.
    rewrite phase_put, phase_hold, (phase_ext d d' id Ht).
    destruct (decide _) as [E|]; [|apply step_stay]. simpl.
    unfold phase_of. destruct (DevLedger.transfers d !! id) eqn:Hl; [|apply step_hold].
    destruct (decide (lt_ID tr = "")) as [He|Hne].
    + by repeat case_bool_decide; naive_solver.
    + unfold DevLedger.with_id in Hid. rewrite bool_decide_false in Hid by done.
      injection Hid as <- <-. subst id. by rewrite Hnew in Hl.
  - destruct (PostPending_cases pid x d) as [[e [-> _]] | (tr & Htr & Hp & Hv & _ & [-> | [-> _]])];
      [apply step_stay..|]. simpl. rewrite phase_put, phase_apply, phase_hold.
    destruct (decide _) as [<-|]; [|apply step_stay].
    rewrite (phase_pending d pid tr), Hv by done. apply step_post.
  - destruct (VoidPending_cases pid d) as [-> | (tr & Htr & Hp & Hv & ->)]; [apply step_stay|].
    simpl. rewrite phase_put, phase_hold.
    destruct (decide _) as [<-|]; [|apply step_stay].
    rewrite (phase_pending d pid tr) by done. apply step_void.
Qed.

(** Retrying a hold is harmless: once [PendingTransfer] has accepted a
    transfer under a caller-chosen id, the same call again succeeds with the
    same id and changes nothing, and a call with other parameters under that
    id is refused and changes nothing. *)
Theorem ledger_hold_idempotent (tr tr' : LedgerTransfer) (d : DevLedger.t) (id : string) :
  lt_ID tr <> "" ->
  (DevLedger.PendingTransfer tr d).2 = Ok id ->
  lt_ID tr' = lt_ID tr ->
  let d' := (DevLedger.PendingTransfer tr d).1 in
  DevLedger.PendingTransfer tr' d' =
    (d', if sameLedgerTransfer tr tr' then Ok id else Err transferExists).
Proof.
  intros Hne Hok Hid.
  destruct (PendingTransfer_recorded tr d id Hne Hok) as (-> & e & He & Hp & Hs). specialize (Hs tr'). simpl.
  unfold DevLedger.PendingTransfer at 1. rewrite Hid, bool_decide_false, He, Hp, Hs by done.
  simpl. by destruct (sameLedgerTransfer tr tr').
Qed.

(** A post refused by the float check leaks its hold: the call returns
    the error, the transfer is still reported as pending, but the hold is
    gone from the debit account, so the void that would clean it up takes the
    same amount off a second time. *)
Theorem ledger_refused_post_leaks_hold
  (d : DevLedger.t) (id : string) (x : Z) (tr : devTransfer) (a : devAccount) :
  (DevLedger.PostPending id x d).2 = Err floatViolated ->
  DevLedger.transfers d !! id = Some tr ->
  DevLedger.accounts d !! DebitAccountID (dt_LedgerTransfer tr) = Some a ->
  CreditAccountID (dt_LedgerTransfer tr) <> DebitAccountID (dt_LedgerTransfer tr) ->
  let amt := AmountKobo (dt_LedgerTransfer tr) in
  let d1 := (DevLedger.PostPending id x d).1 in
  DevLedger.GetTransfer id d1 = DevLedger.GetTransfer id d /\ phase_of d1 id = isPending /\
  (DevLedger.VoidPending id d1).2 = Ok tt /\
  (fun a => debitsPending a) <$>
    (DevLedger.accounts (DevLedger.VoidPending id d1).1 !! DebitAccountID (dt_LedgerTransfer tr))
  = Some (wrap64 (debitsPending a - 2 * amt)).
Proof.
  intros Hr Htr Ha Hne.
  destruct (PostPending_cases id x d) as [[e [E He]] | (tr' & Htr' & Hp & Hv & _ & [E | [E _]])];
    rewrite E in *; simplify_eq/=.
  unfold DevLedger.GetTransfer, DevLedger.VoidPending, phase_of. simpl. rewrite Htr, Hp, Hv. simpl.
  repeat split; [done..|].
  rewrite !lookup_alter_if, Ha. simpl. repeat case_decide; try done.
  simpl. rewrite wrap64_add_l. do 2 f_equal. lia.
Qed.

(** ** The properties at concrete inputs *)

(** A merchant "m" pays the pool "p"; the float account "f" holds nothing. *)
Definition demo_accounts : ledgerOp :=
  opCreate [mkLedgerAccount "m" 300 3 ""; mkLedgerAccount "p" 300 5 "";
            mkLedgerAccount "f" 300 5 DevLedger.floatFlag].
Definition demo_tr (id : string) (amount : Z) : LedgerTransfer :=
  mkLedgerTransfer id "m" "p" amount 300 5.
Definition demo_ops : list ledgerOp :=
  [demo_accounts; opPending (demo_tr "h1" 500); opPending (demo_tr "h2" 70);
   opPost "h1" 400; opTransfer (mkLedgerTransfer "" "p" "f" 90 300 5);
   opTransfer (mkLedgerTransfer "" "f" "p" 60 300 5); opVoid "h1"].

Lemma ledger_holds_match_witness :
  accounted_run DevLedger.NewDevLedger demo_ops = true /\ holdsMatch (run demo_ops).
Proof. split; [vm_compute; reflexivity|]. apply (ledger_holds_match demo_ops). vm_compute. reflexivity. Defined.

Lemma ledger_float_never_overdrawn_witness :
  exists a, DevLedger.accounts (run demo_ops) !! "f" = Some a /\
    debitsPosted a = 60 /\ debitsPosted a <= creditsPosted a.
Proof.
  eexists. split; [vm_compute; reflexivity|]. split; [reflexivity|].
  apply (ledger_float_never_overdrawn demo_ops "f"); vm_compute; reflexivity.
Defined.

Lemma ledger_lifecycle_witness :
  phase_step (phase_of (run demo_ops) "h2") (phase_of (exec (run demo_ops) (opVoid "h2")) "h2") /\
  phase_of (exec (run demo_ops) (opVoid "h2")) "h2" = isVoided.
Proof.
  split; [|vm_compute; reflexivity].
  apply (ledger_lifecycle (run demo_ops) (opVoid "h2") "h2"). reflexivity.
Defined.

Lemma ledger_hold_idempotent_witness :
  let d' := (DevLedger.PendingTransfer (demo_tr "h3" 9) (run demo_ops)).1 in
  DevLedger.PendingTransfer (demo_tr "h3" 9) d' = (d', Ok "h3") /\
  DevLedger.PendingTransfer (demo_tr "h3" 8) d' = (d', Err transferExists).
Proof.
  split;
    [ apply (ledger_hold_idempotent (demo_tr "h3" 9) (demo_tr "h3" 9) (run demo_ops) "h3")
    | apply (ledger_hold_idempotent (demo_tr "h3" 9) (demo_tr "h3" 8) (run demo_ops) "h3") ];
    first [ discriminate | vm_compute; reflexivity ].
Defined.

(** "f" has 30 in credit after [demo_ops]: a hold of 30, then 30 paid out,
    then the post of the hold is refused. *)
Definition demo_refused : DevLedger.t :=
  exec (exec (run demo_ops) (opPending (mkLedgerTransfer "h4" "f" "p" 30 300 5)))
    (opTransfer (mkLedgerTransfer "" "f" "p" 30 300 5)).

Lemma ledger_refused_post_leaks_hold_witness :
  let d1 := (DevLedger.PostPending "h4" 30 demo_refused).1 in
  phase_of d1 "h4" = isPending /\
  (fun a => debitsPending a) <$> (DevLedger.accounts (DevLedger.VoidPending "h4" d1).1 !! "f") = Some (-30).
Proof.
  pose proof (ledger_refused_post_leaks_hold demo_refused "h4" 30) as H.
  edestruct H as (_ & H1 & _ & H2);
    [ vm_compute; reflexivity | vm_compute; reflexivity | vm_compute; reflexivity
    | vm_compute; discriminate | ].
  split; [exact H1|]. etransitivity; [exact H2 | vm_compute; reflexivity].
Defined.
