(* ===== verification/GoAny.v ===== *)
(** * Go's [any] values, as the rule packs and JSON documents use them

    A decoded YAML or JSON document is a tree of [any].  The code reads it by
    type assertions, which are partial functions here.  A [float64] is a
    [spec_float] of the Standard Library in the binary64 format. *)

From S2P Require Import Prelude.
From Stdlib Require Export SpecFloat.

Inductive any : Type :=
| VNil
| VBool (b : bool)
| VInt (z : Z)
| VFloat (f : spec_float)
| VStr (s : string)
| VList (l : list any)
| VMap (m : list (string * any)).

(** A [map\[string\]any] is an association list with at most one entry per
    key; [put] is the assignment [m\[k\] = v]. *)
Fixpoint find (k : string) (m : list (string * any)) : any :=
  match m with
  | [] => VNil
  | (k', v) :: m => if bool_decide (k = k') then v else find k m
  end.

Fixpoint has (k : string) (m : list (string * any)) : bool :=
  match m with
  | [] => false
  | (k', _) :: m => bool_decide (k = k') || has k m
  end.

Fixpoint put (k : string) (v : any) (m : list (string * any)) : list (string * any) :=
  match m with
  | [] => [(k, v)]
  | (k', v') :: m => if bool_decide (k = k') then (k, v) :: m else (k', v') :: put k v m
  end.

(** [v.(string)], [v.(int64)], ... with the zero value or [None] on failure *)
Definition as_str (v : any) : string := match v with VStr s => s | _ => "" end.
Definition as_int (v : any) : option Z := match v with VInt z => Some z | _ => None end.
Definition as_bool (v : any) : bool := match v with VBool b => b | _ => false end.
Definition as_map (v : any) : option (list (string * any)) :=
  match v with VMap m => Some m | _ => None end.
Definition as_list (v : any) : option (list any) := match v with VList l => Some l | _ => None end.

(** [float64(i)]: rounding to nearest even in binary64 *)
Definition float_of_int (z : Z) : spec_float := binary_normalize 53 1024 z 0 false.

(** [a == b] on interfaces: equal dynamic types and equal values.  Two lists
    or two maps panic in Go; the callers never compare those (see
    [scalarEq]). *)
Definition iface_eq (a b : any) : bool :=
  match a, b with
  | VNil, VNil => true
  | VBool x, VBool y => Bool.eqb x y
  | VInt x, VInt y => x =? y
  | VFloat x, VFloat y => SFeqb x y
  | VStr x, VStr y => bool_decide (x = y)
  | _, _ => false
  end.

(** Assignment and lookup *)
Lemma find_put k j v m : find j (put k v m) = if decide (k = j) then v else find j m.
Proof.
  induction m as [|[k' v'] m IH]; simpl.
  - repeat case_bool_decide; repeat case_decide; congruence.
  - case_bool_decide as E; simpl; repeat case_bool_decide; rewrite ?IH; repeat case_decide; congruence.
Qed.

Lemma has_find k m : has k m = false -> find k m = VNil.
Proof.
  induction m as [|[k' v] m IH]; simpl; [done|].
  case_bool_decide; simpl; [done|apply IH].
Qed.
