(* ===== verification/Yaml.v ===== *)
(** * The YAML-subset parser of the rule packs (services/pos-vat/packs.go)

    [ParseYAML] reads the block structure by indentation and the scalars by a
    small flow grammar.  The functions recurse on line positions that the code
    advances through a loop, so the model has fuel: [None] is a parse that has
    not finished, [Some (Err e)] one that the code refuses.  A result does not
    depend on the fuel once there is one ([parse_fuel_mono]); not every
    document has one ([yaml_parse_hangs]). *)

From S2P Require Import Prelude GoAny.

Definition dquote : ascii := Ascii.ascii_of_nat 34.
Definition squote : ascii := Ascii.ascii_of_nat 39.
Definition newline : ascii := Ascii.ascii_of_nat 10.

Inductive yamlError :=
| emptyDocument
| trailingContent
| unexpectedIndent
| badMapLine
| badFlowPair
| unexpectedIndentInList. (* of the vasp-carf variant only *)

Record yamlLine := mkLine { indent : Z; content : string }.

(** Tracking of quotes shared by the scanners: the state after a character *)
Definition quotes (c : ascii) (q : bool * bool) : bool * bool :=
  let '(inS, inD) := q in
  if bool_decide (c = squote) then (if inD then q else (negb inS, inD))
  else if bool_decide (c = dquote) then (if inS then q else (inS, negb inD))
  else q.
Definition quoted (q : bool * bool) : bool := q.1 || q.2.

Fixpoint stripComment_from (q : bool * bool) (prev : ascii) (s : string) : string :=
  match s with
  | EmptyString => EmptyString
  | String c s' =>
      if bool_decide (c = "#"%char) && negb (quoted q) && bool_decide (prev = " "%char)
      then EmptyString
      else String c (stripComment_from (quotes c q) c s')
  end.
Definition stripComment (s : string) : string := stripComment_from (false, false) " "%char s.

(** The text around the first unquoted colon that ends the string or is
    followed by a space *)
Fixpoint splitKV_from (q : bool * bool) (s : string) : option (string * string) :=
  match s with
  | EmptyString => None
  | String c s' =>
      if bool_decide (c = ":"%char) && negb (quoted q)
         && (bool_decide (s' = "") || Str.has_prefix s' " ")
      then Some (EmptyString, s')
      else match splitKV_from (quotes c q) s' with
           | Some (k, v) => Some (String c k, v)
           | None => None
           end
  end.
Definition splitKV (s : string) : option (string * string) :=
  match splitKV_from (false, false) s with
  | Some (k, v) => Some (Str.trim_space k, Str.trim_space v)
  | None => None
  end.

(** Split at the commas outside quotes and brackets *)
Fixpoint splitFlow_from (q : bool * bool) (depth : Z) (s : string) : list string :=
  match s with
  | EmptyString => [EmptyString]
  | String c s' =>
      let open := bool_decide (c ∈ ["{"%char; "["%char]) && negb (quoted q) in
      let close := bool_decide (c ∈ ["}"%char; "]"%char]) && negb (quoted q) in
      if bool_decide (c = ","%char) && negb (quoted q) && (depth =? 0)
      then EmptyString :: splitFlow_from q depth s'
      else match splitFlow_from (quotes c q)
                   (depth + (if open then 1 else 0) - (if close then 1 else 0)) s' with
           | [] => [String c EmptyString]
           | w :: ws => String c w :: ws
           end
  end.
Definition splitFlow (s : string) : list string := map Str.trim_space (splitFlow_from (false, false) 0 s).

(** *** Numbers: [strconv.ParseInt(s, 10, 64)] and [strconv.ParseFloat(s, 64)] *)

Definition split_sign (s : string) : bool * string :=
  match s with
  | String c s' =>
      if bool_decide (c = "-"%char) then (true, s')
      else if bool_decide (c = "+"%char) then (false, s') else (false, s)
  | EmptyString => (false, s)
  end.

Definition parseInt (s : string) : option Z :=
  let '(neg, ds) := split_sign s in
  if negb (bool_decide (ds = "")) && Str.all Str.is_digit ds then
    let v := if neg then - Str.digits_val ds else Str.digits_val ds in
    if decide (in64 v) then Some v else None
  else None.

(** The leading digits of a string, and the rest *)
Fixpoint span_digits (s : string) : string * string :=
  match s with
  | String c s' =>
      if Str.is_digit c then let '(a, b) := span_digits s' in (String c a, b) else (EmptyString, s)
  | EmptyString => (EmptyString, EmptyString)
  end.

(** [m * 10^e], rounded to nearest even in binary64 *)
Definition decimal_float (neg : bool) (m e : Z) : spec_float :=
  if m =? 0 then S754_zero neg
  else if 0 <=? e then binary_normalize 53 1024 ((if neg then -1 else 1) * m * 10 ^ e) 0 neg
  else let '(q, ez, l) := SFdiv_core_binary 53 1024 m 0 (10 ^ (- e)) 0 in
       binary_round_aux 53 1024 neg q ez l.

Definition float_exponent (s : string) : option Z :=
  match s with
  | EmptyString => Some 0
  | String c s' =>
      if bool_decide (Str.lower c = "e"%char) then
        let '(neg, ds) := split_sign s' in
        if negb (bool_decide (ds = "")) && Str.all Str.is_digit ds
        then Some (if neg then - Str.digits_val ds else Str.digits_val ds) else None
      else None
  end.

(** Decimal floats and the named special values; an overflow is an error.  (A
    hexadecimal float is left a string here.) *)
Definition parseFloat (s : string) : option spec_float :=
  let '(neg, rest) := split_sign s in
  if bool_decide (Str.to_lower rest ∈ ["inf"; "infinity"]) then Some (S754_infinity neg)
  else if bool_decide (Str.to_lower s = "nan") then Some S754_nan
  else
    let '(ip, rest) := span_digits rest in
    let '(fp, rest) :=
      match rest with
      | String c r => if bool_decide (c = "."%char) then span_digits r else (EmptyString, rest)
      | EmptyString => (EmptyString, rest)
      end in
    if bool_decide (ip +:+ fp = "") then None
    else match float_exponent rest with
         | None => None
         | Some e =>
             match decimal_float neg (Str.digits_val (ip +:+ fp)) (e - Str.len fp) with
             | S754_infinity _ => None
             | f => Some f
             end
         end.

(** [strings.ReplaceAll(s, "''", "'")] *)
Fixpoint unescape (s : string) : string :=
  match s with
  | String c s' =>
      match s' with
      | String d s'' =>
          if bool_decide (c = squote) && bool_decide (d = squote)
          then String squote (unescape s'') else String c (unescape s')
      | EmptyString => s
      end
  | EmptyString => EmptyString
  end.

(** [s\[1:len(s)-1\]] *)
Definition inner (s : string) : string := Str.take (String.length s - 2) (Str.drop 1 s).

(** A document from its lines *)
Definition doc_of (lines : list string) : string := Str.join (String newline EmptyString) lines.

Definition dq : string := String dquote EmptyString.
Definition sq : string := String squote EmptyString.

Definition plainScalar (s : string) : any :=
  if (2 <=? Str.len s) && Str.has_prefix s dq && Str.has_suffix s dq then VStr (inner s)
  else if (2 <=? Str.len s) && Str.has_prefix s sq && Str.has_suffix s sq then VStr (unescape (inner s))
  else if bool_decide (s = "true") then VBool true
  else if bool_decide (s = "false") then VBool false
  else match parseInt s with
       | Some i => VInt i
       | None => match parseFloat s with Some f => VFloat f | None => VStr s end
       end.

Definition parse (A : Type) := option (result yamlError A).
Definition pret {A} (a : A) : parse A := Some (Ok a).
Definition perr {A} (e : yamlError) : parse A := Some (Err e).
Definition pbind {A B} (m : parse A) (f : A -> parse B) : parse B :=
  match m with
  | None => None
  | Some (Err e) => Some (Err e)
  | Some (Ok a) => f a
  end.
Notation "x <-- m ;; k" := (pbind m (fun x => k)) (at level 100, m at next level, right associativity) : go_scope.

Fixpoint parseScalar (n : nat) (s : string) : parse any :=
  match n with
  | O => None
  | S n =>
      let s := Str.trim_space s in
      if bool_decide (s ∈ [""; "null"; "~"]) then pret VNil
      else if Str.has_prefix s "{" && Str.has_suffix s "}" then
        let inr := Str.trim_space (inner s) in
        if bool_decide (inr = "") then pret (VMap [])
        else m <-- foldl (fun acc part => m <-- acc ;;
               match splitKV part with
               | None => perr badFlowPair
               | Some (k, v) => sv <-- parseScalar n v ;; pret (put k sv m)
               end) (pret []) (splitFlow inr) ;; pret (VMap m)
      else if Str.has_prefix s "[" && Str.has_suffix s "]" then
        let inr := Str.trim_space (inner s) in
        if bool_decide (inr = "") then pret (VList [])
        else l <-- foldl (fun acc part => l <-- acc ;; v <-- parseScalar n part ;; pret (l ++ [v]))
               (pret []) (splitFlow inr) ;; pret (VList l)
      else pret (plainScalar s)
  end.

(** [parseScalar] on any string: the depth of the recursion is at most the
    length of the string. *)
Definition parse_scalar (s : string) : parse any := parseScalar (S (String.length s)) s.

Definition isItem (c : string) : bool := Str.has_prefix c "- " || bool_decide (c = "-").

(** The remaining lines are [lines\[i:\]]; a call returns its value and the
    lines left. *)
Fixpoint parseBlock (n : nat) (lines : list yamlLine) (ind : Z) : parse (any * list yamlLine) :=
  match n with
  | O => None
  | S n =>
      match lines with
      | [] => pret (VNil, [])
      | ln :: _ =>
          if isItem (content ln) then parseList n [] lines ind
          else r <-- parseMap n [] lines ind ;; pret (VMap r.1, r.2)
      end
  end
with parseMap (n : nat) (m : list (string * any)) (lines : list yamlLine) (ind : Z)
  : parse (list (string * any) * list yamlLine) :=
  match n with
  | O => None
  | S n =>
      match lines with
      | [] => pret (m, [])
      | ln :: rest =>
          if indent ln <? ind then pret (m, lines)
          else if ind <? indent ln then perr unexpectedIndent
          else if Str.has_prefix (content ln) "- " then pret (m, lines)
          else match splitKV (content ln) with
               | None => perr badMapLine
               | Some (key, val) =>
                   if negb (bool_decide (val = "")) then
                     v <-- parse_scalar val ;; parseMap n (put key v m) rest ind
                   else
                     match rest with
                     | nx :: _ =>
                         if ind <? indent nx then
                           r <-- parseBlock n rest (indent nx) ;; parseMap n (put key r.1 m) r.2 ind
                         else if (indent nx =? ind) && isItem (content nx) then
                           r <-- parseList n [] rest ind ;; parseMap n (put key r.1 m) r.2 ind
                         else parseMap n (put key VNil m) rest ind
                     | [] => parseMap n (put key VNil m) rest ind
                     end
               end
      end
  end
with parseList (n : nat) (out : list any) (lines : list yamlLine) (ind : Z)
  : parse (any * list yamlLine) :=
  match n with
  | O => None
  | S n =>
      match lines with
      | [] => pret (VList out, [])
      | ln :: after =>
          if negb (indent ln =? ind) || negb (isItem (content ln)) then pret (VList out, lines)
          else
            let rest := if Str.has_prefix (content ln) "- " then Str.drop 2 (content ln) else "" in
            if bool_decide (rest = "") then
              match after with
              | nx :: _ =>
                  if ind <? indent nx then
                    r <-- parseBlock n after (indent nx) ;; parseList n (out ++ [r.1]) r.2 ind
                  else parseList n (out ++ [VNil]) after ind
              | [] => parseList n (out ++ [VNil]) after ind
              end
            else
              let scalar := v <-- parse_scalar rest ;; parseList n (out ++ [v]) after ind in
              match splitKV rest with
              | Some (k, v) =>
                  if Str.has_prefix v "{" then scalar
                  else sv <-- parse_scalar v ;;
                       r <-- parseSub n [(k, sv)] after ind ;;
                       parseList n (out ++ [VMap r.1]) r.2 ind
              | None => scalar
              end
      end
  end
(** The loop that adds the deeper lines to the map an item begins *)
with parseSub (n : nat) (m : list (string * any)) (lines : list yamlLine) (ind : Z)
  : parse (list (string * any) * list yamlLine) :=
  match n with
  | O => None
  | S n =>
      match lines with
      | [] => pret (m, [])
      | ln :: _ =>
          if ind <? indent ln then
            r <-- parseMap n [] lines (indent ln) ;;
            let m := foldl (fun m kv => put kv.1 kv.2 m) m r.1 in
            match r.2 with
            | nx :: _ => if ind <? indent nx then parseSub n m r.2 ind else pret (m, r.2)
            | [] => pret (m, r.2)
            end
          else pret (m, lines)
      end
  end.

Fixpoint leading_spaces (s : string) : Z :=
  match s with
  | String c s' => if bool_decide (c = " "%char) then 1 + leading_spaces s' else 0
  | EmptyString => 0
  end.

(** The significant lines: comments stripped, blank lines dropped *)
Definition line_of (raw : string) : option yamlLine :=
  if bool_decide (Str.trim_space raw = "") || Str.has_prefix (Str.trim_space raw) "#" then None
  else
    let nc := stripComment raw in
    if bool_decide (Str.trim_space nc = "") then None
    else Some (mkLine (leading_spaces nc) (Str.trim_space nc)).

Definition ParseYAML (n : nat) (doc : string) : parse any :=
  match omap line_of (Str.split newline doc) with
  | [] => perr emptyDocument
  | ln :: rest =>
      r <-- parseBlock n (ln :: rest) (indent ln) ;;
      match r.2 with [] => pret r.1 | _ => perr trailingContent end
  end.

(** ** Auxiliary lemmas *)

Section Fuel.
(** [approx a b]: [b] is [a], or [a] has run out of fuel. *)
Definition approx {A} (a b : parse A) : Prop := a = None \/ a = b.

Lemma approx_refl {A} (a : parse A) : approx a a.
Proof. by right. Qed.

Lemma approx_bind {A B} (a b : parse A) (f g : A -> parse B) :
  approx a b -> (forall x, approx (f x) (g x)) -> approx (pbind a f) (pbind b g).
Proof.
  intros [->| ->] Hfg; [by left|]. destruct b as [[x|e]|]; simpl; [apply Hfg | by right..].
Qed.

(** Descend through the tests that the two sides share. *)
Ltac approx_step :=
  first
    [ apply approx_refl
    | match goal with H : _ |- _ => apply H end
    | apply approx_bind; [|intros []]
    | match goal with |- approx (match ?x with _ => _ end) _ => destruct x end ].

Lemma parse_fuel_approx n n' : (n <= n')%nat ->
  (forall lines ind, approx (parseBlock n lines ind) (parseBlock n' lines ind)) /\
  (forall m lines ind, approx (parseMap n m lines ind) (parseMap n' m lines ind)) /\
  (forall out lines ind, approx (parseList n out lines ind) (parseList n' out lines ind)) /\
  (forall m lines ind, approx (parseSub n m lines ind) (parseSub n' m lines ind)).
Proof.
  revert n'. induction n as [|n IH]; intros n' Hle; [by repeat split; left|].
  destruct n' as [|n']; [lia|].
  destruct (IH n' ltac:(lia)) as (IHb & IHm & IHl & IHs).
  repeat split; intros; cbn -[parse_scalar]; repeat approx_step.
Qed.

Lemma parseBlock_mono n n' lines ind r :
  (n <= n')%nat -> parseBlock n lines ind = Some r -> parseBlock n' lines ind = Some r.
Proof.
  intros Hle Hr. destruct (parse_fuel_approx n n' Hle) as (Hb & _).
  destruct (Hb lines ind); congruence.
Qed.

(** More fuel never changes a result. *)
Lemma parse_fuel_mono n n' doc r :
  (n <= n')%nat -> ParseYAML n doc = Some r -> ParseYAML n' doc = Some r.
Proof.
  intros Hle. unfold ParseYAML. destruct (omap line_of _) as [|ln rest]; [done|].
  destruct (parseBlock n _ _) as [p|] eqn:E; [|done].
  by rewrite (parseBlock_mono n n' _ _ _ Hle E).
Qed.
End Fuel.

Section Scalars.
Lemma rev_length s : String.length (Str.rev s) = String.length s.
Proof.
  unfold Str.rev. rewrite <- (String.string_of_list_ascii_of_string s) at 2.
  generalize (String.list_ascii_of_string s) as l. intros l.
  assert (E : forall l, String.length (String.string_of_list_ascii l) = List.length l).
  { induction l0; simpl; congruence. }
  rewrite !E. apply length_rev.
Qed.

Lemma trim_left_length s : (String.length (Str.trim_left s) <= String.length s)%nat.
Proof. induction s as [|c s IH]; simpl; [lia|]. destruct (Str.is_space c); simpl; lia. Qed.

Lemma trim_space_length s : (String.length (Str.trim_space s) <= String.length s)%nat.
Proof.
  unfold Str.trim_space. rewrite rev_length.
  pose proof (trim_left_length (Str.rev (Str.trim_left s))) as H. rewrite rev_length in H.
  pose proof (trim_left_length s). lia.
Qed.

Lemma substring_length n m s : (String.length (String.substring n m s) <= m)%nat.
Proof.
  revert n m. induction s as [|c s IH]; intros [|n] [|m]; simpl; try lia.
  - specialize (IH 0%nat m). lia.
  - specialize (IH n 0%nat). lia.
  - specialize (IH n (S m)). lia.
Qed.

Lemma inner_length s : (String.length (inner s) <= String.length s - 2)%nat.
Proof. apply substring_length. Qed.

Lemma splitKV_from_length q s k v :
  splitKV_from q s = Some (k, v) -> (String.length v < String.length s)%nat.
Proof.
  revert q k v. induction s as [|c s IH]; intros q k v; simpl; [done|].
  destruct (_ && _); [intros [= <- <-]; lia|].
  destruct (splitKV_from _ s) as [[k' v']|] eqn:E; [|done]. intros [= <- <-].
  specialize (IH _ _ _ E). lia.
Qed.

Lemma splitKV_length s k v :
  splitKV s = Some (k, v) -> (String.length v < String.length s)%nat.
Proof.
  unfold splitKV. destruct (splitKV_from _ s) as [[k' v']|] eqn:E; [|done]. intros [= <- <-].
  pose proof (trim_space_length v'). apply splitKV_from_length in E. lia.
Qed.

Lemma splitFlow_from_length q d s w :
  w ∈ splitFlow_from q d s -> (String.length w <= String.length s)%nat.
Proof.
  revert q d w. induction s as [|c s IH]; intros q d w; simpl.
  - intros ->%list_elem_of_singleton. done.
  - destruct (_ && _).
    + intros [->|Hw]%elem_of_cons; simpl; [lia|]. specialize (IH _ _ _ Hw). lia.
    + match goal with |- context [splitFlow_from ?q' ?d' s] =>
        pose proof (IH q' d') as IH'; destruct (splitFlow_from q' d' s) as [|x ws] end.
      * intros ->%list_elem_of_singleton. simpl. lia.
      * intros [->|Hw]%elem_of_cons; simpl;
          [specialize (IH' x ltac:(set_solver)) | specialize (IH' w ltac:(set_solver))]; lia.
Qed.

Lemma splitFlow_length s w : w ∈ splitFlow s -> (String.length w <= String.length s)%nat.
Proof.
  unfold splitFlow. intros (x & -> & Hx)%list_elem_of_fmap.
  pose proof (trim_space_length x). apply splitFlow_from_length in Hx. lia.
Qed.

Lemma fold_parse_total {A B} (f : parse A -> B -> parse A) (l : list B) acc :
  acc <> None -> (forall a x, x ∈ l -> a <> None -> f a x <> None) -> foldl f acc l <> None.
Proof.
  revert acc. induction l as [|x l IH]; intros acc Ha Hf; simpl; [done|].
  apply IH; [apply Hf; [set_solver|done] | intros; apply Hf; [set_solver|done]].
Qed.

Lemma pbind_total {A B} (m : parse A) (f : A -> parse B) :
  m <> None -> (forall a, f a <> None) -> pbind m f <> None.
Proof. destruct m as [[a|e]|]; simpl; intros; by auto. Qed.

Lemma parseScalar_total n s : (String.length s < n)%nat -> parseScalar n s <> None.
Proof.
  revert s. induction n as [|n IH]; intros s Hn; [lia|]. simpl.
  pose proof (trim_space_length s) as Ht. set (t := Str.trim_space s) in *.
  pose proof (inner_length t) as Hi. pose proof (trim_space_length (inner t)) as Hi'.
  set (u := Str.trim_space (inner t)) in *.
  case_bool_decide; [done|].
  destruct (Str.has_prefix t "{" && _) eqn:Hb.
  - case_bool_decide; [done|]. apply pbind_total; [|done].
    apply fold_parse_total; [done|]. intros a x Hx Ha. apply splitFlow_length in Hx.
    apply pbind_total; [done|]. intros m. destruct (splitKV x) as [[k v]|] eqn:Hkv; [|done].
    apply splitKV_length in Hkv. apply pbind_total; [|done]. apply IH. lia.
  - destruct (Str.has_prefix t "[" && _) eqn:Hb'; [|done].
    case_bool_decide; [done|]. apply pbind_total; [|done].
    apply fold_parse_total; [done|]. intros a x Hx Ha. apply splitFlow_length in Hx.
    apply pbind_total; [done|]. intros m. apply pbind_total; [|done]. apply IH.
    destruct t as [|c t']; simpl in *; [done | lia].
Qed.
End Scalars.

(** ** Properties *)

(** The scalar parser is total: it terminates on every string, however
    its flow maps and lists nest. *)
Theorem yaml_scalar_total (s : string) : exists r, parse_scalar s = Some r.
Proof.
  destruct (parse_scalar s) eqn:E; [by eexists|]. by apply parseScalar_total in E; [|lia].
Qed.

(** The block parser does not terminate on every document: an item that
    begins a map and is followed by a deeper list item makes its loop call the
    map parser, which stops at the list item without consuming it, for ever.
    No number of steps yields a result. *)
Theorem yaml_parse_hangs (n : nat) :
  ParseYAML n ("- a: 1" +:+ String newline "  - b") = None.
Proof.
  assert (Hsub : forall n m, parseSub n m [mkLine 2 "- b"] 0 = None).
  { clear n. induction n as [|n IH]; intros m; [done|].
    destruct n as [|n]; [done|]. simpl. apply IH. }
  unfold ParseYAML.
  replace (omap line_of _) with [mkLine 0 "- a: 1"; mkLine 2 "- b"] by (vm_compute; reflexivity).
  destruct n as [|[|n]]; [done..|].
  change (pbind (pbind (parseSub n [("a", VInt 1)] [mkLine 2 "- b"] 0)
            (fun r => parseList n ([] ++ [VMap r.1]) r.2 0))
            (fun r => match r.2 with [] => pret r.1 | _ :: _ => perr trailingContent end) = None).
  by rewrite Hsub.
Qed.
