(* ===== verification/Migrate.v ===== *)
(** * The migration runner (packages/pgmigrate/pgmigrate.go)

    The versions of file names, the loading of a directory and the boot that
    applies what is not recorded yet.  The database is its table of recorded
    migrations together with the scripts whose transactions were committed;
    every call to it may fail, a commit may take effect and fail all the same,
    and other processes may boot at the same time. *)

From S2P Require Import Prelude StrFacts.
From S2P Require Yaml.

Record Migration := mkMigration { Version : Z; m_Name : string; Path : string }.

(** The parts around the first underscore *)
Definition ParseVersion (base : string) : option (Z * string) :=
  if negb (Str.has_suffix base ".sql") || Str.has_suffix base ".rollback.sql" then None
  else match Str.cut "_" (Str.trim_suffix base ".sql") with
       | None | Some (EmptyString, _) => None
       | Some (digits, name) =>
           match Yaml.parseInt digits with
           | Some v => if 0 <? v then Some (v, name) else None
           | None => None
           end
       end.

Record entry := mkEntry { e_Name : string; IsDir : bool }.

Inductive migrateError := dirUnreadable | duplicateVersion (v : Z) | bootFailed.

(** The migrations of the entries, in the order of the directory *)
Fixpoint collect (dir : string) (entries : list entry) (seen : list Migration) : result migrateError (list Migration) :=
  match entries with
  | [] => Ok seen
  | e :: entries =>
      if IsDir e then collect dir entries seen
      else match ParseVersion (e_Name e) with
           | None => collect dir entries seen
           | Some (v, name) =>
               if existsb (fun m => Version m =? v) seen then Err (duplicateVersion v)
               else collect dir entries (seen ++ [mkMigration v name (dir +:+ "/" +:+ e_Name e)])
           end
  end.

Definition byVersion (a b : Migration) : Prop := Version a <= Version b.
#[export] Instance byVersion_dec a b : Decision (byVersion a b).
Proof. unfold byVersion. solve_decision. Defined.

Definition Load (dir : string) (entries : option (list entry)) : result migrateError (list Migration) :=
  match entries with
  | None => Err dirUnreadable
  | Some entries => match collect dir entries [] with Ok ms => Ok (merge_sort byVersion ms) | Err e => Err e end
  end.

(** ** The database *)

(** A committed migration: the row of [schema_migrations] and the script that
    was run in the same transaction *)
Record row := mkRow { r_Version : Z; r_Name : string; r_Script : string }.
Abbreviation database := (list row).
Definition versions (d : database) : list Z := map r_Version d.

(** The only change any process makes: the primary key keeps a version from
    being recorded twice. *)
Inductive committed : database -> database -> Prop :=
| commit_row d r : r_Version r ∉ versions d -> committed d (d ++ [r]).

Inductive commitAnswer := commitOk | commitFailed | commitLost.

(** What the outside answers during the turn of one migration: the status
    query, the file, the beginning of the transaction, the script, the insert
    and the commit; and what other processes do before the query and before
    the insert *)
Record stepIO := mkStepIO {
  statusOk : bool;
  readFile : option string;
  beginOk : bool;
  execOk : bool;
  insertOk : bool;
  commitWith : commitAnswer;
  before : database -> database;
  meanwhile : database -> database;
}.

Definition recorded (v : Z) (d : database) : bool := existsb (fun r => r_Version r =? v) d.

Definition applyOne (io : stepIO) (m : Migration) (d : database) : database * bool :=
  let d := before io d in
  if negb (statusOk io) then (d, false)
  else if recorded (Version m) d then (d, true)
  else match readFile io with
       | None => (d, false)
       | Some sql =>
           if negb (beginOk io) then (d, false)
           else
             let d := meanwhile io d in
             if negb (execOk io) then (d, false)
             else if negb (insertOk io) || recorded (Version m) d then (d, false)
             else match commitWith io with
                  | commitOk => (d ++ [mkRow (Version m) (m_Name m) sql], true)
                  | commitFailed => (d, false)
                  | commitLost => (d ++ [mkRow (Version m) (m_Name m) sql], false)
                  end
       end.

Fixpoint applyAll (io : nat -> stepIO) (ms : list Migration) (d : database) : database * bool :=
  match ms with
  | [] => (d, true)
  | m :: ms => match applyOne (io 0%nat) m d with
               | (d, true) => applyAll (fun i => io (S i)) ms d
               | (d, false) => (d, false)
               end
  end.

Definition Apply (dir : string) (entries : option (list entry)) (ddlOk : bool) (io : nat -> stepIO) (d : database)
  : database * result migrateError unit :=
  match Load dir entries with
  | Err e => (d, Err e)
  | Ok ms => if negb ddlOk then (d, Err bootFailed)
             else match applyAll io ms d with (d, true) => (d, Ok tt) | (d, false) => (d, Err bootFailed) end
  end.

(** ** Every migration is committed once *)

Abbreviation history := (rtc committed).

Lemma recorded_versions v d : recorded v d = true <-> v ∈ versions d.
Proof.
  unfold recorded, versions. rewrite existsb_exists, list_elem_of_In, in_map_iff. split; intros (r & H1 & H2); exists r.
  - split; [by apply Z.eqb_eq|done].
  - split; [done|by apply Z.eqb_eq].
Qed.

Lemma committed_unique d d' : committed d d' -> NoDup (versions d) -> NoDup (versions d').
Proof.
  intros [d0 r Hn] Hd. unfold versions. rewrite map_app. apply NoDup_app. split; [done|]. split; [|apply NoDup_singleton].
  intros v Hv Hv'%list_elem_of_singleton. by subst.
Qed.

Lemma history_facts d d' : history d d' -> (exists l, d' = d ++ l) /\ (NoDup (versions d) -> NoDup (versions d')).
Proof.
  induction 1 as [d|d d1 d2 H1 _ [(l & ->) IH]]; [split; [exists []; by rewrite app_nil_r|done]|]. split.
  - destruct H1 as [d r _]. exists ([r] ++ l). by rewrite app_assoc.
  - intros Hd. eauto using committed_unique.
Qed.

Section Boots.
(** Whatever other processes do, they do it through the same commits. *)
Definition fair (io : stepIO) : Prop := forall d, history d (before io d) /\ history d (meanwhile io d).

Lemma applyOne_history io m d : fair io -> history d (applyOne io m d).1.
Proof.
  intros Hf. unfold applyOne. destruct (Hf d) as [H1 _]. set (d1 := before io d) in *. destruct (Hf d1) as [_ H2]. set (d2 := meanwhile io d1) in *.
  destruct (statusOk io); [|done]. cbn [negb]. destruct (recorded (Version m) d1); [done|]. destruct (readFile io) as [sql|]; [|done].
  destruct (beginOk io); [|done]. cbn [negb]. destruct (execOk io); [|by etrans]. cbn [negb].
  destruct (insertOk io); [|by etrans]. destruct (recorded (Version m) d2) eqn:E; [by etrans|].
  assert (Hc : committed d2 (d2 ++ [mkRow (Version m) (m_Name m) sql])).
  { constructor. cbn. rewrite <- recorded_versions. by rewrite E. }
  cbn [negb orb]. destruct (commitWith io); cbn [fst]; [|by etrans|]; (etrans; [by etrans|]); by apply rtc_once.
Qed.

Lemma applyAll_history ms : forall io d, (forall i, fair (io i)) -> history d (applyAll io ms d).1.
Proof.
  induction ms as [|m ms IH]; intros io d Hf; cbn [applyAll]; [done|]. pose proof (applyOne_history (io 0%nat) m d (Hf 0%nat)) as H.
  destruct (applyOne (io 0%nat) m d) as [d' []]; [|done]. etrans; [exact H|]. apply IH. intros i. apply Hf.
Qed.

(** Boots, one after the other, each with its directory and its answers *)
Record boot := mkBoot { b_Dir : string; b_Entries : option (list entry); b_DDL : bool; b_IO : nat -> stepIO }.
Definition runBoot (d : database) (b : boot) : database := (Apply (b_Dir b) (b_Entries b) (b_DDL b) (b_IO b) d).1.

(** C31: Over any boots - whatever fails, wherever a process stops, and with other
    processes booting at the same time - every version is committed at most
    once, its script in the transaction that records it, and what is committed
    stays: boots only append. *)
Theorem migrate_exactly_once bs d : Forall (fun b => forall i, fair (b_IO b i)) bs -> NoDup (versions d) ->
  NoDup (versions (foldl runBoot d bs)) /\ exists l, foldl runBoot d bs = d ++ l.
Proof.
  intros Hf Hd. assert (H : history d (foldl runBoot d bs)).
  { clear Hd. revert d. induction Hf as [|b bs Hb _ IH]; intros d; [done|]. cbn [foldl]. etrans; [|apply IH]. unfold runBoot, Apply.
    destruct (Load _ _) as [ms|]; [|done]. destruct (b_DDL b); [|done]. cbn [negb].
    pose proof (applyAll_history ms (b_IO b) d Hb) as H. by destruct (applyAll _ _ _) as [? []]. }
  destruct (history_facts _ _ H) as [Hl Hn]. split; [by apply Hn|done].
Qed.
End Boots.

(** ** What a boot applies *)

Lemma collect_versions dir entries : forall seen ms, NoDup (map Version seen) -> collect dir entries seen = Ok ms -> NoDup (map Version ms).
Proof.
  induction entries as [|e entries IH]; intros seen ms Hn; cbn [collect]; [by intros [= <-]|].
  destruct (IsDir e); [by apply IH|]. destruct (ParseVersion (e_Name e)) as [[v name]|]; [|by apply IH].
  destruct (existsb _ seen) eqn:E; [done|]. apply IH. rewrite map_app. apply NoDup_app. split; [done|]. split; [|apply NoDup_singleton].
  intros w Hw ->%list_elem_of_singleton. apply list_elem_of_In, in_map_iff in Hw as (m & Hm & Hin). cbn in Hm.
  assert (H : existsb (fun m => Version m =? v) seen = true) by (apply existsb_exists; exists m; split; [done|by apply Z.eqb_eq]). congruence.
Qed.

#[export] Instance byVersion_total : Total byVersion.
Proof. intros a b. unfold byVersion. lia. Qed.
#[export] Instance byVersion_trans : Transitive byVersion.
Proof. intros a b c. unfold byVersion. lia. Qed.

Lemma strictly_sorted ms : StronglySorted byVersion ms -> NoDup (map Version ms) -> StronglySorted Z.lt (map Version ms).
Proof.
  induction 1 as [|m ms _ IH Hm]; [constructor|]. cbn [map]. intros [Hn Hd]%NoDup_cons. constructor; [by apply IH|].
  apply Forall_forall. intros v Hv. pose proof Hv as Hin. apply list_elem_of_In, in_map_iff in Hv as (x & <- & Hx).
  rewrite Forall_forall in Hm. specialize (Hm x (proj2 (list_elem_of_In _ _) Hx)). unfold byVersion in Hm.
  destruct (decide (Version m = Version x)) as [E|]; [|lia]. by rewrite E in Hn.
Qed.

Lemma Load_sorted dir entries ms : Load dir entries = Ok ms -> StronglySorted Z.lt (map Version ms) /\ NoDup (map Version ms).
Proof.
  unfold Load. destruct entries as [entries|]; [|done]. destruct (collect dir entries []) as [ms0|] eqn:E; [|done]. intros [= <-].
  assert (Hn : NoDup (map Version (merge_sort byVersion ms0))).
  { assert (P : map Version (merge_sort byVersion ms0) ≡ₚ map Version ms0) by apply Permutation_map, merge_sort_Permutation.
    rewrite P. eapply collect_versions; [|exact E]. constructor. }
  split; [|done]. apply strictly_sorted; [|done]. apply (StronglySorted_merge_sort byVersion).
Qed.

Lemma filter_ext_elem {A} (P Q : A -> Prop) `{!forall x, Decision (P x)} `{!forall x, Decision (Q x)} (l : list A) :
  (forall x, x ∈ l -> P x <-> Q x) -> filter P l = filter Q l.
Proof.
  induction l as [|x l IH]; intros Hl; [done|]. rewrite !filter_cons, IH by (intros y Hy; apply Hl; by apply list_elem_of_further).
  pose proof (Hl x (list_elem_of_here _ _)). destruct (decide (P x)), (decide (Q x)); tauto.
Qed.

(** Answers without failures and without other processes *)
Definition quiet (io : stepIO) : Prop :=
  statusOk io = true /\ beginOk io = true /\ execOk io = true /\ insertOk io = true /\ commitWith io = commitOk /\
  forall d, before io d = d /\ meanwhile io d = d.

Definition rowOf (script : string -> string) (m : Migration) : row := mkRow (Version m) (m_Name m) (script (Path m)).

Lemma applyOne_quiet io m d sql : quiet io -> readFile io = Some sql ->
  applyOne io m d = (if recorded (Version m) d then d else d ++ [mkRow (Version m) (m_Name m) sql], true).
Proof.
  intros (H1 & H2 & H3 & H4 & H5 & Hd) Hr. unfold applyOne. rewrite (proj1 (Hd d)), H1, Hr, H2, (proj2 (Hd d)), H3, H4, H5. cbn [negb orb].
  by destruct (recorded (Version m) d).
Qed.

Lemma applyAll_quiet script ms : forall io d, NoDup (map Version ms) ->
  (forall i m, ms !! i = Some m -> quiet (io i) /\ readFile (io i) = Some (script (Path m))) ->
  applyAll io ms d = (d ++ map (rowOf script) (filter (fun m => Version m ∉ versions d) ms), true).
Proof.
  induction ms as [|m ms IH]; intros io d Hn Hio; cbn [applyAll]; [by rewrite app_nil_r|]. cbn [map] in Hn. apply NoDup_cons in Hn as [Hm Hn].
  destruct (Hio 0%nat m eq_refl) as [Hq Hr]. rewrite (applyOne_quiet _ _ _ _ Hq Hr), filter_cons.
  assert (Hio' : forall i m', ms !! i = Some m' -> quiet (io (S i)) /\ readFile (io (S i)) = Some (script (Path m'))) by (intros i m'; apply (Hio (S i))).
  rewrite IH by done. destruct (recorded (Version m) d) eqn:E.
  - apply recorded_versions in E. by rewrite decide_False by naive_solver.
  - rewrite decide_True by (rewrite <- recorded_versions, E; done). cbn [map]. rewrite <- app_assoc. f_equal. f_equal. cbn [app]. f_equal. f_equal.
    apply filter_ext_elem. intros x Hx. unfold versions. rewrite map_app, elem_of_app. cbn. rewrite list_elem_of_singleton.
    split; [naive_solver|]. intros H [?|Hv]; [done|]. apply Hm. rewrite <- Hv. apply list_elem_of_In, in_map, list_elem_of_In. exact Hx.
Qed.

(** A boot in which nothing fails, with no other process at work, commits
    exactly the migrations of its directory that are not recorded, each with
    the content of its file, in strictly ascending order of their versions -
    also those below a version that is recorded already -, and a second such
    boot changes nothing. *)
Theorem migrate_boot_exact dir entries io d ms script :
  Load dir entries = Ok ms ->
  (forall i m, ms !! i = Some m -> quiet (io i) /\ readFile (io i) = Some (script (Path m))) ->
  let d' := d ++ map (rowOf script) (filter (fun m => Version m ∉ versions d) ms) in
  Apply dir entries true io d = (d', Ok tt) /\ Apply dir entries true io d' = (d', Ok tt) /\
  StronglySorted Z.lt (map Version ms) /\ (forall m, m ∈ ms -> Version m ∈ versions d').
Proof.
  intros Hl Hio d'. destruct (Load_sorted _ _ _ Hl) as [Hs Hn]. unfold Apply. rewrite Hl. cbn [negb].
  assert (Hall : forall m, m ∈ ms -> Version m ∈ versions d').
  { intros m Hm. unfold d', versions. rewrite map_app, elem_of_app. destruct (decide (Version m ∈ map r_Version d)) as [|Hd]; [by left|right].
    apply list_elem_of_In. rewrite map_map. apply in_map_iff. exists m. split; [done|]. apply list_elem_of_In, list_elem_of_filter. done. }
  rewrite !(applyAll_quiet script) by done. fold d'. split; [done|]. split; [|done].
  assert (E : filter (fun m => Version m ∉ versions d') ms = []); [|rewrite E; cbn [map]; by rewrite app_nil_r].
  destruct (filter (fun m => Version m ∉ versions d') ms) as [|x xs] eqn:F; [done|]. exfalso.
  assert (Hx : x ∈ filter (fun m => Version m ∉ versions d') ms) by (rewrite F; apply list_elem_of_here).
  apply list_elem_of_filter in Hx as [Hx1 Hx2]. by apply Hx1, Hall.
Qed.

(** ** At concrete directories *)

Definition okIO (sql : string) : stepIO := mkStepIO true (Some sql) true true true commitOk id id.
Definition demo_entries : list entry :=
  [mkEntry "0003_keys.sql" false; mkEntry "0001_init.rollback.sql" false; mkEntry "0001_init.sql" false; mkEntry "README.md" false; mkEntry "+2_x.sql" false].
Definition demo_io (i : nat) : stepIO := okIO (nth i ["a"; "b"; "c"] "").
Definition demo_script (path : string) : string :=
  if bool_decide (path = "m/0001_init.sql") then "a" else if bool_decide (path = "m/+2_x.sql") then "b" else "c".

(** A migration that appears below the recorded versions is applied after
    them. *)
Example late_migration :
  (Apply "m" (Some demo_entries) true demo_io [mkRow 3 "keys" "c"]).1 =
    [mkRow 3 "keys" "c"; mkRow 1 "init" "a"; mkRow 2 "x" "b"] /\
  Load "m" (Some (demo_entries ++ [mkEntry "02_y.sql" false])) = Err (duplicateVersion 2).
Proof. vm_compute. done. Qed.

Lemma migrate_boot_exact_witness :
  let d' := [mkRow 3 "keys" "c"; mkRow 1 "init" "a"; mkRow 2 "x" "b"] in
  Apply "m" (Some demo_entries) true demo_io [mkRow 3 "keys" "c"] = (d', Ok tt) /\ Apply "m" (Some demo_entries) true demo_io d' = (d', Ok tt).
Proof.
  destruct (migrate_boot_exact "m" (Some demo_entries) demo_io [mkRow 3 "keys" "c"]
    [mkMigration 1 "init" "m/0001_init.sql"; mkMigration 2 "x" "m/+2_x.sql"; mkMigration 3 "keys" "m/0003_keys.sql"] demo_script) as (H1 & H2 & _).
  - vm_compute. reflexivity.
  - intros i m Hi. assert (Hq : quiet (demo_io i)) by (unfold quiet, demo_io, okIO; cbn; repeat split). split; [exact Hq|].
    destruct i as [|[|[|i]]]; cbn in Hi; [injection Hi as <-; vm_compute; reflexivity..|discriminate].
  - exact (conj H1 H2).
Defined.

(** Two boots at the same time: the other one commits version 1 between the
    query and the insert, and this boot fails. *)
Definition racing_io (i : nat) : stepIO := mkStepIO true (Some "a") true true true commitOk id (fun d => if recorded 1 d then d else d ++ [mkRow 1 "init" "a"]).

Lemma migrate_exactly_once_witness :
  NoDup (versions (foldl runBoot [] [mkBoot "m" (Some demo_entries) true racing_io; mkBoot "m" (Some demo_entries) true demo_io])).
Proof.
  apply (migrate_exactly_once [mkBoot "m" (Some demo_entries) true racing_io; mkBoot "m" (Some demo_entries) true demo_io] []); [|constructor].
  constructor; [|constructor; [|constructor]]; intros i d; cbn; split; try apply rtc_refl.
  destruct (recorded 1 d) eqn:E; [apply rtc_refl|]. apply rtc_once. constructor. cbn. rewrite <- recorded_versions, E. discriminate.
Defined.
