(* ===== verification/GoFmt.v ===== *)
(** * [strconv] and [fmt] on the values of documents

    The texts Go gives to floats, booleans and decoded values: the shortest
    decimal that reads back as a float, with and without an exponent, and
    [fmt.Sprint] on [any]. *)

From S2P Require Import Prelude GoAny Yaml.

(** ** [strconv.FormatFloat(f, 'f', -1, 64)]: the shortest decimal that reads
    back as [f], without an exponent *)

Fixpoint num_digits (fuel : nat) (z : Z) : Z :=
  match fuel with
  | O => 0
  | S fuel => if z <=? 0 then 0 else 1 + num_digits fuel (z / 10)
  end.

(** [k] with [10^(k-1) <= num/den < 10^k], for a positive fraction in the
    range of binary64 *)
Definition decimal_magnitude (num den : Z) : Z :=
  if den <=? num then num_digits 400 (num / den)
  else
    let k := 1 - num_digits 400 ((den - 1) / num) in
    if 10 ^ (1 - k) * num <? den then k - 1 else k.

(** The nearest decimal with [n] digits that reads back as [f], if one does *)
Definition shortest_with (f : spec_float) (num den k : Z) (n : nat) : option (Z * Z) :=
  let t := k - Z.of_nat n in
  let '(a, b) := if 0 <=? t then (num, den * 10 ^ t) else (num * 10 ^ (- t), den) in
  let d := a / b in
  let lo := SFeqb (decimal_float false d t) f in
  let hi := SFeqb (decimal_float false (d + 1) t) f in
  let nearer_lo := if 2 * (a mod b) =? b then Z.even d else 2 * (a mod b) <? b in
  if lo && (nearer_lo || negb hi) then Some (d, t) else if hi then (if d + 1 =? 10 ^ Z.of_nat n then Some (1, k) else Some (d + 1, t))
  else None.

Definition zeros (n : Z) : string := Str.join "" (replicate (Z.to_nat n) "0").

Definition plain_decimal (d t : Z) : string :=
  let ds := pretty d in
  if 0 <=? t then ds +:+ zeros t
  else
    let point := Str.len ds + t in
    if 0 <? point then Str.take (Z.to_nat point) ds +:+ "." +:+ Str.drop (Z.to_nat point) ds
    else "0." +:+ zeros (- point) +:+ ds.

Definition FormatFloat (f : spec_float) : string :=
  match f with
  | S754_zero s => if s then "-0" else "0"
  | S754_infinity s => if s then "-Inf" else "+Inf"
  | S754_nan => "NaN"
  | S754_finite s m e =>
      let '(num, den) := if 0 <=? e then (Z.pos m * 2 ^ e, 1) else (Z.pos m, 2 ^ (- e)) in
      let k := decimal_magnitude num den in
      match omap (shortest_with (S754_finite false m e) num den k) (seq 1 17) with
      | (d, t) :: _ => (if s then "-" else "") +:+ plain_decimal d t
      | [] => ""
      end
  end.

Definition FormatBool (b : bool) : string := if b then "true" else "false".

(** ** [fmt.Sprint] *)

(** [%v] of a float: with an exponent when it is below -4 or above 5 *)
Definition exponent_text (e : Z) : string :=
  (if e <? 0 then "-" else "+") +:+ (if Z.abs e <? 10 then "0" else "") +:+ pretty (Z.abs e).

Definition sprint_float (f : spec_float) : string :=
  match f with
  | S754_finite s m e =>
      let '(num, den) := if 0 <=? e then (Z.pos m * 2 ^ e, 1) else (Z.pos m, 2 ^ (- e)) in
      let k := decimal_magnitude num den in
      match omap (shortest_with (S754_finite false m e) num den k) (seq 1 17) with
      | (d, t) :: _ =>
          let ds := pretty d in
          let x := Str.len ds + t - 1 in
          (if s then "-" else "") +:+
          (if (x <? -4) || (6 <=? x)
           then Str.take 1 ds +:+ (if Str.len ds =? 1 then "" else "." +:+ Str.drop 1 ds) +:+ "e" +:+ exponent_text x
           else plain_decimal d t)
      | [] => ""
      end
  | f => FormatFloat f
  end.

Definition pair_le (a b : string * string) : Prop := String.le a.1 b.1.
#[export] Instance pair_le_dec a b : Decision (pair_le a b).
Proof. unfold pair_le. apply _. Defined.

Fixpoint Sprint (v : any) : string :=
  match v with
  | VNil => "<nil>"
  | VBool b => FormatBool b
  | VInt z => pretty z
  | VFloat f => sprint_float f
  | VStr s => s
  | VList l => "[" +:+ Str.join " " ((fix go l := match l with [] => [] | x :: l => Sprint x :: go l end) l) +:+ "]"
  | VMap m =>
      "map[" +:+ Str.join " "
        (map (fun kv => kv.1 +:+ ":" +:+ kv.2)
           (merge_sort pair_le ((fix go m := match m with [] => [] | (k, x) :: m => (k, Sprint x) :: go m end) m))) +:+ "]"
  end.

Example sprint_examples :
  Sprint (VList [VInt 3; VStr "a"; VNil]) = "[3 a <nil>]" /\
  Sprint (VFloat (float_of_int 13)) = "13" /\ Sprint (VFloat (float_of_int 1234567)) = "1.234567e+06" /\
  Sprint (VMap [("b", VInt 1); ("a", VBool true)]) = "map[a:true b:1]".
Proof. repeat split; vm_compute; reflexivity. Qed.
