(* ===== verification/PosPacks.v ===== *)
(** * pos-vat: rule packs (services/pos-vat/packs.go, from the pack model on)

    The pack model, the evaluation of [when]-clauses and the questions the
    receipt pipeline asks of the packs: basket, rate, attribution shares,
    platform collector.  The packs loaded are a map from pack id. *)

From S2P Require Import Prelude GoAny.

Record Rule := mkRule {
  r_ID : string;
  When : list (string * any);
  Then : list (string * any);
}.

Record RulePack := mkRulePack {
  p_ID : string;
  Version : string;
  EffectiveFrom : string;
  EffectiveTo : string;
  p_Status : string;
  SubjectToRegazette : bool;
  Provenance : list (string * any);
  Signed : list (string * any);
  Rules : list Rule;
}.

Definition strOf (v : any) : string := as_str v.

(** A non-string is the empty string for [strOf], so two values neither of
    which is a string are always equal. *)
Definition scalarEq (a b : any) : bool :=
  match a, b with
  | VInt x, VInt y => x =? y
  | VInt x, VFloat y => SFeqb (float_of_int x) y
  | VFloat x, VInt y => SFeqb x (float_of_int y)
  | VFloat x, VFloat y => SFeqb x y
  | _, _ => bool_decide (strOf a = strOf b) || iface_eq a b
  end.

Definition as_float (v : any) : option spec_float :=
  match v with
  | VInt z => Some (float_of_int z)
  | VFloat f => Some f
  | _ => None
  end.

Definition numCmp (a b : any) (op : string) : bool :=
  match as_float a, as_float b with
  | Some af, Some bf =>
      if bool_decide (op = "gt") then SFltb bf af
      else if bool_decide (op = "gte") then SFleb bf af
      else if bool_decide (op = "lt") then SFltb af bf
      else if bool_decide (op = "lte") then SFleb af bf
      else false
  | _, _ => false
  end.

Definition listMatch (v : any) (cat : string) : bool :=
  match v with
  | VList l => existsb (fun e => bool_decide (Str.to_lower (strOf e) = cat)) l
  | VStr s =>
      existsb (fun e => bool_decide (Str.to_lower (Str.trim_space e) = cat)) (Str.split ","%char s)
  | _ => false
  end.

(** The operator suffixes of a [when] key, in the order they are tried *)
Definition suffixes : list string := ["__gt"; "__gte"; "__lt"; "__lte"; "__ne"; "__in"; "__prefix"].

Definition split_op (k : string) : string * string :=
  match List.find (fun suf => Str.has_suffix k suf) suffixes with
  | Some suf => (Str.trim_suffix k suf, Str.trim_prefix suf "__")
  | None => (k, "eq")
  end.

Definition clauseMatches (ctx : list (string * any)) (kv : string * any) : bool :=
  let '(k, want) := kv in
  let '(base, op) := split_op k in
  let got := find base ctx in
  if bool_decide (op = "eq") then scalarEq got want
  else if bool_decide (op = "ne") then negb (scalarEq got want)
  else if bool_decide (op ∈ ["gt"; "gte"; "lt"; "lte"]) then numCmp got want op
  else if bool_decide (op = "in") then listMatch want (strOf got)
  else if bool_decide (op = "prefix") then Str.has_prefix (strOf got) (strOf want)
  else true.

(** The clauses are tried in the unspecified order of a Go map; each one only
    reads [ctx], so the order does not matter. *)
Definition whenMatches (when ctx : list (string * any)) : bool :=
  forallb (clauseMatches ctx) when.

Definition evaluateMatches (p : RulePack) (ctx : list (string * any)) : list (list (string * any)) :=
  map Then (List.filter (fun r => whenMatches (When r) ctx) (Rules p)).

(** The pack out of a parsed document *)
Inductive packError := parseError | rootNotMap | missingVersion.

Definition ruleOf (rv : any) : option Rule :=
  match rv with
  | VMap rm => Some (mkRule (strOf (find "id" rm)) (default [] (as_map (find "when" rm)))
                       (default [] (as_map (find "then" rm))))
  | _ => None
  end.

Definition packFromDoc (id : string) (doc : any) : result packError RulePack :=
  match doc with
  | VMap m =>
      let p := mkRulePack id (strOf (find "version" m)) (strOf (find "effective_from" m))
                 (strOf (find "effective_to" m)) (strOf (find "status" m))
                 (as_bool (find "subject_to_regazette" m))
                 (default [] (as_map (find "provenance" m))) (default [] (as_map (find "signed" m)))
                 (omap ruleOf (default [] (as_list (find "rules" m)))) in
      if bool_decide (Version p = "") then Err missingVersion else Ok p
  | _ => Err rootNotMap
  end.

Abbreviation PackSet := (gmap string RulePack).

Definition packOrder : list string :=
  ["rp-vat-rates"; "rp-vat-exempt-basket"; "rp-vat-zerorated-basket";
   "rp-vat-attribution-mode"; "rp-platform-collectors"].

Definition Get (id : string) (ps : PackSet) : option RulePack := ps !! id.

(** The registry's answer and the embedded copy of each pack; a pack is
    loaded from the first that yields one, else left unloaded. *)
Definition LoadPacks (fetchFromRegistry embedded : string -> option RulePack) (ps : PackSet) : PackSet :=
  foldl (fun ps id =>
    match fetchFromRegistry id with
    | Some p => <[id := p]> ps
    | None => match embedded id with Some p => <[id := p]> ps | None => ps end
    end) ps packOrder.

Definition VersionString (ps : PackSet) : string :=
  Str.join "," (omap (fun id => p ← Get id ps; Some (id +:+ "@" +:+ Version p)) packOrder).
Definition VersionTag (ps : PackSet) : string := VersionString ps.

Definition rulesOf (id : string) (ps : PackSet) : list Rule :=
  match Get id ps with Some p => Rules p | None => [] end.

Definition BasketForSKU (ps : PackSet) (category : string) : string :=
  let cat := Str.to_lower category in
  match List.find (fun r => listMatch (find "categories" (Then r)) cat) (rulesOf "rp-vat-nigeria" ps) with
  | Some r => strOf (find "basket" (Then r))
  | None =>
      if bool_decide (cat ∈ ["food"; "staples"; "unprocessed food"]) then "food_staples"
      else if bool_decide (cat ∈ ["medicine"; "pharma"; "medical"]) then "medicines"
      else if bool_decide (cat ∈ ["book"; "books"; "education"]) then "education"
      else if bool_decide (cat = "export") then "exports"
      else "general"
  end.

(** The first rule of the basket that carries an integer rate *)
Definition VatRateBps (ps : PackSet) (basket : string) : Z :=
  match omap (fun r => if bool_decide (strOf (find "basket" (Then r)) = basket)
                       then as_int (find "rate_bps" (Then r)) else None)
          (rulesOf "rp-vat-nigeria" ps) with
  | rate :: _ => rate
  | [] =>
      if bool_decide (basket ∈ ["food_staples"; "medicines"; "education"; "exports"]) then 0 else 750
  end.

Definition tinPrefix (tin : string) : string :=
  if 4 <=? Str.len tin then Str.take 4 tin else tin.

Definition IsPlatformCollector (ps : PackSet) (tin : string) : bool :=
  existsb (fun r => listMatch (find "tin_prefixes" (Then r)) (Str.to_lower (tinPrefix tin)))
    (rulesOf "rp-platform-collectors" ps).

Definition BasketFor (ps : PackSet) (category : string) : string :=
  let cat := Str.to_lower (Str.trim_space category) in
  if bool_decide (cat = "") then "standard_75"
  else if existsb (fun r => listMatch (find "categories" (Then r)) cat) (rulesOf "rp-vat-exempt-basket" ps)
  then "exempt"
  else if existsb (fun r => listMatch (find "categories" (Then r)) cat) (rulesOf "rp-vat-zerorated-basket" ps)
  then "zero_rated"
  else "standard_75".

Definition StandardRateBPS (ps : PackSet) : Z :=
  match omap (fun r => if bool_decide (r_ID r = "vat.rate.standard")
                       then as_int (find "rate_bps" (Then r)) else None)
          (rulesOf "rp-vat-rates" ps) with
  | bps :: _ => bps
  | [] => 750
  end.

Record AttributionConfig := mkAttributionConfig {
  Mode : string;
  FederalShareBPS : Z;
  StateShareBPS : Z;
  LGAShareBPS : Z;
}.

Definition applyAttributionRule (cfg : AttributionConfig) (r : Rule) : AttributionConfig :=
  let cfg :=
    if bool_decide (r_ID r = "vat.attribution.mode") then
      let m := strOf (find "mode" (Then r)) in
      mkAttributionConfig (if bool_decide (m = "") then Mode cfg else m)
        (FederalShareBPS cfg) (StateShareBPS cfg) (LGAShareBPS cfg)
    else cfg in
  if bool_decide (r_ID r = "vat.attribution.shares") then
    mkAttributionConfig (Mode cfg)
      (default (FederalShareBPS cfg) (as_int (find "federal_share_bps" (Then r))))
      (default (StateShareBPS cfg) (as_int (find "state_share_bps" (Then r))))
      (default (LGAShareBPS cfg) (as_int (find "lga_share_bps" (Then r))))
  else cfg.

Definition attributionConfig (ps : PackSet) (fallback : string) : AttributionConfig :=
  foldl applyAttributionRule (mkAttributionConfig fallback 1000 5500 3500)
    (rulesOf "rp-vat-attribution-mode" ps).
