(* ===== verification/PosPackData.v ===== *)
(** * pos-vat: the embedded rule packs (services/pos-vat/embedded_packs.go)
    and the loading of packs (services/pos-vat/packs.go)

    The pack documents are the literals of the source; the theorems evaluate
    the parser on them and say what the service then answers. *)

From S2P Require Import Prelude GoAny Yaml PosPacks.

Definition pack_rp_vat_rates : string := doc_of [
  "id: rp-vat-rates";
  "version: 1.0.0";
  "effective_from: 2025-01-01";
  "effective_to: null";
  "status: published";
  "subject_to_regazette: true";
  "provenance:";
  "  as_passed: " +:+ dq +:+ "Nigeria Tax Act 2025: VAT retained at 7.5% (s.146)" +:+ dq +:+ "";
  "  as_gazetted: null";
  "  source_citation: " +:+ dq +:+ "Nigeria Tax Act 2025 (VAT provisions); Finance Act 2019 s.33" +:+ dq +:+ "";
  "rules:";
  "  - id: vat.rate.standard";
  "    when: { basket: standard_75 }";
  "    then: { rate_bps: 750, narrate: " +:+ dq +:+ "VAT 7.5% standard-rated supplies" +:+ dq +:+ " }";
  "  - id: vat.rate.zero";
  "    when: { basket: zero_rated }";
  "    then: { rate_bps: 0, narrate: " +:+ dq +:+ "VAT 0% zero-rated supplies (input VAT recoverable)" +:+ dq +:+ " }";
  "  - id: vat.rate.exempt";
  "    when: { basket: exempt }";
  "    then: { rate_bps: 0, narrate: " +:+ dq +:+ "Exempt supplies (no input VAT recovery)" +:+ dq +:+ " }";
  ""].

Definition pack_rp_vat_exempt_basket : string := doc_of [
  "id: rp-vat-exempt-basket";
  "version: 1.0.0";
  "effective_from: 2025-01-01";
  "effective_to: null";
  "status: published";
  "subject_to_regazette: true";
  "provenance:";
  "  as_passed: " +:+ dq +:+ "Nigeria Tax Act 2025, First Schedule (exempt goods and services)" +:+ dq +:+ "";
  "  as_gazetted: null";
  "  source_citation: " +:+ dq +:+ "Nigeria Tax Act 2025 First Schedule" +:+ dq +:+ "";
  "rules:";
  "  - id: vat.exempt.financial";
  "    when: {}";
  "    then: { categories: [financial_services, insurance_premium, interest], narrate: " +:+ dq +:+ "Financial services exempt" +:+ dq +:+ " }";
  "  - id: vat.exempt.land";
  "    when: {}";
  "    then: { categories: [land_sale, residential_rent, real_property], narrate: " +:+ dq +:+ "Land and residential rent exempt" +:+ dq +:+ " }";
  "  - id: vat.exempt.public";
  "    when: {}";
  "    then: { categories: [postage, government_service, embassy_supply], narrate: " +:+ dq +:+ "Public/government supplies exempt" +:+ dq +:+ " }";
  "  - id: vat.exempt.transport";
  "    when: {}";
  "    then: { categories: [public_transport, shared_transport], narrate: " +:+ dq +:+ "Shared passenger transport exempt" +:+ dq +:+ " }";
  ""].

Definition pack_rp_vat_zerorated_basket : string := doc_of [
  "id: rp-vat-zerorated-basket";
  "version: 1.0.0";
  "effective_from: 2025-01-01";
  "effective_to: null";
  "status: published";
  "subject_to_regazette: true";
  "provenance:";
  "  as_passed: " +:+ dq +:+ "Nigeria Tax Act 2025, Second Schedule (zero-rated: food, health, education)" +:+ dq +:+ "";
  "  as_gazetted: null";
  "  source_citation: " +:+ dq +:+ "Nigeria Tax Act 2025 Second Schedule" +:+ dq +:+ "";
  "rules:";
  "  - id: vat.zero.food";
  "    when: {}";
  "    then: { categories: [basic_food, groceries, bread, water_sachet, agriculture_input], narrate: " +:+ dq +:+ "Basic food items zero-rated" +:+ dq +:+ " }";
  "  - id: vat.zero.health";
  "    when: {}";
  "    then: { categories: [medical, pharmacy, healthcare, hospital_service], narrate: " +:+ dq +:+ "Healthcare zero-rated" +:+ dq +:+ " }";
  "  - id: vat.zero.education";
  "    when: {}";
  "    then: { categories: [education, books, tuition, school_materials], narrate: " +:+ dq +:+ "Education zero-rated" +:+ dq +:+ " }";
  "  - id: vat.zero.energy";
  "    when: {}";
  "    then: { categories: [cooking_gas, kerosene_household, renewable_equipment], narrate: " +:+ dq +:+ "Household energy zero-rated" +:+ dq +:+ " }";
  "  - id: vat.zero.exports";
  "    when: {}";
  "    then: { categories: [export_goods, export_services], narrate: " +:+ dq +:+ "Exports zero-rated" +:+ dq +:+ " }";
  ""].

Definition pack_rp_vat_attribution_mode : string := doc_of [
  "id: rp-vat-attribution-mode";
  "version: 1.0.0";
  "effective_from: 2025-01-01";
  "effective_to: null";
  "status: published";
  "subject_to_regazette: true";
  "provenance:";
  "  as_passed: " +:+ dq +:+ "NTAA 2025 s.77: VAT sharing FG 10% / States 55% / LGAs 35%; 30% place-of-consumption derivation" +:+ dq +:+ "";
  "  as_gazetted: null";
  "  source_citation: " +:+ dq +:+ "Nigeria Tax Administration Act 2025 (VAT attribution)" +:+ dq +:+ "";
  "rules:";
  "  - id: vat.attribution.mode";
  "    when: {}";
  "    then: { mode: state, narrate: " +:+ dq +:+ "state = place-of-consumption; federal = pool; dual_shadow = compute both" +:+ dq +:+ " }";
  "  - id: vat.attribution.shares";
  "    when: {}";
  "    then: { federal_share_bps: 1000, state_share_bps: 5500, lga_share_bps: 3500, narrate: " +:+ dq +:+ "NTAA 2025 vertical sharing formula" +:+ dq +:+ " }";
  "  - id: vat.attribution.derivation";
  "    when: {}";
  "    then: { consumption_weight_bps: 3000, narrate: " +:+ dq +:+ "30% of state share by place of consumption" +:+ dq +:+ " }";
  ""].

Definition pack_rp_platform_collectors : string := doc_of [
  "id: rp-platform-collectors";
  "version: 1.0.0";
  "effective_from: 2025-01-01";
  "effective_to: null";
  "status: published";
  "subject_to_regazette: true";
  "provenance:";
  "  as_passed: " +:+ dq +:+ "Designated digital platform VAT collection regime (Market Zone collectors)" +:+ dq +:+ "";
  "  as_gazetted: null";
  "  source_citation: " +:+ dq +:+ "NRS designation notice: platform VAT collectors 2025" +:+ dq +:+ "";
  "rules:";
  "  - id: vat.platform.collectors";
  "    when: {}";
  "    then: { tin_prefixes: [PLTC, MRKT, ECOM], narrate: " +:+ dq +:+ "Designated platform collector TIN prefixes" +:+ dq +:+ " }";
  ""].

Definition embeddedPacks (id : string) : option string :=
  if bool_decide (id = "rp-vat-rates") then Some pack_rp_vat_rates
  else if bool_decide (id = "rp-vat-exempt-basket") then Some pack_rp_vat_exempt_basket
  else if bool_decide (id = "rp-vat-zerorated-basket") then Some pack_rp_vat_zerorated_basket
  else if bool_decide (id = "rp-vat-attribution-mode") then Some pack_rp_vat_attribution_mode
  else if bool_decide (id = "rp-platform-collectors") then Some pack_rp_platform_collectors
  else None.

(** [packFromYAML] with [n] steps for the parser; [None] when they do not
    suffice. *)
Definition packFromYAML (n : nat) (id raw : string) : option (result packError RulePack) :=
  match ParseYAML n raw with
  | None => None
  | Some (Err _) => Some (Err parseError)
  | Some (Ok doc) => Some (packFromDoc id doc)
  end.

Definition packOf (n : nat) (id : string) (raw : option string) : option RulePack :=
  match raw with
  | Some raw => match packFromYAML n id raw with Some (Ok p) => Some p | _ => None end
  | None => None
  end.

(** [LoadPacks]: [registry id] is the content the registry serves for a pack,
    if it serves one. *)
Definition loadPacks (n : nat) (registry : string -> option string) (ps : PackSet) : PackSet :=
  LoadPacks (fun id => packOf n id (registry id)) (fun id => packOf n id (embeddedPacks id)) ps.

(** The packs of a service without a registry *)
Definition offlinePacks : PackSet := Eval vm_compute in loadPacks 200 (fun _ => None) ∅.

Definition exemptCategories : list string :=
  ["financial_services"; "insurance_premium"; "interest"; "land_sale"; "residential_rent";
   "real_property"; "postage"; "government_service"; "embassy_supply"; "public_transport";
   "shared_transport"].
Definition zeroRatedCategories : list string :=
  ["basic_food"; "groceries"; "bread"; "water_sachet"; "agriculture_input"; "medical"; "pharmacy";
   "healthcare"; "hospital_service"; "education"; "books"; "tuition"; "school_materials";
   "cooking_gas"; "kerosene_household"; "renewable_equipment"; "export_goods"; "export_services"].

Section Membership.
(** A pack rule whose categories are given matches exactly those. *)
Lemma listMatch_strings (l : list string) cat :
  listMatch (VList (map VStr l)) cat = bool_decide (cat ∈ map Str.to_lower l).
Proof.
  induction l as [|x l IH]; simpl; [done|].
  transitivity (bool_decide (Str.to_lower x = cat \/ cat ∈ map Str.to_lower l)).
  - rewrite bool_decide_or. f_equal. apply IH.
  - apply bool_decide_ext. rewrite elem_of_cons. split; intros [->|?]; auto.
Qed.

Lemma existsb_listMatch (rules : list Rule) key (ls : list (list string)) cat :
  map (fun r => find key (Then r)) rules = map (fun l => VList (map VStr l)) ls ->
  existsb (fun r => listMatch (find key (Then r)) cat) rules =
  bool_decide (cat ∈ map Str.to_lower (concat ls)).
Proof.
  revert ls. induction rules as [|r rules IH]; intros [|l ls] H; simplify_eq/=; [done|].
  rewrite H, listMatch_strings, (IH ls) by done.
  rewrite <- bool_decide_or. apply bool_decide_ext. by rewrite List.map_app, elem_of_app.
Qed.
End Membership.

(** The embedded packs implement the statutory table: they parse, and the
    service then charges 7.5%, splits 10/55/35 by place of consumption, and
    puts every category — in any case, with surrounding blanks — in the basket
    of the pack that lists it: exempt before zero-rated before standard. *)
Theorem embedded_packs_statutory (category fallback : string) :
  loadPacks 200 (fun _ => None) ∅ = offlinePacks /\
  StandardRateBPS offlinePacks = 750 /\
  attributionConfig offlinePacks fallback = mkAttributionConfig "state" 1000 5500 3500 /\
  BasketFor offlinePacks category =
    (let cat := Str.to_lower (Str.trim_space category) in
     if bool_decide (cat = "") then "standard_75"
     else if bool_decide (cat ∈ exemptCategories) then "exempt"
     else if bool_decide (cat ∈ zeroRatedCategories) then "zero_rated"
     else "standard_75").
Proof.
  split_and!; [vm_compute; reflexivity .. |].
  unfold BasketFor. cbv zeta. set (cat := Str.to_lower (Str.trim_space category)).
  rewrite (existsb_listMatch (rulesOf "rp-vat-exempt-basket" offlinePacks) "categories"
    [["financial_services"; "insurance_premium"; "interest"];
     ["land_sale"; "residential_rent"; "real_property"];
     ["postage"; "government_service"; "embassy_supply"];
     ["public_transport"; "shared_transport"]]) by (vm_compute; reflexivity).
  rewrite (existsb_listMatch (rulesOf "rp-vat-zerorated-basket" offlinePacks) "categories"
    [["basic_food"; "groceries"; "bread"; "water_sachet"; "agriculture_input"];
     ["medical"; "pharmacy"; "healthcare"; "hospital_service"];
     ["education"; "books"; "tuition"; "school_materials"];
     ["cooking_gas"; "kerosene_household"; "renewable_equipment"];
     ["export_goods"; "export_services"]]) by (vm_compute; reflexivity).
  reflexivity.
Qed.
