(* ===== verification/PosPackFetch.v ===== *)
(** * pos-vat: rule packs from the registry (services/pos-vat/packs.go)

    [fetchFromRegistry] asks the registry for a pack and parses the document
    it serves; [LoadPacks] takes the embedded copy where that gives none.  The
    registry and the JSON decoder are arguments.  The parser may not return
    ([yaml_parse_hangs]), and then neither does the loading: [None] is a load
    that has not ended within [n] steps for each document.  The mode of
    authentication only changes a log line, and is left out. *)

From S2P Require Import Prelude StrFacts GoAny Yaml PosPacks PosPackData.

(** [strings.TrimRight(base, "/")] *)
Fixpoint dropSlashes (s : string) : string :=
  match s with
  | String c s' => if bool_decide (c = "/"%char) then dropSlashes s' else s
  | EmptyString => EmptyString
  end.
Definition trimSlashes (s : string) : string := Str.rev (dropSlashes (Str.rev s)).

(** [io.LimitReader(resp.Body, 1<<20)] *)
Definition limited (body : string) : string :=
  if Str.len body <=? Z.shiftl 1 20 then body else Str.take (Z.to_nat (Z.shiftl 1 20)) body.

(** The registry over HTTP: [http_get] has the status and the body of an
    answer, [content] the field of the JSON object in a body, empty when it is
    absent *)
Record registry := mkRegistry {
  http_get : string -> option (Z * string);
  content : string -> option string;
}.

Definition packURL (base id : string) : string := trimSlashes base +:+ "/packs/" +:+ id +:+ "/active".

(** What the registry serves: the text to parse, if there is any *)
Definition served (reg : registry) (base id : string) : option string :=
  if bool_decide (base = "") then None
  else
    match http_get reg (packURL base id) with
    | Some (200, body) =>
        match content reg (limited body) with
        | Some doc => if bool_decide (doc = "") then None else Some doc
        | None => None
        end
    | _ => None
    end.

(** [nil] is [Some None] *)
Definition fetchFromRegistry (n : nat) (reg : registry) (base id : string) : option (option RulePack) :=
  match served reg base id with
  | None => Some None
  | Some doc =>
      match packFromYAML n id doc with
      | None => None
      | Some (Ok p) => Some (Some p)
      | Some (Err _) => Some None
      end
  end.

Definition embedded (n : nat) (id : string) : option (option RulePack) :=
  match embeddedPacks id with
  | None => Some None
  | Some raw =>
      match packFromYAML n id raw with
      | None => None
      | Some (Ok p) => Some (Some p)
      | Some (Err _) => Some None
      end
  end.

(** One pack of the loop *)
Definition loadPack (n : nat) (reg : registry) (base id : string) (ps : PackSet) : option PackSet :=
  match fetchFromRegistry n reg base id with
  | None => None
  | Some (Some p) => Some (<[id := p]> ps)
  | Some None =>
      match embedded n id with
      | None => None
      | Some (Some p) => Some (<[id := p]> ps)
      | Some None => Some ps
      end
  end.

Definition LoadFrom (n : nat) (reg : registry) (base : string) (ids : list string) (ps : PackSet) : option PackSet :=
  foldl (fun acc id => ps ← acc; loadPack n reg base id ps) (Some ps) ids.

Definition LoadPacks (n : nat) (reg : registry) (base : string) : option PackSet :=
  LoadFrom n reg base packOrder ∅.

(** [Loaded], up to the order of the map *)
Definition Loaded (ps : PackSet) : gset string := dom ps.

(** ** Auxiliary lemmas *)

Section Loading.
Context (n : nat) (reg : registry) (base : string).

(** The pack in force after a load: the registry's before the embedded one *)
Definition inForce (id : string) : option RulePack :=
  match fetchFromRegistry n reg base id with
  | Some (Some p) => Some p
  | _ => match embedded n id with Some (Some p) => Some p | _ => None end
  end.

Lemma LoadFrom_none ids : foldl (fun acc id => ps ← acc; loadPack n reg base id ps) None ids = None.
Proof. induction ids as [|id ids IH]; [done|exact IH]. Qed.

Lemma LoadFrom_cons id ids ps :
  LoadFrom n reg base (id :: ids) ps = match loadPack n reg base id ps with Some ps => LoadFrom n reg base ids ps | None => None end.
Proof.
  unfold LoadFrom. cbn [foldl mbind option_bind]. destruct (loadPack n reg base id ps); [done|apply LoadFrom_none].
Qed.

Lemma loadPack_lookup id ps ps' : loadPack n reg base id ps = Some ps' ->
  ps' !! id = match inForce id with Some p => Some p | None => ps !! id end /\
  (forall k, k <> id -> ps' !! k = ps !! k).
Proof.
  unfold loadPack, inForce. destruct (fetchFromRegistry n reg base id) as [[p|]|]; [| |done].
  - intros [= <-]. split; [apply lookup_insert_eq | intros k Hk; by apply lookup_insert_ne].
  - destruct (embedded n id) as [[p|]|]; [| |done]; intros [= <-]; [|done].
    split; [apply lookup_insert_eq | intros k Hk; by apply lookup_insert_ne].
Qed.

Lemma LoadFrom_lookup ids ps ps' : NoDup ids -> LoadFrom n reg base ids ps = Some ps' ->
  (forall id, id ∈ ids -> ps' !! id = match inForce id with Some p => Some p | None => ps !! id end) /\
  (forall id, id ∉ ids -> ps' !! id = ps !! id).
Proof.
  intros Hd. revert ps. induction Hd as [|id ids Hn Hd IH]; intros ps.
  { intros [= <-]. split; [by intros id ?%elem_of_nil | done]. }
  rewrite LoadFrom_cons. destruct (loadPack n reg base id ps) as [ps1|] eqn:E; [|done]. intros H.
  apply loadPack_lookup in E as [Hid Hother]. destruct (IH ps1 H) as [Hin Hout]. split.
  - intros k [->|Hk]%elem_of_cons; [by rewrite Hout | rewrite Hin by done].
    rewrite Hother; [done|]. intros ->. contradiction.
  - intros k [Hk Hk']%not_elem_of_cons. rewrite Hout by done. by apply Hother.
Qed.

(** A document on which the parser does not return stops the whole load. *)
Lemma LoadFrom_stuck id ids ps : id ∈ ids -> fetchFromRegistry n reg base id = None -> LoadFrom n reg base ids ps = None.
Proof.
  intros Hin Hf. revert ps. induction ids as [|k ids IH]; [by apply elem_of_nil in Hin|]. intros ps.
  rewrite LoadFrom_cons. apply elem_of_cons in Hin as [->|Hin].
  - unfold loadPack. by rewrite Hf.
  - destruct (loadPack n reg base k ps); [by apply IH|done].
Qed.

Lemma LoadFrom_total ids ps :
  (forall id, id ∈ ids -> is_Some (fetchFromRegistry n reg base id) /\ is_Some (embedded n id)) ->
  is_Some (LoadFrom n reg base ids ps).
Proof.
  revert ps. induction ids as [|id ids IH]; intros ps H; [by eexists|]. rewrite LoadFrom_cons.
  destruct (H id ltac:(apply list_elem_of_here)) as [[f Hf] [e He]].
  assert (E : is_Some (loadPack n reg base id ps)) by (unfold loadPack; rewrite Hf, He; destruct f, e; by eexists).
  destruct E as [ps1 ->]. apply IH. intros k Hk. apply H. by right.
Qed.
End Loading.

Lemma packOrder_NoDup : NoDup packOrder.
Proof. apply (bool_decide_eq_true_1 (NoDup packOrder)). vm_compute. reflexivity. Qed.

Lemma embedded_parses id : id ∈ packOrder -> embedded 200 id = Some (offlinePacks !! id) /\ is_Some (offlinePacks !! id).
Proof.
  intros H. unfold packOrder in H.
  repeat (apply elem_of_cons in H as [->|H]; [split; [vm_compute; reflexivity | by eexists]|]). by apply elem_of_nil in H.
Qed.

Lemma packFromYAML_mono n n' id raw r :
  (n <= n')%nat -> packFromYAML n id raw = Some r -> packFromYAML n' id raw = Some r.
Proof.
  intros Hn. unfold packFromYAML. destruct (ParseYAML n raw) as [r0|] eqn:E; [|done].
  by rewrite (parse_fuel_mono n n' raw r0 Hn E).
Qed.

Lemma fetch_mono n n' reg base id r :
  (n <= n')%nat -> fetchFromRegistry n reg base id = Some r -> fetchFromRegistry n' reg base id = Some r.
Proof.
  intros Hn. unfold fetchFromRegistry. destruct (served reg base id) as [doc|]; [|done].
  destruct (packFromYAML n id doc) as [r0|] eqn:E; [|done]. by rewrite (packFromYAML_mono n n' id doc r0 Hn E).
Qed.

Lemma embedded_at n id : (200 <= n)%nat -> id ∈ packOrder -> embedded n id = Some (offlinePacks !! id).
Proof.
  intros Hn Hid. destruct (embedded_parses id Hid) as [He _]. revert He. unfold embedded.
  destruct (embeddedPacks id) as [raw|]; [|done]. destruct (packFromYAML 200 id raw) as [r0|] eqn:E; [|done].
  by rewrite (packFromYAML_mono 200 n id raw r0 Hn E).
Qed.

(** A number of steps that is enough for several documents *)
Lemma steps_for_all reg base (ids : list string) :
  (forall id, id ∈ ids -> exists n, is_Some (fetchFromRegistry n reg base id)) ->
  exists n, (200 <= n)%nat /\ forall id, id ∈ ids -> is_Some (fetchFromRegistry n reg base id).
Proof.
  induction ids as [|id ids IH]; intros H; [exists 200%nat; split; [lia|by intros id ?%elem_of_nil]|].
  destruct (H id ltac:(apply list_elem_of_here)) as [n1 [r1 H1]].
  destruct IH as (n2 & Hn2 & H2); [intros k Hk; apply H; by right|].
  exists (n1 `max` n2)%nat. split; [lia|]. intros k [->|Hk]%elem_of_cons.
  - exists r1. apply (fetch_mono n1); [lia|exact H1].
  - destruct (H2 k Hk) as [r Hr]. exists r. apply (fetch_mono n2); [lia|exact Hr].
Qed.

(** ** Properties *)

(** C24: The loading ends exactly when the parser ends on every document the
    registry serves, and then every pack of the service is in force: the
    registry's where it serves one that parses, else the embedded one,
    whatever the mode - a service never starts without a pack. *)
Theorem packs_always_in_force (reg : registry) (base : string) :
  ((exists n ps, LoadPacks n reg base = Some ps) <->
   (forall id doc, id ∈ packOrder -> served reg base id = Some doc -> exists n r, packFromYAML n id doc = Some r)) /\
  (forall n ps, (200 <= n)%nat -> LoadPacks n reg base = Some ps ->
     Loaded ps = list_to_set packOrder /\
     forall id, id ∈ packOrder ->
       Get id ps = match fetchFromRegistry n reg base id with Some (Some p) => Some p | _ => Get id offlinePacks end).
Proof.
  split; [split|].
  - intros (n & ps & H) id doc Hid Hs. exists n. destruct (packFromYAML n id doc) as [r|] eqn:E; [by eexists|].
    unfold LoadPacks in H. rewrite (LoadFrom_stuck n reg base id) in H; [done | exact Hid|].
    unfold fetchFromRegistry. by rewrite Hs, E.
  - intros H. destruct (steps_for_all reg base packOrder) as (n & Hn & Hf).
    + intros id Hid. unfold fetchFromRegistry. destruct (served reg base id) as [doc|] eqn:Es; [|exists O; by eexists].
      destruct (H id doc Hid Es) as (n & r & Hr). exists n. rewrite Hr. destruct r; by eexists.
    + exists n. unfold LoadPacks. destruct (LoadFrom_total n reg base packOrder ∅) as [ps Hps]; [|by exists ps].
      intros id Hid. split; [by apply Hf|]. rewrite embedded_at by done. by eexists.
  - intros n ps Hn H. unfold LoadPacks in H. apply LoadFrom_lookup in H as [Hin Hout]; [|apply packOrder_NoDup].
    assert (Hget : forall id, id ∈ packOrder -> ps !! id = inForce n reg base id /\ is_Some (ps !! id)).
    { intros id Hid. rewrite (Hin id Hid). unfold inForce. rewrite (embedded_at n id Hn Hid).
      destruct (embedded_parses id Hid) as [_ [p Hp]]. rewrite Hp.
      destruct (fetchFromRegistry n reg base id) as [[q|]|]; by split; [|eexists]. }
    split.
    + unfold Loaded. apply set_eq. intros id. rewrite elem_of_dom, elem_of_list_to_set. split; [|intros Hid; by apply Hget].
      destruct (decide (id ∈ packOrder)) as [|Hid]; [done|]. rewrite (Hout id Hid), lookup_empty. by intros [? ?].
    + intros id Hid. unfold Get. rewrite (proj1 (Hget id Hid)). unfold inForce. rewrite (embedded_at n id Hn Hid).
      destruct (fetchFromRegistry n reg base id) as [[q|]|]; [done | |]; by destruct (offlinePacks !! id).
Qed.

(** One document from the registry, under any of the five names, keeps the
    service from starting: the loading never ends. *)
Theorem registry_hangs_start (reg : registry) (base id : string) (n : nat) :
  id ∈ packOrder -> served reg base id = Some ("- a: 1" +:+ String newline "  - b") -> LoadPacks n reg base = None.
Proof.
  intros Hid Hs. unfold LoadPacks. apply (LoadFrom_stuck n reg base id); [exact Hid|].
  unfold fetchFromRegistry, packFromYAML. by rewrite Hs, yaml_parse_hangs.
Qed.

(** ** Witnesses *)

(** A registry that serves one pack, as an object with its content *)
Definition demo_registry (doc : string) : registry :=
  mkRegistry (fun url => if bool_decide (url = "http://registry/packs/rp-vat-rates/active") then Some (200, doc) else Some (404, ""))
    Some.

Example rates_from_registry :
  (Version <$> (ps ← LoadPacks 200 (demo_registry "version: 2.0.0") "http://registry/"; Get "rp-vat-rates" ps)) = Some "2.0.0" /\
  (Version <$> (ps ← LoadPacks 200 (demo_registry "[") "http://registry/"; Get "rp-vat-rates" ps)) = Some "1.0.0".
Proof. split; vm_compute; reflexivity. Qed.

Lemma registry_hangs_start_witness :
  LoadPacks 1000 (demo_registry ("- a: 1" +:+ String newline "  - b")) "http://registry/" = None.
Proof.
  apply (registry_hangs_start (demo_registry ("- a: 1" +:+ String newline "  - b")) "http://registry/" "rp-vat-rates" 1000).
  - by left.
  - vm_compute. reflexivity.
Defined.
