(* ===== verification/PosStore.v ===== *)
(** * pos-vat: receipts and their store (services/pos-vat/types.go, store.go)

    The in-memory store with its append-only log, group commit and replay;
    the settlement markers; the offline spool; the idempotency cache and the
    event bus.  A log file is the list of the values written to it.  Whether
    a write or an fsync succeeds is an argument of the operations that do
    one; a write that fails leaves nothing.  The lines of the log are within the
    megabyte that the scanner of the replay reads. *)

From S2P Require Import Prelude GoAny.

Record ReceiptLine := mkReceiptLine {
  SKU : string;
  Description : string;
  Qty : Z;
  UnitPrice : Z;
  Category : string;
}.

Record AttributionResult := mkAttributionResult {
  ar_Mode : string;
  FederalKobo : Z;
  StateKobo : Z;
  LGAKobo : Z;
  ar_State : string;
  ar_LGA : string;
  ShadowFederal : Z;
  ShadowState : Z;
  ShadowLGA : Z;
}.

Record Citation := mkCitation {
  PackID : string;
  PackVersion : string;
  RuleID : string;
  Statute : string;
  SectionID : string;
  c_Title : string;
  c_Citation : string;
  StatuteSections : list string;
  CitationKind : string;
  c_SubjectToRegazette : bool;
}.

Record Receipt := mkReceipt {
  rc_ID : string;
  TenantID : string;
  MerchantTIN : string;
  MerchantTINHash : string;
  TerminalID : string;
  ReceiptNo : string;
  CapturedAt : string;
  Lat : spec_float;
  Lon : spec_float;
  Lines : list ReceiptLine;
  Currency : string;
  IdempotencyKey : string;
  Baskets : gmap string Z;
  PlatformCollected : bool;
  CollectorTIN : string;
  VATKobo : Z;
  TotalKobo : Z;
  rc_State : string;
  rc_LGA : string;
  Attribution : AttributionResult;
  Status : string;
  SettledIn : string;
  RulePackVersion : string;
  Citations : list Citation;
}.

Definition set_settled (key : string) (r : Receipt) : Receipt :=
  mkReceipt (rc_ID r) (TenantID r) (MerchantTIN r) (MerchantTINHash r) (TerminalID r) (ReceiptNo r)
    (CapturedAt r) (Lat r) (Lon r) (Lines r) (Currency r) (IdempotencyKey r) (Baskets r)
    (PlatformCollected r) (CollectorTIN r) (VATKobo r) (TotalKobo r) (rc_State r) (rc_LGA r)
    (Attribution r) "settled" key (RulePackVersion r) (Citations r).

Definition set_place (state lga : string) (r : Receipt) : Receipt :=
  mkReceipt (rc_ID r) (TenantID r) (MerchantTIN r) (MerchantTINHash r) (TerminalID r) (ReceiptNo r)
    (CapturedAt r) (Lat r) (Lon r) (Lines r) (Currency r) (IdempotencyKey r) (Baskets r)
    (PlatformCollected r) (CollectorTIN r) (VATKobo r) (TotalKobo r) state lga
    (Attribution r) (Status r) (SettledIn r) (RulePackVersion r) (Citations r).

Record ReconRecord := mkReconRecord {
  rec_ID : string;
  rec_Period : string;
  rec_TenantID : string;
  rec_Receipts : Z;
  rec_VATKobo : Z;
  rec_FederalKobo : Z;
  rec_StateKobo : Z;
  rec_LGAKobo : Z;
  rec_PlatformCollectedKobo : Z;
  rec_PlatformReceipts : Z;
  Supplement : Z;
  rec_LedgerTransfer : string;
  LedgerMode : string;
}.

Record SettledPeriod := mkSettledPeriod {
  sp_TenantID : string;
  sp_Period : string;
  sp_FederalKobo : Z;
  sp_StateKobo : Z;
  sp_LGAKobo : Z;
  FederalPendingID : string;
  StatePendingID : string;
  LGAPendingID : string;
  Supplements : Z;
  sp_Status : string;
  ReconID : string;
  FailReason : string;
}.

Record SpoolEntry := mkSpoolEntry {
  se_ID : string;
  QueuedAt : string;
  Reason : string;
  Payload : Receipt;
}.

Record Store := mkStore {
  receipts : gmap string Receipt;
  byTenant : gmap string (list string);
  recon : list ReconRecord;
  (** [logFile] is open *)
  logOpen : bool;
  (** the lines of receipts.log, oldest first *)
  log : list Receipt;
  pendingSync : Z;
  syncCount : Z;
  (** the process-wide [settledPeriods.m], and the lines of its log *)
  settledPeriods : gmap string SettledPeriod;
  settledLog : list SettledPeriod;
  (** the files of the spool directory, in the order of their names *)
  spool : list SpoolEntry;
}.

Definition syncHighWater : Z := 64.

Inductive storeError := writeFailed | syncFailed | closeFailed.

(** *** Group commit *)

Definition set_sync (pending count : Z) (st : Store) : Store :=
  mkStore (receipts st) (byTenant st) (recon st) (logOpen st) (log st) pending count
    (settledPeriods st) (settledLog st) (spool st).

Definition flushLocked (syncOk : bool) (st : Store) : Store * result storeError unit :=
  if negb (logOpen st) || (pendingSync st =? 0) then (st, Ok tt)
  else if negb syncOk then (st, Err syncFailed)
  else (set_sync 0 (syncCount st + 1) st, Ok tt).

(** One tick of the background flusher; its error is dropped. *)
Definition flusherTick (syncOk : bool) (st : Store) : Store := (flushLocked syncOk st).1.

Definition Close (syncOk closeOk : bool) (st : Store) : Store * result storeError unit :=
  let '(st, r) := flushLocked syncOk st in
  match r with
  | Err e => (st, Err e)
  | Ok _ =>
      if logOpen st then
        (mkStore (receipts st) (byTenant st) (recon st) false (log st) (pendingSync st) (syncCount st)
           (settledPeriods st) (settledLog st) (spool st),
         if closeOk then Ok tt else Err closeFailed)
      else (st, Ok tt)
  end.

(** *** Receipts *)

Definition append_log (r : Receipt) (st : Store) : Store :=
  mkStore (receipts st) (byTenant st) (recon st) (logOpen st) (log st ++ [r]) (pendingSync st)
    (syncCount st) (settledPeriods st) (settledLog st) (spool st).

Definition tenantIds (tenant : string) (st : Store) : list string :=
  default [] (byTenant st !! tenant).

(** [st.receipts\[r.ID\] = r; st.byTenant\[...\] = append(...)] *)
Definition index_receipt (r : Receipt) (st : Store) : Store :=
  mkStore (<[rc_ID r := r]> (receipts st))
    (<[TenantID r := tenantIds (TenantID r) st ++ [rc_ID r]]> (byTenant st))
    (recon st) (logOpen st) (log st) (pendingSync st) (syncCount st)
    (settledPeriods st) (settledLog st) (spool st).

Definition PutReceipt (writeOk syncOk : bool) (r : Receipt) (st : Store)
  : Store * result storeError unit :=
  match receipts st !! rc_ID r with
  | Some _ => (st, Ok tt)
  | None =>
      if logOpen st then
        if negb writeOk then (st, Err writeFailed)
        else
          let st := append_log r st in
          let st := set_sync (pendingSync st + 1) (syncCount st) st in
          if syncHighWater <=? pendingSync st then
            let '(st, res) := flushLocked syncOk st in
            match res with
            | Err e => (st, Err e)
            | Ok _ => (index_receipt r st, Ok tt)
            end
          else (index_receipt r st, Ok tt)
      else (index_receipt r st, Ok tt)
  end.

Definition settledKey (tenant period : string) : string := tenant +:+ "|" +:+ period.

Definition set_receipts (m : gmap string Receipt) (st : Store) : Store :=
  mkStore m (byTenant st) (recon st) (logOpen st) (log st) (pendingSync st) (syncCount st)
    (settledPeriods st) (settledLog st) (spool st).

(** [writeOk i] says whether the [i]-th write of the call succeeds. *)
Fixpoint markLoop (ids : list string) (key : string) (writeOk : nat -> bool) (st : Store)
  : Store * result storeError unit :=
  match ids with
  | [] => (st, Ok tt)
  | id :: ids =>
      match receipts st !! id with
      | None => markLoop ids key writeOk st
      | Some r =>
          let r := set_settled key r in
          let st := set_receipts (<[id := r]> (receipts st)) st in
          if logOpen st then
            if writeOk 0%nat then markLoop ids key (fun i => writeOk (S i)) (append_log r st)
            else (st, Err writeFailed)
          else markLoop ids key writeOk st
      end
  end.

Definition MarkReceiptsSettled (ids : list string) (tenant period : string)
  (writeOk : nat -> bool) (syncOk : bool) (st : Store) : Store * result storeError unit :=
  let '(st, r) := markLoop ids (settledKey tenant period) writeOk st in
  match r with
  | Err e => (st, Err e)
  | Ok _ => if logOpen st && negb syncOk then (st, Err syncFailed) else (st, Ok tt)
  end.

Definition GetReceipt (id : string) (st : Store) : option Receipt := receipts st !! id.

(** [limit > 0] cuts the list *)
Definition limited {A} (limit : Z) (l : list A) : list A :=
  if 0 <? limit then take (Z.to_nat limit) l else l.

Definition stateMatches (state : string) (r : Receipt) : bool :=
  bool_decide (state = "") || Str.equal_fold (rc_State r) state.

(** Without a tenant the whole map is listed, in the order [allIds] in which
    Go iterates it. *)
Definition ListReceipts (allIds : list string) (tenant state : string) (limit : Z) (st : Store)
  : list Receipt :=
  limited limit
    (List.filter (stateMatches state)
       (omap (fun id => receipts st !! id)
          (if bool_decide (tenant = "") then allIds else tenantIds tenant st))).

(** *** Replay of the log at start-up *)

Definition replayLine (st : Store) (r : Receipt) : Store :=
  if bool_decide (rc_ID r = "") then st else index_receipt r st.

Definition emptyStore (l : list Receipt) (sl : list SettledPeriod) (sp : list SpoolEntry) : Store :=
  mkStore ∅ ∅ [] false l 0 0 ∅ sl sp.

Definition replay (st : Store) : Store := foldl replayLine st (log st).

Definition open_log (ok : bool) (st : Store) : Store :=
  mkStore (receipts st) (byTenant st) (recon st) ok (log st) (pendingSync st) (syncCount st)
    (settledPeriods st) (settledLog st) (spool st).

(** [NewStore] on a data directory with those files.  The markers are not
    loaded: nothing calls [loadSettledPeriods]. *)
Definition NewStore (openOk : bool) (l : list Receipt) (sl : list SettledPeriod)
  (sp : list SpoolEntry) : Store :=
  open_log openOk (replay (emptyStore l sl sp)).

(** A restart: the memory is lost, the files stay. *)
Definition restart (st : Store) : Store := NewStore true (log st) (settledLog st) (spool st).

(** *** Reconciliation records and settlement markers *)

Definition AddRecon (rec : ReconRecord) (st : Store) : Store :=
  mkStore (receipts st) (byTenant st) (recon st ++ [rec]) (logOpen st) (log st) (pendingSync st)
    (syncCount st) (settledPeriods st) (settledLog st) (spool st).

Definition Recons (st : Store) : list ReconRecord := recon st.

Definition set_settledPeriods (m : gmap string SettledPeriod) (l : list SettledPeriod) (st : Store) : Store :=
  mkStore (receipts st) (byTenant st) (recon st) (logOpen st) (log st) (pendingSync st)
    (syncCount st) m l (spool st).

Definition loadSettledPeriods (st : Store) : Store :=
  set_settledPeriods
    (foldl (fun m sp => <[settledKey (sp_TenantID sp) (sp_Period sp) := sp]> m)
       (settledPeriods st) (settledLog st)) (settledLog st) st.

Definition GetSettledPeriod (tenant period : string) (st : Store) : option SettledPeriod :=
  settledPeriods st !! settledKey tenant period.

(** The map is updated before the file, and stays updated when the file
    fails. *)
Definition SaveSettledPeriod (ioOk : bool) (sp : SettledPeriod) (st : Store)
  : Store * result storeError unit :=
  let m := <[settledKey (sp_TenantID sp) (sp_Period sp) := sp]> (settledPeriods st) in
  if ioOk then (set_settledPeriods m (settledLog st ++ [sp]) st, Ok tt)
  else (set_settledPeriods m (settledLog st) st, Err writeFailed).

(** *** Spool *)

Definition set_spool (l : list SpoolEntry) (st : Store) : Store :=
  mkStore (receipts st) (byTenant st) (recon st) (logOpen st) (log st) (pendingSync st)
    (syncCount st) (settledPeriods st) (settledLog st) l.

(** Files of one name replace each other; [ReadDir] sorts by name. *)
Definition str_leb (a b : string) : bool := String.leb a b.

Fixpoint spool_insert (e : SpoolEntry) (l : list SpoolEntry) : list SpoolEntry :=
  match l with
  | [] => [e]
  | x :: l' =>
      if bool_decide (se_ID x = se_ID e) then e :: l'
      else if str_leb (se_ID e +:+ ".json") (se_ID x +:+ ".json") then e :: l
      else x :: spool_insert e l'
  end.

Definition Spool (ioOk : bool) (e : SpoolEntry) (st : Store) : Store * result storeError unit :=
  if ioOk then (set_spool (spool_insert e (spool st)) st, Ok tt) else (st, Err writeFailed).

Definition SpoolList (st : Store) : list SpoolEntry := spool st.

Definition SpoolRemove (id : string) (st : Store) : Store :=
  set_spool (List.filter (fun e => negb (bool_decide (se_ID e = id))) (spool st)) st.

(** *** Idempotency cache: key, value and expiry in nanoseconds *)

Abbreviation MemCache := (gmap string (string * Z)).

Definition live (now : Z) (m : MemCache) (key : string) : option string :=
  match m !! key with
  | Some (v, exp) => if now <? exp then Some v else None
  | None => None
  end.

Definition SetNX (now : Z) (key val : string) (ttl : Z) (m : MemCache) : MemCache * bool :=
  match live now m key with
  | Some _ => (m, false)
  | None => (<[key := (val, now + ttl)]> m, true)
  end.

Definition MemCacheGet (now : Z) (key : string) (m : MemCache) : option string := live now m key.

(** *** Event bus: the last 500 events, and the outbox file *)

Record InprocBus (D : Type) := mkBus { events : list D; outbox : list D }.
Arguments mkBus {D} events outbox.
Arguments events {D} _.
Arguments outbox {D} _.

Definition Publish {D} (env : D) (b : InprocBus D) : InprocBus D :=
  let evs := events b ++ [env] in
  mkBus (drop (length evs - 500) evs) (outbox b ++ [env]).

Definition Recent {D} (limit : nat) (b : InprocBus D) : list D := take limit (rev (events b)).

(** ** The operations that change receipts, as a transition system *)

Inductive storeOp :=
| opPut (r : Receipt)
| opMark (ids : list string) (tenant period : string)
| opTick.

Definition storeExec (writeOk : nat -> bool) (syncOk : bool) (st : Store) (o : storeOp) : Store :=
  match o with
  | opPut r => (PutReceipt (writeOk 0%nat) syncOk r st).1
  | opMark ids tenant period => (MarkReceiptsSettled ids tenant period writeOk syncOk st).1
  | opTick => flusherTick syncOk st
  end.

(** Every log operation succeeds. *)
Definition storeRun (l : list Receipt) (sl : list SettledPeriod) (sp : list SpoolEntry)
  (ops : list storeOp) : Store :=
  foldl (storeExec (fun _ => true) true) (NewStore true l sl sp) ops.

(** What the log says the receipts are *)
Definition receiptsOfLog (l : list Receipt) : gmap string Receipt :=
  foldl (fun m r => if bool_decide (rc_ID r = "") then m else <[rc_ID r := r]> m) ∅ l.

Definition idsOfLog (tenant : string) (l : list Receipt) : list string :=
  map rc_ID (List.filter (fun r => negb (bool_decide (rc_ID r = "")) && bool_decide (TenantID r = tenant)) l).

(** ** Auxiliary lemmas *)

Section Replay.
Implicit Types (st : Store) (r : Receipt).

Lemma replay_receipts l st :
  receipts (foldl replayLine st l) =
    foldl (fun m r => if bool_decide (rc_ID r = "") then m else <[rc_ID r := r]> m) (receipts st) l.
Proof.
  revert st. induction l as [|r l IH]; intros st; simpl; [done|]. rewrite IH.
  unfold replayLine. by case_bool_decide.
Qed.

Lemma replay_tenantIds l st tenant :
  tenantIds tenant (foldl replayLine st l) = tenantIds tenant st ++ idsOfLog tenant l.
Proof.
  revert st. induction l as [|r l IH]; intros st; simpl; [by rewrite app_nil_r|]. rewrite IH.
  unfold replayLine, idsOfLog. simpl. case_bool_decide; simpl; [done|].
  unfold tenantIds at 1. simpl.
  destruct (decide (TenantID r = tenant)) as [<-|Hne].
  - rewrite bool_decide_true, lookup_insert_eq by done. simpl. by rewrite <- app_assoc.
  - rewrite bool_decide_false, lookup_insert_ne by done. done.
Qed.

Lemma replay_log l st : log (foldl replayLine st l) = log st.
Proof.
  revert st. induction l as [|r l IH]; intros st; simpl; [done|]. rewrite IH.
  unfold replayLine. by case_bool_decide.
Qed.

Lemma NewStore_receipts b l sl sp : receipts (NewStore b l sl sp) = receiptsOfLog l.
Proof. unfold NewStore, replay. simpl. apply replay_receipts. Qed.

Lemma NewStore_tenantIds b l sl sp tenant : tenantIds tenant (NewStore b l sl sp) = idsOfLog tenant l.
Proof. unfold NewStore, replay. apply (replay_tenantIds l (emptyStore l sl sp) tenant). Qed.

Lemma NewStore_log b l sl sp : log (NewStore b l sl sp) = l.
Proof. unfold NewStore, replay. simpl. apply (replay_log l (emptyStore l sl sp)). Qed.

Lemma receiptsOfLog_snoc l r :
  receiptsOfLog (l ++ [r]) =
    if bool_decide (rc_ID r = "") then receiptsOfLog l else <[rc_ID r := r]> (receiptsOfLog l).
Proof. unfold receiptsOfLog. by rewrite foldl_app. Qed.

(** The store agrees with its log: what a replay would rebuild is what memory
    holds, under the receipts' own ids. *)
Definition durable st : Prop :=
  logOpen st = true /\ receipts st = receiptsOfLog (log st) /\
  (forall id r, receipts st !! id = Some r -> rc_ID r = id /\ id <> "").

Lemma receiptsOfLog_keys l id r : receiptsOfLog l !! id = Some r -> rc_ID r = id /\ id <> "".
Proof.
  revert id r. induction l as [|x l IH] using rev_ind; intros id r.
  { unfold receiptsOfLog. simpl. by rewrite lookup_empty. }
  rewrite receiptsOfLog_snoc. case_bool_decide as E; [apply IH|].
  destruct (decide (rc_ID x = id)) as [<-|Hne].
  - rewrite lookup_insert_eq. by intros [= <-].
  - rewrite lookup_insert_ne by done. apply IH.
Qed.

Lemma durable_New l sl sp : durable (NewStore true l sl sp).
Proof.
  split; [done|]. rewrite NewStore_receipts, NewStore_log. split; [done|]. apply receiptsOfLog_keys.
Qed.

Lemma flush_state ok st :
  exists p c, (flushLocked ok st).1 = set_sync p c st \/ (flushLocked ok st).1 = st.
Proof. exists 0, (syncCount st + 1). unfold flushLocked. cases; eauto. Qed.

Lemma PutReceipt_ok_state r st : logOpen st = true ->
  receipts st !! rc_ID r = None ->
  exists p c, (PutReceipt true true r st).1 = set_sync p c (index_receipt r (append_log r st)).
Proof.
  intros Ho Hn. unfold PutReceipt. rewrite Hn, Ho. simpl.
  destruct (_ <=? _); [|eexists _, _; reflexivity].
  unfold flushLocked. simpl. rewrite Ho. simpl. destruct (_ =? 0); simpl; eexists _, _; reflexivity.
Qed.

Lemma durable_put r st : rc_ID r <> "" -> durable st -> durable (PutReceipt true true r st).1.
Proof.
  intros Hid (Ho & Hr & Hk). destruct (receipts st !! rc_ID r) eqn:E.
  { unfold PutReceipt. by rewrite E. }
  destruct (PutReceipt_ok_state r st Ho E) as (p & c & ->).
  split; [done|]. simpl. rewrite receiptsOfLog_snoc, bool_decide_false, <- Hr by done.
  split; [done|]. intros id x.
  destruct (decide (rc_ID r = id)) as [<-|Hne]; [rewrite lookup_insert_eq; by intros [= <-]|].
  rewrite lookup_insert_ne by done. apply Hk.
Qed.

Lemma durable_markLoop ids key st :
  durable st -> durable (markLoop ids key (fun _ => true) st).1 /\
                (markLoop ids key (fun _ => true) st).2 = Ok tt.
Proof.
  revert st. induction ids as [|id ids IH]; intros st Hd; simpl; [done|].
  destruct (receipts st !! id) as [r|] eqn:E; [|by apply IH].
  destruct Hd as (Ho & Hr & Hk). simpl. rewrite Ho. apply IH.
  destruct (Hk id r E) as [Hid Hne]. split; [done|]. simpl.
  rewrite receiptsOfLog_snoc, bool_decide_false, <- Hr by (simpl; congruence).
  simpl. rewrite Hid. split; [done|]. intros j x.
  destruct (decide (id = j)) as [<-|Hj]; [rewrite lookup_insert_eq; by intros [= <-]|].
  rewrite lookup_insert_ne by done. apply Hk.
Qed.

Lemma durable_exec o st :
  (forall r, o = opPut r -> rc_ID r <> "") -> durable st -> durable (storeExec (fun _ => true) true st o).
Proof.
  intros Hid Hd. destruct o as [r|ids tenant period|]; simpl.
  - apply durable_put; [by apply Hid|done].
  - unfold MarkReceiptsSettled.
    destruct (durable_markLoop ids (settledKey tenant period) st Hd) as [H1 H2].
    destruct (markLoop _ _ _ _) as [st' r]. simpl in *. subst r. by rewrite andb_false_r.
  - unfold flusherTick. destruct (flush_state true st) as (p & c & [-> | ->]); done.
Qed.

(** The counter of the group commit *)
Lemma flush_pending_zero st : logOpen st = true -> pendingSync (flushLocked true st).1 = 0.
Proof. intros Ho. unfold flushLocked. rewrite Ho. simpl. case_match; [by bools|done]. Qed.

Lemma markLoop_pending ids key w st : pendingSync (markLoop ids key w st).1 = pendingSync st.
Proof.
  revert w st. induction ids as [|id ids IH]; intros w st; simpl; [done|].
  destruct (receipts st !! id); [|apply IH]. simpl.
  destruct (logOpen st); [|by rewrite IH]. destruct (w 0%nat); [|done]. by rewrite IH.
Qed.
(** With working files, every listed receipt ends up stamped and nothing else
    changes. *)
Lemma markLoop_stamps ids key w st :
  (forall i, w i = true) ->
  (markLoop ids key w st).2 = Ok tt /\
  (forall id, receipts (markLoop ids key w st).1 !! id =
     (if decide (id ∈ ids) then set_settled key <$> receipts st !! id else receipts st !! id)).
Proof.
  revert w st. induction ids as [|j ids IH]; intros w st Hw; simpl; [done|].
  destruct (receipts st !! j) as [r|] eqn:E.
  - assert (Hgen : forall st', receipts st' = <[j := set_settled key r]> (receipts st) ->
      forall w', (forall i, w' i = true) ->
      (markLoop ids key w' st').2 = Ok tt /\
      (forall id, receipts (markLoop ids key w' st').1 !! id =
        (if decide (id ∈ j :: ids) then set_settled key <$> receipts st !! id else receipts st !! id))).
    { intros st' Hst' w' Hw'. destruct (IH w' st' Hw') as [H1 H2]. split; [done|]. intros id.
      rewrite H2, Hst'. destruct (decide (j = id)) as [<-|Hne].
      - rewrite lookup_insert_eq, E, (decide_True (P := j ∈ j :: ids)) by set_solver. by case_decide.
      - rewrite lookup_insert_ne by done. destruct (decide (id ∈ ids)).
        + by rewrite decide_True by set_solver.
        + by rewrite decide_False by set_solver. }
    simpl. destruct (logOpen st); [rewrite Hw|]; by apply Hgen.
  - destruct (IH w st Hw) as [H1 H2]. split; [done|]. intros id. rewrite H2.
    destruct (decide (id = j)) as [->|Hne].
    + rewrite E. by repeat case_decide.
    + destruct (decide (id ∈ ids)); [by rewrite decide_True by set_solver|].
      by rewrite decide_False by set_solver.
Qed.

Lemma MarkReceiptsSettled_stamps ids tenant period w st :
  (forall i, w i = true) ->
  exists st', MarkReceiptsSettled ids tenant period w true st = (st', Ok tt) /\
    (forall id r, id ∈ ids -> receipts st' !! id = Some r -> SettledIn r = settledKey tenant period).
Proof.
  intros Hw. destruct (markLoop_stamps ids (settledKey tenant period) w st Hw) as [H1 H2].
  unfold MarkReceiptsSettled. destruct (markLoop _ _ _ _) as [st' r]. simpl in *. subst r.
  rewrite andb_false_r. exists st'. split; [done|]. intros id r Hid. rewrite H2, decide_True by done.
  destruct (receipts st !! id); simpl; [|done]. by intros [= <-].
Qed.
End Replay.

(** ** Properties *)

(** Durability: after any sequence of receipts stored, receipts marked
    settled and flushes, on any starting log, a restart from the log rebuilds
    exactly the receipts the store held, settlement stamps included. *)
Theorem store_replay_restores (l : list Receipt) (sl : list SettledPeriod) (sp : list SpoolEntry)
  (ops : list storeOp) :
  Forall (fun o => forall r, o = opPut r -> rc_ID r <> "") ops ->
  receipts (restart (storeRun l sl sp ops)) = receipts (storeRun l sl sp ops).
Proof.
  intros Hops. cut (durable (storeRun l sl sp ops)).
  { intros (_ & Hr & _). unfold restart. by rewrite NewStore_receipts. }
  unfold storeRun. pose proof (durable_New l sl sp) as H. revert H.
  generalize (NewStore true l sl sp) as st. induction Hops as [|o ops Ho _ IH]; intros st Hd; simpl; [done|].
  apply IH. by apply durable_exec.
Qed.

(** Group commit: as long as the fsyncs succeed, fewer than 64 written
    receipts ever wait for one, whatever is stored, settled and flushed; a
    flush leaves none waiting. *)
Theorem store_pending_bounded (l : list Receipt) (sl : list SettledPeriod) (sp : list SpoolEntry)
  (ops : list storeOp) :
  let st := storeRun l sl sp ops in
  0 <= pendingSync st < syncHighWater /\ pendingSync (flusherTick true st) = 0.
Proof.
  cut (logOpen (storeRun l sl sp ops) = true /\ 0 <= pendingSync (storeRun l sl sp ops) < syncHighWater).
  { intros [Ho Hp]. split; [done|]. by apply flush_pending_zero. }
  unfold storeRun.
  assert (Hp : 0 <= pendingSync (NewStore true l sl sp) < syncHighWater).
  { unfold NewStore, replay. simpl.
    assert (E : forall st, pendingSync (foldl replayLine st l) = pendingSync st).
    { induction l as [|r l' IH]; intros st; simpl; [done|]. rewrite IH. unfold replayLine.
      by case_bool_decide. }
    rewrite E. simpl. unfold syncHighWater. lia. }
  pose proof (durable_New l sl sp) as [Ho _]. revert Ho Hp.
  generalize (NewStore true l sl sp) as st. induction ops as [|o ops IH]; intros st Ho Hp; simpl; [done|].
  apply IH; destruct o as [r|ids tenant period|]; simpl.
  - unfold PutReceipt, flushLocked. cases; done.
  - unfold MarkReceiptsSettled.
    assert (E : forall ids key st, logOpen st = true -> logOpen (markLoop ids key (fun _ => true) st).1 = true).
    { induction ids0 as [|id ids0 IH0]; intros key st0 Hst; simpl; [done|].
      destruct (receipts st0 !! id); [|by apply IH0]. simpl. rewrite Hst. by apply IH0. }
    specialize (E ids (settledKey tenant period) st Ho). destruct (markLoop _ _ _ _) as [st' []]; simpl in *; [|done].
    by rewrite andb_false_r.
  - unfold flusherTick, flushLocked. cases; done.
  - unfold PutReceipt, flushLocked, syncHighWater in *. cases; bools; simpl in *; try rewrite Ho in *; bools; simpl in *; bools; lia.
  - unfold MarkReceiptsSettled. pose proof (markLoop_pending ids (settledKey tenant period) (fun _ => true) st) as E.
    destruct (markLoop _ _ _ _) as [st' []]; simpl in *; cases; simpl in *; lia.
  - unfold flusherTick. rewrite flush_pending_zero by done. unfold syncHighWater. lia.
Qed.

(** A restart lists a settled receipt twice: storing a receipt and marking
    it settled appends two lines to the log, and the replay adds the receipt to
    its tenant's list once per line, where the running store added it once. *)
Theorem store_restart_duplicates_settled (st : Store) (r : Receipt) (period : string) :
  durable st -> rc_ID r <> "" -> receipts st !! rc_ID r = None ->
  let st' := (MarkReceiptsSettled [rc_ID r] (TenantID r) period (fun _ => true) true
                (PutReceipt true true r st).1).1 in
  tenantIds (TenantID r) st' = tenantIds (TenantID r) st ++ [rc_ID r] /\
  tenantIds (TenantID r) (restart st') = tenantIds (TenantID r) (restart st) ++ [rc_ID r; rc_ID r].
Proof.
  intros (Ho & Hr & Hk) Hid Hnew st'.
  destruct (PutReceipt_ok_state r st Ho Hnew) as (p & c & Hput).
  assert (Hst' : st' = append_log (set_settled (settledKey (TenantID r) period) r)
            (set_receipts (<[rc_ID r := set_settled (settledKey (TenantID r) period) r]>
               (<[rc_ID r := r]> (receipts st))) (set_sync p c (index_receipt r (append_log r st))))).
  { subst st'. rewrite Hput. unfold MarkReceiptsSettled. simpl.
    rewrite lookup_insert_eq. simpl. rewrite Ho. simpl. by rewrite Ho. }
  rewrite Hst'. split.
  - unfold tenantIds. simpl. by rewrite lookup_insert_eq.
  - unfold restart. rewrite !NewStore_tenantIds. simpl. unfold idsOfLog.
    rewrite !List.filter_app, !map_app. simpl. rewrite !bool_decide_false, !bool_decide_true by done.
    simpl. by rewrite <- app_assoc.
Qed.

(** The markers of settled periods do not survive a restart: they are
    written to their log and never read back. *)
Theorem store_restart_loses_markers (tenant period : string) (sp : SettledPeriod) (st : Store) :
  sp_TenantID sp = tenant -> sp_Period sp = period ->
  let st' := (SaveSettledPeriod true sp st).1 in
  GetSettledPeriod tenant period st' = Some sp /\
  GetSettledPeriod tenant period (restart st') = None /\
  GetSettledPeriod tenant period (loadSettledPeriods (restart st')) = Some sp.
Proof.
  intros <- <-. unfold GetSettledPeriod, SaveSettledPeriod. simpl.
  rewrite lookup_insert_eq. split; [done|].
  assert (Hm : forall l s, settledPeriods (foldl replayLine s l) = settledPeriods s /\
                           settledLog (foldl replayLine s l) = settledLog s).
  { induction l as [|r l IH]; intros s; simpl; [done|]. rewrite !(proj1 (IH _)), !(proj2 (IH _)).
    unfold replayLine. by case_bool_decide. }
  unfold restart, NewStore, replay, loadSettledPeriods. simpl.
  rewrite !(proj1 (Hm _ _)), !(proj2 (Hm _ _)). simpl. rewrite lookup_empty.
  split; [done|]. rewrite foldl_app. simpl. by rewrite lookup_insert_eq.
Qed.

(** ** The properties at concrete inputs *)

Definition demo_receipt (id tenant : string) (vat : Z) : Receipt :=
  mkReceipt id tenant "TIN1" "" "t1" "R1" "2026-06-02" (S754_zero false) (S754_zero false) []
    "NGN" "" ∅ false "" vat 0 "Lagos" "Ikeja" (mkAttributionResult "state" 0 0 0 "" "" 0 0 0)
    "ingested" "" "" [].
Definition demo_store : Store := NewStore true [demo_receipt "r0" "a" 5] [] [].

Lemma store_replay_restores_witness :
  let ops := [opPut (demo_receipt "r1" "a" 7); opMark ["r0"; "r1"] "a" "2026-06"; opTick] in
  receipts (restart (storeRun [demo_receipt "r0" "a" 5] [] [] ops)) =
  receipts (storeRun [demo_receipt "r0" "a" 5] [] [] ops).
Proof.
  apply (store_replay_restores [demo_receipt "r0" "a" 5] [] []).
  repeat constructor; intros r; intros [=]; subst; discriminate.
Defined.

Lemma store_restart_duplicates_settled_witness :
  let r := demo_receipt "r1" "a" 7 in
  let st' := (MarkReceiptsSettled ["r1"] "a" "2026-06" (fun _ => true) true
                (PutReceipt true true r demo_store).1).1 in
  tenantIds "a" st' = ["r0"; "r1"] /\ tenantIds "a" (restart st') = ["r0"; "r1"; "r1"].
Proof.
  apply (store_restart_duplicates_settled demo_store (demo_receipt "r1" "a" 7) "2026-06");
    [apply durable_New | discriminate | reflexivity].
Defined.

Lemma store_restart_loses_markers_witness :
  let sp := mkSettledPeriod "a" "2026-06" 1 2 3 "x" "y" "z" 0 "settled" "rec" "" in
  let st' := (SaveSettledPeriod true sp demo_store).1 in
  GetSettledPeriod "a" "2026-06" st' = Some sp /\
  GetSettledPeriod "a" "2026-06" (restart st') = None /\
  GetSettledPeriod "a" "2026-06" (loadSettledPeriods (restart st')) = Some sp.
Proof.
  apply (store_restart_loses_markers "a" "2026-06"
    (mkSettledPeriod "a" "2026-06" 1 2 3 "x" "y" "z" 0 "settled" "rec" "") demo_store); reflexivity.
Defined.
