(* ===== verification/Citation.v ===== *)
(** * Statute citations (packages/shared/rulepack/citation.go) and the citation
    chain of a receipt (services/pos-vat/citations.go)

    The resolver is the reverse index of the coverage matrix; a coverage
    document is modelled as decoded. *)

From S2P Require Import Prelude GoAny PosPacks PosStore.

Record coverageStatute := mkCoverageStatute {
  cs_ID : string;
  cs_Title : string;
  cs_SubjectToRegazette : bool;
}.

Record coverageSection := mkCoverageSection {
  sec_SectionID : string;
  sec_Title : string;
  ImplementingRules : list string;
  sec_CitationKind : string;
}.

Record coverageDoc := mkCoverageDoc {
  cd_Statute : coverageStatute;
  Sections : list coverageSection;
}.

Record sectionHit := mkSectionHit { h_statute : coverageStatute; h_section : coverageSection }.

(** [CitationResolver.index] *)
Abbreviation CitationResolver := (gmap string (list sectionHit)).

Definition addRef (st : coverageStatute) (sec : coverageSection) (r : CitationResolver) (ref : string)
  : CitationResolver :=
  let key := Str.trim_space ref in
  if bool_decide (key = "") then r
  else <[key := default [] (r !! key) ++ [mkSectionHit st sec]]> r.

Definition addDoc (r : CitationResolver) (doc : coverageDoc) : CitationResolver :=
  if bool_decide (cs_ID (cd_Statute doc) = "") then r
  else foldl (fun r sec => foldl (addRef (cd_Statute doc) sec) r (ImplementingRules sec)) r (Sections doc).

(** The documents of the coverage directory, in directory order *)
Definition NewCitationResolver (docs : list coverageDoc) : CitationResolver := foldl addDoc ∅ docs.

Definition hitKey (h : sectionHit) : string := cs_ID (h_statute h) +:+ ":" +:+ sec_SectionID (h_section h).
Definition hit_le (a b : sectionHit) : Prop := String.leb (hitKey a) (hitKey b) = true.
#[export] Instance hit_le_dec a b : Decision (hit_le a b).
Proof. unfold hit_le. apply _. Defined.

Definition Resolve (r : CitationResolver) (packID packVersion ruleID ruleCitation : string) : Citation :=
  match merge_sort hit_le (default [] (r !! (packID +:+ ":" +:+ ruleID))) with
  | [] => mkCitation packID packVersion ruleID "" "" "" ruleCitation [] "" false
  | (first :: _) as hits =>
      mkCitation packID packVersion ruleID
        (cs_ID (h_statute first)) (sec_SectionID (h_section first)) (sec_Title (h_section first))
        (if bool_decide (ruleCitation = "")
         then Str.trim_space (cs_Title (h_statute first) +:+ ", " +:+ sec_Title (h_section first))
         else ruleCitation)
        (map hitKey hits) (sec_CitationKind (h_section first))
        (cs_SubjectToRegazette (h_statute first))
  end.

Definition Build (r : CitationResolver) (packID packVersion : string) (ruleIDs : list string)
  (ruleCitations : gmap string string) : list Citation :=
  map (fun id => Resolve r packID packVersion id (default "" (ruleCitations !! id))) ruleIDs.

(** ** The citations of a receipt *)

Definition zeroRatedCoverageRule (cat : string) : option string :=
  if bool_decide (cat ∈ ["medical"; "pharmacy"; "healthcare"; "hospital_service"])
  then Some "vat.zero.medical-services"
  else if bool_decide (cat ∈ ["education"; "tuition"; "books"; "school_materials"])
  then Some "vat.zero.education-tuition"
  else None.

Definition packSourceCitation (p : option RulePack) : string :=
  match p with Some p => strOf (find "source_citation" (Provenance p)) | None => "" end.

Definition packVersionOf (p : option RulePack) : string :=
  match p with Some p => Version p | None => "" end.

(** The rule ids of the zero-rated basket, sorted: a set, so the order of the
    categories does not matter. *)
Definition str_le (a b : string) : Prop := String.leb a b = true.
#[export] Instance str_le_dec a b : Decision (str_le a b).
Proof. unfold str_le. apply _. Defined.

Definition zeroRuleIDs (cats : gset string) : list string :=
  let ids : gset string := list_to_set (omap (fun cat => zeroRatedCoverageRule (Str.to_lower cat)) (elements cats)) in
  if decide (ids = ∅) then ["vat.rate.zero"] else merge_sort str_le (elements ids).

Definition basketCatsOf (b : string) (basketCats : gmap string (gset string)) : gset string :=
  default ∅ (basketCats !! b).

Definition receiptCitations (res : CitationResolver) (ps : PackSet)
  (basketCats : gmap string (gset string)) : list Citation :=
  (if decide (basketCatsOf "standard_75" basketCats = ∅) then []
   else let p := Get "rp-vat-rates" ps in
        [Resolve res "rp-vat-rates" (packVersionOf p) "vat.rate.standard" (packSourceCitation p)]) ++
  (if decide (basketCatsOf "zero_rated" basketCats = ∅) then []
   else map (fun id =>
          let packID := if bool_decide (id = "vat.rate.zero") then "rp-vat-rates" else "rp-vat-zerorated-basket" in
          let p := Get packID ps in
          Resolve res packID (packVersionOf p) id (packSourceCitation p))
        (zeroRuleIDs (basketCatsOf "zero_rated" basketCats))) ++
  (if decide (basketCatsOf "exempt" basketCats = ∅) then []
   else let p := Get "rp-vat-exempt-basket" ps in
        [Resolve res "rp-vat-exempt-basket" (packVersionOf p) "vat.exempt.basket" (packSourceCitation p)]).
