(* ===== verification/PosReceipt.v ===== *)
(** * pos-vat: the receipt pipeline (services/pos-vat/handlers.go)

    Money arithmetic in integer kobo, attribution to the federal, state and
    LGA shares, [processReceipt] and the handlers that ingest, spool, drain,
    list, certify and report receipts.  A request is its decoded body.  The
    clock, the random ids, the geo service and the outcome of each file
    operation are arguments, gathered in [Env]. *)

From S2P Require Import Prelude Crypto GoAny PosPacks PosStore Citation.

(** ** Arithmetic *)

Definition roundBpsHalfUp (amountKobo rateBps : Z) : Z :=
  if 0 <=? amountKobo then (amountKobo *! rateBps +! 5000) /! 10000
  else -! ((-! amountKobo *! rateBps +! 5000) /! 10000).

Definition computeAttribution (vat : Z) (state : string) (acfg : AttributionConfig) : AttributionResult :=
  let federal := roundBpsHalfUp vat (FederalShareBPS acfg) in
  let stateShare := roundBpsHalfUp vat (StateShareBPS acfg) in
  let lgaShare := vat -! federal -! stateShare in
  if bool_decide (Mode acfg = "federal") then
    mkAttributionResult (Mode acfg) vat 0 0 state "" federal stateShare lgaShare
  else if bool_decide (Mode acfg = "dual_shadow") then
    mkAttributionResult (Mode acfg) federal stateShare lgaShare state "" vat 0 0
  else mkAttributionResult (Mode acfg) federal stateShare lgaShare state "" 0 0 0.

(** ** The service *)

Record GeoAttribution := mkGeoAttribution { g_State : string; g_LGA : string; g_Source : string }.

Record Event := mkEvent {
  ev_Type : string;
  ev_TenantID : string;
  ev_Version : string;
  ev_Receipt : option string;
}.

Record Service := mkService {
  s_packs : PackSet;
  s_store : Store;
  s_cache : MemCache;
  s_bus : InprocBus Event;
}.

Definition with_store (st : Store) (s : Service) : Service :=
  mkService (s_packs s) st (s_cache s) (s_bus s).
Definition with_cache (c : MemCache) (s : Service) : Service :=
  mkService (s_packs s) (s_store s) c (s_bus s).
Definition publish (topic tenant : string) (ref : option string) (s : Service) : Service :=
  mkService (s_packs s) (s_store s) (s_cache s)
    (Publish (mkEvent topic tenant (VersionTag (s_packs s)) ref) (s_bus s)).

(** What a call takes from outside: the clock in nanoseconds and as RFC 3339
    text, a fresh ULID, the geo client, the coverage matrix, the configured
    fallback mode and HMAC key, and whether the cache and the log writes
    succeed. *)
Record Env := mkEnv {
  now : Z;
  nowRFC3339 : string;
  freshULID : string;
  geo : spec_float -> spec_float -> option GeoAttribution;
  resolver : CitationResolver;
  AttributionMode : string;
  tinKey : string;
  cacheOk : bool;
  writeOk : bool;
  syncOk : bool;
}.

Inductive processError :=
| invalidLine (sku : string)
| geoAttribution
| storeFailed (e : storeError).

Record IngestRequest := mkIngestRequest {
  iq_Receipt : Receipt;
  StoreAndForward : bool;
  SpoolReason : string;
}.

Definition orElse (s def : string) : string := Str.or_default s def.

(** The loop over the lines: baskets, categories per basket, total, VAT *)
Record lineTotals := mkLineTotals {
  lt_baskets : gmap string Z;
  lt_cats : gmap string (gset string);
  lt_total : Z;
  lt_vat : Z;
}.

Definition lineAmount (ln : ReceiptLine) : Z := (UnitPrice ln *! Qty ln) /! 1000.

Definition processLine (ps : PackSet) (rate : Z) (t : lineTotals) (ln : ReceiptLine) : lineTotals :=
  let amount := lineAmount ln in
  let basket := BasketFor ps (Category ln) in
  mkLineTotals
    (<[basket := default 0 (lt_baskets t !! basket) +! amount]> (lt_baskets t))
    (<[basket := {[Category ln]} ∪ basketCatsOf basket (lt_cats t)]> (lt_cats t))
    (lt_total t +! amount)
    (if bool_decide (basket = "standard_75") then lt_vat t +! roundBpsHalfUp amount rate else lt_vat t).

Definition lineValid (ln : ReceiptLine) : bool := negb ((Qty ln <=? 0) || (UnitPrice ln <? 0)).

Fixpoint processLines (ps : PackSet) (rate : Z) (lns : list ReceiptLine) (t : lineTotals)
  : result processError lineTotals :=
  match lns with
  | [] => Ok t
  | ln :: lns =>
      if lineValid ln then processLines ps rate lns (processLine ps rate t ln)
      else Err (invalidLine (SKU ln))
  end.

Definition initTotals : lineTotals :=
  mkLineTotals (<["standard_75" := 0]> (<["zero_rated" := 0]> (<["exempt" := 0]> ∅))) ∅ 0 0.

Section Pipeline.
Context `{Crypto}.

Definition idemHash (k : string) : string :=
  let h := Str.remove "_"%char (Str.remove "-"%char (TINHash k "pos-idem")) in
  if 24 <? Str.len h then Str.take 24 h else h.

Definition idemOf (rc : Receipt) : string :=
  if bool_decide (IdempotencyKey rc = "")
  then MerchantTIN rc +:+ ":" +:+ TerminalID rc +:+ ":" +:+ ReceiptNo rc
  else IdempotencyKey rc.

Definition receiptIdOf (idem : string) : string := "rcpt-" +:+ idemHash idem.

(** The receipt with everything the pipeline computes; what the request
    carried in the other fields is kept. *)
Definition computedReceipt (env : Env) (ps : PackSet) (idem : string) (rc : Receipt)
  (t : lineTotals) (g : GeoAttribution) : Receipt :=
  let collector := IsPlatformCollector ps (MerchantTIN rc) in
  mkReceipt
    (orElse (rc_ID rc) (receiptIdOf idem))
    (TenantID rc) (MerchantTIN rc) (TINHash (MerchantTIN rc) (tinKey env))
    (TerminalID rc) (ReceiptNo rc) (orElse (CapturedAt rc) (nowRFC3339 env))
    (Lat rc) (Lon rc) (Lines rc) (orElse (Currency rc) "NGN") (IdempotencyKey rc)
    (lt_baskets t)
    (if collector then true else PlatformCollected rc)
    (if collector then MerchantTIN rc else CollectorTIN rc)
    (lt_vat t) (lt_total t) (g_State g) (g_LGA g)
    (computeAttribution (lt_vat t) (g_State g) (attributionConfig ps (AttributionMode env)))
    "ingested" (SettledIn rc) (VersionTag ps)
    (receiptCitations (resolver env) ps (lt_cats t)).

Definition processReceipt (env : Env) (rc : Receipt) (idem : string) (s : Service)
  : Service * result processError Receipt :=
  let ps := s_packs s in
  match processLines ps (StandardRateBPS ps) (Lines rc) initTotals with
  | Err e => (s, Err e)
  | Ok t =>
      match geo env (Lat rc) (Lon rc) with
      | None => (s, Err geoAttribution)
      | Some g =>
          let rc := computedReceipt env ps idem rc t g in
          let '(st, r) := PutReceipt (writeOk env) (syncOk env) rc (s_store s) in
          match r with
          | Err e => (with_store st s, Err (storeFailed e))
          | Ok _ => (with_store st s, Ok rc)
          end
      end
  end.

(** ** Ingest *)

Inductive ingestBody :=
| duplicate (r : Receipt)
| spooled (spool_id : string)
| ingested (r : Receipt).

Definition idemTTL : Z := 7 * 24 * 3600 * 1000000000.

Definition handleIngestReceipt (env : Env) (req : IngestRequest) (s : Service)
  : Service * response ingestBody :=
  let rc := iq_Receipt req in
  if bool_decide (Lines rc = []) || bool_decide (ReceiptNo rc = "")
  then (s, Problem 422 "validation failed")
  else
    let idem := idemOf rc in
    let idemKey := receiptIdOf idem in
    match GetReceipt idemKey (s_store s) with
    | Some existing => (s, JSON 200 (duplicate existing))
    | None =>
        if negb (cacheOk env) then (s, Problem 503 "idempotency store unavailable")
        else
          let '(c, fresh) := SetNX (now env) ("idem:" +:+ idem) "1" idemTTL (s_cache s) in
          let s := with_cache c s in
          if negb fresh then
            match GetReceipt idemKey (s_store s) with
            | Some existing => (s, JSON 200 (duplicate existing))
            | None => (s, Problem 409 "conflict")
            end
          else if StoreAndForward req then
            let entry := mkSpoolEntry (freshULID env) (nowRFC3339 env)
                           (orElse (SpoolReason req) "offline-terminal") rc in
            let '(st, r) := Spool (writeOk env) entry (s_store s) in
            match r with
            | Err _ => (with_store st s, Problem 500 "spool failed")
            | Ok _ => (with_store st s, JSON 202 (spooled (se_ID entry)))
            end
          else
            let '(s, r) := processReceipt env rc idem s in
            match r with
            | Err _ => (s, Problem 422 "processing failed")
            | Ok rcpt =>
                (publish "nrs.pos.receipts.v1" (TenantID rcpt) (Some (rc_ID rcpt)) s,
                 JSON 201 (ingested rcpt))
            end
    end.

(** ** Spool drain: the entries, in order; [env i] is what the [i]-th one sees *)

Record drainReport := mkDrainReport { drained : Z; failed : list string; remaining : Z }.

Fixpoint drainLoop (env : nat -> Env) (entries : list SpoolEntry) (acc : Z * list string) (s : Service)
  : Service * (Z * list string) :=
  match entries with
  | [] => (s, acc)
  | e :: entries =>
      let rc := Payload e in
      let '(s, r) := processReceipt (env 0%nat) rc (idemOf rc) s in
      match r with
      | Err _ => drainLoop (fun i => env (S i)) entries (acc.1, acc.2 ++ [se_ID e]) s
      | Ok out =>
          let s := publish "nrs.pos.receipts.v1" (TenantID out) (Some (rc_ID out)) s in
          let s := publish "nrs.pos.spool.drained.v1" (TenantID out) (Some (rc_ID out)) s in
          let s := with_store (SpoolRemove (se_ID e) (s_store s)) s in
          drainLoop (fun i => env (S i)) entries (acc.1 + 1, acc.2) s
      end
  end.

Definition handleSpoolDrain (env : nat -> Env) (s : Service) : Service * response drainReport :=
  let '(s, (n, fl)) := drainLoop env (SpoolList (s_store s)) (0, []) s in
  (s, JSON 200 (mkDrainReport n fl (Z.of_nat (length (SpoolList (s_store s)))))).

End Pipeline.

(** ** Queries *)

Definition handleListReceipts (allIds : list string) (tenant state : string) (limit : Z) (s : Service)
  : response (list Receipt) :=
  JSON 200 (ListReceipts allIds tenant state (if limit <=? 0 then 100 else limit) (s_store s)).

Definition handleGetReceipt (id : string) (s : Service) : response Receipt :=
  match GetReceipt id (s_store s) with
  | Some rc => JSON 200 rc
  | None => Problem 404 "not found"
  end.

(** Receipts whose VAT drifts from a recompute over the basket, or whose
    federal and state shares do not add up to the VAT *)
Record varianceRow := mkVarianceRow {
  vr_ReceiptID : string;
  Kind : string;
  Expected : Z;
  Actual : Z;
  Delta : Z;
}.

Definition varianceRows (rate : Z) (rc : Receipt) : list varianceRow :=
  let recompute := roundBpsHalfUp (default 0 (Baskets rc !! "standard_75")) rate in
  let delta := VATKobo rc -! recompute in
  let attrSum := FederalKobo (Attribution rc) +! StateKobo (Attribution rc) in
  let delta' := VATKobo rc -! attrSum in
  (if (delta <? -1) || (1 <? delta)
   then [mkVarianceRow (rc_ID rc) "vat-recompute-drift" recompute (VATKobo rc) delta] else []) ++
  (if negb (bool_decide (ar_Mode (Attribution rc) = "federal")) && ((delta' <? -1) || (1 <? delta'))
   then [mkVarianceRow (rc_ID rc) "attribution-sum-mismatch" (VATKobo rc) attrSum delta'] else []).

Definition handleVariance (allIds : list string) (tenant : string) (s : Service)
  : response (list varianceRow) :=
  JSON 200 (flat_map (varianceRows (StandardRateBPS (s_packs s)))
              (ListReceipts allIds tenant "" 0 (s_store s))).

(** B2C report: the receipts of the period and their totals *)
Record b2cRow := mkB2cRow {
  b_ReceiptID : string;
  b_CapturedAt : string;
  b_TotalKobo : Z;
  b_VATKobo : Z;
  b_State : string;
  b_TINHash : string;
}.

Record b2cReport := mkB2cReport {
  report_id : string;
  transactions : Z;
  total_sales_kobo : Z;
  total_vat_kobo : Z;
  b2c_rows : list b2cRow;
}.

Definition inPeriod (period : string) (rc : Receipt) : bool :=
  bool_decide (period = "") || Str.has_prefix (CapturedAt rc) period.

Definition b2cRowOf (rc : Receipt) : b2cRow :=
  mkB2cRow (rc_ID rc) (CapturedAt rc) (TotalKobo rc) (VATKobo rc) (rc_State rc) (MerchantTINHash rc).

Definition handleB2CReport (env : Env) (allIds : list string) (tenant period : string) (s : Service)
  : Service * response b2cReport :=
  let rcs := List.filter (inPeriod period) (ListReceipts allIds tenant "" 0 (s_store s)) in
  (publish "nrs.pos.b2c.report.v1" tenant None s,
   JSON 201 (mkB2cReport (freshULID env) (Z.of_nat (length rcs))
               (loop_sum TotalKobo rcs 0) (loop_sum VATKobo rcs 0) (map b2cRowOf rcs))).

(** Certification: each line's amount fits in the basket its category
    belongs to, and the coordinates resolve in the embedded table *)
Definition certLine (ps : PackSet) (rc : Receipt) (ln : ReceiptLine) : bool :=
  let want := BasketFor ps (Category ln) in
  let basket := if bool_decide (want ∈ ["exempt"; "zero_rated"]) then want else "standard_75" in
  lineAmount ln <=? default 0 (Baskets rc !! basket).

Record certReport := mkCertReport {
  checks : Z;
  passed : Z;
  cert_failures : list (string * string);
  verdict : string;
}.

Definition certReceipt (ps : PackSet) (embedded : spec_float -> spec_float -> option GeoAttribution)
  (rc : Receipt) : list (bool * (string * string)) :=
  map (fun ln => (certLine ps rc ln, (rc_ID rc, SKU ln))) (Lines rc) ++
  [(match embedded (Lat rc) (Lon rc) with Some _ => true | None => false end, (rc_ID rc, "geo"))].

Definition handleCertRun (embedded : spec_float -> spec_float -> option GeoAttribution)
  (allIds : list string) (tenant : string) (sample : Z) (s : Service) : Service * response certReport :=
  let sample := if sample <=? 0 then 50 else sample in
  let all := flat_map (certReceipt (s_packs s) embedded) (ListReceipts allIds tenant "" sample (s_store s)) in
  let fails := map snd (List.filter (fun c => negb c.1) all) in
  (publish "nrs.pos.cert.run.v1" tenant None s,
   JSON 201 (mkCertReport (Z.of_nat (length all)) (Z.of_nat (length (List.filter fst all))) fails
               (if bool_decide (fails = []) then "PASS" else "FAIL"))).

Definition handleAttributionMode (env : Env) (s : Service) : response AttributionConfig :=
  JSON 200 (attributionConfig (s_packs s) (AttributionMode env)).

(** ** Auxiliary lemmas *)

Section Rounding.

Lemma div_range x : 0 <= x -> 0 <= x / 10000 <= x.
Proof. intros. split; [apply Z.div_pos | apply Z.div_le_upper_bound]; lia. Qed.

Lemma roundBps_nonneg a rate :
  0 <= a -> 0 <= rate -> a * rate + 5000 < two63 ->
  roundBpsHalfUp a rate = (a * rate + 5000) / 10000.
Proof.
  intros Ha Hr Hb. unfold roundBpsHalfUp. destruct (0 <=? a) eqn:E; [|bools; lia].
  assert (0 <= a * rate) by nia.
  rewrite (wrap64_id (a * rate)) by (unfold in64, two63 in *; lia).
  rewrite (wrap64_id (_ + 5000)) by (unfold in64, two63 in *; lia).
  rewrite Z.quot_div_nonneg by lia. apply wrap64_id.
  pose proof (div_range (a * rate + 5000) ltac:(lia)). unfold in64, two63 in *. lia.
Qed.

Lemma roundBps_neg a rate :
  a < 0 -> 0 <= rate -> - a * rate + 5000 < two63 -> - two63 < a ->
  roundBpsHalfUp a rate = - roundBpsHalfUp (- a) rate.
Proof.
  intros Ha Hr Hb Hm. rewrite (roundBps_nonneg (- a)) by lia.
  unfold roundBpsHalfUp. destruct (0 <=? a) eqn:E; [bools; lia|].
  assert (0 <= - a * rate) by nia.
  rewrite (wrap64_id (- a)) by (unfold in64, two63 in *; lia).
  rewrite (wrap64_id (- a * rate)) by (unfold in64, two63 in *; lia).
  rewrite (wrap64_id (_ + 5000)) by (unfold in64, two63 in *; lia).
  rewrite Z.quot_div_nonneg by lia.
  pose proof (div_range (- a * rate + 5000) ltac:(lia)).
  rewrite (wrap64_id (_ / _)) by (unfold in64, two63 in *; lia).
  apply wrap64_id. unfold in64, two63 in *. lia.
Qed.

(** The shares of any attribution are the VAT, up to the width of [int64]. *)
Lemma computeAttribution_sum vat state acfg :
  let r := computeAttribution vat state acfg in
  FederalKobo r + StateKobo r + LGAKobo r ≡64 vat.
Proof.
  unfold computeAttribution. cbv zeta.
  repeat case_bool_decide; simpl; [apply eq64_of_eq; lia| |];
    rewrite !wrap64_eq64; apply eq64_of_eq; lia.
Qed.
End Rounding.

Section LineLoop.
Implicit Types (ps : PackSet) (t : lineTotals).

Definition standardVat ps rate (ln : ReceiptLine) : Z :=
  if bool_decide (BasketFor ps (Category ln) = "standard_75")
  then roundBpsHalfUp (lineAmount ln) rate else 0.

Lemma msum_insert_add (m : gmap string Z) k x :
  msum id (<[k := default 0 (m !! k) +! x]> m) ≡64 msum id m + x.
Proof.
  destruct (m !! k) as [y|] eqn:E; simpl.
  - rewrite (msum_insert_Some _ _ _ _ _ E). unfold id. rewrite wrap64_eq64. apply eq64_of_eq. lia.
  - rewrite msum_insert_None by done. unfold id. rewrite wrap64_eq64. apply eq64_of_eq. lia.
Qed.

Lemma processLines_totals ps rate lns t t' :
  processLines ps rate lns t = Ok t' ->
  Forall (fun ln => lineValid ln = true) lns /\
  lt_total t' ≡64 lt_total t + sumZ lineAmount lns /\
  lt_vat t' ≡64 lt_vat t + sumZ (standardVat ps rate) lns /\
  msum id (lt_baskets t') ≡64 msum id (lt_baskets t) + sumZ lineAmount lns.
Proof.
  revert t. induction lns as [|ln lns IH]; intros t; simpl.
  - intros [= <-]. rewrite !Z.add_0_r. done.
  - destruct (lineValid ln) eqn:Hv; [|done]. intros (H1 & H2 & H3 & H4)%IH.
    split; [by constructor|]. fold (sumZ lineAmount lns) (sumZ (standardVat ps rate) lns).
    rewrite H2, H3, H4. unfold processLine, standardVat. simpl.
    rewrite msum_insert_add, !wrap64_eq64. split_and!.
    + apply eq64_of_eq. lia.
    + case_bool_decide; [rewrite wrap64_eq64|]; apply eq64_of_eq; lia.
    + apply eq64_of_eq. lia.
Qed.

Lemma initTotals_sum : msum id (lt_baskets initTotals) = 0.
Proof. vm_compute. reflexivity. Qed.
End LineLoop.

Section PipelineFacts.
Context `{Crypto}.

Lemma processReceipt_Ok env rc idem s s' r :
  processReceipt env rc idem s = (s', Ok r) ->
  exists t g st, processLines (s_packs s) (StandardRateBPS (s_packs s)) (Lines rc) initTotals = Ok t /\
    geo env (Lat rc) (Lon rc) = Some g /\
    r = computedReceipt env (s_packs s) idem rc t g /\
    PutReceipt (writeOk env) (syncOk env) r (s_store s) = (st, Ok tt) /\ s' = with_store st s.
Proof.
  unfold processReceipt. destruct (processLines _ _ _ _) as [t|e] eqn:Ht; [|done].
  destruct (geo _ _ _) as [g|] eqn:Hg; [|done].
  destruct (PutReceipt _ _ _ _) as [st [[]|e]] eqn:Hp; [|done].
  intros [= <- <-]. by exists t, g, st.
Qed.

Lemma PutReceipt_get w f r st st' :
  PutReceipt w f r st = (st', Ok tt) ->
  receipts st' !! rc_ID r = Some (default r (receipts st !! rc_ID r)).
Proof.
  unfold PutReceipt, flushLocked. destruct (receipts st !! rc_ID r) as [x|] eqn:E; [by intros [= <-]|].
  cases; intros; simplify_eq/=; by rewrite lookup_insert_eq.
Qed.
End PipelineFacts.

(** ** Properties *)

(** [roundBpsHalfUp] is rounding to the nearest kobo, half away from zero:
    for every amount whose product with the rate fits in 63 bits the result
    has the sign of the amount, and its magnitude is the one integer whose
    distance from the exact quotient is at most one half, halves rounded
    up. *)
Theorem roundBps_nearest (a rate : Z) :
  0 <= rate -> - two63 < a -> Z.abs a * rate + 5000 < two63 ->
  let r := roundBpsHalfUp a rate in
  10000 * Z.abs r - 5000 <= Z.abs a * rate < 10000 * Z.abs r + 5000 /\ 0 <= r * a.
Proof.
  intros Hr Ha Hb. cbv zeta.
  assert (Hn : forall b, 0 <= b -> b * rate + 5000 < two63 ->
    0 <= roundBpsHalfUp b rate /\
    10000 * roundBpsHalfUp b rate - 5000 <= b * rate < 10000 * roundBpsHalfUp b rate + 5000).
  { intros b Hb0 Hb1. rewrite roundBps_nonneg by done. assert (0 <= b * rate) by nia.
    pose proof (Z.div_mod (b * rate + 5000) 10000).
    pose proof (Z.mod_pos_bound (b * rate + 5000) 10000). lia. }
  destruct (Z.leb_spec 0 a) as [H0|H0].
  - rewrite (Z.abs_eq a) in * by done. destruct (Hn a H0 Hb) as [Hp Hq].
    rewrite Z.abs_eq by done. split; [done|nia].
  - rewrite (Z.abs_neq a) in * by lia. rewrite roundBps_neg by lia.
    destruct (Hn (- a) ltac:(lia) Hb) as [Hp Hq].
    rewrite Z.abs_opp, Z.abs_eq by done. split; [done|nia].
Qed.

(** C9: Attribution conserves the VAT: in every mode and with any configured
    shares, the federal, state and LGA shares add up to the VAT of the
    receipt (no share is ever dropped, wrap-around included), and so does the
    shadow split that the federal mode records. *)
Theorem attribution_conserves (vat : Z) (state : string) (acfg : AttributionConfig) :
  in64 vat ->
  let r := computeAttribution vat state acfg in
  wrap64 (FederalKobo r + StateKobo r + LGAKobo r) = vat /\
  (Mode acfg = "federal" -> wrap64 (ShadowFederal r + ShadowState r + ShadowLGA r) = vat).
Proof.
  intros Hv r. split.
  - etransitivity; [|by apply (wrap64_id vat)]. apply eq64_wrap, computeAttribution_sum.
  - intros Hm. subst r. unfold computeAttribution. rewrite bool_decide_true by done. simpl.
    etransitivity; [|by apply (wrap64_id vat)]. apply eq64_wrap.
    rewrite !wrap64_eq64. apply eq64_of_eq. lia.
Qed.

(** Under the statutory shares (10 / 55 / 35 percent, the default of the
    code and of the embedded pack) no leg is negative, and each leg is within
    one kobo of its exact share. *)
Theorem attribution_statutory_bounds (vat : Z) (state mode : string) :
  0 <= vat -> vat * 5500 + 5000 < two63 -> mode <> "federal" ->
  let r := computeAttribution vat state (attributionConfig ∅ mode) in
  0 <= FederalKobo r /\ 0 <= StateKobo r /\ 0 <= LGAKobo r /\
  Z.abs (10000 * FederalKobo r - 1000 * vat) <= 10000 /\
  Z.abs (10000 * StateKobo r - 5500 * vat) <= 10000 /\
  Z.abs (10000 * LGAKobo r - 3500 * vat) <= 10000.
Proof.
  intros H0 Hb Hm. cbv zeta.
  assert (E : computeAttribution vat state (attributionConfig ∅ mode) =
     let F := (vat * 1000 + 5000) / 10000 in let S := (vat * 5500 + 5000) / 10000 in
     mkAttributionResult mode F S (vat -! F -! S) state ""
       (if bool_decide (mode = "dual_shadow") then vat else 0) 0 0).
  { unfold computeAttribution, attributionConfig, rulesOf, Get. rewrite lookup_empty. simpl.
    rewrite bool_decide_false by done. rewrite !roundBps_nonneg by lia.
    by case_bool_decide. }
  rewrite E. simpl.
  pose proof (Z.div_mod (vat * 1000 + 5000) 10000).
  pose proof (Z.mod_pos_bound (vat * 1000 + 5000) 10000).
  pose proof (Z.div_mod (vat * 5500 + 5000) 10000).
  pose proof (Z.mod_pos_bound (vat * 5500 + 5000) 10000).
  set (F := (vat * 1000 + 5000) / 10000) in *. set (S := (vat * 5500 + 5000) / 10000) in *.
  rewrite (wrap64_id (vat - F)) by (unfold in64, two63 in *; lia).
  rewrite wrap64_id by (unfold in64, two63 in *; lia). lia.
Qed.

(** C8: What a processed receipt carries: every line was valid; the total is
    the sum of the line amounts, the VAT the sum over the standard-rated lines
    of their amounts at the pack's rate, each rounded on its own; the baskets
    split the total without loss; the three shares split the VAT without
    loss (all modulo the 64-bit width). *)
Theorem processReceipt_totals `{Crypto} (env : Env) (rc r : Receipt) (idem : string) (s s' : Service) :
  processReceipt env rc idem s = (s', Ok r) ->
  Forall (fun ln => lineValid ln = true) (Lines rc) /\ Lines r = Lines rc /\
  TotalKobo r ≡64 sumZ lineAmount (Lines rc) /\
  VATKobo r ≡64 sumZ (standardVat (s_packs s) (StandardRateBPS (s_packs s))) (Lines rc) /\
  msum id (Baskets r) ≡64 TotalKobo r /\
  FederalKobo (Attribution r) + StateKobo (Attribution r) + LGAKobo (Attribution r) ≡64 VATKobo r.
Proof.
  intros (t & g & st & Ht & _ & -> & _)%processReceipt_Ok.
  apply processLines_totals in Ht as (H1 & H2 & H3 & H4). simpl.
  rewrite initTotals_sum in H4. rewrite Z.add_0_l in H2, H3, H4.
  repeat split; [done..| by rewrite H4, H2 | apply computeAttribution_sum].
Qed.

Section Ingest.
Context `{Crypto}.

Lemma SetNX_fresh now key v ttl m :
  (SetNX now key v ttl m).2 = bool_decide (live now m key = None).
Proof. unfold SetNX. by destruct (live now m key). Qed.

(** What an accepted request leaves behind *)
Lemma ingest_accepted env req s s' r :
  handleIngestReceipt env req s = (s', JSON 201 (ingested r)) ->
  let rc := iq_Receipt req in
  (Lines rc <> [] /\ ReceiptNo rc <> "") /\
  receipts (s_store s) !! receiptIdOf (idemOf rc) = None /\
  (exists st, processReceipt env rc (idemOf rc)
     (with_cache (SetNX (now env) ("idem:" +:+ idemOf rc) "1" idemTTL (s_cache s)).1 s) =
     (st, Ok r) /\ s_store s' = s_store st).
Proof.
  unfold handleIngestReceipt. intros Hi. cbv zeta.
  destruct (bool_decide (Lines _ = []) || _) eqn:Hv; [done|]. bools.
  unfold GetReceipt in Hi. destruct (receipts _ !! _) eqn:Hg; [done|].
  destruct (negb (cacheOk env)); [done|].
  destruct (SetNX _ _ _ _ _) as [c fresh] eqn:Hs. destruct (negb fresh).
  { simpl in Hi. by rewrite Hg in Hi. }
  destruct (StoreAndForward req).
  { unfold Spool in Hi. destruct (writeOk env); done. }
  destruct (processReceipt _ _ _ _) as [st [x|e]] eqn:Hp; [|done].
  injection Hi as <- <-. split; [done|]. split; [done|]. exists st. by rewrite <- Hp.
Qed.
End Ingest.

(** A receipt keeps the settlement stamp its sender put in the request:
    the pipeline computes every derived field anew except [settled_in], and
    the settlement counts only receipts whose stamp is empty. *)
Theorem ingest_trusts_settled_in `{Crypto} (env : Env) (req : IngestRequest) (s s' : Service) (r : Receipt) :
  handleIngestReceipt env req s = (s', JSON 201 (ingested r)) ->
  SettledIn r = SettledIn (iq_Receipt req) /\
  (receipts (s_store s) !! rc_ID r = None -> receipts (s_store s') !! rc_ID r = Some r).
Proof.
  intros Hi. destruct (ingest_accepted env req s s' r Hi) as (_ & _ & st & Hp & Hst).
  destruct (processReceipt_Ok _ _ _ _ _ _ Hp) as (t & g & st' & _ & _ & -> & Hput & ->).
  split; [done|]. intros Hnew. rewrite Hst.
  apply PutReceipt_get in Hput. simpl in *. by rewrite Hnew in Hput.
Qed.

(** The variance report flags sound receipts: in the state and dual-shadow
    modes every receipt whose LGA share exceeds one kobo is reported as an
    attribution mismatch, although its three shares add up to its VAT. *)
Theorem variance_flags_lga (rate vat : Z) (state : string) (acfg : AttributionConfig) (rc : Receipt) :
  Attribution rc = computeAttribution vat state acfg -> VATKobo rc = vat ->
  Mode acfg <> "federal" -> in64 vat ->
  1 < LGAKobo (Attribution rc) ->
  exists row, row ∈ varianceRows rate rc /\ Kind row = "attribution-sum-mismatch" /\
    Delta row = LGAKobo (Attribution rc) /\ vr_ReceiptID row = rc_ID rc.
Proof.
  intros Ha Hv Hm Hin Hl. unfold varianceRows.
  assert (E : VATKobo rc -! (FederalKobo (Attribution rc) +! StateKobo (Attribution rc))
              = LGAKobo (Attribution rc)).
  { assert (Hr : in64 (LGAKobo (Attribution rc))).
    { rewrite Ha. unfold computeAttribution. rewrite bool_decide_false by done.
      case_bool_decide; apply wrap64_range. }
    rewrite <- (wrap64_id (LGAKobo _)) by done. apply eq64_wrap. rewrite wrap64_eq64.
    pose proof (computeAttribution_sum vat state acfg) as Hs. cbv zeta in Hs.
    rewrite <- Ha in Hs. rewrite Hv, <- Hs. apply eq64_of_eq. lia. }
  assert (Hmode : ar_Mode (Attribution rc) = Mode acfg).
  { rewrite Ha. unfold computeAttribution. by repeat case_bool_decide. }
  eexists. split; [apply elem_of_app; right|].
  - rewrite E, Hmode, bool_decide_false by done.
    replace (1 <? LGAKobo (Attribution rc)) with true by (symmetry; by apply Z.ltb_lt).
    rewrite orb_true_r. simpl. by apply list_elem_of_singleton.
  - done.
Qed.

(** ** The properties at concrete inputs *)

Definition demo_packs : PackSet :=
  <["rp-vat-rates" := mkRulePack "rp-vat-rates" "1.0.0" "" "" "published" false [] []
      [mkRule "vat.rate.standard" [] [("rate_bps", VInt 750)]]]>
  (<["rp-vat-zerorated-basket" := mkRulePack "rp-vat-zerorated-basket" "1.0.0" "" "" "published" false [] []
      [mkRule "vat.zero.food" [] [("categories", VList [VStr "bread"; VStr "groceries"])]]]> ∅).
Definition demo_service : Service := mkService demo_packs (NewStore true [] [] []) ∅ (mkBus [] []).
Definition demo_env : Env :=
  mkEnv 0 "2026-06-02T00:00:00Z" "01" (fun _ _ => Some (mkGeoAttribution "Lagos" "Ikeja" "embedded"))
    ∅ "state" "key" true true true.
Definition demo_request (id stamp : string) : IngestRequest :=
  mkIngestRequest
    (mkReceipt id "a" "TIN1" "" "t1" "R1" "" (S754_zero false) (S754_zero false)
       [mkReceiptLine "s1" "" 2000 10007 "phone"; mkReceiptLine "s2" "" 1000 500 "Bread "] "" ""
       ∅ false "" 0 0 "" "" (mkAttributionResult "" 0 0 0 "" "" 0 0 0) "" stamp "" [])
    false "".

Lemma roundBps_nearest_witness :
  roundBpsHalfUp 20 750 = 2 /\ roundBpsHalfUp (-20) 750 = -2 /\
  10000 * Z.abs (roundBpsHalfUp (-20) 750) - 5000 <= Z.abs (-20) * 750.
Proof.
  split_and!; [reflexivity | reflexivity |].
  apply (roundBps_nearest (-20) 750); vm_compute; intros; discriminate || reflexivity.
Defined.

Lemma attribution_conserves_witness :
  let r := computeAttribution 1501 "Lagos" (mkAttributionConfig "dual_shadow" 1000 5500 3500) in
  wrap64 (FederalKobo r + StateKobo r + LGAKobo r) = 1501.
Proof.
  refine (proj1 (attribution_conserves 1501 "Lagos" (mkAttributionConfig "dual_shadow" 1000 5500 3500) _)).
  unfold in64, two63. lia.
Defined.

Lemma attribution_statutory_bounds_witness :
  0 <= LGAKobo (computeAttribution 1 "Lagos" (attributionConfig ∅ "state")).
Proof.
  apply (attribution_statutory_bounds 1 "Lagos" "state"); [lia | unfold two63; lia | discriminate].
Defined.

Lemma processReceipt_totals_witness :
  let rc := iq_Receipt (demo_request "" "") in
  let out := processReceipt (H := Toy.crypto) demo_env rc "k" demo_service in
  exists r, out.2 = Ok r /\ TotalKobo r = 20514 /\ VATKobo r = 1501 /\
    TotalKobo r ≡64 sumZ lineAmount (Lines rc).
Proof.
  cbv zeta. destruct (processReceipt (H := Toy.crypto) demo_env (iq_Receipt (demo_request "" "")) "k" demo_service)
    as [s' res] eqn:E.
  assert (Hr : exists r, res = Ok r /\ TotalKobo r = 20514 /\ VATKobo r = 1501).
  { vm_compute in E. injection E as _ <-. eexists. split; [reflexivity|]. split; reflexivity. }
  destruct Hr as (r & -> & H1 & H2). exists r. split; [reflexivity|]. split; [exact H1|].
  split; [exact H2|].
  apply (processReceipt_totals (H := Toy.crypto) demo_env (iq_Receipt (demo_request "" "")) r "k" demo_service s' E).
Defined.

Lemma ingest_trusts_settled_in_witness :
  exists r, (handleIngestReceipt (H := Toy.crypto) demo_env (demo_request "" "paid") demo_service).2
    = JSON 201 (ingested r) /\ SettledIn r = "paid".
Proof.
  destruct (handleIngestReceipt (H := Toy.crypto) demo_env (demo_request "" "paid") demo_service) as [s' res] eqn:E.
  assert (Hr : exists r, res = JSON 201 (ingested r)).
  { vm_compute in E. injection E as _ <-. eexists. reflexivity. }
  destruct Hr as (r & ->). exists r. split; [reflexivity|].
  apply (ingest_trusts_settled_in (H := Toy.crypto) demo_env (demo_request "" "paid") demo_service s' r E).
Defined.

Lemma variance_flags_lga_witness :
  let rc := mkReceipt "r" "a" "" "" "" "" "" (S754_zero false) (S754_zero false) [] "" ""
    (<["standard_75" := 20014]> ∅) false "" 1501 20014 "Lagos" ""
    (computeAttribution 1501 "Lagos" (mkAttributionConfig "state" 1000 5500 3500)) "" "" "" [] in
  exists row, row ∈ varianceRows 750 rc /\ Kind row = "attribution-sum-mismatch" /\
    Delta row = 525 /\ vr_ReceiptID row = "r".
Proof.
  apply (variance_flags_lga 750 1501 "Lagos" (mkAttributionConfig "state" 1000 5500 3500));
    [reflexivity | reflexivity | discriminate | unfold in64, two63; lia | reflexivity].
Defined.
