(* ===== verification/PosCache.v ===== *)
(** * pos-vat: the Redis cache (services/pos-vat/store.go)

    The client that speaks the protocol of Redis by hand: the bytes of a
    command, the reading of a reply, and the two operations the idempotency of
    receipts uses.  The server is an interface with the documented laws of SET
    NX PX and GET; a reference reader of the protocol says what it receives.
    The allocation of the buffer of a bulk reply is not modelled. *)

From S2P Require Import Prelude StrFacts Crypto GoJson PosPacks PosStore PosReceipt.

Definition CRLF : string := String (Ascii.ascii_of_nat 13) (String (Ascii.ascii_of_nat 10) "").
Definition cr : ascii := Ascii.ascii_of_nat 13.
Definition lf : ascii := Ascii.ascii_of_nat 10.

(** ** Addresses and commands *)

Definition NewRedisCache (url : string) : string :=
  let addr := Str.trim_prefix url "redis://" in
  if Str.contains ":" addr then addr else addr +:+ ":6379".

Definition count (n : nat) : string := pretty (N.of_nat n).

Definition bulk (a : string) : string := "$" +:+ count (String.length a) +:+ CRLF +:+ a +:+ CRLF.

Fixpoint bulks (args : list string) : string :=
  match args with [] => "" | a :: args => bulk a +:+ bulks args end.

Definition command (args : list string) : string := "*" +:+ count (length args) +:+ CRLF +:+ bulks args.

(** ** Replies *)

Fixpoint dropCR (s : string) : string := match s with String c r => if bool_decide (c = cr) then dropCR r else s | EmptyString => "" end.
Definition trimRight (s : string) : string := Str.rev (dropCR (Str.rev s)).

(** [strconv.Atoi] with its error ignored *)
Definition atoi (s : string) : Z :=
  let digits d := if bool_decide (d = "") || negb (Str.all Str.is_digit d) then None else Some (Str.digits_val d) in
  match s with
  | String "-" d => match digits d with Some n => Z.max (- two63) (- n) | None => 0 end
  | String "+" d | d => match digits d with Some n => Z.min (two63 - 1) n | None => 0 end
  end.

Inductive redisError := dialFailed | writeFailed | noReply | refusedWith (msg : string).

(** [bytes]: everything the server sends before the connection ends *)
Definition readReply (bytes : string) : result redisError string :=
  match Str.cut lf bytes with
  | None => Err noReply
  | Some (line, rest) =>
      match trimRight line with
      | String "+" r | String ":" r => Ok r
      | String "-" r => Err (refusedWith r)
      | String "$" r =>
          let n := atoi r in
          if n <? 0 then Err (refusedWith "nil")
          else if Str.len rest <? n + 2 then Err noReply
          else Ok (Str.take (Z.to_nat n) rest)
      | line => Ok line
      end
  end.

(** What the network does with a command *)
Inductive connection := noDial | noWrite | answers (bytes : string).

Definition cmd (c : connection) : result redisError string :=
  match c with noDial => Err dialFailed | noWrite => Err writeFailed | answers bytes => readReply bytes end.

Definition Ping (c : connection) : bool := match cmd c with Ok _ => true | Err _ => false end.

Definition setArgs (key val : string) (ttl : Z) : list string := ["SET"; key; val; "PX"; pretty (Z.quot ttl 1000000); "NX"].

Definition RedisSetNX (c : connection) : result redisError bool :=
  match cmd c with
  | Ok res => Ok (bool_decide (res = "OK"))
  | Err (refusedWith "nil") => Ok false
  | Err e => Err e
  end.

Definition RedisGet (c : connection) : result redisError string := cmd c.

(** ** What the server receives *)

(** The reference reader: a marker, a count, the end of the line *)
Definition readCount (marker : ascii) (s : string) : option (nat * string) :=
  match s with
  | String c r =>
      if bool_decide (c = marker) then
        match Str.cut cr r with
        | Some (d, String c' r) => if bool_decide (c' = lf) then Some (Z.to_nat (Str.digits_val d), r) else None
        | _ => None
        end
      else None
  | EmptyString => None
  end.

Definition readBulk (s : string) : option (string * string) :=
  '(n, r) ← readCount "$" s;
  if (String.length r <? n + 2)%nat then None
  else if bool_decide (Str.take 2 (Str.drop n r) = CRLF) then Some (Str.take n r, Str.drop (n + 2) r) else None.

Fixpoint readBulks (n : nat) (s : string) : option (list string * string) :=
  match n with
  | O => Some ([], s)
  | S n => '(a, s) ← readBulk s; '(args, s) ← readBulks n s; Some (a :: args, s)
  end.

Definition readCommand (s : string) : option (list string * string) := '(n, s) ← readCount "*" s; readBulks n s.

Lemma digits_val_count n : Str.digits_val (count n) = Z.of_nat n.
Proof. unfold count. rewrite digits_pretty. lia. Qed.

Lemma count_digits n : Str.all Str.is_digit (count n) = true.
Proof. apply pretty_N_digits. Qed.

Lemma digits_no c s : Str.is_digit c = false -> Str.all Str.is_digit s = true -> Str.contains c s = false.
Proof. intros Hc Hs. by eapply str_all_contains. Qed.

Lemma readCount_count m n rest : readCount m (String m "" +:+ count n +:+ CRLF +:+ rest) = Some (n, rest).
Proof.
  rewrite str_app_one. unfold readCount. rewrite bool_decide_eq_true_2 by done.
  change (CRLF +:+ rest) with (String cr (String lf rest)). rewrite (cut_app cr) by (apply digits_no; [reflexivity|apply count_digits]).
  rewrite bool_decide_eq_true_2 by done. by rewrite digits_val_count, Nat2Z.id.
Qed.

Lemma readBulk_bulk a rest : readBulk (bulk a +:+ rest) = Some (a, rest).
Proof.
  unfold readBulk, bulk. rewrite <- !str_app_assoc. rewrite (readCount_count "$" (String.length a) (a +:+ CRLF +:+ rest)).
  cbn [mbind option_bind]. rewrite !str_length_app. change (String.length CRLF) with 2%nat.
  destruct (Nat.ltb_spec (String.length a + (2 + String.length rest)) (String.length a + 2)); [lia|].
  rewrite str_drop_app. change (Str.take 2 (CRLF +:+ rest)) with (Str.take (String.length CRLF) (CRLF +:+ rest)). rewrite str_take_app.
  rewrite bool_decide_eq_true_2 by done. rewrite str_take_app. f_equal. f_equal.
  rewrite str_app_assoc. replace (String.length a + 2)%nat with (String.length (a +:+ CRLF)) by (rewrite str_length_app; reflexivity). by rewrite str_drop_app.
Qed.

(** The server reads exactly the arguments the client sent, whatever bytes
    they hold - line ends, markers and counts included -, and the next command
    begins where this one ends: no key or value can smuggle in a command. *)
Theorem resp_roundtrip args rest : readCommand (command args +:+ rest) = Some (args, rest).
Proof.
  unfold readCommand, command. rewrite <- !str_app_assoc. rewrite (readCount_count "*" (length args) (bulks args +:+ rest)). cbn [mbind option_bind].
  induction args as [|a args IH]; cbn [length readBulks bulks]; [by rewrite str_app_nil_l|].
  rewrite <- str_app_assoc, readBulk_bulk. cbn [mbind option_bind]. by rewrite IH.
Qed.

(** ** What the client reads *)

Lemma dropCR_id s : Str.contains cr s = false -> dropCR s = s.
Proof.
  destruct s as [|c s]; [done|]. cbn [Str.contains dropCR]. intros [Hc _]%orb_false_elim. bools. by rewrite bool_decide_eq_false_2 by congruence.
Qed.

Lemma contains_rev' c s : Str.contains c (Str.rev s) = Str.contains c s.
Proof.
  induction s as [|d s IH]; [done|]. rewrite rev_cons, str_contains_app, IH. cbn [Str.contains]. rewrite orb_false_r. apply orb_comm.
Qed.

Lemma trimRight_line s : Str.contains cr s = false -> trimRight (s +:+ String cr "") = s.
Proof.
  intros Hs. unfold trimRight. rewrite rev_app. change (Str.rev (String cr "") +:+ Str.rev s) with (String cr (Str.rev s)). cbn [dropCR].
  rewrite bool_decide_eq_true_2 by done. rewrite dropCR_id by by rewrite contains_rev'. apply rev_involutive.
Qed.

Lemma cut_line s rest : Str.contains cr s = false -> Str.contains lf s = false ->
  Str.cut lf (s +:+ CRLF +:+ rest) = Some (s +:+ String cr "", rest).
Proof.
  intros Hc Hl. change (CRLF +:+ rest) with (String cr "" +:+ String lf rest). rewrite str_app_assoc. apply cut_app.
  rewrite str_contains_app, Hl. reflexivity.
Qed.

Lemma atoi_count n : Z.of_nat n < two63 -> atoi (count n) = Z.of_nat n.
Proof.
  intros Hn. pose proof (count_digits n) as Hd. pose proof (digits_val_count n) as Hv. destruct (pretty_N_head (N.of_nat n)) as (c & r & E & Hc).
  fold (count n) in E. rewrite E in *. unfold atoi.
  destruct c as [[] [] [] [] [] [] [] []]; try discriminate Hc; rewrite (bool_decide_eq_false_2 (String _ r = "")) by done; cbn [orb];
    rewrite Hd; cbn [negb]; rewrite Hv; unfold two63 in *; lia.
Qed.

Lemma readReply_bulk v : Str.len v < two63 - 2 -> readReply (bulk v) = Ok v.
Proof.
  intros Hv. unfold readReply, bulk.
  assert (Hd : forall c, Str.is_digit c = false -> Str.contains c (count (String.length v)) = false) by (intros c Hc; by apply digits_no, count_digits).
  rewrite str_app_one. change (String "$" (count (String.length v) +:+ CRLF +:+ v +:+ CRLF)) with (String "$" "" +:+ count (String.length v) +:+ CRLF +:+ v +:+ CRLF).
  rewrite str_app_assoc. rewrite cut_line by (rewrite str_contains_app, Hd; reflexivity). rewrite trimRight_line by (rewrite str_contains_app, Hd; reflexivity).
  rewrite str_app_one. unfold Str.len in *. rewrite atoi_count by lia. destruct (Z.ltb_spec (Z.of_nat (String.length v)) 0); [lia|].
  rewrite str_length_app. change (String.length CRLF) with 2%nat. destruct (Z.ltb_spec (Z.of_nat (String.length v + 2)) (Z.of_nat (String.length v) + 2)); [lia|].
  by rewrite Nat2Z.id, str_take_app.
Qed.

Lemma readReply_nil : readReply ("$-1" +:+ CRLF) = Err (refusedWith "nil").
Proof. reflexivity. Qed.

Lemma readReply_ok : readReply ("+OK" +:+ CRLF) = Ok "OK".
Proof. reflexivity. Qed.

(** ** The cache it implements *)

(** What the documentation of Redis says of the two commands: [value] is what
    GET finds at a time. *)
Class RedisServer (St : Type) := {
  serve : Z -> list string -> St -> St * string;
  value : Z -> St -> string -> option string;
  set_fresh now k v (ms : Z) s : 0 < ms -> value now s k = None ->
    (serve now ["SET"; k; v; "PX"; pretty ms; "NX"] s).2 = "+OK" +:+ CRLF /\
    forall t k', now <= t -> value t (serve now ["SET"; k; v; "PX"; pretty ms; "NX"] s).1 k' =
      if decide (k' = k) then (if t <? now + ms * 1000000 then Some v else None) else value t s k';
  set_live now k v (ms : Z) s x : value now s k = Some x -> serve now ["SET"; k; v; "PX"; pretty ms; "NX"] s = (s, "$-1" +:+ CRLF);
  get_value now k s : serve now ["GET"; k] s = (s, match value now s k with Some v => bulk v | None => "$-1" +:+ CRLF end);
}.

Section Refinement.
Context {St : Type} `{RedisServer St}.

(** The server at the other end of a connection reads the bytes of the command
    and answers. *)
Definition exchange (now : Z) (args : list string) (s : St) : St * connection :=
  match readCommand (command args) with
  | Some (args, _) => let '(s, reply) := serve now args s in (s, answers reply)
  | None => (s, noWrite)
  end.

Definition setOver (now : Z) (key val : string) (ttl : Z) (s : St) : St * result redisError bool :=
  let '(s, c) := exchange now (setArgs key val ttl) s in (s, RedisSetNX c).
Definition getOver (now : Z) (key : string) (s : St) : St * result redisError string :=
  let '(s, c) := exchange now ["GET"; key] s in (s, RedisGet c).

(** From [now] on, server and memory hold the same live keys. *)
Definition agrees (now : Z) (m : MemCache) (s : St) : Prop := forall t k, now <= t -> live t m k = value t s k.

Lemma exchange_serve now args s : exchange now args s = ((serve now args s).1, answers (serve now args s).2).
Proof.
  unfold exchange. pose proof (resp_roundtrip args "") as E. rewrite str_app_nil_r in E. rewrite E. by destruct (serve now args s).
Qed.


(** Over a connection that holds, the Redis cache is the cache in memory:
    with a lifetime of whole milliseconds SetNX answers the same and leaves the
    same live keys, and Get finds the same value or misses. *)
Theorem redis_refines_memory now m s key val ms : agrees now m s -> 0 < ms ->
  let '(s', r) := setOver now key val (ms * 1000000) s in
  let '(m', fresh) := SetNX now key val (ms * 1000000) m in
  r = Ok fresh /\ agrees now m' s' /\
  (forall k v, MemCacheGet now k m' = Some v -> Str.len v < two63 - 2 -> getOver now k s' = (s', Ok v)) /\
  (forall k, MemCacheGet now k m' = None -> getOver now k s' = (s', Err (refusedWith "nil"))).
Proof.
  intros Ha Hms. assert (Hget : forall m' s', agrees now m' s' ->
    (forall k v, MemCacheGet now k m' = Some v -> Str.len v < two63 - 2 -> getOver now k s' = (s', Ok v)) /\
    (forall k, MemCacheGet now k m' = None -> getOver now k s' = (s', Err (refusedWith "nil")))).
  { intros m' s' Ha'. split.
    - intros k v Hk Hv. unfold getOver. rewrite exchange_serve, get_value. cbn [fst snd]. unfold MemCacheGet in Hk. rewrite (Ha' now k) in Hk by lia.
      rewrite Hk. unfold RedisGet, cmd. by rewrite readReply_bulk.
    - intros k Hk. unfold getOver. rewrite exchange_serve, get_value. cbn [fst snd]. unfold MemCacheGet in Hk. rewrite (Ha' now k) in Hk by lia.
      rewrite Hk. reflexivity. }
  unfold setOver, setArgs. rewrite Z.quot_mul by lia. rewrite exchange_serve. unfold SetNX. destruct (live now m key) as [x|] eqn:El.
  - rewrite (Ha now key) in El by lia. rewrite (set_live now key val ms s x El). cbn [fst snd]. unfold RedisSetNX, cmd. rewrite readReply_nil.
    split; [done|]. split; [exact Ha|]. by apply Hget.
  - pose proof El as Ev. rewrite (Ha now key) in Ev by lia. destruct (set_fresh now key val ms s Hms Ev) as [Hok Hval].
    destruct (serve now _ s) as [s' reply]. cbn [fst snd] in *. subst reply. unfold RedisSetNX, cmd. rewrite readReply_ok. split; [done|].
    assert (Ha' : agrees now (<[key := (val, now + ms * 1000000)]> m) s').
    { intros t k Ht. rewrite (Hval t k Ht). unfold live. destruct (decide (k = key)) as [->|Hne]; [by rewrite lookup_insert_eq|].
      rewrite lookup_insert_ne by congruence. by apply Ha. }
    split; [exact Ha'|]. by apply Hget.
Qed.
End Refinement.

(** ** Reserved keys *)

Lemma PutReceipt_refused w f r st st' e : PutReceipt w f r st = (st', Err e) -> receipts st' = receipts st.
Proof.
  unfold PutReceipt. destruct (receipts st !! rc_ID r); [done|]. destruct (logOpen st); [|done]. destruct (negb w); [by intros [= <- _]|].
  destruct (syncHighWater <=? _); [|done]. unfold flushLocked. destruct (_ || _); [done|]. destruct (negb f); [by intros [= <- _]|done].
Qed.

Lemma processReceipt_refused `{Crypto} env rc idem s s' e : processReceipt env rc idem s = (s', Err e) ->
  receipts (s_store s') = receipts (s_store s) /\ s_cache s' = s_cache s.
Proof.
  unfold processReceipt. destruct (processLines _ _ _ _) as [t|]; [|by intros [= <- _]]. destruct (geo env _ _) as [g|]; [|by intros [= <- _]].
  destruct (PutReceipt _ _ _ _) as [st [u|e']] eqn:Ep; [done|]. intros [= <- _]. split; [|by destruct s]. destruct s. cbn in *. by eapply PutReceipt_refused.
Qed.

(** A receipt whose processing fails cannot be sent again: the key it
    reserved stays, so every further request with it in the next seven days -
    with the clock, the disk and the geo service in order - is answered 409
    and nothing is stored. *)
Theorem failed_ingest_blocks_retry `{Crypto} env env' req req' s s1 :
  handleIngestReceipt env req s = (s1, Problem 422 "processing failed") -> cacheOk env' = true ->
  idemOf (iq_Receipt req') = idemOf (iq_Receipt req) -> Lines (iq_Receipt req') <> [] -> ReceiptNo (iq_Receipt req') <> "" ->
  now env <= now env' < now env + idemTTL ->
  handleIngestReceipt env' req' s1 = (s1, Problem 409 "conflict").
Proof.
  intros Hi Hc Hk HL HN Ht. unfold handleIngestReceipt in Hi. destruct (_ || _) eqn:Ev in Hi; [done|].
  destruct (GetReceipt (receiptIdOf (idemOf (iq_Receipt req))) (s_store s)) as [x|] eqn:Eg; [done|].
  destruct (negb (cacheOk env)); [done|]. destruct (SetNX (PosReceipt.now env) _ _ _ _) as [c fresh] eqn:Es.
  destruct fresh; cbn [negb] in Hi; [|change (s_store (with_cache c s)) with (s_store s) in Hi; by rewrite Eg in Hi]. destruct (StoreAndForward req); [by destruct (Spool _ _ _) as [? []]|].
  destruct (processReceipt _ _ _ _) as [s2 [r|e]] eqn:Ep; [done|]. injection Hi as <-.
  destruct (processReceipt_refused _ _ _ _ _ _ Ep) as [Hr Hcache].
  assert (Hlive : live (PosReceipt.now env') (s_cache s2) ("idem:" +:+ idemOf (iq_Receipt req)) = Some "1").
  { rewrite Hcache. destruct s. cbn. unfold SetNX in Es. destruct (live _ _ _); [done|]. injection Es as <-. unfold live. rewrite lookup_insert_eq.
    destruct (Z.ltb_spec (PosReceipt.now env') (PosReceipt.now env + idemTTL)); [done|lia]. }
  assert (Hnone : GetReceipt (receiptIdOf (idemOf (iq_Receipt req))) (s_store s2) = None).
  { unfold GetReceipt in *. rewrite Hr. by destruct s. }
  unfold handleIngestReceipt. rewrite !bool_decide_eq_false_2 by done. cbn [orb]. rewrite Hk, Hnone, Hc. cbn [negb].
  unfold SetNX. rewrite Hlive. cbn [negb]. destruct s2. cbn in *. by rewrite Hnone.
Qed.

(** ** Witnesses *)

Lemma digits_pretty_pos (ms : Z) : 0 < ms -> Str.digits_val (pretty ms) = ms.
Proof.
  intros Hm. destruct ms as [|p|p]; [lia| |lia]. change (pretty (Z.pos p)) with (pretty (N.pos p)).
  pose proof (digits_val_count (Pos.to_nat p)) as E. unfold count in E. rewrite positive_nat_N in E. rewrite E. lia.
Qed.

Definition toy_serve (now : Z) (args : list string) (s : MemCache) : MemCache * string :=
  match args with
  | ["SET"; k; v; "PX"; d; "NX"] =>
      match live now s k with
      | Some _ => (s, "$-1" +:+ CRLF)
      | None => (<[k := (v, now + Str.digits_val d * 1000000)]> s, "+OK" +:+ CRLF)
      end
  | ["GET"; k] => (s, match live now s k with Some v => bulk v | None => "$-1" +:+ CRLF end)
  | _ => (s, "-ERR" +:+ CRLF)
  end.

#[local] Program Instance toy_redis : RedisServer MemCache := { serve := toy_serve; value t s k := live t s k }.
Next Obligation.
  cbn. intros now k v ms s Hms Hk. rewrite Hk. cbn [fst snd]. split; [done|]. intros t k' Ht. unfold live at 1.
  destruct (decide (k' = k)) as [->|Hne]; [rewrite lookup_insert_eq, digits_pretty_pos by done; done|]. by rewrite lookup_insert_ne by congruence.
Qed.
Next Obligation. cbn. intros now k v ms s x Hk. by rewrite Hk. Qed.
Next Obligation. done. Qed.

Lemma redis_refines_memory_witness :
  let '(s', r) := setOver 5 "idem:a" "1" (7 * 1000000) (∅ : MemCache) in
  let '(m', fresh) := SetNX 5 "idem:a" "1" (7 * 1000000) ∅ in
  r = Ok fresh /\ agrees 5 m' s' /\
  (forall k v, MemCacheGet 5 k m' = Some v -> Str.len v < two63 - 2 -> getOver 5 k s' = (s', Ok v)) /\
  (forall k, MemCacheGet 5 k m' = None -> getOver 5 k s' = (s', Err (refusedWith "nil"))).
Proof.
  apply (redis_refines_memory 5 ∅ (∅ : MemCache) "idem:a" "1" 7).
  - intros t k _. reflexivity.
  - lia.
Defined.

Definition no_place (env : Env) : Env :=
  mkEnv (now env) (nowRFC3339 env) (freshULID env) (fun _ _ => None) (resolver env) (PosReceipt.AttributionMode env) (tinKey env) true true true.

Lemma failed_ingest_blocks_retry_witness :
  let s1 := (handleIngestReceipt (H := Toy.crypto) (no_place demo_env) (demo_request "" "") demo_service).1 in
  handleIngestReceipt (H := Toy.crypto) demo_env (demo_request "" "") s1 = (s1, Problem 409 "conflict").
Proof.
  apply (@failed_ingest_blocks_retry Toy.crypto (no_place demo_env) demo_env (demo_request "" "") (demo_request "" "") demo_service).
  - vm_compute. reflexivity.
  - reflexivity.
  - reflexivity.
  - discriminate.
  - discriminate.
  - cbn. unfold idemTTL. lia.
Defined.
