(* ===== verification/Geo.v ===== *)
(** * pos-vat: state and LGA attribution of a point (services/pos-vat/geo.go)

    Coordinates are binary64 floats ([spec_float]); the arithmetic is that of
    the Standard Library's specification of IEEE 754. *)

From S2P Require Import Prelude GoAny Yaml PosStore Citation PosReceipt.

Definition fadd := SFadd 53 1024.
Definition fsub := SFsub 53 1024.
Definition fmul := SFmul 53 1024.
Definition fdiv := SFdiv 53 1024.
Definition fsqrt := SFsqrt 53 1024.

(** [z / 100] as a float literal *)
Definition cent (z : Z) : spec_float := decimal_float false z (-2).

(** [math.MaxFloat64] *)
Definition MaxFloat64 : spec_float := S754_finite false (2 ^ 53 - 1) 971.

(** [math.Hypot] *)
Definition is_inf (f : spec_float) : bool := match f with S754_infinity _ => true | _ => false end.
Definition Hypot (p q : spec_float) : spec_float :=
  let p := SFabs p in let q := SFabs q in
  if is_inf p || is_inf q then S754_infinity false
  else
    let '(p, q) := if SFltb p q then (q, p) else (p, q) in
    if SFeqb p (S754_zero false) then S754_zero false
    else let q := fdiv q p in fmul p (fsqrt (fadd (float_of_int 1) (fmul q q))).

Record bbox := mkBbox {
  b_state : string;
  minLat : spec_float; maxLat : spec_float;
  minLon : spec_float; maxLon : spec_float;
}.
Definition box (s : string) (a b c d : Z) : bbox := mkBbox s (cent a) (cent b) (cent c) (cent d).

Definition stateBoxes : list bbox :=
  [box "Lagos" 635 675 265 435;
   box "Ogun" 655 795 265 465;
   box "Oyo" 705 925 265 485;
   box "Osun" 695 815 405 515;
   box "Ondo" 585 795 435 605;
   box "Edo" 575 755 505 675;
   box "Delta" 495 655 505 685;
   box "Rivers" 435 575 635 765;
   box "Bayelsa" 435 565 565 665;
   box "Akwa Ibom" 455 555 745 845;
   box "Cross River" 475 695 785 945;
   box "Anambra" 575 685 655 755;
   box "Enugu" 595 715 705 795;
   box "Imo" 515 605 675 755;
   box "Abia" 485 595 715 805;
   box "Ebonyi" 565 685 755 855;
   box "FCT" 825 925 645 765;
   box "Nasarawa" 765 895 715 895;
   box "Plateau" 815 1035 835 1065;
   box "Benue" 655 825 745 995;
   box "Kogi" 655 875 555 795;
   box "Kwara" 795 965 275 605;
   box "Niger" 815 1135 355 735;
   box "Kaduna" 915 1155 615 875;
   box "Kano" 1035 1245 775 1045;
   box "Katsina" 1115 1335 685 925;
   box "Jigawa" 1115 1315 805 1045;
   box "Sokoto" 1215 1385 395 675;
   box "Zamfara" 1085 1325 555 725;
   box "Kebbi" 1015 1285 355 625;
   box "Bauchi" 965 1255 855 1105;
   box "Gombe" 985 1135 1055 1215;
   box "Yobe" 1055 1335 975 1255;
   box "Borno" 1005 1375 1155 1475;
   box "Adamawa" 745 1095 1135 1375;
   box "Taraba" 645 955 945 1175;
   box "Ekiti" 715 815 475 575].

Record lgaCentroid := mkLgaCentroid { lga : string; c_lat : spec_float; c_lon : spec_float }.
Definition centroid (s : string) (a b : Z) : lgaCentroid := mkLgaCentroid s (cent a) (cent b).

Definition lgaCentroids : list (string * list lgaCentroid) :=
  [("Lagos", [centroid "Ikeja" 660 335; centroid "Eti-Osa" 645 360; centroid "Lagos Island" 645 340; centroid "Surulere" 650 335; centroid "Alimosho" 661 325; centroid "Ikorodu" 662 351; centroid "Lekki" 644 370]);
   ("FCT", [centroid "Abuja Municipal" 906 749; centroid "Gwagwalada" 894 708; centroid "Kuje" 888 723]);
   ("Kano", [centroid "Kano Municipal" 1200 852; centroid "Nassarawa" 1199 855; centroid "Fagge" 1202 852]);
   ("Rivers", [centroid "Port Harcourt" 482 701; centroid "Obio-Akpor" 490 698; centroid "Eleme" 479 712]);
   ("Oyo", [centroid "Ibadan North" 740 390; centroid "Ibadan South-West" 737 388; centroid "Egbeda" 738 395]);
   ("Kaduna", [centroid "Kaduna North" 1055 744; centroid "Kaduna South" 1048 742; centroid "Zaria" 1107 770]);
   ("Enugu", [centroid "Enugu North" 646 751; centroid "Enugu South" 643 750]);
   ("Anambra", [centroid "Onitsha North" 615 679; centroid "Awka South" 621 707; centroid "Nnewi North" 602 692]);
   ("Delta", [centroid "Warri South" 552 575; centroid "Oshimili South" 618 670]);
   ("Borno", [centroid "Maiduguri" 1185 1315])].

Definition inBox (lat lon : spec_float) (b : bbox) : bool :=
  SFleb (minLat b) lat && SFleb lat (maxLat b) && SFleb (minLon b) lon && SFleb lon (maxLon b).

Definition outOfBounds (lat lon : spec_float) : bool :=
  SFltb lat (cent 350) || SFltb (cent 1420) lat || SFltb lon (cent 250) || SFltb (cent 1500) lon.

(** One round of the loop over the boxes: the best distance and its state *)
Definition boxStep (lat lon : spec_float) (acc : spec_float * string) (b : bbox) : spec_float * string :=
  if inBox lat lon b then
    let two := float_of_int 2 in
    let d := Hypot (fsub lat (fdiv (fadd (minLat b) (maxLat b)) two))
                   (fsub lon (fdiv (fadd (minLon b) (maxLon b)) two)) in
    if SFltb d acc.1 then (d, b_state b) else acc
  else acc.

Definition centroidStep (lat lon : spec_float) (acc : spec_float * string) (c : lgaCentroid)
  : spec_float * string :=
  let d := Hypot (fsub lat (c_lat c)) (fsub lon (c_lon c)) in
  if SFltb d acc.1 then (d, lga c) else acc.

Definition centroidsOf (state : string) : list lgaCentroid :=
  match List.find (fun kv => bool_decide (kv.1 = state)) lgaCentroids with
  | Some kv => kv.2
  | None => []
  end.

Definition EmbeddedGeo_AttributePoint (lat lon : spec_float) : option GeoAttribution :=
  if outOfBounds lat lon then None
  else
    let state := (foldl (boxStep lat lon) (MaxFloat64, "") stateBoxes).2 in
    if bool_decide (state = "") then None
    else
      let lga := (foldl (centroidStep lat lon) (MaxFloat64, state +:+ " (unresolved)") (centroidsOf state)).2 in
      Some (mkGeoAttribution state lga "embedded").

(** What the geo service answered *)
Inductive geoReply :=
| netError
| badStatus
| badBody
| reply (state lga : string).

Definition HTTPGeo_AttributePoint (svc : spec_float -> spec_float -> geoReply) (lat lon : spec_float)
  : option GeoAttribution :=
  match svc lat lon with
  | netError =>
      match EmbeddedGeo_AttributePoint lat lon with
      | Some g => Some (mkGeoAttribution (g_State g) (g_LGA g) "embedded-fallback")
      | None => None
      end
  | badStatus | badBody => EmbeddedGeo_AttributePoint lat lon
  | reply state lga => Some (mkGeoAttribution state lga "geo-svc")
  end.

(** ** Auxiliary lemmas *)

(** A search that keeps the best candidate returns its start or a candidate. *)
Lemma foldl_candidate {A B} (step : A * string -> B -> A * string) (P : B -> string -> Prop)
  (l : list B) (acc : A * string) :
  (forall a b, b ∈ l -> step a b = a \/ P b (step a b).2) ->
  (foldl step acc l).2 = acc.2 \/ exists b, b ∈ l /\ P b (foldl step acc l).2.
Proof.
  revert acc. induction l as [|b l IH]; intros acc Hs; simpl; [by left|].
  destruct (IH (step acc b)) as [-> | (b' & Hb' & HP)]; [intros; apply Hs; set_solver| |].
  - destruct (Hs acc b ltac:(set_solver)) as [-> | HP]; [by left|]. right. exists b. set_solver.
  - right. exists b'. set_solver.
Qed.

(** ** Properties *)

(** Attribution by the embedded table is sound: the state it returns is
    one whose bounding box contains the point, and the LGA is one of that
    state's listed ones or is marked unresolved. *)
Theorem geo_attribution_sound (lat lon : spec_float) (g : GeoAttribution) :
  EmbeddedGeo_AttributePoint lat lon = Some g ->
  outOfBounds lat lon = false /\
  (exists b, b ∈ stateBoxes /\ b_state b = g_State g /\ inBox lat lon b = true) /\
  (g_LGA g = g_State g +:+ " (unresolved)" \/ exists c, c ∈ centroidsOf (g_State g) /\ lga c = g_LGA g).
Proof.
  unfold EmbeddedGeo_AttributePoint. destruct (outOfBounds lat lon) eqn:Ho; [done|].
  assert (Hc : forall a b, b ∈ stateBoxes -> boxStep lat lon a b = a \/
    (b_state b = (boxStep lat lon a b).2 /\ inBox lat lon b = true)).
  { intros a b _. unfold boxStep. destruct (inBox lat lon b) eqn:Hb; [|by left].
    destruct (SFltb _ _); [by right | by left]. }
  pose proof (foldl_candidate (boxStep lat lon)
    (fun b s => b_state b = s /\ inBox lat lon b = true) stateBoxes (MaxFloat64, "") Hc) as H.
  revert H. generalize (foldl (boxStep lat lon) (MaxFloat64, "") stateBoxes) as r. intros r H. cbv zeta.
  assert (Hd : forall a c, c ∈ centroidsOf r.2 -> centroidStep lat lon a c = a \/
    lga c = (centroidStep lat lon a c).2).
  { intros a c _. unfold centroidStep. destruct (SFltb _ _); [by right | by left]. }
  pose proof (foldl_candidate (centroidStep lat lon) (fun c s => lga c = s) (centroidsOf r.2)
    (MaxFloat64, r.2 +:+ " (unresolved)") Hd) as H'.
  revert H'. generalize (foldl (centroidStep lat lon) (MaxFloat64, r.2 +:+ " (unresolved)") (centroidsOf r.2)) as r'.
  intros r' H'. case_bool_decide as Hs; [done|]. intros [= <-]. simpl in *.
  split; [done|]. split; [by destruct H | done].
Qed.

Lemma geo_attribution_sound_witness :
  EmbeddedGeo_AttributePoint (cent 660) (cent 335) = Some (mkGeoAttribution "Lagos" "Ikeja" "embedded") /\
  outOfBounds (cent 660) (cent 335) = false.
Proof.
  split; [vm_compute; reflexivity|].
  apply (geo_attribution_sound (cent 660) (cent 335) (mkGeoAttribution "Lagos" "Ikeja" "embedded")).
  vm_compute. reflexivity.
Defined.
