(* ===== verification/CitationIndex.v ===== *)
(** * The citation index (packages/shared/rulepack/citation.go)

    Where the coverage documents come from, what the reverse index holds, and
    the sorting of its entries: [Resolve] sorts the slice of the index in place,
    without a lock, and every request of a service shares that slice.  A
    goroutine is a program counter over Go's insertion sort; an interleaving is
    a list of turns.  Go sorts slices of at most twelve entries this way; for
    longer ones, whose order alone is the same, the interleavings here are those
    of an insertion sort, not of the code.  [Citation.Resolve] is what a request
    gets alone. *)

From S2P Require Import Prelude StrFacts PosStore Citation.

(** ** The documents *)

(** [readDir]: the entries of a directory with whether each is a directory, in
    their order; [readFile]: a file of a directory; [decode]: the YAML decoder;
    [embeddedCoverage]: the names and contents in the binary *)
Record coverageFiles := mkCoverageFiles {
  readDir : string -> option (list (string * bool));
  readFile : string -> string -> option string;
  decode : string -> option coverageDoc;
  embeddedCoverage : list (string * string);
}.

Definition addData (fs : coverageFiles) (r : CitationResolver) (data : string) : CitationResolver :=
  match decode fs data with Some doc => addDoc r doc | None => r end.

(** [envDir] is LCE_COVERAGE_DIR. *)
Definition NewResolver (fs : coverageFiles) (dir envDir : string) : CitationResolver :=
  let dir := if bool_decide (dir = "") then envDir else dir in
  if bool_decide (dir = "") then
    foldl (fun r e => if Str.has_suffix e.1 ".yaml" then addData fs r e.2 else r) ∅ (embeddedCoverage fs)
  else
    match readDir fs dir with
    | None => ∅
    | Some entries =>
        foldl (fun r e =>
          if e.2 || negb (Str.has_suffix e.1 ".yaml") then r
          else match readFile fs dir e.1 with Some data => addData fs r data | None => r end) ∅ entries
    end.

(** ** The sort *)

Definition hitLess (a b : sectionHit) : bool := String.ltb (hitKey a) (hitKey b).

#[global] Arguments hitLess : simpl never.

(** Where a goroutine stands in the insertion sort of [sort.Slice], which it is
    for at most twelve elements: at the comparison of element [j] with the one
    before, or in the swap of the two, which saves one, moves the other and puts
    the first back *)
Inductive pc :=
| compare (i j : nat)
| save (i j : nat)
| move (i j : nat) (tmp : sectionHit)
| put (i j : nat) (tmp : sectionHit)
| finished.

(** The head of the outer loop *)
Definition outer (n i : nat) : pc := if (i <? n)%nat then compare i i else finished.
Definition start (l : list sectionHit) : pc := outer (length l) 1.

(** One step of a goroutine on the shared slice *)
Definition step (st : list sectionHit * pc) : list sectionHit * pc :=
  let '(l, p) := st in
  match p with
  | compare i O => (l, outer (length l) (S i))
  | compare i (S k) =>
      match l !! S k, l !! k with
      | Some x, Some y => if hitLess x y then (l, save i (S k)) else (l, outer (length l) (S i))
      | _, _ => (l, finished)
      end
  | save i j => match l !! j with Some x => (l, move i j x) | None => (l, finished) end
  | move i j tmp => match l !! pred j with Some y => (<[j := y]> l, put i j tmp) | None => (l, finished) end
  | put i j tmp => (<[pred j := tmp]> l, compare i (pred j))
  | finished => (l, finished)
  end.

(** One goroutine after another takes a turn on the slice *)
Definition turn (st : list sectionHit * list pc) (who : nat) : list sectionHit * list pc :=
  match st.2 !! who with
  | None => st
  | Some p => let '(l, p) := step (st.1, p) in (l, <[who := p]> st.2)
  end.
Definition interleave (l : list sectionHit) (ps : list pc) (schedule : list nat) : list sectionHit * list pc :=
  foldl turn (l, ps) schedule.

(** The reference: all pairs of statute and section whose rules name the key,
    in the order of the documents *)
Definition hitsFor (key : string) (docs : list coverageDoc) : list sectionHit :=
  flat_map (fun doc =>
    if bool_decide (cs_ID (cd_Statute doc) = "") then []
    else flat_map (fun sec => flat_map (fun ref =>
           if bool_decide (Str.trim_space ref = key) then [mkSectionHit (cd_Statute doc) sec] else [])
         (ImplementingRules sec)) (Sections doc)) docs.

(** Two hits with one key are the same hit. *)
Definition keyed (l : list sectionHit) : Prop := forall a b, a ∈ l -> b ∈ l -> hitKey a = hitKey b -> a = b.

(** ** Auxiliary lemmas *)

Section Index.

Definition hitsAt (r : CitationResolver) (key : string) : list sectionHit := default [] (r !! key).

Lemma addRefs_hits st sec refs key r : key <> "" ->
  hitsAt (foldl (addRef st sec) r refs) key =
  hitsAt r key ++ flat_map (fun ref => if bool_decide (Str.trim_space ref = key) then [mkSectionHit st sec] else []) refs.
Proof.
  intros Hk. revert r. induction refs as [|ref refs IH]; intros r; cbn [foldl flat_map]; [by rewrite app_nil_r|].
  rewrite IH. unfold addRef. set (k := Str.trim_space ref). clearbody k.
  destruct (decide (k = "")) as [->|Hne].
  - rewrite (bool_decide_eq_true_2 ("" = "")), (bool_decide_eq_false_2 ("" = key)) by congruence. done.
  - rewrite (bool_decide_eq_false_2 (k = "")) by done. unfold hitsAt at 1. case_bool_decide as Hd.
    + subst k. rewrite lookup_insert_eq. cbn [default from_option id]. by rewrite <- app_assoc.
    + by rewrite lookup_insert_ne.
Qed.

Lemma addDoc_hits doc key r : key <> "" -> hitsAt (addDoc r doc) key = hitsAt r key ++ hitsFor key [doc].
Proof.
  intros Hk. unfold addDoc, hitsFor. cbn [flat_map]. case_bool_decide; [by rewrite app_nil_r|]. rewrite app_nil_r.
  revert r. induction (Sections doc) as [|sec secs IH]; intros r; cbn [foldl flat_map]; [by rewrite app_nil_r|].
  rewrite IH, addRefs_hits by done. by rewrite <- app_assoc.
Qed.

Lemma index_hits docs key : key <> "" -> hitsAt (NewCitationResolver docs) key = hitsFor key docs.
Proof.
  intros Hk. unfold NewCitationResolver. induction docs as [|doc docs IH] using rev_ind; [done|].
  rewrite foldl_app. cbn [foldl]. rewrite addDoc_hits, IH by done. unfold hitsFor. by rewrite flat_map_app.
Qed.
End Index.

Section Order.
Lemma hit_le_keys a b : hit_le a b <-> String.le (hitKey a) (hitKey b).
Proof. unfold hit_le, String.le. symmetry. apply Is_true_true. Qed.

#[export] Instance hit_le_trans : Transitive hit_le.
Proof. intros a b c. rewrite !hit_le_keys. apply transitivity. Qed.
#[export] Instance hit_le_total : Total hit_le.
Proof. intros a b. rewrite !hit_le_keys. apply (total String.le). Qed.

Lemma hitLess_spec a b : hitLess a b = negb (String.leb (hitKey b) (hitKey a)).
Proof.
  unfold hitLess, String.ltb, String.leb. rewrite String.compare_antisym. by destruct (String.compare _ _).
Qed.

Lemma hitLess_le a b : hitLess a b = true -> hit_le a b.
Proof. rewrite hitLess_spec. intros H. apply negb_true_iff in H. destruct (total hit_le a b) as [|Hb]; [done|]. unfold hit_le in Hb. congruence. Qed.

Lemma hitLess_not a b : hitLess a b = false -> hit_le b a.
Proof. rewrite hitLess_spec. intros H. by apply negb_false_iff in H. Qed.

Lemma sorted_unique l1 l2 : keyed l1 -> l1 ≡ₚ l2 -> StronglySorted hit_le l1 -> StronglySorted hit_le l2 -> l1 = l2.
Proof.
  intros Hk Hp H1 H2. apply (StronglySorted_unique_strong hit_le); [|done..].
  intros x y Hx Hy Hxy Hyx. apply Hk; [done | by rewrite Hp |]. apply (anti_symm String.le); by apply hit_le_keys.
Qed.

Lemma merged_sorted l : StronglySorted hit_le (merge_sort hit_le l).
Proof. apply Sorted_StronglySorted; [intros x y z; apply transitivity | apply Sorted_merge_sort, _]. Qed.
End Order.

(** ** A goroutine alone *)

Section Alone.

Definition steps : relation (list sectionHit * pc) := rtc (fun a b => step a = b).

Lemma one_step a b : step a = b -> steps a b.
Proof. intros H. unfold steps. eapply rtc_l; [exact H | apply rtc_refl]. Qed.

(** The element [x] sinks into the sorted elements before it; [q] are those it
    has passed. *)
Lemma sinks p x q rest :
  StronglySorted hit_le (p ++ q) -> Forall (hit_le x) q ->
  exists l', l' ≡ₚ p ++ x :: q /\ StronglySorted hit_le l' /\
    steps (p ++ x :: q ++ rest, compare (length p + length q) (length p))
          (l' ++ rest, outer (length (p ++ x :: q ++ rest)) (S (length p + length q))).
Proof.
  revert q. induction p as [|y p IH] using rev_ind; intros q Hs Hq.
  { exists (x :: q). split; [done|]. split; [by constructor|]. by apply one_step. }
  rewrite length_app, Nat.add_1_r. cbn [length]. rewrite <- !app_assoc in *. cbn [app] in *.
  assert (Hx : (p ++ y :: x :: q ++ rest) !! S (length p) = Some x)
    by (rewrite lookup_app_r by lia; replace (S (length p) - length p)%nat with 1%nat by lia; done).
  assert (Hy : (p ++ y :: x :: q ++ rest) !! length p = Some y) by (by apply list_lookup_middle).
  assert (Hc : step (p ++ y :: x :: q ++ rest, compare (S (length p) + length q) (S (length p))) =
    (p ++ y :: x :: q ++ rest, if hitLess x y then save (S (length p) + length q) (S (length p))
       else outer (length (p ++ y :: x :: q ++ rest)) (S (S (length p) + length q)))).
  { cbn [step]. rewrite Hx, Hy. by destruct (hitLess x y). }
  destruct (hitLess x y) eqn:E.
  - destruct (IH (y :: q)) as (l' & Hp & Hs' & Hr); [done | constructor; [by apply hitLess_le|done]|].
    exists l'. split; [rewrite Hp; by rewrite <- Permutation_middle, (Permutation_swap x y), Permutation_middle|].
    split; [done|]. eapply rtc_l; [exact Hc|].
    eapply rtc_l; [cbn [step]; rewrite Hx; reflexivity|].
    eapply rtc_l; [cbn [step pred]; rewrite Hy; reflexivity|].
    eapply rtc_l; [reflexivity|]. cbn [step pred].
    assert (El : <[length p:=x]> (<[S (length p):=y]> (p ++ y :: x :: q ++ rest)) = p ++ x :: (y :: q) ++ rest).
    { rewrite (insert_app_r_alt p _ (S (length p))) by lia. rewrite (insert_app_r_alt p _ (length p)) by lia.
      replace (S (length p) - length p)%nat with 1%nat by lia. by rewrite Nat.sub_diag. }
    rewrite El. cbn [length] in Hr. rewrite Nat.add_succ_r in Hr.
    replace (length (p ++ y :: x :: q ++ rest)) with (length (p ++ x :: (y :: q) ++ rest)) by (rewrite !length_app; done).
    exact Hr.
  - exists (p ++ y :: x :: q). split; [done|]. split.
    + apply hitLess_not in E. rewrite StronglySorted_app in Hs |- *. destruct Hs as (H1 & H2 & H3).
      rewrite StronglySorted_cons in H3 |- *. destruct H3 as [H3 H4]. split; [|split; [exact H2|split]].
      * intros a b Ha Hb. apply elem_of_cons in Hb as [->|Hb]; [apply H1; set_solver|].
        apply elem_of_cons in Hb as [->|Hb]; [|apply H1; set_solver]. transitivity y; [apply H1; set_solver|exact E].
      * by constructor.
      * by constructor.
    + apply one_step. rewrite Hc. by rewrite <- app_assoc.
Qed.

Lemma sorts done_ todo : StronglySorted hit_le done_ ->
  exists l', l' ≡ₚ done_ ++ todo /\ StronglySorted hit_le l' /\
    steps (done_ ++ todo, outer (length (done_ ++ todo)) (length done_)) (l', finished).
Proof.
  revert done_. induction todo as [|x todo IH]; intros d Hd.
  { exists d. rewrite app_nil_r. split; [done|]. split; [done|]. unfold outer. rewrite Nat.ltb_irrefl. apply rtc_refl. }
  destruct (sinks d x [] todo) as (l1 & Hp & Hs & Hr); [by rewrite app_nil_r|constructor|].
  cbn [length app] in Hr. rewrite Nat.add_0_r in Hr.
  assert (Hl : length l1 = S (length d)) by (rewrite Hp, length_app; simpl; lia).
  destruct (IH l1 Hs) as (l' & Hp' & Hs' & Hr'). exists l'. split; [|split; [done|]].
  - rewrite Hp', Hp, <- app_assoc. done.
  - unfold outer at 1. rewrite (proj2 (Nat.ltb_lt _ _)) by (rewrite length_app; simpl; lia).
    etransitivity; [exact Hr|].
    replace (length (d ++ x :: todo)) with (length (l1 ++ todo)) by (rewrite !length_app, Hl; simpl; lia).
    rewrite <- Hl. exact Hr'.
Qed.

(** The sort ends, and leaves the slice as [merge_sort] gives it. *)
Lemma sort_alone l : keyed l -> steps (l, start l) (merge_sort hit_le l, finished).
Proof.
  intros Hk. assert (H : exists l', l' ≡ₚ l /\ StronglySorted hit_le l' /\ steps (l, start l) (l', finished)).
  { destruct l as [|x l]; [exists []; split; [done|]; split; [constructor|apply rtc_refl]|].
    apply (sorts [x] l). by repeat constructor. }
  destruct H as (l' & Hp & Hs & Hr). replace (merge_sort hit_le l) with l'; [exact Hr|].
  symmetry. apply sorted_unique; [|by rewrite merge_sort_Permutation|apply merged_sorted|exact Hs].
  intros a b. rewrite merge_sort_Permutation. apply Hk.
Qed.
End Alone.

(** ** Many goroutines *)

Section Shared.

(** On a sorted slice a goroutine only compares. *)
Definition idle (p : pc) : Prop := match p with compare _ _ => True | finished => True | _ => False end.

Lemma outer_idle n i : idle (outer n i).
Proof. unfold outer. by destruct (i <? n)%nat. Qed.

Lemma step_sorted l p : StronglySorted hit_le l -> keyed l -> idle p -> (step (l, p)).1 = l /\ idle (step (l, p)).2.
Proof.
  intros Hs Hk Hp. destruct p as [i [|k]| | | |]; try done; cbn [step fst snd]; [split; [done|apply outer_idle]|].
  destruct (l !! S k) as [x|] eqn:Ex; [|done]. destruct (l !! k) as [y|] eqn:Ey; [|done].
  assert (Hyx : hit_le y x).
  { rewrite <- (take_drop (S k) l) in Hs, Ex, Ey. apply lookup_lt_Some in Ex as Hlt. rewrite take_drop in Hlt.
    apply (StronglySorted_app_1_elem_of hit_le _ _ _ _ Hs).
    - rewrite lookup_app_l in Ey by (rewrite length_take; lia). by eapply list_elem_of_lookup_2.
    - rewrite lookup_app_r in Ex by (rewrite length_take; lia). by eapply list_elem_of_lookup_2. }
  rewrite hitLess_spec. unfold hit_le in Hyx. rewrite Hyx. cbn [negb]. split; [done|apply outer_idle].
Qed.
End Shared.

Section Interleaving.

Lemma interleave_sorted l ps schedule : StronglySorted hit_le l -> keyed l -> Forall idle ps ->
  (interleave l ps schedule).1 = l /\ Forall idle (interleave l ps schedule).2.
Proof.
  intros Hs Hk. unfold interleave. revert ps. induction schedule as [|who schedule IH]; intros ps Hps; [done|].
  cbn [foldl]. unfold turn at 2 4. cbn [fst snd]. destruct (ps !! who) as [p|] eqn:Ep; [|by apply IH].
  assert (Hp : idle p) by (eapply Forall_lookup_1; [exact Hps|exact Ep]).
  destruct (step_sorted l p Hs Hk Hp) as [Hl Hi]. destruct (step (l, p)) as [l' p']. cbn [fst snd] in Hl, Hi. subst l'.
  apply IH. by apply Forall_insert.
Qed.

Lemma turn_spec l ps who p l' p' :
  ps !! who = Some p -> step (l, p) = (l', p') -> turn (l, ps) who = (l', <[who := p']> ps).
Proof. intros Hp Hs. unfold turn. cbn [fst snd]. by rewrite Hp, Hs. Qed.

(** The turns by which the first of two goroutines finishes the swap the
    second has begun *)
Definition clash : list nat := [0; 1; 0; 1; 0; 0; 1; 1; 0; 1]%nat.

Lemma clash_spec a b : hitLess a b = true ->
  interleave [b; a] [start [b; a]; start [b; a]] clash = ([a; a], [finished; finished]).
Proof.
  intros H. unfold interleave, clash. change (start [b; a]) with (compare 1 1). cbn [foldl].
  repeat (erewrite turn_spec; [|reflexivity|cbn [step lookup list_lookup pred]; rewrite ?H; reflexivity]). reflexivity.
Qed.
End Interleaving.

Section Sources.

(** The documents that count *)
Definition coverageDocs (fs : coverageFiles) (dir envDir : string) : list coverageDoc :=
  let dir := if bool_decide (dir = "") then envDir else dir in
  if bool_decide (dir = "") then
    omap (fun e => if Str.has_suffix e.1 ".yaml" then decode fs e.2 else None) (embeddedCoverage fs)
  else
    match readDir fs dir with
    | None => []
    | Some entries =>
        omap (fun e => if e.2 || negb (Str.has_suffix e.1 ".yaml") then None
                       else data ← readFile fs dir e.1; decode fs data) entries
    end.

Lemma fold_docs {A} (f : CitationResolver -> A -> CitationResolver) (g : A -> option coverageDoc) l r :
  (forall r x, f r x = match g x with Some doc => addDoc r doc | None => r end) ->
  foldl f r l = foldl addDoc r (omap g l).
Proof.
  intros Hf. revert r. induction l as [|x l IH]; intros r; [done|]. cbn. rewrite Hf. destruct (g x); apply IH.
Qed.

Lemma NewResolver_docs fs dir envDir : NewResolver fs dir envDir = NewCitationResolver (coverageDocs fs dir envDir).
Proof.
  unfold NewResolver, coverageDocs, NewCitationResolver. cbv zeta.
  destruct (bool_decide ((if bool_decide (dir = "") then envDir else dir) = "")).
  - apply fold_docs. intros r e. by destruct (Str.has_suffix e.1 ".yaml").
  - destruct (readDir fs _) as [entries|]; [|done]. apply fold_docs. intros r e.
    destruct (_ || _); [done|]. by destruct (readFile fs _ e.1).
Qed.
End Sources.

Lemma Resolve_hits r packID version ruleID cit :
  StatuteSections (Resolve r packID version ruleID cit) =
    map hitKey (merge_sort hit_le (hitsAt r (packID +:+ ":" +:+ ruleID))).
Proof. unfold Resolve. fold (hitsAt r (packID +:+ ":" +:+ ruleID)). by destruct (merge_sort hit_le _). Qed.

Lemma rule_key packID ruleID : packID +:+ ":" +:+ ruleID <> "".
Proof. by destruct packID. Qed.

Lemma keyed_perm l l' : l ≡ₚ l' -> keyed l -> keyed l'.
Proof. intros Hp Hk a b. rewrite <- Hp. apply Hk. Qed.

Lemma hitsFor_perm key docs docs' : docs ≡ₚ docs' -> hitsFor key docs ≡ₚ hitsFor key docs'.
Proof. apply Permutation_flat_map. Qed.

(** Two hits, sorted *)
Lemma merged_pair l x y : keyed l -> hit_le x y -> l ≡ₚ [x; y] -> merge_sort hit_le l = [x; y].
Proof.
  intros Hk Hxy Hp. apply sorted_unique; [apply (keyed_perm l); [by rewrite merge_sort_Permutation|exact Hk] | | apply merged_sorted|].
  - by rewrite merge_sort_Permutation.
  - repeat constructor. exact Hxy.
Qed.

(** ** Properties *)

(** A citation lists exactly the sections whose rules name the pack and the
    rule, once for each mention and in the order of their keys, over all the
    documents of the directory or of the binary; the order in which these are
    read does not matter. *)
Theorem citation_complete (fs : coverageFiles) (dir envDir packID version ruleID cit : string) :
  let docs := coverageDocs fs dir envDir in
  let key := packID +:+ ":" +:+ ruleID in
  let c := Resolve (NewResolver fs dir envDir) packID version ruleID cit in
  keyed (hitsFor key docs) ->
  StatuteSections c ≡ₚ map hitKey (hitsFor key docs) /\ StronglySorted String.le (StatuteSections c) /\
  forall docs', docs' ≡ₚ docs -> Resolve (NewCitationResolver docs') packID version ruleID cit = c.
Proof.
  intros docs key c Hk. subst c. rewrite Resolve_hits, NewResolver_docs. fold docs key.
  rewrite index_hits by apply rule_key. split; [by rewrite merge_sort_Permutation|]. split.
  - pose proof (merged_sorted (hitsFor key docs)) as Hs. induction Hs as [|a l Hs IH Ha]; cbn [map]; constructor; [exact IH|].
    apply Forall_forall. intros k Hin. apply list_elem_of_In, in_map_iff in Hin as (b & <- & Hb).
    rewrite Forall_forall in Ha. apply hit_le_keys, Ha, list_elem_of_In, Hb.
  - intros docs' Hp. unfold Resolve. fold key. change (default [] (NewCitationResolver docs' !! key)) with (hitsAt (NewCitationResolver docs') key).
    change (default [] (NewCitationResolver docs !! key)) with (hitsAt (NewCitationResolver docs) key).
    rewrite !index_hits by apply rule_key. apply (hitsFor_perm key) in Hp.
    rewrite (sorted_unique (merge_sort hit_le (hitsFor key docs')) (merge_sort hit_le (hitsFor key docs))); [done| | |apply merged_sorted..].
    + apply (keyed_perm (hitsFor key docs)); [by rewrite merge_sort_Permutation|exact Hk].
    + by rewrite !merge_sort_Permutation.
Qed.

(** With a coverage directory that cannot be read no citation names a
    statute, and nothing reports it. *)
Theorem unreadable_coverage_is_silent (fs : coverageFiles) (envDir packID version ruleID cit : string) :
  envDir <> "" -> readDir fs envDir = None ->
  Resolve (NewResolver fs "" envDir) packID version ruleID cit = mkCitation packID version ruleID "" "" "" cit [] "" false.
Proof.
  intros He Hr. unfold NewResolver. change (bool_decide ("" = "")) with true. cbv beta iota zeta.
  rewrite (bool_decide_eq_false_2 (envDir = "") He), Hr. unfold Resolve. by rewrite lookup_empty.
Qed.

(** C22: A request that runs alone leaves the slice of the index sorted as
    [Resolve] takes it; after that no interleaving of any number of requests
    changes it.  Two requests that meet before can: when both have seen the two
    hits of a rule out of order, the section of one of them is lost, and every
    later citation of that rule lists the other twice. *)
Theorem resolve_shares_index (hits : list sectionHit) :
  keyed hits ->
  let sorted := merge_sort hit_le hits in
  steps (hits, start hits) (sorted, finished) /\
  (forall requests schedule, (interleave sorted (repeat (start sorted) requests) schedule).1 = sorted) /\
  (forall a b (r : CitationResolver) packID version ruleID cit, hits = [b; a] -> hitLess a b = true ->
     exists schedule,
       interleave hits [start hits; start hits] schedule = ([a; a], [finished; finished]) /\
       StatuteSections (Resolve (<[packID +:+ ":" +:+ ruleID := [a; a]]> r) packID version ruleID cit) = [hitKey a; hitKey a] /\
       StatuteSections (Resolve (<[packID +:+ ":" +:+ ruleID := hits]> r) packID version ruleID cit) = [hitKey a; hitKey b]).
Proof.
  intros Hk sorted. split; [by apply sort_alone|]. split.
  - intros requests schedule. apply interleave_sorted; [apply merged_sorted | apply (keyed_perm hits); [by unfold sorted; rewrite merge_sort_Permutation|exact Hk]|].
    apply Forall_forall. intros p Hp. apply list_elem_of_In, repeat_spec in Hp as ->. apply outer_idle.
  - intros a b r packID version ruleID cit -> Hab. exists clash. split; [by apply clash_spec|].
    rewrite !Resolve_hits. unfold hitsAt. rewrite !lookup_insert_eq. cbn [default from_option id].
    assert (Haa : keyed [a; a]).
    { intros x y Hx Hy _. apply elem_of_cons in Hx as [->|Hx%list_elem_of_singleton];
        apply elem_of_cons in Hy as [->|Hy%list_elem_of_singleton]; congruence. }
    rewrite (merged_pair [a; a] a a Haa); [|apply hit_le_keys; reflexivity|reflexivity].
    rewrite (merged_pair [b; a] a b Hk); [done|by apply hitLess_le|apply Permutation_swap].
Qed.

(** ** Witnesses *)

Definition demo_statute (id : string) : coverageStatute := mkCoverageStatute id id false.
Definition demo_hit (id : string) : sectionHit := mkSectionHit (demo_statute id) (mkCoverageSection "s1" "Rate" ["p:r"] "charging").
Definition demo_docs : list coverageDoc :=
  [mkCoverageDoc (demo_statute "vat-act") [h_section (demo_hit "vat-act")]; mkCoverageDoc (demo_statute "nta") [h_section (demo_hit "nta")]].
Definition demo_files : coverageFiles :=
  mkCoverageFiles (fun dir => if bool_decide (dir = "/coverage") then Some [("a.yaml", false); ("b.yaml", false); ("old", true)] else None)
    (fun _ name => Some name)
    (fun data => if bool_decide (data = "a.yaml") then head demo_docs else if bool_decide (data = "b.yaml") then last demo_docs else None) [].

Lemma demo_hits_keyed : keyed [demo_hit "vat-act"; demo_hit "nta"].
Proof.
  intros x y Hx Hy. apply elem_of_cons in Hx as [->|Hx%list_elem_of_singleton]; apply elem_of_cons in Hy as [->|Hy%list_elem_of_singleton]; subst; done.
Qed.

Lemma citation_complete_witness :
  StatuteSections (Resolve (NewResolver demo_files "" "/coverage") "p" "1" "r" "") = ["nta:s1"; "vat-act:s1"] /\
  Resolve (NewCitationResolver (rev demo_docs)) "p" "1" "r" "" = Resolve (NewResolver demo_files "" "/coverage") "p" "1" "r" "".
Proof.
  split; [vm_compute; reflexivity|]. apply (citation_complete demo_files "" "/coverage" "p" "1" "r" ""); [exact demo_hits_keyed|].
  apply Permutation_swap.
Defined.

Lemma unreadable_coverage_is_silent_witness :
  Resolve (NewResolver demo_files "" "/gone") "p" "1" "r" "" = mkCitation "p" "1" "r" "" "" "" "" [] "" false.
Proof. apply unreadable_coverage_is_silent; [discriminate | reflexivity]. Defined.

Lemma resolve_shares_index_witness :
  steps ([demo_hit "vat-act"; demo_hit "nta"], start [demo_hit "vat-act"; demo_hit "nta"])
        (merge_sort hit_le [demo_hit "vat-act"; demo_hit "nta"], finished) /\
  exists schedule, interleave [demo_hit "vat-act"; demo_hit "nta"]
      [start [demo_hit "vat-act"; demo_hit "nta"]; start [demo_hit "vat-act"; demo_hit "nta"]] schedule =
    ([demo_hit "nta"; demo_hit "nta"], [finished; finished]).
Proof.
  destruct (resolve_shares_index [demo_hit "vat-act"; demo_hit "nta"] demo_hits_keyed) as (H & _ & Hr). split; [exact H|].
  destruct (Hr (demo_hit "nta") (demo_hit "vat-act") ∅ "p" "1" "r" "" eq_refl eq_refl) as (schedule & Hs & _).
  exists schedule. exact Hs.
Defined.
