(* ===== verification/PosSettle.v ===== *)
(** * pos-vat: the settlement saga (services/pos-vat/handlers.go)

    [settlePeriod] remits the federal, state and LGA legs of a period through
    the ledger contract [LedgerClient], with a durable marker and resumable
    deterministic transfer ids; [handleSettlementRecon] aggregates the
    unsettled receipts of the period, runs the saga and stamps them.  The
    theorems about crashes hold for every ledger that obeys [LedgerLaws]; the
    development ledger does ([DevLedger_laws]). *)

From S2P Require Import Prelude Crypto PosLedger GoAny PosPacks PosStore Citation PosReceipt.

Record leg := mkLeg {
  l_name : string;
  l_pendID : string;
  l_amount : Z;
  l_account : string;
}.

Inductive settleError :=
| markerNotPersisted
| legPendingFailed (name : string) (e : ledgerError)
| legPostFailed (name : string) (e : ledgerError) (resumable : bool).

(** The file operations of a call that succeed: the first and the last save
    of the marker, the writes that stamp the receipts, and their fsync *)
Record SettleIO := mkSettleIO {
  saveOk : bool;
  finalSaveOk : bool;
  stampOk : nat -> bool;
  stampSyncOk : bool;
}.

Section Saga.
Context `{Crypto} {L : Type} `{LedgerClient L}.

Definition legTransfer (merchant : string) (lg : leg) : LedgerTransfer :=
  mkLedgerTransfer (l_pendID lg) merchant (l_account lg) (l_amount lg) LedgerVATRemittance 5.

Definition isPostedLeg (id : string) (l : L) : bool :=
  match lc_GetTransfer id l with Ok ts => ts_Posted ts | Err _ => false end.

Definition isResumable (id : string) (l : L) : bool :=
  match lc_GetTransfer id l with
  | Ok ts => ts_Pending ts && negb (ts_Posted ts) && negb (ts_Voided ts)
  | Err _ => false
  end.

(** One leg: already posted, or held (a hold that exists is reused) and
    posted *)
Definition legStep (merchant : string) (lg : leg) (l : L) : L * result settleError unit :=
  if isPostedLeg (l_pendID lg) l then (l, Ok tt)
  else
    let '(l, r) := lc_PendingTransfer (legTransfer merchant lg) l in
    match r, lc_GetTransfer (l_pendID lg) l with
    | Err e, Err _ => (l, Err (legPendingFailed (l_name lg) e))
    | _, _ =>
        let '(l, r) := lc_PostPending (l_pendID lg) (l_amount lg) l in
        match r with
        | Ok _ => (l, Ok tt)
        | Err e => (l, Err (legPostFailed (l_name lg) e (isResumable (l_pendID lg) l)))
        end
    end.

(** Reverse every leg posted so far; the errors are dropped. *)
Definition reversal (tenant period merchant : string) (lg : leg) : LedgerTransfer :=
  mkLedgerTransfer (DeterministicTransferID ("posv-rev:" +:+ tenant +:+ ":" +:+ period +:+ ":" +:+ l_name lg))
    (l_account lg) merchant (l_amount lg) LedgerVATRemittance 3.

Definition compensate (tenant period merchant : string) (all : list leg) (posted : list string) (l : L) : L :=
  foldl (fun l lg =>
    if bool_decide (l_name lg ∈ posted)
    then (lc_Transfer (reversal tenant period merchant lg) l).1 else l) l all.

Fixpoint legsLoop (tenant period merchant : string) (all legs : list leg) (posted : list string) (l : L)
  : L * result settleError unit :=
  match legs with
  | [] => (l, Ok tt)
  | lg :: legs =>
      if l_amount lg <=? 0 then legsLoop tenant period merchant all legs posted l
      else
        let '(l, r) := legStep merchant lg l in
        match r with
        | Ok _ => legsLoop tenant period merchant all legs (l_name lg :: posted) l
        | Err (legPostFailed _ _ false as e) => (compensate tenant period merchant all posted l, Err e)
        | Err e => (l, Err e)
        end
  end.

Definition suffixOf (supp : Z) : string := if 0 <? supp then ":supp:" +:+ pretty supp else "".

Definition pendID (tenant period name : string) (supp : Z) : string :=
  DeterministicTransferID ("posv-pend:" +:+ tenant +:+ ":" +:+ period +:+ ":" +:+ name +:+ suffixOf supp).

Definition legsOf (tenant period : string) (federal state lga supp : Z) : list leg :=
  [ mkLeg "federal" (pendID tenant period "federal" supp) federal (accountID LedgerVATRemittance NSVATFederalPool);
    mkLeg "state" (pendID tenant period "state" supp) state (accountID LedgerVATRemittance NSVATStatePool);
    mkLeg "lga" (pendID tenant period "lga" supp) lga (accountID LedgerVATRemittance NSVATLGAPool) ].

Definition with_status (status reason : string) (sp : SettledPeriod) : SettledPeriod :=
  mkSettledPeriod (sp_TenantID sp) (sp_Period sp) (sp_FederalKobo sp) (sp_StateKobo sp) (sp_LGAKobo sp)
    (FederalPendingID sp) (StatePendingID sp) (LGAPendingID sp) (Supplements sp) status (ReconID sp) reason.

(** The marker of this attempt: reset for an initial settlement, accumulated
    for a supplemental one *)
Definition markerOf (tenant period : string) (federal state lga : Z) (reconID : string) (supp : Z)
  (old : option SettledPeriod) : SettledPeriod :=
  let sp := default (mkSettledPeriod tenant period 0 0 0 "" "" "" 0 "pending" "" "") old in
  let add x y := if supp =? 0 then y else x +! y in
  mkSettledPeriod (sp_TenantID sp) (sp_Period sp)
    (add (sp_FederalKobo sp) federal) (add (sp_StateKobo sp) state) (add (sp_LGAKobo sp) lga)
    (pendID tenant period "federal" supp) (pendID tenant period "state" supp)
    (pendID tenant period "lga" supp) supp "pending" reconID (FailReason sp).

Definition failReason (e : settleError) : string :=
  match e with legPostFailed name _ _ => name +:+ " post" | _ => "" end.

Definition settlePeriod (io : SettleIO) (tenant period merchant : string) (federal state lga : Z)
  (reconID : string) (supp : Z) (s : Store * L) : (Store * L) * result settleError unit :=
  let '(st, l) := s in
  let sp := markerOf tenant period federal state lga reconID supp (GetSettledPeriod tenant period st) in
  let '(st, r) := SaveSettledPeriod (saveOk io) sp st in
  match r with
  | Err _ => ((st, l), Err markerNotPersisted)
  | Ok _ =>
      let legs := legsOf tenant period federal state lga supp in
      let '(l, r) := legsLoop tenant period merchant legs legs [] l in
      match r with
      | Ok _ =>
          let '(st, r) := SaveSettledPeriod (finalSaveOk io) (with_status "settled" (FailReason sp) sp) st in
          ((st, l), match r with Ok _ => Ok tt | Err _ => Err markerNotPersisted end)
      | Err (legPostFailed _ _ _ as e) =>
          let '(st, _) := SaveSettledPeriod (finalSaveOk io) (with_status "failed" (failReason e) sp) st in
          ((st, l), Err e)
      | Err e => ((st, l), Err e)
      end
  end.

(** ** The handler *)

(** The LGA share of a receipt; a legacy attribution without one yields the
    remainder. *)
Definition lgaShare (rc : Receipt) : Z :=
  let a := Attribution rc in
  if (LGAKobo a =? 0) && negb (bool_decide (ar_Mode a = "federal"))
  then VATKobo rc -! FederalKobo a -! StateKobo a else LGAKobo a.

Inductive settleBody :=
| replayRecon (rec : ReconRecord)
| replayPeriod (sp : SettledPeriod)
| settled (rec : ReconRecord).

Definition periodReceipts (allIds : list string) (tenant period : string) (st : Store) : list Receipt :=
  List.filter (fun rc => Str.has_prefix (CapturedAt rc) period) (ListReceipts allIds tenant "" 0 st).

Definition unsettled (rcs : list Receipt) : list Receipt :=
  List.filter (fun rc => bool_decide (SettledIn rc = "")) rcs.

Definition reconOf (mode tenant period reconID : string) (supp : Z) (rcs : list Receipt) : ReconRecord :=
  let plat := List.filter PlatformCollected rcs in
  mkReconRecord reconID period tenant (Z.of_nat (length rcs))
    (loop_sum VATKobo rcs 0) (loop_sum (fun rc => FederalKobo (Attribution rc)) rcs 0)
    (loop_sum (fun rc => StateKobo (Attribution rc)) rcs 0) (loop_sum lgaShare rcs 0)
    (loop_sum VATKobo plat 0) (Z.of_nat (length plat)) supp "" mode.

Definition isSettled (sp : option SettledPeriod) : option SettledPeriod :=
  match sp with
  | Some sp => if bool_decide (sp_Status sp = "settled") then Some sp else None
  | None => None
  end.

Definition suppOf (sp : option SettledPeriod) : Z :=
  match isSettled sp with Some sp => Supplements sp + 1 | None => 0 end.

Definition reconIDOf (tenant period : string) (supp : Z) : string :=
  Str.take 16 (DeterministicTransferID
    ("posv-recon:" +:+ tenant +:+ ":" +:+ period +:+ ":" +:+ pretty supp)).

Definition with_transfers (ids : string) (r : ReconRecord) : ReconRecord :=
  mkReconRecord (rec_ID r) (rec_Period r) (rec_TenantID r) (rec_Receipts r) (rec_VATKobo r)
    (rec_FederalKobo r) (rec_StateKobo r) (rec_LGAKobo r) (rec_PlatformCollectedKobo r)
    (rec_PlatformReceipts r) (Supplement r) ids (LedgerMode r).

Definition postedIds (sp : SettledPeriod) : string :=
  Str.join "," (List.filter (fun s => negb (bool_decide (s = "")))
    [FederalPendingID sp; StatePendingID sp; LGAPendingID sp]).

Definition merchantAccount : string := accountID LedgerVATRemittance NSVATMerchant.

Definition handleSettlementRecon (io : SettleIO) (allIds : list string) (mode tenant period : string)
  (s : Service * L) : (Service * L) * response settleBody :=
  let '(svc, l) := s in
  let st := s_store svc in
  if bool_decide (period = "") then (s, Problem 422 "validation failed")
  else
    let inPeriod := periodReceipts allIds tenant period st in
    let rcs := unsettled inPeriod in
    if bool_decide (inPeriod = []) then (s, Problem 404 "no receipts")
    else
      let marker := GetSettledPeriod tenant period st in
      match isSettled marker, rcs with
      | Some sp, [] =>
          match List.find (fun rc => bool_decide (rec_ID rc = ReconID sp)) (Recons st) with
          | Some rec => (s, JSON 200 (replayRecon rec))
          | None => (s, JSON 200 (replayPeriod sp))
          end
      | _, _ =>
          let supp := suppOf marker in
          let reconID := reconIDOf tenant period supp in
          let rec := reconOf mode tenant period reconID supp rcs in
          let l := lc_CreateAccounts [mkLedgerAccount merchantAccount LedgerVATRemittance 4 ""] l in
          let '((st, l), r) := settlePeriod io tenant period merchantAccount
            (rec_FederalKobo rec) (rec_StateKobo rec) (rec_LGAKobo rec) reconID supp (st, l) in
          match r with
          | Err _ => ((with_store st svc, l), Problem 502 "settlement saga failed")
          | Ok _ =>
              let '(st, r) := MarkReceiptsSettled (map rc_ID rcs) tenant period
                                (stampOk io) (stampSyncOk io) st in
              match r with
              | Err _ => ((with_store st svc, l), Problem 502 "settlement marker failed")
              | Ok _ =>
                  let ids := match GetSettledPeriod tenant period st with
                             | Some sp => postedIds sp | None => "" end in
                  let rec := with_transfers ids rec in
                  let st := AddRecon rec st in
                  ((publish "nrs.pos.settlement.recon.v1" tenant None (with_store st svc), l),
                   JSON 201 (settled rec))
              end
          end
      end.

Definition handleListRecon (svc : Service) : response (list ReconRecord) := JSON 200 (Recons (s_store svc)).

End Saga.

(** ** What the saga needs of a ledger *)

Class LedgerLaws (L : Type) `{LedgerClient L} := {
  (** Placing a hold does not post it. *)
  law_pending_not_posted tr l :
    lt_ID tr <> "" -> isPostedLeg (lt_ID tr) l = false ->
    isPostedLeg (lt_ID tr) (lc_PendingTransfer tr l).1 = false;
  (** An accepted hold can be retried, and the retry changes nothing. *)
  law_pending_replay tr l l' id :
    lt_ID tr <> "" -> lc_PendingTransfer tr l = (l', Ok id) ->
    exists id', lc_PendingTransfer tr l' = (l', Ok id');
  (** A posted transfer is reported as posted. *)
  law_post_seen id x l l' id' :
    lc_PostPending id x l = (l', Ok id') -> isPostedLeg id l' = true;
  (** Operations on one transfer leave what is reported of the others. *)
  law_pending_other tr l j :
    lt_ID tr <> "" -> j <> lt_ID tr -> lc_GetTransfer j (lc_PendingTransfer tr l).1 = lc_GetTransfer j l;
  law_post_other id x l j :
    j <> id -> lc_GetTransfer j (lc_PostPending id x l).1 = lc_GetTransfer j l;
}.

Section DevLaws.
Import DevLedger.

Lemma GetTransfer_put d id (tr : devTransfer) j :
  GetTransfer j (put_transfer id tr d) =
    if decide (id = j) then Ok (mkLedgerTransferState j (pending tr) (posted tr) (voided tr))
    else GetTransfer j d.
Proof.
  unfold GetTransfer. simpl. destruct (decide (id = j)) as [->|];
    [by rewrite lookup_insert_eq | by rewrite lookup_insert_ne].
Qed.

Lemma with_id_given tr d : lt_ID tr <> "" -> with_id tr d = (d, tr).
Proof. intros. unfold with_id. by rewrite bool_decide_false. Qed.

#[export] Instance DevLedger_laws : LedgerLaws DevLedger.t.
Proof.
  constructor; simpl; unfold isPostedLeg; simpl.
  - intros tr l Hne Hp. destruct (PendingTransfer_cases tr l) as [[r ->]|(d' & t & -> & Hid & _)]; [done|].
    rewrite with_id_given in Hid by done. injection Hid as <- <-.
    simpl. by rewrite GetTransfer_put, decide_True.
  - intros tr l l' id Hne E.
    destruct (PendingTransfer_recorded tr l id Hne) as (-> & e & He & Hp & Hs); [by rewrite E|].
    rewrite E in He. simpl in He. exists (lt_ID tr). unfold PendingTransfer.
    by rewrite bool_decide_false, He, Hp, Hs, sameLedgerTransfer_refl by done.
  - intros id x l l' id' E.
    destruct (PostPending_cases id x l) as [[e [E' _]] | (tr & _ & _ & _ & _ & [E' | [E' _]])];
      rewrite E' in E; simplify_eq. by rewrite GetTransfer_put, decide_True.
  - intros tr l j Hne Hj. destruct (PendingTransfer_cases tr l) as [[r ->]|(d' & t & -> & Hid & _)]; [done|].
    rewrite with_id_given in Hid by done. injection Hid as <- <-.
    simpl. by rewrite GetTransfer_put, decide_False.
  - intros id x l j Hj.
    destruct (PostPending_cases id x l) as [[e [-> _]] | (tr & _ & _ & _ & _ & [-> | [-> _]])]; [done..|].
    simpl. by rewrite GetTransfer_put, decide_False.
Qed.
End DevLaws.

(** ** Crash and resume *)

Section Crash.
Context `{Crypto} {L : Type} `{LedgerLaws L}.
Implicit Types (l : L) (lg : leg).

(** The ledgers a run of the saga over [legs] leaves when it crashes: at the
    start of a leg, after its hold, or later. *)
Inductive crash (merchant : string) : list leg -> L -> L -> Prop :=
| crash_now legs l : crash merchant legs l l
| crash_skip lg legs l lc :
    (l_amount lg <=? 0) = true -> crash merchant legs l lc -> crash merchant (lg :: legs) l lc
| crash_held lg legs l l' id :
    (l_amount lg <=? 0) = false -> isPostedLeg (l_pendID lg) l = false ->
    lc_PendingTransfer (legTransfer merchant lg) l = (l', Ok id) -> crash merchant (lg :: legs) l l'
| crash_later lg legs l l' lc :
    (l_amount lg <=? 0) = false -> legStep merchant lg l = (l', Ok tt) ->
    crash merchant legs l' lc -> crash merchant (lg :: legs) l lc.

Lemma legStep_other lg l merchant j :
  l_pendID lg <> "" -> j <> l_pendID lg ->
  lc_GetTransfer j (legStep merchant lg l).1 = lc_GetTransfer j l.
Proof.
  intros Hne Hj. unfold legStep. destruct (isPostedLeg _ _); [done|].
  pose proof (law_pending_other (legTransfer merchant lg) l j Hne Hj) as Hp.
  destruct (lc_PendingTransfer _ l) as [l1 r1]. simpl in Hp.
  pose proof (law_post_other (l_pendID lg) (l_amount lg) l1 j Hj) as Hq.
  destruct (lc_PostPending _ _ l1) as [l2 r2]. simpl in Hq.
  destruct r1, (lc_GetTransfer (l_pendID lg) l1), r2; simpl; congruence.
Qed.

Lemma legStep_posted lg l l' merchant :
  legStep merchant lg l = (l', Ok tt) -> isPostedLeg (l_pendID lg) l' = true.
Proof.
  unfold legStep. destruct (isPostedLeg _ _) eqn:E; [by intros [= <-]|].
  destruct (lc_PendingTransfer _ l) as [l1 r1].
  destruct (lc_PostPending _ _ l1) as [l2 [id|e]] eqn:Hp;
    destruct r1, (lc_GetTransfer (l_pendID lg) l1); intros [=]; subst; by eapply law_post_seen.
Qed.

Lemma crash_other merchant legs l lc j :
  Forall (fun lg => l_pendID lg <> "" /\ j <> l_pendID lg) legs ->
  crash merchant legs l lc -> lc_GetTransfer j lc = lc_GetTransfer j l.
Proof.
  intros Hf Hc. induction Hc as [legs l|lg legs l lc _ _ IH|lg legs l l' id _ _ E|lg legs l l' lc _ E _ IH];
    [done|apply IH; by inversion Hf| |]; apply Forall_cons in Hf as [[Hne Hj] Hf].
  - pose proof (law_pending_other (legTransfer merchant lg) l j Hne Hj) as Hp. by rewrite E in Hp.
  - rewrite IH by done. pose proof (legStep_other lg l merchant j Hne Hj) as Hp. by rewrite E in Hp.
Qed.

(** Resuming a leg that was held completes it the same way. *)
Lemma legStep_resume lg l l' merchant id :
  l_pendID lg <> "" -> isPostedLeg (l_pendID lg) l = false ->
  lc_PendingTransfer (legTransfer merchant lg) l = (l', Ok id) ->
  legStep merchant lg l' = legStep merchant lg l.
Proof.
  intros Hne Hp E. unfold legStep. rewrite Hp.
  pose proof (law_pending_not_posted (legTransfer merchant lg) l Hne Hp) as Hp'.
  rewrite E in Hp'. simpl in Hp'. rewrite Hp'.
  destruct (law_pending_replay _ _ _ _ (Hne : lt_ID (legTransfer merchant lg) <> "") E) as [id' E'].
  by rewrite E', E.
Qed.

Lemma legsLoop_resume tenant period merchant all legs posted posted' l lf lc :
  Forall (fun lg => l_pendID lg <> "") legs -> NoDup (map l_pendID legs) ->
  legsLoop tenant period merchant all legs posted l = (lf, Ok tt) ->
  crash merchant legs l lc ->
  legsLoop tenant period merchant all legs posted' lc = (lf, Ok tt).
Proof.
  intros Hne Hnd Hrun Hc. revert posted posted' Hrun.
  assert (Hindep : forall legs posted posted' l lf,
    legsLoop tenant period merchant all legs posted l = (lf, Ok tt) ->
    legsLoop tenant period merchant all legs posted' l = (lf, Ok tt)).
  { clear. induction legs as [|lg legs IH]; intros posted posted' l lf; simpl; [done|].
    destruct (_ <=? _); [apply IH|]. destruct (legStep _ _ _) as [l' [[]|[]]]; [apply IH|done..|].
    by destruct resumable. }
  induction Hc as [legs l|lg legs l lc Ha _ IH|lg legs l l' id Ha Hp E|lg legs l l' lc Ha E Hc IH];
    intros posted posted'; simpl.
  - apply Hindep.
  - rewrite Ha. apply Forall_cons in Hne as [_ Hne]. apply NoDup_cons in Hnd as [_ Hnd]. by apply IH.
  - rewrite Ha. apply Forall_cons in Hne as [Hne _]. rewrite (legStep_resume _ _ _ _ _ Hne Hp E).
    destruct (legStep _ _ _) as [l2 [[]|[]]]; [apply Hindep|done..|]. by destruct resumable.
  - rewrite Ha. apply Forall_cons in Hne as [Hne Hne']. apply NoDup_cons in Hnd as [Hni Hnd].
    rewrite E. intros Hrun. unfold legStep.
    assert (Hpost : isPostedLeg (l_pendID lg) lc = true).
    { pose proof (legStep_posted _ _ _ _ E) as Hpo. unfold isPostedLeg in *.
      rewrite (crash_other merchant legs l' lc); [done| |done].
      apply Forall_forall. intros x Hx. rewrite Forall_forall in Hne'. split; [by apply Hne'|].
      intros Heq. apply Hni. rewrite Heq. by apply list_elem_of_fmap_2. }
    rewrite Hpost. by eapply IH.
Qed.
End Crash.

(** ** The effect of a settlement on the development ledger *)

Section Effect.
Import DevLedger.
Implicit Types (d : DevLedger.t) (lg : leg).

(** Account by account: debits and credits posted move by [D] and [C], what
    is pending stays (all modulo the width), and so do the flags. *)
Definition moves (D C : string -> Z) d d' : Prop :=
  forall x a, accounts d !! x = Some a -> exists a', accounts d' !! x = Some a' /\
    da_LedgerAccount a' = da_LedgerAccount a /\
    debitsPosted a' ≡64 debitsPosted a + D x /\ creditsPosted a' ≡64 creditsPosted a + C x /\
    debitsPending a' ≡64 debitsPending a /\ creditsPending a' ≡64 creditsPending a.

Lemma moves_refl d D C : (forall x, D x = 0) -> (forall x, C x = 0) -> moves D C d d.
Proof.
  intros HD HC x a Hx. exists a. rewrite HD, HC, !Z.add_0_r. done.
Qed.

Lemma moves_trans D C D' C' d d' d'' :
  moves D C d d' -> moves D' C' d' d'' -> moves (fun x => D x + D' x) (fun x => C x + C' x) d d''.
Proof.
  intros H1 H2 x a Hx. destruct (H1 x a Hx) as (b & Hb & Hf & H3 & H4 & H5 & H6).
  destruct (H2 x b Hb) as (c & Hc & Hf' & H3' & H4' & H5' & H6').
  exists c. split_and!; [done | congruence | | | |].
  - rewrite H3', H3. apply eq64_of_eq. lia.
  - rewrite H4', H4. apply eq64_of_eq. lia.
  - by rewrite H5'.
  - by rewrite H6'.
Qed.

Lemma moves_ext D C D' C' d d' :
  (forall x, D x = D' x) -> (forall x, C x = C' x) -> moves D C d d' -> moves D' C' d d'.
Proof. intros HD HC H x a. rewrite <- HD, <- HC. apply H. Qed.

Lemma moves_accounts D C d d' e : accounts e = accounts d' -> moves D C d d' -> moves D C d e.
Proof. unfold moves. by intros ->. Qed.

Lemma moves_apply tr d :
  moves (fun x => at_ (DebitAccountID tr) x (AmountKobo tr))
    (fun x => at_ (CreditAccountID tr) x (AmountKobo tr)) d (apply tr d).
Proof.
  intros x a Hx. unfold apply, set_accounts. simpl. rewrite !lookup_alter_if, Hx. simpl.
  eexists. split; [reflexivity|]. unfold at_.
  repeat case_decide; simpl; rewrite ?Z.add_0_r; repeat split; try done; apply wrap64_eq64.
Qed.

(** A hold placed and released leaves what is pending. *)
Lemma moves_hold_release tr x v d :
  moves (fun _ => 0) (fun _ => 0) d (hold (- v) tr (put_transfer x (mkDevTransfer tr true false false) (hold v tr d))).
Proof.
  intros y a Hy. unfold hold, put_transfer, set_accounts. simpl. rewrite !lookup_alter_if, Hy. simpl.
  eexists. split; [reflexivity|]. rewrite !Z.add_0_r.
  repeat case_decide; simpl; repeat split; try done;
    rewrite !wrap64_eq64; apply eq64_of_eq; lia.
Qed.

(** The merchant and the pool of a leg exist, and the merchant account is not
    a float account. *)
Definition canPay d (merchant : string) lg : Prop :=
  (exists a, accounts d !! merchant = Some a /\ la_Flags (da_LedgerAccount a) <> floatFlag) /\
  is_Some (accounts d !! l_account lg).

Lemma canPay_moves D C d d' merchant lg : moves D C d d' -> canPay d merchant lg -> canPay d' merchant lg.
Proof.
  intros H [(a & Ha & Hf) [b Hb]]. split.
  - destruct (H _ _ Ha) as (a' & Ha' & Hla & _). exists a'. by rewrite Hla.
  - destruct (H _ _ Hb) as (b' & Hb' & _). eauto.
Qed.

(** A fresh leg is posted. *)
Lemma legStep_fresh d merchant lg :
  0 < l_amount lg -> l_pendID lg <> "" -> transfers d !! l_pendID lg = None -> canPay d merchant lg ->
  exists d', legStep merchant lg d = (d', Ok tt) /\
    moves (fun x => at_ merchant x (l_amount lg)) (fun x => at_ (l_account lg) x (l_amount lg)) d d' /\
    (forall j, j <> l_pendID lg -> transfers d' !! j = transfers d !! j).
Proof.
  intros Hamt Hne Hnone [(a & Ha & Hf) [b Hb]].
  set (tr := legTransfer merchant lg).
  set (d1 := put_transfer (l_pendID lg) (mkDevTransfer tr true false false) (hold (l_amount lg) tr d)).
  assert (E1 : PendingTransfer tr d = (d1, Ok (l_pendID lg))).
  { unfold PendingTransfer, createPending, with_id. simpl. rewrite bool_decide_false, Hnone by done.
    unfold checkAccounts, guard_err, checkFloat. simpl.
    destruct (l_amount lg <=? 0) eqn:E; [bools; lia|]. simpl.
    by rewrite Ha, Hb, bool_decide_false by done. }
  set (d2 := hold (- l_amount lg) tr d1).
  pose proof (moves_hold_release tr (l_pendID lg) (l_amount lg) d) as Hm. fold d1 d2 in Hm.
  destruct (Hm _ _ Ha) as (a' & Ha' & Hla & _).
  assert (E2 : PostPending (l_pendID lg) (l_amount lg) d1 =
    (put_transfer (l_pendID lg) (mkDevTransfer tr false false true) (apply tr d2), Ok (l_pendID lg))).
  { rewrite (PostPending_ok _ _ _ tr a'); [done | by apply lookup_insert_eq | simpl; lia | exact Ha' |].
    unfold checkFloat. by rewrite Hla, bool_decide_false by done. }
  eexists. split; [|split].
  - unfold legStep, isPostedLeg. simpl. unfold GetTransfer at 1. rewrite Hnone. fold tr.
    rewrite E1, E2. by destruct (GetTransfer (l_pendID lg) d1).
  - apply (moves_accounts _ _ _ (apply tr d2)); [done|].
    eapply moves_ext; [| |eapply moves_trans; [exact Hm | apply moves_apply]]; intros; simpl; lia.
  - intros j Hj. simpl. by rewrite !lookup_insert_ne.
Qed.

Definition legDebit merchant x lg := at_ merchant x (Z.max 0 (l_amount lg)).
Definition legCredit x lg := at_ (l_account lg) x (Z.max 0 (l_amount lg)).

Lemma legsLoop_fresh `{Crypto} tenant period merchant all legs posted d :
  NoDup (map l_pendID legs) ->
  Forall (fun lg => l_pendID lg <> "" /\ transfers d !! l_pendID lg = None /\ canPay d merchant lg) legs ->
  exists d', legsLoop tenant period merchant all legs posted d = (d', Ok tt) /\
    moves (fun x => sumZ (legDebit merchant x) legs) (fun x => sumZ (legCredit x) legs) d d'.
Proof.
  revert posted d. induction legs as [|lg legs IH]; intros posted d Hnd Hf; simpl.
  { exists d. split; [done|]. by apply moves_refl. }
  apply NoDup_cons in Hnd as [Hni Hnd]. apply Forall_cons in Hf as [(Hne & Hnone & Hpay) Hf].
  assert (Hz : forall x, at_ merchant x 0 = 0 /\ at_ (l_account lg) x 0 = 0)
    by (intros; unfold at_; by repeat case_decide).
  destruct (l_amount lg <=? 0) eqn:Ha; bools.
  - destruct (IH posted d Hnd Hf) as (d' & E & Hm). exists d'. split; [done|].
    eapply moves_ext; [| |exact Hm]; intros x; cbv beta;
      [unfold legDebit at 2 | unfold legCredit at 2]; rewrite Z.max_l by lia; destruct (Hz x); lia.
  - destruct (legStep_fresh d merchant lg ltac:(lia) Hne Hnone Hpay) as (d1 & -> & Hm1 & Ht).
    destruct (IH (l_name lg :: posted) d1 Hnd) as (d' & E & Hm).
    { eapply Forall_impl; [apply Forall_and; split; [exact Hf|]; apply Forall_forall; intros x Hx; exact Hx|].
      intros x [(Hx1 & Hx2 & Hx3) Hin]. split; [done|]. split; [|by eapply canPay_moves].
      rewrite Ht; [done|]. intros Heq. apply Hni. rewrite <- Heq. by apply list_elem_of_fmap_2. }
    exists d'. split; [done|]. eapply moves_ext; [| |eapply moves_trans; [exact Hm1|exact Hm]];
      intros x; cbv beta;
      [unfold legDebit at 2 | unfold legCredit at 2]; rewrite Z.max_r by lia; done.
Qed.
End Effect.

Section SettleFacts.
Context `{Crypto} {L : Type} `{LedgerClient L}.

Lemma SaveSettledPeriod_ok sp st :
  SaveSettledPeriod true sp st =
    (set_settledPeriods (<[settledKey (sp_TenantID sp) (sp_Period sp) := sp]> (settledPeriods st))
       (settledLog st ++ [sp]) st, Ok tt).
Proof. done. Qed.

(** A marker is filed under the tenant and period it names. *)
Definition filed (tenant period : string) (st : Store) : Prop :=
  forall sp, GetSettledPeriod tenant period st = Some sp -> sp_TenantID sp = tenant /\ sp_Period sp = period.

Lemma marker_filed tenant period f s lg rid supp st :
  filed tenant period st ->
  let sp := markerOf tenant period f s lg rid supp (GetSettledPeriod tenant period st) in
  sp_TenantID sp = tenant /\ sp_Period sp = period.
Proof. intros Hf. unfold markerOf. simpl. destruct (GetSettledPeriod _ _ _) eqn:E; simpl; [by apply Hf|done]. Qed.

(** A settlement whose legs go through ends with the settled marker. *)
Lemma settlePeriod_done io tenant period merchant f s lg rid supp (st : Store) (l lf : L) :
  saveOk io = true -> finalSaveOk io = true -> filed tenant period st ->
  let legs := legsOf tenant period f s lg supp in
  legsLoop tenant period merchant legs legs [] l = (lf, Ok tt) ->
  let sp := markerOf tenant period f s lg rid supp (GetSettledPeriod tenant period st) in
  exists stf, settlePeriod io tenant period merchant f s lg rid supp (st, l) = ((stf, lf), Ok tt) /\
    GetSettledPeriod tenant period stf = Some (with_status "settled" (FailReason sp) sp) /\
    receipts stf = receipts st /\ logOpen stf = logOpen st.
Proof.
  intros H1 H2 Hf legs Hrun sp. destruct (marker_filed tenant period f s lg rid supp st Hf) as [Ht Hp].
  fold sp in Ht, Hp. unfold settlePeriod. fold sp. clearbody sp. rewrite H1, SaveSettledPeriod_ok. fold legs.
  rewrite Hrun, H2, SaveSettledPeriod_ok. eexists. split; [reflexivity|].
  unfold GetSettledPeriod. simpl. by rewrite Ht, Hp, lookup_insert_eq.
Qed.

(** A successful settlement is a successful run of its legs. *)
Lemma settlePeriod_inv io tenant period merchant f s lg rid supp (st st' : Store) (l l' : L) :
  settlePeriod io tenant period merchant f s lg rid supp (st, l) = ((st', l'), Ok tt) ->
  let legs := legsOf tenant period f s lg supp in
  legsLoop tenant period merchant legs legs [] l = (l', Ok tt).
Proof.
  unfold settlePeriod. destruct (SaveSettledPeriod (saveOk io) _ st) as [st1 [[]|e]]; [|done].
  cbv zeta. destruct (legsLoop _ _ _ _ _ _ l) as [l1 [[]|e]].
  - destruct (SaveSettledPeriod _ _ st1) as [st2 [[]|e]]; [|done]. by intros [= _ <-].
  - destruct e; [done|done|]. by destruct (SaveSettledPeriod _ _ st1).
Qed.

Lemma legsLoop_all_posted tenant period merchant all legs posted (l : L) :
  Forall (fun lg => isPostedLeg (l_pendID lg) l = true) legs ->
  legsLoop tenant period merchant all legs posted l = (l, Ok tt).
Proof.
  revert posted. induction legs as [|lg legs IH]; intros posted Hf; simpl; [done|].
  apply Forall_cons in Hf as [Hp Hf]. destruct (_ <=? _); [by apply IH|].
  unfold legStep. rewrite Hp. by apply IH.
Qed.
End SettleFacts.

(** A settlement whose second leg can no longer be resumed *)
Section Reversal.
Import DevLedger.
Context `{Crypto}.
Variables (tenant period merchant : string) (f s lg : Z).
Abbreviation legs := (legsOf tenant period f s lg 0).
Abbreviation revID := (lt_ID (reversal tenant period merchant (mkLeg "federal" "" f ""))).

(** The federal leg is posted, the state leg has been voided, and the accounts
    of a reversal exist. *)
Definition stuck (d : DevLedger.t) : Prop :=
  (exists tr, transfers d !! pendID tenant period "federal" 0 = Some tr /\ posted tr = true) /\
  (exists tr, transfers d !! pendID tenant period "state" 0 = Some tr /\
     pending tr = false /\ posted tr = false) /\
  is_Some (accounts d !! merchant) /\
  exists a, accounts d !! accountID LedgerVATRemittance NSVATFederalPool = Some a /\
    la_Flags (da_LedgerAccount a) <> floatFlag.

Lemma legStep_closed d lg' (ts : devTransfer) :
  l_pendID lg' <> "" -> transfers d !! l_pendID lg' = Some ts -> pending ts = false -> posted ts = false ->
  legStep merchant lg' d = (d, Err (legPostFailed (l_name lg') pendingNotPostable false)).
Proof.
  intros Hne Hts Hpe Hpo.
  assert (E1 : GetTransfer (l_pendID lg') d =
    Ok (mkLedgerTransferState (l_pendID lg') false false (voided ts)))
    by (unfold GetTransfer; by rewrite Hts, Hpe, Hpo).
  assert (E2 : PendingTransfer (legTransfer merchant lg') d = (d, Err transferExists)).
  { unfold PendingTransfer. simpl. by rewrite bool_decide_false, Hts, Hpe by done. }
  assert (E3 : PostPending (l_pendID lg') (l_amount lg') d = (d, Err pendingNotPostable))
    by (unfold PostPending; by rewrite Hts, Hpe).
  unfold legStep, isPostedLeg, isResumable. simpl. rewrite E1, E2, E3. simpl. by rewrite ?E1.
Qed.

Lemma stuck_loop d :
  0 < f -> 0 < s -> pendID tenant period "state" 0 <> "" -> stuck d ->
  legsLoop tenant period merchant legs legs [] d =
    (compensate tenant period merchant legs ["federal"] d,
     Err (legPostFailed "state" pendingNotPostable false)).
Proof.
  intros Hf Hs Hne ((tf & Htf & Hpf) & (ts & Hts & Hpe & Hpo) & _).
  unfold legsOf at 2. cbn [legsLoop l_amount].
  destruct (f <=? 0) eqn:E1; [bools; lia|]. destruct (s <=? 0) eqn:E2; [bools; lia|].
  assert (E : forall lg', l_pendID lg' = pendID tenant period "federal" 0 -> legStep merchant lg' d = (d, Ok tt)).
  { intros lg' Hid. unfold legStep, isPostedLeg. simpl. rewrite Hid. unfold GetTransfer. by rewrite Htf, Hpf. }
  rewrite E by done. cbn [l_name]. by rewrite (legStep_closed d _ ts).
Qed.

Lemma stuck_compensate d :
  0 < f -> revID <> "" -> revID <> pendID tenant period "federal" 0 ->
  revID <> pendID tenant period "state" 0 -> stuck d ->
  let d' := compensate tenant period merchant legs ["federal"] d in
  stuck d' /\
  moves (fun x => at_ (accountID LedgerVATRemittance NSVATFederalPool) x f) (fun x => at_ merchant x f) d d'.
Proof.
  intros Hf Hne H1 H2 ((tf & Htf & Hpf) & (ts & Hts & Hpe & Hpo) & Hm & a & Ha & Hfl).
  set (tr := reversal tenant period merchant
    (mkLeg "federal" (pendID tenant period "federal" 0) f (accountID LedgerVATRemittance NSVATFederalPool))).
  set (d1 := put_transfer revID (mkDevTransfer tr false false true) (apply tr d)).
  assert (E : compensate tenant period merchant legs ["federal"] d = d1).
  { unfold compensate, legsOf. cbn [foldl l_name].
    change (bool_decide ("federal" ∈ ["federal"])) with true.
    change (bool_decide ("state" ∈ ["federal"])) with false.
    change (bool_decide ("lga" ∈ ["federal"])) with false.
    cbn [lc_Transfer DevLedger_client]. fold tr. unfold Transfer.
    assert (Hck : checkAccounts tr d = Ok tt).
    { unfold checkAccounts, guard_err, checkFloat. cbn.
      destruct (f <=? 0) eqn:E1; [bools; lia|]. cbn. rewrite Ha. destruct Hm as [m ->].
      by rewrite bool_decide_false. }
    rewrite Hck. rewrite with_id_given by exact Hne. reflexivity. }
  cbv zeta. rewrite E. pose proof (moves_apply tr d) as Hmv.
  assert (Hmv' : moves (fun x => at_ (accountID LedgerVATRemittance NSVATFederalPool) x f)
     (fun x => at_ merchant x f) d d1) by (apply (moves_accounts _ _ _ (apply tr d)); [done|exact Hmv]).
  split; [|exact Hmv'].
  split; [exists tf; unfold d1, put_transfer; cbn [transfers]; by rewrite lookup_insert_ne|].
  split; [exists ts; unfold d1, put_transfer; cbn [transfers]; by rewrite lookup_insert_ne|].
  destruct Hm as [m Hm]. destruct (Hmv' _ _ Hm) as (m' & Hm' & _). destruct (Hmv' _ _ Ha) as (a' & Ha' & Hla & _).
  split; [eauto|]. exists a'. by rewrite Hla.
Qed.
End Reversal.

(** Settling the same period [n] times *)
Fixpoint attempts `{Crypto} (io : SettleIO) (tenant period merchant rid : string) (f s lg : Z)
  (n : nat) (x : Store * DevLedger.t) : Store * DevLedger.t :=
  match n with
  | O => x
  | S n => attempts io tenant period merchant rid f s lg n
             (settlePeriod io tenant period merchant f s lg rid 0 x).1
  end.

(** ** Properties *)

(** C5: A crash never loses or repeats a remittance.  Take a settlement that
    completes, stop it at any point (before a leg, between the hold of a leg
    and its posting, after it), lose everything but the ledger, and settle
    again with the same amounts and supplement number, as a call of
    [settlePeriod]: for every ledger that obeys [LedgerLaws], the second run
    completes with exactly the ledger of the undisturbed run, and leaves the
    period marked settled. *)
Theorem settle_crash_resume `{Crypto} {L : Type} `{LedgerLaws L}
  (io io' : SettleIO) (tenant period merchant rid rid' : string) (f s lg supp : Z)
  (st stf st' : Store) (l lf lc : L) :
  let legs := legsOf tenant period f s lg supp in
  Forall (fun x => l_pendID x <> "") legs -> NoDup (map l_pendID legs) ->
  settlePeriod io tenant period merchant f s lg rid supp (st, l) = ((stf, lf), Ok tt) ->
  crash merchant legs l lc ->
  saveOk io' = true -> finalSaveOk io' = true -> filed tenant period st' ->
  exists stf', settlePeriod io' tenant period merchant f s lg rid' supp (st', lc) = ((stf', lf), Ok tt) /\
    sp_Status <$> GetSettledPeriod tenant period stf' = Some "settled".
Proof.
  intros legs Hne Hnd Hrun%settlePeriod_inv Hc Ho1 Ho2 Hf.
  pose proof (legsLoop_resume tenant period merchant legs legs [] [] l lf lc Hne Hnd Hrun Hc) as Hrun'.
  destruct (settlePeriod_done io' tenant period merchant f s lg rid' supp st' lc lf Ho1 Ho2 Hf Hrun')
    as (stf' & E & Hm & _).
  exists stf'. split; [exact E|]. by rewrite Hm.
Qed.

(** C6: What a settlement posts: on the development ledger, when the accounts
    exist and the period's transfer ids are new, the saga succeeds; the merchant
    is debited the three legs, each pool is credited its own leg, nothing is
    left pending, no other account moves, and the period is marked settled. *)
Theorem settle_posts_shares `{Crypto} (io : SettleIO) (tenant period merchant rid : string)
  (f s lg supp : Z) (st : Store) (d : DevLedger.t) :
  let legs := legsOf tenant period f s lg supp in
  saveOk io = true -> finalSaveOk io = true -> filed tenant period st ->
  NoDup (map l_pendID legs) ->
  Forall (fun x => l_pendID x <> "" /\ DevLedger.transfers d !! l_pendID x = None /\ canPay d merchant x) legs ->
  0 <= f -> 0 <= s -> 0 <= lg ->
  exists stf d', settlePeriod io tenant period merchant f s lg rid supp (st, d) = ((stf, d'), Ok tt) /\
    sp_Status <$> GetSettledPeriod tenant period stf = Some "settled" /\
    moves (fun x => at_ merchant x (f + s + lg))
      (fun x => at_ (accountID LedgerVATRemittance NSVATFederalPool) x f +
         at_ (accountID LedgerVATRemittance NSVATStatePool) x s +
         at_ (accountID LedgerVATRemittance NSVATLGAPool) x lg) d d'.
Proof.
  intros legs Ho1 Ho2 Hf Hnd Hlegs H1 H2 H3.
  destruct (legsLoop_fresh tenant period merchant legs legs [] d Hnd Hlegs) as (d' & Hrun & Hm).
  destruct (settlePeriod_done io tenant period merchant f s lg rid supp st d d' Ho1 Ho2 Hf Hrun)
    as (stf & E & Hsp & _).
  exists stf, d'. split; [exact E|]. split; [by rewrite Hsp|].
  eapply moves_ext; [| |exact Hm]; intros x; unfold legs, legsOf, legDebit, legCredit, sumZ; simpl;
    rewrite !Z.max_r by done; [|lia]. unfold at_. case_decide; lia.
Qed.

(** Transfer ids already posted absorb any amount: when the ledger reports
    the three ids of a settlement as posted, the saga succeeds and marks the
    period settled without moving the ledger, whatever amounts it was given.
    After a restart, which loses the markers, the late receipts of a settled
    period are settled under the ids of its first settlement, and so are
    stamped without being remitted. *)
Theorem settle_late_after_restart_not_remitted `{Crypto} {L : Type} `{LedgerClient L}
  (io : SettleIO) (allIds : list string) (mode tenant period : string) (svc : Service) (l : L) :
  let st := s_store svc in
  let rcs := unsettled (periodReceipts allIds tenant period st) in
  let l0 := lc_CreateAccounts [mkLedgerAccount merchantAccount LedgerVATRemittance 4 ""] l in
  GetSettledPeriod tenant period st = None ->
  period <> "" -> rcs <> [] ->
  saveOk io = true -> finalSaveOk io = true -> (forall i, stampOk io i = true) -> stampSyncOk io = true ->
  (forall name, name ∈ ["federal"; "state"; "lga"] -> isPostedLeg (pendID tenant period name 0) l0 = true) ->
  exists svc' rec, handleSettlementRecon io allIds mode tenant period (svc, l) =
      ((svc', l0), JSON 201 (settled rec)) /\
    rec_VATKobo rec = loop_sum VATKobo rcs 0 /\
    (forall rc, rc ∈ rcs -> rc_ID rc ∈ map rc_ID rcs /\
       forall r, receipts (s_store svc') !! rc_ID rc = Some r -> SettledIn r = settledKey tenant period).
Proof.
  intros st rcs l0 Hm Hp Hrcs Hs1 Hs2 Hw Hsy Hposted.
  unfold handleSettlementRecon. fold st. rewrite bool_decide_false by done. cbv zeta. fold rcs.
  rewrite bool_decide_false; [|intros E; apply Hrcs; subst rcs; by rewrite E].
  rewrite Hm. cbn [isSettled]. fold l0. change (suppOf None) with 0.
  set (rec := reconOf mode tenant period (reconIDOf tenant period 0) 0 rcs).
  assert (Hfiled : filed tenant period st) by (intros sp; by rewrite Hm).
  destruct (settlePeriod_done io tenant period merchantAccount (rec_FederalKobo rec) (rec_StateKobo rec)
    (rec_LGAKobo rec) (reconIDOf tenant period 0) 0 st l0 l0 Hs1 Hs2 Hfiled) as (stf & E & Hg & Hr & Ho).
  { apply legsLoop_all_posted. unfold legsOf.
    repeat constructor; simpl; apply Hposted; set_solver. }
  rewrite E.
  assert (Hmark : exists st2, MarkReceiptsSettled (map rc_ID rcs) tenant period (stampOk io) (stampSyncOk io) stf
            = (st2, Ok tt) /\
    (forall id r, id ∈ map rc_ID rcs -> receipts st2 !! id = Some r -> SettledIn r = settledKey tenant period)).
  { rewrite Hsy. by apply MarkReceiptsSettled_stamps. }
  destruct Hmark as (st2 & -> & Hstamp).
  eexists _, _. split; [reflexivity|]. split; [done|].
  intros rc Hrc. split; [by apply list_elem_of_fmap_2|]. intros r. simpl.
  apply Hstamp. by apply list_elem_of_fmap_2.
Qed.

(** Each retry of a failed settlement reverses the posted leg again.  When
    the federal leg is posted and the state leg was voided, every attempt fails
    and runs the compensation, whose reversing transfer is applied anew under
    the same id: after [n] attempts the federal pool has been debited [n] times
    the federal share. *)
Theorem settle_retry_reverses_again `{Crypto} (io : SettleIO) (tenant period merchant rid : string)
  (f s lg : Z) (n : nat) (st : Store) (d : DevLedger.t) (a : devAccount) :
  let pool := accountID LedgerVATRemittance NSVATFederalPool in
  let revID := lt_ID (reversal tenant period merchant (mkLeg "federal" "" f "")) in
  saveOk io = true -> 0 < f -> 0 < s -> merchant <> pool ->
  pendID tenant period "state" 0 <> "" -> revID <> "" ->
  revID <> pendID tenant period "federal" 0 -> revID <> pendID tenant period "state" 0 ->
  stuck tenant period merchant d -> DevLedger.accounts d !! pool = Some a ->
  exists a', DevLedger.accounts (attempts io tenant period merchant rid f s lg n (st, d)).2 !! pool = Some a' /\
    debitsPosted a' ≡64 debitsPosted a + Z.of_nat n * f /\ creditsPosted a' ≡64 creditsPosted a.
Proof.
  intros pool revID Hio Hf Hs Hmp Hne Hre H1 H2. revert st d a.
  induction n as [|n IH]; intros st d a Hst Ha; cbn [attempts].
  { exists a. simpl. rewrite Z.add_0_r. done. }
  set (sp := markerOf tenant period f s lg rid 0 (GetSettledPeriod tenant period st)).
  destruct (stuck_compensate tenant period merchant f s lg d Hf Hre H1 H2 Hst) as [Hst' Hmv].
  destruct (Hmv _ _ Ha) as (b & Hb & _ & Hd & Hc & _).
  assert (E : exists st', (settlePeriod io tenant period merchant f s lg rid 0 (st, d)).1 =
    (st', compensate tenant period merchant (legsOf tenant period f s lg 0) ["federal"] d)).
  { unfold settlePeriod. fold sp. rewrite Hio. simpl SaveSettledPeriod at 1. cbv zeta.
    rewrite stuck_loop by done. destruct (SaveSettledPeriod _ _ _). eexists. reflexivity. }
  destruct E as [st' ->]. destruct (IH st' _ b Hst' Hb) as (a' & Ha' & Hd' & Hc').
  exists a'. split; [done|]. rewrite Hd', Hc', Hd, Hc. unfold at_.
  rewrite decide_True, decide_False by done.
  split; apply eq64_of_eq; lia.
Qed.

(** The record of a settlement accounts for all of the VAT: when every
    receipt's shares add up to its VAT — or it predates the LGA share and has
    none — the federal, state and LGA totals of the record add up to its VAT
    total. *)
Theorem recon_conserves (mode tenant period rid : string) (supp : Z) (rcs : list Receipt) :
  Forall (fun rc => let a := Attribution rc in
    FederalKobo a + StateKobo a + LGAKobo a ≡64 VATKobo rc \/
    (LGAKobo a = 0 /\ ar_Mode a <> "federal")) rcs ->
  let rec := reconOf mode tenant period rid supp rcs in
  rec_FederalKobo rec + rec_StateKobo rec + rec_LGAKobo rec ≡64 rec_VATKobo rec /\
  rec_Receipts rec = Z.of_nat (length rcs).
Proof.
  intros Hf. split; [|done]. simpl. rewrite !loop_sum_eq64, !Z.add_0_l.
  rewrite <- !sumZ_add. induction Hf as [|rc rcs Hrc _ IH]; [done|].
  rewrite !sumZ_cons, IH. assert (E : FederalKobo (Attribution rc) + StateKobo (Attribution rc) + lgaShare rc ≡64 VATKobo rc).
  { unfold lgaShare. destruct ((LGAKobo _ =? 0) && _) eqn:E.
    - rewrite !wrap64_eq64. apply eq64_of_eq. lia.
    - destruct Hrc as [Hrc|[H0 Hm]]; [done|]. rewrite H0, bool_decide_false in E by done. done. }
  by rewrite E.
Qed.

(** ** The properties at concrete inputs *)

Definition demo_io : SettleIO := mkSettleIO true true (fun _ => true) true.
Definition demo_ledger : DevLedger.t :=
  DevLedger.CreateAccounts [mkLedgerAccount merchantAccount LedgerVATRemittance 4 ""] DevLedger.NewDevLedger.
Definition demo_legs : list leg := legsOf (H := Toy.crypto) "a" "2026-06" 10 55 35 0.
Definition demo_settled : Store * DevLedger.t :=
  (settlePeriod (H := Toy.crypto) demo_io "a" "2026-06" merchantAccount 10 55 35 "rid" 0 (demo_store, demo_ledger)).1.
(** Crashed between the hold and the post of the federal leg *)
Definition demo_crashed : DevLedger.t :=
  match demo_legs with
  | lg :: _ => (DevLedger.PendingTransfer (legTransfer merchantAccount lg) demo_ledger).1
  | [] => demo_ledger
  end.

Lemma demo_filed : filed "a" "2026-06" demo_store.
Proof. intros sp. vm_compute. discriminate. Qed.

Lemma settle_crash_resume_witness :
  exists stf', settlePeriod (H := Toy.crypto) demo_io "a" "2026-06" merchantAccount 10 55 35 "rid2" 0
      (demo_store, demo_crashed) = ((stf', demo_settled.2), Ok tt) /\
    sp_Status <$> GetSettledPeriod "a" "2026-06" stf' = Some "settled".
Proof.
  apply (settle_crash_resume (H := Toy.crypto) demo_io demo_io "a" "2026-06" merchantAccount "rid" "rid2"
    10 55 35 0 demo_store demo_settled.1 demo_store demo_ledger demo_settled.2 demo_crashed).
  - repeat constructor; vm_compute; discriminate.
  - apply (bool_decide_unpack _). vm_compute. exact I.
  - vm_compute. reflexivity.
  - eapply crash_held; [reflexivity | vm_compute; reflexivity | vm_compute; reflexivity].
  - reflexivity.
  - reflexivity.
  - apply demo_filed.
Defined.

Lemma demo_canPay lg : lg ∈ demo_legs -> canPay demo_ledger merchantAccount lg.
Proof.
  intros Hlg. unfold demo_legs, legsOf in Hlg.
  repeat apply elem_of_cons in Hlg as [Hlg|Hlg]; [..|by apply not_elem_of_nil in Hlg]; rewrite Hlg;
    (split; [eexists; split; [vm_compute; reflexivity | vm_compute; discriminate]
            | vm_compute; eexists; reflexivity]).
Qed.

Lemma settle_posts_shares_witness :
  exists stf d', settlePeriod (H := Toy.crypto) demo_io "a" "2026-06" merchantAccount 10 55 35 "rid" 0
      (demo_store, demo_ledger) = ((stf, d'), Ok tt) /\
    moves (fun x => at_ merchantAccount x 100)
      (fun x => at_ (accountID LedgerVATRemittance NSVATFederalPool) x 10 +
         at_ (accountID LedgerVATRemittance NSVATStatePool) x 55 +
         at_ (accountID LedgerVATRemittance NSVATLGAPool) x 35) demo_ledger d'.
Proof.
  destruct (settle_posts_shares (H := Toy.crypto) demo_io "a" "2026-06" merchantAccount "rid" 10 55 35 0
    demo_store demo_ledger) as (stf & d' & H1 & _ & H2).
  - reflexivity.
  - reflexivity.
  - apply demo_filed.
  - apply (bool_decide_unpack _). vm_compute. exact I.
  - apply Forall_forall. intros lg Hlg. split; [|split; [|by apply demo_canPay]];
      (repeat apply elem_of_cons in Hlg as [Hlg|Hlg]; [..|by apply not_elem_of_nil in Hlg]; rewrite Hlg;
       vm_compute; first [discriminate | reflexivity]).
  - lia.
  - lia.
  - lia.
  - exists stf, d'. split; [exact H1 | exact H2].
Defined.

(** A service restarted after the settlement of [demo_settled], with a late
    receipt of the same period *)
Definition demo_late : Service :=
  mkService ∅ (NewStore true [demo_receipt "r0" "a" 5] [] []) ∅ (mkBus [] []).

Lemma settle_late_after_restart_not_remitted_witness :
  exists svc' rec, handleSettlementRecon (H := Toy.crypto) demo_io [] "dev" "a" "2026-06" (demo_late, demo_settled.2)
      = ((svc', demo_settled.2), JSON 201 (settled rec)) /\ rec_VATKobo rec = 5.
Proof.
  destruct (settle_late_after_restart_not_remitted (H := Toy.crypto) demo_io [] "dev" "a" "2026-06"
    demo_late demo_settled.2) as (svc' & rec & H1 & H2 & _).
  - vm_compute. reflexivity.
  - discriminate.
  - vm_compute. discriminate.
  - reflexivity.
  - reflexivity.
  - intros i. reflexivity.
  - reflexivity.
  - intros name Hn.
    repeat apply elem_of_cons in Hn as [Hn|Hn]; [..|by apply not_elem_of_nil in Hn]; rewrite Hn;
      vm_compute; reflexivity.
  - exists svc', rec. split; [|rewrite H2; vm_compute; reflexivity].
    etransitivity; [exact H1|]. vm_compute. reflexivity.
Defined.

(** The federal leg posted, the state leg held and then voided from outside *)
Definition demo_stuck : DevLedger.t :=
  match demo_legs with
  | f :: s :: _ =>
      let d := (legStep merchantAccount f demo_ledger).1 in
      let d := (DevLedger.PendingTransfer (legTransfer merchantAccount s) d).1 in
      (DevLedger.VoidPending (l_pendID s) d).1
  | _ => demo_ledger
  end.

Lemma settle_retry_reverses_again_witness :
  exists a', DevLedger.accounts (attempts (H := Toy.crypto) demo_io "a" "2026-06" merchantAccount "rid" 10 55 35 3
      (demo_store, demo_stuck)).2 !! accountID LedgerVATRemittance NSVATFederalPool = Some a' /\
    debitsPosted a' ≡64 30 /\ creditsPosted a' ≡64 10.
Proof.
  edestruct (settle_retry_reverses_again (H := Toy.crypto) demo_io "a" "2026-06" merchantAccount "rid" 10 55 35 3
    demo_store demo_stuck) as (a' & H1 & H2 & H3);
    [ reflexivity | lia | lia | vm_compute; discriminate | vm_compute; discriminate
    | vm_compute; discriminate | vm_compute; discriminate | vm_compute; discriminate | | vm_compute; reflexivity | ].
  - split_and!; [eexists; split; vm_compute; reflexivity
                | eexists; split_and!; vm_compute; reflexivity
                | vm_compute; eexists; reflexivity
                | eexists; split; [vm_compute; reflexivity | vm_compute; discriminate]].
  - exists a'. split; [exact H1|]. split; [exact H2 | exact H3].
Defined.

Lemma recon_conserves_witness :
  let rcs := [mkReceipt "r" "a" "" "" "" "" "2026-06" (S754_zero false) (S754_zero false) [] "" ""
    ∅ false "" 1501 20014 "Lagos" ""
    (computeAttribution 1501 "Lagos" (mkAttributionConfig "state" 1000 5500 3500)) "" "" "" []] in
  let rec := reconOf "dev" "a" "2026-06" "rid" 0 rcs in
  rec_FederalKobo rec + rec_StateKobo rec + rec_LGAKobo rec ≡64 1501.
Proof.
  refine (proj1 (recon_conserves "dev" "a" "2026-06" "rid" 0 _ _)).
  constructor; [|constructor]. left. simpl. exists 0. vm_compute. reflexivity.
Defined.
