(* ===== verification/PosHttpLedger.v ===== *)
(** * pos-vat: the client of the core ledger (services/pos-vat/ledger.go)

    [HTTPLedger] is the [LedgerClient] that speaks to the ledger service.  The
    service is an interface, [CoreLedger], with what its contract promises of
    the endpoints ([CoreLaws]); a network that loses requests and answers lies
    in between.  JSON bodies are the values they encode; between two calls that
    write, the reads share their fate. *)

From S2P Require Import Prelude StrFacts Crypto PosLedger PosStore PosSettle.

(** ** Requests and answers *)

Inductive body :=
| accountsBody (accts : list LedgerAccount)
| transferBody (tr : LedgerTransfer)
| amountBody (amount_kobo : Z)
| emptyBody
| noBody.

Record request := mkRequest { q_method : string; q_path : string; q_body : body }.

Definition accountsRequest (accts : list LedgerAccount) : request := mkRequest "POST" "/v1/accounts" (accountsBody accts).
Definition transferRequest (tr : LedgerTransfer) : request := mkRequest "POST" "/v1/transfers" (transferBody tr).
Definition pendingRequest (tr : LedgerTransfer) : request := mkRequest "POST" "/v1/transfers/pending" (transferBody tr).
Definition postRequest (id : string) (amount : Z) : request :=
  mkRequest "POST" ("/v1/transfers/" +:+ id +:+ "/post") (amountBody amount).
Definition voidRequest (id : string) : request := mkRequest "POST" ("/v1/transfers/" +:+ id +:+ "/void") emptyBody.
Definition getRequest (id : string) : request := mkRequest "GET" ("/v1/transfers/" +:+ id) noBody.
Definition balanceRequest (id : string) : request := mkRequest "GET" ("/v1/accounts/" +:+ id +:+ "/balance") noBody.

(** Service-to-service authentication, from the environment *)
Definition setServiceAuthHeaders (env : string -> string) (serviceName : string) : list (string * string) :=
  ("X-Service-Name", serviceName) ::
  if negb (bool_decide (env "MERIDIAN_SERVICE_TOKEN" = "")) then [("X-Service-Token", env "MERIDIAN_SERVICE_TOKEN")]
  else if negb (bool_decide (env "LEDGER_SERVICE_TOKEN" = "")) then [("X-Service-Token", env "LEDGER_SERVICE_TOKEN")]
  else [("X-Dev-Role", "operator")].

(** The body of an answer: what is not JSON does not decode, what is absent
    from an object decodes to zero values. *)
Inductive reply :=
| notJSON
| transferReply (id : string) (pending voided : bool)
| balanceReply (b : LedgerBalance).

Record answer := mkAnswer { a_status : Z; a_reply : reply }.

Class CoreLedger (R : Type) := serve : request -> R -> R * answer.

(** ** The client *)

(** What becomes of an exchange *)
Inductive fate := delivered | requestLost | answerLost.
#[export] Instance fate_eq_dec : EqDecision fate.
Proof. solve_decision. Defined.

Section Client.
Context {R : Type} `{CoreLedger R}.
Implicit Types (f : fate) (r : R).

Definition exchange f (q : request) r : R * option answer :=
  match f with
  | delivered => let '(r, a) := serve q r in (r, Some a)
  | requestLost => (r, None)
  | answerLost => ((serve q r).1, None)
  end.

Definition do f (q : request) r : R * result ledgerError reply :=
  let '(r, a) := exchange f q r in
  (r, match a with
      | None => Err transportError
      | Some a => if 300 <=? a_status a then Err transportError else Ok (a_reply a)
      end).

Definition decodeID (b : reply) : result ledgerError string :=
  match b with
  | notJSON => Err transportError
  | transferReply id _ _ => Ok id
  | balanceReply _ => Ok ""
  end.

Definition bindR {A B} (x : result ledgerError A) (k : A -> result ledgerError B) : result ledgerError B :=
  match x with Ok a => k a | Err e => Err e end.

Definition HTTPCreateAccounts f (accts : list LedgerAccount) r : R := (do f (accountsRequest accts) r).1.

Definition withDefaultID (tr : LedgerTransfer) (x : result ledgerError reply) : result ledgerError string :=
  bindR x (fun b => bindR (decodeID b) (fun id => Ok (if bool_decide (id = "") then lt_ID tr else id))).

Definition HTTPTransfer f (tr : LedgerTransfer) r : R * result ledgerError string :=
  let '(r, x) := do f (transferRequest tr) r in (r, withDefaultID tr x).

Definition HTTPPendingTransfer f (tr : LedgerTransfer) r : R * result ledgerError string :=
  let '(r, x) := do f (pendingRequest tr) r in (r, withDefaultID tr x).

Definition HTTPPostPending f (pendingID : string) (amount : Z) r : R * result ledgerError string :=
  let '(r, x) := do f (postRequest pendingID amount) r in
  (r, bindR x (fun b => bindR (decodeID b) (fun _ => Ok pendingID))).

Definition HTTPVoidPending f (pendingID : string) r : R * result ledgerError unit :=
  let '(r, x) := do f (voidRequest pendingID) r in (r, bindR x (fun _ => Ok tt)).

Definition decodeState (b : reply) : result ledgerError LedgerTransferState :=
  match b with
  | notJSON => Err transportError
  | transferReply id p v => Ok (mkLedgerTransferState id p (negb p && negb v) v)
  | balanceReply _ => Ok (mkLedgerTransferState "" false true false)
  end.

Definition HTTPGetTransfer f (id : string) r : result ledgerError LedgerTransferState :=
  bindR (do f (getRequest id) r).2 decodeState.

Definition decodeBalance (b : reply) : result ledgerError LedgerBalance :=
  match b with
  | notJSON => Err transportError
  | transferReply _ _ _ => Ok (mkLedgerBalance "" 0 0 0 0)
  | balanceReply b => Ok b
  end.

Definition HTTPBalance f (id : string) r : result ledgerError LedgerBalance := bindR (do f (balanceRequest id) r).2 decodeBalance.
End Client.

(** ** Two networks *)

(** The service behind a network that delivers everything *)
Record HTTPLedger (R : Type) := mkHTTP { remote : R }.
Arguments mkHTTP {R}. Arguments remote {R}.

#[export] Instance HTTPLedger_client {R} `{CoreLedger R} : LedgerClient (HTTPLedger R) := {|
  lc_CreateAccounts a l := mkHTTP (HTTPCreateAccounts delivered a (remote l));
  lc_Transfer tr l := let '(r, x) := HTTPTransfer delivered tr (remote l) in (mkHTTP r, x);
  lc_PendingTransfer tr l := let '(r, x) := HTTPPendingTransfer delivered tr (remote l) in (mkHTTP r, x);
  lc_PostPending id a l := let '(r, x) := HTTPPostPending delivered id a (remote l) in (mkHTTP r, x);
  lc_VoidPending id l := let '(r, x) := HTTPVoidPending delivered id (remote l) in (mkHTTP r, x);
  lc_GetTransfer id l := HTTPGetTransfer delivered id (remote l);
  lc_Balance id l := HTTPBalance delivered id (remote l);
|}.

(** ... and behind one with a weather: the fate of every write, and of the
    reads after so many writes *)
Record Weather := mkWeather { writes : nat -> fate; reads : nat -> fate }.
Record Net (R : Type) (w : Weather) := mkNet { n_remote : R; sent : nat }.
Arguments mkNet {R w}. Arguments n_remote {R w}. Arguments sent {R w}.

#[export] Instance Net_client {R} `{CoreLedger R} (w : Weather) : LedgerClient (Net R w) := {|
  lc_CreateAccounts a l := mkNet (HTTPCreateAccounts (writes w (sent l)) a (n_remote l)) (S (sent l));
  lc_Transfer tr l := let '(r, x) := HTTPTransfer (writes w (sent l)) tr (n_remote l) in (mkNet r (S (sent l)), x);
  lc_PendingTransfer tr l := let '(r, x) := HTTPPendingTransfer (writes w (sent l)) tr (n_remote l) in (mkNet r (S (sent l)), x);
  lc_PostPending id a l := let '(r, x) := HTTPPostPending (writes w (sent l)) id a (n_remote l) in (mkNet r (S (sent l)), x);
  lc_VoidPending id l := let '(r, x) := HTTPVoidPending (writes w (sent l)) id (n_remote l) in (mkNet r (S (sent l)), x);
  lc_GetTransfer id l := HTTPGetTransfer (reads w (sent l)) id (n_remote l);
  lc_Balance id l := HTTPBalance (reads w (sent l)) id (n_remote l);
|}.

(** ** What the contract of the service promises *)

(** [view]: whether a transfer is pending, and whether it is voided *)
Class CoreLaws (R : Type) `{CoreLedger R} := {
  view : string -> R -> option (bool * bool);
  serve_get id r : serve (getRequest id) r =
    (r, match view id r with Some (p, v) => mkAnswer 200 (transferReply id p v) | None => mkAnswer 404 notJSON end);
  (** A hold is refused without effect, or accepted: then it is pending and
      can be placed again, which changes nothing. *)
  serve_pending tr r : lt_ID tr <> "" ->
    let '(r', a) := serve (pendingRequest tr) r in
    (300 <= a_status a /\ r' = r) \/
    (a_status a < 300 /\ a_reply a <> notJSON /\ (exists v, view (lt_ID tr) r' = Some (true, v)) /\
     (forall j, j <> lt_ID tr -> view j r' = view j r) /\
     exists a', serve (pendingRequest tr) r' = (r', a') /\ a_status a' < 300 /\ a_reply a' <> notJSON);
  serve_post id x r :
    let '(r', a) := serve (postRequest id x) r in
    (a_status a < 300 -> view id r' = Some (false, false)) /\ (forall j, j <> id -> view j r' = view j r);
  serve_transfer tr r : lt_ID tr <> "" ->
    let '(r', a) := serve (transferRequest tr) r in
    (a_status a < 300 -> view (lt_ID tr) r' = Some (false, false)) /\ (forall j, j <> lt_ID tr -> view j r' = view j r);
}.

Section Laws.
Context {R : Type} `{CoreLaws R}.
Implicit Types r : R.

Lemma get_view id r : HTTPGetTransfer delivered id r =
  match view id r with Some (p, v) => Ok (mkLedgerTransferState id p (negb p && negb v) v) | None => Err transportError end.
Proof. unfold HTTPGetTransfer, do, exchange. rewrite serve_get. by destruct (view id r) as [[p v]|]. Qed.

Lemma posted_view id r : isPostedLeg id (mkHTTP r) = bool_decide (view id r = Some (false, false)).
Proof. unfold isPostedLeg. cbn. rewrite get_view. by destruct (view id r) as [[[] []]|]. Qed.

Lemma withDefaultID_ok tr (x : result ledgerError reply) id : withDefaultID tr x = Ok id -> exists b, x = Ok b /\ b <> notJSON.
Proof. destruct x as [[]|]; cbn; [done|eauto..|done]. Qed.

Lemma do_delivered (q : request) r : do delivered q r =
  ((serve q r).1, if 300 <=? a_status (serve q r).2 then Err transportError else Ok (a_reply (serve q r).2)).
Proof. unfold do, exchange. by destruct (serve q r). Qed.

Lemma pending_cases tr r : lt_ID tr <> "" ->
  (exists e, HTTPPendingTransfer delivered tr r = (r, Err e)) \/
  exists r' id, HTTPPendingTransfer delivered tr r = (r', Ok id) /\ (exists v, view (lt_ID tr) r' = Some (true, v)) /\
    (forall j, j <> lt_ID tr -> view j r' = view j r) /\ exists id', HTTPPendingTransfer delivered tr r' = (r', Ok id').
Proof.
  intros Hid. pose proof (serve_pending tr r Hid) as Hl. unfold HTTPPendingTransfer at 1 2. rewrite !do_delivered.
  destruct (serve (pendingRequest tr) r) as [r' a]. cbn [fst snd].
  destruct Hl as [[Hs ->]|(Hs & Hj & Hv & Ho & a' & E & Hs' & Hj')].
  - left. destruct (Z.leb_spec 300 (a_status a)); [|lia]. by eexists.
  - right. destruct (Z.leb_spec 300 (a_status a)); [lia|]. exists r'.
    assert (Hr : exists id', HTTPPendingTransfer delivered tr r' = (r', Ok id')).
    { unfold HTTPPendingTransfer. rewrite do_delivered, E. cbn [fst snd]. destruct (Z.leb_spec 300 (a_status a')); [lia|].
      destruct (a_reply a'); [done|..]; cbn; eauto. }
    destruct (a_reply a); [done|..]; cbn; eauto 10.
Qed.

Lemma post_ok id x r r' id' : HTTPPostPending delivered id x r = (r', Ok id') -> view id r' = Some (false, false).
Proof.
  unfold HTTPPostPending. rewrite do_delivered. pose proof (serve_post id x r) as Hl. destruct (serve (postRequest id x) r) as [r1 a].
  cbn [fst snd]. destruct (Z.leb_spec 300 (a_status a)); [done|]. destruct Hl as [Hv _]. intros [= <- _]. by apply Hv.
Qed.

Lemma post_other id x r j : j <> id -> view j (HTTPPostPending delivered id x r).1 = view j r.
Proof.
  unfold HTTPPostPending. rewrite do_delivered. pose proof (serve_post id x r) as Hl. destruct (serve (postRequest id x) r) as [r1 a].
  cbn [fst snd]. by apply Hl.
Qed.

Lemma transfer_view tr r r' id : lt_ID tr <> "" -> HTTPTransfer delivered tr r = (r', Ok id) ->
  view (lt_ID tr) r' = Some (false, false) /\ forall j, j <> lt_ID tr -> view j r' = view j r.
Proof.
  intros Hid. pose proof (serve_transfer tr r Hid) as Ht. unfold HTTPTransfer. rewrite do_delivered. destruct (serve _ r) as [r1 a]. cbn [fst snd].
  destruct (Z.leb_spec 300 (a_status a)); [done|]. intros [= -> _]. destruct Ht as [Hv Ho]. split; [by apply Hv|exact Ho].
Qed.

#[export] Instance HTTPLedger_laws : LedgerLaws (HTTPLedger R).
Proof.
  constructor.
  - intros tr [r] Hid Hp. cbn [lc_PendingTransfer HTTPLedger_client remote].
    destruct (pending_cases tr r Hid) as [[e ->]|(r' & id & -> & [v Hv] & _)]; [done|]. cbn [fst]. rewrite posted_view, Hv. done.
  - intros tr [r] l' id Hid. cbn [lc_PendingTransfer HTTPLedger_client remote].
    destruct (pending_cases tr r Hid) as [[e ->]|(r' & id1 & -> & _ & _ & id' & E)]; [done|]. intros [= <- _]. cbn [remote].
    rewrite E. by exists id'.
  - intros id x [r] l' id'. cbn [lc_PostPending HTTPLedger_client remote]. destruct (HTTPPostPending _ _ _ r) as [r' y] eqn:E.
    intros [= <- ->]. rewrite posted_view. apply bool_decide_eq_true_2. by eapply post_ok.
  - intros tr [r] j Hid Hj. cbn [lc_PendingTransfer lc_GetTransfer HTTPLedger_client remote].
    destruct (pending_cases tr r Hid) as [[e ->]|(r' & id1 & -> & _ & Ho & _)]; [done|]. cbn [fst remote]. by rewrite !get_view, Ho.
  - intros id x [r] j Hj. cbn [lc_PostPending lc_GetTransfer HTTPLedger_client remote]. pose proof (post_other id x r j Hj) as Ho.
    destruct (HTTPPostPending _ _ _ r) as [r' y]. cbn [fst remote] in *. by rewrite !get_view, Ho.
Qed.
End Laws.

(** ** An outage *)

(** From exchange [k] on nothing gets through; the exchange itself may. *)
Definition outage (k : nat) (f : fate) : Weather :=
  mkWeather (fun n => if (n <? k)%nat then delivered else if (n =? k)%nat then f else requestLost)
    (fun n => if (n <=? k)%nat then delivered else requestLost).

Section Outage.
Context `{Crypto} {R : Type} `{CoreLaws R}.
Variables (k : nat) (f : fate).
Implicit Types r : R.
Abbreviation net := (Net R (outage k f)).

Lemma outage_up n : (n < k)%nat -> writes (outage k f) n = delivered.
Proof. intros Hn. unfold outage; cbn [writes reads]. destruct (Nat.ltb_spec n k); [done|lia]. Qed.
Lemma outage_at : writes (outage k f) k = f.
Proof. unfold outage; cbn [writes reads]. destruct (Nat.ltb_spec k k); [lia|]. by rewrite Nat.eqb_refl. Qed.
Lemma outage_down n : (k < n)%nat -> writes (outage k f) n = requestLost.
Proof. intros Hn. unfold outage; cbn [writes reads]. destruct (Nat.ltb_spec n k); [lia|]. destruct (Nat.eqb_spec n k); [lia|done]. Qed.
Lemma outage_read n : (n <= k)%nat -> reads (outage k f) n = delivered.
Proof. intros Hn. unfold outage; cbn [writes reads]. destruct (Nat.leb_spec n k); [done|lia]. Qed.
Lemma outage_unread n : (k < n)%nat -> reads (outage k f) n = requestLost.
Proof. intros Hn. unfold outage; cbn [writes reads]. destruct (Nat.leb_spec n k); [lia|done]. Qed.

Lemma get_lost id r : HTTPGetTransfer requestLost id r = Err transportError.
Proof. reflexivity. Qed.

Lemma pending_lost tr r g : g <> delivered -> exists r', HTTPPendingTransfer g tr r = (r', Err transportError) /\
  (r' = r \/ r' = (HTTPPendingTransfer delivered tr r).1).
Proof.
  destruct g; intros Hg; [done|by exists r; eauto|]. unfold HTTPPendingTransfer. rewrite do_delivered. unfold do, exchange.
  exists (serve (pendingRequest tr) r).1. eauto.
Qed.

Lemma post_lost id x r g : g <> delivered -> exists r', HTTPPostPending g id x r = (r', Err transportError) /\
  (r' = r \/ r' = (HTTPPostPending delivered id x r).1).
Proof.
  destruct g; intros Hg; [done|by exists r; eauto|]. unfold HTTPPostPending. rewrite do_delivered. unfold do, exchange.
  exists (serve (postRequest id x) r).1. eauto.
Qed.

(** Nothing reaches the service when the network is down. *)
Lemma legStep_down merchant lg (l : net) : (k < sent l)%nat ->
  exists e l', legStep merchant lg l = (l', Err (legPendingFailed (l_name lg) e)) /\ n_remote l' = n_remote l.
Proof.
  destruct l as [r n]. cbn [sent]. intros Hn. unfold legStep, isPostedLeg.
  cbn [lc_GetTransfer lc_PendingTransfer Net_client n_remote sent]. rewrite !(outage_unread n), get_lost by done.
  rewrite (outage_down n) by done. cbn [sent n_remote]. change (HTTPPendingTransfer requestLost (legTransfer merchant lg) r) with (r, Err transportError : result ledgerError string).
  cbn [sent n_remote]. rewrite outage_unread, get_lost by lia. eexists _, _. split; [reflexivity|done].
Qed.

Lemma legsLoop_down tenant period merchant all legs posted (l : net) : (k < sent l)%nat ->
  n_remote (legsLoop tenant period merchant all legs posted l).1 = n_remote l.
Proof.
  intros Hn. revert posted. induction legs as [|lg legs IH]; intros posted; cbn [legsLoop]; [done|].
  destruct (_ <=? _); [apply IH|]. by destruct (legStep_down merchant lg l Hn) as (e & l' & -> & E).
Qed.

Lemma compensate_down tenant period merchant all posted (l : net) : (k < sent l)%nat ->
  n_remote (compensate tenant period merchant all posted l) = n_remote l.
Proof.
  unfold compensate. revert l. induction all as [|lg all IH]; intros [r n] Hn; [done|]. cbn [foldl].
  case_bool_decide; [|by apply IH]. cbn [lc_Transfer Net_client sent n_remote] in *. rewrite outage_down by done.
  change (HTTPTransfer requestLost (reversal tenant period merchant lg) r) with (r, Err transportError : result ledgerError string).
  rewrite IH; [done|cbn [fst sent]; lia].
Qed.

(** The second half of [legStep] *)
Definition postLeg {L : Type} `{LedgerClient L} (lg : leg) (l : L) : L * result settleError unit :=
  let '(l, r) := lc_PostPending (l_pendID lg) (l_amount lg) l in
  match r with Ok _ => (l, Ok tt) | Err e => (l, Err (legPostFailed (l_name lg) e (isResumable (l_pendID lg) l))) end.

Lemma post_outage lg r1 r' n : (n < k)%nat -> postLeg lg (mkHTTP r1) = (mkHTTP r', Ok tt) ->
  let '(l, x) := postLeg lg (mkNet r1 (S n) : net) in
  (x = Ok tt /\ l = mkNet r' (sent l) /\ (sent l <= k)%nat) \/
  ((k < sent l)%nat /\ (n_remote l = r' \/ (x <> Ok tt /\ n_remote l = r1))).
Proof.
  intros Hn. unfold postLeg. cbn [lc_PostPending HTTPLedger_client Net_client remote n_remote sent]. intros Hrun.
  destruct (HTTPPostPending delivered (l_pendID lg) (l_amount lg) r1) as [r2 z] eqn:E2. destruct z as [id|e]; [|done]. injection Hrun as ->.
  destruct (decide (S n = k)) as [HS|HS].
  - rewrite HS, outage_at. destruct (decide (f = delivered)) as [->|Hf].
    + rewrite E2. right. cbn [sent n_remote]. split; [lia|by left].
    + destruct (post_lost (l_pendID lg) (l_amount lg) r1 f Hf) as (r3 & -> & Hr3). rewrite E2 in Hr3. cbn [fst] in Hr3.
      right. cbn [sent n_remote]. split; [lia|]. destruct Hr3 as [->| ->]; [by right|by left].
  - rewrite outage_up, E2 by lia. left. cbn [sent]. split; [done|]. split; [done|lia].
Qed.

(** A leg that goes through goes through here, or the outage begins with the
    service before the leg, holding it, or after it. *)
Lemma legStep_outage merchant lg r r' n : (n <= k)%nat -> l_pendID lg <> "" ->
  legStep merchant lg (mkHTTP r) = (mkHTTP r', Ok tt) ->
  let '(l, x) := legStep merchant lg (mkNet r n : net) in
  (x = Ok tt /\ l = mkNet r' (sent l) /\ (sent l <= k)%nat) \/
  ((k < sent l)%nat /\ (n_remote l = r' \/ (x <> Ok tt /\ (n_remote l = r \/ isPostedLeg (l_pendID lg) (mkHTTP r) = false /\
     exists id, lc_PendingTransfer (legTransfer merchant lg) (mkHTTP r) = (mkHTTP (n_remote l), Ok id))))).
Proof.
  intros Hn Hid. unfold legStep.
  assert (Hread : forall i r n, (n <= k)%nat -> lc_GetTransfer i (mkNet r n : net) = HTTPGetTransfer delivered i r).
  { intros i r0 m Hm. cbn [lc_GetTransfer Net_client n_remote sent]. by rewrite outage_read. }
  assert (Hposted : forall i r n, (n <= k)%nat -> isPostedLeg i (mkNet r n : net) = isPostedLeg i (mkHTTP r)).
  { intros i r0 m Hm. unfold isPostedLeg. by rewrite Hread. }
  rewrite Hposted by done. destruct (isPostedLeg _ (mkHTTP r)) eqn:Ep.
  { intros [= <-]. left. cbn [sent]. done. }
  assert (Hlate : forall i r m, (k < m)%nat -> lc_GetTransfer i (mkNet r m : net) = Err transportError).
  { intros i r0 m Hm. cbn [lc_GetTransfer Net_client n_remote sent]. by rewrite outage_unread, get_lost. }
  set (tr := legTransfer merchant lg). assert (Htr : lt_ID tr <> "") by exact Hid.
  assert (Hp : (HTTPPendingTransfer delivered tr r).1 = r \/
    exists id, lc_PendingTransfer tr (mkHTTP r) = (mkHTTP (HTTPPendingTransfer delivered tr r).1, Ok id)).
  { cbn [lc_PendingTransfer HTTPLedger_client remote].
    destruct (pending_cases tr r Htr) as [[e ->]|(r2 & id & -> & _)]; [by left|]. right. by exists id. }
  cbn [lc_PendingTransfer HTTPLedger_client Net_client remote n_remote sent] in *.
  destruct (HTTPPendingTransfer delivered tr r) as [r1 y] eqn:E1. cbn [fst] in Hp.
  destruct (decide (n = k)) as [->|Hne].
  - (* the hold is the exchange *) intros _. rewrite outage_at. assert (Hh : exists r2 y', HTTPPendingTransfer f tr r = (r2, y') /\ (r2 = r \/ r2 = r1)).
    { destruct (decide (f = delivered)) as [->|Hf]; [rewrite E1; eauto|]. destruct (pending_lost tr r f Hf) as (r2 & -> & Hr2). rewrite E1 in Hr2. eauto. }
    destruct Hh as (r2 & y' & -> & Hr2). rewrite Hlate by lia.
    assert (Hc : r2 = r \/ exists id, (mkHTTP r1, y) = (mkHTTP r2, Ok id)) by (destruct Hr2 as [->| ->]; auto).
    destruct y' as [id|e].
    + cbn [lc_PostPending Net_client sent n_remote]. rewrite outage_down by lia. right. cbn [sent n_remote]. split; [lia|]. right. split; [done|].
      destruct Hc; auto.
    + right. cbn [sent n_remote]. split; [lia|]. right. split; [done|]. destruct Hc; auto.
  - rewrite outage_up, E1 by lia. rewrite Hread by lia. cbn [lc_GetTransfer HTTPLedger_client remote].
    pose proof (post_outage lg r1 r' n ltac:(lia)) as Hpo.
    assert (Hgo : postLeg lg (mkHTTP r1) = (mkHTTP r', Ok tt) ->
       let '(l, x) := postLeg lg (mkNet r1 (S n) : net) in
       (x = Ok tt /\ l = mkNet r' (sent l) /\ (sent l <= k)%nat) \/
       ((k < sent l)%nat /\ (n_remote l = r' \/ (x <> Ok tt /\ (n_remote l = r \/ false = false /\
         exists id, (mkHTTP r1, y) = (mkHTTP (n_remote l), Ok id)))))).
    { intros Hrun. specialize (Hpo Hrun). destruct (postLeg lg (mkNet r1 (S n) : net)) as [l x].
      destruct Hpo as [Hpo|[Hk [Hl|[Hx Hl]]]]; [by left| |]; right; (split; [done|]); [by left|]. right. split; [done|].
      rewrite Hl. destruct Hp; auto. }
    destruct y as [id|e]; [exact Hgo|]. destruct (HTTPGetTransfer delivered (l_pendID lg) r1) eqn:Eg; [exact Hgo|done].
Qed.

Lemma legsLoop_outage tenant period merchant all legs posted posted' r rf n : (n <= k)%nat ->
  Forall (fun lg => l_pendID lg <> "") legs ->
  legsLoop tenant period merchant all legs posted (mkHTTP r) = (mkHTTP rf, Ok tt) ->
  crash merchant legs (mkHTTP r) (mkHTTP (n_remote (legsLoop tenant period merchant all legs posted' (mkNet r n : net)).1)).
Proof.
  intros Hn Hne. revert posted posted' r n Hn. induction legs as [|lg legs IH]; intros posted posted' r n Hn; cbn [legsLoop]; [constructor|].
  apply Forall_cons in Hne as [Hid Hne]. destruct (l_amount lg <=? 0) eqn:Ha.
  { intros Hrun. apply crash_skip; [done|]. by eapply IH. }
  pose proof (fun r' => legStep_outage merchant lg r r' n Hn Hid) as Hl. destruct (legStep merchant lg (mkHTTP r)) as [[r'] [[]|e]] eqn:E; [|by destruct e as [| |? ? []]].
  specialize (Hl r' eq_refl). intros Hrun. destruct (legStep merchant lg (mkNet r n : net)) as [l x].
  destruct Hl as [(-> & -> & Hk)|(Hk & Hl)].
  { eapply crash_later; [done|exact E|]. by eapply IH. }
  assert (Hc : crash merchant (lg :: legs) (mkHTTP r) (mkHTTP (n_remote l))).
  { destruct Hl as [->|(_ & [->|(Hp & id & Hh)])]; [by eapply crash_later; [done|exact E|constructor]|constructor|by eapply crash_held]. }
  destruct x as [[]|[| |nm e []]]; cbn [fst]; [by rewrite legsLoop_down|exact Hc..|by rewrite compensate_down].
Qed.
End Outage.

(** C34: An outage of the network is a crash.  Take a settlement that completes
    over a network that holds; let the network break down at any exchange - the
    request or only its answer being lost, and nothing getting through from
    then on, the reversing transfers included - and settle again when it is
    back: the second run completes, and leaves the service as the undisturbed
    settlement does. *)
Theorem outage_then_retry `{Crypto} {R : Type} `{CoreLaws R} (io io0 io' : SettleIO) (tenant period merchant rid rid0 rid' : string)
  (f s lg supp : Z) (st st0 st' stf : Store) (r rf : R) (k : nat) (x : fate) :
  let legs := legsOf tenant period f s lg supp in
  Forall (fun y => l_pendID y <> "") legs -> NoDup (map l_pendID legs) ->
  settlePeriod io tenant period merchant f s lg rid supp (st, mkHTTP r) = ((stf, mkHTTP rf), Ok tt) ->
  saveOk io' = true -> finalSaveOk io' = true -> filed tenant period st' ->
  let rc := n_remote (settlePeriod io0 tenant period merchant f s lg rid0 supp (st0, mkNet r 0 : Net R (outage k x))).1.2 in
  exists stf', settlePeriod io' tenant period merchant f s lg rid' supp (st', mkHTTP rc) = ((stf', mkHTTP rf), Ok tt) /\
    sp_Status <$> GetSettledPeriod tenant period stf' = Some "settled".
Proof.
  intros legs Hne Hnd Hrun%settlePeriod_inv Ho1 Ho2 Hf rc.
  assert (Hc : crash merchant legs (mkHTTP r) (mkHTTP rc)).
  { unfold rc, settlePeriod. destruct (SaveSettledPeriod (saveOk io0) _ st0) as [st1 [[]|e]]; [|constructor].
    fold legs. pose proof (legsLoop_outage k x tenant period merchant legs legs [] [] r rf 0 ltac:(lia) Hne Hrun) as Hl.
    destruct (legsLoop _ _ _ _ _ _ (mkNet r 0 : Net R (outage k x))) as [l [[]|[]]]; cbn [fst snd] in *; try exact Hl;
      by destruct (SaveSettledPeriod _ _ st1). }
  pose proof (legsLoop_resume tenant period merchant legs legs [] [] _ _ _ Hne Hnd Hrun Hc) as Hrun'.
  destruct (settlePeriod_done io' tenant period merchant f s lg rid' supp st' _ _ Ho1 Ho2 Hf Hrun') as (stf' & E & Hm & _).
  exists stf'. split; [exact E|]. by rewrite Hm.
Qed.

(** ** A lost answer *)

Definition answerLostAt (i : nat) : Weather := mkWeather (fun n => if (n =? i)%nat then answerLost else delivered) (fun _ => delivered).

Section LostAnswer.
Context `{Crypto} {R : Type} `{CoreLaws R}.
Variable i : nat.
Implicit Types r : R.
Abbreviation net := (Net R (answerLostAt i)).

Lemma calm_posted j r n : isPostedLeg j (mkNet r n : net) = isPostedLeg j (mkHTTP r).
Proof. reflexivity. Qed.

(** Before and after the exchange the network is the reliable one. *)
Lemma legStep_calm merchant lg r r' n : n <> i -> S n <> i -> isPostedLeg (l_pendID lg) (mkHTTP r) = false ->
  legStep merchant lg (mkHTTP r) = (mkHTTP r', Ok tt) -> legStep merchant lg (mkNet r n : net) = (mkNet r' (S (S n)), Ok tt).
Proof.
  intros Hn1 Hn2 Hp. unfold legStep. rewrite calm_posted, Hp.
  cbn [lc_PendingTransfer lc_PostPending lc_GetTransfer HTTPLedger_client Net_client remote n_remote sent].
  assert (Hw : forall m, m <> i -> writes (answerLostAt i) m = delivered).
  { intros m Hm. unfold answerLostAt; cbn [writes]. destruct (Nat.eqb_spec m i); [done|done]. }
  rewrite Hw by done. destruct (HTTPPendingTransfer _ _ r) as [r1 y]. cbn [remote n_remote sent]. change (reads (answerLostAt i) (S n)) with delivered.
  rewrite Hw by done. destruct (HTTPPostPending _ _ _ r1) as [r2 z].
  destruct y; [|destruct (HTTPGetTransfer _ _ r1); [|done]]; (destruct z; [|done]); by intros [= <-].
Qed.

(** A leg whose posting is executed and whose answer is lost counts as one
    that cannot be resumed. *)
Lemma legStep_lost merchant lg r r' n : i = S n -> isPostedLeg (l_pendID lg) (mkHTTP r) = false ->
  legStep merchant lg (mkHTTP r) = (mkHTTP r', Ok tt) ->
  legStep merchant lg (mkNet r n : net) = (mkNet r' (S (S n)), Err (legPostFailed (l_name lg) transportError false)).
Proof.
  intros Hi Hp Hs. pose proof (legStep_posted _ _ _ _ Hs) as Hd. revert Hs. unfold legStep. rewrite calm_posted, Hp.
  cbn [lc_PendingTransfer lc_PostPending lc_GetTransfer HTTPLedger_client Net_client remote n_remote sent].
  replace (writes (answerLostAt i) n) with delivered by (unfold answerLostAt; cbn [writes]; destruct (Nat.eqb_spec n i); [lia|done]).
  destruct (HTTPPendingTransfer _ _ r) as [r1 y]. cbn [remote n_remote sent]. change (reads (answerLostAt i) (S n)) with delivered.
  replace (writes (answerLostAt i) (S n)) with answerLost by (unfold answerLostAt; cbn [writes]; destruct (Nat.eqb_spec (S n) i); [done|lia]).
  assert (Hl : forall r2 z, HTTPPostPending delivered (l_pendID lg) (l_amount lg) r1 = (r2, z) ->
    HTTPPostPending answerLost (l_pendID lg) (l_amount lg) r1 = (r2, Err transportError)).
  { intros r2 z. unfold HTTPPostPending, do, exchange. destruct (serve _ r1). by intros [= <- _]. }
  destruct (HTTPPostPending delivered _ _ r1) as [r2 z]. rewrite (Hl r2 z eq_refl).
  assert (Hres : r2 = r' -> isResumable (l_pendID lg) (mkNet r2 (S (S n)) : net) = false).
  { intros ->. revert Hd. unfold isResumable, isPostedLeg. cbn [lc_GetTransfer Net_client HTTPLedger_client remote n_remote sent].
    change (reads (answerLostAt i) (S (S n))) with delivered. destruct (HTTPGetTransfer _ _ r') as [ts|]; [|done]. intros ->. by rewrite andb_false_r. }
  destruct y; [|destruct (HTTPGetTransfer _ _ r1); [|done]]; (destruct z; [|done]); intros [= ->]; by rewrite Hres.
Qed.
End LostAnswer.

(** The run of the legs in which the answer to the posting of the state share
    is lost: the reversal of the federal share is its last exchange. *)
Lemma lost_run `{Crypto} {R : Type} `{CoreLaws R} (tenant period merchant : string) (fed sta lga : leg) (r r1 r2 r3 : R) (id : string) :
  l_name fed = "federal" -> l_name sta = "state" -> l_name lga = "lga" -> 0 < l_amount fed -> 0 < l_amount sta ->
  isPostedLeg (l_pendID fed) (mkHTTP r) = false -> legStep merchant fed (mkHTTP r) = (mkHTTP r1, Ok tt) ->
  isPostedLeg (l_pendID sta) (mkHTTP r1) = false -> legStep merchant sta (mkHTTP r1) = (mkHTTP r2, Ok tt) ->
  HTTPTransfer delivered (reversal tenant period merchant fed) r2 = (r3, Ok id) ->
  legsLoop tenant period merchant [fed; sta; lga] [fed; sta; lga] [] (mkNet r 0 : Net R (answerLostAt 3)) =
    (mkNet r3 5, Err (legPostFailed "state" transportError false)).
Proof.
  intros Hnf Hns Hnl Hf Hs Hp1 Hl1 Hp2 Hl2 Hr. apply Z.leb_gt in Hf, Hs. cbn [legsLoop].
  rewrite Hf, (legStep_calm 3 merchant fed r r1 0) by done. rewrite Hs, (legStep_lost 3 merchant sta r1 r2 2) by done.
  rewrite Hns. f_equal. unfold compensate. cbn [foldl]. rewrite Hnf, Hns, Hnl.
  change (bool_decide ("federal" ∈ ["federal"])) with true. change (bool_decide ("state" ∈ ["federal"])) with false.
  change (bool_decide ("lga" ∈ ["federal"])) with false.
  cbn [lc_Transfer Net_client n_remote sent]. change (writes (answerLostAt 3) 4) with delivered. by rewrite Hr.
Qed.

(** Its retry finds the first two legs posted. *)
Lemma retry_run `{Crypto} {R : Type} `{CoreLaws R} (tenant period merchant : string) (fed sta lga : leg) (r3 r4 : R) :
  l_pendID lga <> "" -> 0 < l_amount fed -> 0 < l_amount sta ->
  isPostedLeg (l_pendID fed) (mkHTTP r3) = true -> isPostedLeg (l_pendID sta) (mkHTTP r3) = true ->
  legsLoop tenant period merchant [fed; sta; lga] [lga] [] (mkHTTP r3) = (mkHTTP r4, Ok tt) ->
  legsLoop tenant period merchant [fed; sta; lga] [fed; sta; lga] [] (mkHTTP r3) = (mkHTTP r4, Ok tt).
Proof.
  intros Hne Hf Hs Hpf Hps Hl. apply Z.leb_gt in Hf, Hs. cbn [legsLoop]. rewrite Hf. unfold legStep at 1. rewrite Hpf.
  rewrite Hs. unfold legStep at 1. rewrite Hps.
  apply (legsLoop_resume tenant period merchant [fed; sta; lga] [lga] [] [l_name sta; l_name fed] (mkHTTP r3)); [| |exact Hl|constructor];
    [by repeat constructor|by apply NoDup_singleton].
Qed.

(** C38: A lost answer gives a remittance back.  When the answer of the posting
    of the state share is lost - the service executed it, the next reads get
    through -, the saga takes the share for one that can never be posted and
    reverses the federal share; the retry finds both shares posted and marks
    the period settled, with the federal share back at the merchant. *)
Theorem lost_answer_reverses_posted_share `{Crypto} {R : Type} `{CoreLaws R} (io io' : SettleIO) (tenant period merchant rid rid' : string)
  (f s lg supp : Z) (st : Store) (r r1 r2 r3 r4 : R) (id : string) :
  let fed := mkLeg "federal" (pendID tenant period "federal" supp) f (accountID LedgerVATRemittance NSVATFederalPool) in
  let sta := mkLeg "state" (pendID tenant period "state" supp) s (accountID LedgerVATRemittance NSVATStatePool) in
  let lga := mkLeg "lga" (pendID tenant period "lga" supp) lg (accountID LedgerVATRemittance NSVATLGAPool) in
  let rev := reversal tenant period merchant fed in
  0 < f -> 0 < s -> saveOk io = true -> finalSaveOk io = true -> saveOk io' = true -> finalSaveOk io' = true -> filed tenant period st ->
  NoDup [l_pendID fed; l_pendID sta; l_pendID lga; lt_ID rev; ""] ->
  isPostedLeg (l_pendID fed) (mkHTTP r) = false -> legStep merchant fed (mkHTTP r) = (mkHTTP r1, Ok tt) ->
  isPostedLeg (l_pendID sta) (mkHTTP r1) = false -> legStep merchant sta (mkHTTP r1) = (mkHTTP r2, Ok tt) ->
  HTTPTransfer delivered rev r2 = (r3, Ok id) ->
  legsLoop tenant period merchant [fed; sta; lga] [lga] [] (mkHTTP r3) = (mkHTTP r4, Ok tt) ->
  exists st' net, settlePeriod io tenant period merchant f s lg rid supp (st, mkNet r 0 : Net R (answerLostAt 3)) =
      ((st', net), Err (legPostFailed "state" transportError false)) /\
    exists stf, settlePeriod io' tenant period merchant f s lg rid' supp (st', mkHTTP (n_remote net)) = ((stf, mkHTTP r4), Ok tt) /\
      sp_Status <$> GetSettledPeriod tenant period stf = Some "settled" /\
      isPostedLeg (lt_ID rev) (mkHTTP r4) = true.
Proof.
  intros fed sta lga rev Hf Hs Ho1 Ho2 Ho3 Ho4 Hfiled Hnd Hp1 Hl1 Hp2 Hl2 Hr Hl3.
  assert (Hrev : reversal tenant period merchant fed = rev) by reflexivity.
  assert (Hlegs : legsOf tenant period f s lg supp = [fed; sta; lga]) by reflexivity.
  assert (Hdef : (l_amount fed = f /\ l_name fed = "federal") /\ (l_amount sta = s /\ l_name sta = "state") /\ l_name lga = "lga") by done.
  clearbody rev. clearbody fed sta lga. destruct Hdef as ((Haf & Hnf) & (Has & Hns) & Hnl).
  assert (Hids : l_pendID fed <> l_pendID sta /\ l_pendID fed <> lt_ID rev /\ l_pendID sta <> lt_ID rev /\ l_pendID lga <> lt_ID rev /\
    l_pendID fed <> "" /\ l_pendID sta <> "" /\ l_pendID lga <> "" /\ lt_ID rev <> "").
  { rewrite !NoDup_cons in Hnd. repeat split; set_solver. }
  clear Hnd. destruct Hids as (Hfs & Hfr & Hsr & Hlr & Hf0 & Hs0 & Hl0 & Hr0).
  destruct (transfer_view rev r2 r3 id Hr0 Hr) as [Hv3 Ho3'].
  assert (Hpf : isPostedLeg (l_pendID fed) (mkHTTP r3) = true).
  { rewrite posted_view, Ho3' by done. rewrite <- posted_view. unfold isPostedLeg.
    pose proof (legStep_other sta (mkHTTP r1) merchant (l_pendID fed) Hs0 Hfs) as Hx. rewrite Hl2 in Hx. cbn [fst] in Hx. rewrite Hx. exact (legStep_posted _ _ _ _ Hl1). }
  assert (Hps : isPostedLeg (l_pendID sta) (mkHTTP r3) = true).
  { rewrite posted_view, Ho3' by done. rewrite <- posted_view. exact (legStep_posted _ _ _ _ Hl2). }
  pose proof (lost_run tenant period merchant fed sta lga r r1 r2 r3 id Hnf Hns Hnl ltac:(lia) ltac:(lia) Hp1 Hl1 Hp2 Hl2 ltac:(by rewrite Hrev)) as Hrun.
  pose proof (retry_run tenant period merchant fed sta lga r3 r4 Hl0 ltac:(lia) ltac:(lia) Hpf Hps Hl3) as Hrun'.
  set (sp := markerOf tenant period f s lg rid supp (GetSettledPeriod tenant period st)).
  pose proof (marker_filed tenant period f s lg rid supp st Hfiled) as [Ht Hp]. fold sp in Ht, Hp.
  set (st' := (SaveSettledPeriod true (with_status "failed" (failReason (legPostFailed "state" transportError false)) sp)
    (SaveSettledPeriod true sp st).1).1).
  exists st', (mkNet r3 5). split.
  { unfold settlePeriod. fold sp. rewrite Ho1, SaveSettledPeriod_ok, Hlegs, Hrun, Ho2. reflexivity. }
  assert (Hfiled' : filed tenant period st').
  { clearbody sp. intros x. unfold GetSettledPeriod. cbn. rewrite Ht, Hp, lookup_insert_eq. by intros [= <-]. }
  destruct (settlePeriod_done io' tenant period merchant f s lg rid' supp st' (mkHTTP r3) (mkHTTP r4) Ho3 Ho4 Hfiled') as (stf & E & Hm & _).
  { by rewrite Hlegs. }
  exists stf. split; [exact E|]. split; [by rewrite Hm|].
  (* the reversal is still posted *)
  rewrite <- (bool_decide_eq_true_2 _ Hv3), <- posted_view. revert Hl3. cbn [legsLoop]. destruct (l_amount lga <=? 0); [by intros [= <-]|].
  unfold isPostedLeg. pose proof (legStep_other lga (mkHTTP r3) merchant (lt_ID rev) Hl0 (not_eq_sym Hlr)) as Hx.
  destruct (legStep merchant lga (mkHTTP r3)) as [l4 [[]|[| |? ? []]]]; try done. intros [= ->]. cbn [fst] in Hx. by rewrite Hx.
Qed.

(** ** Authentication and missing fields *)

(** The development role is sent only without any token. *)
Lemma dev_role_without_token env name v : ("X-Dev-Role", v) ∈ setServiceAuthHeaders env name ->
  env "MERIDIAN_SERVICE_TOKEN" = "" /\ env "LEDGER_SERVICE_TOKEN" = "".
Proof.
  unfold setServiceAuthHeaders. intros Hin. apply list_elem_of_In in Hin. destruct Hin as [Hin|Hin]; [done|]. revert Hin.
  do 2 case_bool_decide; cbn; naive_solver.
Qed.

(** An object without the fields of the state counts as a posted transfer. *)
Example empty_object_counts_posted : decodeState (transferReply "" false false) = Ok (mkLedgerTransferState "" false true false).
Proof. reflexivity. Qed.

(** ** The properties at concrete inputs *)

(** A service made of the ledger of the development mode *)
Definition postedID (path : string) : string := let p := Str.drop 14 path in Str.take (String.length p - 5) p.

Definition dev_answer {A} (b : reply) (x : DevLedger.t * result ledgerError A) : DevLedger.t * answer :=
  (x.1, match x.2 with Ok _ => mkAnswer 201 b | Err _ => mkAnswer 409 notJSON end).

Definition dev_serve (q : request) (d : DevLedger.t) : DevLedger.t * answer :=
  match q_body q with
  | accountsBody accts => (DevLedger.CreateAccounts accts d, mkAnswer 201 notJSON)
  | transferBody tr =>
      if bool_decide (q_path q = "/v1/transfers/pending") then dev_answer (transferReply (lt_ID tr) true false) (DevLedger.PendingTransfer tr d)
      else dev_answer (transferReply (lt_ID tr) false false) (DevLedger.Transfer tr d)
  | amountBody x => dev_answer (transferReply (postedID (q_path q)) false false) (DevLedger.PostPending (postedID (q_path q)) x d)
  | emptyBody => dev_answer (transferReply (postedID (q_path q)) false true) (DevLedger.VoidPending (postedID (q_path q)) d)
  | noBody =>
      let id := Str.drop 14 (q_path q) in
      (d, match DevLedger.transfers d !! id with
          | Some t => mkAnswer 200 (transferReply id (pending t) (voided t))
          | None => mkAnswer 404 notJSON
          end)
  end.

#[local] Instance dev_core : CoreLedger DevLedger.t := dev_serve.

Lemma drop_transfers s : Str.drop 14 ("/v1/transfers/" +:+ s) = s.
Proof. exact (str_drop_app "/v1/transfers/" s). Qed.

Lemma postedID_post id : postedID (q_path (postRequest id 0)) = id.
Proof.
  unfold postedID. cbn [q_path postRequest]. rewrite drop_transfers, str_length_app. change (String.length "/post") with 5%nat.
  rewrite Nat.add_sub. apply str_take_app.
Qed.

Definition dev_view (id : string) (d : DevLedger.t) : option (bool * bool) :=
  (fun t => (pending t, voided t)) <$> DevLedger.transfers d !! id.

Lemma dev_get id (d : DevLedger.t) : serve (getRequest id) d =
  (d, match dev_view id d with Some (p, v) => mkAnswer 200 (transferReply id p v) | None => mkAnswer 404 notJSON end).
Proof.
  unfold serve, dev_core, dev_serve. cbn [q_body q_path getRequest]. rewrite drop_transfers. unfold dev_view.
  by destruct (DevLedger.transfers d !! id).
Qed.

Lemma dev_pending tr (d : DevLedger.t) : lt_ID tr <> "" ->
  let '(d', a) := serve (pendingRequest tr) d in
  (300 <= a_status a /\ d' = d) \/
  (a_status a < 300 /\ a_reply a <> notJSON /\ (exists v, dev_view (lt_ID tr) d' = Some (true, v)) /\
   (forall j, j <> lt_ID tr -> dev_view j d' = dev_view j d) /\
   exists a', serve (pendingRequest tr) d' = (d', a') /\ a_status a' < 300 /\ a_reply a' <> notJSON).
Proof.
  intros Hid. change (serve (pendingRequest tr)) with (fun d => dev_answer (transferReply (lt_ID tr) true false) (DevLedger.PendingTransfer tr d)).
  unfold dev_answer. destruct (DevLedger.PendingTransfer tr d) as [d' [id|e]] eqn:E; cbn [fst snd].
  - right. pose proof (PendingTransfer_recorded tr d id Hid) as Hr. rewrite E in Hr. destruct (Hr eq_refl) as (-> & e & He & Hp & Hs). cbn [fst] in He.
    split; [done|]. split; [done|]. split; [exists (voided e); unfold dev_view; by rewrite He; cbn; rewrite Hp|]. split.
    + intros j Hj. destruct (PendingTransfer_cases tr d) as [[r Er]|(d0 & t & Er & Ht & _)]; rewrite Er in E.
      * by injection E as <- _.
      * rewrite with_id_given in Ht by done. injection Ht as <- <-. injection E as <-. unfold dev_view. cbn. by rewrite lookup_insert_ne.
    + pose proof (law_pending_replay (L := DevLedger.t) tr d d' (lt_ID tr) Hid) as Hl. cbn [lc_PendingTransfer DevLedger_client] in Hl.
      destruct (Hl E) as [id' E'].
      rewrite E'. by eexists.
  - left. split; [done|]. destruct (PendingTransfer_cases tr d) as [[r Er]|(d0 & t & Er & _)]; rewrite Er in E; by injection E.
Qed.

Lemma dev_post id x (d : DevLedger.t) :
  let '(d', a) := serve (postRequest id x) d in
  (a_status a < 300 -> dev_view id d' = Some (false, false)) /\ (forall j, j <> id -> dev_view j d' = dev_view j d).
Proof.
  change (serve (postRequest id x) d) with (dev_answer (transferReply (postedID (q_path (postRequest id 0))) false false)
    (DevLedger.PostPending (postedID (q_path (postRequest id 0))) x d)). rewrite postedID_post. unfold dev_answer.
  destruct (PostPending_cases id x d) as [(e & -> & _)|(tr & _ & _ & Hv & _ & [->|[-> _]])]; cbn [fst snd]; [done|done|].
  split; [|intros j Hj; unfold dev_view; cbn; by rewrite lookup_insert_ne]. intros _. unfold dev_view. cbn. rewrite lookup_insert_eq. cbn. by rewrite Hv.
Qed.

Lemma dev_transfer tr (d : DevLedger.t) : lt_ID tr <> "" ->
  let '(d', a) := serve (transferRequest tr) d in
  (a_status a < 300 -> dev_view (lt_ID tr) d' = Some (false, false)) /\ (forall j, j <> lt_ID tr -> dev_view j d' = dev_view j d).
Proof.
  intros Hid. change (serve (transferRequest tr) d) with (dev_answer (transferReply (lt_ID tr) false false) (DevLedger.Transfer tr d)).
  unfold dev_answer, DevLedger.Transfer. destruct (DevLedger.checkAccounts tr d); [|done]. rewrite with_id_given by done. cbn [fst snd].
  split; [intros _; unfold dev_view; cbn; by rewrite lookup_insert_eq|]. intros j Hj. unfold dev_view. cbn. by rewrite lookup_insert_ne.
Qed.

#[local] Instance dev_core_laws : CoreLaws DevLedger.t :=
  { view := dev_view; serve_get := dev_get; serve_pending := dev_pending; serve_post := dev_post; serve_transfer := dev_transfer }.

Definition http_settled : Store * HTTPLedger DevLedger.t :=
  (settlePeriod (H := Toy.crypto) demo_io "a" "2026-06" merchantAccount 10 55 35 "rid" 0 (demo_store, mkHTTP demo_ledger)).1.

Lemma outage_then_retry_witness :
  exists stf', settlePeriod (H := Toy.crypto) demo_io "a" "2026-06" merchantAccount 10 55 35 "rid3" 0
      (demo_store, mkHTTP (n_remote (settlePeriod (H := Toy.crypto) demo_io "a" "2026-06" merchantAccount 10 55 35 "rid2" 0
         (demo_store, mkNet demo_ledger 0 : Net DevLedger.t (outage 3 answerLost))).1.2)) = ((stf', mkHTTP (remote http_settled.2)), Ok tt) /\
    sp_Status <$> GetSettledPeriod "a" "2026-06" stf' = Some "settled".
Proof.
  apply (outage_then_retry (H := Toy.crypto) demo_io demo_io demo_io "a" "2026-06" merchantAccount "rid" "rid2" "rid3"
    10 55 35 0 demo_store demo_store demo_store http_settled.1 demo_ledger (remote http_settled.2) 3 answerLost).
  - repeat constructor; vm_compute; discriminate.
  - apply (bool_decide_unpack _). vm_compute. exact I.
  - vm_compute. reflexivity.
  - reflexivity.
  - reflexivity.
  - apply demo_filed.
Defined.

Definition demo_leg (name : string) (amount ns : Z) : leg :=
  mkLeg name (pendID (H := Toy.crypto) "a" "2026-06" name 0) amount (accountID LedgerVATRemittance ns).
Abbreviation demo_rev := (reversal (H := Toy.crypto) "a" "2026-06" merchantAccount
  (mkLeg "federal" (pendID (H := Toy.crypto) "a" "2026-06" "federal" 0) 10 (accountID LedgerVATRemittance NSVATFederalPool))).
Definition demo_r1 : DevLedger.t := remote (legStep merchantAccount (demo_leg "federal" 10 NSVATFederalPool) (mkHTTP demo_ledger)).1.
Definition demo_r2 : DevLedger.t := remote (legStep merchantAccount (demo_leg "state" 55 NSVATStatePool) (mkHTTP demo_r1)).1.
Definition demo_r3 : DevLedger.t := (HTTPTransfer delivered demo_rev demo_r2).1.
Definition demo_r4 : DevLedger.t := remote (legStep merchantAccount (demo_leg "lga" 35 NSVATLGAPool) (mkHTTP demo_r3)).1.

Lemma lost_answer_reverses_posted_share_witness :
  exists st' net, settlePeriod (H := Toy.crypto) demo_io "a" "2026-06" merchantAccount 10 55 35 "rid" 0
      (demo_store, mkNet demo_ledger 0 : Net DevLedger.t (answerLostAt 3)) = ((st', net), Err (legPostFailed "state" transportError false)) /\
    exists stf, settlePeriod (H := Toy.crypto) demo_io "a" "2026-06" merchantAccount 10 55 35 "rid2" 0 (st', mkHTTP (n_remote net)) =
        ((stf, mkHTTP demo_r4), Ok tt) /\
      sp_Status <$> GetSettledPeriod "a" "2026-06" stf = Some "settled" /\
      isPostedLeg (lt_ID demo_rev) (mkHTTP demo_r4) = true.
Proof.
  apply (lost_answer_reverses_posted_share (H := Toy.crypto) demo_io demo_io "a" "2026-06" merchantAccount "rid" "rid2"
    10 55 35 0 demo_store demo_ledger demo_r1 demo_r2 demo_r3 demo_r4 (lt_ID demo_rev)).
  1-6: reflexivity.
  1: apply demo_filed.
  1: apply (bool_decide_unpack _); vm_compute; exact I.
  all: vm_compute; reflexivity.
Defined.

(** In the end the federal pool has paid back what it was paid, and the other
    two have their shares. *)
Example lost_answer_balances :
  (fun ns => (fun a => (creditsPosted a, debitsPosted a)) <$> DevLedger.accounts demo_r4 !! accountID LedgerVATRemittance ns)
    <$> [NSVATFederalPool; NSVATStatePool; NSVATLGAPool] = [Some (10, 10); Some (55, 0); Some (35, 0)].
Proof. vm_compute. reflexivity. Qed.
