(* ===== verification/PosWorkflows.v ===== *)
(** * pos-vat: the wf-vat workflows (services/pos-vat/workflows.go)

    The seven registered workflows, the in-process runner with its retries, and
    the two handlers.  A listed receipt is a pointer into the store, so what a
    workflow assigns to it changes the store.  The place of a point and the
    balance of the ledger are what their clients answer at each attempt; names
    of steps and texts of errors and times are left out. *)

From S2P Require Import Prelude StrFacts GoAny PosStore PosReceipt.
From S2P Require PosPacks PosLedger.

Inductive wfResult :=
| normalised (n : Z)
| attributed (n : Z)
| statePoolBalance (b : PosLedger.LedgerBalance)
| spooledPending (n : Z)
| seeElsewhere (endpoint : string).

Record WorkflowStep := mkWfStep { ws_Name : string; Attempts : Z; ws_ok : bool }.
Record WorkflowRun := mkWfRun { wr_Workflow : string; wr_ok : bool; wr_Steps : list WorkflowStep; wr_Result : option wfResult }.

(** What an attempt gets from outside *)
Record wfIO := mkWfIO {
  io_point : spec_float -> spec_float -> option GeoAttribution;
  io_balance : string -> option PosLedger.LedgerBalance;
}.

(** An activity: the error is the empty option. *)
Abbreviation activity := (wfIO -> Service -> Service * option wfResult).

(** [trace]: at most three attempts, until one succeeds *)
Fixpoint attempts (a : activity) (left_ : nat) (done_ : Z) (io : nat -> wfIO) (s : Service) : Service * Z * option wfResult :=
  match left_ with
  | O => (s, done_, None)
  | S left_ =>
      match a (io O) s with
      | (s, Some r) => (s, done_ + 1, Some r)
      | (s, None) => attempts a left_ (done_ + 1) (fun i => io (S i)) s
      end
  end.
Definition trace (name : string) (a : activity) (io : nat -> wfIO) (s : Service) : Service * WorkflowStep * option wfResult :=
  let '(s, n, r) := attempts a 3 0 io s in (s, mkWfStep name n (match r with Some _ => true | None => false end), r).

(** ** The activities *)

Section Activities.
Context (allIds : list string) (tenant : string).

Definition classify : activity := fun _ s =>
  (s, Some (normalised (Z.of_nat (length (ListReceipts allIds tenant "" 100 (s_store s)))))).

(** The identifiers behind the listed pointers *)
Definition listedIds (st : Store) : list string := if bool_decide (tenant = "") then allIds else tenantIds tenant st.

Definition attributeReceipt (point : spec_float -> spec_float -> option GeoAttribution) (sn : Store * Z) (id : string) : Store * Z :=
  match receipts sn.1 !! id with
  | None => sn
  | Some rc =>
      if bool_decide (rc_State rc = "") then
        match point (Lat rc) (Lon rc) with
        | None => sn
        | Some g => (set_receipts (<[id := set_place (g_State g) (g_LGA g) rc]> (receipts sn.1)) sn.1, sn.2 + 1)
        end
      else sn
  end.

Definition attribute : activity := fun io s =>
  let '(st, n) := foldl (attributeReceipt (io_point io)) (s_store s, 0) (listedIds (s_store s)) in
  (with_store st s, Some (attributed n)).

Definition settleMatch : activity := fun io s => (s, option_map statePoolBalance (io_balance io (PosLedger.accountID PosLedger.LedgerVATRemittance PosLedger.NSVATStatePool))).

Definition drain : activity := fun _ s => (s, Some (spooledPending (Z.of_nat (length (SpoolList (s_store s)))))).

Definition refer (endpoint : string) : activity := fun _ s => (s, Some (seeElsewhere endpoint)).

(** ** The registry and the handlers *)

Definition workflows : list (string * (string * activity)) :=
  [("wf-vat-normalise", ("classify", classify)); ("wf-vat-attribution", ("attribute", attribute));
   ("wf-vat-settle-match", ("settle", settleMatch)); ("wf-vat-spool-drain", ("drain", drain));
   ("wf-vat-cert-run", ("cert", refer "POST /v1/cert-run")); ("wf-vat-variance", ("variance", refer "GET /v1/variance"));
   ("wf-vat-b2c-report", ("b2c", refer "POST /v1/b2c/report"))].

Definition handleWorkflowList : response (list string) := JSON 200 (map fst workflows).

Definition handleWorkflowRun (name : string) (io : nat -> wfIO) (s : Service) : Service * response WorkflowRun :=
  match List.find (fun d => bool_decide (d.1 = name)) workflows with
  | None => (s, Problem 404 "unknown workflow")
  | Some (_, (step, a)) =>
      let '(s, st, r) := trace step a io s in
      let run := mkWfRun name (ws_ok st) [st] r in
      (publish "nrs.pos.workflow.run.v1" tenant None s, JSON 200 run)
  end.
End Activities.

(** ** What the runner does *)

Lemma attempts_count a n : forall k io s, let '(_, m, r) := attempts a n k io s in k <= m <= k + Z.of_nat n /\ (r = None -> m = k + Z.of_nat n).
Proof.
  induction n as [|n IH]; intros k io s; cbn [attempts]; [lia|]. destruct (a (io 0%nat) s) as [s' [r|]]; [split; [lia|done]|].
  specialize (IH (k + 1) (fun i => io (S i)) s'). destruct (attempts _ _ _ _ _) as [[? m] r]. destruct IH as [H1 H2]. split; [lia|].
  intros Hr. specialize (H2 Hr). lia.
Qed.

(** A place is given to a receipt without one; nothing else of it changes. *)
Definition placed (point : spec_float -> spec_float -> option GeoAttribution) (rc : Receipt) : Receipt :=
  if bool_decide (rc_State rc = "") then
    match point (Lat rc) (Lon rc) with Some g => set_place (g_State g) (g_LGA g) rc | None => rc end
  else rc.

Lemma attributeReceipt_frame point sn id :
  log (attributeReceipt point sn id).1 = log sn.1 /\ settledLog (attributeReceipt point sn id).1 = settledLog sn.1 /\
  spool (attributeReceipt point sn id).1 = spool sn.1 /\ byTenant (attributeReceipt point sn id).1 = byTenant sn.1.
Proof. unfold attributeReceipt. destruct (receipts sn.1 !! id); [|done]. case_bool_decide; [|done]. by destruct (point _ _). Qed.

Lemma attribute_frame point ids : forall sn, let st := (foldl (attributeReceipt point) sn ids).1 in
  log st = log sn.1 /\ settledLog st = settledLog sn.1 /\ spool st = spool sn.1 /\ byTenant st = byTenant sn.1.
Proof.
  induction ids as [|id ids IH]; intros sn; [done|]. cbn [foldl]. destruct (IH (attributeReceipt point sn id)) as (-> & -> & -> & ->).
  apply attributeReceipt_frame.
Qed.

Lemma attributeReceipt_receipts point sn id k :
  receipts (attributeReceipt point sn id).1 !! k = (if decide (k = id) then option_map (placed point) (receipts sn.1 !! k) else receipts sn.1 !! k).
Proof.
  unfold attributeReceipt, placed. destruct (decide (k = id)) as [->|Hk].
  - destruct (receipts sn.1 !! id) as [rc|] eqn:E; [|by rewrite E]. cbn [option_map]. case_bool_decide; [|done].
    destruct (point (Lat rc) (Lon rc)) as [g|]; [|done]. cbn [fst receipts set_receipts]. by rewrite lookup_insert_eq.
  - destruct (receipts sn.1 !! id) as [rc|]; [|done]. case_bool_decide; [|done].
    destruct (point (Lat rc) (Lon rc)) as [g|]; [|done]. cbn [fst receipts set_receipts]. by rewrite lookup_insert_ne.
Qed.

Lemma placed_idem point rc : placed point (placed point rc) = placed point rc.
Proof.
  unfold placed at 2 3. case_bool_decide as E; [|unfold placed; by rewrite bool_decide_eq_false_2].
  destruct (point (Lat rc) (Lon rc)) as [g|] eqn:Ep; unfold placed; [|by rewrite bool_decide_eq_true_2, Ep].
  cbn [rc_State set_place Lat Lon]. case_bool_decide; [|done]. by rewrite Ep.
Qed.

Lemma attribute_receipts point ids k : forall sn,
  receipts (foldl (attributeReceipt point) sn ids).1 !! k =
    (if decide (k ∈ ids) then option_map (placed point) (receipts sn.1 !! k) else receipts sn.1 !! k).
Proof.
  induction ids as [|id ids IH]; intros sn; [by rewrite decide_False by apply not_elem_of_nil|]. cbn [foldl].
  rewrite IH, !attributeReceipt_receipts. destruct (decide (k = id)) as [->|Hk].
  - rewrite (decide_True (P := id ∈ id :: ids)) by apply list_elem_of_here. destruct (decide _); [|done].
    destruct (receipts sn.1 !! id); [|done]. cbn. by rewrite placed_idem.
  - destruct (decide (k ∈ ids)) as [Hin|Hn]; [by rewrite decide_True by (by apply list_elem_of_further)|].
    rewrite decide_False; [done|]. by intros [?|?]%elem_of_cons.
Qed.

Lemma attribution_run allIds tenant io s :
  let f := foldl (attributeReceipt (io_point (io 0%nat))) (s_store s, 0) (listedIds allIds tenant (s_store s)) in
  handleWorkflowRun allIds tenant "wf-vat-attribution" io s =
    (publish "nrs.pos.workflow.run.v1" tenant None (with_store f.1 s),
     JSON 200 (mkWfRun "wf-vat-attribution" true [mkWfStep "attribute" 1 true] (Some (attributed f.2)))).
Proof.
  intros f. unfold handleWorkflowRun.
  change (List.find _ _) with (Some ("wf-vat-attribution", ("attribute", attribute allIds tenant))).
  cbn match. unfold trace. cbn [attempts]. unfold attribute. fold f. by destruct f.
Qed.

(** wf-vat-attribution gives a place to every listed receipt that has none and
    whose point is answered, counts them once each, and completes at the first
    attempt.  It does so in memory alone: no line is written, so a restart
    brings back the store it would have without the run; and it leaves the
    attribution of VAT to state and local government as it was. *)
Theorem attribution_run_not_durable allIds tenant io s :
  let '(s', r) := handleWorkflowRun allIds tenant "wf-vat-attribution" io s in
  (exists n, r = JSON 200 (mkWfRun "wf-vat-attribution" true [mkWfStep "attribute" 1 true] (Some (attributed n)))) /\
  (forall k, receipts (s_store s') !! k =
     (if decide (k ∈ listedIds allIds tenant (s_store s)) then option_map (placed (io_point (io 0%nat))) (receipts (s_store s) !! k)
      else receipts (s_store s) !! k)) /\
  (forall k rc', receipts (s_store s') !! k = Some rc' -> exists rc, receipts (s_store s) !! k = Some rc /\ Attribution rc' = Attribution rc) /\
  restart (s_store s') = restart (s_store s).
Proof.
  rewrite attribution_run. destruct (foldl _ _ _) as [st n] eqn:F. cbn [fst snd].
  assert (R : forall k, receipts st !! k = (if decide (k ∈ listedIds allIds tenant (s_store s)) then option_map (placed (io_point (io 0%nat))) (receipts (s_store s) !! k)
      else receipts (s_store s) !! k)).
  { intros k. pose proof (attribute_receipts (io_point (io 0%nat)) (listedIds allIds tenant (s_store s)) k (s_store s, 0)) as H. by rewrite F in H. }
  pose proof (attribute_frame (io_point (io 0%nat)) (listedIds allIds tenant (s_store s)) (s_store s, 0)) as (H1 & H2 & H3 & _). rewrite F in H1, H2, H3.
  cbn [fst] in H1, H2, H3. cbn. split; [by exists n|]. split; [exact R|]. split.
  - intros k rc' Hk. rewrite R in Hk. destruct (receipts (s_store s) !! k) as [rc|]; [|by destruct (decide _)].
    exists rc. split; [done|]. destruct (decide _); injection Hk as <-; [|done]. unfold placed. case_bool_decide; [|done].
    by destruct (io_point (io 0%nat) _ _).
  - unfold restart. by rewrite H1, H2, H3.
Qed.

Lemma attempts_pure (a : activity) n : (forall io s, (a io s).1 = s) ->
  forall k io s, (attempts a n k io s).1.1 = s /\
    ((attempts a n k io s).2 = None <-> forall i, (i < n)%nat -> (a (io i) s).2 = None).
Proof.
  intros Ha. induction n as [|n IH]; intros k io s; cbn [attempts]; [split; [done|]; split; [intros _ i; lia|done]|].
  pose proof (Ha (io 0%nat) s) as E. destruct (a (io 0%nat) s) as [s' o] eqn:Ea. cbn [fst] in E. subst s'. destruct o as [r|].
  - split; [done|]. split; [done|]. intros H. specialize (H 0%nat ltac:(lia)). by rewrite Ea in H.
  - destruct (IH (k + 1) (fun i => io (S i)) s) as [H1 H2]. split; [done|]. rewrite H2. split.
    + intros H [|i] Hi; [by rewrite Ea|apply H; lia].
    + intros H i Hi. apply (H (S i)). lia.
Qed.

(** The other six workflows read: whatever is answered, the store, the cache
    and the rule packs stay as they are - wf-vat-spool-drain drains nothing
    and wf-vat-settle-match posts nothing, with any number of attempts - and
    every one of them completes unless the ledger refuses three times. *)
Theorem other_workflows_read_only allIds tenant name io s :
  name <> "wf-vat-attribution" ->
  let '(s', r) := handleWorkflowRun allIds tenant name io s in
  s_store s' = s_store s /\ s_cache s' = s_cache s /\ s_packs s' = s_packs s /\
  match r with
  | Problem code _ => code = 404 /\ s' = s /\ name ∉ map fst (workflows allIds tenant)
  | JSON code run => code = 200 /\ length (events (s_bus s')) = Nat.min 500 (S (length (events (s_bus s)))) /\
      (wr_ok run = false <-> name = "wf-vat-settle-match" /\
         forall i, (i < 3)%nat -> io_balance (io i) (PosLedger.accountID PosLedger.LedgerVATRemittance PosLedger.NSVATStatePool) = None)
  end.
Proof.
  intros Hne. unfold handleWorkflowRun. destruct (List.find _ _) as [[name' [step a]]|] eqn:F.
  2: { repeat split; try done. intros Hin. apply list_elem_of_In, in_map_iff in Hin as (d & Hd & Hin).
       pose proof (List.find_none _ _ F d Hin) as Hf. cbn in Hf. by rewrite bool_decide_eq_true_2 in Hf. }
  apply List.find_some in F as [Hin Hn]. cbn [fst] in Hn. apply bool_decide_eq_true in Hn as ->.
  assert (Hpure : forall io s, (a io s).1 = s).
  { apply list_elem_of_In in Hin. unfold workflows in Hin. rewrite !elem_of_cons in Hin.
    destruct Hin as [E|[E|[E|[E|[E|[E|[E|Hin]]]]]]]; [simplify_eq; done..|by apply elem_of_nil in Hin]. }
  assert (Hfail : forall s, (forall i, (i < 3)%nat -> (a (io i) s).2 = None) <-> name = "wf-vat-settle-match" /\
         forall i, (i < 3)%nat -> io_balance (io i) (PosLedger.accountID PosLedger.LedgerVATRemittance PosLedger.NSVATStatePool) = None).
  { intros s0. assert (H03 : (0 < 3)%nat) by lia. apply list_elem_of_In in Hin. unfold workflows in Hin. rewrite !elem_of_cons in Hin.
    destruct Hin as [E|[E|[E|[E|[E|[E|[E|Hin]]]]]]]; [..|by apply elem_of_nil in Hin]; injection E as -> -> ->; try done;
      try (split; [intros H; specialize (H 0%nat H03); done|intros [? _]; done]).
    split; [intros H|intros [_ H]]; [split; [done|]|]; intros i Hi; specialize (H i Hi); unfold settleMatch in *; cbn in *;
      [by destruct (io_balance _ _)|by rewrite H]. }
  unfold trace. destruct (attempts_pure a 3 Hpure 0 io s) as [H1 H2]. destruct (attempts a 3 0 io s) as [[s' n] r]. cbn [fst snd] in H1, H2.
  subst s'. do 3 (split; [done|]). split; [done|]. split.
  - unfold publish, Publish. cbn [s_bus events]. rewrite length_drop, !length_app. change (length [_]) with 1%nat. lia.
  - cbn [wr_ok ws_ok]. rewrite <- (Hfail s), <- H2. by destruct r.
Qed.

(** A receipt without a place, at a point in Lagos *)
Definition demo_io (_ : nat) : wfIO :=
  mkWfIO (fun _ _ => Some (mkGeoAttribution "Lagos" "Ikeja" "embedded")) (fun _ => None).

Definition unplaced_store : Store := NewStore true [set_place "" "" (demo_receipt "r0" "a" 5)] [] [].
Definition demo_service : Service := mkService ∅ unplaced_store ∅ (mkBus [] []).

Lemma other_workflows_read_only_witness :
  let '(s', r) := handleWorkflowRun [] "a" "wf-vat-spool-drain" demo_io demo_service in
  s_store s' = unplaced_store /\ status r = 200.
Proof.
  pose proof (other_workflows_read_only [] "a" "wf-vat-spool-drain" demo_io demo_service ltac:(discriminate)) as H.
  destruct (handleWorkflowRun _ _ _ _ _) as [s' [code run|code title]]; destruct H as (H1 & _ & _ & H2); (split; [exact H1|]); [exact (proj1 H2)|].
  destruct H2 as (_ & _ & H2). exfalso. apply H2, list_elem_of_In. vm_compute. tauto.
Defined.

(** The place is in memory and gone after a restart; the ledger refuses three
    times. *)
Example workflows_run :
  let '(s1, _) := handleWorkflowRun [] "a" "wf-vat-attribution" demo_io demo_service in
  (option_map rc_State (receipts (s_store s1) !! "r0"), option_map rc_State (receipts (restart (s_store s1)) !! "r0"),
   match (handleWorkflowRun [] "a" "wf-vat-settle-match" demo_io s1).2 with JSON _ run => map Attempts (wr_Steps run) | _ => [] end) =
  (Some "Lagos", Some "", [3]).
Proof. vm_compute. reflexivity. Qed.
