(* ===== verification/PosHistory.v ===== *)
(** * pos-vat: the service over time

    The requests that change the service, its background work and its restarts
    as one step relation, and what holds of a receipt whatever happens after it
    was taken in.  Requests are served one after another; what each gets from
    outside - clock, identifiers, geo service, cache, files, ledger - is
    arbitrary.  A failed write leaves no part of a line in a log, and a restart
    reads a log whose lines fit the buffer of the scanner: their length is a
    parameter. *)

From stdpp Require Import relations.
From S2P Require Import Prelude Crypto GoAny PosPacks PosStore PosReceipt PosLedger PosSettle PosWorkflows.

Section History.
Context `{Crypto} {L : Type} `{LedgerClient L} (lineLength : Receipt -> Z).

(** The replay reads lines of less than a megabyte and stops, without an error,
    at the first that is longer. *)
Definition fits (l : list Receipt) : Prop := Forall (fun r => lineLength r < 1048576) l.

(** ** The steps of the service and of the ledger beside it *)

Inductive posStep : relation (Service * L) :=
| step_ingest env req s l : posStep (s, l) ((handleIngestReceipt env req s).1, l)
| step_drain env s l : posStep (s, l) ((handleSpoolDrain env s).1, l)
| step_settle io allIds mode tenant period s l : posStep (s, l) (handleSettlementRecon io allIds mode tenant period (s, l)).1
| step_b2c env allIds tenant period s l : posStep (s, l) ((handleB2CReport env allIds tenant period s).1, l)
| step_cert embedded allIds tenant sample s l : posStep (s, l) ((handleCertRun embedded allIds tenant sample s).1, l)
| step_workflow allIds tenant name io s l : posStep (s, l) ((handleWorkflowRun allIds tenant name io s).1, l)
| step_tick syncOk s l : posStep (s, l) (with_store (flusherTick syncOk (s_store s)) s, l)
| step_cache c s l : posStep (s, l) (with_cache c s, l)
| step_ledger l' s l : posStep (s, l) (s, l')
| step_restart openOk ps c bus s l :
    fits (log (s_store s)) ->
    posStep (s, l) (mkService ps (NewStore openOk (log (s_store s)) (settledLog (s_store s)) (spool (s_store s))) c bus, l).

(** A service started on any files, and whatever came after *)
Definition reached (x : Service * L) : Prop :=
  exists openOk ps l sl sp c bus ledger, fits l /\ rtc posStep (mkService ps (NewStore openOk l sl sp) c bus, ledger) x.

(** ** What the steps do to the receipts *)

Inductive storeMove (st : Store) : Store -> Prop :=
| move_put w f x : storeMove st (PutReceipt w f x st).1
| move_mark ids key w : storeMove st (markLoop ids key w st).1
| move_place id state lga x : receipts st !! id = Some x ->
    storeMove st (set_receipts (<[id := set_place state lga x]> (receipts st)) st)
| move_frame st' : receipts st' = receipts st -> log st' = log st -> storeMove st st'
| move_restart openOk : storeMove st (NewStore openOk (log st) (settledLog st) (spool st)).

#[local] Notation "st '~>' st'" := (rtc storeMove st st') (at level 70).

Lemma frame_moves st st' : receipts st' = receipts st -> log st' = log st -> st ~> st'.
Proof. intros. apply rtc_once. by apply move_frame. Qed.

Lemma process_moves env rc idem s : s_store s ~> s_store (processReceipt env rc idem s).1.
Proof.
  unfold processReceipt. destruct (processLines _ _ _ _) as [t|e]; [|reflexivity]. destruct (geo _ _ _) as [g|]; [|reflexivity].
  set (x := computedReceipt _ _ _ _ _ _). pose proof (move_put (s_store s) (writeOk env) (syncOk env) x) as Hp.
  destruct (PutReceipt _ _ _ _) as [st [u|e]]; by apply rtc_once.
Qed.

Lemma ingest_moves env req s : s_store s ~> s_store (handleIngestReceipt env req s).1.
Proof.
  unfold handleIngestReceipt. destruct (_ || _); [reflexivity|]. destruct (GetReceipt _ (s_store s)); [reflexivity|].
  destruct (negb (cacheOk env)); [reflexivity|]. destruct (SetNX _ _ _ _ _) as [c fresh]. set (s1 := with_cache c s).
  destruct (negb fresh); [by destruct (GetReceipt _ _)|]. destruct (StoreAndForward req).
  - unfold Spool. destruct (PosReceipt.writeOk env); by apply frame_moves.
  - pose proof (process_moves env (iq_Receipt req) (idemOf (iq_Receipt req)) s1) as Hm.
    destruct (processReceipt _ _ _ _) as [s2 [r|e]]; exact Hm.
Qed.

Lemma drain_moves entries : forall env acc s, s_store s ~> s_store (drainLoop env entries acc s).1.
Proof.
  induction entries as [|e entries IH]; intros env acc s; [reflexivity|]. cbn [drainLoop].
  pose proof (process_moves (env 0%nat) (Payload e) (idemOf (Payload e)) s) as Hm.
  destruct (processReceipt _ _ _ _) as [s1 [out|err]]; (etransitivity; [exact Hm|]); cbn [fst].
  - etransitivity; [|apply IH]. by apply frame_moves.
  - apply IH.
Qed.

Lemma save_frame ok sp st : receipts (SaveSettledPeriod ok sp st).1 = receipts st /\ log (SaveSettledPeriod ok sp st).1 = log st.
Proof. by destruct ok. Qed.

Lemma settlePeriod_moves io tenant period merchant f s lg rid supp st l :
  st ~> (settlePeriod io tenant period merchant f s lg rid supp (st, l)).1.1.
Proof.
  unfold settlePeriod. set (sp := markerOf _ _ _ _ _ _ _ _). destruct (save_frame (saveOk io) sp st) as [H1 H2].
  destruct (SaveSettledPeriod (saveOk io) sp st) as [st1 [u|e]]; cbn [fst] in *; [|by apply frame_moves].
  destruct (legsLoop _ _ _ _ _ _ _) as [l' [u'|e]].
  - destruct (save_frame (finalSaveOk io) (with_status "settled" (FailReason sp) sp) st1) as [H3 H4].
    destruct (SaveSettledPeriod _ _ _) as [st2 r]. cbn [fst] in *. apply frame_moves; congruence.
  - destruct e as [|name e|name e b]; try by apply frame_moves.
    destruct (save_frame (finalSaveOk io) (with_status "failed" (failReason (legPostFailed name e b)) sp) st1) as [H3 H4].
    destruct (SaveSettledPeriod _ _ _) as [st2 r]. cbn [fst] in *. apply frame_moves; congruence.
Qed.

Lemma mark_moves ids tenant period w f st : st ~> (MarkReceiptsSettled ids tenant period w f st).1.
Proof.
  unfold MarkReceiptsSettled. pose proof (move_mark st ids (settledKey tenant period) w) as Hm.
  destruct (markLoop _ _ _ _) as [st1 [u|e]]; [|by apply rtc_once]. destruct (_ && _); by apply rtc_once.
Qed.

Lemma settle_moves io allIds mode tenant period s l :
  s_store s ~> s_store (handleSettlementRecon io allIds mode tenant period (s, l)).1.1.
Proof.
  unfold handleSettlementRecon. destruct (bool_decide (period = "")); [reflexivity|].
  set (inP := periodReceipts _ _ _ _). set (rcs := unsettled inP). destruct (bool_decide (inP = [])); [reflexivity|].
  set (marker := GetSettledPeriod _ _ _).
  assert (Hsettle : forall l0 rid supp rec,
    s_store s ~> s_store (let '((st, l), r) := settlePeriod io tenant period merchantAccount
            (rec_FederalKobo rec) (rec_StateKobo rec) (rec_LGAKobo rec) rid supp (s_store s, l0) in
      match r with
      | Err _ => ((with_store st s, l), Problem 502 "settlement saga failed")
      | Ok _ =>
          let '(st, r) := MarkReceiptsSettled (map rc_ID rcs) tenant period (stampOk io) (stampSyncOk io) st in
          match r with
          | Err _ => ((with_store st s, l), Problem 502 "settlement marker failed")
          | Ok _ =>
              let ids := match GetSettledPeriod tenant period st with Some sp => postedIds sp | None => "" end in
              let rec := with_transfers ids rec in
              let st := AddRecon rec st in
              ((publish "nrs.pos.settlement.recon.v1" tenant None (with_store st s), l), JSON 201 (settled rec))
          end
      end).1.1).
  { intros l0 rid supp rec.
    pose proof (settlePeriod_moves io tenant period merchantAccount (rec_FederalKobo rec) (rec_StateKobo rec) (rec_LGAKobo rec) rid supp (s_store s) l0) as Hp.
    destruct (settlePeriod _ _ _ _ _ _ _ _ _ _) as [[st1 l1] [u|e]]; cbn [fst] in Hp; [|exact Hp].
    pose proof (mark_moves (map rc_ID rcs) tenant period (stampOk io) (stampSyncOk io) st1) as Hm.
    destruct (MarkReceiptsSettled _ _ _ _ _ _) as [st2 [u2|e]]; cbn [fst] in Hm; (etransitivity; [exact Hp|]); (etransitivity; [exact Hm|]);
      [by apply frame_moves|reflexivity]. }
  destruct (isSettled marker) as [sp|]; [destruct rcs as [|rc rcs'] eqn:Er|]; try apply Hsettle.
  by destruct (List.find _ _).
Qed.

Lemma attribute_moves point ids : forall sn, sn.1 ~> (foldl (attributeReceipt point) sn ids).1.
Proof.
  induction ids as [|id ids IH]; intros sn; [reflexivity|]. cbn [foldl]. etransitivity; [|apply IH].
  unfold attributeReceipt. destruct (receipts sn.1 !! id) as [rc|] eqn:E; [|reflexivity]. case_bool_decide; [|reflexivity].
  destruct (point _ _) as [g|]; [|reflexivity]. apply rtc_once. by apply (move_place sn.1 id (g_State g) (g_LGA g) rc).
Qed.

Lemma workflow_moves allIds tenant name io s : s_store s ~> s_store (handleWorkflowRun allIds tenant name io s).1.
Proof.
  destruct (decide (name = "wf-vat-attribution")) as [->|Hne].
  - rewrite attribution_run. cbn. apply (attribute_moves _ _ (s_store s, 0%Z)).
  - pose proof (other_workflows_read_only allIds tenant name io s Hne) as E. destruct (handleWorkflowRun _ _ _ _ _) as [s' r]. destruct E as (E & _). apply frame_moves; cbn [fst]; by rewrite E.
Qed.

Lemma step_moves x x' : posStep x x' -> s_store x.1 ~> s_store x'.1.
Proof.
  destruct 1 as [env req s l|env s l|io allIds mode tenant period s l|env allIds tenant period s l|embedded allIds tenant sample s l
    |allIds tenant name io s l|ok s l|c s l|l' s l|ok ps c bus s l _]; cbn [fst].
  - apply ingest_moves.
  - unfold handleSpoolDrain. pose proof (drain_moves (SpoolList (s_store s)) env (0%Z, []) s) as Hm.
    by destruct (drainLoop _ _ _ _) as [s1 [n fl]].
  - apply settle_moves.
  - reflexivity.
  - reflexivity.
  - apply workflow_moves.
  - unfold flusherTick. destruct (flush_state ok (s_store s)) as (p & c & [-> | ->]); by apply frame_moves.
  - reflexivity.
  - reflexivity.
  - apply rtc_once. apply move_restart.
Qed.

Lemma run_moves x x' : rtc posStep x x' -> s_store x.1 ~> s_store x'.1.
Proof. induction 1 as [|x y z Hs _ IH]; [reflexivity|]. etransitivity; [by apply step_moves|exact IH]. Qed.

(** ** A receipt over time *)

(** What a receipt says of the sale: all of it but the place, the settlement
    stamp and the status *)
Definition sale (r : Receipt) : Receipt := set_settled "" (set_place "" "" r).

(** Receipts are kept under their own identifier. *)
Definition keyed (st : Store) : Prop := forall id r, receipts st !! id = Some r -> rc_ID r = id.

(** The receipt of a sale is in memory, and in what the log would bring back. *)
Record kept (k : string) (r : Receipt) (st : Store) : Prop := {
  kept_keyed : keyed st;
  kept_memory : exists r1, receipts st !! k = Some r1 /\ sale r1 = sale r;
  kept_log : exists r2, receiptsOfLog (log st) !! k = Some r2 /\ sale r2 = sale r;
}.

Lemma sale_ID r1 r : sale r1 = sale r -> rc_ID r1 = rc_ID r.
Proof. intros E. exact (f_equal rc_ID E). Qed.

Lemma keyed_insert id r st : keyed st -> rc_ID r = id -> keyed (set_receipts (<[id := r]> (receipts st)) st).
Proof.
  intros Hk Hid id' r'. cbn. destruct (decide (id = id')) as [->|Hne]; [rewrite lookup_insert_eq; by intros [= <-]|].
  rewrite lookup_insert_ne by done. apply Hk.
Qed.

Lemma keyed_same st st' : receipts st' = receipts st -> keyed st -> keyed st'.
Proof. intros E Hk id r. rewrite E. apply Hk. Qed.

Lemma flush_frame ok st : receipts (flushLocked ok st).1 = receipts st /\ log (flushLocked ok st).1 = log st.
Proof. destruct (flush_state ok st) as (p & c & [-> | ->]); done. Qed.

(** A put adds a new receipt to memory, to the log, to both, or to neither. *)
Lemma put_cases w f x st :
  (receipts (PutReceipt w f x st).1 = receipts st \/
   receipts st !! rc_ID x = None /\ receipts (PutReceipt w f x st).1 = <[rc_ID x := x]> (receipts st)) /\
  (log (PutReceipt w f x st).1 = log st \/
   receipts st !! rc_ID x = None /\ log (PutReceipt w f x st).1 = log st ++ [x]).
Proof.
  unfold PutReceipt. destruct (receipts st !! rc_ID x) eqn:E; [split; by left|]. destruct (logOpen st); [|split; [by right|by left]].
  destruct w; cbn [negb]; [|split; by left]. set (st1 := set_sync _ _ _). destruct (_ <=? _); [|split; by right].
  destruct (flush_frame f st1) as [H1 H2]. destruct (flushLocked f st1) as [st2 [u|e]]; cbn [fst] in *.
  - split; right; (split; [done|]); cbn [receipts log index_receipt]; by rewrite ?H1, ?H2.
  - split; [left; by rewrite H1|right; by rewrite H2].
Qed.

Lemma keyed_put w f x st : keyed st -> keyed (PutReceipt w f x st).1.
Proof.
  intros Hk. destruct (proj1 (put_cases w f x st)) as [E|[_ E]]; [by apply (keyed_same st)|].
  apply (keyed_same (set_receipts (<[rc_ID x := x]> (receipts st)) st)); [done|]. by apply keyed_insert.
Qed.

Lemma receiptsOfLog_other l x k : rc_ID x <> k -> receiptsOfLog (l ++ [x]) !! k = receiptsOfLog l !! k.
Proof. intros Hne. rewrite receiptsOfLog_snoc. case_bool_decide; [done|]. by rewrite lookup_insert_ne. Qed.

Lemma kept_put w f x k r st : kept k r st -> kept k r (PutReceipt w f x st).1.
Proof.
  intros [Hk (r1 & H1 & E1) (r2 & H2 & E2)].
  assert (Hne : receipts st !! rc_ID x = None -> rc_ID x <> k) by congruence.
  destruct (put_cases w f x st) as [Hm Hl]. split; [by apply keyed_put|exists r1; split; [|done]|exists r2; split; [|done]].
  - destruct Hm as [->|[Hn ->]]; [done|]. rewrite lookup_insert_ne by auto. done.
  - destruct Hl as [->|[Hn ->]]; [done|]. by rewrite receiptsOfLog_other by auto.
Qed.

Lemma kept_mark_one k r st id x key (append : bool) : k <> "" -> receipts st !! id = Some x -> kept k r st ->
  let st1 := set_receipts (<[id := set_settled key x]> (receipts st)) st in
  kept k r (if append then append_log (set_settled key x) st1 else st1).
Proof.
  intros Hk0 Hx [Hk (r1 & H1 & E1) (r2 & H2 & E2)] st1. pose proof (Hk id x Hx) as Hid.
  assert (Hm : exists r1', <[id := set_settled key x]> (receipts st) !! k = Some r1' /\ sale r1' = sale r).
  { destruct (decide (id = k)) as [->|Hne]; [rewrite lookup_insert_eq; eexists; split; [done|]; rewrite Hx in H1; by injection H1 as ->|].
    rewrite lookup_insert_ne by done. by exists r1. }
  assert (Hky : keyed st1) by (by apply keyed_insert). destruct append; (split; [exact Hky|exact Hm|]); [|by exists r2].
  cbn [log append_log st1 set_receipts]. rewrite receiptsOfLog_snoc. change (rc_ID (set_settled key x)) with (rc_ID x). rewrite Hid.
  case_bool_decide as Hb; [by exists r2|]. destruct (decide (id = k)) as [->|Hne]; [rewrite lookup_insert_eq|rewrite lookup_insert_ne by done; by exists r2].
  eexists. split; [done|]. rewrite Hx in H1. by injection H1 as ->.
Qed.

Lemma kept_mark k r ids key : k <> "" -> forall w st, kept k r st -> kept k r (markLoop ids key w st).1.
Proof.
  intros Hk0. induction ids as [|id ids IH]; intros w st Hst; [done|]. cbn [markLoop]. destruct (receipts st !! id) as [x|] eqn:Hx; [|by apply IH].
  cbn [logOpen set_receipts]. destruct (logOpen st).
  - destruct (w 0%nat); [apply IH; exact (kept_mark_one k r st id x key true Hk0 Hx Hst)|exact (kept_mark_one k r st id x key false Hk0 Hx Hst)].
  - apply IH. exact (kept_mark_one k r st id x key false Hk0 Hx Hst).
Qed.

Lemma keyed_mark ids key : forall w st, keyed st -> keyed (markLoop ids key w st).1.
Proof.
  induction ids as [|id ids IH]; intros w st Hst; [done|]. cbn [markLoop]. destruct (receipts st !! id) as [x|] eqn:Hx; [|by apply IH].
  assert (H1 : keyed (set_receipts (<[id := set_settled key x]> (receipts st)) st)) by (apply keyed_insert; [done|exact (Hst id x Hx)]).
  cbn [logOpen set_receipts]. destruct (logOpen st); [destruct (w 0%nat); [apply IH|]|apply IH]; exact H1.
Qed.

Lemma move_keyed st st' : storeMove st st' -> keyed st -> keyed st'.
Proof.
  destruct 1 as [w f x|ids key w|id state lga x Hx|st' Hr _|ok]; intros Hk.
  - by apply keyed_put.
  - by apply keyed_mark.
  - apply keyed_insert; [done|exact (Hk id x Hx)].
  - by apply (keyed_same st).
  - intros id r. rewrite NewStore_receipts. intros Hr. by apply receiptsOfLog_keys in Hr as [? _].
Qed.

Lemma move_kept k r st st' : k <> "" -> storeMove st st' -> kept k r st -> kept k r st'.
Proof.
  intros Hk0 Hm. destruct Hm as [w f x|ids key w|id state lga x Hx|st' Hr Hl|ok].
  - apply kept_put.
  - by apply kept_mark.
  - intros [Hk (r1 & H1 & E1) Hl]. split; [apply keyed_insert; [done|exact (Hk id x Hx)]| |exact Hl].
    cbn [receipts set_receipts]. destruct (decide (id = k)) as [->|Hne]; [|rewrite lookup_insert_ne by done; by exists r1].
    rewrite lookup_insert_eq. eexists. split; [done|]. rewrite Hx in H1. by injection H1 as ->.
  - intros [Hk Hm Hlog]. split; [by apply (keyed_same st)|by rewrite Hr|by rewrite Hl].
  - intros [Hk Hm Hlog]. split; [|by rewrite NewStore_receipts|by rewrite NewStore_log].
    intros id x. rewrite NewStore_receipts. intros Hx. by apply receiptsOfLog_keys in Hx as [? _].
Qed.

Lemma reached_keyed x : reached x -> keyed (s_store x.1).
Proof.
  intros (ok & ps & l & sl & sp & c & bus & ledger & _ & Hr). apply run_moves in Hr. cbn [fst s_store] in Hr.
  assert (H1 : keyed (NewStore ok l sl sp)).
  { intros id r. rewrite NewStore_receipts. intros Hx. by apply receiptsOfLog_keys in Hx as [? _]. }
  revert H1. induction Hr as [|st1 st2 st3 Hm _ IH]; [done|]. intros H1. apply IH. by eapply move_keyed.
Qed.

Lemma run_kept k r x x' : k <> "" -> rtc posStep x x' -> kept k r (s_store x.1) -> kept k r (s_store x'.1).
Proof.
  intros Hk0 Hr. apply run_moves in Hr. induction Hr as [|st1 st2 st3 Hm _ IH]; [done|]. intros H1. apply IH. by eapply move_kept.
Qed.

(** ** An accepted request *)

Lemma put_stored w f x st st' : keyed st -> receipts st !! rc_ID x = None -> logOpen st = true -> rc_ID x <> "" ->
  PutReceipt w f x st = (st', Ok tt) -> kept (rc_ID x) x st'.
Proof.
  intros Hk Hn Ho Hid Hp. pose proof (keyed_put w f x st Hk) as Hk'. pose proof (put_cases w f x st) as [Hm Hl].
  pose proof (PutReceipt_get w f x st st' Hp) as Hg. rewrite Hn in Hg. rewrite Hp in Hk', Hm, Hl. cbn [fst] in *.
  split; [done|by exists x|].
  assert (El : log st' = log st ++ [x]).
  { unfold PutReceipt in Hp. rewrite Hn, Ho in Hp. destruct w; cbn [negb] in Hp; [|done]. set (st1 := set_sync _ _ _) in Hp.
    destruct (_ <=? _); [|by injection Hp as <-]. destruct (flush_frame f st1) as [_ H2]. destruct (flushLocked f st1) as [st2 [u|e]]; [|done].
    injection Hp as <-. exact H2. }
  exists x. split; [|done]. rewrite El, receiptsOfLog_snoc, bool_decide_eq_false_2 by done. apply lookup_insert_eq.
Qed.

Lemma accepted_kept env req s s' r :
  keyed (s_store s) -> logOpen (s_store s) = true -> rc_ID (iq_Receipt req) = "" ->
  handleIngestReceipt env req s = (s', JSON 201 (ingested r)) ->
  rc_ID r = receiptIdOf (idemOf (iq_Receipt req)) /\ kept (rc_ID r) r (s_store s').
Proof.
  intros Hk Ho Hid Hi. destruct (ingest_accepted env req s s' r Hi) as (_ & Hnew & st & Hp & ->).
  destruct (processReceipt_Ok _ _ _ _ _ _ Hp) as (t & g & st' & _ & _ & Hr & Hput & ->). cbn [s_store with_store with_cache s_packs] in *.
  assert (Hrid : rc_ID r = receiptIdOf (idemOf (iq_Receipt req))).
  { rewrite Hr. cbn [rc_ID computedReceipt]. rewrite Hid. reflexivity. }
  split; [exact Hrid|]. eapply put_stored; [exact Hk| |exact Ho| |exact Hput]; [by rewrite Hrid|]. by rewrite Hrid.
Qed.

(** C7: A sale is taken in once.  Take a service started on any files after any
    requests, settlements, workflows, flushes, cache losses and restarts, with
    its log open, that accepts a request without a client-chosen identifier.
    Whatever comes after - more requests, drained spools, settlements that
    succeed or fail, workflows, lost caches, restarts from a log whose lines the
    replay can read - the receipt is in the store, the same but for its place
    and its settlement stamp and status; and every later request with the same
    idempotency key, whatever else it carries and whatever cache, clock and
    files it meets, is answered with that receipt - or refused, when it has no
    lines or no number - and changes nothing, so the VAT of the sale is not
    counted twice. *)
Theorem ingest_idempotent env env' req req' s l s' r s2 l2 :
  reached (s, l) -> logOpen (s_store s) = true -> rc_ID (iq_Receipt req) = "" ->
  handleIngestReceipt env req s = (s', JSON 201 (ingested r)) ->
  rtc posStep (s', l) (s2, l2) ->
  idemOf (iq_Receipt req') = idemOf (iq_Receipt req) ->
  exists r', GetReceipt (rc_ID r) (s_store s2) = Some r' /\ sale r' = sale r /\
    handleIngestReceipt env' req' s2 =
      (s2, if bool_decide (Lines (iq_Receipt req') = []) || bool_decide (ReceiptNo (iq_Receipt req') = "")
           then Problem 422 "validation failed" else JSON 200 (duplicate r')).
Proof.
  intros Hs Ho Hid Hi Hrun Hkey. pose proof (reached_keyed _ Hs) as Hk. cbn [fst] in Hk.
  destruct (accepted_kept env req s s' r Hk Ho Hid Hi) as [Hrid Hkept].
  assert (Hne : rc_ID r <> "") by (by rewrite Hrid).
  destruct (run_kept _ _ _ _ Hne Hrun Hkept) as [_ (r' & Hr' & E) _]. cbn [fst] in Hr'. exists r'. split; [exact Hr'|]. split; [exact E|].
  unfold handleIngestReceipt. destruct (_ || _); [done|]. unfold GetReceipt. rewrite Hkey, <- Hrid, Hr'. done.
Qed.
End History.

(** ** Witnesses *)

#[local] Existing Instance Toy.crypto.

(** A sale is taken in, settled, and the service restarted with its cache lost;
    then a request with the same key and another identifier arrives. *)
Definition demo_taken : Service * response ingestBody := handleIngestReceipt PosReceipt.demo_env (demo_request "" "") PosReceipt.demo_service.
Definition demo_receipt : Receipt :=
  match demo_taken.2 with JSON _ (ingested r) => r | _ => iq_Receipt (demo_request "" "") end.
Definition demo_paid : (Service * DevLedger.t) * response settleBody :=
  handleSettlementRecon PosSettle.demo_io [] "dev" "a" "2026-06" (demo_taken.1, PosSettle.demo_ledger).
Definition demo_again : Service :=
  let st := s_store demo_paid.1.1 in mkService PosReceipt.demo_packs (NewStore true (log st) (settledLog st) (spool st)) ∅ (mkBus [] []).

Definition noLength (_ : Receipt) : Z := 0.

Lemma demo_fits : fits noLength (log (s_store demo_paid.1.1)).
Proof. apply Forall_true. intros r. reflexivity. Qed.

Lemma history_run : rtc (posStep noLength) (demo_taken.1, PosSettle.demo_ledger) (demo_again, demo_paid.1.2).
Proof.
  eapply rtc_l; [exact (step_settle noLength PosSettle.demo_io [] "dev" "a" "2026-06" demo_taken.1 PosSettle.demo_ledger)|].
  apply rtc_once. unfold demo_again. fold demo_paid. pose proof demo_fits as Hf. destruct demo_paid as [[s l] r]. by apply step_restart.
Qed.

(** The settlement stamped the receipt, and the stamp came back. *)
Example demo_stamped :
  (Status <$> GetReceipt (rc_ID demo_receipt) (s_store demo_again)) = Some "settled" /\
  (SettledIn <$> GetReceipt (rc_ID demo_receipt) (s_store demo_again)) = Some "a|2026-06".
Proof. split; vm_compute; reflexivity. Qed.

Lemma ingest_idempotent_witness :
  exists r', GetReceipt (rc_ID demo_receipt) (s_store demo_again) = Some r' /\ sale r' = sale demo_receipt /\
    handleIngestReceipt PosReceipt.demo_env (demo_request "other" "") demo_again = (demo_again, JSON 200 (duplicate r')).
Proof.
  apply (ingest_idempotent noLength PosReceipt.demo_env PosReceipt.demo_env (demo_request "" "") (demo_request "other" "") PosReceipt.demo_service PosSettle.demo_ledger demo_taken.1 demo_receipt
           demo_again demo_paid.1.2).
  - exists true, PosReceipt.demo_packs, [], [], [], ∅, (mkBus [] []), PosSettle.demo_ledger. split; [apply Forall_nil; exact I|apply rtc_refl].
  - reflexivity.
  - reflexivity.
  - vm_compute. reflexivity.
  - exact history_run.
  - reflexivity.
Defined.
