(* ===== verification/CarfEngine.v ===== *)
(** * vasp-carf: the basis and gain/loss engine (services/vasp-carf/engine.go)

    Trades and transfers of crypto-assets, FIFO lots and weighted-average-cost
    positions per tenant, user and asset, the fair-value cache, the gain/loss
    ledger, the log and its replay.  Quantities are in thousandths of an asset
    and money in kobo, both [int64].  The log is open and its writes succeed;
    fresh identifiers and the clock are arguments. *)

From S2P Require Import Prelude.

Record Trade := mkTrade {
  t_ID : string;
  t_TenantID : string;
  VASPRef : string;
  t_UserHash : string;
  t_Asset : string;
  Side : string;
  t_QtyMilli : Z;
  PriceKobo : Z;
  FeeKobo : Z;
  TradedAt : string;
  TxHash : string;
}.

Record Transfer := mkTransfer {
  x_ID : string;
  x_TenantID : string;
  x_UserHash : string;
  x_Asset : string;
  Direction : string;
  x_QtyMilli : Z;
  FMVKobo : Z;
  MovedAt : string;
}.

Record Lot := mkLot { QtyMilli : Z; CostPerUnit : Z; AcquiredAt : string }.

Record GainLossEntry := mkGainLossEntry {
  gl_ID : string;
  gl_TenantID : string;
  gl_UserHash : string;
  gl_Asset : string;
  gl_Kind : string;
  Proceeds : Z;
  Basis : Z;
  GainLoss : Z;
  Method : string;
  TradeID : string;
  BookedAt : string;
}.

Record FMVSnapshot := mkFMVSnapshot { f_Asset : string; f_PriceKobo : Z; f_Source : string; f_At : string }.

Record wacState := mkWac { w_QtyMilli : Z; CostTotal : Z }.

(** A line of the log *)
Inductive logRec :=
| logTrade (t : Trade)
| logTransfer (tr : Transfer)
| logFmv (s : FMVSnapshot)
| logLedger (gl : GainLossEntry).

Record Engine := mkEngine {
  trades : gmap string Trade;
  transfers : gmap string Transfer;
  lots : gmap string (list Lot);
  wac : gmap string wacState;
  fmv : gmap string (list FMVSnapshot);
  ledger : list GainLossEntry;
  log : list logRec;
}.

Definition emptyEngine (l : list logRec) : Engine := mkEngine ∅ ∅ ∅ ∅ ∅ [] l.

(** Fresh identifier and time of a call *)
Record Clock := mkClock { freshULID : string; nowRFC3339 : string }.

Inductive engineError :=
| badQty
| badSide
| badDirection
| unknownMethod
| insufficientBasis (have need : Z)
| insufficientWac (have need : Z).

Definition key3 (tenant user asset : string) : string :=
  tenant +:+ "|" +:+ user +:+ "|" +:+ Str.to_upper asset.

Definition amountKobo (qtyMilli pricePerUnit : Z) : Z := (qtyMilli *! pricePerUnit) /! 1000.

Definition lotsOf (k : string) (e : Engine) : list Lot := default [] (lots e !! k).

Definition set_trades m e := mkEngine m (transfers e) (lots e) (wac e) (fmv e) (ledger e) (log e).
Definition set_transfers m e := mkEngine (trades e) m (lots e) (wac e) (fmv e) (ledger e) (log e).
Definition set_lots k ls e := mkEngine (trades e) (transfers e) (<[k := ls]> (lots e)) (wac e) (fmv e) (ledger e) (log e).
Definition set_wac k w e := mkEngine (trades e) (transfers e) (lots e) (<[k := w]> (wac e)) (fmv e) (ledger e) (log e).
Definition set_fmv m e := mkEngine (trades e) (transfers e) (lots e) (wac e) m (ledger e) (log e).
Definition book gl e := mkEngine (trades e) (transfers e) (lots e) (wac e) (fmv e) (ledger e ++ [gl]) (log e).
Definition append r e := mkEngine (trades e) (transfers e) (lots e) (wac e) (fmv e) (ledger e) (log e ++ [r]).

(** *** Basis *)

(** [acquire] for [qty] units at [costPerUnit], booked at [at_] *)
Definition acquire (tenant user asset : string) (qty costPerUnit : Z) (at_ : string) (e : Engine) : Engine :=
  let k := key3 tenant user asset in
  let e := set_lots k (lotsOf k e ++ [mkLot qty costPerUnit at_]) e in
  let w := default (mkWac 0 0) (wac e !! k) in
  set_wac k (mkWac (w_QtyMilli w +! qty) (CostTotal w +! amountKobo qty costPerUnit)) e.

(** The loop that takes [remain] units off the front of the queue.  A lot is
    dropped when it is used up; when something is left of it, [take] was
    [remain], so nothing remains and the loop ends. *)
Fixpoint takeLots (ls : list Lot) (remain basis : Z) : list Lot * Z :=
  match ls with
  | [] => ([], basis)
  | head :: rest =>
      if 0 <? remain then
        let take := if remain <? QtyMilli head then remain else QtyMilli head in
        let basis := basis +! amountKobo take (CostPerUnit head) in
        let left := QtyMilli head -! take in
        if left =? 0 then takeLots rest (remain -! take) basis
        else (mkLot left (CostPerUnit head) (AcquiredAt head) :: rest, basis)
      else (ls, basis)
  end.

Definition consumeBasis (tenant user asset : string) (qty : Z) (e : Engine) : Engine * result engineError Z :=
  let k := key3 tenant user asset in
  let ls := lotsOf k e in
  let have := loop_sum QtyMilli ls 0 in
  if have <? qty then (e, Err (insufficientBasis have qty))
  else
    let '(ls, basis) := takeLots ls qty 0 in
    (set_lots k ls e, Ok basis).

Definition consumeWAC (tenant user asset : string) (qty : Z) (e : Engine) : Engine * result engineError Z :=
  let k := key3 tenant user asset in
  match wac e !! k with
  | None => (e, Err (insufficientWac 0 qty))
  | Some w =>
      if w_QtyMilli w <? qty then (e, Err (insufficientWac (w_QtyMilli w) qty))
      else
        let basis := (CostTotal w *! qty) /! w_QtyMilli w in
        (set_wac k (mkWac (w_QtyMilli w -! qty) (CostTotal w -! basis)) e, Ok basis)
  end.

(** *** Trades *)

(** The ledger entry of a disposal *)
Definition disposal (c : Clock) (t : Trade) (method : string) (basis : Z) : GainLossEntry :=
  let proceeds := amountKobo (t_QtyMilli t) (PriceKobo t) -! FeeKobo t in
  mkGainLossEntry ("gl-" +:+ freshULID c) (t_TenantID t) (t_UserHash t) (Str.to_upper (t_Asset t))
    "disposal" proceeds basis (proceeds -! basis) method (t_ID t) (nowRFC3339 c).

Definition bookDisposal (c : Clock) (t : Trade) (method : string) (e : Engine)
  : Engine * result engineError GainLossEntry :=
  let method := Str.or_default method "fifo" in
  let '(e, r) :=
    if bool_decide (method = "fifo") then consumeBasis (t_TenantID t) (t_UserHash t) (t_Asset t) (t_QtyMilli t) e
    else if bool_decide (method = "wac") then consumeWAC (t_TenantID t) (t_UserHash t) (t_Asset t) (t_QtyMilli t) e
    else (e, Err unknownMethod) in
  match r with
  | Err err => (e, Err err)
  | Ok basis =>
      (e, Ok (disposal c t method basis))
  end.

Definition trade_defaults (c : Clock) (t : Trade) : Trade :=
  mkTrade (t_ID t) (t_TenantID t) (VASPRef t) (t_UserHash t) (t_Asset t) (Side t) (t_QtyMilli t)
    (PriceKobo t) (FeeKobo t) (Str.or_default (TradedAt t) (nowRFC3339 c)) (TxHash t).

Definition trade_id (c : Clock) (t : Trade) : Trade :=
  mkTrade (Str.or_default (t_ID t) ("trd-" +:+ freshULID c)) (t_TenantID t) (VASPRef t) (t_UserHash t)
    (t_Asset t) (Side t) (t_QtyMilli t) (PriceKobo t) (FeeKobo t) (TradedAt t) (TxHash t).

Definition record_trade (t : Trade) (e : Engine) : Engine :=
  append (logTrade t) (set_trades (<[t_ID t := t]> (trades e)) e).

(** [Ok None]: the trade was there already, or was a purchase *)
Definition IngestTrade (c : Clock) (t : Trade) (method : string) (e : Engine)
  : Engine * result engineError (option GainLossEntry) :=
  if (t_QtyMilli t <=? 0) || (PriceKobo t <? 0) then (e, Err badQty)
  else if negb (bool_decide (Side t = "buy")) && negb (bool_decide (Side t = "sell")) then (e, Err badSide)
  else
    let t := trade_id c t in
    match trades e !! t_ID t with
    | Some _ => (e, Ok None)
    | None =>
        let t := trade_defaults c t in
        if bool_decide (Side t = "sell") then
          let '(e, r) := bookDisposal c t method e in
          match r with
          | Err err => (e, Err err)
          | Ok gl => (append (logLedger gl) (book gl (record_trade t e)), Ok (Some gl))
          end
        else
          (record_trade t (acquire (t_TenantID t) (t_UserHash t) (t_Asset t) (t_QtyMilli t)
                             (PriceKobo t) (TradedAt t) e), Ok None)
    end.

(** *** Fair values *)

Definition latestFMV (asset : string) (e : Engine) : option FMVSnapshot :=
  last (default [] (fmv e !! Str.to_upper asset)).
Definition LatestFMV := latestFMV.

Definition push_fmv (s : FMVSnapshot) (e : Engine) : Engine :=
  let a := Str.to_upper (f_Asset s) in
  set_fmv (<[a := default [] (fmv e !! a) ++ [s]]> (fmv e)) e.

Definition AddFMV (c : Clock) (s : FMVSnapshot) (e : Engine) : Engine :=
  let s := mkFMVSnapshot (f_Asset s) (f_PriceKobo s) (f_Source s) (Str.or_default (f_At s) (nowRFC3339 c)) in
  append (logFmv s) (push_fmv s e).

(** *** Transfers *)

Definition transfer_id (c : Clock) (tr : Transfer) : Transfer :=
  mkTransfer (Str.or_default (x_ID tr) ("xfr-" +:+ freshULID c)) (x_TenantID tr) (x_UserHash tr) (x_Asset tr)
    (Direction tr) (x_QtyMilli tr) (FMVKobo tr) (MovedAt tr).

Definition transfer_defaults (c : Clock) (tr : Transfer) (e : Engine) : Transfer :=
  mkTransfer (x_ID tr) (x_TenantID tr) (x_UserHash tr) (x_Asset tr) (Direction tr) (x_QtyMilli tr)
    (if FMVKobo tr =? 0 then match latestFMV (x_Asset tr) e with Some s => f_PriceKobo s | None => 0 end
     else FMVKobo tr)
    (Str.or_default (MovedAt tr) (nowRFC3339 c)).

Definition record_transfer (tr : Transfer) (e : Engine) : Engine :=
  append (logTransfer tr) (set_transfers (<[x_ID tr := tr]> (transfers e)) e).

Definition IngestTransfer (c : Clock) (tr : Transfer) (e : Engine)
  : Engine * result engineError (option GainLossEntry) :=
  if x_QtyMilli tr <=? 0 then (e, Err badQty)
  else if negb (bool_decide (Direction tr = "in")) && negb (bool_decide (Direction tr = "out"))
  then (e, Err badDirection)
  else
    let tr := transfer_id c tr in
    match transfers e !! x_ID tr with
    | Some _ => (e, Ok None)
    | None =>
        let tr := transfer_defaults c tr e in
        if bool_decide (Direction tr = "in") then
          (record_transfer tr (acquire (x_TenantID tr) (x_UserHash tr) (x_Asset tr) (x_QtyMilli tr)
                                 (FMVKobo tr) (MovedAt tr) e), Ok None)
        else
          let proceeds := amountKobo (x_QtyMilli tr) (FMVKobo tr) in
          let '(e, r) := consumeBasis (x_TenantID tr) (x_UserHash tr) (x_Asset tr) (x_QtyMilli tr) e in
          match r with
          | Err err => (e, Err err)
          | Ok basis =>
              let '(e, _) := consumeWAC (x_TenantID tr) (x_UserHash tr) (x_Asset tr) (x_QtyMilli tr) e in
              let gl := mkGainLossEntry ("gl-" +:+ freshULID c) (x_TenantID tr) (x_UserHash tr)
                          (Str.to_upper (x_Asset tr)) "transfer-out-fmv" proceeds basis (proceeds -! basis)
                          "fifo" "" (nowRFC3339 c) in
              (record_transfer tr (append (logLedger gl) (book gl e)), Ok (Some gl))
          end
    end.

(** *** Replay: no logging, and both positions are relieved *)

Definition applyTrade (t : Trade) (e : Engine) : Engine :=
  match trades e !! t_ID t with
  | Some _ => e
  | None =>
      let e := set_trades (<[t_ID t := t]> (trades e)) e in
      if bool_decide (Side t = "buy") then
        acquire (t_TenantID t) (t_UserHash t) (t_Asset t) (t_QtyMilli t) (PriceKobo t) (TradedAt t) e
      else
        let e := (consumeBasis (t_TenantID t) (t_UserHash t) (t_Asset t) (t_QtyMilli t) e).1 in
        (consumeWAC (t_TenantID t) (t_UserHash t) (t_Asset t) (t_QtyMilli t) e).1
  end.

Definition applyTransfer (tr : Transfer) (e : Engine) : Engine :=
  match transfers e !! x_ID tr with
  | Some _ => e
  | None =>
      let e := set_transfers (<[x_ID tr := tr]> (transfers e)) e in
      if bool_decide (Direction tr = "in") then
        acquire (x_TenantID tr) (x_UserHash tr) (x_Asset tr) (x_QtyMilli tr) (FMVKobo tr) (MovedAt tr) e
      else
        let e := (consumeBasis (x_TenantID tr) (x_UserHash tr) (x_Asset tr) (x_QtyMilli tr) e).1 in
        (consumeWAC (x_TenantID tr) (x_UserHash tr) (x_Asset tr) (x_QtyMilli tr) e).1
  end.

Definition replayRec (e : Engine) (r : logRec) : Engine :=
  match r with
  | logTrade t => applyTrade t e
  | logTransfer tr => applyTransfer tr e
  | logFmv s => push_fmv s e
  | logLedger gl => book gl e
  end.

Definition replay (l : list logRec) (e : Engine) : Engine := foldl replayRec e l.

(** [NewEngine] on a directory whose log is [l] *)
Definition NewEngine (l : list logRec) : Engine := replay l (emptyEngine l).
Definition restart (e : Engine) : Engine := NewEngine (log e).

(** *** Reports *)

Record CostBasisReport := mkCostBasisReport {
  cb_qty : Z;
  cb_basis : Z;
  cb_avg : option Z;
  cb_lots : list Lot;
}.

Definition CostBasis (tenant user asset method : string) (e : Engine) : CostBasisReport :=
  let k := key3 tenant user asset in
  if bool_decide (method = "wac") then
    match wac e !! k with
    | None => mkCostBasisReport 0 0 None []
    | Some w =>
        mkCostBasisReport (w_QtyMilli w) (CostTotal w)
          (if 0 <? w_QtyMilli w then Some ((CostTotal w *! 1000) /! w_QtyMilli w) else None) []
    end
  else
    let ls := lotsOf k e in
    mkCostBasisReport (loop_sum QtyMilli ls 0)
      (loop_sum (fun l => amountKobo (QtyMilli l) (CostPerUnit l)) ls 0) None ls.

Definition Ledger (tenant : string) (e : Engine) : list GainLossEntry :=
  List.filter (fun gl => bool_decide (tenant = "") || bool_decide (gl_TenantID gl = tenant)) (ledger e).

(** Listings go through a Go map, in the order [ids]. *)
Definition by_time (a b : Trade) : Prop := String.leb (TradedAt a) (TradedAt b) = true.
#[export] Instance by_time_dec a b : Decision (by_time a b).
Proof. unfold by_time. apply _. Defined.

Definition Trades (ids : list string) (tenant : string) (e : Engine) : list Trade :=
  merge_sort by_time
    (List.filter (fun t => bool_decide (tenant = "") || bool_decide (t_TenantID t = tenant))
       (omap (fun id => trades e !! id) ids)).

Definition Transfers (ids : list string) (tenant : string) (e : Engine) : list Transfer :=
  List.filter (fun tr => bool_decide (tenant = "") || bool_decide (x_TenantID tr = tenant))
    (omap (fun id => transfers e !! id) ids).

Record RingFenceResult := mkRingFence {
  GrossGains : Z;
  GrossLosses : Z;
  NetRingFenced : Z;
  TaxableGain : Z;
  CarryForward : Z;
  PerAsset : gmap string Z;
}.

Definition ringFenceSelects (tenant user period : string) (gl : GainLossEntry) : bool :=
  bool_decide (gl_TenantID gl = tenant) &&
  (bool_decide (user = "") || bool_decide (gl_UserHash gl = user)) &&
  (bool_decide (period = "") || Str.has_prefix (BookedAt gl) period).

Definition ringFenceStep (acc : Z * Z * gmap string Z) (gl : GainLossEntry) : Z * Z * gmap string Z :=
  let '(gains, losses, per) := acc in
  let per := <[gl_Asset gl := default 0 (per !! gl_Asset gl) +! GainLoss gl]> per in
  if 0 <=? GainLoss gl then (gains +! GainLoss gl, losses, per)
  else (gains, losses +! -! GainLoss gl, per).

Definition RingFence (tenant user period : string) (e : Engine) : RingFenceResult :=
  let '(gains, losses, per) :=
    foldl ringFenceStep (0, 0, ∅) (List.filter (ringFenceSelects tenant user period) (ledger e)) in
  let net := gains -! losses in
  if 0 <? net then mkRingFence gains losses net net 0 per
  else mkRingFence gains losses net 0 (-! net) per.

(** ** The engine as a transition system *)

Inductive engineOp :=
| opTrade (c : Clock) (t : Trade) (method : string)
| opTransfer (c : Clock) (tr : Transfer)
| opFMV (c : Clock) (s : FMVSnapshot).

Definition engineExec (e : Engine) (o : engineOp) : Engine :=
  match o with
  | opTrade c t method => (IngestTrade c t method e).1
  | opTransfer c tr => (IngestTransfer c tr e).1
  | opFMV c s => AddFMV c s e
  end.

Definition engineRun (ops : list engineOp) : Engine := foldl engineExec (NewEngine []) ops.

(** The queue of single units (thousandths of an asset) behind the lots, each
    with its unit cost: the specification of FIFO relief. *)
Definition units (ls : list Lot) : list Z :=
  flat_map (fun l => replicate (Z.to_nat (QtyMilli l)) (CostPerUnit l)) ls.

Definition lotOk (l : Lot) : Prop := 0 < QtyMilli l < two63.

Definition lotsWf (e : Engine) : Prop := forall k ls, lots e !! k = Some ls -> Forall lotOk ls.

(** ** Auxiliary lemmas *)

Section Fifo.

Lemma sumZ_replicate n c : sumZ (fun x : Z => x) (replicate n c) = Z.of_nat n * c.
Proof. induction n as [|n IH]; [done|]. simpl replicate. rewrite sumZ_cons, IH. lia. Qed.

Lemma amountKobo_exact q c :
  0 <= q -> 0 <= c -> q * c < two63 ->
  1000 * amountKobo q c <= q * c < 1000 * amountKobo q c + 1000.
Proof.
  intros Hq Hc Hb. assert (0 <= q * c) by nia. unfold amountKobo.
  rewrite (wrap64_id (q * c)) by (unfold in64, two63 in *; lia).
  rewrite Z.quot_div_nonneg by lia.
  pose proof (Z.div_mod (q * c) 1000). pose proof (Z.mod_pos_bound (q * c) 1000).
  rewrite wrap64_id by (unfold in64, two63 in *; lia). lia.
Qed.

(** What the lots cost in thousandths of a kobo, exactly *)
Definition exactCost (ls : list Lot) : Z := sumZ (fun l => QtyMilli l * CostPerUnit l) ls.

Definition costOk (l : Lot) : Prop := lotOk l /\ 0 <= CostPerUnit l.

Lemma exactCost_nonneg ls : Forall costOk ls -> 0 <= exactCost ls.
Proof.
  intros H. apply sumZ_nonneg. intros l Hl. rewrite Forall_forall in H.
  destruct (H l Hl) as [[? ?] ?]. nia.
Qed.

Lemma takeLots_units ls q basis :
  Forall costOk ls -> 0 <= q <= sumZ QtyMilli ls -> sumZ QtyMilli ls < two63 ->
  0 <= basis -> 1000 * basis + exactCost ls < two63 ->
  let '(ls', basis') := takeLots ls q basis in
  units ls' = drop (Z.to_nat q) (units ls) /\
  Forall costOk ls' /\
  1000 * (basis' - basis) <= sumZ (fun x => x) (take (Z.to_nat q) (units ls)) <=
    1000 * (basis' - basis) + 999 * Z.of_nat (length ls).
Proof.
  revert q basis. induction ls as [|head rest IH]; intros q basis Hok Hq Hsum Hb Hc; simpl.
  { rewrite take_nil, drop_nil. split; [done|]. split; [done|]. simpl. lia. }
  apply Forall_cons in Hok as [[[Hq0 Hq1] Hc0] Hok].
  unfold exactCost in Hc. rewrite sumZ_cons in Hsum, Hq, Hc. fold (exactCost rest) in Hc.
  pose proof (exactCost_nonneg rest Hok) as Hrest.
  destruct (0 <? q) eqn:E0; bools.
  2: { replace q with 0 by lia. simpl. split; [done|]. split; [by repeat constructor|]. lia. }
  destruct (q <? QtyMilli head) eqn:E1; bools.
  - rewrite (wrap64_id (QtyMilli head - q)) by (unfold in64, two63 in *; lia).
    destruct (QtyMilli head - q =? 0) eqn:E2; bools; [lia|].
    pose proof (amountKobo_exact q (CostPerUnit head) ltac:(lia) Hc0 ltac:(nia)) as Ha.
    rewrite (wrap64_id (basis + _)) by (unfold in64, two63 in *; nia).
    cbn [units flat_map QtyMilli CostPerUnit].
    rewrite drop_app_le, take_app_le by (rewrite length_replicate; lia).
    rewrite drop_replicate, take_replicate, Nat.min_l, sumZ_replicate by lia.
    rewrite <- Z2Nat.inj_sub by lia. split; [done|].
    split; [constructor; [unfold costOk, lotOk; simpl; lia | done]|]. lia.
  - rewrite (wrap64_id (QtyMilli head - _)) by (unfold in64, two63 in *; lia).
    rewrite (wrap64_id (q - _)) by (unfold in64, two63 in *; lia).
    rewrite Z.sub_diag. simpl.
    pose proof (amountKobo_exact (QtyMilli head) (CostPerUnit head) ltac:(lia) Hc0 ltac:(nia)) as Ha.
    rewrite (wrap64_id (basis + _)) by (unfold in64, two63 in *; nia).
    assert (H0 : 0 <= amountKobo (QtyMilli head) (CostPerUnit head)) by nia.
    specialize (IH (q - QtyMilli head) (basis + amountKobo (QtyMilli head) (CostPerUnit head))
      Hok ltac:(lia) ltac:(lia) ltac:(lia) ltac:(lia)).
    destruct (takeLots rest _ _) as [ls' basis']. destruct IH as (Hu & Hok' & Hba).
    rewrite drop_app_ge, take_app_ge by (rewrite length_replicate; lia).
    rewrite length_replicate, <- Z2Nat.inj_sub by lia.
    split; [done|]. split; [done|].
    rewrite sumZ_app, sumZ_replicate. lia.
Qed.

Lemma takeLots_lotOk ls q basis :
  Forall lotOk ls -> Forall lotOk (takeLots ls q basis).1.
Proof.
  revert q basis. induction ls as [|head rest IH]; intros q basis Hok; simpl; [done|].
  apply Forall_cons in Hok as [Hh Hok].
  destruct (0 <? q) eqn:E0; [|by constructor]. case_match eqn:E1; [by apply IH|].
  constructor; [|done]. bools. unfold lotOk in *. simpl.
  destruct (q <? QtyMilli head) eqn:E2; bools.
  - rewrite wrap64_id by (unfold in64, two63 in *; lia). lia.
  - rewrite Z.sub_diag in E1. done.
Qed.
End Fifo.

Section EngineInvariant.

Lemma lotsWf_set k ls e : Forall lotOk ls -> lotsWf e -> lotsWf (set_lots k ls e).
Proof.
  intros Hls Hwf j ls'. simpl. destruct (decide (k = j)) as [->|Hne].
  - rewrite lookup_insert_eq. by intros [= <-].
  - rewrite lookup_insert_ne by done. apply Hwf.
Qed.

Lemma lotsWf_ext e e' : lots e' = lots e -> lotsWf e -> lotsWf e'.
Proof. unfold lotsWf. by intros ->. Qed.

Lemma lotsWf_lotsOf k e : lotsWf e -> Forall lotOk (lotsOf k e).
Proof. intros Hwf. unfold lotsOf. destruct (lots e !! k) eqn:E; simpl; [by eapply Hwf|done]. Qed.

Lemma lotsWf_acquire t u a q c at_ e :
  0 < q < two63 -> lotsWf e -> lotsWf (acquire t u a q c at_ e).
Proof.
  intros Hq Hwf. unfold acquire. eapply lotsWf_ext; [reflexivity|].
  apply lotsWf_set; [|done]. apply Forall_app. split; [by apply lotsWf_lotsOf|].
  apply Forall_singleton. exact Hq.
Qed.

Lemma lotsWf_consumeBasis t u a q e : lotsWf e -> lotsWf (consumeBasis t u a q e).1.
Proof.
  intros Hwf. unfold consumeBasis. destruct (_ <? _); [done|].
  pose proof (takeLots_lotOk (lotsOf (key3 t u a) e) q 0 (lotsWf_lotsOf _ _ Hwf)) as H.
  destruct (takeLots _ _ _) as [ls b]. simpl in *. by apply lotsWf_set.
Qed.

Lemma consumeWAC_lots t u a q e : lots (consumeWAC t u a q e).1 = lots e.
Proof. unfold consumeWAC. by cases. Qed.

Lemma lotsWf_consumeWAC t u a q e : lotsWf e -> lotsWf (consumeWAC t u a q e).1.
Proof. apply lotsWf_ext, consumeWAC_lots. Qed.

Lemma lotsWf_bookDisposal c t method e : lotsWf e -> lotsWf (bookDisposal c t method e).1.
Proof.
  intros Hwf. unfold bookDisposal. case_bool_decide; [|case_bool_decide]; [| |done].
  - pose proof (lotsWf_consumeBasis (t_TenantID t) (t_UserHash t) (t_Asset t) (t_QtyMilli t) e Hwf).
    destruct (consumeBasis _ _ _ _ _) as [e' []]; done.
  - pose proof (lotsWf_consumeWAC (t_TenantID t) (t_UserHash t) (t_Asset t) (t_QtyMilli t) e Hwf).
    destruct (consumeWAC _ _ _ _ _) as [e' []]; done.
Qed.

(** Quantities of a request are [int64]. *)
Definition opQtyOk (o : engineOp) : Prop :=
  match o with
  | opTrade _ t _ => t_QtyMilli t < two63
  | opTransfer _ tr => x_QtyMilli tr < two63
  | opFMV _ _ => True
  end.

Lemma lotsWf_exec e o : opQtyOk o -> lotsWf e -> lotsWf (engineExec e o).
Proof.
  intros Hq Hwf. destruct o as [c t method|c tr|c s]; simpl in *; [| |done].
  - unfold IngestTrade. destruct (_ || _) eqn:Hg; [done|]. bools.
    destruct (negb _ && _); [done|]. destruct (trades e !! _); [done|].
    case_bool_decide.
    + pose proof (lotsWf_bookDisposal c (trade_defaults c (trade_id c t)) method e Hwf) as H'.
      destruct (bookDisposal _ _ _ _) as [e' []]; simpl in *; done.
    + eapply (lotsWf_ext (acquire _ _ _ _ _ _ e)); [reflexivity|]. apply lotsWf_acquire; [simpl; lia|done].
  - unfold IngestTransfer. destruct (_ <=? _) eqn:Hg; [done|]. bools.
    destruct (negb _ && _); [done|]. destruct (transfers e !! _); [done|].
    case_bool_decide.
    + eapply (lotsWf_ext (acquire _ _ _ _ _ _ e)); [reflexivity|]. apply lotsWf_acquire; [simpl; lia|done].
    + cbv zeta. set (tr' := transfer_defaults c (transfer_id c tr) e).
      pose proof (lotsWf_consumeBasis (x_TenantID tr') (x_UserHash tr') (x_Asset tr') (x_QtyMilli tr') e Hwf) as H'.
      destruct (consumeBasis _ _ _ _ _) as [e' []]; simpl in *; [|done].
      pose proof (lotsWf_consumeWAC (x_TenantID tr') (x_UserHash tr') (x_Asset tr') (x_QtyMilli tr') e' H') as H''.
      destruct (consumeWAC _ _ _ _ _) as [e'' r]; done.
Qed.
End EngineInvariant.

Section Replay.

(** Equal but for the weighted-average positions (and the log) *)
Definition same (a b : Engine) : Prop :=
  trades a = trades b /\ transfers a = transfers b /\ lots a = lots b /\ fmv a = fmv b /\ ledger a = ledger b.

Definition rebuilt (e : Engine) : Prop := same (replay (log e) (emptyEngine [])) e.

Lemma same_acquire t u a q c at_ e e' : same e e' -> same (acquire t u a q c at_ e) (acquire t u a q c at_ e').
Proof.
  intros (H1 & H2 & H3 & H4 & H5). unfold same, acquire, lotsOf. simpl. by rewrite H1, H2, H3, H4, H5.
Qed.

Lemma same_consumeBasis t u a q e e' :
  same e e' -> same (consumeBasis t u a q e).1 (consumeBasis t u a q e').1.
Proof.
  intros (H1 & H2 & H3 & H4 & H5). unfold consumeBasis, lotsOf. rewrite H3.
  destruct (_ <? _); [done|]. destruct (takeLots _ _ _). unfold same. simpl. by rewrite H1, H2, H3, H4, H5.
Qed.

Lemma same_consumeWAC t u a q e e' : same e e' -> same (consumeWAC t u a q e).1 e'.
Proof. intros (H1 & H2 & H3 & H4 & H5). unfold consumeWAC, same. by cases. Qed.

Lemma consumeBasis_log t u a q e : log (consumeBasis t u a q e).1 = log e.
Proof. unfold consumeBasis. destruct (_ <? _); [done|]. by destruct (takeLots _ _ _). Qed.

Lemma consumeBasis_other t u a q e :
  trades (consumeBasis t u a q e).1 = trades e /\ transfers (consumeBasis t u a q e).1 = transfers e.
Proof. unfold consumeBasis. destruct (_ <? _); [done|]. by destruct (takeLots _ _ _). Qed.

Lemma consumeWAC_log t u a q e : log (consumeWAC t u a q e).1 = log e.
Proof. unfold consumeWAC. by cases. Qed.

Lemma same_trans a b c : same a b -> same b c -> same a c.
Proof. unfold same. intuition congruence. Qed.

Lemma replay_snoc l r e : replay (l ++ [r]) e = replayRec (replay l e) r.
Proof. unfold replay. by rewrite foldl_app. Qed.

(** One trade, live and replayed *)
Lemma rebuilt_trade c t e :
  rebuilt e -> rebuilt (IngestTrade c t "" e).1 /\ rebuilt (IngestTrade c t "fifo" e).1.
Proof.
  intros Hr.
  assert (Hm : forall method, bookDisposal c (trade_defaults c (trade_id c t)) method e =
      bookDisposal c (trade_defaults c (trade_id c t)) "fifo" e -> rebuilt (IngestTrade c t method e).1).
  2: { split; apply Hm; reflexivity. }
  intros method Hm. unfold IngestTrade. destruct (_ || _); [done|]. destruct (negb _ && _) eqn:Hside; [done|].
  destruct (trades e !! t_ID (trade_id c t)) eqn:Hdup; [done|]. rewrite Hm.
  set (t' := trade_defaults c (trade_id c t)).
  assert (Hdup' : trades (replay (log e) (emptyEngine [])) !! t_ID t' = None)
    by (destruct Hr as (-> & _); exact Hdup).
  assert (Hset : same (set_trades (<[t_ID t' := t']> (trades (replay (log e) (emptyEngine []))))
                        (replay (log e) (emptyEngine [])))
                      (set_trades (<[t_ID t' := t']> (trades e)) e)).
  { destruct Hr as (H1 & H2 & H3 & H4 & H5). unfold same. simpl. by rewrite H1. }
  destruct (bool_decide (Side t' = "sell")) eqn:Hsell; bools.
  - assert (Hbuy : Side t' <> "buy") by (intros E0; by pose proof (eq_trans (eq_sym E0) Hsell)).
    unfold bookDisposal. simpl (bool_decide (_ = "fifo")).
    pose proof (same_consumeBasis (t_TenantID t') (t_UserHash t') (t_Asset t') (t_QtyMilli t') _ _ Hset) as Hcb.
    pose proof (consumeBasis_log (t_TenantID t') (t_UserHash t') (t_Asset t') (t_QtyMilli t') e) as Hlog.
    assert (Hswap : same (set_trades (<[t_ID t' := t']> (trades e)) (consumeBasis (t_TenantID t') (t_UserHash t') (t_Asset t') (t_QtyMilli t') e).1)
      (consumeBasis (t_TenantID t') (t_UserHash t') (t_Asset t') (t_QtyMilli t') (set_trades (<[t_ID t' := t']> (trades e)) e)).1).
    { unfold consumeBasis, lotsOf. simpl. destruct (_ <? _); [done|]. by destruct (takeLots _ _ _). }
    destruct (consumeBasis_other (t_TenantID t') (t_UserHash t') (t_Asset t') (t_QtyMilli t') e) as [Ht _].
    destruct (consumeBasis _ _ _ _ e) as [e1 [basis|err]] eqn:E; cbn [fst] in *.
    + unfold rebuilt. cbn [fst log append book record_trade set_trades].
      rewrite Hlog, replay_snoc, replay_snoc. cbn [replayRec]. unfold applyTrade. rewrite Hdup', bool_decide_false by done.
      destruct (same_consumeWAC (t_TenantID t') (t_UserHash t') (t_Asset t') (t_QtyMilli t') _ _ Hcb)
        as (H1 & H2 & H3 & H4 & H5).
      destruct Hswap as (S1 & S2 & S3 & S4 & S5). unfold same. simpl in *.
      rewrite H1, H2, H3, H4, H5, <- S1, <- S2, <- S3, <- S4, <- S5, Ht. done.
    + unfold consumeBasis in E. destruct (_ <? _); [|by destruct (takeLots _ _ _)].
      by injection E as <- _.
  - assert (Hbuy : Side t' = "buy").
    { change (Side t = "buy"). change (Side t <> "sell") in Hsell.
      apply andb_false_iff in Hside as [Hs|Hs]; bools; done. }
    unfold rebuilt. cbn [fst log append record_trade set_trades acquire set_lots set_wac].
    rewrite replay_snoc. cbn [replayRec]. unfold applyTrade.
    rewrite Hdup', bool_decide_true by done.
    pose proof (same_acquire (t_TenantID t') (t_UserHash t') (t_Asset t') (t_QtyMilli t') (PriceKobo t') (TradedAt t') _ _ Hset) as Ha.
    exact Ha.
Qed.

Lemma rebuilt_transfer c tr e : rebuilt e -> rebuilt (IngestTransfer c tr e).1.
Proof.
  intros Hr0. pose proof Hr0 as Hr. unfold IngestTransfer. destruct (_ <=? _); [done|]. destruct (negb _ && _) eqn:Hdir; [done|].
  destruct (transfers e !! x_ID (transfer_id c tr)) eqn:Hdup; [done|]. cbv zeta.
  set (t' := transfer_defaults c (transfer_id c tr) e).
  unfold rebuilt in Hr. set (r0 := replay (log e) (emptyEngine [])) in *.
  destruct (bool_decide (Direction t' = "in")) eqn:Hin; bools.
  - unfold rebuilt. cbn [fst log append record_transfer set_transfers acquire set_lots set_wac].
    rewrite replay_snoc. fold r0. cbn [replayRec]. unfold applyTransfer.
    assert (Hd : transfers r0 !! x_ID t' = None) by (destruct Hr as (_ & -> & _); exact Hdup).
    rewrite Hd, bool_decide_true by done.
    assert (Hset : same (set_transfers (<[x_ID t' := t']> (transfers r0)) r0)
                        (set_transfers (<[x_ID t' := t']> (transfers e)) e)).
    { destruct Hr as (H1 & H2 & H3 & H4 & H5). unfold same. simpl. by rewrite H2. }
    exact (same_acquire (x_TenantID t') (x_UserHash t') (x_Asset t') (x_QtyMilli t') (FMVKobo t') (MovedAt t') _ _ Hset).
  - pose proof (consumeBasis_log (x_TenantID t') (x_UserHash t') (x_Asset t') (x_QtyMilli t') e) as Hlog.
    destruct (consumeBasis_other (x_TenantID t') (x_UserHash t') (x_Asset t') (x_QtyMilli t') e) as [Ht1 Ht2].
    destruct (consumeBasis _ _ _ _ e) as [e1 [basis|err]] eqn:E; simpl in Hlog, Ht1, Ht2.
    2: { unfold consumeBasis in E. destruct (_ <? _); [|by destruct (takeLots _ _ _)].
         by injection E as <- _. }
    pose proof (consumeWAC_log (x_TenantID t') (x_UserHash t') (x_Asset t') (x_QtyMilli t') e1) as Hlog2.
    pose proof (same_consumeWAC (x_TenantID t') (x_UserHash t') (x_Asset t') (x_QtyMilli t') e1 e1 ltac:(done)) as Hw.
    destruct (consumeWAC _ _ _ _ e1) as [e2 r2]. simpl in Hlog2, Hw.
    match goal with |- context [append (logLedger ?g)] => set (gl := g) end.
    unfold rebuilt. cbn [fst log append book record_transfer set_transfers].
    rewrite Hlog2, Hlog, replay_snoc, replay_snoc. fold r0. cbn [replayRec].
    assert (Hb : same (book gl r0) (book gl e)).
    { destruct Hr as (H1 & H2 & H3 & H4 & H5). unfold same. simpl. by rewrite H5. }
    unfold applyTransfer.
    assert (Hd : transfers (book gl r0) !! x_ID t' = None) by (destruct Hb as (_ & -> & _); exact Hdup).
    rewrite Hd, bool_decide_false by done.
    assert (Hset : same (set_transfers (<[x_ID t' := t']> (transfers (book gl r0))) (book gl r0))
                        (set_transfers (<[x_ID t' := t']> (transfers e)) (book gl e))).
    { destruct Hb as (H1 & H2 & H3 & H4 & H5). unfold same. simpl in *. by rewrite H2. }
    pose proof (same_consumeBasis (x_TenantID t') (x_UserHash t') (x_Asset t') (x_QtyMilli t') _ _ Hset) as Hcb.
    apply (same_trans _ _ _ (same_consumeWAC (x_TenantID t') (x_UserHash t') (x_Asset t') (x_QtyMilli t') _ _ Hcb)).
    destruct Hw as (W1 & W2 & W3 & W4 & W5).
    unfold consumeBasis, lotsOf in E |- *. simpl in E |- *.
    destruct (_ <? _); [done|]. destruct (takeLots _ _ _). injection E as <- <-.
    unfold same. simpl in *. by rewrite W1, W2, W3, W4, W5.
Qed.

Lemma rebuilt_fmv c s e : rebuilt e -> rebuilt (AddFMV c s e).
Proof.
  intros (H1 & H2 & H3 & H4 & H5). unfold rebuilt, AddFMV. simpl. rewrite replay_snoc.
  unfold same, push_fmv. simpl. by rewrite H1, H2, H3, H4, H5.
Qed.

End Replay.

Lemma costOk_qty_nonneg ls : Forall costOk ls -> 0 <= sumZ QtyMilli ls.
Proof. intros H. apply sumZ_nonneg. intros l Hl. rewrite Forall_forall in H. destruct (H l Hl) as [[? ?] ?]. lia. Qed.

Lemma bookDisposal_fifo c t e :
  bookDisposal c t "fifo" e =
    let '(e', r) := consumeBasis (t_TenantID t) (t_UserHash t) (t_Asset t) (t_QtyMilli t) e in
    match r with Err err => (e', Err err) | Ok basis => (e', Ok (disposal c t "fifo" basis)) end.
Proof. unfold bookDisposal. simpl. by destruct (consumeBasis _ _ _ _ _) as [e' []]. Qed.

Lemma bookDisposal_wac c t e :
  bookDisposal c t "wac" e =
    let '(e', r) := consumeWAC (t_TenantID t) (t_UserHash t) (t_Asset t) (t_QtyMilli t) e in
    match r with Err err => (e', Err err) | Ok basis => (e', Ok (disposal c t "wac" basis)) end.
Proof. unfold bookDisposal. simpl. by destruct (consumeWAC _ _ _ _ _) as [e' []]. Qed.

(** *** A sale under a fresh id *)

Lemma IngestTrade_sell c t method e :
  Side t = "sell" -> 0 < t_QtyMilli t -> 0 <= PriceKobo t -> t_ID t <> "" -> trades e !! t_ID t = None ->
  IngestTrade c t method e =
    let '(e, r) := bookDisposal c (trade_defaults c t) method e in
    match r with
    | Err err => (e, Err err)
    | Ok gl => (append (logLedger gl) (book gl (record_trade (trade_defaults c t) e)), Ok (Some gl))
    end.
Proof.
  intros Hs Hq Hp Hid Hf. unfold IngestTrade. destruct (_ || _) eqn:E; [bools; lia|].
  rewrite Hs. cbn [bool_decide negb andb].
  assert (Ht : trade_id c t = t).
  { destruct t. unfold trade_id, Str.or_default in *. simpl in *. by rewrite bool_decide_false. }
  rewrite Ht, Hf. simpl. by rewrite Hs.
Qed.

(** ** Properties *)

(** C14: FIFO relief is exact.  Read the lots as a queue of single units, each
    with the cost it was acquired at: disposing of [q] units takes the [q]
    oldest ones off the queue, leaves the others untouched, and the basis
    booked is their cost up to the rounding down of less than one kobo per
    lot. *)
Theorem fifo_relief_exact (tenant user asset : string) (q : Z) (e e' : Engine) (basis : Z) :
  let k := key3 tenant user asset in
  Forall costOk (lotsOf k e) -> sumZ QtyMilli (lotsOf k e) < two63 -> exactCost (lotsOf k e) < two63 ->
  0 <= q -> consumeBasis tenant user asset q e = (e', Ok basis) ->
  units (lotsOf k e') = drop (Z.to_nat q) (units (lotsOf k e)) /\
  1000 * basis <= sumZ (fun c => c) (take (Z.to_nat q) (units (lotsOf k e))) <=
    1000 * basis + 999 * Z.of_nat (length (lotsOf k e)) /\
  (forall j, j <> k -> lotsOf j e' = lotsOf j e).
Proof.
  intros k Hok Hs Hc Hq. unfold consumeBasis. fold k.
  pose proof (costOk_qty_nonneg _ Hok) as Hge.
  rewrite loop_sum_exact by (unfold in64, two63 in *; lia). rewrite Z.add_0_l.
  destruct (_ <? q) eqn:E; bools; [done|].
  pose proof (takeLots_units (lotsOf k e) q 0 Hok ltac:(lia) Hs ltac:(lia) ltac:(lia)) as H.
  destruct (takeLots _ _ _) as [ls' b]. destruct H as (Hu & _ & Hb). intros [= <- <-].
  rewrite Z.sub_0_r in Hb. unfold lotsOf at 1, set_lots. simpl. rewrite lookup_insert_eq. simpl.
  split; [done|]. split; [done|]. intros j Hj. unfold lotsOf. simpl. by rewrite lookup_insert_ne.
Qed.

(** No lot is ever empty or negative, whatever trades, transfers and
    prices are ingested, refused ones included. *)
Theorem engine_lots_positive (ops : list engineOp) :
  Forall opQtyOk ops -> lotsWf (engineRun ops).
Proof.
  intros Hops. unfold engineRun.
  assert (H0 : lotsWf (NewEngine [])) by (intros k ls; simpl; by rewrite lookup_empty).
  revert H0. generalize (NewEngine []) as e. induction Hops as [|o ops Ho _ IH]; intros e He; simpl; [done|].
  apply IH. by apply lotsWf_exec.
Qed.

(** Weighted-average relief conserves cost: the basis taken and the cost
    left make up the cost before; it is between zero and the whole cost; and
    disposing of the whole position takes all of it. *)
Theorem wac_relief_conserves (tenant user asset : string) (q : Z) (e e' : Engine) (basis : Z) (w : wacState) :
  let k := key3 tenant user asset in
  wac e !! k = Some w -> 0 < q -> 0 <= CostTotal w -> CostTotal w * w_QtyMilli w < two63 ->
  w_QtyMilli w < two63 -> CostTotal w < two63 ->
  consumeWAC tenant user asset q e = (e', Ok basis) ->
  exists w', wac e' !! k = Some w' /\
    basis + CostTotal w' = CostTotal w /\ w_QtyMilli w' = w_QtyMilli w - q /\
    0 <= basis <= CostTotal w /\
    w_QtyMilli w * basis <= q * CostTotal w < w_QtyMilli w * (basis + 1) /\
    (q = w_QtyMilli w -> CostTotal w' = 0).
Proof.
  intros k Hw Hq Hc Hb Hwq Hwc. unfold consumeWAC. fold k. rewrite Hw.
  destruct (_ <? q) eqn:E; bools; [done|]. intros [= <- <-]. eexists.
  split; [simpl; by rewrite lookup_insert_eq|]. simpl.
  assert (Hm : 0 <= CostTotal w * q <= CostTotal w * w_QtyMilli w) by nia.
  rewrite (wrap64_id (CostTotal w * q)) by (unfold in64, two63 in *; lia).
  rewrite Z.quot_div_nonneg by lia.
  pose proof (Z.div_mod (CostTotal w * q) (w_QtyMilli w)) as Hd.
  pose proof (Z.mod_pos_bound (CostTotal w * q) (w_QtyMilli w)) as Hmod.
  set (b := CostTotal w * q / w_QtyMilli w) in *.
  assert (Hb2 : 0 <= b <= CostTotal w) by nia.
  rewrite (wrap64_id b) by (unfold in64, two63 in *; lia).
  rewrite !wrap64_id by (unfold in64, two63 in *; lia).
  split_and!; lia || nia.
Qed.

(** Ingesting a trade is idempotent: once a trade has been accepted under
    its id, ingesting a trade with that id again succeeds, books nothing and
    changes nothing, whatever the other fields and the method say. *)
Theorem ingest_trade_idempotent (c c' : Clock) (t t' : Trade) (method method' : string)
  (e e' : Engine) (r : option GainLossEntry) :
  IngestTrade c t method e = (e', Ok r) -> t_ID t <> "" -> t_ID t' = t_ID t ->
  0 < t_QtyMilli t' -> 0 <= PriceKobo t' -> Side t' = "buy" \/ Side t' = "sell" ->
  IngestTrade c' t' method' e' = (e', Ok None).
Proof.
  intros Hi Hid Heq Hq Hp Hs.
  assert (Hin : is_Some (trades e' !! t_ID t)).
  { revert Hi. unfold IngestTrade. destruct (_ || _); [done|]. destruct (negb _ && _); [done|].
    assert (Hd : Str.or_default (t_ID t) ("trd-" +:+ freshULID c) = t_ID t)
      by (unfold Str.or_default; by rewrite bool_decide_false).
    unfold trade_id at 1. cbn [t_ID]. rewrite Hd. destruct (trades e !! t_ID t) eqn:Hdup; [intros [= <- _]; eauto|].
    case_bool_decide.
    - destruct (bookDisposal _ _ _ _) as [e1 [gl|err]]; [|done]. intros [= <- _]. simpl. rewrite Hd, lookup_insert_eq. eauto.
    - intros [= <- _]. simpl. rewrite Hd, lookup_insert_eq. eauto. }
  unfold IngestTrade. destruct (_ || _) eqn:E1; [bools; lia|].
  apply orb_false_iff in E1 as [_ _] || idtac.
  destruct (negb _ && _) eqn:E2; [bools; destruct Hs; done|].
  unfold trade_id. cbn [t_ID]. unfold Str.or_default. rewrite Heq, bool_decide_false by done.
  destruct Hin as [x ->]. done.
Qed.

(** The ring fence: gains and losses stay within the tenant, user and
    period selected; the taxable gain and the loss carried forward are the two
    parts of the net, never both positive; and the per-asset figures add up to
    the net (modulo the width). *)
Theorem ring_fence_sound (tenant user period : string) (e : Engine) :
  let r := RingFence tenant user period e in
  let sel := List.filter (ringFenceSelects tenant user period) (ledger e) in
  NetRingFenced r ≡64 sumZ GainLoss sel /\
  msum id (PerAsset r) ≡64 NetRingFenced r /\
  NetRingFenced r ≡64 TaxableGain r - CarryForward r /\
  0 <= TaxableGain r /\ (TaxableGain r = 0 \/ CarryForward r = 0).
Proof.
  intros r sel. subst r. unfold RingFence. fold sel.
  assert (H : forall l g lo per g' lo' per',
    foldl ringFenceStep (g, lo, per) l = (g', lo', per') ->
    g' - lo' ≡64 g - lo + sumZ GainLoss l /\ msum id per' ≡64 msum id per + sumZ GainLoss l).
  { clear. induction l as [|gl l IH]; intros g lo per g' lo' per' E.
    - injection E as <- <- <-. simpl. rewrite !Z.add_0_r. done.
    - rewrite sumZ_cons. simpl in E. destruct (0 <=? GainLoss gl);
        apply IH in E as [H1 H2]; rewrite H1, H2;
        (assert (Hp : msum id (<[gl_Asset gl := default 0 (per !! gl_Asset gl) +! GainLoss gl]> per)
                    ≡64 msum id per + GainLoss gl);
         [ destruct (per !! gl_Asset gl) as [y|] eqn:Ey; simpl;
           [ rewrite (msum_insert_Some _ _ _ _ _ Ey) | rewrite msum_insert_None by done ];
           unfold id; rewrite wrap64_eq64; apply eq64_of_eq; lia
         | rewrite Hp, !wrap64_eq64; split; apply eq64_of_eq; lia ]). }
  destruct (foldl ringFenceStep (0, 0, ∅) sel) as [[g lo] per] eqn:E. apply H in E as [H1 H2].
  rewrite msum_empty in H2.
  assert (H3 : g -! lo ≡64 sumZ GainLoss sel) by (rewrite wrap64_eq64, H1; apply eq64_of_eq; lia).
  destruct (0 <? g -! lo) eqn:En; simpl; bools.
  - split_and!; [done | rewrite H2, H3; apply eq64_of_eq; lia | apply eq64_of_eq; lia | lia | by right].
  - split_and!; [done | rewrite H2, H3; apply eq64_of_eq; lia | | lia | by left].
    rewrite !wrap64_eq64. apply eq64_of_eq. lia.
Qed.

(** C15: Durability of FIFO books: for trades sold by FIFO (the default) and any
    transfers and prices, a restart from the log rebuilds exactly the trades,
    transfers, lots, prices and ledger entries; only the weighted-average
    positions are left out. *)
Theorem engine_replay_restores (ops : list engineOp) :
  Forall (fun o => match o with opTrade _ _ m => m = "" \/ m = "fifo" | _ => True end) ops ->
  same (restart (engineRun ops)) (engineRun ops).
Proof.
  intros Hops. cut (rebuilt (engineRun ops)).
  { intros H. unfold restart, NewEngine.
    assert (E : forall l e l', same (replay l (mkEngine (trades e) (transfers e) (lots e) (wac e) (fmv e) (ledger e) l'))
                                 (replay l e)).
    { clear. induction l as [|x l IH]; intros e l'; [done|]. simpl.
      match goal with |- same (replay l ?a) (replay l ?b) =>
        replace a with (mkEngine (trades b) (transfers b) (lots b) (wac b) (fmv b) (ledger b) l') end; [apply IH|].
      destruct x; simpl; unfold applyTrade, applyTransfer, consumeBasis, consumeWAC, lotsOf; simpl;
        repeat (case_match; simpl in *; simplify_eq); try congruence; reflexivity. }
    eapply same_trans; [|exact H]. apply (E (log (engineRun ops)) (emptyEngine [])). }
  unfold engineRun. assert (H0 : rebuilt (NewEngine [])) by done. revert H0.
  generalize (NewEngine []) as e. induction Hops as [|o ops Ho _ IH]; intros e He; simpl; [done|].
  apply IH. destruct o as [c t m|c tr|c s]; simpl.
  - by destruct (rebuilt_trade c t e He), Ho as [->| ->].
  - by apply rebuilt_transfer.
  - by apply rebuilt_fmv.
Qed.

(** The two methods relieve separate books.  Whenever the lots and the
    weighted-average position of a key both cover [q] units, two sales of [q]
    units each, one by FIFO and one by WAC, are both accepted and both book a
    basis: holdings of [q] units are disposed of twice. *)
Theorem engine_methods_double_dispose (c1 c2 : Clock) (t1 t2 : Trade) (e : Engine) (w : wacState) :
  let k := key3 (t_TenantID t1) (t_UserHash t1) (t_Asset t1) in
  Side t1 = "sell" -> Side t2 = "sell" -> 0 < t_QtyMilli t1 -> 0 <= PriceKobo t1 -> 0 <= PriceKobo t2 ->
  t_TenantID t2 = t_TenantID t1 -> t_UserHash t2 = t_UserHash t1 -> t_Asset t2 = t_Asset t1 ->
  t_QtyMilli t2 = t_QtyMilli t1 ->
  t_ID t1 <> "" -> t_ID t2 <> "" -> t_ID t1 <> t_ID t2 -> trades e !! t_ID t1 = None -> trades e !! t_ID t2 = None ->
  t_QtyMilli t1 <= loop_sum QtyMilli (lotsOf k e) 0 -> wac e !! k = Some w -> t_QtyMilli t1 <= w_QtyMilli w ->
  exists e1 e2 gl1 gl2,
    IngestTrade c1 t1 "fifo" e = (e1, Ok (Some gl1)) /\ IngestTrade c2 t2 "wac" e1 = (e2, Ok (Some gl2)) /\
    ledger e2 = ledger e ++ [gl1; gl2] /\ wac e1 = wac e /\ lots e2 = lots e1.
Proof.
  intros k Hs1 Hs2 Hq Hp1 Hp2 Ht Hu Ha Hq2 Hi1 Hi2 Hne Hf1 Hf2 Hlots Hw Hwq.
  rewrite (IngestTrade_sell c1 t1), (bookDisposal_fifo c1 (trade_defaults c1 t1)) by (done || lia).
  unfold consumeBasis. cbn [trade_defaults t_TenantID t_UserHash t_Asset t_QtyMilli]. fold k.
  destruct (_ <? _) eqn:E; bools; [lia|]. destruct (takeLots _ _ _) as [ls basis].
  do 4 eexists. split; [reflexivity|].
  rewrite (IngestTrade_sell c2 t2), (bookDisposal_wac c2 (trade_defaults c2 t2)); try done; try lia.
  2: { simpl. by rewrite lookup_insert_ne. }
  unfold consumeWAC. cbn [trade_defaults t_TenantID t_UserHash t_Asset t_QtyMilli]. rewrite Ht, Hu, Ha, Hq2. fold k. simpl. rewrite Hw.
  destruct (w_QtyMilli w <? _) eqn:E2; bools; [lia|].
  split; [reflexivity|]. simpl. by rewrite <- app_assoc.
Qed.

(** The engine after a purchase of one asset and its sale by FIFO *)
Definition soldByFifo : Engine :=
  engineRun [opTrade (mkClock "1" "2025-06-01") (mkTrade "b" "t" "" "u" "BTC" "buy" 1000 500 0 "" "") "fifo";
             opTrade (mkClock "2" "2025-06-02") (mkTrade "s" "t" "" "u" "BTC" "sell" 1000 700 0 "" "") "fifo"].

(** A restart changes what a client sees.  After a purchase and a FIFO sale
    of one asset, the weighted-average report still shows the whole asset and
    its cost and a second sale by WAC would succeed; replay relieves both
    books, so after a restart the report is zero and that sale is refused. *)
Theorem engine_restart_changes_wac :
  let k := key3 "t" "u" "BTC" in
  let again := mkTrade "s2" "t" "" "u" "BTC" "sell" 1000 700 0 "" "" in
  CostBasis "t" "u" "BTC" "wac" soldByFifo = mkCostBasisReport 1000 500 (Some 500) [] /\
  is_ok (IngestTrade (mkClock "3" "2025-06-03") again "wac" soldByFifo).2 /\
  CostBasis "t" "u" "BTC" "wac" (restart soldByFifo) = mkCostBasisReport 0 0 None [] /\
  (IngestTrade (mkClock "3" "2025-06-03") again "wac" (restart soldByFifo)).2 = Err (insufficientWac 0 1000).
Proof. vm_compute. done. Qed.

(** ** Witnesses *)

(** Two purchases and a FIFO sale of part of them *)
Definition exampleOps : list engineOp :=
  [opTrade (mkClock "1" "2025-01-01") (mkTrade "b1" "t" "" "u" "btc" "buy" 1000 500 0 "" "") "fifo";
   opTrade (mkClock "2" "2025-02-01") (mkTrade "b2" "t" "" "u" "BTC" "buy" 500 700 0 "" "") "fifo";
   opFMV (mkClock "3" "2025-02-01") (mkFMVSnapshot "btc" 900 "cmc" "");
   opTransfer (mkClock "4" "2025-02-02") (mkTransfer "x1" "t" "u" "Btc" "in" 250 0 "");
   opTrade (mkClock "5" "2025-03-01") (mkTrade "s1" "t" "" "u" "BTC" "sell" 1200 800 10 "" "") ""].
Definition example : Engine := engineRun exampleOps.
Definition sale : Trade := mkTrade "s2" "t" "" "u" "BTC" "sell" 300 800 0 "" "".

Lemma example_lots_ok : Forall costOk (lotsOf "t|u|BTC" example).
Proof. vm_compute lotsOf. unfold costOk, lotOk. repeat constructor; simpl; unfold two63; lia. Qed.

Theorem fifo_relief_exact_witness :
  exists e' basis, consumeBasis "t" "u" "btc" 400 example = (e', Ok basis) /\
  units (lotsOf "t|u|BTC" e') = drop 400 (units (lotsOf "t|u|BTC" example)).
Proof.
  destruct (consumeBasis "t" "u" "btc" 400 example) as [e' [basis|]] eqn:E; [|by vm_compute in E].
  exists e', basis. split; [done|].
  refine (proj1 (fifo_relief_exact "t" "u" "btc" 400 example e' basis _ _ _ _ E)).
  - exact example_lots_ok.
  - vm_compute. done.
  - vm_compute. done.
  - lia.
Defined.

Theorem engine_lots_positive_witness : lotsWf (engineRun exampleOps).
Proof. apply engine_lots_positive. repeat constructor; simpl; unfold two63; lia. Defined.

Theorem wac_relief_conserves_witness :
  exists e' basis w', consumeWAC "t" "u" "btc" 400 example = (e', Ok basis) /\
    wac e' !! "t|u|BTC" = Some w' /\ basis + CostTotal w' = 1075.
Proof.
  destruct (consumeWAC "t" "u" "btc" 400 example) as [e' [basis|]] eqn:E; [|by vm_compute in E].
  destruct (wac_relief_conserves "t" "u" "btc" 400 example e' basis (mkWac 1750 1075)) as (w' & Hw & Hb & _);
    [vm_compute; done | lia | simpl; lia | simpl; unfold two63; lia | simpl; unfold two63; lia
    | simpl; unfold two63; lia | exact E |].
  exists e', basis, w'. done.
Defined.

Theorem ingest_trade_idempotent_witness :
  exists e' gl, IngestTrade (mkClock "6" "2025-04-01") sale "fifo" example = (e', Ok (Some gl)) /\
    IngestTrade (mkClock "7" "2025-05-01") sale "wac" e' = (e', Ok None).
Proof.
  destruct (IngestTrade (mkClock "6" "2025-04-01") sale "fifo" example) as [e' [[gl|]|]] eqn:E;
    [|by vm_compute in E|by vm_compute in E].
  exists e', gl. split; [done|].
  apply (ingest_trade_idempotent (mkClock "6" "2025-04-01") (mkClock "7" "2025-05-01") sale sale "fifo" "wac" _ _ _ E);
    [done | done | simpl; lia | simpl; lia | by right].
Defined.

Theorem engine_replay_restores_witness : same (restart example) example.
Proof.
  apply (engine_replay_restores exampleOps). unfold exampleOps.
  do 5 (apply Forall_cons; split; [by auto|]). by apply Forall_nil.
Defined.

Theorem engine_methods_double_dispose_witness :
  exists e1 e2 gl1 gl2,
    IngestTrade (mkClock "6" "2025-04-01") sale "fifo" example = (e1, Ok (Some gl1)) /\
    IngestTrade (mkClock "7" "2025-04-01") (mkTrade "s3" "t" "" "u" "BTC" "sell" 300 800 0 "" "") "wac" e1
      = (e2, Ok (Some gl2)).
Proof.
  destruct (engine_methods_double_dispose (mkClock "6" "2025-04-01") (mkClock "7" "2025-04-01") sale
    (mkTrade "s3" "t" "" "u" "BTC" "sell" 300 800 0 "" "") example (mkWac 1750 1075))
    as (e1 & e2 & gl1 & gl2 & H1 & H2 & _); [vm_compute; congruence .. |].
  by exists e1, e2, gl1, gl2.
Defined.
