(* ===== verification/CarfYaml.v ===== *)
(** * The YAML-subset parser of vasp-carf (services/vasp-carf/yaml.go)

    A sibling of the parser of [Yaml]: the same scanner for comments and lines,
    but key and value are split at the first [": "] and flow collections at
    every top-level comma, whether quoted or not, and the block parser advances
    on every call, so it terminates on every document
    ([carf_yaml_terminates]). *)

From S2P Require Import Prelude GoAny Yaml.

Definition stripComment (s : string) : string := Yaml.stripComment s.

(** [strings.Index(s, ": ")] and the two sides of it *)
Fixpoint cutColon (s : string) : option (string * string) :=
  match s with
  | EmptyString => None
  | String c s' =>
      if bool_decide (c = ":"%char) && Str.has_prefix s' " " then Some (EmptyString, Str.drop 1 s')
      else match cutColon s' with Some (k, v) => Some (String c k, v) | None => None end
  end.

Definition splitKV (s : string) : option (string * string) :=
  match cutColon s with
  | Some (k, v) => Some (Str.trim_space k, Str.trim_space v)
  | None =>
      if Str.has_suffix s ":" then Some (Str.trim_space (Str.take (String.length s - 1) s), "") else None
  end.

(** Split at the commas outside brackets; quotes are not tracked *)
Fixpoint splitFlow_from (depth : Z) (s : string) : list string :=
  match s with
  | EmptyString => [EmptyString]
  | String c s' =>
      if bool_decide (c = ","%char) && (depth =? 0) then EmptyString :: splitFlow_from depth s'
      else
        let depth := if bool_decide (c ∈ ["{"%char; "["%char]) then depth + 1
                     else if bool_decide (c ∈ ["}"%char; "]"%char]) then depth - 1 else depth in
        match splitFlow_from depth s' with
        | [] => [String c EmptyString]
        | w :: ws => String c w :: ws
        end
  end.
Definition splitFlow (s : string) : list string := map Str.trim_space (splitFlow_from 0 s).

Definition plainScalar (s : string) : any :=
  if Str.has_prefix s dq && Str.has_suffix s dq && (2 <=? Str.len s) then VStr (inner s)
  else if Str.has_prefix s sq && Str.has_suffix s sq && (2 <=? Str.len s) then VStr (unescape (inner s))
  else match parseInt s with
       | Some i => VInt i
       | None => match parseFloat s with Some f => VFloat f | None => VStr s end
       end.

Fixpoint parseScalar (n : nat) (s : string) : parse any :=
  match n with
  | O => None
  | S n =>
      let s := Str.trim_space s in
      if bool_decide (s = "null") || bool_decide (s = "~") then pret VNil
      else if bool_decide (s = "true") then pret (VBool true)
      else if bool_decide (s = "false") then pret (VBool false)
      else if Str.has_prefix s "{" && Str.has_suffix s "}" then
        let body := Str.trim_space (inner s) in
        if bool_decide (body = "") then pret (VMap [])
        else m <-- foldl (fun acc part => m <-- acc ;;
               match splitKV part with
               | None => perr badFlowPair
               | Some (k, v) => vv <-- parseScalar n v ;; pret (put k vv m)
               end) (pret []) (splitFlow body) ;; pret (VMap m)
      else if Str.has_prefix s "[" && Str.has_suffix s "]" then
        let body := Str.trim_space (inner s) in
        if bool_decide (body = "") then pret (VList [])
        else l <-- foldl (fun acc part => l <-- acc ;; vv <-- parseScalar n (Str.trim_space part) ;; pret (l ++ [vv]))
               (pret []) (splitFlow body) ;; pret (VList l)
      else pret (plainScalar s)
  end.

(** The depth of the recursion is at most the length of the string. *)
Definition parse_scalar (s : string) : parse any := parseScalar (S (String.length s)) s.

(** The remaining lines are [lines\[i:\]]; a call returns its value and the
    lines left. *)
Fixpoint parseBlock (n : nat) (lines : list yamlLine) (ind : Z) : parse (any * list yamlLine) :=
  match n with
  | O => None
  | S n =>
      match lines with
      | [] => pret (VNil, [])
      | ln :: _ =>
          if isItem (content ln) then parseList n [] lines ind
          else r <-- parseMap n [] lines ind ;; pret (VMap r.1, r.2)
      end
  end
with parseMap (n : nat) (m : list (string * any)) (lines : list yamlLine) (ind : Z)
  : parse (list (string * any) * list yamlLine) :=
  match n with
  | O => None
  | S n =>
      match lines with
      | [] => pret (m, [])
      | ln :: rest =>
          if indent ln <? ind then pret (m, lines)
          else if ind <? indent ln then perr unexpectedIndent
          else if Str.has_prefix (content ln) "- " then pret (m, lines)
          else match splitKV (content ln) with
               | None => perr badMapLine
               | Some (key, val) =>
                   if negb (bool_decide (val = "")) then
                     v <-- parse_scalar val ;; parseMap n (put key v m) rest ind
                   else
                     match rest with
                     | nx :: _ =>
                         if ind <? indent nx then
                           r <-- parseBlock n rest (indent nx) ;; parseMap n (put key r.1 m) r.2 ind
                         else if (indent nx =? ind) && isItem (content nx) then
                           r <-- parseList n [] rest ind ;; parseMap n (put key r.1 m) r.2 ind
                         else parseMap n (put key VNil m) rest ind
                     | [] => parseMap n (put key VNil m) rest ind
                     end
               end
      end
  end
with parseList (n : nat) (out : list any) (lines : list yamlLine) (ind : Z)
  : parse (any * list yamlLine) :=
  match n with
  | O => None
  | S n =>
      match lines with
      | [] => pret (VList out, [])
      | ln :: rest =>
          if (indent ln <? ind) || negb (isItem (content ln)) then pret (VList out, lines)
          else if ind <? indent ln then perr unexpectedIndentInList
          else
            let item := Str.trim_space (Str.trim_prefix (content ln) "-") in
            if bool_decide (item = "") then
              match rest with
              | nx :: _ =>
                  if ind <? indent nx then
                    r <-- parseBlock n rest (indent nx) ;; parseList n (out ++ [r.1]) r.2 ind
                  else parseList n (out ++ [VNil]) rest ind
              | [] => parseList n (out ++ [VNil]) rest ind
              end
            else
              match splitKV item with
              | Some (key, val) =>
                  if negb (Str.has_prefix item "{") && negb (Str.has_prefix item "[") then
                    r <-- parseEntry n [] key val rest ind ;;
                    r <-- parseSub n r.1 r.2 ind ;;
                    parseList n (out ++ [VMap r.1]) r.2 ind
                  else v <-- parse_scalar item ;; parseList n (out ++ [v]) rest ind
              | None => v <-- parse_scalar item ;; parseList n (out ++ [v]) rest ind
              end
      end
  end
(** One entry [key: val] of an item's map, whose value may be the block on the
    lines deeper than [ind] *)
with parseEntry (n : nat) (m : list (string * any)) (key val : string) (lines : list yamlLine) (ind : Z)
  : parse (list (string * any) * list yamlLine) :=
  match n with
  | O => None
  | S n =>
      if negb (bool_decide (val = "")) then v <-- parse_scalar val ;; pret (put key v m, lines)
      else
        match lines with
        | nx :: _ =>
            if ind <? indent nx then
              r <-- parseBlock n lines (indent nx) ;; pret (put key r.1 m, r.2)
            else pret (put key VNil m, lines)
        | [] => pret (put key VNil m, lines)
        end
  end
(** The loop that adds the deeper lines to the map an item begins *)
with parseSub (n : nat) (m : list (string * any)) (lines : list yamlLine) (ind : Z)
  : parse (list (string * any) * list yamlLine) :=
  match n with
  | O => None
  | S n =>
      match lines with
      | [] => pret (m, [])
      | sub :: rest =>
          if (ind <? indent sub) && negb (Str.has_prefix (content sub) "- ") then
            match splitKV (content sub) with
            | None => perr badMapLine
            | Some (k2, v2) =>
                r <-- parseEntry n m k2 v2 rest (indent sub) ;; parseSub n r.1 r.2 ind
            end
          else pret (m, lines)
      end
  end.

(** The significant lines of a document *)
Definition lines_of (doc : string) : list yamlLine := omap line_of (Str.split newline doc).

Definition ParseYAML_fuel (n : nat) (doc : string) : parse any :=
  match lines_of doc with
  | [] => perr emptyDocument
  | ln :: rest =>
      r <-- parseBlock n (ln :: rest) (indent ln) ;;
      match r.2 with [] => pret r.1 | _ => perr trailingContent end
  end.

(** Three steps per line are enough ([carf_yaml_terminates]). *)
Definition fuel_of (doc : string) : nat := 3 * length (lines_of doc) + 3.
Definition ParseYAML (doc : string) : parse any := ParseYAML_fuel (fuel_of doc) doc.

(** ** Termination *)

Section Termination.

Lemma cutColon_length s k v : cutColon s = Some (k, v) -> (String.length v < String.length s)%nat.
Proof.
  revert k v. induction s as [|c s IH]; intros k v; simpl; [done|].
  destruct (_ && _); [intros [= <- <-]; pose proof (substring_length 1 (String.length s - 1) s); unfold Str.drop; lia|].
  destruct (cutColon s) as [[k' v']|]; [|done]. intros [= <- <-]. specialize (IH _ _ eq_refl). lia.
Qed.

Lemma carf_splitKV_length s k v : splitKV s = Some (k, v) -> v = "" \/ (String.length v < String.length s)%nat.
Proof.
  unfold splitKV. destruct (cutColon s) as [[k' v']|] eqn:E; [|by cases; intros [= <- <-]; left].
  intros [= <- <-]. right. pose proof (trim_space_length v'). apply cutColon_length in E. lia.
Qed.

Lemma carf_splitFlow_from_length d s w : w ∈ splitFlow_from d s -> (String.length w <= String.length s)%nat.
Proof.
  revert d w. induction s as [|c s IH]; intros d w; simpl.
  - intros ->%list_elem_of_singleton. done.
  - destruct (_ && _).
    + intros [->|Hw]%elem_of_cons; simpl; [lia|]. specialize (IH _ _ Hw). lia.
    + match goal with |- context [splitFlow_from ?d' s] =>
        pose proof (IH d') as IH'; destruct (splitFlow_from d' s) as [|x ws] end.
      * intros ->%list_elem_of_singleton. simpl. lia.
      * intros [->|Hw]%elem_of_cons; simpl;
          [specialize (IH' x ltac:(set_solver)) | specialize (IH' w ltac:(set_solver))]; lia.
Qed.

Lemma carf_splitFlow_length s w : w ∈ splitFlow s -> (String.length w <= String.length s)%nat.
Proof.
  unfold splitFlow. intros (x & -> & Hx)%list_elem_of_fmap.
  pose proof (trim_space_length x). apply carf_splitFlow_from_length in Hx. lia.
Qed.

Lemma carf_parseScalar_total n s : (String.length s < n)%nat -> parseScalar n s <> None.
Proof.
  revert s. induction n as [|n IH]; intros s Hn; [lia|]. simpl.
  pose proof (trim_space_length s) as Ht. set (t := Str.trim_space s) in *.
  pose proof (inner_length t) as Hi. pose proof (trim_space_length (inner t)) as Hi'.
  set (u := Str.trim_space (inner t)) in *.
  destruct (bool_decide (t = "null") || bool_decide (t = "~")); [done|].
  destruct (bool_decide (t = "true")); [done|]. destruct (bool_decide (t = "false")); [done|].
  destruct (Str.has_prefix t "{" && _) eqn:Hbr.
  - destruct (bool_decide (u = "")); [done|]. apply pbind_total; [|done].
    apply fold_parse_total; [done|]. intros a x Hx Ha. apply carf_splitFlow_length in Hx.
    apply pbind_total; [done|]. intros m. destruct (splitKV x) as [[k v]|] eqn:Hkv; [|done].
    apply pbind_total; [|done]. apply IH.
    destruct t as [|c t']; [done|]. apply carf_splitKV_length in Hkv as [->|Hkv]; simpl in *; lia.
  - destruct (Str.has_prefix t "[" && _) eqn:Hb; [|done].
    destruct (bool_decide (u = "")); [done|]. apply pbind_total; [|done].
    apply fold_parse_total; [done|]. intros a x Hx Ha. apply carf_splitFlow_length in Hx.
    apply pbind_total; [done|]. intros m. apply pbind_total; [|done]. apply IH.
    pose proof (trim_space_length x). destruct t as [|c t']; simpl in *; [done | lia].
Qed.

Lemma parse_scalar_total s : parse_scalar s <> None.
Proof. apply carf_parseScalar_total. lia. Qed.

(** A parse that ends, leaving at most [L] lines *)
Definition ends {A} (L : nat) (p : parse (A * list yamlLine)) : Prop :=
  match p with
  | None => False
  | Some (Err _) => True
  | Some (Ok (_, rest)) => (length rest <= L)%nat
  end.

Lemma ends_bind {A B} (L L' : nat) (m : parse (A * list yamlLine)) (f : A * list yamlLine -> parse (B * list yamlLine)) :
  ends L m -> (forall a rest, (length rest <= L)%nat -> ends L' (f (a, rest))) -> ends L' (pbind m f).
Proof. destruct m as [[[a rest]|e]|]; simpl; intros Hm Hf; [by apply Hf | done | done]. Qed.

Lemma ends_scalar {B} (L : nat) s (f : any -> parse (B * list yamlLine)) :
  (forall v, ends L (f v)) -> ends L (pbind (parse_scalar s) f).
Proof.
  intros Hf. pose proof (parse_scalar_total s). by destruct (parse_scalar s) as [[v|e]|]; simpl.
Qed.

Lemma ends_mono {A} (L L' : nat) (p : parse (A * list yamlLine)) : (L <= L')%nat -> ends L p -> ends L' p.
Proof. destruct p as [[[a rest]|e]|]; simpl; lia || done. Qed.

Lemma ends_ret {A} (L : nat) (a : A) rest : (length rest <= L)%nat -> ends L (pret (a, rest)).
Proof. done. Qed.

Ltac ending := first [exact I | apply ends_ret; simpl; lia].

(** Each call ends and leaves no more lines than it was given. *)
Lemma parsers_end n :
  (forall lines ind, (3 * length lines + 2 < n)%nat -> ends (length lines) (parseBlock n lines ind)) /\
  (forall m lines ind, (3 * length lines + 1 < n)%nat -> ends (length lines) (parseMap n m lines ind)) /\
  (forall out lines ind, (3 * length lines + 1 < n)%nat -> ends (length lines) (parseList n out lines ind)) /\
  (forall m k v lines ind, (3 * length lines + 3 < n)%nat -> ends (length lines) (parseEntry n m k v lines ind)) /\
  (forall m lines ind, (3 * length lines + 2 < n)%nat -> ends (length lines) (parseSub n m lines ind)).
Proof.
  induction n as [|n (IHb & IHm & IHl & IHe & IHs)]; [repeat split; intros; lia|].
  repeat split.
  - intros [|ln rest] ind Hn; cbn [parseBlock]; [ending|]. destruct (isItem _); [apply IHl; simpl in *; lia|].
    eapply ends_bind; [apply IHm; simpl in *; lia|]. intros a r Hr. exact Hr.
  - intros m [|ln rest] ind Hn; cbn [parseMap]; [ending|]. simpl length in *.
    destruct (_ <? _); [ending|]. destruct (_ <? _); [ending|]. destruct (Str.has_prefix _ _); [ending|].
    destruct (splitKV _) as [[key val]|]; [|ending].
    assert (Hk : forall m' r, (length r <= length rest)%nat -> ends (S (length rest)) (parseMap n m' r ind)).
    { intros m' r Hr. eapply ends_mono; [|apply IHm; lia]. lia. }
    destruct (negb _); [apply ends_scalar; intros; by apply Hk|].
    destruct rest as [|nx rest']; [by apply Hk|]. destruct (_ <? _).
    + eapply ends_bind; [apply IHb; lia|]. intros a r Hr. by apply Hk.
    + destruct (_ && _); [|by apply Hk]. eapply ends_bind; [apply IHl; lia|]. intros a r Hr. by apply Hk.
  - intros out [|ln rest] ind Hn; cbn [parseList]; [ending|]. simpl length in *.
    destruct (_ || _); [ending|]. destruct (_ <? _); [ending|]. cbv zeta.
    set (item := Str.trim_space _).
    assert (Hk : forall o' r, (length r <= length rest)%nat -> ends (S (length rest)) (parseList n o' r ind)).
    { intros o' r Hr. eapply ends_mono; [|apply IHl; lia]. lia. }
    destruct (bool_decide (item = "")).
    + destruct rest as [|nx rest']; [by apply Hk|]. destruct (_ <? _); [|by apply Hk].
      eapply ends_bind; [apply IHb; lia|]. intros a r Hr. by apply Hk.
    + assert (Hsc : ends (S (length rest)) (v <-- parse_scalar item ;; parseList n (out ++ [v]) rest ind))
        by (apply ends_scalar; intros; by apply Hk).
      destruct (splitKV item) as [[key val]|]; [|exact Hsc]. destruct (_ && _); [|exact Hsc].
      eapply ends_bind; [apply IHe; lia|]. intros a r Hr.
      eapply ends_bind; [apply IHs; simpl in *; lia|]. intros a' r' Hr'. apply Hk. simpl in *; lia.
  - intros m k v lines ind Hn. cbn [parseEntry].
    destruct (negb _); [apply ends_scalar; intros; ending|]. destruct lines as [|nx lines']; [ending|].
    destruct (_ <? _); [|ending]. eapply ends_bind; [apply IHb; lia|]. intros a r Hr. exact Hr.
  - intros m [|sub rest] ind Hn; cbn [parseSub]; [ending|]. simpl length in *.
    destruct (_ && _); [|ending]. destruct (splitKV _) as [[k2 v2]|]; [|ending].
    eapply ends_bind; [apply IHe; lia|]. intros a r Hr. eapply ends_mono; [|apply IHs; simpl in *; lia]. simpl in *; lia.
Qed.
End Termination.

(** ** Properties *)

(** C39: The parser is total: every document, well-formed or not, is parsed or
    refused within three steps per significant line. *)
Theorem carf_yaml_terminates (doc : string) : exists r, ParseYAML doc = Some r.
Proof.
  unfold ParseYAML, ParseYAML_fuel, fuel_of. destruct (lines_of doc) as [|ln rest]; [by eexists|].
  destruct (parsers_end (3 * length (ln :: rest) + 3)) as (Hb & _).
  specialize (Hb (ln :: rest) (indent ln) ltac:(lia)).
  destruct (parseBlock _ _ _) as [[[v r]|e]|]; simpl; [by destruct r; eexists | by eexists | done].
Qed.
