(* ===== verification/CarfPacks.v ===== *)
(** * vasp-carf: rule packs (services/vasp-carf/packs.go)

    The pack model, the four packs of the service with their embedded texts,
    loading from the registry with the embedded copy as fallback, and the
    questions asked of them: the duties of a context and the required fields of
    a CARF message.  The answer of the registry is a parameter. *)

From S2P Require Import Prelude GoAny Yaml GoFmt CarfYaml.

Record Rule := mkRule {
  r_ID : string;
  When : list (string * any);
  Then : list (string * any);
}.

Record Pack := mkPack {
  p_ID : string;
  Version : string;
  EffectiveFrom : string;
  p_Status : string;
  SubjectToRegazette : bool;
  Provenance : list (string * any);
  Rules : list Rule;
  Source : string;
}.

Definition strOf (v : any) : string :=
  match v with
  | VStr s => s
  | VInt z => pretty z
  | VFloat f => FormatFloat f
  | VBool b => FormatBool b
  | _ => ""
  end.

(** ** Reading a pack *)

Inductive packError := yamlErr (e : yamlError) | rootNotMap | noRegistry | badResponse.

Definition ruleOf (rv : any) : option Rule :=
  match rv with
  | VMap rm => Some (mkRule (strOf (find "id" rm)) (default [] (as_map (find "when" rm)))
                       (default [] (as_map (find "then" rm))))
  | _ => None
  end.

Definition packFromDoc (doc : any) (source : string) : result packError Pack :=
  match doc with
  | VMap m =>
      Ok (mkPack (strOf (find "id" m)) (strOf (find "version" m)) (strOf (find "effective_from" m))
            (strOf (find "status" m)) (as_bool (find "subject_to_regazette" m))
            (default [] (as_map (find "provenance" m)))
            (omap ruleOf (default [] (as_list (find "rules" m)))) source)
  | _ => Err rootNotMap
  end.

(** [None] does not happen ([carf_yaml_terminates]). *)
Definition packFromYAML (doc source : string) : option (result packError Pack) :=
  match ParseYAML doc with
  | None => None
  | Some (Err e) => Some (Err (yamlErr e))
  | Some (Ok v) => Some (packFromDoc v source)
  end.

(** ** The embedded packs *)

Definition pack_rp_carf_schema : string := doc_of [
  "id: rp-carf-schema";
  "version: 1.0.0";
  "effective_from: 2026-01-01";
  "effective_to: null";
  "status: published";
  "subject_to_regazette: true";
  "provenance:";
  "  as_passed: " +:+ dq +:+ "OECD Crypto-Asset Reporting Framework (CARF) 2023 message structure" +:+ dq +:+ "";
  "  as_gazetted: null";
  "  source_citation: " +:+ dq +:+ "OECD CARF XML Schema v1.1; NTA 2025 VASP reporting provisions" +:+ dq +:+ "";
  "rules:";
  "  - id: carf.message.required";
  "    when: {}";
  "    then: { fields: [message_ref_id, timestamp, reporting_vasp, reportable_user, transactions], narrate: " +:+ dq +:+ "CARF message mandatory elements" +:+ dq +:+ " }";
  "  - id: carf.message.types";
  "    when: {}";
  "    then: { types: [RC701, RC702, RC703, RC704], narrate: " +:+ dq +:+ "RC701 exchange fiat-crypto, RC702 exchange crypto-crypto, RC703 transfer, RC704 retail payment" +:+ dq +:+ " }";
  "  - id: carf.correction.protocol";
  "    when: {}";
  "    then: { doc_type_indic: [OECD1, OECD2, OECD3], narrate: " +:+ dq +:+ "OECD1 new, OECD2 correction, OECD3 deletion" +:+ dq +:+ " }";
  ""].

Definition pack_rp_nta_vasp_duties : string := doc_of [
  "id: rp-nta-vasp-duties";
  "version: 1.0.0";
  "effective_from: 2025-01-01";
  "effective_to: null";
  "status: published";
  "subject_to_regazette: true";
  "provenance:";
  "  as_passed: " +:+ dq +:+ "Nigeria Tax Act 2025: digital asset gains chargeable; VASP record-keeping and reporting duties" +:+ dq +:+ "";
  "  as_gazetted: null";
  "  source_citation: " +:+ dq +:+ "Nigeria Tax Act 2025 (digital assets); SEC VASP Rules 2022" +:+ dq +:+ "";
  "rules:";
  "  - id: vasp.duty.recordkeeping";
  "    when: { actor: vasp }";
  "    then: { duty: retain_records, years: 6, narrate: " +:+ dq +:+ "VASP must retain transaction records 6 years" +:+ dq +:+ " }";
  "  - id: vasp.duty.reporting";
  "    when: { actor: vasp }";
  "    then: { duty: carf_report, frequency: annual, narrate: " +:+ dq +:+ "Annual CARF report of user transactions" +:+ dq +:+ " }";
  "  - id: vasp.duty.gains";
  "    when: { actor: user }";
  "    then: { duty: declare_gains, ring_fenced: true, narrate: " +:+ dq +:+ "Digital asset gains taxable; losses ring-fenced to digital assets" +:+ dq +:+ " }";
  "  - id: vasp.duty.large_tx";
  "    when: { actor: vasp }";
  "    then: { duty: enhanced_due_diligence, threshold_kobo: 500000000, narrate: " +:+ dq +:+ "Enhanced due diligence above NGN 5m single transaction" +:+ dq +:+ " }";
  ""].

Definition pack_rp_nta_digital_assets : string := doc_of [
  "id: rp-nta-digital-assets";
  "version: 1.0.0";
  "effective_from: 2025-01-01";
  "effective_to: null";
  "status: published";
  "subject_to_regazette: true";
  "provenance:";
  "  as_passed: " +:+ dq +:+ "NTA 2025: digital assets chargeable assets; loss ring-fencing" +:+ dq +:+ "";
  "  as_gazetted: null";
  "  source_citation: " +:+ dq +:+ "Nigeria Tax Act 2025 (chargeable assets: digital assets)" +:+ dq +:+ "";
  "rules:";
  "  - id: vasp.ringfence";
  "    when: { asset_class: digital_asset }";
  "    then: { ring_fenced: true, loss_offset_scope: digital_asset_only, carry_forward: true, narrate: " +:+ dq +:+ "Digital asset losses offset digital asset gains only" +:+ dq +:+ " }";
  "  - id: vasp.basis.methods";
  "    when: {}";
  "    then: { methods: [fifo, wac], default: fifo, narrate: " +:+ dq +:+ "Permitted cost-basis methods" +:+ dq +:+ " }";
  "  - id: vasp.disposal.events";
  "    when: {}";
  "    then: { events: [sell, exchange, transfer_out, spend], narrate: " +:+ dq +:+ "Disposal events triggering gain/loss" +:+ dq +:+ " }";
  ""].

Definition pack_rp_asset_taxonomy : string := doc_of [
  "id: rp-asset-taxonomy";
  "version: 1.0.0";
  "effective_from: 2025-01-01";
  "effective_to: null";
  "status: published";
  "subject_to_regazette: true";
  "provenance:";
  "  as_passed: " +:+ dq +:+ "CARF taxonomy: crypto-assets by class" +:+ dq +:+ "";
  "  as_gazetted: null";
  "  source_citation: " +:+ dq +:+ "OECD CARF crypto-asset taxonomy; NTA 2025" +:+ dq +:+ "";
  "rules:";
  "  - id: asset.class.crypto";
  "    when: {}";
  "    then: { assets: [BTC, ETH, LTC, XRP, SOL], class: crypto_asset, narrate: " +:+ dq +:+ "Native crypto-assets" +:+ dq +:+ " }";
  "  - id: asset.class.stablecoin";
  "    when: {}";
  "    then: { assets: [USDT, USDC, BUSD, ENGN], class: stablecoin, narrate: " +:+ dq +:+ "Stablecoins (incl. eNaira-wrapped)" +:+ dq +:+ " }";
  "  - id: asset.class.token";
  "    when: {}";
  "    then: { assets: [UNI, AAVE, MKR], class: utility_token, narrate: " +:+ dq +:+ "Utility/governance tokens" +:+ dq +:+ " }";
  ""].

Definition embeddedVaspPacks (id : string) : string :=
  if bool_decide (id = "rp-carf-schema") then pack_rp_carf_schema
  else if bool_decide (id = "rp-nta-vasp-duties") then pack_rp_nta_vasp_duties
  else if bool_decide (id = "rp-nta-digital-assets") then pack_rp_nta_digital_assets
  else if bool_decide (id = "rp-asset-taxonomy") then pack_rp_asset_taxonomy
  else "".

Definition vaspPackIDs : list string :=
  ["rp-carf-schema"; "rp-nta-vasp-duties"; "rp-nta-digital-assets"; "rp-asset-taxonomy"].

(** ** Loading *)

Abbreviation PackSet := (gmap string Pack).

(** A 200 answer of the registry: its text, and the [yaml], [raw] and
    [content] members when it is a JSON object *)
Record registryBody := mkBody { rb_text : string; rb_json : option (string * string * string) }.

Definition unwrap (w : string * string * string) : string :=
  let '(yaml, raw, content) := w in Str.or_default (Str.or_default yaml raw) content.

(** [registry id] is the answer for a pack; [None] is no registry, no answer
    or another status. *)
Definition fetch (registry : string -> option registryBody) (id : string) : option (result packError Pack) :=
  match registry id with
  | None => Some (Err noRegistry)
  | Some body =>
      match packFromYAML (rb_text body) "registry" with
      | None => None
      | Some r =>
          let direct := match r with Ok p => negb (bool_decide (p_ID p = "")) | Err _ => false end in
          if direct then Some r
          else match rb_json body with
               | Some w => if bool_decide (unwrap w = "") then Some (Err badResponse)
                           else packFromYAML (unwrap w) "registry"
               | None => Some (Err badResponse)
               end
      end
  end.

Definition loadPack (registry : string -> option registryBody) (ps : PackSet) (id : string) : PackSet :=
  match fetch registry id with
  | Some (Ok p) => <[id := p]> ps
  | _ => match packFromYAML (embeddedVaspPacks id) "embedded" with
         | Some (Ok p) => <[id := p]> ps
         | _ => ps
         end
  end.

Definition LoadAll (registry : string -> option registryBody) (ps : PackSet) : PackSet :=
  foldl (loadPack registry) ps vaspPackIDs.

Definition Get (id : string) (ps : PackSet) : option Pack := ps !! id.

(** In the order of a Go map *)
Definition Loaded (ps : PackSet) : list Pack := (map_to_list ps).*2.

Definition packTag (p : Pack) : string := p_ID p +:+ "@" +:+ Version p.
Definition VersionTag (ps : PackSet) : string :=
  Str.join "," (omap (fun id => p ← Get id ps; Some (packTag p)) vaspPackIDs).

(** ** Questions *)

(** Every clause of the rule is in the context with the same text, case
    aside; the order of the clauses does not matter. *)
Definition whenMatches (when ctx : list (string * any)) : bool :=
  forallb (fun kv => has kv.1 ctx &&
    bool_decide (Str.to_lower (strOf (find kv.1 ctx)) = Str.to_lower (strOf kv.2))) when.

Record Duty := mkDuty { d_rule_id : string; d_pack : string; d_duty : list (string * any); d_narrate : string }.

Definition DutiesFor (ctx : list (string * any)) (ps : PackSet) : list Duty :=
  match Get "rp-nta-vasp-duties" ps with
  | None => []
  | Some p =>
      map (fun r => mkDuty (r_ID r) (packTag p) (Then r) (strOf (find "narrate" (Then r))))
        (List.filter (fun r => whenMatches (When r) ctx) (Rules p))
  end.

Definition defaultRequired : list string :=
  ["message_ref_id"; "timestamp"; "reporting_vasp"; "reportable_user"; "transactions"].

(** The first rule of that id whose [fields] is a list *)
Definition CARFRequiredFields (ps : PackSet) : list string :=
  match Get "rp-carf-schema" ps with
  | None => defaultRequired
  | Some p =>
      match omap (fun r => if bool_decide (r_ID r = "carf.message.required")
                           then as_list (find "fields" (Then r)) else None) (Rules p) with
      | fields :: _ => map strOf fields
      | [] => defaultRequired
      end
  end.

(** The packs of a service without a registry *)
Definition offlinePacks : PackSet := Eval vm_compute in LoadAll (fun _ => None) ∅.

(** Its duty rules: id and [when]-clause *)
Definition dutyRules : list (string * list (string * any)) :=
  Eval vm_compute in match Get "rp-nta-vasp-duties" offlinePacks with
                     | Some p => map (fun r => (r_ID r, When r)) (Rules p) | None => [] end.

Lemma duties_offline (ctx : list (string * any)) :
  map d_rule_id (DutiesFor ctx offlinePacks) = map fst (List.filter (fun r => whenMatches r.2 ctx) dutyRules).
Proof.
  assert (Hget : exists p, Get "rp-nta-vasp-duties" offlinePacks = Some p /\
                           map (fun r => (r_ID r, When r)) (Rules p) = dutyRules).
  { eexists. split; [vm_compute; reflexivity|]. vm_compute. reflexivity. }
  destruct Hget as (p & Hp & <-). unfold DutiesFor. rewrite Hp. clear Hp.
  induction (Rules p) as [|r rules IH]; [done|]. simpl.
  destruct (whenMatches (When r) ctx); simpl; by rewrite IH.
Qed.

(** ** Properties *)

(** The schema pack never loads.  Its narratives carry commas inside quotes,
    which the flow scanner splits at, so the embedded text is refused, and so is
    the same text served by the registry, whatever else it serves: the service
    always runs on the built-in list of required fields.  The three other
    packs load. *)
Theorem carf_schema_pack_unusable (registry : string -> option registryBody) (ps : PackSet) :
  (registry "rp-carf-schema" = None \/
   registry "rp-carf-schema" = Some (mkBody pack_rp_carf_schema None)) ->
  ps !! "rp-carf-schema" = None ->
  packFromYAML (embeddedVaspPacks "rp-carf-schema") "embedded" = Some (Err (yamlErr badFlowPair)) /\
  Get "rp-carf-schema" (LoadAll registry ps) = None /\
  CARFRequiredFields (LoadAll registry ps) = defaultRequired /\
  LoadAll (fun _ => None) ∅ = offlinePacks /\
  VersionTag offlinePacks = "rp-nta-vasp-duties@1.0.0,rp-nta-digital-assets@1.0.0,rp-asset-taxonomy@1.0.0".
Proof.
  intros Hr Hps.
  assert (Hemb : forall src, packFromYAML pack_rp_carf_schema src = Some (Err (yamlErr badFlowPair)))
    by (intros; vm_compute; reflexivity).
  assert (Hkeep : forall ps' id, id <> "rp-carf-schema" ->
      loadPack registry ps' id !! "rp-carf-schema" = ps' !! "rp-carf-schema").
  { intros ps' id Hid. unfold loadPack. repeat case_match; by rewrite ?lookup_insert_ne. }
  assert (Hget : Get "rp-carf-schema" (LoadAll registry ps) = None).
  { unfold Get, LoadAll, vaspPackIDs. cbn [foldl]. rewrite !Hkeep by done.
    unfold loadPack, fetch. change (embeddedVaspPacks "rp-carf-schema") with pack_rp_carf_schema.
    destruct Hr as [-> | ->]; cbn [rb_text rb_json]; rewrite ?Hemb; done. }
  split_and!; [apply Hemb | done | unfold CARFRequiredFields; by rewrite Hget | vm_compute; reflexivity ..].
Qed.

(** The duties of a context under the packs of the service are decided by
    its [actor] alone, whatever the case of its text and whatever else the
    context holds: three for a VASP, one for a user, none otherwise. *)
Theorem duties_by_actor (ctx : list (string * any)) :
  map d_rule_id (DutiesFor ctx offlinePacks) =
    (if has "actor" ctx then
       let actor := Str.to_lower (strOf (find "actor" ctx)) in
       if bool_decide (actor = "vasp")
       then ["vasp.duty.recordkeeping"; "vasp.duty.reporting"; "vasp.duty.large_tx"]
       else if bool_decide (actor = "user") then ["vasp.duty.gains"] else []
     else []).
Proof.
  rewrite duties_offline. unfold dutyRules, whenMatches. cbn [List.filter fst snd forallb map].
  replace (Str.to_lower (strOf (VStr "vasp"))) with "vasp" by reflexivity.
  replace (Str.to_lower (strOf (VStr "user"))) with "user" by reflexivity.
  destruct (has "actor" ctx); [|done]. cbn [andb]. cbv zeta.
  generalize (Str.to_lower (strOf (find "actor" ctx))) as a. intros a. rewrite !andb_true_r.
  destruct (bool_decide (a = "vasp")) eqn:Hv; bools; [by subst|].
  by destruct (bool_decide (a = "user")).
Qed.

(** ** Witnesses *)

Theorem carf_schema_pack_unusable_witness : CARFRequiredFields (LoadAll (fun _ => None) ∅) = defaultRequired.
Proof. exact (proj1 (proj2 (proj2 (carf_schema_pack_unusable (fun _ => None) ∅ (or_introl eq_refl) eq_refl)))). Defined.
