(* ===== verification/CarfGates.v ===== *)
(** * vasp-carf: regulatory gates (services/vasp-carf/gates.go)

    The gate checker reads the gates from the reg-watch service, completes them
    from a local file and closes the ones nobody lists; a reading is kept for
    ten seconds.  The answer of reg-watch at each call is a parameter, as are
    the clock (nanoseconds) and whether a write of the file succeeds.  A file
    that is not a JSON object of booleans counts as absent: that Go fills the
    map with the entries before the first bad one, and that a file holding null
    makes the switch panic, is left out. *)

From S2P Require Import Prelude.

Record GateState := mkGate {
  g_ID : string;
  g_Open : bool;
  g_Source : string;
  g_Note : string;
  g_Updated : string;
}.

(** One gate of reg-watch's answer *)
Record regGate := mkRegGate { rg_ID : string; rg_Open : bool; rg_Note : string }.

(** [file]: the gate file, when it exists and is a JSON object of booleans.
    [cachedAt = None] is Go's zero time. *)
Record GateChecker := mkGates {
  cached : gmap string GateState;
  cachedAt : option Z;
  file : option (gmap string bool);
}.

(** The world as one request sees it: the time of day as text and as
    nanoseconds, and the gates reg-watch lists ([None] when it is not
    configured, does not answer 200, or answers something else) *)
Record GateEnv := mkGateEnv {
  gateNow : string;
  gateClock : Z;
  regWatch : option (list regGate);
}.

Definition NewGateChecker (f : option (gmap string bool)) : GateChecker := mkGates ∅ None f.

Definition defaultGates : list string := ["carf.transmit_enabled"; "carf.gate.changed"].

Definition add_reg (now : string) (out : gmap string GateState) (gg : regGate) : gmap string GateState :=
  <[rg_ID gg := mkGate (rg_ID gg) (rg_Open gg) "reg-watch" (rg_Note gg) now]> out.

(** A local entry counts only when reg-watch does not list the gate. *)
Definition add_local (now : string) (local : gmap string bool) (out : gmap string GateState) : gmap string GateState :=
  out ∪ map_imap (fun id open => Some (mkGate id open "local-file" "" now)) local.

Definition add_default (now : string) (out : gmap string GateState) (id : string) : gmap string GateState :=
  match out !! id with
  | Some _ => out
  | None => <[id := mkGate id false "default" "fail-safe closed" now]> out
  end.

Definition refresh (env : GateEnv) (g : GateChecker) : gmap string GateState :=
  let out := foldl (add_reg (gateNow env)) ∅ (default [] (regWatch env)) in
  let out := match file g with Some local => add_local (gateNow env) local out | None => out end in
  foldl (add_default (gateNow env)) out defaultGates.

Definition tenSeconds : Z := 10 * 1000000000.

Definition stale (env : GateEnv) (g : GateChecker) : bool :=
  match cachedAt g with None => true | Some t => tenSeconds <? gateClock env - t end.

Definition Gates (env : GateEnv) (g : GateChecker) : GateChecker * gmap string GateState :=
  let g := if stale env g then mkGates (refresh env g) (Some (gateClock env)) (file g) else g in
  (g, cached g).

Definition Open (env : GateEnv) (id : string) (g : GateChecker) : GateChecker * bool :=
  let '(g, gs) := Gates env g in
  (g, match gs !! id with Some st => g_Open st | None => false end).

(** [None]: the write failed *)
Definition SetLocal (written : bool) (id : string) (open : bool) (g : GateChecker) : option GateChecker :=
  let local := default ∅ (file g) in
  if written then Some (mkGates (cached g) None (Some (<[id := open]> local))) else None.

(** What the two sources say of a gate; reg-watch's last entry counts. *)
Definition regSays (env : GateEnv) (id : string) : option bool :=
  rg_Open <$> last (List.filter (fun gg => bool_decide (rg_ID gg = id)) (default [] (regWatch env))).
Definition fileSays (g : GateChecker) (id : string) : option bool := local ← file g; local !! id.
Definition decision (env : GateEnv) (g : GateChecker) (id : string) : bool :=
  match regSays env id with
  | Some o => o
  | None => default false (fileSays g id)
  end.

(** ** Auxiliary lemmas *)

Section Gates.

Lemma last_filter_snoc {A} (P : A -> bool) l x :
  last (List.filter P (l ++ [x])) = if P x then Some x else last (List.filter P l).
Proof. rewrite List.filter_app. simpl. destruct (P x); [apply last_snoc | by rewrite app_nil_r]. Qed.

Lemma lookup_reg now l id :
  g_Open <$> foldl (add_reg now) ∅ l !! id = rg_Open <$> last (List.filter (fun gg => bool_decide (rg_ID gg = id)) l).
Proof.
  induction l as [|gg l IH] using rev_ind; [done|].
  rewrite foldl_app, last_filter_snoc. simpl. unfold add_reg at 1.
  case_bool_decide as E; [subst; by rewrite lookup_insert_eq | by rewrite lookup_insert_ne].
Qed.

Lemma lookup_local now local out id :
  g_Open <$> add_local now local out !! id =
    match g_Open <$> out !! id with Some o => Some o | None => local !! id end.
Proof.
  unfold add_local. rewrite lookup_union, map_lookup_imap.
  destruct (out !! id); simpl; [by destruct (local !! id)|]. by destruct (local !! id).
Qed.

Lemma lookup_default now ids out id :
  default false (g_Open <$> foldl (add_default now) out ids !! id) = default false (g_Open <$> out !! id).
Proof.
  revert out. induction ids as [|i ids IH]; intros out; [done|]. simpl. rewrite IH. unfold add_default.
  destruct (out !! i) eqn:E; [done|]. destruct (decide (i = id)) as [->|Hne].
  - by rewrite lookup_insert_eq, E.
  - by rewrite lookup_insert_ne.
Qed.

Lemma refresh_decision env g id :
  match refresh env g !! id with Some st => g_Open st | None => false end = decision env g id.
Proof.
  transitivity (default false (g_Open <$> refresh env g !! id)); [by destruct (refresh env g !! id)|].
  unfold refresh. rewrite lookup_default. unfold decision, regSays, fileSays.
  destruct (file g) as [local|]; simpl; [rewrite lookup_local|]; rewrite lookup_reg;
    by destruct (rg_Open <$> last _).
Qed.

Lemma Open_stale env id g :
  (stale env g = true -> (Open env id g).2 = decision env g id) /\
  (stale env g = false -> Open env id g = (g, default false (g_Open <$> cached g !! id))).
Proof.
  unfold Open, Gates. split; intros ->; [apply refresh_decision|]. by destruct (cached g !! id).
Qed.
End Gates.

(** ** Properties *)

(** Gates are fail-safe.  A reading older than ten seconds is replaced, and
    a gate is then open exactly when reg-watch says so, or reg-watch does not
    list it and the local file says so; a gate nobody lists is closed.  Within
    the ten seconds the old reading is kept, unchanged. *)
Theorem gates_fail_safe (env : GateEnv) (id : string) (g : GateChecker) :
  (stale env g = true -> (Open env id g).2 = decision env g id) /\
  (stale env g = false ->
     (Open env id g).1 = g /\ (Open env id g).2 = default false (g_Open <$> cached g !! id)) /\
  (regSays env id = None -> fileSays g id = None -> decision env g id = false).
Proof.
  split_and!.
  - apply Open_stale.
  - intros Hs. by rewrite (proj2 (Open_stale env id g) Hs).
  - unfold decision. by intros -> ->.
Qed.

(** A local flip takes effect at the next reading, but only for a gate that
    reg-watch does not list: the file is a fallback, never an override. *)
Theorem gate_flip_is_fallback (env : GateEnv) (id : string) (open : bool) (g g' : GateChecker) :
  SetLocal true id open g = Some g' ->
  (Open env id g').2 = match regSays env id with Some o => o | None => open end /\
  (forall j, j <> id -> (Open env j g').2 = decision env g j).
Proof.
  intros [= <-]. set (g' := mkGates _ _ _).
  assert (H : forall j, (Open env j g').2 = decision env g' j)
    by (intros j; exact (proj1 (Open_stale env j g') eq_refl)).
  split; [|intros j Hj]; rewrite H; unfold decision, fileSays; simpl.
  - rewrite lookup_insert_eq. by destruct (regSays env id).
  - rewrite lookup_insert_ne by done. destruct (regSays env j); [done|]. destruct (file g); [done|].
    done.
Qed.

(** ** Witnesses *)

Theorem gate_flip_is_fallback_witness :
  let env := mkGateEnv "now" 0 (Some [mkRegGate "carf.gate.changed" false "closed by the board"]) in
  exists g', SetLocal true "carf.gate.changed" true (NewGateChecker None) = Some g' /\
    (Open env "carf.gate.changed" g').2 = false.
Proof.
  eexists. split; [reflexivity|].
  exact (proj1 (gate_flip_is_fallback (mkGateEnv "now" 0 (Some [mkRegGate "carf.gate.changed" false "closed by the board"]))
    "carf.gate.changed" true (NewGateChecker None) _ eq_refl)).
Defined.
