(* ===== verification/Xml.v ===== *)
(** * The part of Go's [encoding/xml] that the services print with

    [xml.MarshalIndent(v, "", "  ")] of a struct: a tree of elements, leaves
    carrying text, printed one element per line.  Text is escaped as
    [EscapeText] does on ASCII; other bytes are kept (the strings come from
    JSON and are valid UTF-8; the two non-characters Go also replaces are left
    aside). *)

From S2P Require Import Prelude StrFacts.

Inductive xml : Type :=
| Leaf (name : string) (attrs : list (string * string)) (text : string)
| Elem (name : string) (attrs : list (string * string)) (children : list xml).

Definition is_char (n : N) (c : ascii) : bool := (Ascii.N_of_ascii c =? n)%N.

Definition escape_char (c : ascii) : string :=
  if is_char 34 c then "&#34;"
  else if is_char 39 c then "&#39;"
  else if is_char 38 c then "&amp;"
  else if is_char 60 c then "&lt;"
  else if is_char 62 c then "&gt;"
  else if is_char 9 c then "&#x9;"
  else if is_char 10 c then "&#xA;"
  else if is_char 13 c then "&#xD;"
  else if (Ascii.N_of_ascii c <? 32)%N
  then String (Ascii.ascii_of_nat 239) (String (Ascii.ascii_of_nat 191) (String (Ascii.ascii_of_nat 189) EmptyString))
  else String c EmptyString.

Fixpoint escape (s : string) : string :=
  match s with
  | EmptyString => EmptyString
  | String c s' => escape_char c +:+ escape s'
  end.

Definition quote : string := String (Ascii.ascii_of_nat 34) EmptyString.
Definition nl : string := String (Ascii.ascii_of_nat 10) EmptyString.

Definition print_attr (a : string * string) : string := " " +:+ a.1 +:+ "=" +:+ quote +:+ escape a.2 +:+ quote.

Definition open_tag (name : string) (attrs : list (string * string)) : string :=
  "<" +:+ name +:+ Str.join "" (map print_attr attrs) +:+ ">".
Definition close_tag (name : string) : string := "</" +:+ name +:+ ">".

Fixpoint margin (depth : nat) : string :=
  match depth with O => "" | S d => "  " +:+ margin d end.

(** An element starts on a line of its own; its end tag does too when it has
    children. *)
Fixpoint print (depth : nat) (x : xml) : string :=
  match x with
  | Leaf name attrs text => margin depth +:+ open_tag name attrs +:+ escape text +:+ close_tag name
  | Elem name attrs [] => margin depth +:+ open_tag name attrs +:+ close_tag name
  | Elem name attrs children =>
      margin depth +:+ open_tag name attrs +:+ nl +:+
      (fix prints (l : list xml) : string :=
         match l with
         | [] => ""
         | c :: l => print (S depth) c +:+ nl +:+ prints l
         end) children +:+
      margin depth +:+ close_tag name
  end.

Definition MarshalIndent (x : xml) : string := print 0 x.

(** [xml.Header] *)
Definition Header : string :=
  "<?xml version=" +:+ quote +:+ "1.0" +:+ quote +:+ " encoding=" +:+ quote +:+ "UTF-8" +:+ quote +:+ "?>" +:+ nl.

(** [strings.Contains] *)
Fixpoint contains (s sub : string) : bool :=
  Str.has_prefix s sub || match s with EmptyString => false | String _ s' => contains s' sub end.

(** Occurrences of a character *)
Fixpoint count (c : ascii) (s : string) : nat :=
  match s with
  | EmptyString => 0
  | String d s' => (if bool_decide (c = d) then 1 else 0) + count c s'
  end.

Fixpoint size (x : xml) : nat :=
  match x with
  | Leaf _ _ _ => 1
  | Elem _ _ l => S (list_sum (map size l))
  end.

(** Element and attribute names without [<] *)
Fixpoint plain (x : xml) : Prop :=
  match x with
  | Leaf n a _ => count "<" n = 0%nat /\ Forall (fun kv => count "<" kv.1 = 0%nat) a
  | Elem n a l => count "<" n = 0%nat /\ Forall (fun kv => count "<" kv.1 = 0%nat) a /\
      (fix all (l : list xml) : Prop := match l with [] => True | c :: l => plain c /\ all l end) l
  end.

(** ** Lemmas *)

Section Xml.

Lemma contains_app a sub b : contains (a +:+ sub +:+ b) sub = true.
Proof.
  induction a as [|c a IH].
  - change ("" +:+ sub +:+ b) with (sub +:+ b). unfold contains, Str.has_prefix.
    destruct (sub +:+ b) eqn:E; rewrite <- E, prefix_app; done.
  - change (contains (String c (a +:+ sub +:+ b)) sub = true). cbn [contains].
    rewrite IH. apply orb_true_r.
Qed.

Lemma count_app c a b : count c (a +:+ b) = (count c a + count c b)%nat.
Proof. induction a as [|d a IH]; [done|]. change ((String d a) +:+ b) with (String d (a +:+ b)). simpl. rewrite IH. lia. Qed.

Lemma count_escape s : count "<" (escape s) = 0%nat.
Proof.
  induction s as [|c s IH]; [done|]. simpl. rewrite count_app, IH.
  destruct c as [[] [] [] [] [] [] [] []]; reflexivity.
Qed.

Lemma count_margin d : count "<" (margin d) = 0%nat.
Proof. induction d as [|d IH]; [done|]. simpl. exact IH. Qed.

Lemma count_attrs a :
  Forall (fun kv : string * string => count "<" kv.1 = 0%nat) a ->
  count "<" (Str.join "" (map print_attr a)) = 0%nat.
Proof.
  intros H. assert (Hp : forall kv : string * string, count "<" kv.1 = 0%nat -> count "<" (print_attr kv) = 0%nat).
  { intros kv E. unfold print_attr. rewrite !count_app, E, count_escape. done. }
  induction H as [|kv a Hkv Ha IH]; [done|]. simpl.
  destruct a as [|kv' a]; simpl in *; [by apply Hp|]. rewrite count_app, Hp by done. exact IH.
Qed.

Lemma count_tags n a :
  count "<" n = 0%nat -> Forall (fun kv : string * string => count "<" kv.1 = 0%nat) a ->
  count "<" (open_tag n a) = 1%nat /\ count "<" (close_tag n) = 1%nat.
Proof.
  intros Hn Ha. unfold open_tag, close_tag. rewrite !count_app, Hn, count_attrs by done. done.
Qed.

(** The text of a document is its tags: whatever the leaves carry, the printed
    text holds one start and one end tag per element and no other [<]. *)
Lemma print_tags x : forall d, plain x -> count "<" (print d x) = (2 * size x)%nat.
Proof.
  revert x. fix IH 1. intros [n a t|n a l] d; simpl.
  - intros [Hn Ha]. destruct (count_tags n a Hn Ha) as [H1 H2].
    by rewrite !count_app, H1, H2, count_margin, count_escape.
  - intros (Hn & Ha & Hl). destruct (count_tags n a Hn Ha) as [H1 H2].
    assert (E : count "<" ((fix prints (l : list xml) : string :=
         match l with [] => "" | c :: l => print (S d) c +:+ nl +:+ prints l end) l) = (2 * list_sum (map size l))%nat).
    { induction l as [|c l IHl]; [done|]. destruct Hl as [Hc Hl]. rewrite !count_app, (IH c (S d) Hc), (IHl Hl).
      simpl. lia. }
    destruct l as [|c l]; rewrite !count_app, H1, H2, count_margin.
    + done.
    + change (list_sum (map size (c :: l))) with (size c + list_sum (map size l))%nat in *.
      rewrite !count_app in E. change (count "<" nl) with 0%nat in *. lia.
Qed.
End Xml.
