(* ===== verification/CarfMessages.v ===== *)
(** * vasp-carf: CARF messages (services/vasp-carf/carf.go and the handlers of
    services/vasp-carf/main.go)

    Building a message out of the engine's trades, transfers and ledger, its
    OECD XML, its validation, the durable registry of messages, and the
    handlers that build, correct and transmit.  Each write to the log succeeds
    or fails as the [writes] of the request say; fresh identifiers, the clock
    and the reg-watch answer come with the request. *)

From S2P Require Import Prelude StrFacts Crypto GoAny Xml.
From S2P Require Import CarfPacks CarfGates CarfEngine.

(** ** The message *)

Record CryptoAssetTransaction := mkTx {
  tx_Type : string;
  tx_Asset : string;
  tx_QtyMilli : Z;
  FairMarketValue : Z;
  Currency : string;
  GainLossKobo : Z;
}.

Record UserReport := mkUserReport {
  ur_UserHash : string;
  ur_TINHash : string;
  ur_Country : string;
  Transactions : list CryptoAssetTransaction;
}.

Record CARFDocSpec := mkDocSpec { ds_DocTypeIndic : string; CorrMessageRefId : string }.

Record CARFMessageSpec := mkSpec {
  SendingCompanyIN : string;
  TransmittingCountry : string;
  ReceivingCountry : string;
  MessageType : string;
  spec_MessageRefId : string;
  ReportingPeriod : string;
  Timestamp : string;
}.

Record CARFVASP := mkVASP {
  vasp_Name : string;
  vasp_TINHash : string;
  vasp_Country : string;
  Reports : list UserReport;
}.

Record CARFMessage := mkMessage {
  Xmlns : string;
  msg_Version : string;
  Spec : CARFMessageSpec;
  DocSpec : option CARFDocSpec;
  ReportingVASP : CARFVASP;
}.

Record CARFRecord := mkRecord {
  rec_ID : string;
  MessageRefId : string;
  Period : string;
  rec_TenantID : string;
  DocTypeIndic : string;
  CorrOf : string;
  CorrectionReason : string;
  Users : Z;
  rec_Transactions : Z;
  BuiltAt : string;
  rec_Status : string;
  XML : string;
  Validation : list string;
}.

Definition set_status (st : string) (r : CARFRecord) : CARFRecord :=
  mkRecord (rec_ID r) (MessageRefId r) (Period r) (rec_TenantID r) (DocTypeIndic r) (CorrOf r)
    (CorrectionReason r) (Users r) (rec_Transactions r) (BuiltAt r) st (XML r) (Validation r).

(** *** As XML: the tags of the struct fields; a zero gain and an empty
    reference are omitted *)

Definition leaf (name text : string) : xml := Leaf name [] text.

Definition xml_tx (t : CryptoAssetTransaction) : xml :=
  Elem "CryptoAssetTransaction" [("Currency", Currency t)]
    ([leaf "Type" (tx_Type t); leaf "CryptoAsset" (tx_Asset t);
      leaf "QtyMilli" (pretty (tx_QtyMilli t)); leaf "FairMarketValue" (pretty (FairMarketValue t))] ++
     (if GainLossKobo t =? 0 then [] else [leaf "GainLossKobo" (pretty (GainLossKobo t))])).

Definition xml_report (u : UserReport) : xml :=
  Elem "UserReport" []
    (Elem "ReportableUser" [] [leaf "UserHash" (ur_UserHash u); leaf "TINHash" (ur_TINHash u);
                               leaf "Country" (ur_Country u)]
     :: map xml_tx (Transactions u)).

Definition xml_docspec (d : CARFDocSpec) : xml :=
  Elem "DocSpec" [] (leaf "DocTypeIndic" (ds_DocTypeIndic d) ::
    (if bool_decide (CorrMessageRefId d = "") then [] else [leaf "CorrMessageRefId" (CorrMessageRefId d)])).

Definition xml_spec (s : CARFMessageSpec) : xml :=
  Elem "MessageSpec" []
    [leaf "SendingCompanyIN" (SendingCompanyIN s); leaf "TransmittingCountry" (TransmittingCountry s);
     leaf "ReceivingCountry" (ReceivingCountry s); leaf "MessageType" (MessageType s);
     leaf "MessageRefId" (spec_MessageRefId s); leaf "ReportingPeriod" (ReportingPeriod s);
     leaf "Timestamp" (Timestamp s)].

Definition xml_vasp (v : CARFVASP) : xml :=
  Elem "ReportingVASP" []
    (Elem "VASPDetails" [] [leaf "Name" (vasp_Name v); leaf "TINHash" (vasp_TINHash v);
                            leaf "Country" (vasp_Country v)]
     :: map xml_report (Reports v)).

Definition xml_message (m : CARFMessage) : xml :=
  Elem "CARF_OECD" [("xmlns", Xmlns m); ("version", msg_Version m)]
    [xml_spec (Spec m);
     Elem "CARFBody" []
       (match DocSpec m with Some d => [xml_docspec d] | None => [] end ++ [xml_vasp (ReportingVASP m)])].

(** ** Building *)

Abbreviation reports := (gmap string UserReport).

Section Build.
Context `{Crypto}.

Definition inPeriod (period at_ : string) : bool := bool_decide (period = "") || Str.has_prefix at_ period.

Definition newReport (user : string) : UserReport :=
  mkUserReport user (TINHash user "carf-user") "NG" [].

Definition add_tx (t : CryptoAssetTransaction) (u : UserReport) : UserReport :=
  mkUserReport (ur_UserHash u) (ur_TINHash u) (ur_Country u) (Transactions u ++ [t]).

(** The report of a user is opened at their first transaction. *)
Definition report_tx (user : string) (t : CryptoAssetTransaction) (users : reports) : reports :=
  <[user := add_tx t (default (newReport user) (users !! user))]> users.

Definition tradeTx (t : Trade) : CryptoAssetTransaction :=
  mkTx "RC701" (Str.to_upper (t_Asset t)) (t_QtyMilli t) (amountKobo (t_QtyMilli t) (PriceKobo t)) "NGN" 0.
Definition transferTx (tr : Transfer) : CryptoAssetTransaction :=
  mkTx "RC703" (Str.to_upper (x_Asset tr)) (x_QtyMilli tr) (amountKobo (x_QtyMilli tr) (FMVKobo tr)) "NGN" 0.
Definition ledgerTx (gl : GainLossEntry) : CryptoAssetTransaction :=
  mkTx "RC704" (gl_Asset gl) 0 (Proceeds gl) "NGN" (GainLoss gl).

Definition add_trade (acc : reports * Z) (t : Trade) : reports * Z :=
  (report_tx (t_UserHash t) (tradeTx t) acc.1, acc.2 + 1).
Definition add_transfer (acc : reports * Z) (tr : Transfer) : reports * Z :=
  (report_tx (x_UserHash tr) (transferTx tr) acc.1, acc.2 + 1).

(** A gain or loss is attached only to a user who has a report by now. *)
Definition add_gain (acc : reports * Z) (gl : GainLossEntry) : reports * Z :=
  match acc.1 !! gl_UserHash gl with
  | Some ur => (<[gl_UserHash gl := add_tx (ledgerTx gl) ur]> acc.1, acc.2 + 1)
  | None => acc
  end.

(** What the engine lists of a tenant and a period; [tids] and [xids] are the
    orders in which the Go maps are walked. *)
Definition periodTrades (tids : list string) (tenant period : string) (e : Engine) : list Trade :=
  List.filter (fun t => inPeriod period (TradedAt t)) (Trades tids tenant e).
Definition periodTransfers (xids : list string) (tenant period : string) (e : Engine) : list Transfer :=
  List.filter (fun tr => inPeriod period (MovedAt tr)) (Transfers xids tenant e).
Definition periodLedger (tenant period : string) (e : Engine) : list GainLossEntry :=
  List.filter (fun gl => inPeriod period (BookedAt gl)) (Ledger tenant e).

Definition collect (tids xids : list string) (tenant period : string) (e : Engine) : reports * Z :=
  let acc := foldl add_trade (∅, 0) (periodTrades tids tenant period e) in
  let acc := foldl add_transfer acc (periodTransfers xids tenant period e) in
  foldl add_gain acc (periodLedger tenant period e).

Definition string_le (a b : string) : Prop := String.leb a b = true.
#[export] Instance string_le_dec a b : Decision (string_le a b).
Proof. unfold string_le. apply _. Defined.

Definition sortedReports (users : reports) : list UserReport :=
  omap (fun k => users !! k) (merge_sort string_le (map_to_list users).*1).

(** *** Validation *)

Definition present (r : CARFRecord) (field : string) : bool :=
  if bool_decide (field = "message_ref_id") then negb (bool_decide (MessageRefId r = ""))
  else if bool_decide (field = "timestamp") then negb (bool_decide (BuiltAt r = ""))
  else if bool_decide (field = "reporting_vasp") then negb (bool_decide (rec_TenantID r = ""))
  else if bool_decide (field = "reportable_user") then 0 <? Users r
  else if bool_decide (field = "transactions") then 0 <? rec_Transactions r
  else false.

Definition ValidateCARF (r : CARFRecord) (ps : PackSet) : list string :=
  omap (fun f => if present r f then None else Some ("missing required field: " +:+ f)) (CARFRequiredFields ps) ++
  (if contains (XML r) "<MessageType>CARF</MessageType>" then [] else ["MessageType must be CARF"]) ++
  (if negb (bool_decide (DocTypeIndic r = "OECD1")) && bool_decide (CorrOf r = "")
   then ["correction message missing CorrMessageRefId"] else []).

(** What a build draws from outside: two fresh identifiers, the time, and the
    orders of the engine's maps *)
Record BuildEnv := mkBuildEnv {
  idULID : string;
  refULID : string;
  buildNow : string;
  tradeOrder : list string;
  transferOrder : list string;
}.

Definition messageOf (env : BuildEnv) (tenant period docType corrOf : string) (rs : list UserReport) : CARFMessage :=
  mkMessage "urn:oecd:ties:carf:v1" "1.1"
    (mkSpec (TINHash tenant "carf-vasp-in") "NG" "NG" "CARF" ("NG-" +:+ refULID env)
       (period +:+ "-12-31") (buildNow env))
    (if bool_decide (docType = "OECD1") then None else Some (mkDocSpec docType corrOf))
    (mkVASP tenant (TINHash tenant "carf-vasp") "NG" rs).

Definition BuildCARFMessage (env : BuildEnv) (e : Engine) (ps : PackSet)
    (tenant period docType corrOf reason : string) : CARFRecord :=
  let '(users, txCount) := collect (tradeOrder env) (transferOrder env) tenant period e in
  let rs := sortedReports users in
  let xmlText := Header +:+ MarshalIndent (xml_message (messageOf env tenant period docType corrOf rs)) in
  let rec := mkRecord ("carf-" +:+ idULID env) ("NG-" +:+ refULID env) period tenant docType corrOf reason
               (Z.of_nat (length rs)) txCount (buildNow env) "built" xmlText [] in
  mkRecord (rec_ID rec) (MessageRefId rec) (Period rec) (rec_TenantID rec) (DocTypeIndic rec) (CorrOf rec)
    (CorrectionReason rec) (Users rec) (rec_Transactions rec) (BuiltAt rec) (rec_Status rec) (XML rec)
    (ValidateCARF rec ps).
End Build.

(** ** The registry of messages *)

Record CARFStore := mkStore { records : gmap string CARFRecord; carfLog : list CARFRecord }.

(** Replay: the last line of an id wins; lines without an id are skipped. *)
Definition replayRecord (m : gmap string CARFRecord) (r : CARFRecord) : gmap string CARFRecord :=
  if bool_decide (rec_ID r = "") then m else <[rec_ID r := r]> m.

(** On a directory whose log is [l] *)
Definition NewCARFStore (l : list CARFRecord) : CARFStore := mkStore (foldl replayRecord ∅ l) l.

Definition Add (written : bool) (r : CARFRecord) (cs : CARFStore) : CARFStore * bool :=
  if written then (mkStore (<[rec_ID r := r]> (records cs)) (carfLog cs ++ [r]), true) else (cs, false).

Definition GetRecord (id : string) (cs : CARFStore) : option CARFRecord := records cs !! id.

Definition by_built (a b : CARFRecord) : Prop := String.leb (BuiltAt a) (BuiltAt b) = true.
#[export] Instance by_built_dec a b : Decision (by_built a b).
Proof. unfold by_built. apply _. Defined.

(** [ids]: the order of the Go map *)
Definition List_ (ids : list string) (cs : CARFStore) : list CARFRecord :=
  merge_sort by_built (omap (fun id => records cs !! id) ids).

(** The handlers set the status of the record that the registry holds (they
    share the pointer) before they write it. *)
Definition mark (id st : string) (cs : CARFStore) : CARFStore :=
  mkStore (alter (set_status st) id (records cs)) (carfLog cs).

(** ** Handlers *)

Record Service := mkService {
  engine : Engine;
  packs : PackSet;
  gates : GateChecker;
  carf : CARFStore;
}.

Definition with_engine e s := mkService e (packs s) (gates s) (carf s).
Definition with_gates g s := mkService (engine s) (packs s) g (carf s).
Definition with_carf c s := mkService (engine s) (packs s) (gates s) c.

Section Handlers.
Context `{Crypto}.

(** A request is [None] when its body does not decode. *)
Definition handleIngestTrade (c : Clock) (method : string) (req : option Trade) (s : Service)
  : Service * response (option GainLossEntry) :=
  match req with
  | None => (s, Problem 400 "bad request")
  | Some t =>
      if bool_decide (t_UserHash t = "") then (s, Problem 422 "validation failed")
      else
        let '(e, r) := IngestTrade c t method (engine s) in
        (with_engine e s, match r with Err _ => Problem 422 "trade rejected" | Ok gl => JSON 201 gl end)
  end.

Definition handleIngestTransfer (c : Clock) (req : option Transfer) (s : Service)
  : Service * response (option GainLossEntry) :=
  match req with
  | None => (s, Problem 400 "bad request")
  | Some tr =>
      let '(e, r) := IngestTransfer c tr (engine s) in
      (with_engine e s, match r with Err _ => Problem 422 "transfer rejected" | Ok gl => JSON 201 gl end)
  end.

Definition handleAddFMV (c : Clock) (req : option FMVSnapshot) (s : Service) : Service * response string :=
  match req with
  | None => (s, Problem 400 "bad request")
  | Some snap =>
      if bool_decide (f_Asset snap = "") || (f_PriceKobo snap <=? 0) then (s, Problem 422 "validation failed")
      else (with_engine (AddFMV c snap (engine s)) s, JSON 201 (f_Asset snap))
  end.

Definition handleGetFMV (asset : string) (s : Service) : response FMVSnapshot :=
  match LatestFMV asset (engine s) with
  | Some snap => JSON 200 snap
  | None => Problem 404 "no snapshot"
  end.

Definition handleCostBasis (tenant user asset method : string) (s : Service) : response CostBasisReport :=
  JSON 200 (CostBasis tenant user asset (Str.or_default method "fifo") (engine s)).

Definition handleRingFence (req : option (string * string * string)) (s : Service) : response RingFenceResult :=
  match req with
  | None => Problem 400 "bad request"
  | Some (tenant, user, period) => JSON 200 (RingFence tenant user period (engine s))
  end.

Definition handleCARFBuild (env : BuildEnv) (written : bool) (req : option (string * string)) (s : Service)
  : Service * response CARFRecord :=
  match req with
  | None => (s, Problem 400 "bad request")
  | Some (tenant, period) =>
      let r := BuildCARFMessage env (engine s) (packs s) tenant period "OECD1" "" "" in
      let '(c, ok) := Add written r (carf s) in
      (with_carf c s, if ok then JSON 201 r else Problem 500 "persist failed")
  end.

Definition handleCARFGet (id : string) (s : Service) : response CARFRecord :=
  match GetRecord id (carf s) with
  | Some r => JSON 200 r
  | None => Problem 404 "not found"
  end.

Definition handleCARFXML (id : string) (s : Service) : response string :=
  match GetRecord id (carf s) with
  | Some r => JSON 200 (XML r)
  | None => Problem 404 "not found"
  end.

(** [reason] is empty when the body does not decode. *)
Definition handleCARFCorrect (env : BuildEnv) (written1 written2 : bool) (id reason : string) (s : Service)
  : Service * response CARFRecord :=
  match GetRecord id (carf s) with
  | None => (s, Problem 404 "not found")
  | Some orig =>
      if bool_decide (reason = "") then (s, Problem 422 "validation failed")
      else
        let r := BuildCARFMessage env (engine s) (packs s) (rec_TenantID orig) (Period orig)
                   "OECD2" (MessageRefId orig) reason in
        let c := mark id "superseded" (carf s) in
        let '(c, ok) := Add written1 (set_status "superseded" orig) c in
        if negb ok then (with_carf c s, Problem 500 "persist failed")
        else
          let '(c, ok) := Add written2 r c in
          (with_carf c s, if ok then JSON 201 r else Problem 500 "persist failed")
  end.

(** The three readings of the gates, each at its own moment; the last one is
    made only when the second gate is open. *)
Definition bothGates (env1 env2 env3 : GateEnv) (g : GateChecker) : GateChecker * bool :=
  let '(g, _) := Gates env1 g in
  let '(g, enabled) := Open env2 "carf.transmit_enabled" g in
  if enabled then Open env3 "carf.gate.changed" g else (g, false).

Definition handleCARFTransmit (env1 env2 env3 : GateEnv) (written : bool) (req : option string) (s : Service)
  : Service * response string :=
  match req with
  | None => (s, Problem 400 "bad request")
  | Some id =>
      match GetRecord id (carf s) with
      | None => (s, Problem 404 "not found")
      | Some r =>
          let '(g, open) := bothGates env1 env2 env3 (gates s) in
          let s := with_gates g s in
          if negb open then
            let c := mark id "refused" (carf s) in
            (with_carf (Add written (set_status "refused" r) c).1 s,
             Problem 423 "transmission refused: gate closed")
          else if negb (bool_decide (Validation r = [])) then (s, Problem 422 "message invalid")
          else
            let c := mark id "transmitted" (carf s) in
            let '(c, ok) := Add written (set_status "transmitted" r) c in
            (with_carf c s, if ok then JSON 200 (MessageRefId r) else Problem 500 "persist failed")
      end
  end.

Definition handleGates (env : GateEnv) (s : Service) : Service * response (gmap string GateState) :=
  let '(g, gs) := Gates env (gates s) in (with_gates g s, JSON 200 gs).

Definition hasRole (roles : list string) (role : string) : bool := bool_decide (role ∈ roles).

Definition handleGateFlip (roles : list string) (written : bool) (id : string) (req : option bool) (s : Service)
  : Service * response (string * bool) :=
  if negb (hasRole roles "admin") then (s, Problem 403 "forbidden")
  else match req with
       | None => (s, Problem 400 "bad request")
       | Some open =>
           match SetLocal written id open (gates s) with
           | None => (s, Problem 500 "flip failed")
           | Some g => (with_gates g s, JSON 200 (id, open))
           end
       end.

Definition handleDuties (req : option (list (string * any))) (s : Service) : response (list Duty) :=
  match req with
  | None => Problem 400 "bad request"
  | Some ctx => JSON 200 (DutiesFor ctx (packs s))
  end.

Definition handlePacks (s : Service) : response (list Pack) := JSON 200 (Loaded (packs s)).

(** *** The service as a transition system *)

Inductive carfOp :=
| reqTrade (c : Clock) (method : string) (t : option Trade)
| reqTransfer (c : Clock) (tr : option Transfer)
| reqFMV (c : Clock) (snap : option FMVSnapshot)
| reqBuild (env : BuildEnv) (written : bool) (req : option (string * string))
| reqCorrect (env : BuildEnv) (written1 written2 : bool) (id reason : string)
| reqTransmit (env1 env2 env3 : GateEnv) (written : bool) (id : option string)
| reqGates (env : GateEnv)
| reqFlip (roles : list string) (written : bool) (id : string) (open : option bool).

Definition carfStep (s : Service) (o : carfOp) : Service :=
  match o with
  | reqTrade c m t => (handleIngestTrade c m t s).1
  | reqTransfer c tr => (handleIngestTransfer c tr s).1
  | reqFMV c f => (handleAddFMV c f s).1
  | reqBuild env w r => (handleCARFBuild env w r s).1
  | reqCorrect env w1 w2 id reason => (handleCARFCorrect env w1 w2 id reason s).1
  | reqTransmit e1 e2 e3 w id => (handleCARFTransmit e1 e2 e3 w id s).1
  | reqGates env => (handleGates env s).1
  | reqFlip roles w id o => (handleGateFlip roles w id o s).1
  end.

(** The writes of the registry that a request needs *)
Definition writesOk (o : carfOp) : bool :=
  match o with
  | reqBuild _ w _ => w
  | reqCorrect _ w1 w2 _ _ => w1 && w2
  | reqTransmit _ _ _ w _ => w
  | _ => true
  end.

Definition newService (ps : PackSet) (f : option (gmap string bool)) : Service :=
  mkService (NewEngine []) ps (NewGateChecker f) (NewCARFStore []).
Definition carfRun (ps : PackSet) (f : option (gmap string bool)) (ops : list carfOp) : Service :=
  foldl carfStep (newService ps f) ops.
End Handlers.

(** ** Auxiliary lemmas: collecting *)

Section Collect.
Context `{Crypto}.

Definition add_txs (ts : list CryptoAssetTransaction) (u : UserReport) : UserReport :=
  mkUserReport (ur_UserHash u) (ur_TINHash u) (ur_Country u) (Transactions u ++ ts).

Definition txCount (users : reports) : Z := msum (fun u => Z.of_nat (length (Transactions u))) users.

Lemma add_txs_nil u : add_txs [] u = u.
Proof. destruct u. unfold add_txs. simpl. by rewrite app_nil_r. Qed.

Lemma add_txs_cons t ts u : add_txs (t :: ts) u = add_txs ts (add_tx t u).
Proof. unfold add_txs, add_tx. simpl. by rewrite <- app_assoc. Qed.

(** A loop that files each element under its user *)
Lemma foldl_report {A} (user : A -> string) (tx : A -> CryptoAssetTransaction) (l : list A) acc u :
  let acc' := foldl (fun acc a => (report_tx (user a) (tx a) acc.1, acc.2 + 1)) acc l in
  let mine := map tx (List.filter (fun a => bool_decide (user a = u)) l) in
  acc'.1 !! u = (if bool_decide (mine = []) then acc.1 !! u
                 else Some (add_txs mine (default (newReport u) (acc.1 !! u)))).
Proof.
  revert acc. induction l as [|a l IH]; intros acc; [done|]. cbn [foldl]. cbv zeta in *. rewrite IH. clear IH.
  simpl List.filter. unfold report_tx. cbn [fst]. destruct (bool_decide (user a = u)) eqn:Hu; bools.
  - subst u. rewrite lookup_insert_eq. cbn [map default]. rewrite (bool_decide_false (_ :: _ = [])) by done.
    rewrite add_txs_cons. case_bool_decide as E; [by rewrite E, add_txs_nil | done].
  - by rewrite lookup_insert_ne.
Qed.

Lemma foldl_report_count {A} (user : A -> string) (tx : A -> CryptoAssetTransaction) (l : list A) acc :
  let acc' := foldl (fun acc a => (report_tx (user a) (tx a) acc.1, acc.2 + 1)) acc l in
  txCount acc'.1 - acc'.2 = txCount acc.1 - acc.2.
Proof.
  revert acc. induction l as [|a l IH]; intros acc; [done|]. cbn [foldl]. cbv zeta in *. rewrite IH.
  unfold txCount, report_tx. cbn [fst snd]. destruct (acc.1 !! user a) as [u|] eqn:E.
  - rewrite (msum_insert_Some _ _ _ _ _ E). simpl. rewrite length_app. simpl. lia.
  - rewrite msum_insert_None by done. simpl. lia.
Qed.

Lemma foldl_gain (l : list GainLossEntry) acc u :
  (foldl add_gain acc l).1 !! u =
    add_txs (map ledgerTx (List.filter (fun gl => bool_decide (gl_UserHash gl = u)) l)) <$> acc.1 !! u.
Proof.
  revert acc. induction l as [|gl l IH]; intros acc; simpl.
  - destruct (acc.1 !! u); simpl; by rewrite ?add_txs_nil.
  - rewrite IH. unfold add_gain. destruct (acc.1 !! gl_UserHash gl) as [ur|] eqn:E; simpl.
    + destruct (bool_decide (gl_UserHash gl = u)) eqn:Hu; bools; [subst u; rewrite lookup_insert_eq, E; simpl; by rewrite add_txs_cons|].
      by rewrite lookup_insert_ne.
    + destruct (bool_decide (gl_UserHash gl = u)) eqn:Hu; bools; [subst u; by rewrite E|done].
Qed.

Lemma foldl_gain_count (l : list GainLossEntry) acc :
  txCount (foldl add_gain acc l).1 - (foldl add_gain acc l).2 = txCount acc.1 - acc.2.
Proof.
  revert acc. induction l as [|gl l IH]; intros acc; [done|]. cbn [foldl]. rewrite IH.
  unfold add_gain. destruct (acc.1 !! gl_UserHash gl) as [ur|] eqn:E; [|done].
  unfold txCount. cbn [fst snd]. rewrite (msum_insert_Some _ _ _ _ _ E). simpl. rewrite length_app. simpl. lia.
Qed.

(** The report of a user, as a function of the engine's lists *)
Definition mineOf {A} (user : A -> string) (u : string) (l : list A) : list A :=
  List.filter (fun a => bool_decide (user a = u)) l.

Definition reportOf (ts : list Trade) (xs : list Transfer) (gls : list GainLossEntry) (u : string) : option UserReport :=
  let own := map tradeTx (mineOf t_UserHash u ts) ++ map transferTx (mineOf x_UserHash u xs) in
  if bool_decide (own = []) then None
  else Some (mkUserReport u (TINHash u "carf-user") "NG" (own ++ map ledgerTx (mineOf gl_UserHash u gls))).

Lemma collect_lookup tids xids tenant period e u :
  (collect tids xids tenant period e).1 !! u =
    reportOf (periodTrades tids tenant period e) (periodTransfers xids tenant period e)
      (periodLedger tenant period e) u.
Proof.
  unfold collect. cbv zeta. generalize (periodTrades tids tenant period e) as ts,
    (periodTransfers xids tenant period e) as xs, (periodLedger tenant period e) as gls. intros ts xs gls.
  rewrite foldl_gain. unfold reportOf, mineOf.
  rewrite (foldl_report x_UserHash transferTx xs (foldl add_trade (∅, 0) ts) u).
  rewrite (foldl_report t_UserHash tradeTx ts (∅, 0) u). cbn [fst]. rewrite lookup_empty.
  destruct (map tradeTx _) as [|t l1]; destruct (map transferTx _) as [|x l2]; simpl;
    unfold add_txs; simpl; rewrite <- ?app_assoc, ?app_nil_r; done.
Qed.

Lemma collect_count tids xids tenant period e :
  (collect tids xids tenant period e).2 = txCount (collect tids xids tenant period e).1.
Proof.
  unfold collect. cbv zeta.
  pose proof (foldl_gain_count (periodLedger tenant period e)
    (foldl add_transfer (foldl add_trade (∅, 0) (periodTrades tids tenant period e)) (periodTransfers xids tenant period e))) as H1.
  pose proof (foldl_report_count x_UserHash transferTx (periodTransfers xids tenant period e)
    (foldl add_trade (∅, 0) (periodTrades tids tenant period e))) as H2.
  pose proof (foldl_report_count t_UserHash tradeTx (periodTrades tids tenant period e) (∅, 0)) as H3.
  cbv zeta in H2, H3. unfold txCount in H3 at 2. cbn [fst snd] in H3. rewrite msum_empty in H3.
  unfold add_trade, add_transfer in *. lia.
Qed.

#[export] Instance string_le_total : Total string_le.
Proof. intros a b. unfold string_le. destruct (String.leb_total a b); auto. Qed.

Lemma omap_lookup (users : reports) (l : list (string * UserReport)) :
  Forall (fun kv => users !! kv.1 = Some kv.2) l -> omap (fun k => users !! k) l.*1 = l.*2.
Proof. induction 1 as [|[k u] l Hk _ IH]; [done|]. csimpl in *. by rewrite Hk, IH. Qed.

Lemma sortedReports_perm (users : reports) : sortedReports users ≡ₚ (map_to_list users).*2.
Proof.
  unfold sortedReports. rewrite merge_sort_Permutation.
  rewrite (omap_lookup users (map_to_list users)); [done|]. apply Forall_forall. intros [k u] Hk. by apply elem_of_map_to_list in Hk.
Qed.

Lemma sortedReports_sum (users : reports) f : sumZ f (sortedReports users) = msum f users.
Proof.
  rewrite (sumZ_perm _ _ _ (sortedReports_perm users)). unfold msum, sumZ.
  induction (map_to_list users) as [|[k u] l IH]; [done|]. csimpl. by rewrite IH.
Qed.

Lemma elem_of_sortedReports (users : reports) ur :
  ur ∈ sortedReports users <-> exists u, users !! u = Some ur.
Proof.
  rewrite sortedReports_perm, list_elem_of_fmap. split.
  - intros ([u ur'] & -> & Hu). exists u. by apply elem_of_map_to_list.
  - intros [u Hu]. exists (u, ur). split; [done|]. by apply elem_of_map_to_list.
Qed.

(** When every report carries the hash it is filed under *)
Lemma sortedReports_keys (users : reports) :
  (forall u ur, users !! u = Some ur -> ur_UserHash ur = u) ->
  map ur_UserHash (sortedReports users) = merge_sort string_le (map_to_list users).*1.
Proof.
  intros Hu. unfold sortedReports.
  assert (Hall : Forall (fun k => is_Some (users !! k)) (merge_sort string_le (map_to_list users).*1)).
  { rewrite merge_sort_Permutation. apply Forall_forall. intros k (kv & -> & Hk)%list_elem_of_fmap.
    destruct kv as [k ur]. apply elem_of_map_to_list in Hk. eauto. }
  induction Hall as [|k l [ur Hk] _ IH]; [done|]. csimpl. rewrite Hk. csimpl. by rewrite IH, (Hu k ur Hk).
Qed.
End Collect.

(** ** Auxiliary lemmas: the XML text, the registry *)

Section Text.

Lemma contains_intro s a sub b : s = a +:+ sub +:+ b -> contains s sub = true.
Proof. intros ->. apply contains_app. Qed.

Lemma contains_elim s sub : contains s sub = true -> exists a b, s = a +:+ sub +:+ b.
Proof.
  assert (Hp : forall s, String.prefix sub s = true -> exists b, s = sub +:+ b).
  { induction sub as [|c sub IH]; intros s0; [by exists s0|]. destruct s0 as [|d s0]; [done|]. simpl.
    destruct (Ascii.ascii_dec c d) as [->|]; [|done]. intros [b ->]%IH. by exists b. }
  induction s as [|c s IH]; cbn [contains]; intros [H|H]%orb_true_iff.
  - destruct (Hp _ H) as [b Hb]. by exists "", b.
  - done.
  - destruct (Hp _ H) as [b Hb]. exists "", b. exact Hb.
  - destruct (IH H) as (a & b & ->). by exists (String c a), b.
Qed.

Lemma contains_mono s sub a b : contains s sub = true -> contains (a +:+ s +:+ b) sub = true.
Proof.
  intros (x & y & ->)%contains_elim. apply (contains_intro _ (a +:+ x) sub (y +:+ b)).
  by rewrite <- !str_app_assoc.
Qed.

Lemma contains_child d name attrs l c sub :
  c ∈ l -> contains (print (S d) c) sub = true -> contains (print d (Elem name attrs l)) sub = true.
Proof.
  intros Hin Hc. set (prints := fix prints (l : list xml) : string :=
         match l with [] => "" | c :: l => print (S d) c +:+ nl +:+ prints l end).
  assert (H : contains (prints l) sub = true).
  { induction l as [|x l IH]; [by apply elem_of_nil in Hin|]. simpl.
    apply elem_of_cons in Hin as [->|Hin]; [exact (contains_mono _ _ "" _ Hc)|].
    rewrite <- (str_app_nil_r (prints l)), str_app_assoc. apply contains_mono. by apply IH. }
  destruct l as [|x l]; [by apply elem_of_nil in Hin|].
  change (contains (margin d +:+ open_tag name attrs +:+ nl +:+ prints (x :: l) +:+ margin d +:+ close_tag name) sub = true).
  pose proof (contains_mono _ _ (margin d +:+ open_tag name attrs +:+ nl) (margin d +:+ close_tag name) H) as Hm.
  by rewrite <- !str_app_assoc in Hm.
Qed.

Lemma plain_elem n a l :
  count "<" n = 0%nat -> Forall (fun kv : string * string => count "<" kv.1 = 0%nat) a -> Forall plain l ->
  plain (Elem n a l).
Proof. intros Hn Ha Hl. split_and!; [done..|]. by induction Hl. Qed.

Lemma xml_message_plain m : plain (xml_message m).
Proof.
  assert (Htx : forall t, plain (xml_tx t)).
  { intros t. unfold xml_tx. apply plain_elem; [done | by repeat constructor |].
    apply Forall_app. split; [by repeat constructor|]. by destruct (_ =? _); repeat constructor. }
  assert (Hr : forall u, plain (xml_report u)).
  { intros u. apply plain_elem; [done..|]. constructor; [by repeat constructor|].
    apply Forall_forall. intros x (t & -> & _)%list_elem_of_fmap. apply Htx. }
  apply plain_elem; [done | by repeat constructor |]. constructor; [by repeat constructor|].
  constructor; [|done]. apply plain_elem; [done..|]. apply Forall_app. split.
  - destruct (DocSpec m) as [d|]; [|done]. constructor; [|done]. apply plain_elem; [done..|].
    constructor; [by repeat constructor|]. by destruct (bool_decide _); repeat constructor.
  - constructor; [|done]. apply plain_elem; [done..|]. constructor; [by repeat constructor|].
    apply Forall_forall. intros x (u & -> & _)%list_elem_of_fmap. apply Hr.
Qed.

Lemma xml_message_type m :
  MessageType (Spec m) = "CARF" -> contains (MarshalIndent (xml_message m)) "<MessageType>CARF</MessageType>" = true.
Proof.
  intros Hm. eapply (contains_child 0); [by left|]. eapply (contains_child 1).
  { unfold xml_spec. do 3 right. left. }
  rewrite Hm. reflexivity.
Qed.

End Text.

(** ** Properties: building *)

Section BuildProperties.
Context `{Crypto}.

(** A built message reports everything the engine holds of the tenant and
    the period, once: there is one report per user with a trade or a transfer,
    in the order of their hashes; it lists exactly that user's trades, then
    transfers, then booked gains and losses, in the engine's order; and the
    counts in the record are those of the reports, which are the ones printed. *)
Theorem carf_report_complete (env : BuildEnv) (e : Engine) (ps : PackSet)
    (tenant period docType corrOf reason : string) :
  let ts := periodTrades (tradeOrder env) tenant period e in
  let xs := periodTransfers (transferOrder env) tenant period e in
  let gls := periodLedger tenant period e in
  let r := BuildCARFMessage env e ps tenant period docType corrOf reason in
  exists rs,
    XML r = Header +:+ MarshalIndent (xml_message (messageOf env tenant period docType corrOf rs)) /\
    Users r = Z.of_nat (length rs) /\
    rec_Transactions r = sumZ (fun u => Z.of_nat (length (Transactions u))) rs /\
    Sorted string_le (map ur_UserHash rs) /\ NoDup (map ur_UserHash rs) /\
    (forall ur, ur ∈ rs <-> exists u, reportOf ts xs gls u = Some ur).
Proof.
  intros ts xs gls r. subst r. unfold BuildCARFMessage.
  pose proof (collect_lookup (tradeOrder env) (transferOrder env) tenant period e) as Hl.
  pose proof (collect_count (tradeOrder env) (transferOrder env) tenant period e) as Hc.
  destruct (collect _ _ tenant period e) as [users n]. cbn [fst snd] in Hl, Hc. subst n.
  assert (Hkey : forall u ur, users !! u = Some ur -> ur_UserHash ur = u).
  { intros u ur. rewrite Hl. unfold reportOf. case_bool_decide; [done|]. by intros [= <-]. }
  exists (sortedReports users). cbv zeta. cbn [XML Users rec_Transactions]. split_and!; try done.
  - by rewrite sortedReports_sum.
  - rewrite sortedReports_keys by done. apply (Sorted_merge_sort string_le).
  - rewrite sortedReports_keys by done. rewrite merge_sort_Permutation. apply NoDup_fst_map_to_list.
  - intros ur. rewrite elem_of_sortedReports. unfold ts, xs, gls. split; intros [u Hu]; exists u; [by rewrite <- Hl|by rewrite Hl].
Qed.

(** No input can break the XML out of its structure: whatever the names and
    hashes hold, the text has one opening angle per tag of the message's tree
    (and the prolog's), and it always carries the message type the validation
    looks for, so that check never fails. *)
Theorem carf_xml_structure (env : BuildEnv) (e : Engine) (ps : PackSet)
    (tenant period docType corrOf reason : string) :
  let r := BuildCARFMessage env e ps tenant period docType corrOf reason in
  (exists m, XML r = Header +:+ MarshalIndent (xml_message m) /\
     count "<" (XML r) = (1 + 2 * size (xml_message m))%nat) /\
  "MessageType must be CARF" ∉ Validation r.
Proof.
  intros r. subst r. unfold BuildCARFMessage. destruct (collect _ _ tenant period e) as [users n].
  cbv zeta. cbn [XML Validation]. split.
  - eexists. split; [reflexivity|]. rewrite count_app. f_equal. apply print_tags, xml_message_plain.
  - unfold ValidateCARF. cbn [XML]. rewrite !elem_of_app. intros [Hf|[Ht|Hd]].
    + apply list_elem_of_omap in Hf as (f & _ & Hf). by destruct (present _ f).
    + set (msg := messageOf _ _ _ _ _ _) in Ht.
      assert (Hty : contains (Header +:+ MarshalIndent (xml_message msg)) "<MessageType>CARF</MessageType>" = true).
      { rewrite <- (str_app_nil_r (MarshalIndent _)). by apply contains_mono, xml_message_type. }
      rewrite Hty in Ht. by apply elem_of_nil in Ht.
    + destruct (_ && _); [|by apply elem_of_nil in Hd]. by apply list_elem_of_singleton in Hd.
Qed.
End BuildProperties.

(** ** Auxiliary lemmas: handlers *)

Section HandlerLemmas.
Context `{Crypto}.

Lemma engine_only_trade c m t s : carf (handleIngestTrade c m t s).1 = carf s.
Proof. unfold handleIngestTrade. repeat case_match; done. Qed.

Lemma engine_only_transfer c tr s : carf (handleIngestTransfer c tr s).1 = carf s.
Proof. unfold handleIngestTransfer. repeat case_match; done. Qed.

Lemma engine_only_fmv c f s : carf (handleAddFMV c f s).1 = carf s.
Proof. unfold handleAddFMV. repeat case_match; done. Qed.

Lemma registry_keeps_gates env s : carf (handleGates env s).1 = carf s.
Proof. unfold handleGates. by destruct (Gates _ _). Qed.

Lemma registry_keeps_flip roles w id o s : carf (handleGateFlip roles w id o s).1 = carf s.
Proof. unfold handleGateFlip. repeat case_match; done. Qed.

(** A registry whose memory is what its log says, and whose records carry the
    id they are filed under *)
Definition durable (c : CARFStore) : Prop :=
  foldl replayRecord ∅ (carfLog c) = records c /\
  forall id r, records c !! id = Some r -> rec_ID r = id /\ id <> "".

Lemma durable_Add r c : rec_ID r <> "" -> durable c -> durable (Add true r c).1.
Proof.
  intros Hid [Hlog Hrec]. split; simpl.
  - rewrite foldl_app. simpl. unfold replayRecord at 1. rewrite bool_decide_false by done. by rewrite Hlog.
  - intros id r'. destruct (decide (rec_ID r = id)) as [<-|Hne].
    + rewrite lookup_insert_eq. by intros [= <-].
    + rewrite lookup_insert_ne by done. apply Hrec.
Qed.

(** Marking a record and writing it back is writing it *)
Lemma Add_mark id st r c :
  durable c -> records c !! id = Some r -> (Add true (set_status st r) (mark id st c)).1 = (Add true (set_status st r) c).1.
Proof.
  intros [_ Hrec] Hr. destruct (Hrec id r Hr) as [<- _]. unfold Add, mark. simpl. f_equal.
  apply map_eq. intros j. destruct (decide (rec_ID r = j)) as [<-|Hne].
  - by rewrite !lookup_insert_eq.
  - by rewrite !lookup_insert_ne, lookup_alter_ne.
Qed.

Lemma built_id env e ps tenant period docType corrOf reason :
  rec_ID (BuildCARFMessage env e ps tenant period docType corrOf reason) <> "".
Proof. unfold BuildCARFMessage. by destruct (collect _ _ _ _ _). Qed.

Lemma built_status env e ps tenant period docType corrOf reason :
  rec_Status (BuildCARFMessage env e ps tenant period docType corrOf reason) = "built".
Proof. unfold BuildCARFMessage. by destruct (collect _ _ _ _ _). Qed.

Lemma durable_step s o : writesOk o = true -> durable (carf s) -> durable (carf (carfStep s o)).
Proof.
  intros Hw Hd. destruct o; cbn [carfStep writesOk] in *.
  - by rewrite engine_only_trade.
  - by rewrite engine_only_transfer.
  - by rewrite engine_only_fmv.
  - subst written. unfold handleCARFBuild. destruct req as [[tenant period]|]; [|done].
    apply (durable_Add _ _ (built_id env (engine s) (packs s) tenant period "OECD1" "" "") Hd).
  - bools. subst. unfold handleCARFCorrect. destruct (GetRecord id (carf s)) as [r|] eqn:Hr; [|done].
    destruct (bool_decide _); [done|]. cbn [Add negb fst carf with_carf].
    pose proof (Add_mark id "superseded" r (carf s) Hd Hr) as Hm.
    pose proof (proj2 Hd id r Hr) as [Hid Hne].
    assert (Hd' : durable (Add true (set_status "superseded" r) (mark id "superseded" (carf s))).1)
      by (rewrite Hm; apply durable_Add; [simpl; congruence | done]).
    exact (durable_Add _ _ (built_id env (engine s) (packs s) (rec_TenantID r) (Period r) "OECD2" (MessageRefId r) reason) Hd').
  - subst written. unfold handleCARFTransmit. destruct id as [id|]; [|done].
    destruct (GetRecord id (carf s)) as [r|] eqn:Hr; [|done].
    pose proof (proj2 Hd id r Hr) as [Hid Hne].
    destruct (bothGates _ _ _ _) as [g []]; cbn [negb].
    + destruct (negb _); [done|]. cbn [Add fst carf with_carf with_gates].
      pose proof (Add_mark id "transmitted" r (carf s) Hd Hr) as Hm. unfold Add in Hm. cbn [fst] in Hm. rewrite Hm.
      apply (durable_Add (set_status "transmitted" r)); [simpl; congruence | done].
    + cbn [fst carf with_carf with_gates]. rewrite (Add_mark id "refused" r (carf s) Hd Hr).
      apply durable_Add; [simpl; congruence | done].
  - by rewrite registry_keeps_gates.
  - by rewrite registry_keeps_flip.
Qed.

Lemma durable_run ps f ops :
  Forall (fun o => writesOk o = true) ops -> durable (carf (carfRun ps f ops)).
Proof.
  intros Hw. unfold carfRun. assert (H0 : durable (carf (newService ps f))) by done. revert H0.
  generalize (newService ps f) as s. induction Hw as [|o ops Ho _ IH]; intros s Hs; [done|].
  apply IH. by apply durable_step.
Qed.

(** Whatever fails to be written, a transmitted record passed validation. *)
Definition transmittedValid (c : CARFStore) : Prop :=
  (forall id r, records c !! id = Some r -> rec_Status r = "transmitted" -> Validation r = []) /\
  (forall r, r ∈ carfLog c -> rec_Status r = "transmitted" -> Validation r = []).

Lemma transmittedValid_Add w r c :
  (rec_Status r = "transmitted" -> Validation r = []) -> transmittedValid c -> transmittedValid (Add w r c).1.
Proof.
  intros Hr [Hm Hl]. destruct w; [|done]. split; simpl.
  - intros id r'. destruct (decide (rec_ID r = id)) as [<-|Hne].
    + rewrite lookup_insert_eq. by intros [= <-].
    + rewrite lookup_insert_ne by done. apply Hm.
  - intros r' [Hin| ->%list_elem_of_singleton]%elem_of_app; [by apply Hl | done].
Qed.

Lemma transmittedValid_mark id st c :
  (forall r, records c !! id = Some r -> st = "transmitted" -> Validation r = []) ->
  transmittedValid c -> transmittedValid (mark id st c).
Proof.
  intros Hst [Hm Hl]. split; [|done]. simpl. intros j r. destruct (decide (id = j)) as [<-|Hne].
  - rewrite lookup_alter_eq. destruct (records c !! id) as [r0|] eqn:E; [|done]. simpl. intros [= <-]. simpl. by apply Hst.
  - rewrite lookup_alter_ne by done. apply Hm.
Qed.

Lemma transmittedValid_step s o : transmittedValid (carf s) -> transmittedValid (carf (carfStep s o)).
Proof.
  intros Hv. destruct o; cbn [carfStep].
  - by rewrite engine_only_trade.
  - by rewrite engine_only_transfer.
  - by rewrite engine_only_fmv.
  - unfold handleCARFBuild. destruct req as [[tenant period]|]; [|done].
    pose proof (transmittedValid_Add written _ (carf s) (fun E => match eq_trans (eq_sym (built_status env (engine s) (packs s) tenant period "OECD1" "" "")) E with end) Hv) as H'.
    by destruct (Add written _ _).
  - unfold handleCARFCorrect. destruct (GetRecord id (carf s)) as [r|] eqn:Hr; [|done].
    destruct (bool_decide _); [done|].
    assert (Hm : transmittedValid (mark id "superseded" (carf s))) by (by apply transmittedValid_mark).
    pose proof (transmittedValid_Add written1 (set_status "superseded" r) _ ltac:(done) Hm) as H1.
    destruct (Add written1 _ _) as [c1 []]; simpl in *; [|done].
    set (r2 := BuildCARFMessage _ _ _ _ _ _ _ _).
    pose proof (transmittedValid_Add written2 r2 c1
      (fun E => match eq_trans (eq_sym (built_status env (engine s) (packs s) _ _ _ _ reason)) E with end) H1) as H2.
    by destruct (Add written2 _ _).
  - unfold handleCARFTransmit. destruct id as [id|]; [|done].
    destruct (GetRecord id (carf s)) as [r|] eqn:Hr; [|done].
    destruct (bothGates _ _ _ _) as [g []]; cbn [negb].
    + destruct (negb _) eqn:Hval; [done|]. bools. cbn [carf with_gates].
      assert (Hm : transmittedValid (mark id "transmitted" (carf s))).
      { apply transmittedValid_mark; [|done]. unfold GetRecord in Hr. rewrite Hr. by intros ? [= <-]. }
      pose proof (transmittedValid_Add written (set_status "transmitted" r) _ ltac:(done) Hm) as H1.
      by destruct (Add written _ _).
    + cbn [fst carf with_carf with_gates]. apply transmittedValid_Add; [done|]. by apply transmittedValid_mark.
  - by rewrite registry_keeps_gates.
  - by rewrite registry_keeps_flip.
Qed.

(** When the three readings are of one moment and the gates are read afresh *)
Lemma bothGates_fresh env g :
  stale env g = true ->
  (bothGates env env env g).2 = decision env g "carf.transmit_enabled" && decision env g "carf.gate.changed".
Proof.
  intros Hs. unfold bothGates.
  assert (HG : Gates env g = (mkGates (refresh env g) (Some (gateClock env)) (file g), refresh env g)).
  { unfold Gates. by rewrite Hs. }
  rewrite HG. set (g1 := mkGates _ _ _).
  assert (Hf : stale env g1 = false).
  { unfold stale, g1. cbn [cachedAt]. rewrite Z.sub_diag. done. }
  assert (Hd : forall id, default false (g_Open <$> refresh env g !! id) = decision env g id).
  { intros id. rewrite <- (refresh_decision env g id). by destruct (refresh env g !! id). }
  rewrite (proj2 (Open_stale env "carf.transmit_enabled" g1) Hf). change (cached g1) with (refresh env g). rewrite Hd.
  destruct (decision env g "carf.transmit_enabled"); [|done].
  rewrite (proj2 (Open_stale env "carf.gate.changed" g1) Hf). change (cached g1) with (refresh env g). by rewrite Hd.
Qed.
End HandlerLemmas.

(** ** Properties: the registry and transmission *)

Section TransmitProperties.
Context `{Crypto}.

(** C13: Transmission is gated.  A transmit request answers 200 only for a
    message that exists, passed validation and is then recorded as
    transmitted, while both gates were open; with a fresh reading this is what
    reg-watch and the gate file decide.  While a gate is closed every known
    message is refused with 423, and an unknown one is never found. *)
Theorem carf_transmit_gated (env1 env2 env3 : GateEnv) (written : bool) (id : string) (s : Service) :
  let open := (bothGates env1 env2 env3 (gates s)).2 in
  let '(s', resp) := handleCARFTransmit env1 env2 env3 written (Some id) s in
  (status resp = 200 <->
     open = true /\ written = true /\ exists r, GetRecord id (carf s) = Some r /\ Validation r = []) /\
  (status resp = 423 <-> open = false /\ is_Some (GetRecord id (carf s))) /\
  (status resp = 200 -> durable (carf s) ->
     rec_Status <$> GetRecord id (carf s') = Some "transmitted" /\
     forall j, j <> id -> GetRecord j (carf s') = GetRecord j (carf s)) /\
  (env1 = env2 -> env2 = env3 -> stale env1 (gates s) = true ->
     open = decision env1 (gates s) "carf.transmit_enabled" && decision env1 (gates s) "carf.gate.changed").
Proof.
  intros open. subst open.
  assert (Hfresh : env1 = env2 -> env2 = env3 -> stale env1 (gates s) = true ->
     (bothGates env1 env2 env3 (gates s)).2 =
       decision env1 (gates s) "carf.transmit_enabled" && decision env1 (gates s) "carf.gate.changed")
    by (intros <- <-; apply bothGates_fresh).
  unfold handleCARFTransmit. destruct (bothGates env1 env2 env3 (gates s)) as [g b]. cbn [snd] in *.
  destruct (GetRecord id (carf s)) as [r|] eqn:Hr.
  2: { split_and!; simpl; try done; [split; [done | by intros (_ & _ & ? & ? & _)] | split; [done | by intros [_ []]]]. }
  destruct b; cbn [negb].
  - destruct (bool_decide (Validation r = [])) eqn:Hv; bools; cbn [negb].
    + destruct written; simpl.
      * split_and!; [split; [by eauto 6|done] | split; [done | by intros []] | | done].
        intros _ Hd. destruct (proj2 Hd id r Hr) as [Hid _]. unfold GetRecord. simpl.
        rewrite Hid, lookup_insert_eq. split; [done|]. intros j Hj.
        by rewrite lookup_insert_ne, lookup_alter_ne.
      * split_and!; [split; [done | by intros (_ & ? & _)] | split; [done | by intros []] | done | done].
    + simpl. split_and!; [split; [done | intros (_ & _ & r' & E & ?); congruence] | split; [done | by intros []] | done | done].
  - simpl. split_and!; [split; [done | by intros []] | split; [by eauto | done] | done | done].
Qed.

(** The registry survives restarts: as long as its writes succeed, replaying
    its log gives back the very records in memory, whatever was built,
    corrected, transmitted or refused, and every record sits under its own id. *)
Theorem carf_registry_durable (ps : PackSet) (f : option (gmap string bool)) (ops : list carfOp) :
  Forall (fun o => writesOk o = true) ops ->
  let c := carf (carfRun ps f ops) in
  NewCARFStore (carfLog c) = c /\ forall id r, GetRecord id c = Some r -> rec_ID r = id.
Proof.
  intros Hw c. pose proof (durable_run ps f ops Hw : durable c) as Hd.
  split; [|intros id r Hr; exact (proj1 (proj2 Hd id r Hr))].
  unfold NewCARFStore. rewrite (proj1 Hd). by destruct c.
Qed.

(** No invalid message is ever transmitted, in memory or in the log, even
    when writes fail: every record marked transmitted passed all the checks of
    its validation. *)
Theorem carf_transmitted_valid (ps : PackSet) (f : option (gmap string bool)) (ops : list carfOp) :
  let c := carf (carfRun ps f ops) in
  forall r, (r ∈ carfLog c \/ exists id, GetRecord id c = Some r) -> rec_Status r = "transmitted" -> Validation r = [].
Proof.
  intros c. assert (Hv : transmittedValid c).
  { subst c. unfold carfRun. assert (H0 : transmittedValid (carf (newService ps f))).
    { split; [intros id r Hr|intros r Hr]; simpl in Hr; [by rewrite lookup_empty in Hr | by apply elem_of_nil in Hr]. }
    revert H0. generalize (newService ps f) as s. induction ops as [|o ops IH]; intros s Hs; [done|].
    apply IH. by apply transmittedValid_step. }
  destruct Hv as [Hm Hl]. intros r [Hr|[id Hr]]; [by apply Hl | by apply (Hm id)].
Qed.

(** Transmission ignores the status the message had.  With the gates open a
    message that was superseded by its correction, or refused, is transmitted;
    with a gate closed a message that was transmitted already is marked
    refused, so the record of a completed transmission is lost. *)
Theorem carf_transmit_ignores_status (env1 env2 env3 : GateEnv) (id : string) (r : CARFRecord) (s : Service) :
  durable (carf s) -> GetRecord id (carf s) = Some r ->
  let '(s', resp) := handleCARFTransmit env1 env2 env3 true (Some id) s in
  let after := rec_Status <$> GetRecord id (carf s') in
  ((bothGates env1 env2 env3 (gates s)).2 = true -> Validation r = [] ->
     after = Some "transmitted" /\ status resp = 200) /\
  ((bothGates env1 env2 env3 (gates s)).2 = false -> after = Some "refused" /\ status resp = 423).
Proof.
  intros Hd Hr. destruct (proj2 Hd id r Hr) as [Hid _].
  unfold handleCARFTransmit. destruct (bothGates env1 env2 env3 (gates s)) as [g b]. cbn [snd].
  rewrite Hr. destruct b; cbn [negb].
  - destruct (bool_decide (Validation r = [])) eqn:Hv; bools; cbn [negb]; [|by split; intros].
    split; [|done]. intros _ _. unfold GetRecord. simpl. by rewrite Hid, lookup_insert_eq.
  - split; [done|]. intros _. unfold GetRecord. simpl. by rewrite Hid, lookup_insert_eq.
Qed.
End TransmitProperties.

(** ** Witnesses *)

(** A trade, a message, its transmission with the gates open, its correction,
    and a second transmission *)
Definition openGates (t : Z) : GateEnv :=
  mkGateEnv "2026-01-02" t (Some [mkRegGate "carf.transmit_enabled" true ""; mkRegGate "carf.gate.changed" true ""]).
Definition closedGates (t : Z) : GateEnv := mkGateEnv "2026-01-03" t None.
Definition exampleBuild (n : string) : BuildEnv := mkBuildEnv n n "2026-01-02T00:00:00Z" ["b1"] [].
Definition exampleOps : list carfOp :=
  [reqTrade (mkClock "1" "2025-01-01") "" (Some (mkTrade "b1" "vasp1" "" "u<1>" "BTC" "buy" 1000 500 0 "2025-03-01" ""));
   reqBuild (exampleBuild "A") true (Some ("vasp1", "2025"));
   reqTransmit (openGates 0) (openGates 0) (openGates 0) true (Some "carf-A");
   reqCorrect (exampleBuild "B") true true "carf-A" "restated fair values"].
Definition exampleService : Service := @carfRun Toy.crypto offlinePacks None exampleOps.

Theorem carf_registry_durable_witness :
  NewCARFStore (carfLog (carf exampleService)) = carf exampleService.
Proof.
  refine (proj1 (@carf_registry_durable Toy.crypto offlinePacks None exampleOps _)).
  repeat constructor.
Defined.

Theorem carf_transmitted_valid_witness :
  exists r, r ∈ carfLog (carf exampleService) /\ rec_Status r = "transmitted" /\ Validation r = [].
Proof.
  assert (E : exists r, carfLog (carf exampleService) !! 1%nat = Some r /\ rec_Status r = "transmitted").
  { eexists. split; [vm_compute; reflexivity|]. reflexivity. }
  destruct E as (r & Hin & Hst). exists r. pose proof (list_elem_of_lookup_2 _ _ _ Hin) as Hr.
  split; [done|]. split; [done|].
  exact (@carf_transmitted_valid Toy.crypto offlinePacks None exampleOps r (or_introl Hr) Hst).
Defined.

Theorem carf_transmit_ignores_status_witness :
  exists r, GetRecord "carf-A" (carf exampleService) = Some r /\ rec_Status r = "superseded" /\
  rec_Status <$> GetRecord "carf-A" (carf (handleCARFTransmit (openGates 1) (openGates 1) (openGates 1) true
    (Some "carf-A") exampleService).1) = Some "transmitted".
Proof.
  assert (E : exists r, GetRecord "carf-A" (carf exampleService) = Some r /\ rec_Status r = "superseded" /\ Validation r = []).
  { eexists. split; [vm_compute; reflexivity|]. done. }
  destruct E as (r & Hr & Hst & Hv). exists r. split; [done|]. split; [done|].
  assert (Hd : durable (carf exampleService)).
  { unfold exampleService. apply durable_run. repeat constructor. }
  pose proof (carf_transmit_ignores_status (openGates 1) (openGates 1) (openGates 1) "carf-A" r exampleService Hd Hr) as Ht.
  assert (Hg : (bothGates (openGates 1) (openGates 1) (openGates 1) (gates exampleService)).2 = true)
    by (vm_compute; reflexivity).
  destruct (handleCARFTransmit (openGates 1) (openGates 1) (openGates 1) true (Some "carf-A") exampleService) as [s' resp].
  exact (proj1 (proj1 Ht Hg Hv)).
Defined.
