(* ===== verification/CaseStore.v ===== *)
(** * case-mgmt: the store and the relation checker
    (services/case-mgmt/store.go, services/case-mgmt/permify.go)

    Matters, documents and deadlines, kept in memory and in an append-only
    log; the file-backed relation checker of development; the client of the
    Permify check API, with its retry.  The log is open and its writes succeed,
    as do those of the relations file.  The write-through copy to Postgres is
    left out; loading from it at startup is modelled.  The lines of the log are
    within the megabyte that the scanner of the replay reads.  Listings go
    through a Go map, in the order [ids]. *)

From S2P Require Import Prelude Crypto.

Record Matter := mkMatter {
  m_ID : string;
  m_TenantID : string;
  Ref : string;
  m_Title : string;
  ClientID : string;
  ClientName : string;
  PracticeArea : string;
  m_Status : string;
  Counsel : list string;
  OpenedAt : string;
  ClosedAt : string;
  Notes : string;
}.

Record Document := mkDocument {
  d_ID : string;
  d_MatterID : string;
  d_Name : string;
  MimeType : string;
  SizeBytes : Z;
  SHA256 : string;
  Privileged : bool;
  UploadedBy : string;
  UploadedAt : string;
}.

Record Deadline := mkDeadline {
  dl_ID : string;
  dl_MatterID : string;
  dl_Title : string;
  DueAt : string;
  Severity : string;
  dl_Status : string;
  Escalated : bool;
  dl_CreatedAt : string;
}.

(** A line of the log, or a row of the Postgres collection of that kind *)
Inductive caseRec :=
| recMatter (m : Matter)
| recDoc (d : Document)
| recDeadline (dl : Deadline).

Record Store := mkStore {
  matters : gmap string Matter;
  docs : gmap string Document;
  deadlines : gmap string Deadline;
  seq_ : Z;
  blobs : gmap string string;
  caseLog : list caseRec;
}.

(** [set] for one kind, on the memory only *)
Definition set_matter (m : Matter) (st : Store) : Store :=
  mkStore (<[m_ID m := m]> (matters st)) (docs st) (deadlines st) (seq_ st) (blobs st) (caseLog st).
Definition set_doc (d : Document) (st : Store) : Store :=
  mkStore (matters st) (<[d_ID d := d]> (docs st)) (deadlines st) (seq_ st) (blobs st) (caseLog st).
Definition set_deadline (dl : Deadline) (st : Store) : Store :=
  mkStore (matters st) (docs st) (<[dl_ID dl := dl]> (deadlines st)) (seq_ st) (blobs st) (caseLog st).
Definition appendLog (r : caseRec) (st : Store) : Store :=
  mkStore (matters st) (docs st) (deadlines st) (seq_ st) (blobs st) (caseLog st ++ [r]).
Definition set_blob (id content : string) (st : Store) : Store :=
  mkStore (matters st) (docs st) (deadlines st) (seq_ st) (<[id := content]> (blobs st)) (caseLog st).

(** *** Startup *)

Definition replayRec (st : Store) (r : caseRec) : Store :=
  match r with
  | recMatter m => set_matter m st
  | recDoc d => set_doc d st
  | recDeadline dl => set_deadline dl st
  end.

(** On a directory with this log and these blobs *)
Definition NewStore (l : list caseRec) (b : gmap string string) : Store :=
  foldl replayRec (mkStore ∅ ∅ ∅ 0 b l) l.
Definition restart (st : Store) : Store := NewStore (caseLog st) (blobs st).

(** Rows of Postgres fill in what the log does not have. *)
Definition indexPG (st : Store) (r : caseRec) : Store :=
  match r with
  | recMatter m => match matters st !! m_ID m with Some _ => st | None => set_matter m st end
  | recDoc d => match docs st !! d_ID d with Some _ => st | None => set_doc d st end
  | recDeadline dl => match deadlines st !! dl_ID dl with Some _ => st | None => set_deadline dl st end
  end.
Definition AttachPG (rows : list caseRec) (st : Store) : Store := foldl indexPG st rows.

(** *** Operations *)

(** [fmt.Sprintf("%04d", n)] for a positive [n] *)
Definition pad4 (n : Z) : string :=
  let s := pretty n in Str.join "" (replicate (4 - String.length s) "0") +:+ s.

(** [year]: the current year *)
Definition nextRef (year : Z) (st : Store) : Store * string :=
  let n := seq_ st + 1 in
  (mkStore (matters st) (docs st) (deadlines st) n (blobs st) (caseLog st),
   "MTR-" +:+ pretty year +:+ "-" +:+ pad4 n).

Definition PutMatter (m : Matter) (st : Store) : Store := appendLog (recMatter m) (set_matter m st).
Definition GetMatter (id : string) (st : Store) : option Matter := matters st !! id.

Definition matches (want have : string) : bool := bool_decide (want = "") || bool_decide (have = want).

Definition newest_first (a b : Matter) : Prop := String.leb (OpenedAt b) (OpenedAt a) = true.
#[export] Instance newest_first_dec a b : Decision (newest_first a b).
Proof. unfold newest_first. apply _. Defined.

Definition ListMatters (ids : list string) (tenant status client : string) (st : Store) : list Matter :=
  merge_sort newest_first
    (List.filter (fun m => matches tenant (m_TenantID m) && matches status (m_Status m) && matches client (ClientID m))
       (omap (fun id => matters st !! id) ids)).

(** The blob is written first; [None] when that fails. *)
Definition PutDocument (written : bool) (d : Document) (content : string) (st : Store) : option Store :=
  if written then Some (appendLog (recDoc d) (set_doc d (set_blob (d_ID d) content st))) else None.

(** The content is empty when the blob cannot be read. *)
Definition GetDocument (id : string) (st : Store) : option (Document * string) :=
  d ← docs st !! id; Some (d, default "" (blobs st !! id)).

Definition latest_upload (a b : Document) : Prop := String.leb (UploadedAt b) (UploadedAt a) = true.
#[export] Instance latest_upload_dec a b : Decision (latest_upload a b).
Proof. unfold latest_upload. apply _. Defined.

Definition ListDocuments (ids : list string) (matterID : string) (includePrivileged : bool) (st : Store) : list Document :=
  merge_sort latest_upload
    (List.filter (fun d => bool_decide (d_MatterID d = matterID) && (negb (Privileged d) || includePrivileged))
       (omap (fun id => docs st !! id) ids)).

Definition PutDeadline (dl : Deadline) (st : Store) : Store := appendLog (recDeadline dl) (set_deadline dl st).
Definition GetDeadline (id : string) (st : Store) : option Deadline := deadlines st !! id.

Definition soonest (a b : Deadline) : Prop := String.leb (DueAt a) (DueAt b) = true.
#[export] Instance soonest_dec a b : Decision (soonest a b).
Proof. unfold soonest. apply _. Defined.

Definition ListDeadlines (ids : list string) (matterID status dueBefore : string) (st : Store) : list Deadline :=
  merge_sort soonest
    (List.filter (fun dl => matches matterID (dl_MatterID dl) && matches status (dl_Status dl) &&
                            (bool_decide (dueBefore = "") || String.leb (DueAt dl) dueBefore))
       (omap (fun id => deadlines st !! id) ids)).

(** ** The relation checker *)

Record RelationTuple := mkTuple { Entity : string; Relation : string; Subject : string }.
#[export] Instance RelationTuple_eq_dec : EqDecision RelationTuple.
Proof. solve_decision. Defined.

(** The tuples in memory; CaseFiles.v has the file behind them. *)
Abbreviation Tuples := (list RelationTuple).

Definition Grant (t : RelationTuple) (ts : Tuples) : Tuples :=
  if bool_decide (t ∈ ts) then ts else ts ++ [t].

Definition Revoke (entity relation subject : string) (ts : Tuples) : Tuples :=
  List.filter (fun e => negb (bool_decide (Entity e = entity) && bool_decide (Relation e = relation) &&
                              bool_decide (Subject e = subject))) ts.

Definition hasTuple (ts : Tuples) (ent rel sub : string) : bool := bool_decide (mkTuple ent rel sub ∈ ts).

Definition matterRead (ts : Tuples) (entity subject : string) : bool :=
  hasTuple ts entity "client" subject || hasTuple ts entity "counsel" subject.

(** [None] is the run-time panic of [parts\[1\]] on the entity ["doc"]. *)
Definition Check (entity permission subject : string) (ts : Tuples) (st : Store) : option bool :=
  let '(kind, id) := match Str.cut ":"%char entity with Some (k, i) => (k, Some i) | None => (entity, None) end in
  if bool_decide (kind = "matter") && bool_decide (permission = "read") then Some (matterRead ts entity subject)
  else if bool_decide (kind = "matter") && bool_decide (permission = "write")
  then Some (hasTuple ts entity "counsel" subject)
  else if bool_decide (kind = "doc") && bool_decide (permission = "read") then
    match id with
    | None => None
    | Some docID =>
        match docs st !! docID with
        | None => Some false
        | Some d =>
            if negb (Privileged d) then Some (matterRead ts ("matter:" +:+ d_MatterID d) subject)
            else Some (hasTuple ts ("doc:" +:+ docID) "privileged" subject ||
                       hasTuple ts ("matter:" +:+ d_MatterID d) "counsel" subject)
        end
    end
  else Some false.

(** ** The Permify client *)

(** One answer to an HTTP request: none at all, or a status and the decision
    of the body ([None]: it does not decode; [allowed] may be absent) *)
Inductive permAnswer :=
| transportError
| answered (code : Z) (body : option (option bool * string)).

Definition splitPermifyRef (s : string) : option (string * string) :=
  match Str.cut ":"%char s with
  | Some (t, i) => if bool_decide (t = "") || bool_decide (i = "") then None else Some (t, i)
  | None => None
  end.

(** [do]: the decision, or an error that may be retried *)
Definition permDo (a : permAnswer) : result bool bool :=
  match a with
  | transportError => Err false
  | answered code body =>
      if 500 <=? code then Err true
      else if negb (code =? 200) then Err false
      else match body with
           | None => Err false
           | Some (Some allowed, _) => Ok allowed
           | Some (None, can) => Ok (bool_decide (can = "RESULT_ALLOWED"))
           end
  end.

(** The loop over at most [n] attempts; [answers] are those the server gives. *)
Fixpoint permAttempts (n : nat) (answers : list permAnswer) : option bool :=
  match n with
  | O => None
  | S n =>
      match permDo (default transportError (head answers)) with
      | Ok allowed => Some allowed
      | Err retryable => if retryable then permAttempts n (tail answers) else None
      end
  end.

(** [None] is an error *)
Definition PermCheck (answers : list permAnswer) (entity permission subject : string) : option bool :=
  match splitPermifyRef entity, splitPermifyRef subject with
  | Some _, Some _ => permAttempts 2 answers
  | _, _ => None
  end.

(** What a data request came back with; [None]: no answer *)
Definition postData (code : option Z) : bool :=
  match code with Some c => (200 <=? c) && (c <? 300) | None => false end.

Definition WriteRelationship (code : option Z) (entity relation subject : string) : bool :=
  match splitPermifyRef entity, splitPermifyRef subject with
  | Some _, Some _ => postData code
  | _, _ => false
  end.
Definition DeleteRelationship (code : option Z) (entity relation subject : string) : bool :=
  WriteRelationship code entity relation subject.

(** [wirePermify]: whether the service starts, and with the live client *)
Definition wirePermify (url profile authMode : string) : option bool :=
  if negb (bool_decide (url = "")) then Some true
  else if bool_decide (profile = "prod") || bool_decide (authMode = "keycloak") then None
  else Some false.
