(* ===== verification/CaseHandlers.v ===== *)
(** * case-mgmt: handlers, deadline watch and workflows
    (services/case-mgmt/handlers.go, workflows.go, integrations.go)

    Every handler of the service as a function of the caller (the role and the
    subject that [Auth.caseAuth] established), of what the request draws from
    outside ([CaseEnv]) and of the state.  Relation checks go to the live
    Permify server when there is one, else to the file-backed checker.
    Notifications and evidence are recorded in the state. *)

From S2P Require Import Prelude Crypto GoTime CaseStore.

Record Caller := mkCaller { role : string; subject : string }.

(** Identifier, clock, answers of Permify to the checks of this request, and
    the orders in which the Go maps are walked *)
Record CaseEnv := mkCaseEnv {
  freshID : string;
  nowText : string;
  nowTime : Z;
  year : Z;
  permAnswers : string -> string -> string -> list permAnswer;
  matterIDs : list string;
  docIDs : list string;
  deadlineIDs : list string;
}.

Record Notice := mkNotice { n_to : string; n_subject : string; n_body : string }.

(** [worm]: the local evidence store, by digest; [live]: Permify is wired;
    [permWrites]: the tuples written to Permify *)
Record Service := mkService {
  store : Store;
  rel : Tuples;
  live : bool;
  permWrites : list RelationTuple;
  worm : gmap string string;
  notices : list Notice;
}.

Definition with_store st s := mkService st (rel s) (live s) (permWrites s) (worm s) (notices s).
Definition with_rel r s := mkService (store s) r (live s) (permWrites s) (worm s) (notices s).
Definition with_writes l s := mkService (store s) (rel s) (live s) l (worm s) (notices s).
Definition with_worm w s := mkService (store s) (rel s) (live s) (permWrites s) w (notices s).
Definition send (n : Notice) s := mkService (store s) (rel s) (live s) (permWrites s) (worm s) (notices s ++ [n]).
Definition grant (t : RelationTuple) s := with_rel (Grant t (rel s)) s.

Definition isAdmin (c : Caller) : bool := bool_decide (role c = "admin").

(** ** Relation checks: an error of Permify denies *)

Definition checkRelRaw (env : CaseEnv) (s : Service) (entity permission subj : string) : option bool :=
  if live s then Some (default false (PermCheck (permAnswers env entity permission subj) entity permission subj))
  else Check entity permission subj (rel s) (store s).

(** On entities with a colon there is no panic ([checkRel_raw]). *)
Definition checkRel (env : CaseEnv) (s : Service) (entity permission subj : string) : bool :=
  default false (checkRelRaw env s entity permission subj).

Definition matterEntity (id : string) : string := "matter:" +:+ id.
Definition docEntity (id : string) : string := "doc:" +:+ id.

Definition canReadMatter (env : CaseEnv) (c : Caller) (id : string) (s : Service) : bool :=
  isAdmin c || bool_decide (role c = "auditor") || checkRel env s (matterEntity id) "read" (subject c).

(** The guard [roleOf(r) == "admin" || checkRel(..., "write", ...)] *)
Definition canWriteMatter (env : CaseEnv) (c : Caller) (id : string) (s : Service) : bool :=
  isAdmin c || checkRel env s (matterEntity id) "write" (subject c).

(** ** Matters *)

Definition handleCreateMatter (env : CaseEnv) (c : Caller) (req : option Matter) (s : Service)
  : Service * response Matter :=
  match req with
  | None => (s, Problem 400 "bad request")
  | Some m =>
      if bool_decide (m_Title m = "") || bool_decide (ClientID m = "") then (s, Problem 422 "validation failed")
      else
        let '(st, ref) := if bool_decide (Ref m = "") then nextRef (year env) (store s) else (store s, Ref m) in
        let m := mkMatter ("mtr-" +:+ freshID env) (m_TenantID m) ref (m_Title m) (ClientID m) (ClientName m)
                   (Str.or_default (PracticeArea m) "advisory") (Str.or_default (m_Status m) "intake")
                   (Counsel m) (nowText env) (ClosedAt m) (Notes m) in
        let s := with_store (PutMatter m st) s in
        let s := grant (mkTuple (matterEntity (m_ID m)) "client" ("user:" +:+ ClientID m)) s in
        let s := grant (mkTuple (matterEntity (m_ID m)) "counsel" (subject c)) s in
        let s := foldl (fun s u => grant (mkTuple (matterEntity (m_ID m)) "counsel" ("user:" +:+ u)) s) s (Counsel m) in
        (s, JSON 201 m)
  end.

Definition handleListMatters (env : CaseEnv) (tenant status client : string) (s : Service) : response (list Matter) :=
  JSON 200 (ListMatters (matterIDs env) tenant status client (store s)).

Definition handleGetMatter (env : CaseEnv) (c : Caller) (id : string) (s : Service) : response Matter :=
  match GetMatter id (store s) with
  | None => Problem 404 "not found"
  | Some m => if negb (canReadMatter env c (m_ID m) s) then Problem 403 "forbidden" else JSON 200 m
  end.

Record MatterPatch := mkPatch {
  p_Title : option string;
  p_Status : option string;
  p_Notes : option string;
  p_Counsel : option (list string);
}.

Definition validStatus (st : string) : bool := bool_decide (st ∈ ["intake"; "active"; "on-hold"; "closed"]).

(** The fields assigned before the status is looked at *)
Definition patch_texts (p : MatterPatch) (m : Matter) : Matter :=
  mkMatter (m_ID m) (m_TenantID m) (Ref m) (default (m_Title m) (p_Title p)) (ClientID m) (ClientName m)
    (PracticeArea m) (m_Status m) (Counsel m) (OpenedAt m) (ClosedAt m) (default (Notes m) (p_Notes p)).

Definition patch_status (now st : string) (m : Matter) : Matter :=
  mkMatter (m_ID m) (m_TenantID m) (Ref m) (m_Title m) (ClientID m) (ClientName m) (PracticeArea m) st (Counsel m)
    (OpenedAt m)
    (if bool_decide (st = "closed") && bool_decide (ClosedAt m = "") then now else ClosedAt m) (Notes m).

Definition patch_counsel (cs : list string) (m : Matter) : Matter :=
  mkMatter (m_ID m) (m_TenantID m) (Ref m) (m_Title m) (ClientID m) (ClientName m) (PracticeArea m) (m_Status m) cs
    (OpenedAt m) (ClosedAt m) (Notes m).

(** The matter is the one in memory: what is assigned to it before a refusal
    stays, unlogged. *)
Definition handleUpdateMatter (env : CaseEnv) (c : Caller) (id : string) (req : option MatterPatch) (s : Service)
  : Service * response Matter :=
  match GetMatter id (store s) with
  | None => (s, Problem 404 "not found")
  | Some m =>
      if negb (canWriteMatter env c (m_ID m) s) then (s, Problem 403 "forbidden")
      else match req with
           | None => (s, Problem 400 "bad request")
           | Some p =>
               let m := patch_texts p m in
               if match p_Status p with Some st => negb (validStatus st) | None => false end
               then (with_store (set_matter m (store s)) s, Problem 422 "validation failed")
               else
                 let m := match p_Status p with Some st => patch_status (nowText env) st m | None => m end in
                 let '(m, s) :=
                   match p_Counsel p with
                   | Some cs =>
                       (patch_counsel cs m,
                        foldl (fun s u => grant (mkTuple (matterEntity (m_ID m)) "counsel" ("user:" +:+ u)) s) s cs)
                   | None => (m, s)
                   end in
                 (with_store (PutMatter m (store s)) s, JSON 200 m)
           end
  end.

(** ** Documents *)

Inductive uploadReq :=
| badMultipart
| noFile
| badRead
| badJSON
| multipart (name privileged filename mime content : string)
| jsonUpload (name mime : string) (privileged : bool) (content : string).

Section Documents.
Context `{Crypto}.

(** Name, type, privilege and content of the upload, or the refusal *)
Definition uploadFields (req : uploadReq) : result (Z * string) (string * string * bool * string) :=
  match req with
  | badMultipart => Err (400, "bad multipart")
  | noFile => Err (422, "file required")
  | badRead => Err (400, "read failed")
  | badJSON => Err (400, "bad request")
  | multipart name privileged filename mime content =>
      Ok (Str.or_default name filename, mime, bool_decide (privileged = "true"), content)
  | jsonUpload name mime privileged content => Ok (name, mime, privileged, content)
  end.

Definition handleUploadDoc (env : CaseEnv) (c : Caller) (written : bool) (id : string) (req : uploadReq) (s : Service)
  : Service * response Document :=
  match GetMatter id (store s) with
  | None => (s, Problem 404 "not found")
  | Some m =>
      if negb (canWriteMatter env c (m_ID m) s) then (s, Problem 403 "forbidden")
      else match uploadFields req with
           | Err (code, title) => (s, Problem code title)
           | Ok (name, mime, privileged, content) =>
               if bool_decide (name = "") || bool_decide (content = "") then (s, Problem 422 "validation failed")
               else
                 let d := mkDocument ("doc-" +:+ freshID env) (m_ID m) name
                            (Str.or_default mime "application/octet-stream") (Str.len content)
                            (hex (sha256 content)) privileged (subject c) (nowText env) in
                 match PutDocument written d content (store s) with
                 | None => (s, Problem 500 "store failed")
                 | Some st =>
                     let s := with_store st s in
                     let s := if privileged then grant (mkTuple (docEntity (d_ID d)) "privileged" (subject c)) s else s in
                     (s, JSON 201 d)
                 end
           end
  end.

Definition handleListDocs (env : CaseEnv) (c : Caller) (id : string) (s : Service)
  : response (list Document * bool) :=
  match GetMatter id (store s) with
  | None => Problem 404 "not found"
  | Some m =>
      if negb (canReadMatter env c (m_ID m) s) then Problem 403 "forbidden"
      else
        let isCounsel := canWriteMatter env c (m_ID m) s in
        JSON 200 (ListDocuments (docIDs env) (m_ID m) isCounsel (store s), isCounsel)
  end.

Definition canReadDoc (env : CaseEnv) (c : Caller) (id : string) (s : Service) : bool :=
  isAdmin c || checkRel env s (docEntity id) "read" (subject c).

Definition handleGetDoc (env : CaseEnv) (c : Caller) (id : string) (s : Service) : response Document :=
  match GetDocument id (store s) with
  | None => Problem 404 "not found"
  | Some (d, _) => if negb (canReadDoc env c (d_ID d) s) then Problem 403 "forbidden" else JSON 200 d
  end.

(** The body with its type and digest headers *)
Definition handleGetDocContent (env : CaseEnv) (c : Caller) (id : string) (s : Service)
  : response (string * string * string) :=
  match GetDocument id (store s) with
  | None => Problem 404 "not found"
  | Some (d, content) =>
      if negb (canReadDoc env c (d_ID d) s) then Problem 403 "forbidden"
      else JSON 200 (MimeType d, SHA256 d, content)
  end.

(** ** Deadlines *)

Definition handleCreateDeadline (env : CaseEnv) (c : Caller) (id : string) (req : option Deadline) (s : Service)
  : Service * response Deadline :=
  match GetMatter id (store s) with
  | None => (s, Problem 404 "not found")
  | Some m =>
      if negb (canWriteMatter env c (m_ID m) s) then (s, Problem 403 "forbidden")
      else match req with
           | None => (s, Problem 400 "bad request")
           | Some dl =>
               if bool_decide (dl_Title dl = "") || bool_decide (DueAt dl = "") then (s, Problem 422 "validation failed")
               else match parse (DueAt dl) with
                    | None => (s, Problem 422 "validation failed")
                    | Some _ =>
                        let dl := mkDeadline ("dl-" +:+ freshID env) (m_ID m) (dl_Title dl) (DueAt dl)
                                    (Str.or_default (Severity dl) "info") "open" (Escalated dl) (nowText env) in
                        (with_store (PutDeadline dl (store s)) s, JSON 201 dl)
                    end
           end
  end.

Definition handleListDeadlines (env : CaseEnv) (matterID status dueBefore : string) (s : Service)
  : response (list Deadline) :=
  JSON 200 (ListDeadlines (deadlineIDs env) matterID status dueBefore (store s)).

Definition set_dl_status (st : string) (dl : Deadline) : Deadline :=
  mkDeadline (dl_ID dl) (dl_MatterID dl) (dl_Title dl) (DueAt dl) (Severity dl) st (Escalated dl) (dl_CreatedAt dl).
Definition set_due (due : string) (dl : Deadline) : Deadline :=
  mkDeadline (dl_ID dl) (dl_MatterID dl) (dl_Title dl) due (Severity dl) (dl_Status dl) (Escalated dl) (dl_CreatedAt dl).

Definition validDeadlineStatus (st : string) : bool :=
  bool_decide (st ∈ ["open"; "met"; "missed"; "escalated"]).

(** A deadline without its matter is not guarded; a status assigned before the
    due time is refused stays in memory. *)
Definition handleUpdateDeadline (env : CaseEnv) (c : Caller) (id : string)
    (req : option (option string * option string)) (s : Service) : Service * response Deadline :=
  match GetDeadline id (store s) with
  | None => (s, Problem 404 "not found")
  | Some dl =>
      let refused := match GetMatter (dl_MatterID dl) (store s) with
                     | Some m => negb (canWriteMatter env c (m_ID m) s)
                     | None => false
                     end in
      if refused then (s, Problem 403 "forbidden")
      else match req with
           | None => (s, Problem 400 "bad request")
           | Some (st, due) =>
               if match st with Some x => negb (validDeadlineStatus x) | None => false end
               then (s, Problem 422 "validation failed")
               else
                 let dl := match st with Some x => set_dl_status x dl | None => dl end in
                 if match due with Some x => match parse x with None => true | Some _ => false end | None => false end
                 then (with_store (set_deadline dl (store s)) s, Problem 422 "validation failed")
                 else
                   let dl := match due with Some x => set_due x dl | None => dl end in
                   (with_store (PutDeadline dl (store s)) s, JSON 200 dl)
           end
  end.

(** ** Client portal *)

Definition portalSubject (c : Caller) : string := Str.trim_prefix (subject c) "user:".

Definition handlePortalMatters (env : CaseEnv) (c : Caller) (s : Service) : response (list Matter) :=
  JSON 200 (List.filter (fun m => bool_decide (ClientID m = portalSubject c) ||
                                  checkRel env s (matterEntity (m_ID m)) "read" (subject c))
              (ListMatters (matterIDs env) "" "" "" (store s))).

Definition handlePortalMatter (env : CaseEnv) (c : Caller) (id : string) (s : Service)
  : response (Matter * list Document * list Deadline) :=
  match GetMatter id (store s) with
  | None => Problem 404 "not found"
  | Some m =>
      if negb (bool_decide (ClientID m = portalSubject c)) &&
         negb (checkRel env s (matterEntity (m_ID m)) "read" (subject c)) && negb (isAdmin c)
      then Problem 403 "forbidden"
      else JSON 200 (m, ListDocuments (docIDs env) (m_ID m) false (store s),
                     ListDeadlines (deadlineIDs env) (m_ID m) "open" "" (store s))
  end.

(** ** Relations *)

Definition handleRelCheck (env : CaseEnv) (req : option (string * string * string)) (s : Service)
  : response (bool * string) :=
  match req with
  | None => Problem 400 "bad request"
  | Some (entity, permission, subj) =>
      match checkRelRaw env s entity permission subj with
      | None => Problem 500 "internal error"
      | Some allowed => JSON 200 (allowed, if live s then "permify-live" else "dev-file-backed")
      end
  end.

(** [tuples]: what Permify lists, [None] when the read fails *)
Definition handleRelList (tuples : option (list RelationTuple)) (s : Service) : response (list RelationTuple) :=
  if live s then match tuples with Some l => JSON 200 l | None => Problem 502 "bad gateway" end
  else JSON 200 (rel s).

Definition grantableRelations (etyp : string) : option (list string) :=
  if bool_decide (etyp = "matter") then Some ["counsel"; "client"; "supervising_partner"]
  else if bool_decide (etyp = "doc") then Some ["matter"; "owner"]
  else None.

Definition validateRelationTuple (t : RelationTuple) : bool :=
  match splitPermifyRef (Entity t), splitPermifyRef (Subject t) with
  | Some (etyp, _), Some _ =>
      match grantableRelations etyp with
      | Some rels => bool_decide (Relation t ∈ rels)
      | None => false
      end
  | _, _ => false
  end.

(** [code]: the answer of Permify to the write *)
Definition handleRelGrant (c : Caller) (code : option Z) (req : option RelationTuple) (s : Service)
  : Service * response RelationTuple :=
  if negb (isAdmin c) then (s, Problem 403 "forbidden")
  else match req with
       | None => (s, Problem 400 "bad request")
       | Some t =>
           if negb (validateRelationTuple t) then (s, Problem 400 "bad request")
           else if live s then
             if WriteRelationship code (Entity t) (Relation t) (Subject t)
             then (with_writes (permWrites s ++ [t]) s, JSON 201 t)
             else (s, Problem 502 "bad gateway")
           else (grant t s, JSON 201 t)
       end.

Definition handleRelRevoke (c : Caller) (code : option Z) (req : option RelationTuple) (s : Service)
  : Service * response string :=
  if negb (isAdmin c) then (s, Problem 403 "forbidden")
  else match req with
       | None => (s, Problem 400 "bad request")
       | Some t =>
           if negb (validateRelationTuple t) then (s, Problem 400 "bad request")
           else if live s then
             if DeleteRelationship code (Entity t) (Relation t) (Subject t) then (s, JSON 200 "revoked")
             else (s, Problem 502 "bad gateway")
           else (with_rel (Revoke (Entity t) (Relation t) (Subject t) (rel s)) s, JSON 200 "revoked")
       end.

(** ** Evidence *)

Record EvidencePack := mkPack {
  pack_id : string;
  assembled_at : string;
  assembled_by : string;
  e_matter : Matter;
  e_deadlines : list Deadline;
  e_documents : list Document;
  e_relations : list RelationTuple;
}.

Record EvidenceReceipt := mkReceipt { ev_ID : string; ev_SHA256 : string; WORMURI : string }.

(** [LocalWORM.Store]: content-addressed, never overwritten; [written] says
    whether the directory and the file can be written. *)
Definition wormStore (written : bool) (payload : string) (w : gmap string string)
  : gmap string string * option EvidenceReceipt :=
  let hexsum := hex (sha256 payload) in
  let receipt := mkReceipt ("ev-" +:+ Str.take 16 hexsum) hexsum ("worm://local/" +:+ hexsum) in
  match w !! hexsum with
  | Some _ => (w, Some receipt)
  | None => if written then (<[hexsum := payload]> w, Some receipt) else (w, None)
  end.

(** [render]: the JSON text of a pack *)
Definition handleEvidencePack (render : EvidencePack -> string) (env : CaseEnv) (c : Caller) (written : bool)
    (id : string) (s : Service) : Service * response (EvidencePack * EvidenceReceipt) :=
  match GetMatter id (store s) with
  | None => (s, Problem 404 "not found")
  | Some m =>
      if negb (canWriteMatter env c (m_ID m) s) then (s, Problem 403 "forbidden")
      else
        let pack := mkPack ("evp-" +:+ freshID env) (nowText env) (subject c) m
                      (ListDeadlines (deadlineIDs env) (m_ID m) "" "" (store s))
                      (ListDocuments (docIDs env) (m_ID m) true (store s))
                      (List.filter (fun t => Str.has_suffix (Entity t) (":" +:+ m_ID m)) (rel s)) in
        let '(w, receipt) := wormStore written (render pack) (worm s) in
        match receipt with
        | None => (s, Problem 502 "WORM store failed")
        | Some r => (with_worm w s, JSON 201 (pack, r))
        end
  end.
End Documents.

(** ** The deadline watch *)

Definition seventyTwoHours : Z := 72 * hour.

Definition missedNotice (to : string) (dl : Deadline) : Notice :=
  mkNotice to ("DEADLINE MISSED: " +:+ dl_Title dl)
    ("Deadline " +:+ dl_ID dl +:+ " on matter " +:+ dl_MatterID dl +:+ " was due " +:+ DueAt dl +:+
     " and is now missed. Escalated to registry.").

Definition approachingNotice (to : string) (dl : Deadline) : Notice :=
  mkNotice to ("Deadline approaching: " +:+ dl_Title dl)
    ("Deadline " +:+ dl_ID dl +:+ " on matter " +:+ dl_MatterID dl +:+ " is due " +:+ DueAt dl +:+ " (<72h).").

Definition mark_missed (dl : Deadline) : Deadline :=
  if Escalated dl then set_dl_status "missed" dl
  else mkDeadline (dl_ID dl) (dl_MatterID dl) (dl_Title dl) (DueAt dl) (Severity dl) "escalated" true (dl_CreatedAt dl).

Definition mark_warning (dl : Deadline) : Deadline :=
  mkDeadline (dl_ID dl) (dl_MatterID dl) (dl_Title dl) (DueAt dl) "warning" (dl_Status dl) (Escalated dl) (dl_CreatedAt dl).

Definition scanOne (now : Z) (s : Service) (dl : Deadline) : Service :=
  match parse (DueAt dl) with
  | None => s
  | Some due =>
      let m := GetMatter (dl_MatterID dl) (store s) in
      if due <? now then
        let s := if Escalated dl then s
                 else send (missedNotice (match m with Some m => ClientID m | None => "registry" end) dl) s in
        with_store (PutDeadline (mark_missed dl) (store s)) s
      else if String.leb (DueAt dl) (format (now + seventyTwoHours)) then
        let s := send (approachingNotice
                   (match m with Some m => default "counsel" (head (Counsel m)) | None => "counsel" end) dl) s in
        if bool_decide (Severity dl = "info") then with_store (PutDeadline (mark_warning dl) (store s)) s else s
      else s
  end.

Definition scanDeadlines (env : CaseEnv) (s : Service) : Service :=
  foldl (scanOne (nowTime env)) s (ListDeadlines (deadlineIDs env) "" "open" "" (store s)).

(** ** Workflows: none of the activities fails, so each runs once *)

Inductive runResult :=
| intakeResult (seeded : Z)
| lifecycleResult (counts : gmap string Z)
| deadlinesResult (open escalated : Z).

Definition count_status (counts : gmap string Z) (m : Matter) : gmap string Z :=
  <[m_Status m := default 0 (counts !! m_Status m) + 1]> counts.

(** The result of the last step *)
Definition handleWorkflowRun (env : CaseEnv) (name : string) (s : Service) : Service * response runResult :=
  if bool_decide (name = "wf-case-intake") then (s, JSON 200 (intakeResult (Z.of_nat (length (rel s)))))
  else if bool_decide (name = "wf-case-lifecycle") then
    (s, JSON 200 (lifecycleResult (foldl count_status ∅ (ListMatters (matterIDs env) "" "" "" (store s)))))
  else if bool_decide (name = "wf-case-deadlines") then
    let s := scanDeadlines env s in
    (s, JSON 200 (deadlinesResult (Z.of_nat (length (ListDeadlines (deadlineIDs env) "" "open" "" (store s))))
                    (Z.of_nat (length (ListDeadlines (deadlineIDs env) "" "escalated" "" (store s))))))
  else (s, Problem 404 "unknown workflow").
