(* ===== verification/CaseProps.v ===== *)
(** * case-mgmt: access, confidentiality, deadlines and durability

    The operations of the service composed as steps by any caller, and what
    they keep: a caller without a counsel relation changes nothing of a matter
    but by running the deadline watch, privileged documents stay with counsel,
    the watch leaves nothing overdue open, and the log holds the store.  The
    first two are about the file-backed checker of relations; of the live one
    [permify_fails_closed] says when it grants. *)

From S2P Require Import Prelude Crypto GoTime CaseStore CaseHandlers.

(** ** The service as a transition system *)

(** What a request that may change state says *)
Inductive caseOp :=
| opCreateMatter (req : option Matter)
| opUpdateMatter (id : string) (req : option MatterPatch)
| opUpload (written : bool) (id : string) (req : uploadReq)
| opCreateDeadline (id : string) (req : option Deadline)
| opUpdateDeadline (id : string) (req : option (option string * option string))
| opGrant (code : option Z) (req : option RelationTuple)
| opRevoke (code : option Z) (req : option RelationTuple)
| opEvidence (written : bool) (id : string)
| opWorkflow (name : string).

Section Props.
Context `{Crypto} (render : EvidencePack -> string).

Definition caseStep (env : CaseEnv) (c : Caller) (op : caseOp) (s : Service) : Service :=
  match op with
  | opCreateMatter req => (handleCreateMatter env c req s).1
  | opUpdateMatter id req => (handleUpdateMatter env c id req s).1
  | opUpload written id req => (handleUploadDoc env c written id req s).1
  | opCreateDeadline id req => (handleCreateDeadline env c id req s).1
  | opUpdateDeadline id req => (handleUpdateDeadline env c id req s).1
  | opGrant code req => (handleRelGrant c code req s).1
  | opRevoke code req => (handleRelRevoke c code req s).1
  | opEvidence written id => (handleEvidencePack render env c written id s).1
  | opWorkflow name => (handleWorkflowRun env name s).1
  end.

(** Records are kept under their own identifier. *)
Record keyed (st : Store) : Prop := {
  keyed_matters id m : matters st !! id = Some m -> m_ID m = id;
  keyed_docs id d : docs st !! id = Some d -> d_ID d = id;
  keyed_deadlines id dl : deadlines st !! id = Some dl -> dl_ID dl = id;
}.

(** The identifiers drawn by the request are new. *)
Record fresh (env : CaseEnv) (st : Store) : Prop := {
  fresh_matter : matters st !! ("mtr-" +:+ freshID env) = None;
  fresh_doc : docs st !! ("doc-" +:+ freshID env) = None;
  fresh_deadline : deadlines st !! ("dl-" +:+ freshID env) = None;
}.

(** ** What belongs to a matter *)

Definition docOf (mid : string) (s : Service) (id : string) : option (Document * option string) :=
  match docs (store s) !! id with
  | Some d => if bool_decide (d_MatterID d = mid) then Some (d, blobs (store s) !! id) else None
  | None => None
  end.

Definition deadlineOf (mid : string) (s : Service) (id : string) : option Deadline :=
  match deadlines (store s) !! id with
  | Some dl => if bool_decide (dl_MatterID dl = mid) then Some dl else None
  | None => None
  end.

Definition soon (now : Z) (dl : Deadline) : bool := String.leb (DueAt dl) (format (now + seventyTwoHours)).

(** What a scan makes of a deadline, and the notices it sends for an open one *)
Definition watched (now : Z) (dl : Deadline) : Deadline :=
  if bool_decide (dl_Status dl = "open") then
    match parse (DueAt dl) with
    | None => dl
    | Some due => if due <? now then mark_missed dl
                  else if soon now dl && bool_decide (Severity dl = "info") then mark_warning dl else dl
    end
  else dl.

Definition missedTo (ms : gmap string Matter) (dl : Deadline) : string :=
  match ms !! dl_MatterID dl with Some m => ClientID m | None => "registry" end.
Definition approachingTo (ms : gmap string Matter) (dl : Deadline) : string :=
  match ms !! dl_MatterID dl with Some m => default "counsel" (head (Counsel m)) | None => "counsel" end.

Definition noticesFor (now : Z) (ms : gmap string Matter) (dl : Deadline) : list Notice :=
  match parse (DueAt dl) with
  | None => []
  | Some due => if due <? now then if Escalated dl then [] else [missedNotice (missedTo ms dl) dl]
                else if soon now dl then [approachingNotice (approachingTo ms dl) dl] else []
  end.

(** The parts a scan leaves alone *)
Record scanFrame (s s' : Service) : Prop := {
  frame_matters : matters (store s') = matters (store s);
  frame_docs : docs (store s') = docs (store s);
  frame_blobs : blobs (store s') = blobs (store s);
  frame_rel : rel s' = rel s;
  frame_worm : worm s' = worm s;
}.

(** The record of the matter, its documents with their content, its deadlines,
    and the relations on it and on its documents *)
Record sameMatter (mid : string) (s s' : Service) : Prop := {
  same_matter : matters (store s') !! mid = matters (store s) !! mid;
  same_docs id : docOf mid s' id = docOf mid s id;
  same_deadlines id : deadlineOf mid s' id = deadlineOf mid s id;
  same_rel r u : hasTuple (rel s') (matterEntity mid) r u = hasTuple (rel s) (matterEntity mid) r u;
  same_docrel id r u : is_Some (docOf mid s id) ->
    hasTuple (rel s') (docEntity id) r u = hasTuple (rel s) (docEntity id) r u;
}.

#[export] Instance sameMatter_preorder mid : PreOrder (sameMatter mid).
Proof.
  split; [by split|]. intros s1 s2 s3 H1 H2. split.
  - by rewrite (same_matter _ _ _ H2), (same_matter _ _ _ H1).
  - intros id. by rewrite (same_docs _ _ _ H2), (same_docs _ _ _ H1).
  - intros id. by rewrite (same_deadlines _ _ _ H2), (same_deadlines _ _ _ H1).
  - intros r u. by rewrite (same_rel _ _ _ H2), (same_rel _ _ _ H1).
  - intros id r u Hd. rewrite (same_docrel _ _ _ H2), (same_docrel _ _ _ H1); [done..|].
    by rewrite (same_docs _ _ _ H1).
Qed.

(** Neither an administrator nor counsel on the matter; the file-backed
    checker decides. *)
Definition outsider (mid : string) (c : Caller) (s : Service) : Prop :=
  live s = false /\ isAdmin c = false /\ hasTuple (rel s) (matterEntity mid) "counsel" (subject c) = false.

(** What is left of a matter when the deadline watch ran at some times: all of
    the above but the deadlines, which are what the watch made of them *)
Record watchedMatter (mid : string) (nows : list Z) (s s' : Service) : Prop := {
  kept_matter : matters (store s') !! mid = matters (store s) !! mid;
  kept_docs id : docOf mid s' id = docOf mid s id;
  kept_deadlines id : deadlineOf mid s' id = (fun dl => foldl (flip watched) dl nows) <$> deadlineOf mid s id;
  kept_rel r u : hasTuple (rel s') (matterEntity mid) r u = hasTuple (rel s) (matterEntity mid) r u;
  kept_docrel id r u : is_Some (docOf mid s id) ->
    hasTuple (rel s') (docEntity id) r u = hasTuple (rel s) (docEntity id) r u;
}.

(** The order of the Go map: every deadline once *)
Definition iterates (env : CaseEnv) (st : Store) : Prop :=
  NoDup (deadlineIDs env) /\ forall id, is_Some (deadlines st !! id) -> id ∈ deadlineIDs env.

(** The workflow of the deadline watch, which any caller may run *)
Definition watchesNow (op : caseOp) : bool := match op with opWorkflow name => bool_decide (name = "wf-case-deadlines") | _ => false end.

(** Any number of requests by outsiders and of passes of the service's own
    deadline watch, with the times at which the watch ran *)
Inductive outsiderTrace (mid : string) (s : Service) : list Z -> Service -> Prop :=
| outsider_start : outsiderTrace mid s [] s
| outsider_step env c op nows s' :
    outsiderTrace mid s nows s' -> outsider mid c s' -> fresh env (store s') ->
    (watchesNow op = true -> iterates env (store s')) ->
    outsiderTrace mid s (if watchesNow op then nows ++ [nowTime env] else nows) (caseStep env c op s')
| outsider_watch env nows s' :
    outsiderTrace mid s nows s' -> iterates env (store s') -> outsiderTrace mid s (nows ++ [nowTime env]) (scanDeadlines env s').

Definition outsiderRun (mid : string) (s s' : Service) : Prop := exists nows, outsiderTrace mid s nows s'.

(** ** Lemmas on the checker *)

Lemma cut_matter id : Str.cut ":"%char (matterEntity id) = Some ("matter", id).
Proof. done. Qed.
Lemma cut_doc id : Str.cut ":"%char (docEntity id) = Some ("doc", id).
Proof. done. Qed.

Lemma matterEntity_inj a b : matterEntity a = matterEntity b -> a = b.
Proof. unfold matterEntity. intros E. by simplify_eq/=. Qed.
Lemma docEntity_inj a b : docEntity a = docEntity b -> a = b.
Proof. unfold docEntity. intros E. by simplify_eq/=. Qed.
Lemma matter_not_doc a b : matterEntity a <> docEntity b.
Proof. done. Qed.

Lemma checkRel_write env s id u :
  live s = false -> checkRel env s (matterEntity id) "write" u = hasTuple (rel s) (matterEntity id) "counsel" u.
Proof. intros Hl. unfold checkRel, checkRelRaw. rewrite Hl. unfold Check. by rewrite cut_matter. Qed.

Lemma checkRel_doc env s id u d :
  live s = false -> docs (store s) !! id = Some d ->
  checkRel env s (docEntity id) "read" u =
  if Privileged d then hasTuple (rel s) (docEntity id) "privileged" u ||
                       hasTuple (rel s) (matterEntity (d_MatterID d)) "counsel" u
  else matterRead (rel s) (matterEntity (d_MatterID d)) u.
Proof.
  intros Hl Hd. unfold checkRel, checkRelRaw. rewrite Hl. unfold Check. rewrite cut_doc. cbn -[docEntity matterEntity].
  rewrite Hd. by destruct (Privileged d).
Qed.

Lemma outsider_write env mid c s : outsider mid c s -> canWriteMatter env c mid s = false.
Proof. intros (Hl & Ha & Ht). unfold canWriteMatter. by rewrite Ha, checkRel_write, Ht. Qed.

Lemma elem_of_Grant t u ts : t ∈ Grant u ts <-> t = u \/ t ∈ ts.
Proof.
  unfold Grant. destruct (bool_decide (u ∈ ts)) eqn:E; bools; [naive_solver|].
  rewrite elem_of_app, list_elem_of_singleton. tauto.
Qed.

Lemma hasTuple_Grant ts t e r u : e <> Entity t -> hasTuple (Grant t ts) e r u = hasTuple ts e r u.
Proof.
  intros Hne. unfold hasTuple. apply bool_decide_ext. rewrite elem_of_Grant.
  split; [intros [<-|?]; [|done]|by right]. by destruct Hne.
Qed.

(** ** Each operation on another matter *)

Lemma sameMatter_ext mid s s' :
  matters (store s') !! mid = matters (store s) !! mid -> docs (store s') = docs (store s) ->
  deadlines (store s') = deadlines (store s) -> blobs (store s') = blobs (store s) ->
  rel s' = rel s -> sameMatter mid s s'.
Proof. intros Hm Hd Hl Hb Hr. split; intros; unfold docOf, deadlineOf; by rewrite ?Hm, ?Hd, ?Hl, ?Hb, ?Hr. Qed.

Lemma sameMatter_grant mid t s :
  Entity t <> matterEntity mid -> (forall id, is_Some (docOf mid s id) -> Entity t <> docEntity id) ->
  sameMatter mid s (grant t s).
Proof.
  intros Hm Hd. split; try done; intros; cbn.
  - by apply hasTuple_Grant.
  - apply hasTuple_Grant. intros E. by eapply Hd.
Qed.

Lemma sameMatter_grant_matter mid id r u s : id <> mid -> sameMatter mid s (grant (mkTuple (matterEntity id) r u) s).
Proof. intros Hne. apply sameMatter_grant; [|done]. intros E%matterEntity_inj. done. Qed.

Lemma sameMatter_grants mid id cs s :
  id <> mid ->
  sameMatter mid s (foldl (fun s u => grant (mkTuple (matterEntity id) "counsel" ("user:" +:+ u)) s) s cs).
Proof.
  intros Hne. revert s. induction cs as [|u cs IH]; intros s; [reflexivity|].
  etransitivity; [by apply sameMatter_grant_matter|apply IH].
Qed.

Lemma grants_store id cs s :
  store (foldl (fun s u => grant (mkTuple (matterEntity id) "counsel" ("user:" +:+ u)) s) s cs) = store s.
Proof. revert s. induction cs as [|u cs IH]; intros s; [done|]. cbn [foldl]. by rewrite IH. Qed.

Lemma sameMatter_deadline mid dl s :
  keyed (store s) -> dl_MatterID dl <> mid ->
  match deadlines (store s) !! dl_ID dl with Some o => dl_MatterID o = dl_MatterID dl | None => True end ->
  sameMatter mid s (with_store (set_deadline dl (store s)) s).
Proof.
  intros Hk Hne Ho. split; try done. intros id. unfold deadlineOf. cbn.
  destruct (decide (id = dl_ID dl)) as [->|Hid]; [|by rewrite lookup_insert_ne].
  rewrite lookup_insert, decide_True by done. rewrite bool_decide_false by done.
  destruct (deadlines (store s) !! dl_ID dl) as [o|]; [|done]. by rewrite bool_decide_false by congruence.
Qed.

Lemma same_create mid env c req s :
  fresh env (store s) -> is_Some (matters (store s) !! mid) -> sameMatter mid s (handleCreateMatter env c req s).1.
Proof.
  intros Hf [m0 Hm0]. destruct req as [m|]; [|reflexivity]. unfold handleCreateMatter.
  destruct (_ || _); [reflexivity|].
  assert (Hne : "mtr-" +:+ freshID env <> mid).
  { intros E. pose proof (fresh_matter _ _ Hf) as Hn. rewrite E in Hn. congruence. }
  destruct (if bool_decide (Ref m = "") then _ else _) as [st ref] eqn:Est.
  assert (Hst : matters st = matters (store s) /\ docs st = docs (store s) /\
                deadlines st = deadlines (store s) /\ blobs st = blobs (store s)).
  { destruct (bool_decide (Ref m = "")); unfold nextRef in Est; by simplify_eq. }
  destruct Hst as (Hm & Hd & Hl & Hb). cbn [fst m_ID Counsel].
  etransitivity; [|by apply sameMatter_grants]. etransitivity; [|by apply sameMatter_grant_matter].
  etransitivity; [|by apply sameMatter_grant_matter].
  apply sameMatter_ext; cbn -[String.append]; [|done..]. by rewrite lookup_insert_ne, Hm.
Qed.

Lemma same_update mid env c id req s :
  keyed (store s) -> outsider mid c s -> sameMatter mid s (handleUpdateMatter env c id req s).1.
Proof.
  intros Hk Ho. unfold handleUpdateMatter, GetMatter. destruct (matters (store s) !! id) as [m|] eqn:Em; [|reflexivity].
  assert (m_ID m = id) as <- by by eapply keyed_matters.
  destruct (decide (m_ID m = mid)) as [->|Hne]; [by rewrite (outsider_write _ _ _ _ Ho)|].
  destruct (negb _); [reflexivity|]. destruct req as [p|]; [|reflexivity].
  destruct (match p_Status p with Some st => negb (validStatus st) | None => false end).
  { apply sameMatter_ext; try done. cbn. by rewrite lookup_insert_ne. }
  set (m' := match p_Status p with Some st => patch_status (nowText env) st (patch_texts p m) | None => patch_texts p m end).
  assert (Hid : m_ID m' = m_ID m) by (unfold m'; by destruct (p_Status p)).
  destruct (p_Counsel p) as [cs|]; cbn -[foldl String.append].
  - etransitivity; [by apply (sameMatter_grants mid (m_ID m') cs); rewrite Hid|].
    apply sameMatter_ext; try done. cbn -[foldl String.append]. by rewrite grants_store, lookup_insert_ne by congruence.
  - apply sameMatter_ext; try done. cbn. by rewrite lookup_insert_ne by congruence.
Qed.

Lemma same_upload mid env c written id req s :
  keyed (store s) -> outsider mid c s -> fresh env (store s) ->
  sameMatter mid s (handleUploadDoc env c written id req s).1.
Proof.
  intros Hk Ho Hf. unfold handleUploadDoc, GetMatter.
  destruct (matters (store s) !! id) as [m|] eqn:Em; [|reflexivity].
  assert (m_ID m = id) as <- by by eapply keyed_matters.
  destruct (decide (m_ID m = mid)) as [->|Hne]; [by rewrite (outsider_write _ _ _ _ Ho)|].
  destruct (negb _); [reflexivity|].
  destruct (uploadFields req) as [[[[name mime] privileged] content]|[code title]]; [|reflexivity].
  destruct (_ || _); [reflexivity|]. destruct written; [|reflexivity]. cbn [PutDocument fst].
  pose proof (fresh_doc _ _ Hf) as Hnd.
  set (d := mkDocument _ _ _ _ _ _ _ _ _).
  set (s1 := with_store _ s).
  assert (H1 : sameMatter mid s s1).
  { split; try done. intros j. unfold docOf. cbn -[String.append d].
    destruct (decide (j = d_ID d)) as [->|Hj]; [|by rewrite !lookup_insert_ne].
    rewrite lookup_insert, decide_True by done. rewrite bool_decide_false by done. cbn -[String.append]. by rewrite Hnd. }
  destruct privileged; [|done]. etransitivity; [exact H1|].
  apply sameMatter_grant; [done|]. cbn -[String.append docEntity]. intros j Hj E%docEntity_inj. subst j.
  rewrite (same_docs _ _ _ H1) in Hj. unfold docOf in Hj. rewrite Hnd in Hj. by destruct Hj.
Qed.

Lemma same_create_deadline mid env c id req s :
  keyed (store s) -> outsider mid c s -> fresh env (store s) ->
  sameMatter mid s (handleCreateDeadline env c id req s).1.
Proof.
  intros Hk Ho Hf. unfold handleCreateDeadline, GetMatter.
  destruct (matters (store s) !! id) as [m|] eqn:Em; [|reflexivity].
  assert (m_ID m = id) as <- by by eapply keyed_matters.
  destruct (decide (m_ID m = mid)) as [->|Hne]; [by rewrite (outsider_write _ _ _ _ Ho)|].
  destruct (negb _); [reflexivity|]. destruct req as [dl|]; [|reflexivity].
  destruct (_ || _); [reflexivity|]. destruct (parse (DueAt dl)); [|reflexivity]. cbn [fst].
  etransitivity; [apply sameMatter_deadline; [done| |]|by apply sameMatter_ext]; [done|].
  cbn -[String.append]. by rewrite (fresh_deadline _ _ Hf).
Qed.

Lemma same_update_deadline mid env c id req s :
  keyed (store s) -> outsider mid c s -> is_Some (matters (store s) !! mid) ->
  sameMatter mid s (handleUpdateDeadline env c id req s).1.
Proof.
  intros Hk Ho [m0 Hm0]. unfold handleUpdateDeadline, GetDeadline, GetMatter.
  destruct (deadlines (store s) !! id) as [dl|] eqn:El; [|reflexivity].
  assert (dl_ID dl = id) as <- by by eapply keyed_deadlines.
  destruct (decide (dl_MatterID dl = mid)) as [Em|Hne].
  { rewrite Em, Hm0, (keyed_matters _ Hk _ _ Hm0), (outsider_write _ _ _ _ Ho). reflexivity. }
  destruct (match matters (store s) !! dl_MatterID dl with Some m => _ | None => false end); [reflexivity|].
  destruct req as [[st due]|]; [|reflexivity].
  destruct (match st with Some x => negb (validDeadlineStatus x) | None => false end); [reflexivity|].
  set (dl' := match st with Some x => set_dl_status x dl | None => dl end).
  assert (Hd' : dl_ID dl' = dl_ID dl /\ dl_MatterID dl' = dl_MatterID dl) by (unfold dl'; by destruct st).
  destruct Hd' as [Hi Hm].
  assert (Hput : forall d2, dl_ID d2 = dl_ID dl -> dl_MatterID d2 = dl_MatterID dl ->
    sameMatter mid s (with_store (set_deadline d2 (store s)) s)).
  { intros d2 Hi2 Hm2. apply sameMatter_deadline; [done|congruence|]. by rewrite Hi2, El. }
  destruct (match due with Some x => _ | None => false end); [by apply Hput|].
  cbn [fst]. set (d2 := match due with Some x => _ | None => _ end).
  etransitivity; [apply (Hput d2); unfold d2; by destruct due|by apply sameMatter_ext].
Qed.

Lemma same_step mid env c op s :
  keyed (store s) -> outsider mid c s -> fresh env (store s) -> is_Some (matters (store s) !! mid) ->
  watchesNow op = false -> sameMatter mid s (caseStep env c op s).
Proof.
  intros Hk Ho Hf Hm Hop. destruct op as [req|id req|w id req|id req|id req|code req|code req|w id|name]; cbn [caseStep].
  - by apply same_create.
  - by apply same_update.
  - by apply same_upload.
  - by apply same_create_deadline.
  - by apply same_update_deadline.
  - unfold handleRelGrant. destruct Ho as (_ & -> & _). reflexivity.
  - unfold handleRelRevoke. destruct Ho as (_ & -> & _). reflexivity.
  - unfold handleEvidencePack. destruct (GetMatter id (store s)); [|reflexivity].
    destruct (negb _); [reflexivity|]. destruct (wormStore _ _ _) as [w' [r|]]; [by apply sameMatter_ext|reflexivity].
  - unfold handleWorkflowRun. cbn [watchesNow] in Hop. rewrite Hop. by repeat case_bool_decide.
Qed.

(** ** Records stay under their identifier *)

Lemma insert_keyed {A} (f : A -> string) (m : gmap string A) x :
  (forall id y, m !! id = Some y -> f y = id) -> forall id y, <[f x := x]> m !! id = Some y -> f y = id.
Proof. intros Hm id y Hy. apply lookup_insert_Some in Hy as [[<- <-]|[_ Hy]]; [done|by apply Hm]. Qed.

Lemma keyed_rec r st : keyed st -> keyed (replayRec st r).
Proof.
  intros [Hm Hd Hl]. destruct r; split; cbn; try done.
  - by apply (insert_keyed m_ID).
  - by apply (insert_keyed d_ID).
  - by apply (insert_keyed dl_ID).
Qed.

Lemma keyed_set_matter m st : keyed st -> keyed (set_matter m st).
Proof. apply (keyed_rec (recMatter m)). Qed.
Lemma keyed_set_deadline dl st : keyed st -> keyed (set_deadline dl st).
Proof. apply (keyed_rec (recDeadline dl)). Qed.
Lemma keyed_ext st st' :
  matters st' = matters st -> docs st' = docs st -> deadlines st' = deadlines st -> keyed st -> keyed st'.
Proof. intros Em Ed El [Hm Hd Hl]. split; rewrite ?Em, ?Ed, ?El; done. Qed.
Lemma keyed_set_doc d content st : keyed st -> keyed (set_doc d (set_blob (d_ID d) content st)).
Proof. intros Hk. apply (keyed_rec (recDoc d)). by apply (keyed_ext st). Qed.
Lemma keyed_log r st : keyed st -> keyed (appendLog r st).
Proof. by apply keyed_ext. Qed.

Lemma keyed_scanOne now s dl : keyed (store s) -> keyed (store (scanOne now s dl)).
Proof.
  intros Hk. unfold scanOne. destruct (parse (DueAt dl)); [|done].
  destruct (_ <? _).
  - destruct (Escalated dl); apply keyed_log, (keyed_rec (recDeadline _)); done.
  - destruct (String.leb _ _); [|done]. destruct (bool_decide _); [|done].
    by apply keyed_log, (keyed_rec (recDeadline _)).
Qed.

Lemma keyed_foldl {A} (f : Service -> A -> Service) l s :
  (forall s x, keyed (store s) -> keyed (store (f s x))) -> keyed (store s) -> keyed (store (foldl f s l)).
Proof. intros Hf. revert s. induction l as [|x l IH]; intros s Hk; [done|]. apply IH. by apply Hf. Qed.

Lemma keyed_step env c op s : keyed (store s) -> keyed (store (caseStep env c op s)).
Proof.
  intros Hk. destruct op as [req|id req|w id req|id req|id req|code req|code req|w id|name]; cbn [caseStep].
  - destruct req as [m|]; [|done]. unfold handleCreateMatter. destruct (_ || _); [done|].
    destruct (if bool_decide (Ref m = "") then _ else _) as [st ref] eqn:Est. cbn [fst m_ID Counsel].
    rewrite grants_store. apply keyed_log, keyed_set_matter.
    destruct (bool_decide (Ref m = "")); unfold nextRef in Est; simplify_eq; [by apply (keyed_ext (store s))|done].
  - unfold handleUpdateMatter. destruct (GetMatter _ _) as [m|]; [|done]. destruct (negb _); [done|].
    destruct req as [p|]; [|done].
    destruct (match p_Status p with Some st => negb (validStatus st) | None => false end); [by apply keyed_set_matter|].
    destruct (p_Counsel p) as [cs|]; cbn -[foldl]; rewrite ?grants_store; by apply keyed_log, keyed_set_matter.
  - unfold handleUploadDoc. destruct (GetMatter _ _) as [m|]; [|done]. destruct (negb _); [done|].
    destruct (uploadFields req) as [[[[name mime] p] content]|[code title]]; [|done]. destruct (_ || _); [done|].
    destruct w; [|done]. destruct p; by apply keyed_log, keyed_set_doc.
  - unfold handleCreateDeadline. destruct (GetMatter _ _) as [m|]; [|done]. destruct (negb _); [done|].
    destruct req as [dl|]; [|done]. destruct (_ || _); [done|]. destruct (parse _); [|done].
    by apply keyed_log, keyed_set_deadline.
  - unfold handleUpdateDeadline. destruct (GetDeadline _ _) as [dl|]; [|done].
    destruct (match GetMatter _ _ with Some m => _ | None => false end); [done|].
    destruct req as [[st due]|]; [|done].
    destruct (match st with Some x => negb (validDeadlineStatus x) | None => false end); [done|].
    destruct (match due with Some x => _ | None => false end); [by apply keyed_set_deadline|].
    by apply keyed_log, keyed_set_deadline.
  - unfold handleRelGrant. destruct (negb _); [done|]. destruct req as [t|]; [|done].
    destruct (negb _); [done|]. destruct (live s); [|done]. by destruct (WriteRelationship _ _ _ _).
  - unfold handleRelRevoke. destruct (negb _); [done|]. destruct req as [t|]; [|done].
    destruct (negb _); [done|]. destruct (live s); [|done]. by destruct (DeleteRelationship _ _ _ _).
  - unfold handleEvidencePack. destruct (GetMatter _ _); [|done]. destruct (negb _); [done|].
    by destruct (wormStore _ _ _) as [w' [r|]].
  - unfold handleWorkflowRun. repeat (case_bool_decide; [try done|]); [|done].
    cbn [fst]. apply keyed_foldl; [|done]. intros. by apply keyed_scanOne.
Qed.

(** ** The deadline watch *)

Lemma scanFrame_trans s1 s2 s3 : scanFrame s1 s2 -> scanFrame s2 s3 -> scanFrame s1 s3.
Proof. intros [] []. split; congruence. Qed.

Lemma scanOne_spec now s dl :
  deadlines (store s) !! dl_ID dl = Some dl -> dl_Status dl = "open" ->
  deadlines (store (scanOne now s dl)) = <[dl_ID dl := watched now dl]> (deadlines (store s)) /\
  notices (scanOne now s dl) = notices s ++ noticesFor now (matters (store s)) dl /\
  scanFrame s (scanOne now s dl).
Proof.
  intros Hl Ho. unfold scanOne, watched, noticesFor, missedTo, approachingTo, GetMatter. rewrite (bool_decide_true (dl_Status dl = "open")) by done.
  assert (Hsame : deadlines (store s) = <[dl_ID dl := dl]> (deadlines (store s)) /\ notices s = notices s ++ [] /\ scanFrame s s).
  { rewrite insert_id, app_nil_r by done. by split_and!. }
  destruct (parse (DueAt dl)) as [due|]; [|done].
  destruct (due <? now).
  { unfold mark_missed. destruct (Escalated dl); cbn; rewrite ?app_nil_r; by split_and!. }
  fold (soon now dl). destruct (soon now dl); [|done].
  unfold mark_warning. destruct (bool_decide (Severity dl = "info")); cbn; [by split_and!|].
  rewrite insert_id by done. by split_and!.
Qed.

Lemma scan_fold now l s :
  NoDup (dl_ID <$> l) ->
  (forall dl, dl ∈ l -> deadlines (store s) !! dl_ID dl = Some dl /\ dl_Status dl = "open") ->
  let s' := foldl (scanOne now) s l in
  (forall id, deadlines (store s') !! id =
     (if bool_decide (id ∈ dl_ID <$> l) then watched now <$> deadlines (store s) !! id else deadlines (store s) !! id)) /\
  notices s' = notices s ++ flat_map (noticesFor now (matters (store s))) l /\
  scanFrame s s'.
Proof.
  revert s. induction l as [|dl l IH]; intros s Hnd Hl; cbn [foldl].
  - split; [|split; [cbn; by rewrite app_nil_r|done]]. intros id. by rewrite bool_decide_false by set_solver.
  - csimpl in *. apply NoDup_cons in Hnd as [Hni Hnd]. destruct (Hl dl) as [Hdl Ho]; [set_solver|].
    destruct (scanOne_spec now s dl Hdl Ho) as (E1 & E2 & E3).
    destruct (IH (scanOne now s dl) Hnd) as (I1 & I2 & I3).
    { intros x Hx. destruct (Hl x) as [Hx' Hxo]; [set_solver|]. split; [|done].
      rewrite E1, lookup_insert_ne; [done|]. intros Eid. apply Hni. rewrite Eid. by apply list_elem_of_fmap_2. }
    split; [|split; [|by eapply scanFrame_trans]].
    + intros id. rewrite I1, E1. destruct (decide (id = dl_ID dl)) as [->|Hne].
      * rewrite bool_decide_false by done. rewrite bool_decide_true by set_solver.
        by rewrite lookup_insert, decide_True, Hdl by done.
      * rewrite lookup_insert_ne by done. destruct (decide (id ∈ dl_ID <$> l)) as [Hi|Hi].
        -- rewrite !bool_decide_true by set_solver. done.
        -- rewrite !bool_decide_false by set_solver. done.
    + rewrite I2, E2, (frame_matters _ _ E3), <-app_assoc. done.
Qed.

Lemma elem_of_open ids st dl :
  dl ∈ ListDeadlines ids "" "open" "" st <->
  (exists id, id ∈ ids /\ deadlines st !! id = Some dl) /\ dl_Status dl = "open".
Proof.
  unfold ListDeadlines, matches. rewrite merge_sort_Permutation, list_elem_of_In, filter_In, <-list_elem_of_In.
  rewrite list_elem_of_omap, !andb_true_iff, !orb_true_iff, !bool_decide_eq_true. naive_solver.
Qed.

Lemma open_NoDup ids st :
  keyed st -> NoDup ids -> NoDup (dl_ID <$> ListDeadlines ids "" "open" "" st).
Proof.
  intros Hk Hnd. unfold ListDeadlines. rewrite merge_sort_Permutation.
  induction ids as [|id ids IH]; [constructor|]. apply NoDup_cons in Hnd as [Hni Hnd]. csimpl.
  destruct (deadlines st !! id) as [dl|] eqn:E; [|by apply IH]. cbn [List.filter].
  destruct (_ && _); [|by apply IH]. csimpl. apply NoDup_cons. split; [|by apply IH].
  intros (x & Ex & Hx)%list_elem_of_fmap. apply list_elem_of_In, filter_In in Hx as [Hx%list_elem_of_In _].
  apply list_elem_of_omap in Hx as (id' & Hid' & Hx). apply Hni.
  rewrite <-(keyed_deadlines _ Hk _ _ E), Ex, (keyed_deadlines _ Hk _ _ Hx). done.
Qed.

Lemma watched_overdue now dl due :
  parse (DueAt (watched now dl)) = Some due -> dl_Status (watched now dl) = "open" -> now <= due.
Proof.
  unfold watched. destruct (bool_decide _) eqn:Eo; bools; [|done].
  destruct (parse (DueAt dl)) as [due'|] eqn:Ep; [|congruence].
  destruct (due' <? now) eqn:El; bools.
  { unfold mark_missed. by destruct (Escalated dl). }
  intros Hd _. assert (parse (DueAt dl) = Some due) by (by destruct (_ && _)). congruence.
Qed.

(** A scan, in terms of [watched] *)
Lemma scan_spec env s :
  keyed (store s) -> iterates env (store s) ->
  let s' := scanDeadlines env s in
  deadlines (store s') = watched (nowTime env) <$> deadlines (store s) /\
  notices s' = notices s ++ flat_map (noticesFor (nowTime env) (matters (store s)))
                              (ListDeadlines (deadlineIDs env) "" "open" "" (store s)) /\
  scanFrame s s'.
Proof.
  intros Hk [Hnd Hall] s'.
  destruct (scan_fold (nowTime env) (ListDeadlines (deadlineIDs env) "" "open" "" (store s)) s) as (H1 & H2 & H3).
  { by apply open_NoDup. }
  { intros dl [(id & _ & Hdl) Ho]%elem_of_open. split; [|done]. by rewrite (keyed_deadlines _ Hk _ _ Hdl). }
  fold (scanDeadlines env s) in H1, H2, H3. fold s' in H1, H2, H3. split; [|done].
  apply map_eq. intros id. rewrite H1, lookup_fmap. destruct (bool_decide _) eqn:E; bools; [done|].
  destruct (deadlines (store s) !! id) as [dl|] eqn:Edl; [|done]. cbn. f_equal. unfold watched.
  rewrite bool_decide_false; [done|]. intros Ho. apply E. rewrite <-(keyed_deadlines _ Hk _ _ Edl).
  apply list_elem_of_fmap_2, elem_of_open. split; [|done]. exists id. rewrite Edl. split; [by apply Hall; rewrite Edl|done].
Qed.

Lemma watched_matter now dl : dl_MatterID (watched now dl) = dl_MatterID dl.
Proof. unfold watched, mark_missed, mark_warning, set_dl_status. by repeat case_match. Qed.

Lemma scan_watches mid env s : keyed (store s) -> iterates env (store s) -> watchedMatter mid [nowTime env] s (scanDeadlines env s).
Proof.
  intros Hk Hi. destruct (scan_spec env s Hk Hi) as (Hd & _ & [Hm Hdo Hb Hr _]). split.
  - by rewrite Hm.
  - intros id. unfold docOf. by rewrite Hdo, Hb.
  - intros id. unfold deadlineOf. rewrite Hd, lookup_fmap. destruct (deadlines (store s) !! id) as [dl|]; [|done]. cbn [fmap option_fmap option_map].
    rewrite watched_matter. by case_bool_decide.
  - intros r u. by rewrite Hr.
  - intros id r u _. by rewrite Hr.
Qed.

Lemma watched_same mid s s' : sameMatter mid s s' -> watchedMatter mid [] s s'.
Proof. intros [H1 H2 H3 H4 H5]. split; [done|done| |done|done]. intros id. rewrite H3. by destruct (deadlineOf mid s id). Qed.

Lemma watchedMatter_trans mid n1 n2 s1 s2 s3 : watchedMatter mid n1 s1 s2 -> watchedMatter mid n2 s2 s3 -> watchedMatter mid (n1 ++ n2) s1 s3.
Proof.
  intros H1 H2. split.
  - by rewrite (kept_matter _ _ _ _ H2), (kept_matter _ _ _ _ H1).
  - intros id. by rewrite (kept_docs _ _ _ _ H2), (kept_docs _ _ _ _ H1).
  - intros id. rewrite (kept_deadlines _ _ _ _ H2), (kept_deadlines _ _ _ _ H1).
    destruct (deadlineOf mid s1 id); [|done]. cbn. by rewrite foldl_app.
  - intros r u. by rewrite (kept_rel _ _ _ _ H2), (kept_rel _ _ _ _ H1).
  - intros id r u Hd. rewrite (kept_docrel _ _ _ _ H2), (kept_docrel _ _ _ _ H1); [done..|].
    by rewrite (kept_docs _ _ _ _ H1).
Qed.

Lemma watch_step env c op s : watchesNow op = true -> caseStep env c op s = scanDeadlines env s.
Proof.
  destruct op as [| | | | | | | |name]; [done..|]. cbn [watchesNow]. intros ->%bool_decide_eq_true. done.
Qed.

Lemma outsiderTrace_keeps mid s nows s' :
  keyed (store s) -> is_Some (matters (store s) !! mid) -> outsiderTrace mid s nows s' ->
  keyed (store s') /\ watchedMatter mid nows s s'.
Proof.
  intros Hk Hm Hr. induction Hr as [|env c op nows s' Hr [IHk IHs] Ho Hf Hi|env nows s' Hr [IHk IHs] Hi].
  - split; [done|]. by apply watched_same.
  - split; [by apply keyed_step|]. destruct (watchesNow op) eqn:Ew.
    + rewrite watch_step by done. eapply watchedMatter_trans; [exact IHs|]. by apply scan_watches; [|apply Hi].
    + rewrite <- (app_nil_r nows). eapply watchedMatter_trans; [exact IHs|]. apply watched_same, same_step; try done.
      by rewrite (kept_matter _ _ _ _ IHs).
  - split; [|eapply watchedMatter_trans; [exact IHs|by apply scan_watches]].
    apply keyed_foldl; [|done]. intros. by apply keyed_scanOne.
Qed.

(** C16: With the file-backed checker, no sequence of requests lets an outsider
    into a matter.  However many requests are made by callers that are not
    administrators and hold no counsel relation on a matter, whatever they are
    - creating matters, updating, uploading, granting relations, running any
    workflow, the deadline watch included -, and however often the service's
    own watch runs: the record of that matter, its documents and their content
    and the relations on it and on its documents do not change.  Its deadlines
    change only by the watch: each is what the passes made of it, in the order
    of the times they ran at; with no pass, it is as it was. *)
Theorem case_no_escalation mid s nows s' :
  keyed (store s) -> is_Some (matters (store s) !! mid) -> outsiderTrace mid s nows s' -> watchedMatter mid nows s s'.
Proof. intros. by eapply outsiderTrace_keeps. Qed.

(** ** Privileged documents *)

Lemma grants_live id cs s :
  live (foldl (fun s u => grant (mkTuple (matterEntity id) "counsel" ("user:" +:+ u)) s) s cs) = live s.
Proof. revert s. induction cs as [|u cs IH]; intros s; [done|]. cbn [foldl]. by rewrite IH. Qed.

Lemma scanOne_live now s dl : live (scanOne now s dl) = live s.
Proof. unfold scanOne. cases; done. Qed.

Lemma scan_live now l s : live (foldl (scanOne now) s l) = live s.
Proof. revert s. induction l as [|dl l IH]; intros s; [done|]. cbn [foldl]. by rewrite IH, scanOne_live. Qed.

Lemma live_step env c op s : live (caseStep env c op s) = live s.
Proof.
  destruct op as [req|id req|w id req|id req|id req|code req|code req|w id|name]; cbn [caseStep].
  - unfold handleCreateMatter. destruct req as [m|]; [|done]. destruct (_ || _); [done|].
    destruct (if bool_decide (Ref m = "") then _ else _) as [st ref]. cbn [fst m_ID Counsel]. by rewrite grants_live.
  - unfold handleUpdateMatter. destruct (GetMatter _ _) as [m|]; [|done]. destruct (negb _); [done|].
    destruct req as [p|]; [|done].
    destruct (match p_Status p with Some st => negb (validStatus st) | None => false end); [done|].
    destruct (p_Counsel p) as [cs|]; [|done]. cbn -[foldl]. by rewrite grants_live.
  - unfold handleUploadDoc. destruct (GetMatter _ _) as [m|]; [|done]. destruct (negb _); [done|].
    destruct (uploadFields req) as [[[[name mime] p] content]|[code title]]; [|done]. destruct (_ || _); [done|].
    destruct w; [|done]. by destruct p.
  - unfold handleCreateDeadline. by cases.
  - unfold handleUpdateDeadline. destruct (GetDeadline _ _) as [dl|]; [|done].
    destruct (match GetMatter _ _ with Some m => _ | None => false end); [done|].
    destruct req as [[st due]|]; [|done].
    destruct (match st with Some x => negb (validDeadlineStatus x) | None => false end); [done|].
    by destruct (match due with Some x => _ | None => false end).
  - unfold handleRelGrant. by cases.
  - unfold handleRelRevoke. by cases.
  - unfold handleEvidencePack. destruct (GetMatter _ _); [|done]. destruct (negb _); [done|].
    by destruct (wormStore _ _ _) as [w' [r|]].
  - unfold handleWorkflowRun. repeat (case_bool_decide; [try done|]); [|done]. apply scan_live.
Qed.

Lemma outsiderRun_live mid s s' : outsiderRun mid s s' -> live s' = live s.
Proof.
  intros [nows Hr]. induction Hr as [|env c op nows s' _ IH|env nows s' _ IH]; [done|by rewrite live_step|].
  unfold scanDeadlines. by rewrite scan_live.
Qed.

Lemma outsider_run mid c nows s s' :
  outsider mid c s -> watchedMatter mid nows s s' -> live s' = live s -> outsider mid c s'.
Proof. intros (Hl & Ha & Ht) Hs Hl'. split; [by rewrite Hl'|]. by rewrite (kept_rel _ _ _ _ Hs). Qed.

Lemma elem_of_ListDocuments ids mid p st d :
  d ∈ ListDocuments ids mid p st <->
  (exists id, id ∈ ids /\ docs st !! id = Some d) /\ d_MatterID d = mid /\ (Privileged d = true -> p = true).
Proof.
  unfold ListDocuments. rewrite merge_sort_Permutation, list_elem_of_In, filter_In, <-list_elem_of_In.
  rewrite list_elem_of_omap, andb_true_iff, bool_decide_eq_true, orb_true_iff, negb_true_iff.
  destruct (Privileged d); naive_solver.
Qed.

(** C17: With the file-backed checker, a privileged document of a matter does not reach a caller who is
    neither an administrator nor counsel on the matter and did not upload it:
    after any requests by such callers and passes of the deadline watch, its
    record and its content are refused
    with 403, and it is in no document listing, no portal view and no evidence
    pack that caller obtains, whichever matter is asked for. *)
Theorem case_privileged_confidential mid s s' env c id d :
  keyed (store s) -> is_Some (matters (store s) !! mid) ->
  docs (store s) !! id = Some d -> d_MatterID d = mid -> Privileged d = true ->
  outsider mid c s -> hasTuple (rel s) (docEntity id) "privileged" (subject c) = false ->
  outsiderRun mid s s' ->
  handleGetDoc env c id s' = Problem 403 "forbidden" /\
  handleGetDocContent env c id s' = Problem 403 "forbidden" /\
  (forall mid' l b, handleListDocs env c mid' s' = JSON 200 (l, b) -> d ∉ l) /\
  (forall mid' m l dls, handlePortalMatter env c mid' s' = JSON 200 (m, l, dls) -> d ∉ l) /\
  (forall written mid' s'' pack r,
     handleEvidencePack render env c written mid' s' = (s'', JSON 201 (pack, r)) -> d ∉ e_documents pack).
Proof.
  intros Hk Hm Hd Hmid Hp Ho Ht Hr.
  pose proof (outsiderRun_live _ _ _ Hr) as Hl'. destruct Hr as [nows Hr].
  destruct (outsiderTrace_keeps _ _ _ _ Hk Hm Hr) as [Hk' Hs]. pose proof (outsider_run _ _ _ _ _ Ho Hs Hl') as Ho'. pose proof Ho' as (Hlive & Hadm & Hc).
  assert (Hof : docOf mid s id = Some (d, blobs (store s) !! id)).
  { unfold docOf. by rewrite Hd, Hmid, bool_decide_true. }
  assert (Hd' : docs (store s') !! id = Some d).
  { pose proof (kept_docs _ _ _ _ Hs id) as E. rewrite Hof in E. unfold docOf in E.
    destruct (docs (store s') !! id); [|done]. destruct (bool_decide _); by simplify_eq. }
  assert (Hid : d_ID d = id) by by eapply keyed_docs.
  assert (Hno : canReadDoc env c id s' = false).
  { unfold canReadDoc. rewrite Hadm, (checkRel_doc _ _ _ _ d) by done. rewrite Hp, Hmid, Hc.
    rewrite (kept_docrel _ _ _ _ Hs), Ht by (by rewrite Hof). done. }
  assert (Hlist : forall ids mid' p, (mid' = mid -> p = false) -> d ∉ ListDocuments ids mid' p (store s')).
  { intros ids mid' p Hpp (_ & E & Hpp')%elem_of_ListDocuments. rewrite Hpp in Hpp' by congruence. naive_solver. }
  unfold handleGetDoc, handleGetDocContent, GetDocument. rewrite Hd'. cbn [mbind option_bind].
  rewrite Hid, Hno. do 2 (split; [done|]). split; [|split].
  - intros mid' l b. unfold handleListDocs, GetMatter. destruct (matters (store s') !! mid') as [m|] eqn:Em; [|done].
    assert (m_ID m = mid') as <- by by eapply keyed_matters.
    destruct (negb _); [done|]. intros [= <- <-]. apply Hlist. intros ->. by apply outsider_write.
  - intros mid' m l dls. unfold handlePortalMatter. destruct (GetMatter mid' _); [|done].
    destruct (negb _ && _ && _); [done|]. intros [= <- <- <-]. by apply Hlist.
  - intros written mid' s'' pack r. unfold handleEvidencePack, GetMatter.
    destruct (matters (store s') !! mid') as [m|] eqn:Em; [|done].
    assert (m_ID m = mid') as <- by by eapply keyed_matters.
    destruct (canWriteMatter env c (m_ID m) s') eqn:Ew; [|done]. cbn [negb].
    destruct (wormStore _ _ _) as [w' [r'|]]; [|done]. intros [= <- <- <-]. cbn [e_documents].
    apply Hlist. intros E. rewrite E, (outsider_write _ _ _ _ Ho') in Ew. done.
Qed.
End Props.

(** ** Nothing overdue stays open *)

(** C18: After a scan of the deadlines nothing overdue is open: every open
    deadline with a readable due time is due now or later.  Each deadline has
    become what [watched] makes of it - an open overdue one escalated (or
    missed, when it had been escalated before), an open one with at most 72
    hours left a warning - and the notices sent are exactly one for every
    open deadline newly missed and one for every open deadline approaching, in
    the order of their due times.  Matters, documents, relations and evidence
    are not touched. *)
Theorem scan_no_overdue env s :
  keyed (store s) -> NoDup (deadlineIDs env) ->
  (forall id, is_Some (deadlines (store s) !! id) -> id ∈ deadlineIDs env) ->
  let now := nowTime env in
  let s' := scanDeadlines env s in
  (forall id dl due, deadlines (store s') !! id = Some dl -> dl_Status dl = "open" ->
     parse (DueAt dl) = Some due -> now <= due) /\
  deadlines (store s') = watched now <$> deadlines (store s) /\
  notices s' = notices s ++ flat_map (noticesFor now (matters (store s)))
                              (ListDeadlines (deadlineIDs env) "" "open" "" (store s)) /\
  scanFrame s s'.
Proof.
  intros Hk Hnd Hall now s'. destruct (scan_spec env s Hk (conj Hnd Hall)) as (Hmap & H2 & H3). fold s' now in Hmap, H2, H3.
  split; [|done]. intros id dl due Hdl Ho Hdue. rewrite Hmap, lookup_fmap in Hdl.
  destruct (deadlines (store s) !! id) as [dl0|]; [|done]. cbn in Hdl. simplify_eq. by eapply watched_overdue.
Qed.

(** ** The log *)

(** A restart rebuilds every record. *)
Definition caseDurable (st : Store) : Prop :=
  matters (restart st) = matters st /\ docs (restart st) = docs st /\ deadlines (restart st) = deadlines st.

Definition sameRecords (st st' : Store) : Prop :=
  matters st = matters st' /\ docs st = docs st' /\ deadlines st = deadlines st'.

Lemma sameRecords_rec r st st' : sameRecords st st' -> sameRecords (replayRec st r) (replayRec st' r).
Proof. intros (? & ? & ?). destruct r; repeat split; cbn; congruence. Qed.

Lemma sameRecords_fold l st st' : sameRecords st st' -> sameRecords (foldl replayRec st l) (foldl replayRec st' l).
Proof. revert st st'. induction l as [|r l IH]; intros st st' E; [done|]. by apply IH, sameRecords_rec. Qed.

Lemma NewStore_snoc l r b b' : sameRecords (NewStore (l ++ [r]) b') (replayRec (NewStore l b) r).
Proof. unfold NewStore. rewrite foldl_snoc. by apply sameRecords_rec, sameRecords_fold. Qed.

(** Writing a record in memory and in the log *)
Lemma case_durable_put r b st st' :
  caseDurable st -> caseLog st' = caseLog st ++ [r] -> blobs st' = b -> sameRecords st' (replayRec st r) ->
  caseDurable st'.
Proof.
  intros Hd Hl Hb Hs. unfold caseDurable, restart. rewrite Hl.
  destruct (NewStore_snoc (caseLog st) r (blobs st) (blobs st')) as (E1 & E2 & E3).
  assert (sameRecords (replayRec (NewStore (caseLog st) (blobs st)) r) (replayRec st r)) as (F1 & F2 & F3).
  { by apply sameRecords_rec. }
  destruct Hs as (G1 & G2 & G3). split_and!; congruence.
Qed.

Lemma durable_same st st' : caseDurable st -> caseLog st' = caseLog st -> sameRecords st' st -> caseDurable st'.
Proof.
  intros (E1 & E2 & E3) Hl (G1 & G2 & G3). unfold caseDurable, restart. rewrite Hl.
  assert (sameRecords (NewStore (caseLog st) (blobs st')) (NewStore (caseLog st) (blobs st))) as (F1 & F2 & F3).
  { by apply sameRecords_fold. }
  unfold restart in *. split_and!; congruence.
Qed.

Lemma durable_scanOne now s dl : caseDurable (store s) -> caseDurable (store (scanOne now s dl)).
Proof.
  intros Hd. unfold scanOne. destruct (parse (DueAt dl)); [|done]. destruct (_ <? _).
  - destruct (Escalated dl); by apply (case_durable_put (recDeadline (mark_missed dl)) (blobs (store s)) (store s)).
  - destruct (String.leb _ _); [|done]. destruct (bool_decide _); [|done].
    by apply (case_durable_put (recDeadline (mark_warning dl)) (blobs (store s)) (store s)).
Qed.

Section Durable.
Context `{Crypto} (render : EvidencePack -> string).

(** An update answered with 422 *)
Definition refusedUpdate (env : CaseEnv) (c : Caller) (op : caseOp) (s : Service) : bool :=
  match op with
  | opUpdateMatter id req => match (handleUpdateMatter env c id req s).2 with Problem 422 _ => true | _ => false end
  | opUpdateDeadline id req => match (handleUpdateDeadline env c id req s).2 with Problem 422 _ => true | _ => false end
  | _ => false
  end.

Lemma durable_update env c id req s :
  caseDurable (store s) -> refusedUpdate env c (opUpdateMatter id req) s = false ->
  caseDurable (store (handleUpdateMatter env c id req s).1).
Proof.
  intros Hd. unfold refusedUpdate, handleUpdateMatter. destruct (GetMatter _ _) as [m|]; [|done].
  destruct (negb _); [done|]. destruct req as [p|]; [|done].
  destruct (match p_Status p with Some st => negb (validStatus st) | None => false end); [done|]. intros _.
  destruct (p_Counsel p) as [cs|]; cbn -[foldl]; rewrite ?grants_store;
    (eapply case_durable_put; [exact Hd|done|done|by split_and!]).
Qed.

Lemma durable_update_deadline env c id req s :
  caseDurable (store s) -> refusedUpdate env c (opUpdateDeadline id req) s = false ->
  caseDurable (store (handleUpdateDeadline env c id req s).1).
Proof.
  intros Hd. unfold refusedUpdate, handleUpdateDeadline. destruct (GetDeadline _ _) as [dl|]; [|done].
  destruct (match GetMatter _ _ with Some m => _ | None => false end); [done|].
  destruct req as [[st due]|]; [|done].
  destruct (match st with Some x => negb (validDeadlineStatus x) | None => false end); [done|].
  destruct (match due with Some x => _ | None => false end); [done|]. intros _.
  eapply case_durable_put; [exact Hd|done|done|by split_and!].
Qed.

(** As long as no update is refused with 422, the log holds the store:
    after any request of any caller - the deadline watch included - a restart
    brings back every matter, document and deadline as it is in memory. *)
Theorem case_store_durable env c op s :
  caseDurable (store s) -> refusedUpdate env c op s = false -> caseDurable (store (caseStep render env c op s)).
Proof.
  intros Hd Hr. destruct op as [req|id req|w id req|id req|id req|code req|code req|w id|name]; cbn [caseStep].
  - unfold handleCreateMatter. destruct req as [m|]; [|done]. destruct (_ || _); [done|].
    destruct (if bool_decide (Ref m = "") then _ else _) as [st ref] eqn:Est. cbn [fst m_ID Counsel]. rewrite grants_store.
    assert (caseLog st = caseLog (store s) /\ sameRecords st (store s)) as [Hl (H1 & H2 & H3)].
    { destruct (bool_decide (Ref m = "")); unfold nextRef in Est; by simplify_eq. }
    eapply case_durable_put; [exact Hd|cbn; by rewrite Hl|done|split_and!; cbn; congruence].
  - by apply durable_update.
  - unfold handleUploadDoc. destruct (GetMatter _ _) as [m|]; [|done]. destruct (negb _); [done|].
    destruct (uploadFields req) as [[[[name mime] p] content]|[code title]]; [|done]. destruct (_ || _); [done|].
    destruct w; [|done]. destruct p; (eapply case_durable_put; [exact Hd|done|done|by split_and!]).
  - unfold handleCreateDeadline. destruct (GetMatter _ _) as [m|]; [|done]. destruct (negb _); [done|].
    destruct req as [dl|]; [|done]. destruct (_ || _); [done|]. destruct (parse _); [|done].
    eapply case_durable_put; [exact Hd|done|done|by split_and!].
  - by apply durable_update_deadline.
  - unfold handleRelGrant. destruct (negb _); [done|]. destruct req as [t|]; [|done].
    destruct (negb _); [done|]. destruct (live s); [|done]. by destruct (WriteRelationship _ _ _ _).
  - unfold handleRelRevoke. destruct (negb _); [done|]. destruct req as [t|]; [|done].
    destruct (negb _); [done|]. destruct (live s); [|done]. by destruct (DeleteRelationship _ _ _ _).
  - unfold handleEvidencePack. destruct (GetMatter _ _); [|done]. destruct (negb _); [done|].
    by destruct (wormStore _ _ _) as [w' [r|]].
  - unfold handleWorkflowRun. repeat (case_bool_decide; [try done|]); [|done]. cbn [fst].
    unfold scanDeadlines. generalize (ListDeadlines (deadlineIDs env) "" "open" "" (store s)). intros l.
    clear Hr. revert s Hd. induction l as [|dl l IH]; intros s Hd; [done|]. by apply IH, durable_scanOne.
Qed.

(** An update of a matter that counsel sends with an unknown status is
    refused with 422 - and yet its title is in force: every later read shows
    it, until a restart brings the old title back. *)
Theorem case_refused_update_sticks env c id m p title st s :
  caseDurable (store s) -> keyed (store s) -> matters (store s) !! id = Some m -> canWriteMatter env c id s = true ->
  p_Title p = Some title -> p_Status p = Some st -> validStatus st = false ->
  exists s' t, handleUpdateMatter env c id (Some p) s = (s', Problem 422 t) /\
    m_Title <$> GetMatter id (store s') = Some title /\
    m_Title <$> GetMatter id (restart (store s')) = Some (m_Title m).
Proof.
  intros Hd Hk Hm Hw Ht Hs Hv. unfold handleUpdateMatter, GetMatter. rewrite Hm, (keyed_matters _ Hk _ _ Hm), Hw, Hs, Hv.
  eexists _, _. split; [reflexivity|]. cbn. rewrite (keyed_matters _ Hk _ _ Hm), lookup_insert, decide_True by done.
  split; [cbn; by rewrite Ht|]. destruct Hd as (E & _ & _). unfold restart in E.
  change (m_Title <$> matters (NewStore (caseLog (store s)) (blobs (store s))) !! id = Some (m_Title m)).
  by rewrite E, Hm.
Qed.
End Durable.

(** ** The live checker and the evidence store *)

(** With Permify wired, a relation check of a request is granted only by a
    plain 200 answer that allows it, among the first two answers and after
    server errors only; no connection, a client error, an unreadable body, a
    malformed reference, two server errors: all of these deny.  Relations in
    the local file have no say. *)
Theorem permify_fails_closed env s entity permission subj :
  live s = true ->
  checkRel env s entity permission subj = true <->
  splitPermifyRef entity <> None /\ splitPermifyRef subj <> None /\
  exists pre a post, permAnswers env entity permission subj = pre ++ a :: post /\
    (length pre <= 1)%nat /\ Forall (fun x => permDo x = Err true) pre /\ permDo a = Ok true.
Proof.
  intros Hl. unfold checkRel, checkRelRaw, PermCheck. rewrite Hl. generalize (permAnswers env entity permission subj). intros l.
  destruct (splitPermifyRef entity), (splitPermifyRef subj); cbn [default]; try (split; [done|naive_solver]).
  split.
  - intros E. split; [done|]. split; [done|].
    destruct l as [|a l]; [done|]. cbn in E. destruct (permDo a) as [[]|[]] eqn:Ea; try done.
    { exists [], a, l. split_and!; [done|cbn; lia|constructor|done]. }
    destruct l as [|b l]; [done|]. cbn in E. destruct (permDo b) as [[]|[]] eqn:Eb; try done.
    exists [a], b, l. split_and!; [done|cbn; lia|by repeat constructor|done].
  - intros (_ & _ & pre & a & post & -> & Hlen & Hpre & Ha).
    destruct pre as [|x [|y pre]]; cbn in Hlen; [by cbn; rewrite Ha| |lia].
    apply Forall_cons in Hpre as [Hx _]. cbn. by rewrite Hx, Ha.
Qed.

(** The local evidence store keeps what it has. *)
Lemma worm_keeps `{Crypto} written payload w k v : w !! k = Some v -> (wormStore written payload w).1 !! k = Some v.
Proof.
  intros Hk. unfold wormStore. destruct (w !! hex (sha256 payload)) eqn:E; [exact Hk|]. destruct written; [|exact Hk].
  cbn. rewrite lookup_insert_ne; [done|]. intros <-. congruence.
Qed.

(** ** Witnesses *)

Definition demo_matter : Matter :=
  mkMatter "mtr-1" "t1" "MTR-2026-0001" "Appeal" "c1" "Client One" "tax-appeal" "active" ["ada"] "2026-01-01T00:00:00Z" "" "".
Definition demo_doc : Document :=
  mkDocument "doc-1" "mtr-1" "memo" "text/plain" 6 "00" true "user:ada" "2026-01-02T00:00:00Z".
Definition demo_due : Deadline :=
  mkDeadline "dl-1" "mtr-1" "File reply" "2026-01-03T00:00:00Z" "info" "open" false "2026-01-01T00:00:00Z".
Definition demo_store : Store :=
  mkStore {["mtr-1" := demo_matter]} {["doc-1" := demo_doc]} {["dl-1" := demo_due]} 1 {["doc-1" := "advice"]}
    [recMatter demo_matter; recDoc demo_doc; recDeadline demo_due].
Definition demo_case : Service :=
  mkService demo_store [mkTuple "matter:mtr-1" "client" "user:c1"; mkTuple "matter:mtr-1" "counsel" "user:ada"]
    false [] ∅ [].
Definition demo_env : CaseEnv :=
  mkCaseEnv "9" "2026-01-04T00:00:00Z" (1767484800 * second) 2026 (fun _ _ _ => []) ["mtr-1"] ["doc-1"] ["dl-1"].
Definition client : Caller := mkCaller "client" "user:c1".
Definition counsel : Caller := mkCaller "lawyer" "user:ada".
Definition demo_render (_ : EvidencePack) : string := "{}".
(** The client tries to make himself counsel. *)
Definition demo_op : caseOp :=
  opUpdateMatter "mtr-1" (Some (mkPatch (Some "Mine") None None (Some ["c1"]))).

Lemma demo_keyed : keyed demo_store.
Proof. split; cbn; intros id x Hx; apply lookup_singleton_Some in Hx as [<- <-]; done. Qed.

Lemma demo_outsider : outsider "mtr-1" client demo_case.
Proof. by split_and!. Qed.

(** The client tries to become counsel, then runs the deadline watch. *)
Definition demo_after (H : Crypto) : Service := caseStep demo_render demo_env client demo_op demo_case.
Definition demo_end (H : Crypto) : Service := caseStep demo_render demo_env client (opWorkflow "wf-case-deadlines") (demo_after H).

Lemma demo_trace (H : Crypto) : outsiderTrace demo_render "mtr-1" demo_case [1767484800 * second] (demo_end H).
Proof.
  apply (outsider_step demo_render "mtr-1" demo_case demo_env client (opWorkflow "wf-case-deadlines") []).
  - apply (outsider_step demo_render "mtr-1" demo_case demo_env client demo_op []); [constructor|apply demo_outsider| |done].
    split; vm_compute; reflexivity.
  - by split_and!.
  - split; vm_compute; reflexivity.
  - intros _. split; [apply NoDup_singleton|]. intros id [x Hx].
    assert (E : deadlines (store (demo_after H)) = {[ "dl-1" := demo_due ]}) by (vm_compute; reflexivity).
    change (deadlines (store (demo_after H)) !! id = Some x) in Hx. rewrite E in Hx. apply lookup_singleton_Some in Hx as [<- _]. apply list_elem_of_here.
Qed.

Lemma demo_run (H : Crypto) : outsiderRun demo_render "mtr-1" demo_case (demo_end H).
Proof. eexists. apply demo_trace. Qed.

Lemma case_no_escalation_witness :
  watchedMatter "mtr-1" [1767484800 * second] demo_case (demo_end Toy.crypto).
Proof.
  apply (case_no_escalation (H := Toy.crypto) demo_render);
    [apply demo_keyed|by exists demo_matter; apply lookup_singleton_eq|apply demo_trace].
Defined.

(** The deadline of the witness was overdue: the watch escalated it. *)
Example demo_escalated :
  option_map dl_Status (deadlineOf "mtr-1" (demo_end Toy.crypto) "dl-1") = Some "escalated".
Proof. vm_compute. reflexivity. Qed.

Lemma case_privileged_confidential_witness :
  handleGetDocContent demo_env client "doc-1" (demo_end Toy.crypto)
  = Problem 403 "forbidden".
Proof.
  apply (case_privileged_confidential (H := Toy.crypto) demo_render "mtr-1" demo_case _ demo_env client "doc-1" demo_doc);
    [apply demo_keyed|by exists demo_matter; apply lookup_singleton_eq|apply lookup_singleton_eq|done|done|apply demo_outsider|done|apply demo_run].
Defined.

Lemma scan_no_overdue_witness :
  notices (scanDeadlines demo_env demo_case) = [missedNotice "c1" demo_due] /\
  deadlines (store (scanDeadlines demo_env demo_case)) = watched (1767484800 * second) <$> deadlines demo_store.
Proof.
  split; [vm_compute; reflexivity|].
  apply (scan_no_overdue demo_env demo_case); [apply demo_keyed|apply NoDup_singleton|].
  cbn. intros id [x Hx]. apply lookup_singleton_Some in Hx as [<- _]. apply list_elem_of_here.
Defined.

Lemma demo_durable : caseDurable demo_store.
Proof. split_and!; vm_compute; reflexivity. Qed.

Lemma case_store_durable_witness :
  caseDurable (store (caseStep (H := Toy.crypto) demo_render demo_env counsel demo_op demo_case)).
Proof. apply (case_store_durable (H := Toy.crypto)); [apply demo_durable|vm_compute; reflexivity]. Defined.

Lemma case_refused_update_sticks_witness :
  exists s' t,
    handleUpdateMatter demo_env counsel "mtr-1" (Some (mkPatch (Some "Typo") (Some "done") None None)) demo_case
      = (s', Problem 422 t) /\
    m_Title <$> GetMatter "mtr-1" (store s') = Some "Typo" /\
    m_Title <$> GetMatter "mtr-1" (restart (store s')) = Some "Appeal".
Proof.
  apply (case_refused_update_sticks demo_env counsel "mtr-1" demo_matter
           (mkPatch (Some "Typo") (Some "done") None None) "Typo" "done" demo_case);
    [apply demo_durable|apply demo_keyed|apply lookup_singleton_eq|vm_compute; reflexivity..].
Defined.

Definition demo_live : Service := mkService demo_store (rel demo_case) true [] ∅ [].
Definition flaky : CaseEnv :=
  mkCaseEnv "9" "2026-01-04T00:00:00Z" (1767484800 * second) 2026 (fun _ _ _ => [answered 503 None; answered 200 (Some (Some true, ""))])
    [] [] [].

Lemma permify_fails_closed_witness : checkRel flaky demo_live "matter:mtr-1" "read" "user:x" = true.
Proof.
  apply (permify_fails_closed flaky demo_live); [reflexivity|]. split; [done|]. split; [done|].
  exists [answered 503 None], (answered 200 (Some (Some true, ""))), [].
  split_and!; [done|cbn; lia|by repeat constructor|done].
Defined.
