(* ===== verification/CaseFiles.v ===== *)
(** * case-mgmt: files and clients (services/case-mgmt/store.go, integrations.go,
    permify.go)

    What lies under the handlers: the file of the relation checker, the two
    archives of evidence, the two notifiers, and the read of the relationships
    at Permify.  A file is written by truncating and filling it, so a write can
    also leave the old content or a part of the new. *)

From S2P Require Import Prelude StrFacts Crypto CaseStore CaseHandlers.

(** ** [os.WriteFile] *)

(** Everything was written; the file could not be opened; the file was
    truncated and the first [n] bytes were written before the error or the
    crash. *)
Inductive writeOutcome := written | kept | torn (n : nat).

Definition WriteFile (w : writeOutcome) (new : string) (old : option string) : option string * bool :=
  match w with
  | written => (Some new, true)
  | kept => (old, false)
  | torn n => (Some (Str.take n new), false)
  end.

(** ** The relation checker and its file *)

Section Relations.
(** [json.MarshalIndent] and [json.Unmarshal] on the tuples *)
Variable encode : Tuples -> string.
Variable decode : string -> option Tuples.

Record RelationChecker := mkChecker { tuples : Tuples; file : option string }.

Definition load (f : option string) : Tuples :=
  match f with Some b => default [] (decode b) | None => [] end.

Definition NewRelationChecker (f : option string) : RelationChecker := mkChecker (load f) f.

(** The error of the write is dropped. *)
Definition persist (w : writeOutcome) (rc : RelationChecker) : RelationChecker :=
  mkChecker (tuples rc) (WriteFile w (encode (tuples rc)) (file rc)).1.

Definition grantFile (w : writeOutcome) (t : RelationTuple) (rc : RelationChecker) : RelationChecker :=
  if bool_decide (t ∈ tuples rc) then rc else persist w (mkChecker (tuples rc ++ [t]) (file rc)).

Definition revokeFile (w : writeOutcome) (t : RelationTuple) (rc : RelationChecker) : RelationChecker :=
  persist w (mkChecker (Revoke (Entity t) (Relation t) (Subject t) (tuples rc)) (file rc)).

Inductive relOp := grantOp (t : RelationTuple) | revokeOp (t : RelationTuple).

Definition relStep (rc : RelationChecker) (x : relOp * writeOutcome) : RelationChecker :=
  match x with
  | (grantOp t, w) => grantFile w t rc
  | (revokeOp t, w) => revokeFile w t rc
  end.

(** The abstract checker: the relations in force, and those a restart brings
    back *)
Definition absStep (s : Tuples * Tuples) (x : relOp * writeOutcome) : Tuples * Tuples :=
  let '(mem, durable) := s in
  let store ts w := match w with
                    | written => ts
                    | kept => durable
                    | torn n => if (n <? String.length (encode ts))%nat then [] else ts
                    end in
  match x with
  | (grantOp t, w) => if bool_decide (t ∈ mem) then s else (Grant t mem, store (Grant t mem) w)
  | (revokeOp t, w) => let ts := Revoke (Entity t) (Relation t) (Subject t) mem in (ts, store ts w)
  end.

Hypothesis decode_encode : forall ts, decode (encode ts) = Some ts.
Hypothesis decode_torn : forall ts n, (n < String.length (encode ts))%nat -> decode (Str.take n (encode ts)) = None.

Lemma load_write w ts f : load (WriteFile w (encode ts) f).1 =
  match w with written => ts | kept => load f | torn n => if (n <? String.length (encode ts))%nat then [] else ts end.
Proof.
  destruct w as [| |n]; cbn [WriteFile fst load]; [by rewrite decode_encode|done|]. destruct (Nat.ltb_spec n (String.length (encode ts))).
  - by rewrite decode_torn.
  - unfold Str.take. rewrite str_substring_all by done. by rewrite decode_encode.
Qed.

(** The checker and its file are the abstract checker: over any sequence of
    grants and revocations, whatever becomes of the writes, the relations in
    force are those granted and not revoked, and a restart brings back exactly
    those of the last write that reached the file - none of them when it was
    torn. *)
Theorem relations_refine f (ops : list (relOp * writeOutcome)) :
  let rc := foldl relStep (NewRelationChecker f) ops in
  let '(mem, durable) := foldl absStep (load f, load f) ops in
  tuples rc = mem /\ tuples (NewRelationChecker (file rc)) = durable.
Proof.
  assert (Hgen : forall ops rc mem durable, tuples rc = mem -> load (file rc) = durable ->
    let '(m, d) := foldl absStep (mem, durable) ops in
    tuples (foldl relStep rc ops) = m /\ load (file (foldl relStep rc ops)) = d).
  { clear ops. induction ops as [|[[t|t] w] ops IH]; intros rc mem durable Hm Hd; cbn [foldl]; [done|..].
    - cbn [relStep absStep]. unfold grantFile. rewrite Hm. case_bool_decide as Ht; [by apply IH|].
      unfold Grant. rewrite bool_decide_eq_false_2 by done. apply IH; [done|]. unfold persist. cbn [tuples file]. rewrite load_write, Hd. by destruct w.
    - cbn [relStep absStep]. apply IH; [by cbn; rewrite Hm|]. unfold revokeFile, persist. cbn [tuples file]. rewrite Hm, load_write, Hd. by destruct w. }
  exact (Hgen ops (NewRelationChecker f) _ _ eq_refl eq_refl).
Qed.

(** A revocation whose write fails is undone by a restart: the request is
    answered as revoked and the relation is gone, until the process starts
    again and grants it as before. *)
Theorem failed_revoke_returns rc t : load (file rc) = tuples rc -> t ∈ tuples rc ->
  (t ∉ tuples (revokeFile kept t rc)) /\ (t ∈ tuples (NewRelationChecker (file (revokeFile kept t rc)))).
Proof.
  intros Hl Ht. split; [|cbn; by rewrite Hl]. cbn. unfold Revoke. intros Hin. apply list_elem_of_In, filter_In in Hin as [_ Hn].
  destruct t as [e r s]. cbn in Hn. by rewrite !bool_decide_eq_true_2 in Hn.
Qed.
End Relations.

(** ** The archives of evidence *)

(** [EvidenceReceipt] with the fields the handler passes on unseen *)
Record evidenceReceipt := mkEvidence { ev_receipt : EvidenceReceipt; ev_Source : string; ev_StoredAt : string }.

Definition orDef2 (s d : string) : string := if bool_decide (s = "") then d else s.

(** The directory [worm]: payloads and manifests, by digest *)
Record LocalWORM := mkLocal { bins : gmap string string; manifests : gmap string string }.

(** What the file system does to one call; [statFails]: the file can be
    neither found nor said to be missing *)
Record WormIO := mkWormIO { mkdirOk : bool; statFails : bool; binWrite : writeOutcome; manifestWrite : writeOutcome }.

Definition put (h : string) (f : option string) (m : gmap string string) : gmap string string :=
  match f with Some b => <[h := b]> m | None => m end.

(** An answer: none, or a status and the fields of the body that decode *)
Abbreviation answerOf F := (option (Z * option F)).

Section Worm.
Context `{Crypto}.
(** The indented JSON of a manifest *)
Variable manifestText : string -> string -> list (string * string) -> string -> string.

Definition localReceipt (payload now : string) : evidenceReceipt :=
  let hexsum := hex (sha256 payload) in
  mkEvidence (mkReceipt ("ev-" +:+ Str.take 16 hexsum) hexsum ("worm://local/" +:+ hexsum)) "local" now.

Definition LocalStore (io : WormIO) (now kind payload : string) (meta : list (string * string)) (l : LocalWORM)
  : LocalWORM * option evidenceReceipt :=
  let hexsum := hex (sha256 payload) in
  if negb (mkdirOk io) then (l, None)
  else
    let missing := negb (statFails io) && bool_decide (bins l !! hexsum = None) in
    let '(f, ok) := if missing then WriteFile (binWrite io) payload (bins l !! hexsum) else (bins l !! hexsum, true) in
    let bins := put hexsum f (bins l) in
    if negb ok then (mkLocal bins (manifests l), None)
    else
      let m := (WriteFile (manifestWrite io) (manifestText hexsum kind meta now) (manifests l !! hexsum)).1 in
      (mkLocal bins (put hexsum m (manifests l)), Some (localReceipt payload now)).

(** Every payload lies under its digest. *)
Definition content_addressed (l : LocalWORM) : Prop := forall h p, bins l !! h = Some p -> h = hex (sha256 p).

Lemma put_same h (m : gmap string string) : put h (m !! h) m = m.
Proof. destruct (m !! h) eqn:E; cbn; [by rewrite insert_id|done]. Qed.

(** As long as no payload is torn and files can be found, the local archive
    is the archive of the handlers: the same receipts and the same payloads,
    each under its digest; a receipt means that a payload of its digest is
    kept, and no payload is ever replaced. *)
Theorem local_worm_refines io now kind payload meta l :
  content_addressed l -> mkdirOk io = true -> statFails io = false -> (forall n, binWrite io <> torn n) ->
  let '(l', r) := LocalStore io now kind payload meta l in
  (bins l', ev_receipt <$> r) = wormStore (match binWrite io with written => true | _ => false end) payload (bins l) /\
  content_addressed l' /\
  (forall r', r = Some r' -> exists p, bins l' !! ev_SHA256 (ev_receipt r') = Some p /\ hex (sha256 p) = ev_SHA256 (ev_receipt r')) /\
  (forall h p, bins l !! h = Some p -> bins l' !! h = Some p).
Proof.
  intros Hc Hm Hs Ht. unfold LocalStore. rewrite Hm, Hs. cbn [negb andb]. set (h := hex (sha256 payload)).
  unfold wormStore. fold h. destruct (bins l !! h) as [p|] eqn:E.
  - rewrite bool_decide_eq_false_2 by done. cbn [negb].
    assert (Hp : put h (Some p) (bins l) = bins l) by (cbn; by rewrite insert_id). rewrite Hp. cbn [bins].
    split; [done|]. split; [exact Hc|]. split; [|done]. intros r' [= <-]. cbn. exists p. split; [done|]. symmetry. exact (Hc h p E).
  - rewrite bool_decide_eq_true_2 by done. destruct (binWrite io) as [| |n] eqn:Ew; [| |by destruct (Ht n)]; cbn [WriteFile negb].
    + cbn [put bins]. split; [done|]. split.
      { intros h' p. cbn [bins]. destruct (decide (h' = h)) as [->|Hne]; [rewrite lookup_insert_eq; by intros [= <-]|]. rewrite lookup_insert_ne by done. apply Hc. }
      split; [intros r' [= <-]; cbn; exists payload; by rewrite lookup_insert_eq|].
      intros h' p Hp. rewrite lookup_insert_ne by congruence. done.
    + cbn [put bins]. done.
Qed.

(** A torn payload is certified.  When the write of a payload breaks off,
    the call fails; the next call with the same payload finds the file and
    answers with the receipt of the whole payload, while the archive - in which
    nothing is ever replaced - holds the fragment. *)
Theorem torn_worm_certified n io now kind payload meta l l1 r :
  bins l !! hex (sha256 payload) = None -> (n < String.length payload)%nat ->
  LocalStore (mkWormIO true false (torn n) (manifestWrite io)) now kind payload meta l = (l1, r) -> mkdirOk io = true ->
  r = None /\ exists l2, LocalStore io now kind payload meta l1 = (l2, Some (localReceipt payload now)) /\
    bins l2 !! hex (sha256 payload) = Some (Str.take n payload) /\ Str.take n payload <> payload.
Proof.
  intros Hn Hlen. unfold LocalStore at 1. cbn [mkdirOk statFails binWrite negb andb]. rewrite bool_decide_eq_true_2 by done. cbn [WriteFile negb put].
  intros [= <- <-] Hm. split; [done|]. unfold LocalStore. rewrite Hm. cbn [negb bins manifests]. rewrite lookup_insert_eq, bool_decide_eq_false_2 by done.
  rewrite andb_false_r. cbn [negb put]. eexists. split; [reflexivity|]. cbn [bins]. rewrite lookup_insert_eq. split; [done|].
  intros E. apply (f_equal String.length) in E. unfold Str.take in E. revert E.
  assert (Hs : forall s m, (m < String.length s)%nat -> String.length (String.substring 0 m s) = m).
  { induction s as [|c s IH]; intros [|m] Hl; cbn in *; [lia|lia|done|]. by rewrite IH by lia. }
  rewrite Hs by done. lia.
Qed.

(** ** The clients of the archive and of the notifier *)

Record evidenceRequest := mkEvidenceRequest { er_kind : string; er_sha256 : string; er_payload : string; er_meta : list (string * string) }.

Definition HTTPWORM_request (kind payload : string) (meta : list (string * string)) : evidenceRequest :=
  mkEvidenceRequest kind (hex (sha256 payload)) payload meta.

(** The error of the decoder is dropped. *)
Definition HTTPWORM_Store (fresh now payload : string) (a : answerOf (string * string)) : option evidenceReceipt :=
  match a with
  | None => None
  | Some (code, body) =>
      if 300 <=? code then None
      else
        let '(id, uri) := default ("", "") body in
        Some (mkEvidence (mkReceipt (orDef2 id ("ev-" +:+ fresh)) (hex (sha256 payload)) (orDef2 uri ("worm://core/" +:+ id))) "core" now)
  end.

(** The archive of the core is taken at its status: any page below 300,
    whatever its body, yields a receipt with an identifier of this process's
    own making, the digest of the payload, and an address that names nothing. *)
Theorem http_worm_invents_receipt fresh now payload code body : code < 300 ->
  exists r, HTTPWORM_Store fresh now payload (Some (code, body)) = Some r /\ ev_SHA256 (ev_receipt r) = hex (sha256 payload) /\
    (body = None -> ev_ID (ev_receipt r) = "ev-" +:+ fresh /\ WORMURI (ev_receipt r) = "worm://core/").
Proof.
  intros Hc. unfold HTTPWORM_Store. destruct (Z.leb_spec 300 code); [lia|]. destruct (default ("", "") body) as [id uri] eqn:E.
  eexists. split; [reflexivity|]. split; [done|]. intros ->. cbn in E. by injection E as <- <-.
Qed.
End Worm.

Definition truncate (s : string) (n : nat) : string := if (String.length s <=? n)%nat then s else Str.take n s +:+ "...".

Definition HTTPNotifier_Send (fresh : string) (a : answerOf string) : option string :=
  match a with
  | None => None
  | Some (code, body) => if 300 <=? code then None else Some (orDef2 (default "" body) ("ntf-" +:+ fresh))
  end.

(** The log line and the identifier *)
Definition LogNotifier_Send (fresh channel to subject body : string) : string * string :=
  let id := "ntf-" +:+ fresh in
  (channel +:+ " -> " +:+ to +:+ " | " +:+ subject +:+ " | " +:+ truncate body 80 +:+ " (id=" +:+ id +:+ ")", id).

(** ** Relationships at Permify *)

Definition ref : Type := string * string.
Definition refText (r : ref) : string := r.1 +:+ ":" +:+ r.2.

Record readRequest := mkRead { rd_entity : option ref; rd_relation : string }.

(** [None]: the entity is no reference *)
Definition readRequestOf (entity relation : string) : option readRequest :=
  if bool_decide (entity = "") then Some (mkRead None relation)
  else match splitPermifyRef entity with Some e => Some (mkRead (Some e) relation) | None => None end.

Definition tupleOf (x : ref * string * ref) : RelationTuple := mkTuple (refText x.1.1) x.1.2 (refText x.2).

Definition ReadRelationships (server : readRequest -> answerOf (list (ref * string * ref))) (entity relation : string)
  : option (list RelationTuple) :=
  match readRequestOf entity relation with
  | None => None
  | Some q =>
      match server q with
      | Some (200, Some l) => Some (map tupleOf l)
      | _ => None
      end
  end.

(** The stored form of a tuple, and the read that a server answers from what
    it stores *)
Definition stored (t : RelationTuple) : option (ref * string * ref) :=
  match splitPermifyRef (Entity t), splitPermifyRef (Subject t) with
  | Some e, Some s => Some (e, Relation t, s)
  | _, _ => None
  end.

Definition matchesRead (q : readRequest) (x : ref * string * ref) : bool :=
  match rd_entity q with Some e => bool_decide (x.1.1 = e) | None => true end && (bool_decide (rd_relation q = "") || bool_decide (x.1.2 = rd_relation q)).

Lemma refText_split s r : splitPermifyRef s = Some r -> refText r = s.
Proof.
  unfold splitPermifyRef. destruct (Str.cut ":" s) as [[t i]|] eqn:E; [|done]. destruct (_ || _); [done|]. intros [= <-].
  apply cut_spec in E as [-> _]. done.
Qed.

(** Permify gives back what it was given: what the service writes there is
    listed again, in the very form it was granted in, by every read whose
    entity and relation it matches - and nothing else is. *)
Theorem permify_lists_what_was_granted server (facts : list (ref * string * ref)) ts entity relation :
  (forall q, server q = Some (200, Some (List.filter (matchesRead q) facts))) -> mapM stored ts = Some facts ->
  (entity = "" \/ splitPermifyRef entity <> None) ->
  ReadRelationships server entity relation = Some (List.filter (fun t =>
    (bool_decide (entity = "") || bool_decide (Entity t = entity)) && (bool_decide (relation = "") || bool_decide (Relation t = relation))) ts).
Proof.
  intros Hserver Hts He. unfold ReadRelationships.
  assert (Hq : exists e, readRequestOf entity relation = Some (mkRead e relation) /\
    forall t x, stored t = Some x -> matchesRead (mkRead e relation) x =
      (bool_decide (entity = "") || bool_decide (Entity t = entity)) && (bool_decide (relation = "") || bool_decide (Relation t = relation))).
  { unfold readRequestOf, matchesRead, stored. cbn [rd_entity rd_relation]. case_bool_decide as Hempty.
    - exists None. split; [done|]. intros t x. destruct (splitPermifyRef (Entity t)), (splitPermifyRef (Subject t)); [|done..]. by intros [= <-].
    - destruct (splitPermifyRef entity) as [e|] eqn:Ee; [|by destruct He]. exists (Some e). split; [done|]. intros t x.
      destruct (splitPermifyRef (Entity t)) as [e'|] eqn:Et; [|done]. destruct (splitPermifyRef (Subject t)); [|done]. intros [= <-]. cbn [fst snd orb].
      f_equal. apply bool_decide_ext. split; [intros ->|intros Heq]; [|congruence].
      by rewrite <- (refText_split _ _ Et), <- (refText_split _ _ Ee). }
  destruct Hq as (e & -> & Hm). rewrite Hserver. f_equal. clear Hserver He.
  apply mapM_Some in Hts. induction Hts as [|t x ts facts Ex _ IH]; [done|]. cbn [List.filter]. rewrite (Hm t x Ex).
  destruct (_ && _); cbn [map]; [|exact IH]. f_equal; [|exact IH].
  destruct t as [te tr ts']. unfold stored in Ex. cbn [Entity Subject Relation] in Ex.
  destruct (splitPermifyRef te) eqn:E1; [|done]. destruct (splitPermifyRef ts') eqn:E2; [|done]. injection Ex as <-.
  unfold tupleOf. cbn [fst snd]. by rewrite (refText_split _ _ E1), (refText_split _ _ E2).
Qed.

(** ** The properties at concrete inputs *)

(** An encoding of tuples whose proper prefixes do not decode: the number of
    the tuples in unary, closed by a bracket *)
Definition fields (t : RelationTuple) : string * string * string := (Entity t, Relation t, Subject t).
Definition unfields (x : string * string * string) : RelationTuple := mkTuple x.1.1 x.1.2 x.2.

Fixpoint ones (n : nat) : string := match n with O => "]" | S n => String "1" (ones n) end.
Fixpoint unones (s : string) : option nat :=
  match s with
  | String "1" s => S <$> unones s
  | "]" => Some O
  | _ => None
  end.

Lemma unones_ones n : unones (ones n) = Some n.
Proof. induction n as [|n IH]; [done|]. cbn. by rewrite IH. Qed.

Lemma unones_torn n m : (m < String.length (ones n))%nat -> unones (Str.take m (ones n)) = None.
Proof.
  unfold Str.take. revert m. induction n as [|n IH]; intros [|m] Hm; cbn in *; [done|lia|done|]. by rewrite IH by lia.
Qed.

Definition toy_encode (ts : Tuples) : string := ones (encode_nat (map fields ts)).
Definition toy_decode (s : string) : option Tuples := n ← unones s; map unfields <$> (decode_nat n : option (list (string * string * string))).

Lemma toy_decode_encode ts : toy_decode (toy_encode ts) = Some ts.
Proof.
  unfold toy_decode, toy_encode. rewrite unones_ones. cbn. rewrite decode_encode_nat. cbn. f_equal. rewrite map_map.
  induction ts as [|[] ts IH]; [done|]. cbn [map]. by rewrite IH.
Qed.

Lemma toy_decode_torn ts n : (n < String.length (toy_encode ts))%nat -> toy_decode (Str.take n (toy_encode ts)) = None.
Proof. intros Hn. unfold toy_decode, toy_encode in *. by rewrite unones_torn. Qed.

Definition demo_tuple : RelationTuple := mkTuple "matter:mtr-1" "counsel" "user:ada".
Definition demo_ops : list (relOp * writeOutcome) := [(grantOp demo_tuple, written); (revokeOp demo_tuple, kept)].

Lemma relations_refine_witness :
  let rc := foldl (relStep toy_encode) (NewRelationChecker toy_decode None) demo_ops in
  let '(mem, durable) := foldl (absStep toy_encode) (load toy_decode None, load toy_decode None) demo_ops in
  tuples rc = mem /\ tuples (NewRelationChecker toy_decode (file rc)) = durable.
Proof. apply (relations_refine toy_encode toy_decode toy_decode_encode toy_decode_torn None demo_ops). Defined.

(** ... where the revoked relation is the durable one *)
Example demo_ops_durable : foldl (absStep (fun _ => "[]")) ([], []) demo_ops = ([], [demo_tuple]).
Proof. reflexivity. Qed.

Definition const_decode (s : string) : option Tuples := if bool_decide (s = "[t]") then Some [demo_tuple] else None.

Lemma failed_revoke_returns_witness :
  let rc := NewRelationChecker const_decode (Some "[t]") in
  (demo_tuple ∉ tuples (revokeFile toy_encode kept demo_tuple rc)) /\
  (demo_tuple ∈ tuples (NewRelationChecker const_decode (file (revokeFile toy_encode kept demo_tuple rc)))).
Proof.
  apply (failed_revoke_returns toy_encode const_decode (NewRelationChecker const_decode (Some "[t]")) demo_tuple).
  - reflexivity.
  - apply list_elem_of_singleton. reflexivity.
Defined.

Definition demo_manifest (h k : string) (meta : list (string * string)) (now : string) : string := h +:+ k +:+ now.
Definition demo_worm : LocalWORM := mkLocal ∅ ∅.
Definition fine : WormIO := mkWormIO true false written written.

Lemma local_worm_refines_witness :
  let '(l', r) := LocalStore (H := Toy.crypto) demo_manifest fine "now" "k" "pack" [] demo_worm in
  (bins l', ev_receipt <$> r) = wormStore (H := Toy.crypto) true "pack" ∅ /\
  content_addressed (H := Toy.crypto) l' /\
  (forall r', r = Some r' -> exists p, bins l' !! ev_SHA256 (ev_receipt r') = Some p /\ hex (sha256 (Crypto := Toy.crypto) p) = ev_SHA256 (ev_receipt r')) /\
  (forall h p, (∅ : gmap string string) !! h = Some p -> bins l' !! h = Some p).
Proof.
  apply (local_worm_refines (H := Toy.crypto) demo_manifest fine "now" "k" "pack" [] demo_worm).
  - intros h p Hp. cbn in Hp. by rewrite lookup_empty in Hp.
  - reflexivity.
  - reflexivity.
  - intros n. discriminate.
Defined.

Lemma torn_worm_certified_witness :
  let h := hex (sha256 (Crypto := Toy.crypto) "pack") in
  (None : option evidenceReceipt) = None /\
  exists l2, LocalStore (H := Toy.crypto) demo_manifest fine "now" "k" "pack" [] (mkLocal (<[h := "pa"]> ∅) ∅) = (l2, Some (localReceipt (H := Toy.crypto) "pack" "now")) /\
    bins l2 !! h = Some (Str.take 2 "pack") /\ Str.take 2 "pack" <> "pack".
Proof.
  apply (torn_worm_certified (H := Toy.crypto) demo_manifest 2 fine "now" "k" "pack" [] demo_worm _ None).
  - reflexivity.
  - cbn. lia.
  - vm_compute. reflexivity.
  - reflexivity.
Defined.

Lemma http_worm_invents_receipt_witness :
  exists r, HTTPWORM_Store (H := Toy.crypto) "01J" "now" "pack" (Some (200, None)) = Some r /\
    ev_SHA256 (ev_receipt r) = hex (sha256 (Crypto := Toy.crypto) "pack") /\
    ((None : option (string * string)) = None -> ev_ID (ev_receipt r) = "ev-" +:+ "01J" /\ WORMURI (ev_receipt r) = "worm://core/").
Proof. apply (http_worm_invents_receipt (H := Toy.crypto) "01J" "now" "pack" 200 None). reflexivity. Defined.

Definition demo_facts : list (ref * string * ref) := [(("matter", "mtr-1"), "counsel", ("user", "ada")); (("matter", "mtr-2"), "client", ("user", "bola"))].
Definition demo_granted : Tuples := [demo_tuple; mkTuple "matter:mtr-2" "client" "user:bola"].

Lemma permify_lists_what_was_granted_witness :
  ReadRelationships (fun q => Some (200, Some (List.filter (matchesRead q) demo_facts))) "matter:mtr-1" "" =
  Some (List.filter (fun t => (bool_decide ("matter:mtr-1" = "") || bool_decide (Entity t = "matter:mtr-1")) &&
    (bool_decide ("" = "") || bool_decide (Relation t = ""))) demo_granted).
Proof.
  apply (permify_lists_what_was_granted (fun q => Some (200, Some (List.filter (matchesRead q) demo_facts))) demo_facts demo_granted "matter:mtr-1" "").
  - intros q. reflexivity.
  - vm_compute. reflexivity.
  - right. vm_compute. discriminate.
Defined.
