(* ===== verification/EinvIrn.v ===== *)
(** * einvoicing: invoice reference numbers (services/einvoicing/nrs_irn.go)

    Building and reading the reference number of an invoice, the date stamp,
    and the registry of the service identifiers NRS assigns to businesses. *)

From S2P Require Import Prelude StrFacts GoTime.

(** [serviceIDPattern]: eight letters or digits *)
Definition ValidServiceID (s : string) : bool :=
  bool_decide (String.length s = 8%nat) && Str.all Str.is_alnum s.

(** [time.Parse("20060102", d)] succeeds *)
Definition validDay8 (d : string) : bool :=
  match num 4 0 d with
  | Some (y, s) =>
      match num 2 0 s with
      | Some (mo, s) =>
          match num 2 0 s with
          | Some (day, s) => bool_decide (s = "") && (1 <=? mo) && (mo <=? 12) && (1 <=? day) && (day <=? days_in mo y)
          | None => false
          end
      | None => false
      end
  | None => false
  end.

Definition DateStamp (issueDate : string) : result string string :=
  let d := Str.trim_space (Str.remove "-" issueDate) in
  if negb (bool_decide (String.length d = 8%nat)) then Err "date stamp invalid: want YYYYMMDD"
  else if validDay8 d then Ok d else Err "date stamp invalid".

Definition BuildIRN (invoiceNumber serviceID issueDate : string) : result string string :=
  let invoiceNumber := Str.trim_space invoiceNumber in
  if bool_decide (invoiceNumber = "") then Err "invoice number is required for IRN"
  else if negb (ValidServiceID serviceID) then Err "service id invalid: must be 8 alphanumeric characters"
  else ds ← DateStamp issueDate; mret (invoiceNumber +:+ "-" +:+ serviceID +:+ "-" +:+ ds).

(** Cut at the last hyphen, neither part empty *)
Definition lastHyphen (s : string) : option (string * string) :=
  match Str.cut_last "-" s with
  | Some (a, b) => if bool_decide (a = "") || bool_decide (b = "") then None else Some (a, b)
  | None => None
  end.

Definition ParseIRN (irn : string) : result string (string * string * string) :=
  match lastHyphen (Str.trim_space irn) with
  | None => Err "irn malformed: want <InvoiceNumber>-<ServiceID>-<YYYYMMDD>"
  | Some (rest, dateStamp) =>
      match lastHyphen rest with
      | None => Err "irn malformed: want <InvoiceNumber>-<ServiceID>-<YYYYMMDD>"
      | Some (invoiceNumber, serviceID) =>
          if negb (ValidServiceID serviceID) then Err "irn malformed: service id must be 8 alphanumeric characters"
          else _ ← DateStamp dateStamp; mret (invoiceNumber, serviceID, dateStamp)
      end
  end.

Definition ValidIRN (irn : string) : bool := match ParseIRN irn with Ok _ => true | Err _ => false end.

(** ** The registry of service identifiers *)

Abbreviation ServiceIDRegistry := (gmap string string).

Definition Register (businessID serviceID : string) (r : ServiceIDRegistry) : ServiceIDRegistry * option string :=
  if bool_decide (Str.trim_space businessID = "") then (r, Some "business_id required")
  else if negb (ValidServiceID serviceID) then (r, Some "service id invalid: must be 8 alphanumeric characters")
  else match r !! businessID with
       | Some existing =>
           if negb (bool_decide (existing = serviceID)) then (r, Some "business already registered with another service id")
           else (<[businessID := serviceID]> r, None)
       | None => (<[businessID := serviceID]> r, None)
       end.

Definition Lookup (businessID : string) (r : ServiceIDRegistry) : string := default "" (r !! businessID).

Definition serviceIDAlphabet : string := "ABCDEFGHIJKLMNOPQRSTUVWXYZ0123456789".

(** From eight random bytes *)
Fixpoint serviceIDOf (raw : string) : string :=
  match raw with
  | EmptyString => EmptyString
  | String b raw =>
      String (default "A"%char (String.get (Ascii.nat_of_ascii b mod 36) serviceIDAlphabet)) (serviceIDOf raw)
  end.

(** [raw]: the bytes of the random source, [None] when it fails *)
Definition GetOrAssign (businessID : string) (raw : option string) (r : ServiceIDRegistry)
  : ServiceIDRegistry * result string string :=
  if negb (bool_decide (Lookup businessID r = "")) then (r, Ok (Lookup businessID r))
  else match raw with
       | None => (r, Err "random source")
       | Some raw =>
           let id := serviceIDOf raw in
           match r !! businessID with
           | Some existing => (r, Ok existing)
           | None => (<[businessID := id]> r, Ok id)
           end
       end.

Example irn_example : BuildIRN "INV0001" "94ND90NR" "2026-01-27" = Ok "INV0001-94ND90NR-20260127".
Proof. vm_compute. reflexivity. Qed.
Example irn_bad_day : ValidIRN "INV0001-94ND90NR-20260231" = false.
Proof. vm_compute. reflexivity. Qed.

(** ** Lemmas *)

Lemma digit_facts c : Str.is_digit c = true -> Str.is_alnum c = true /\ c <> "-"%char /\ Str.is_space c = false.
Proof.
  destruct c as [[] [] [] [] [] [] [] []]; vm_compute; try discriminate; intros _; split_and!; done.
Qed.

Lemma alnum_not_hyphen c : Str.is_alnum c = true -> c <> "-"%char.
Proof. intros Hc ->. done. Qed.

Lemma all_no_hyphen s : Str.all Str.is_alnum s = true -> Str.contains "-" s = false.
Proof. intros Hs. eapply str_all_contains; [exact Hs|done]. Qed.

(** What [num] consumes are digits *)
Lemma num_digits k acc s n rest :
  num k acc s = Some (n, rest) -> exists d, s = d +:+ rest /\ String.length d = k /\ Str.all Str.is_digit d = true.
Proof.
  revert acc s. induction k as [|k IH]; intros acc s; cbn [num].
  - intros [= _ ->]. by exists "".
  - destruct s as [|c s]; [done|]. unfold digit_val. destruct (Str.is_digit c) eqn:Ec; [|done].
    cbn [mbind option_bind]. intros (d & -> & Hl & Hd)%IH. exists (String c d). split; [done|].
    cbn [String.length Str.all]. by rewrite Hl, Ec, Hd.
Qed.

Lemma validDay8_digits d : validDay8 d = true -> Str.all Str.is_digit d = true /\ String.length d = 8%nat.
Proof.
  unfold validDay8. destruct (num 4 0 d) as [[y s]|] eqn:E1; [|done].
  destruct (num 2 0 s) as [[mo s2]|] eqn:E2; [|done]. destruct (num 2 0 s2) as [[day s3]|] eqn:E3; [|done].
  intros Hv. bools. subst.
  apply num_digits in E1 as (a & -> & La & Ha). apply num_digits in E2 as (b & -> & Lb & Hb).
  apply num_digits in E3 as (c & -> & Lc & Hc). rewrite !str_all_app, !str_length_app, Ha, Hb, Hc. cbn. split; [done|lia].
Qed.

Lemma DateStamp_digits s d : DateStamp s = Ok d -> Str.all Str.is_digit d = true /\ String.length d = 8%nat.
Proof.
  unfold DateStamp. destruct (negb _); [done|]. destruct (validDay8 _) eqn:E; [|done]. intros [= <-]. by apply validDay8_digits.
Qed.

Lemma remove_none c s : Str.contains c s = false -> Str.remove c s = s.
Proof.
  induction s as [|d s IH]; [done|]. cbn [Str.contains Str.remove]. intros [Hd Hs]%orb_false_iff.
  apply bool_decide_eq_false_1 in Hd. rewrite bool_decide_false by congruence. by rewrite IH.
Qed.

Lemma digits_unspaced s : Str.all Str.is_digit s = true -> unspaced s = true.
Proof. destruct s as [|c s]; [done|]. cbn. intros [Hc _]%andb_true_iff. by apply digit_facts in Hc as (_ & _ & ->). Qed.

Lemma str_all_rev P s : Str.all P (Str.rev s) = Str.all P s.
Proof. induction s as [|c s IH]; [done|]. rewrite rev_cons, str_all_app, IH. cbn. by rewrite andb_true_r, andb_comm. Qed.

Lemma digits_no_hyphen s : Str.all Str.is_digit s = true -> Str.contains "-" s = false.
Proof. intros Hs. eapply str_all_contains; [exact Hs|done]. Qed.

(** The stamp of a stamp is itself. *)
Lemma DateStamp_idem s d : DateStamp s = Ok d -> DateStamp d = Ok d.
Proof.
  intros Hs. destruct (DateStamp_digits _ _ Hs) as [Hd Hl]. unfold DateStamp in *.
  rewrite remove_none by by apply digits_no_hyphen.
  rewrite trim_space_id by (rewrite ?digits_unspaced; rewrite ?str_all_rev; done).
  rewrite bool_decide_true by done. cbn [negb].
  destruct (negb _); [done|]. destruct (validDay8 _) eqn:E; [|done]. injection Hs as Hs. by rewrite <-Hs, E.
Qed.

Lemma lastHyphen_app a b : a <> "" -> b <> "" -> Str.contains "-" b = false -> lastHyphen (a +:+ "-" +:+ b) = Some (a, b).
Proof.
  intros Ha Hb Hc. unfold lastHyphen. change ("-" +:+ b) with (String "-" b). rewrite cut_last_app by done.
  by rewrite !bool_decide_false.
Qed.

Lemma irn_reads n s date irn :
  BuildIRN n s date = Ok irn ->
  exists ds, DateStamp date = Ok ds /\ validDay8 ds = true /\ String.length ds = 8%nat /\
    ParseIRN irn = Ok (Str.trim_space n, s, ds) /\ ValidIRN irn = true.
Proof.
  unfold BuildIRN. destruct (bool_decide (Str.trim_space n = "")) eqn:En; [done|].
  destruct (ValidServiceID s) eqn:Es; [|done]. cbn [negb]. bools.
  destruct (DateStamp date) as [ds|] eqn:Ed; [|done]. cbn [mbind result_bind mret result_ret]. intros [= <-].
  destruct (DateStamp_digits _ _ Ed) as [Hd Hl]. pose proof (DateStamp_idem _ _ Ed) as Hi.
  assert (Hne : ds <> "") by by intros ->.
  assert (Hs : s <> "" /\ Str.contains "-" s = false).
  { unfold ValidServiceID in Es. bools. split; [by intros ->|by apply all_no_hyphen]. }
  assert (Hp : ParseIRN (Str.trim_space n +:+ "-" +:+ s +:+ "-" +:+ ds) = Ok (Str.trim_space n, s, ds)).
  { unfold ParseIRN. destruct (trim_space_unspaced n) as [Hu _].
    replace (Str.trim_space n +:+ "-" +:+ s +:+ "-" +:+ ds) with (Str.trim_space n +:+ ("-" +:+ s +:+ "-") +:+ ds)
      by by rewrite <- !str_app_assoc.
    rewrite trim_space_app; [|done..|by rewrite digits_unspaced; rewrite ?str_all_rev].
    replace (Str.trim_space n +:+ ("-" +:+ s +:+ "-") +:+ ds) with ((Str.trim_space n +:+ "-" +:+ s) +:+ "-" +:+ ds)
      by by rewrite <- !str_app_assoc.
    rewrite lastHyphen_app; [|by destruct (Str.trim_space n)|done|by apply digits_no_hyphen].
    rewrite lastHyphen_app by naive_solver. by rewrite Es, Hi. }
  exists ds. split; [done|]. split; [|split; [done|split; [done|unfold ValidIRN; by rewrite Hp]]].
  unfold DateStamp in Ed. destruct (negb _); [done|]. destruct (validDay8 _) eqn:E; [|done]. by injection Ed as <-.
Qed.

(** C28: Reading an invoice reference number gives back exactly what it was
    built from - the trimmed invoice number, whatever hyphens it has, the
    service identifier and the date stamp -, so two invoices share a reference
    number only if they share all three; and a stamp is eight digits that name
    a day of the calendar. *)
Theorem irn_roundtrip n s date irn :
  BuildIRN n s date = Ok irn ->
  exists ds, DateStamp date = Ok ds /\ validDay8 ds = true /\ String.length ds = 8%nat /\
    ParseIRN irn = Ok (Str.trim_space n, s, ds) /\ ValidIRN irn = true.
Proof. apply irn_reads. Qed.

(** ** The registry *)

Inductive regOp :=
| regRegister (businessID serviceID : string)
| regAssign (businessID : string) (raw : option string).

Definition regStep (r : ServiceIDRegistry) (o : regOp) : ServiceIDRegistry :=
  match o with
  | regRegister b s => (Register b s r).1
  | regAssign b raw => (GetOrAssign b raw r).1
  end.

(** The random source gives eight bytes. *)
Definition eightBytes (o : regOp) : Prop :=
  match o with regAssign _ (Some raw) => String.length raw = 8%nat | _ => True end.

Lemma serviceIDOf_alnum raw :
  Str.all Str.is_alnum (serviceIDOf raw) = true /\ String.length (serviceIDOf raw) = String.length raw.
Proof.
  induction raw as [|b raw [IH1 IH2]]; [done|]. cbn [serviceIDOf Str.all String.length]. rewrite IH1, IH2, andb_true_r.
  split; [|done]. destruct b as [[] [] [] [] [] [] [] []]; vm_compute; reflexivity.
Qed.

Lemma serviceIDOf_valid raw : String.length raw = 8%nat -> ValidServiceID (serviceIDOf raw) = true.
Proof.
  intros Hl. destruct (serviceIDOf_alnum raw) as [Ha Hn]. unfold ValidServiceID.
  by rewrite Hn, Ha, bool_decide_true.
Qed.

Definition validIDs (r : ServiceIDRegistry) : Prop := forall b i, r !! b = Some i -> ValidServiceID i = true.

Lemma regStep_keeps r o b i :
  validIDs r -> eightBytes o ->
  validIDs (regStep r o) /\ (r !! b = Some i -> regStep r o !! b = Some i).
Proof.
  intros Hv Ho. destruct o as [b' s|b' raw]; cbn [regStep].
  - unfold Register. destruct (bool_decide _); [done|]. destruct (ValidServiceID s) eqn:Es; [|done]. cbn [negb].
    assert (Hins : validIDs (<[b' := s]> r)) by (intros x j [[<- <-]|[_ Hx]]%lookup_insert_Some; [done|by apply (Hv x)]).
    destruct (r !! b') as [e|] eqn:Eb.
    + destruct (bool_decide (e = s)) eqn:Ee; bools; [|done]. subst. cbn. split; [done|].
      intros Hb. destruct (decide (b = b')) as [->|Hne]; [|by rewrite lookup_insert_ne].
      rewrite lookup_insert, decide_True by done. congruence.
    + cbn. split; [done|]. intros Hb. rewrite lookup_insert_ne; [done|congruence].
  - unfold GetOrAssign. destruct (negb _); [done|]. destruct raw as [raw|]; [|done].
    destruct (r !! b') as [e|] eqn:Eb; [done|]. cbn. split.
    + intros x j [[<- <-]|[_ Hx]]%lookup_insert_Some; [by apply serviceIDOf_valid|by apply (Hv x)].
    + intros Hb. rewrite lookup_insert_ne; [done|congruence].
Qed.

(** C35: Whatever is registered or assigned, in any order, a business that has
    a service identifier keeps it: a later registration with another one is
    refused, an assignment returns the one it has.  And every identifier ever
    held is eight letters or digits. *)
Theorem serviceid_stable ops r b i :
  validIDs r -> Forall eightBytes ops ->
  let r' := foldl regStep r ops in
  validIDs r' /\
  (r !! b = Some i -> r' !! b = Some i /\ (forall raw, GetOrAssign b raw r' = (r', Ok i)) /\
     (forall j, j <> i -> exists e, Register b j r' = (r', Some e))).
Proof.
  intros Hv Ho r'. assert (Hr : validIDs r' /\ (r !! b = Some i -> r' !! b = Some i)).
  { unfold r'. clear r'. revert r Hv. induction ops as [|o ops IH]; intros r Hv; [done|]. cbn [foldl].
    apply Forall_cons in Ho as [Ho Hos]. destruct (regStep_keeps r o b i Hv Ho) as [H1 H2].
    destruct (IH Hos (regStep r o) H1) as [H3 H4]. auto. }
  destruct Hr as [Hr1 Hr2]. split; [done|]. intros Hb. pose proof (Hr2 Hb) as Hb'. split; [done|].
  assert (Hi : i <> "") by (intros ->; pose proof (Hr1 _ _ Hb'); done).
  split.
  - intros raw. unfold GetOrAssign, Lookup. rewrite Hb'. cbn. by rewrite bool_decide_false.
  - intros j Hj. unfold Register. destruct (bool_decide _); [by eexists|]. destruct (negb (ValidServiceID j)); [by eexists|].
    rewrite Hb', bool_decide_false by congruence. by eexists.
Qed.

Lemma irn_roundtrip_witness :
  exists ds, DateStamp "2026-01-27" = Ok ds /\ validDay8 ds = true /\ String.length ds = 8%nat /\
    ParseIRN "INV-2026-7-94ND90NR-20260127" = Ok (Str.trim_space " INV-2026-7 ", "94ND90NR", ds) /\
    ValidIRN "INV-2026-7-94ND90NR-20260127" = true.
Proof. apply (irn_roundtrip " INV-2026-7 " "94ND90NR" "2026-01-27"). vm_compute. reflexivity. Defined.

Lemma serviceid_stable_witness :
  let r := {["b1" := "94ND90NR"]} : ServiceIDRegistry in
  foldl regStep r [regRegister "b1" "AAAAAAAA"; regAssign "b2" (Some "01234567")] !! "b1" = Some "94ND90NR".
Proof.
  intros r. apply (serviceid_stable [regRegister "b1" "AAAAAAAA"; regAssign "b2" (Some "01234567")] r "b1" "94ND90NR").
  - intros b i [_ <-]%lookup_singleton_Some. reflexivity.
  - by repeat constructor.
  - apply lookup_singleton_eq.
Defined.
