(* ===== verification/EinvModel.v ===== *)
(** * einvoicing: the canonical invoice (services/einvoicing/model.go,
    citations.go)

    The invoice of every adapter, the computation of its totals, and the two
    hashes: of the content, and of the core fields that are locked when the
    invoice is signed.  A zero [time.Time] is [None]; other times are
    nanoseconds.  A null list reads as an empty one. *)

From S2P Require Import Prelude StrFacts Crypto GoJson.
From S2P Require PosStore Citation.
From coqutil Require Export Datatypes.RecordSetters.
Export RecordSetters.DoubleBraceUpdate.

Record Party := mkParty {
  TIN : string;
  p_Name : string;
  Address : string;
  City : string;
  State : string;
  Country : string;
  Email : string;
}.
#[export] Instance Party_eq_dec : EqDecision Party.
Proof. solve_decision. Defined.

Record InvoiceLine := mkLine {
  l_ID : string;
  Description : string;
  QuantityMilli : Z;
  UnitPriceKobo : Z;
  LineTotalKobo : Z;
  VatCategory : string;
  VatRateBps : Z;
  VatAmountKobo : Z;
  Citations : list PosStore.Citation;
}.

Record CryptoStamp := mkStamp {
  Algorithm : string;
  KeyID : string;
  st_IRN : string;
  Payload : string;
  Signature : string;
  StampedAt : string;
}.

Record Violation := mkViolation { v_Pack : string; v_Message : string; v_Severity : string }.

Record AuditEntry := mkAudit { a_At : string; Action : string; Detail : string; Actor : string }.

Record CanonicalInvoice := mkInvoice {
  ID : string;
  TenantID : string;
  InvoiceNumber : string;
  InvoiceType : string;
  IssueDate : string;
  DueDate : string;
  Currency : string;
  Supplier : Party;
  Customer : Party;
  Lines : list InvoiceLine;
  TaxExclusiveKobo : Z;
  TaxKobo : Z;
  PayableKobo : Z;
  Status : string;
  IRN : string;
  Stamp : option CryptoStamp;
  CSIDSignature : string;
  CSIDKeyID : string;
  IdempotencyKey : string;
  SourceAdapter : string;
  BusinessID : string;
  ServiceID : string;
  InvoiceTypeCode : string;
  PaymentStatus : string;
  PaymentReference : string;
  SignedCoreHash : string;
  NRSPayload : string;
  Audit : list AuditEntry;
  UBLXML : string;
  Validation : list Violation;
  CreatedAt : option Z;
  UpdatedAt : option Z;
}.

(** ** Totals *)

Definition RoundBpsHalfUp (amountKobo rateBps : Z) : Z :=
  if 0 <=? amountKobo then (amountKobo *! rateBps +! 5000) /! 10000
  else -! ((-! amountKobo *! rateBps +! 5000) /! 10000).

(** [vatRuleByCategory]: the rule and the text when no row covers it *)
Definition vatRuleByCategory (cat : string) : option (string * string) :=
  if bool_decide (cat = "S") then Some ("vat.rate.standard", "VAT Act (as amended by Finance Act 2019), standard rate 7.5%")
  else if bool_decide (cat = "Z") then
    Some ("vat.rate.zero", "Nigeria Tax Act 2025 s.187, zero-rated supplies (0%; input VAT recoverable)")
  else if bool_decide (cat = "E") then
    Some ("vat.rate.exempt", "VAT Act, First Schedule " +:+ String "226" (String "128" (String "148" "")) +:+
                             " exempt supplies (no input VAT recovery)")
  else None.

Section Model.
Context (citations : Citation.CitationResolver).

Definition attachCitation (l : InvoiceLine) : InvoiceLine :=
  match vatRuleByCategory (VatCategory l) with
  | None => l
  | Some (rule, text) => l{{ Citations := [Citation.Resolve citations "rp-vat-rates" "1.0.0" rule text] }}
  end.

Definition attachCitations (inv : CanonicalInvoice) : CanonicalInvoice :=
  inv{{ Lines := map attachCitation (Lines inv) }}.

(** One line, at index [i], before the citations *)
Definition normaliseLine (i : Z) (l : InvoiceLine) : InvoiceLine :=
  let cat := Str.or_default (VatCategory l) "S" in
  let rate := if bool_decide (cat = "S") && (VatRateBps l =? 0) then 750 else VatRateBps l in
  let total := if (LineTotalKobo l =? 0) && negb (QuantityMilli l =? 0)
               then (QuantityMilli l *! UnitPriceKobo l) /! 1000 else LineTotalKobo l in
  mkLine (Str.or_default (l_ID l) (pretty (i + 1))) (Description l) (QuantityMilli l) (UnitPriceKobo l) total cat rate
    (RoundBpsHalfUp total rate) (Citations l).

Fixpoint normaliseLines (i : Z) (ls : list InvoiceLine) : list InvoiceLine :=
  match ls with
  | [] => []
  | l :: ls => normaliseLine i l :: normaliseLines (i + 1) ls
  end.

Definition defaultCountry (p : Party) : Party := p{{ Country := Str.or_default (Country p) "NG" }}.

(** [id]: a new identifier; [today]: the current date *)
Definition Normalise (id today : string) (inv : CanonicalInvoice) : CanonicalInvoice :=
  let lines := normaliseLines 0 (Lines inv) in
  let excl := loop_sum LineTotalKobo lines 0 in
  let tax := loop_sum VatAmountKobo lines 0 in
  let inv := inv{{ ID := Str.or_default (ID inv) id;
                   Currency := Str.or_default (Currency inv) "NGN";
                   InvoiceType := Str.or_default (InvoiceType inv) "B2B";
                   IssueDate := Str.or_default (IssueDate inv) today;
                   Supplier := defaultCountry (Supplier inv);
                   Customer := defaultCountry (Customer inv);
                   Lines := lines;
                   TaxExclusiveKobo := (if TaxExclusiveKobo inv =? 0 then excl else TaxExclusiveKobo inv);
                   TaxKobo := (if TaxKobo inv =? 0 then tax else TaxKobo inv) }} in
  let inv := attachCitations inv in
  inv{{ PayableKobo := (if PayableKobo inv =? 0 then TaxExclusiveKobo inv +! TaxKobo inv else PayableKobo inv) }}.
End Model.

Definition TotalsConsistent (inv : CanonicalInvoice) : bool :=
  (loop_sum LineTotalKobo (Lines inv) 0 =? TaxExclusiveKobo inv) &&
  (PayableKobo inv =? TaxExclusiveKobo inv +! TaxKobo inv).

(** ** Hashes *)

Definition party_json (p : Party) : json :=
  JObj (jopt "tin" (TIN p) ++ [("name", JStr (p_Name p))] ++ jopt "address" (Address p) ++ jopt "city" (City p) ++
        jopt "state" (State p) ++ jopt "country" (Country p) ++ jopt "email" (Email p)).

Definition citation_json (c : PosStore.Citation) : json :=
  JObj ([("pack_id", JStr (PosStore.PackID c)); ("pack_version", JStr (PosStore.PackVersion c));
         ("rule_id", JStr (PosStore.RuleID c))] ++
        jopt "statute" (PosStore.Statute c) ++ jopt "section_id" (PosStore.SectionID c) ++ jopt "title" (PosStore.c_Title c) ++
        [("citation", JStr (PosStore.c_Citation c)); ("statute_sections", JArr (map JStr (PosStore.StatuteSections c)))] ++
        jopt "citation_kind" (PosStore.CitationKind c) ++
        [("subject_to_regazette", JBool (PosStore.c_SubjectToRegazette c))]).

Definition line_json (l : InvoiceLine) : json :=
  JObj ([("id", JStr (l_ID l)); ("description", JStr (Description l)); ("quantity_milli", JNum (QuantityMilli l));
         ("unit_price_kobo", JNum (UnitPriceKobo l)); ("line_total_kobo", JNum (LineTotalKobo l));
         ("vat_category", JStr (VatCategory l)); ("vat_rate_bps", JNum (VatRateBps l));
         ("vat_amount_kobo", JNum (VatAmountKobo l))] ++
        match Citations l with [] => [] | cs => [("citations", JArr (map citation_json cs))] end).

Definition core_json (inv : CanonicalInvoice) : json :=
  JObj [("n", JStr (InvoiceNumber inv)); ("i", JStr (IssueDate inv)); ("d", JStr (DueDate inv));
        ("tc", JStr (InvoiceTypeCode inv)); ("cur", JStr (Currency inv)); ("s", party_json (Supplier inv));
        ("c", party_json (Customer inv)); ("l", JArr (map line_json (Lines inv))); ("e", JNum (TaxExclusiveKobo inv));
        ("t", JNum (TaxKobo inv)); ("p", JNum (PayableKobo inv))].

Definition hash_json (inv : CanonicalInvoice) : json :=
  JObj [("n", JStr (InvoiceNumber inv)); ("d", JStr (IssueDate inv)); ("s", JStr (TIN (Supplier inv)));
        ("c", JStr (TIN (Customer inv))); ("p", JNum (PayableKobo inv)); ("cur", JStr (Currency inv))].

Section Hashes.
Context `{Crypto}.
Definition CoreHash (inv : CanonicalInvoice) : string := hex (sha256 (json_text (core_json inv))).
Definition Hash (inv : CanonicalInvoice) : string := hex (sha256 (json_text (hash_json inv))).
End Hashes.

(** ** The core hash binds the core fields *)

(** A document read back by its keys *)
Fixpoint jfind (k : string) (l : list (string * json)) : json :=
  match l with
  | [] => JNull
  | (k', v) :: l => if bool_decide (k = k') then v else jfind k l
  end.
Definition jfields (j : json) : list (string * json) := match j with JObj l => l | _ => [] end.
Definition jget (k : string) (j : json) : json := jfind k (jfields j).
Definition jtext (j : json) : string := match j with JStr s => s | _ => "" end.
Definition jint (j : json) : Z := match j with JNum z => z | _ => 0 end.
Definition jlist (j : json) : list json := match j with JArr l => l | _ => [] end.
Definition jtrue (j : json) : bool := match j with JBool b => b | _ => false end.

Definition party_of (j : json) : Party :=
  let s k := jtext (jget k j) in
  mkParty (s "tin") (s "name") (s "address") (s "city") (s "state") (s "country") (s "email").

Lemma party_of_json p : party_of (party_json p) = p.
Proof.
  destruct p as [tin n a c st co e]. unfold party_json, jopt. cbn [TIN p_Name Address City State Country Email].
  destruct (bool_decide (tin = "")) eqn:?, (bool_decide (a = "")) eqn:?, (bool_decide (c = "")) eqn:?,
    (bool_decide (st = "")) eqn:?, (bool_decide (co = "")) eqn:?, (bool_decide (e = "")) eqn:?; bools; subst; reflexivity.
Qed.

Definition citation_of (j : json) : PosStore.Citation :=
  let s k := jtext (jget k j) in
  PosStore.mkCitation (s "pack_id") (s "pack_version") (s "rule_id") (s "statute") (s "section_id") (s "title") (s "citation")
    (map jtext (jlist (jget "statute_sections" j))) (s "citation_kind") (jtrue (jget "subject_to_regazette" j)).

Lemma map_jtext l : map jtext (map JStr l) = l.
Proof. induction l as [|s l IH]; [done|]. cbn. by rewrite IH. Qed.

Lemma citation_of_json c : citation_of (citation_json c) = c.
Proof.
  destruct c as [a b r st se ti ci ss k g]. unfold citation_json, jopt.
  cbn [PosStore.PackID PosStore.PackVersion PosStore.RuleID PosStore.Statute PosStore.SectionID PosStore.c_Title
       PosStore.c_Citation PosStore.StatuteSections PosStore.CitationKind PosStore.c_SubjectToRegazette].
  destruct (bool_decide (st = "")) eqn:?, (bool_decide (se = "")) eqn:?, (bool_decide (ti = "")) eqn:?,
    (bool_decide (k = "")) eqn:?; bools; subst; rewrite <-(map_jtext ss) at 2; reflexivity.
Qed.

Definition line_of (j : json) : InvoiceLine :=
  let s k := jtext (jget k j) in let n k := jint (jget k j) in
  mkLine (s "id") (s "description") (n "quantity_milli") (n "unit_price_kobo") (n "line_total_kobo") (s "vat_category")
    (n "vat_rate_bps") (n "vat_amount_kobo") (map citation_of (jlist (jget "citations" j))).

Lemma map_of {A} (dec : json -> A) (enc : A -> json) l : (forall x, dec (enc x) = x) -> map dec (map enc l) = l.
Proof. intros Hof. induction l as [|x l IH]; [done|]. cbn. by rewrite Hof, IH. Qed.

Lemma line_of_json l : line_of (line_json l) = l.
Proof.
  destruct l as [i d q u t c r v cs]. unfold line_json. cbn [Citations l_ID Description QuantityMilli UnitPriceKobo LineTotalKobo VatCategory VatRateBps VatAmountKobo].
  destruct cs as [|x cs]; [reflexivity|]. rewrite <-(map_of citation_of citation_json (x :: cs) citation_of_json) at 2. reflexivity.
Qed.

(** The fields that are locked *)
Definition coreFields (inv : CanonicalInvoice) :=
  (InvoiceNumber inv, IssueDate inv, DueDate inv, InvoiceTypeCode inv, Currency inv, Supplier inv, Customer inv,
   Lines inv, TaxExclusiveKobo inv, TaxKobo inv, PayableKobo inv).

Lemma core_json_inj a b : core_json a = core_json b -> coreFields a = coreFields b.
Proof.
  intros E.
  assert (Ht : forall k, jtext (jget k (core_json a)) = jtext (jget k (core_json b))) by (intros k; by rewrite E).
  assert (Hn : forall k, jint (jget k (core_json a)) = jint (jget k (core_json b))) by (intros k; by rewrite E).
  assert (Hp : forall k, party_of (jget k (core_json a)) = party_of (jget k (core_json b))) by (intros k; by rewrite E).
  assert (Hl : map line_of (jlist (jget "l" (core_json a))) = map line_of (jlist (jget "l" (core_json b)))) by by rewrite E.
  pose proof (Hp "s") as Hs. pose proof (Hp "c") as Hc.
  change (party_of (party_json (Supplier a)) = party_of (party_json (Supplier b))) in Hs.
  change (party_of (party_json (Customer a)) = party_of (party_json (Customer b))) in Hc.
  change (map line_of (map line_json (Lines a)) = map line_of (map line_json (Lines b))) in Hl.
  rewrite !party_of_json in Hs, Hc. rewrite !(map_of line_of line_json _ line_of_json) in Hl.
  assert (E1 : InvoiceNumber a = InvoiceNumber b) by exact (Ht "n").
  assert (E2 : IssueDate a = IssueDate b) by exact (Ht "i").
  assert (E3 : DueDate a = DueDate b) by exact (Ht "d").
  assert (E4 : InvoiceTypeCode a = InvoiceTypeCode b) by exact (Ht "tc").
  assert (E5 : Currency a = Currency b) by exact (Ht "cur").
  assert (E6 : TaxExclusiveKobo a = TaxExclusiveKobo b) by exact (Hn "e").
  assert (E7 : TaxKobo a = TaxKobo b) by exact (Hn "t").
  assert (E8 : PayableKobo a = PayableKobo b) by exact (Hn "p").
  unfold coreFields. congruence.
Qed.

(** C29: Two invoices with the same core hash have the same number, dates,
    type, currency, parties, lines - with every amount and citation - and
    totals, unless SHA-256 collides on the two texts: the lock taken at signing
    detects every change of a core field.  The fields outside the core do not
    enter the hash. *)
Theorem core_hash_binds `{Crypto} a b :
  (sha256 (json_text (core_json a)) = sha256 (json_text (core_json b)) ->
   json_text (core_json a) = json_text (core_json b)) ->
  CoreHash a = CoreHash b <-> coreFields a = coreFields b.
Proof.
  intros Hc. split.
  - intros E%hex_inj%Hc%json_text_inj. by apply core_json_inj.
  - unfold coreFields, CoreHash, core_json. intros E. by simplify_eq; congruence.
Qed.

(** ** Normalisation *)

Lemma or_default_idem s d d' : Str.or_default s d <> "" -> Str.or_default (Str.or_default s d) d' = Str.or_default s d.
Proof. intros Hn. unfold Str.or_default at 1. by rewrite bool_decide_false. Qed.

Lemma or_default_nonempty s d : d <> "" -> Str.or_default s d <> "".
Proof. unfold Str.or_default. destruct (bool_decide (s = "")) eqn:E; bools; done. Qed.

Lemma or_default_twice s d d' : d <> "" -> Str.or_default (Str.or_default s d) d' = Str.or_default s d.
Proof. intros Hd. by apply or_default_idem, or_default_nonempty. Qed.

Lemma or_zero_twice a b : (if (if a =? 0 then b else a) =? 0 then b else (if a =? 0 then b else a)) = (if a =? 0 then b else a).
Proof. destruct (a =? 0) eqn:E; [|by rewrite E]. by destruct (b =? 0). Qed.

Lemma pretty_Z_nonempty (z : Z) : pretty z <> "".
Proof. destruct (json_text_head (JNum z)) as (c & s & E & _). cbn [json_text] in E. by rewrite E. Qed.

Definition with_citations (cs : list PosStore.Citation) (l : InvoiceLine) : InvoiceLine := l{{ Citations := cs }}.

Section Normal.
Context (r : Citation.CitationResolver).

Lemma normaliseLine_twice i l :
  normaliseLine i (attachCitation r (normaliseLine i l)) =
  normaliseLine i (with_citations (Citations (attachCitation r (normaliseLine i l))) l).
Proof.
  unfold normaliseLine, attachCitation.
  destruct l as [id d q u t cat rate vat cs]. cbn [l_ID Description QuantityMilli UnitPriceKobo LineTotalKobo VatCategory VatRateBps Citations].
  assert (Hc : Str.or_default (Str.or_default cat "S") "S" = Str.or_default cat "S") by by apply or_default_twice.
  set (c := Str.or_default cat "S") in *.
  assert (Hr : (if bool_decide (c = "S") && ((if bool_decide (c = "S") && (rate =? 0) then 750 else rate) =? 0) then 750
                else (if bool_decide (c = "S") && (rate =? 0) then 750 else rate)) =
               (if bool_decide (c = "S") && (rate =? 0) then 750 else rate)).
  { destruct (bool_decide (c = "S")), (rate =? 0) eqn:E; cbn [andb]; rewrite ?E; done. }
  set (rt := if bool_decide (c = "S") && (rate =? 0) then 750 else rate) in *.
  assert (Ht : (if ((if (t =? 0) && negb (q =? 0) then (q *! u) /! 1000 else t) =? 0) && negb (q =? 0) then (q *! u) /! 1000
                else (if (t =? 0) && negb (q =? 0) then (q *! u) /! 1000 else t)) =
               (if (t =? 0) && negb (q =? 0) then (q *! u) /! 1000 else t)).
  { destruct (t =? 0) eqn:E, (q =? 0); cbn [negb andb]; rewrite ?E; cbn [andb]; try done. by destruct ((q *! u) /! 1000 =? 0). }
  set (tt := if (t =? 0) && negb (q =? 0) then (q *! u) /! 1000 else t) in *.
  pose proof (or_default_twice id (pretty (i + 1)) (pretty (i + 1)) (pretty_Z_nonempty (i + 1))) as Hid.
  destruct (vatRuleByCategory c) as [[rule text]|]; cbn; fold c; fold rt; fold tt; rewrite Hc, Hid, Hr, Ht; reflexivity.
Qed.

Lemma attach_normalise i l :
  attachCitation r (normaliseLine i (attachCitation r (normaliseLine i l))) = attachCitation r (normaliseLine i l).
Proof.
  rewrite normaliseLine_twice. unfold normaliseLine, attachCitation. destruct l as [id d q u t cat rate vat cs].
  cbn [l_ID Description QuantityMilli UnitPriceKobo LineTotalKobo VatCategory VatRateBps Citations].
  destruct (vatRuleByCategory (Str.or_default cat "S")) as [[rule text]|] eqn:E; cbn; rewrite E; reflexivity.
Qed.

Lemma attach_lines_twice ls i :
  map (attachCitation r) (normaliseLines i (map (attachCitation r) (normaliseLines i ls))) =
  map (attachCitation r) (normaliseLines i ls).
Proof. revert i. induction ls as [|l ls IH]; intros i; [done|]. cbn [normaliseLines map]. by rewrite attach_normalise, IH. Qed.

(** Totals do not depend on the citations. *)
Lemma sums_twice (f : InvoiceLine -> Z) ls i acc :
  (forall l cs, f (with_citations cs l) = f l) ->
  loop_sum f (normaliseLines i (map (attachCitation r) (normaliseLines i ls))) acc = loop_sum f (normaliseLines i ls) acc.
Proof.
  intros Hf. unfold loop_sum. revert i acc. induction ls as [|l ls IH]; intros i acc; [done|]. cbn [normaliseLines map foldl].
  rewrite IH. f_equal. do 2 f_equal.
  assert (E : f (attachCitation r (normaliseLine i (attachCitation r (normaliseLine i l)))) = f (attachCitation r (normaliseLine i l)))
    by by rewrite attach_normalise.
  assert (Ha : forall x, f (attachCitation r x) = f x).
  { intros x. unfold attachCitation. destruct (vatRuleByCategory _) as [[rule text]|]; [apply Hf|done]. }
  by rewrite !Ha in E.
Qed.

(** Normalising an invoice a second time changes nothing, whatever the
    clock and the identifier source say then: identifiers, defaults, line
    totals, VAT, citations and document totals are those of the first time. *)
Theorem normalise_idempotent id today id' today' inv :
  id <> "" -> today <> "" ->
  Normalise r id' today' (Normalise r id today inv) = Normalise r id today inv.
Proof.
  intros Hid Htoday. destruct inv. unfold Normalise, attachCitations, defaultCountry. cbn -[normaliseLines loop_sum map]. unfold constant.
  rewrite attach_lines_twice, !sums_twice by done. rewrite !or_zero_twice, !or_default_twice by done. reflexivity.
Qed.
End Normal.

Section Totals.
Context (r : Citation.CitationResolver).

Lemma attach_sum (f : InvoiceLine -> Z) ls acc :
  (forall l cs, f (with_citations cs l) = f l) -> loop_sum f (map (attachCitation r) ls) acc = loop_sum f ls acc.
Proof.
  intros Hf. unfold loop_sum. revert acc. induction ls as [|l ls IH]; intros acc; [done|]. cbn [map foldl].
  rewrite IH. do 3 f_equal. unfold attachCitation. destruct (vatRuleByCategory _) as [[rule text]|]; [apply Hf|done].
Qed.

(** An invoice that declares no totals gets consistent ones: after
    normalisation the exclusive total is the sum of its lines, the tax the sum
    of their VAT, the payable amount their sum, each line's VAT the rounding of
    its total at its rate; exact amounts while the sums fit in 64 bits, and
    the consistency check of the rule packs passes in any case. *)
Theorem normalise_totals id today inv :
  TaxExclusiveKobo inv = 0 -> TaxKobo inv = 0 -> PayableKobo inv = 0 ->
  let n := Normalise r id today inv in
  TotalsConsistent n = true /\
  Forall (fun l => VatAmountKobo l = RoundBpsHalfUp (LineTotalKobo l) (VatRateBps l)) (Lines n) /\
  (in64 (sumZ LineTotalKobo (Lines n)) -> in64 (sumZ VatAmountKobo (Lines n)) ->
   in64 (sumZ LineTotalKobo (Lines n) + sumZ VatAmountKobo (Lines n)) ->
   TaxExclusiveKobo n = sumZ LineTotalKobo (Lines n) /\ TaxKobo n = sumZ VatAmountKobo (Lines n) /\
   PayableKobo n = sumZ LineTotalKobo (Lines n) + sumZ VatAmountKobo (Lines n)).
Proof.
  intros He Ht Hp n. destruct inv. cbn in He, Ht, Hp. subst. set (ls := normaliseLines 0 Lines0).
  assert (HL : Lines n = map (attachCitation r) ls) by done.
  assert (HE : TaxExclusiveKobo n = loop_sum LineTotalKobo ls 0).
  { done. }
  assert (HT : TaxKobo n = loop_sum VatAmountKobo ls 0).
  { done. }
  assert (HP : PayableKobo n = loop_sum LineTotalKobo ls 0 +! loop_sum VatAmountKobo ls 0).
  { done. }
  assert (Hs1 : loop_sum LineTotalKobo (Lines n) 0 = loop_sum LineTotalKobo ls 0) by (rewrite HL; by apply attach_sum).
  assert (Hs2 : loop_sum VatAmountKobo (Lines n) 0 = loop_sum VatAmountKobo ls 0) by (rewrite HL; by apply attach_sum).
  split; [|split].
  - unfold TotalsConsistent. by rewrite Hs1, HE, HP, HT, !Z.eqb_refl.
  - rewrite HL. unfold ls. generalize 0. generalize Lines0 as l0. intros l0. induction l0 as [|l l0 IH]; intros i; [constructor|].
    cbn [normaliseLines map]. constructor; [|apply IH].
    unfold attachCitation, normaliseLine. cbn [VatCategory]. by destruct (vatRuleByCategory _) as [[rule text]|].
  - intros I1 I2 I3. rewrite HP, HE, HT, <-Hs1, <-Hs2, !loop_sum_exact, !Z.add_0_l by (rewrite ?Z.add_0_l; done).
    split; [done|]. split; [done|]. by apply wrap64_id.
Qed.
End Totals.

(** ** Witnesses *)

Definition demo_line : InvoiceLine := mkLine "" "Cement" 2500 10000 0 "" 0 0 [].
Definition demo_party : Party := mkParty "12345678-0001" "Ada Ltd" "" "" "" "" "".
Definition demo_invoice : CanonicalInvoice :=
  mkInvoice "" "t1" "INV1" "" "2026-01-27" "" "" demo_party demo_party [demo_line] 0 0 0 "" "" None "" "" "" "" "" "" "" "" ""
    "" "" [] "" [] None None.

Lemma normalise_idempotent_witness :
  Normalise ∅ "b" "2026-02-01" (Normalise ∅ "a" "2026-01-31" demo_invoice) = Normalise ∅ "a" "2026-01-31" demo_invoice.
Proof. by apply (normalise_idempotent ∅ "a" "2026-01-31" "b" "2026-02-01" demo_invoice). Defined.

Lemma normalise_totals_witness :
  let n := Normalise ∅ "a" "2026-01-31" demo_invoice in
  TotalsConsistent n = true /\ TaxExclusiveKobo n = 25000 /\ TaxKobo n = 1875 /\ PayableKobo n = 26875.
Proof.
  split; [|split_and!; vm_compute; reflexivity].
  by apply (normalise_totals ∅ "a" "2026-01-31" demo_invoice).
Defined.

Lemma core_hash_binds_witness :
  @CoreHash Toy.crypto demo_invoice <> @CoreHash Toy.crypto demo_invoice{{ PayableKobo := 1 }}.
Proof.
  intros E. apply (@core_hash_binds Toy.crypto demo_invoice demo_invoice{{ PayableKobo := 1 }}) in E; [discriminate E|].
  intros Hs. exfalso. vm_compute in Hs. discriminate Hs.
Defined.
