(* ===== verification/EinvStore.v ===== *)
(** * einvoicing: the invoice store and the VAT summary
    (services/einvoicing/store.go, vatsummary.go)

    An append-only log of invoices with its indexes in memory, the replay
    window of idempotency keys, and the write to Postgres when it is attached.
    The fault hook of the tests is left out; a write to the log happens in full
    or not at all. *)

From S2P Require Import Prelude StrFacts Crypto GoTime EinvModel.

Record InvoiceStore := mkInvoiceStore {
  byID : gmap string CanonicalInvoice;
  byIdemKey : gmap string string;
  bySuppNum : gmap string string;
  byIRN : gmap string string;
  order : list string;
  invLog : list CanonicalInvoice;
  hasPG : bool;
}.

(** ** Indexes *)

Definition idemKey (inv : CanonicalInvoice) : string := TenantID inv +:+ "|" +:+ IdempotencyKey inv.
Definition suppKey (inv : CanonicalInvoice) : string :=
  TenantID inv +:+ "|" +:+ TIN (Supplier inv) +:+ "|" +:+ InvoiceNumber inv.

Definition index (inv : CanonicalInvoice) (s : InvoiceStore) : InvoiceStore :=
  mkInvoiceStore
    (<[ID inv := inv]> (byID s))
    (if bool_decide (IdempotencyKey inv = "") then byIdemKey s else <[idemKey inv := ID inv]> (byIdemKey s))
    (if bool_decide (TIN (Supplier inv) = "") || bool_decide (InvoiceNumber inv = "") then bySuppNum s
     else <[suppKey inv := ID inv]> (bySuppNum s))
    (if bool_decide (IRN inv = "") then byIRN s else <[IRN inv := ID inv]> (byIRN s))
    (match byID s !! ID inv with Some _ => order s | None => order s ++ [ID inv] end)
    (invLog s) (hasPG s).

Definition emptyStore (l : list CanonicalInvoice) : InvoiceStore := mkInvoiceStore ∅ ∅ ∅ ∅ [] l false.

(** [load], on a log that reads *)
Definition NewInvoiceStore (l : list CanonicalInvoice) : InvoiceStore := foldl (fun s inv => index inv s) (emptyStore l) l.

(** [rows]: the documents of Postgres, [None] when the listing fails *)
Definition SetPG (rows : option (list CanonicalInvoice)) (s : InvoiceStore) : InvoiceStore * bool :=
  let s := mkInvoiceStore (byID s) (byIdemKey s) (bySuppNum s) (byIRN s) (order s) (invLog s) true in
  match rows with
  | None => (s, false)
  | Some rows => (foldl (fun s inv => index inv s) s rows, true)
  end.

Definition GetByIRN (irn : string) (s : InvoiceStore) : option CanonicalInvoice :=
  id ← byIRN s !! irn; byID s !! id.
Definition Get (id : string) (s : InvoiceStore) : option CanonicalInvoice := byID s !! id.
Definition List_ (s : InvoiceStore) : list CanonicalInvoice := omap (fun id => byID s !! id) (order s).
Definition IsDuplicate (inv : CanonicalInvoice) (s : InvoiceStore) : bool :=
  match bySuppNum s !! suppKey inv with Some id => negb (bool_decide (id = ID inv)) | None => false end.

(** ** The replay window *)

Definition idempotencyTTL : Z := 7 * 24 * hour.
Definition terminalInvoiceStatus (st : string) : bool := bool_decide (st = "reported") || bool_decide (st = "failed").

Definition idemMappingExpired (inv : CanonicalInvoice) (now : Z) : bool :=
  match CreatedAt inv with
  | None => false
  | Some t => idempotencyTTL <? now - t
  end.

Definition purgeable (now : Z) (s : InvoiceStore) (id : string) : bool :=
  match byID s !! id with
  | Some inv => terminalInvoiceStatus (Status inv) && idemMappingExpired inv now
  | None => false
  end.

Definition PurgeExpiredIdempotencyKeys (now : Z) (s : InvoiceStore) : InvoiceStore * nat :=
  let kept := filter (fun kv => purgeable now s kv.2 = false) (byIdemKey s) in
  (mkInvoiceStore (byID s) kept (bySuppNum s) (byIRN s) (order s) (invLog s) (hasPG s),
   (size (byIdemKey s) - size kept)%nat).

(** ** Writing *)

Inductive saveErr :=
| ErrIdempotentReplay
| ErrIdempotencyPayloadConflict
| ErrConflict (constraint : string)
| ErrPersist.
#[export] Instance saveErr_eq_dec : EqDecision saveErr.
Proof. solve_decision. Defined.

(** What the log and Postgres do with a write *)
Inductive pgAnswer := pgOk | pgUnique (constraint : string) | pgFails.
Record saveIO := mkSaveIO { logWritten : bool; pgPut : pgAnswer }.
Definition allGood : saveIO := mkSaveIO true pgOk.

Section Save.
Context `{Crypto}.

(** The mapping that answers a reused key, and how *)
Definition replayed (now : Z) (inv : CanonicalInvoice) (s : InvoiceStore) : option (string * saveErr) :=
  if bool_decide (IdempotencyKey inv = "") then None
  else match byIdemKey s !! idemKey inv with
       | None => None
       | Some id =>
           if bool_decide (id = ID inv) then None
           else match byID s !! id with
                | None => None
                | Some prior =>
                    if idemMappingExpired prior now then None
                    else if negb (bool_decide (CoreHash prior = CoreHash inv)) then Some (id, ErrIdempotencyPayloadConflict)
                    else Some (id, ErrIdempotentReplay)
                end
       end.

Definition stamped (now : Z) (inv : CanonicalInvoice) : CanonicalInvoice :=
  inv{{ UpdatedAt := Some now; CreatedAt := Some (default now (CreatedAt inv)) }}.

Definition pgConflict (constraint : string) (inv : CanonicalInvoice) (s : InvoiceStore) : string * saveErr :=
  if bool_decide (constraint = "einvoicing_idem_ux") then
    let priorID := default "" (byIdemKey s !! idemKey inv) in
    match byID s !! priorID with
    | Some prior => if negb (bool_decide (CoreHash prior = CoreHash inv)) then (priorID, ErrIdempotencyPayloadConflict)
                    else (priorID, ErrIdempotentReplay)
    | None => (priorID, ErrIdempotentReplay)
    end
  else ("", ErrConflict constraint).

(** The store, the invoice as the caller sees it afterwards, the identifier of
    the prior invoice and the error *)
Definition SaveCtx (io : saveIO) (now : Z) (inv : CanonicalInvoice) (s : InvoiceStore)
  : InvoiceStore * CanonicalInvoice * string * option saveErr :=
  match replayed now inv s with
  | Some (id, e) => (s, inv, id, Some e)
  | None =>
      let inv := stamped now inv in
      if negb (logWritten io) then (s, inv, "", Some ErrPersist)
      else
        let s := mkInvoiceStore (byID s) (byIdemKey s) (bySuppNum s) (byIRN s) (order s) (invLog s ++ [inv]) (hasPG s) in
        match (if hasPG s then pgPut io else pgOk) with
        | pgOk => (index inv s, inv, "", None)
        | pgUnique c => let '(id, e) := pgConflict c inv s in (s, inv, id, Some e)
        | pgFails => (s, inv, "", Some ErrPersist)
        end
  end.
End Save.

(** ** The VAT summary *)

Record VATPeriod := mkPeriod {
  Period : string;
  InvoiceCount : Z;
  p_TaxExclusiveKobo : Z;
  p_TaxKobo : Z;
  p_PayableKobo : Z;
}.

Record VATSummary := mkSummary {
  s_TenantID : string;
  GeneratedAt : Z;
  Periods : list VATPeriod;
  ByStatus : gmap string Z;
  TotalInvoices : Z;
  TotalTaxKobo : Z;
  TotalPayableKobo : Z;
}.

(** [t.UTC().Format("2006-01")], for a year of four digits *)
Definition format_month (t : Z) : string :=
  let '(y, mo, _) := civil_from_days (t / second / 86400) in pad 4 y +:+ "-" +:+ pad 2 mo.

Definition invoicePeriod (inv : CanonicalInvoice) : string :=
  if 7 <=? Str.len (IssueDate inv) then Str.take 7 (IssueDate inv)
  else match CreatedAt inv with Some t => format_month t | None => "undated" end.

Definition emptyPeriod (p : string) : VATPeriod := mkPeriod p 0 0 0 0.

Definition addToPeriod (inv : CanonicalInvoice) (b : VATPeriod) : VATPeriod :=
  mkPeriod (Period b) (InvoiceCount b +! 1) (p_TaxExclusiveKobo b +! TaxExclusiveKobo inv) (p_TaxKobo b +! TaxKobo inv)
    (p_PayableKobo b +! PayableKobo inv).

Record tally := mkTally {
  byPeriod : gmap string VATPeriod;
  t_status : gmap string Z;
  t_count : Z;
  t_tax : Z;
  t_payable : Z;
}.

Definition tallyOne (tenantID : string) (t : tally) (inv : CanonicalInvoice) : tally :=
  if bool_decide (TenantID inv = "") || negb (bool_decide (TenantID inv = tenantID)) then t
  else
    let p := invoicePeriod inv in
    let st := Str.or_default (Status inv) "unknown" in
    mkTally (<[p := addToPeriod inv (default (emptyPeriod p) (byPeriod t !! p))]> (byPeriod t))
      (<[st := default 0 (t_status t !! st) +! 1]> (t_status t))
      (t_count t +! 1) (t_tax t +! TaxKobo inv) (t_payable t +! PayableKobo inv).

Definition earlier (a b : VATPeriod) : Prop := String.le (Period a) (Period b).
#[export] Instance earlier_dec a b : Decision (earlier a b).
Proof. unfold earlier. apply _. Defined.

Definition SummarizeVAT (invs : list CanonicalInvoice) (tenantID : string) (now : Z) : VATSummary :=
  let t := foldl (tallyOne tenantID) (mkTally ∅ ∅ 0 0 0) invs in
  mkSummary tenantID now (merge_sort earlier (map_to_list (byPeriod t)).*2) (t_status t) (t_count t) (t_tax t) (t_payable t).

(** [claims]: the subject and the tenant of the caller *)
Definition handleVATSummary (claims : option (string * string)) (now : Z) (s : InvoiceStore) : response VATSummary :=
  match claims with
  | None => Problem 401 "unauthorized"
  | Some (sub, tenant) =>
      if bool_decide (sub = "") then Problem 401 "unauthorized"
      else if bool_decide (tenant = "") then Problem 403 "forbidden"
      else JSON 200 (SummarizeVAT (List_ s) tenant now)
  end.

(** ** The log holds the store *)

Inductive storeOp :=
| opSave (io : saveIO) (now : Z) (inv : CanonicalInvoice)
| opPurge (now : Z).

Section Runs.
Context `{Crypto}.

Definition storeStep (s : InvoiceStore) (o : storeOp) : InvoiceStore :=
  match o with
  | opSave io now inv => (SaveCtx io now inv s).1.1.1
  | opPurge now => (PurgeExpiredIdempotencyKeys now s).1
  end.

(** The indexes agree, but for purged keys *)
Record restores (r s : InvoiceStore) : Prop := {
  restores_byID : byID r = byID s;
  restores_idem : byIdemKey s ⊆ byIdemKey r;
  restores_supp : bySuppNum r = bySuppNum s;
  restores_irn : byIRN r = byIRN s;
  restores_order : order r = order s;
}.

Lemma restores_index inv r s : restores r s -> restores (index inv r) (index inv s).
Proof.
  intros [E1 E2 E3 E4 E5]. split; cbn; rewrite ?E1, ?E3, ?E4, ?E5; try done.
  destruct (bool_decide _); [done|]. by apply insert_mono.
Qed.

Lemma NewInvoiceStore_snoc l inv : restores (NewInvoiceStore (l ++ [inv])) (index inv (NewInvoiceStore l)).
Proof.
  unfold NewInvoiceStore. rewrite foldl_snoc. apply restores_index.
  assert (Hf : forall a b, restores a b -> restores (foldl (fun s x => index x s) a l) (foldl (fun s x => index x s) b l)).
  { induction l as [|x l IH]; intros a b Hab; [done|]. cbn. by apply IH, restores_index. }
  by apply Hf.
Qed.

Lemma restores_trans a b c : restores a b -> restores b c -> restores a c.
Proof. intros [] []. split; [congruence|by etransitivity|congruence..]. Qed.

Definition logged (s : InvoiceStore) : Prop := hasPG s = false /\ restores (NewInvoiceStore (invLog s)) s.

Lemma logged_step s o : logged s -> logged (storeStep s o).
Proof.
  intros [Hpg Hr]. destruct o as [io now inv|now]; cbn [storeStep].
  - unfold SaveCtx. destruct (replayed now inv s) as [[id e]|]; [done|]. destruct (negb _); [done|]. cbn [hasPG]. rewrite Hpg.
    split; [done|]. eapply restores_trans; [apply NewInvoiceStore_snoc|]. apply restores_index.
    destruct Hr. by split.
  - split; [done|]. destruct Hr as [E1 E2 E3 E4 E5]. split; cbn; try done.
    etransitivity; [apply map_filter_subseteq|done].
Qed.

(** Without Postgres, after any saves - refused, failed or done - and any
    purges of idempotency keys, a restart from the log brings back exactly the
    invoices, their order and the indexes by reference number and by supplier
    and number, and every idempotency key that was still mapped. *)
Theorem invoice_log_restores ops :
  let s := foldl storeStep (emptyStore []) ops in
  restores (NewInvoiceStore (invLog s)) s.
Proof.
  intros s. assert (Hl : logged s); [|apply Hl].
  assert (H0 : logged (emptyStore [])) by (split; [done|by split]).
  unfold s. clear s. revert H0. generalize (emptyStore []). induction ops as [|o ops IH]; intros s Hs; [done|].
  cbn. by apply IH, logged_step.
Qed.

(** A write that Postgres refuses for a constraint is answered with a
    conflict and is not visible - but the log has it: a restart without
    Postgres shows the refused invoice. *)
Theorem refused_write_is_logged now inv s c :
  hasPG s = true -> c <> "einvoicing_idem_ux" -> replayed now inv s = None -> byID s !! ID inv = None ->
  exists s', SaveCtx (mkSaveIO true (pgUnique c)) now inv s = (s', stamped now inv, "", Some (ErrConflict c)) /\
    Get (ID inv) s' = None /\ Get (ID inv) (NewInvoiceStore (invLog s')) = Some (stamped now inv).
Proof.
  intros Hpg Hc Hr Hn. unfold SaveCtx. rewrite Hr. cbn [logWritten negb]. cbn [hasPG]. rewrite Hpg. cbn [pgPut].
  unfold pgConflict. rewrite bool_decide_false by done. eexists. split; [reflexivity|]. split; [done|].
  unfold Get. cbn [invLog]. rewrite (restores_byID _ _ (NewInvoiceStore_snoc _ _)). cbn. apply lookup_insert_eq.
Qed.

(** ** Idempotency keys *)

(** Key [k] answers with the invoice [id], whose core hash is [h] and whose
    window closes at [until]. *)
Record answers (k id h : string) (until : Z) (s : InvoiceStore) : Prop := {
  answers_map : byIdemKey s !! k = Some id;
  answers_inv : exists p t, byID s !! id = Some p /\ CoreHash p = h /\ CreatedAt p = Some t /\ until = t + idempotencyTTL;
}.

(** Any operation inside the window; a save of the invoice itself keeps its
    key, its core fields and its creation time. *)
Definition within (k id h : string) (until : Z) (o : storeOp) : Prop :=
  match o with
  | opSave _ now x =>
      now <= until /\
      (ID x = id -> IdempotencyKey x <> "" /\ idemKey x = k /\ CoreHash x = h /\
                    exists t, CreatedAt x = Some t /\ until = t + idempotencyTTL)
  | opPurge now => now <= until
  end.

Lemma within_not_expired p t now until :
  CreatedAt p = Some t -> until = t + idempotencyTTL -> now <= until -> idemMappingExpired p now = false.
Proof. intros Hp -> Hn. unfold idemMappingExpired. rewrite Hp. apply Z.ltb_ge. lia. Qed.

Lemma replayed_answers k id h until now inv s :
  answers k id h until s -> now <= until -> ID inv <> id -> IdempotencyKey inv <> "" -> idemKey inv = k ->
  replayed now inv s = Some (id, if bool_decide (h = CoreHash inv) then ErrIdempotentReplay else ErrIdempotencyPayloadConflict).
Proof.
  intros [Hk (p & t & Hp & Hh & Ht & Hu)] Hn Hid Hne <-. unfold replayed. rewrite bool_decide_false by done.
  rewrite Hk, bool_decide_false by congruence. rewrite Hp, (within_not_expired p t now until) by done.
  rewrite Hh. by destruct (bool_decide (h = CoreHash inv)).
Qed.

Lemma CoreHash_stamped now inv : CoreHash (stamped now inv) = CoreHash inv.
Proof. by destruct inv. Qed.

Lemma byIdemKey_index now x s :
  byIdemKey (index (stamped now x) s) =
  if bool_decide (IdempotencyKey x = "") then byIdemKey s else <[idemKey x := ID x]> (byIdemKey s).
Proof. by destruct x. Qed.

Lemma byID_index now x s : byID (index (stamped now x) s) = <[ID x := stamped now x]> (byID s).
Proof. by destruct x. Qed.

Lemma answers_step k id h until s o :
  answers k id h until s -> within k id h until o -> answers k id h until (storeStep s o).
Proof.
  intros Ha Hw. pose proof Ha as [Hk (p & t & Hp & Hh & Ht & Hu)]. destruct o as [io now x|now]; cbn [storeStep within] in *.
  - destruct Hw as [Hn Hx].
    assert (Hidx : replayed now x s = None -> answers k id h until (index (stamped now x) s)).
    { intros Hr. destruct (decide (ID x = id)) as [Eid|Hne].
      - destruct (Hx Eid) as (H1 & H2 & H3 & tx & H4 & H5). split.
        + by rewrite byIdemKey_index, bool_decide_false, H2, Eid, lookup_insert_eq by done.
        + exists (stamped now x), tx. rewrite byID_index, Eid, lookup_insert_eq. split; [done|].
          split; [by rewrite CoreHash_stamped|]. split; [cbn; by rewrite H4|done].
      - assert (Hk' : IdempotencyKey x = "" \/ idemKey x <> k).
        { destruct (decide (IdempotencyKey x = "")) as [->|He]; [by left|]. right. intros Ek.
          by rewrite (replayed_answers k id h until) in Hr. }
        split.
        + rewrite byIdemKey_index. destruct (bool_decide (IdempotencyKey x = "")) eqn:E; bools; [done|].
          rewrite lookup_insert_ne; [done|]. naive_solver.
        + exists p, t. by rewrite byID_index, lookup_insert_ne by done. }
    unfold SaveCtx. destruct (replayed now x s) as [[i e]|]; [done|]. destruct (negb _); [done|]. cbn [hasPG].
    assert (Hlog : forall l, answers k id h until (mkInvoiceStore (byID s) (byIdemKey s) (bySuppNum s) (byIRN s) (order s) l (hasPG s))).
    { intros l. split; [done|]. by exists p, t. }
    destruct (if hasPG s then pgPut io else pgOk) as [|c|]; [|destruct (pgConflict _ _ _); apply Hlog|apply Hlog].
    destruct (Hidx eq_refl) as [A1 (p' & t' & A2)]. split; [exact A1|]. by exists p', t'.
  - split; [|by exists p, t]. cbn. apply map_lookup_filter_Some. split; [done|]. unfold purgeable. cbn.
    by rewrite Hp, (within_not_expired p t now until), andb_false_r.
Qed.

(** C27: Once a save with an idempotency key has succeeded, then for seven days
    - whatever is saved, refused or purged meanwhile, as long as the invoice
    itself keeps its key, core fields and creation time - any other invoice of
    the tenant under that key is not stored: it is answered with the first
    invoice, as a replay when its core fields hash the same and as a payload
    conflict otherwise, and the store does not change. *)
Theorem save_idempotent io now inv s s1 inv1 ops io' now' inv' :
  SaveCtx io now inv s = (s1, inv1, "", None) -> IdempotencyKey inv <> "" ->
  let created := default now (CreatedAt inv) in
  let until := created + idempotencyTTL in
  Forall (within (idemKey inv) (ID inv) (CoreHash inv) until) ops ->
  idemKey inv' = idemKey inv -> IdempotencyKey inv' <> "" -> ID inv' <> ID inv -> now' <= until ->
  let s2 := foldl storeStep s1 ops in
  SaveCtx io' now' inv' s2 =
    (s2, inv', ID inv,
     Some (if bool_decide (CoreHash inv = CoreHash inv') then ErrIdempotentReplay else ErrIdempotencyPayloadConflict)).
Proof.
  intros Hs Hne created until Hops Hk Hne' Hid Hn s2.
  assert (H1 : answers (idemKey inv) (ID inv) (CoreHash inv) until s1).
  { unfold SaveCtx in Hs. destruct (replayed now inv s) as [[i e]|]; [done|]. destruct (negb _); [done|]. cbn [hasPG] in Hs.
    destruct (if hasPG s then pgPut io else pgOk); [|by destruct (pgConflict _ _ _)|done]. injection Hs as <- _.
    split.
    - change (byIdemKey (index (stamped now inv) s) !! idemKey inv = Some (ID inv)).
      by rewrite byIdemKey_index, bool_decide_false, lookup_insert_eq by done.
    - exists (stamped now inv), created.
      change (byID (index (stamped now inv) s) !! ID inv = Some (stamped now inv) /\
              CoreHash (stamped now inv) = CoreHash inv /\ CreatedAt (stamped now inv) = Some created /\
              until = created + idempotencyTTL).
      by rewrite byID_index, lookup_insert_eq, CoreHash_stamped. }
  assert (H2 : answers (idemKey inv) (ID inv) (CoreHash inv) until s2).
  { unfold s2. clear -H1 Hops. revert s1 H1. induction Hops as [|o ops Ho _ IH]; intros s1 H1; [done|].
    cbn. apply IH. by apply answers_step. }
  unfold SaveCtx. by rewrite (replayed_answers _ _ _ _ _ _ _ H2) by done.
Qed.

(** Keys of different tenants do not meet, unless a tenant has a bar in its
    name. *)
Lemma idemKey_tenant a b :
  Str.contains "|" (TenantID a) = false -> Str.contains "|" (TenantID b) = false ->
  idemKey a = idemKey b -> TenantID a = TenantID b /\ IdempotencyKey a = IdempotencyKey b.
Proof.
  unfold idemKey. intros Ha Hb E. apply (f_equal (Str.cut "|")) in E.
  change ("|" +:+ IdempotencyKey a) with (String "|" (IdempotencyKey a)) in E.
  change ("|" +:+ IdempotencyKey b) with (String "|" (IdempotencyKey b)) in E.
  rewrite !cut_app in E by done. by injection E.
Qed.
End Runs.

(** A purge drops the mapping of an idempotency key exactly when its
    invoice is reported or failed and its seven days are over; invoices, their
    indexes and the log are untouched.  A confirmed invoice keeps its key
    for ever. *)
Theorem purge_exact now s :
  let '(s', n) := PurgeExpiredIdempotencyKeys now s in
  (forall k id, byIdemKey s' !! k = Some id <->
     byIdemKey s !! k = Some id /\
     ~ (exists inv t, byID s !! id = Some inv /\ (Status inv = "reported" \/ Status inv = "failed") /\
                      CreatedAt inv = Some t /\ now - t > idempotencyTTL)) /\
  (n + size (byIdemKey s'))%nat = size (byIdemKey s) /\
  byID s' = byID s /\ bySuppNum s' = bySuppNum s /\ byIRN s' = byIRN s /\ order s' = order s /\ invLog s' = invLog s.
Proof.
  unfold PurgeExpiredIdempotencyKeys. cbn -[size filter]. split; [|split; [|done]].
  - intros k id. rewrite map_lookup_filter_Some. cbn. apply and_iff_compat_l.
    unfold purgeable, terminalInvoiceStatus, idemMappingExpired.
    destruct (byID s !! id) as [inv|]; [|naive_solver].
    destruct (CreatedAt inv) as [t|] eqn:Et; [|rewrite andb_false_r; naive_solver].
    split.
    + intros Hf (inv' & t' & [= <-] & Hst & Ht' & Hx). rewrite Et in Ht'. injection Ht' as <-. rewrite andb_false_iff, orb_false_iff, !bool_decide_eq_false, Z.ltb_ge in Hf.
      destruct Hf as [[? ?]|?]; [naive_solver|lia].
    + intros Hn. rewrite andb_false_iff, orb_false_iff, !bool_decide_eq_false, Z.ltb_ge.
      destruct (decide (Status inv = "reported" \/ Status inv = "failed")) as [Hst|Hst]; [|left; tauto].
      right. destruct (decide (now - t > idempotencyTTL)) as [Hx|Hx]; [|lia]. exfalso. apply Hn. by exists inv, t.
  - assert (size (filter (fun kv => purgeable now s kv.2 = false) (byIdemKey s)) <= size (byIdemKey s))%nat; [|lia].
    apply map_subseteq_size, map_filter_subseteq.
Qed.

(** ** The summary against its definition *)

Definition mine (tenant : string) (invs : list CanonicalInvoice) : list CanonicalInvoice :=
  List.filter (fun inv => negb (bool_decide (TenantID inv = "")) && bool_decide (TenantID inv = tenant)) invs.

Definition ofPeriod (p : string) (l : list CanonicalInvoice) : list CanonicalInvoice :=
  List.filter (fun inv => bool_decide (invoicePeriod inv = p)) l.

Definition statusOf (inv : CanonicalInvoice) : string := Str.or_default (Status inv) "unknown".
Definition ofStatus (st : string) (l : list CanonicalInvoice) : list CanonicalInvoice :=
  List.filter (fun inv => bool_decide (statusOf inv = st)) l.

(** The bucket of some invoices: their number and their sums, in 64 bits *)
Definition bucketOf (p : string) (l : list CanonicalInvoice) : VATPeriod :=
  mkPeriod p (wrap64 (Z.of_nat (length l))) (wrap64 (sumZ TaxExclusiveKobo l)) (wrap64 (sumZ TaxKobo l))
    (wrap64 (sumZ PayableKobo l)).

(** The months of some invoices, ascending, each once *)
Definition monthsOf (l : list CanonicalInvoice) : list string := merge_sort String.le (remove_dups (map invoicePeriod l)).

Section Summary.

Lemma filter_snoc {A} (P : A -> bool) l x :
  List.filter P (l ++ [x]) = List.filter P l ++ (if P x then [x] else []).
Proof. rewrite List.filter_app. cbn. by destruct (P x). Qed.

Lemma sumZ_snoc {A} (f : A -> Z) l x : wrap64 (sumZ f (l ++ [x])) = wrap64 (wrap64 (sumZ f l) + f x).
Proof. rewrite sumZ_app, wrap64_add_l. unfold sumZ at 2. cbn. by rewrite Z.add_0_r. Qed.

Lemma add_bucket p inv l : addToPeriod inv (bucketOf p l) = bucketOf p (l ++ [inv]).
Proof.
  unfold addToPeriod, bucketOf. cbn [Period InvoiceCount p_TaxExclusiveKobo p_TaxKobo p_PayableKobo].
  rewrite !sumZ_snoc, wrap64_add_l, length_app. do 2 f_equal. cbn. lia.
Qed.

Definition orNone {A} (l : list CanonicalInvoice) (x : A) : option A := match l with [] => None | _ => Some x end.

Lemma orNone_snoc {A} l y (x : A) : orNone (l ++ [y]) x = Some x.
Proof. by destruct l. Qed.

Lemma tally_spec tenant invs :
  let t := foldl (tallyOne tenant) (mkTally ∅ ∅ 0 0 0) invs in
  (forall p, byPeriod t !! p = orNone (ofPeriod p (mine tenant invs)) (bucketOf p (ofPeriod p (mine tenant invs)))) /\
  (forall st, t_status t !! st = orNone (ofStatus st (mine tenant invs))
                                   (wrap64 (Z.of_nat (length (ofStatus st (mine tenant invs)))))) /\
  t_count t = wrap64 (Z.of_nat (length (mine tenant invs))) /\
  t_tax t = wrap64 (sumZ TaxKobo (mine tenant invs)) /\ t_payable t = wrap64 (sumZ PayableKobo (mine tenant invs)).
Proof.
  induction invs as [|inv invs IH] using rev_ind; [done|]. cbn zeta in *. rewrite foldl_snoc.
  set (t := foldl (tallyOne tenant) (mkTally ∅ ∅ 0 0 0) invs) in *. destruct IH as (I1 & I2 & I3 & I4 & I5).
  unfold tallyOne, mine at 1 2 3 4 5 6 7. rewrite filter_snoc. fold (mine tenant invs).
  destruct (bool_decide (TenantID inv = "")) eqn:E1, (bool_decide (TenantID inv = tenant)) eqn:E2; cbn [negb orb andb];
    rewrite ?app_nil_r; try done.
  cbn [byPeriod t_status t_count t_tax t_payable]. split_and!.
  - intros p. unfold ofPeriod. rewrite filter_snoc. fold (ofPeriod p (mine tenant invs)).
    destruct (decide (invoicePeriod inv = p)) as [<-|Hp].
    + rewrite lookup_insert_eq, bool_decide_true, orNone_snoc by done. f_equal. rewrite I1, <-add_bucket.
      by destruct (ofPeriod (invoicePeriod inv) (mine tenant invs)).
    + rewrite lookup_insert_ne, bool_decide_false, app_nil_r by done. apply I1.
  - intros st. unfold ofStatus. rewrite filter_snoc. fold (ofStatus st (mine tenant invs)). fold (statusOf inv).
    destruct (decide (statusOf inv = st)) as [<-|Hp].
    + rewrite lookup_insert_eq, bool_decide_true, orNone_snoc by done. f_equal. rewrite I2, length_app.
      destruct (ofStatus (statusOf inv) (mine tenant invs)); [done|]. cbn -[wrap64 length Z.of_nat].
      rewrite wrap64_add_l. f_equal. cbn [length]. lia.
    + rewrite lookup_insert_ne, bool_decide_false, app_nil_r by done. apply I2.
  - rewrite I3, length_app, wrap64_add_l. f_equal. cbn. lia.
  - by rewrite I4, sumZ_snoc.
  - by rewrite I5, sumZ_snoc.
Qed.

(** Two sorted lists with the same elements, sorted by different but agreeing
    orders, have the same images. *)
Lemma periods_by_month l ks :
  (forall b, b ∈ ks -> b = bucketOf (Period b) (ofPeriod (Period b) l)) -> Sorted earlier ks ->
  map Period ks ≡ₚ remove_dups (map invoicePeriod l) ->
  ks = map (fun p => bucketOf p (ofPeriod p l)) (monthsOf l).
Proof.
  intros Hb Hs Hp.
  assert (Hm : map Period ks = monthsOf l).
  { apply (StronglySorted_unique String.le).
    - apply Sorted_StronglySorted; try apply _. clear Hb Hp. induction Hs as [|b ks Hs IH Hd]; constructor; [done|].
      destruct Hd; constructor. done.
    - apply (StronglySorted_merge_sort String.le).
    - rewrite Hp. unfold monthsOf. by rewrite merge_sort_Permutation. }
  rewrite <-Hm, List.map_map. clear Hs Hp Hm. induction ks as [|b ks IH]; [done|]. cbn. rewrite <-Hb by set_solver.
  f_equal. apply IH. intros x Hx. apply Hb. set_solver.
Qed.

#[local] Instance earlier_total : Total earlier.
Proof. intros a b. unfold earlier. apply (total String.le). Qed.

(** C26: The one pass that computes the summary agrees with its definition: the
    caller's invoices are those with its tenant, which is not empty; one bucket
    for every month that occurs among them, ascending, with the number and the
    64-bit sums of the invoices of that month; for every status the number of
    its invoices; and the grand totals.  So a summary is a function of the
    tenant's own invoices: the rows of other tenants do not enter it. *)
Theorem vat_summary_exact invs tenant now :
  let s := SummarizeVAT invs tenant now in
  let l := mine tenant invs in
  Periods s = map (fun p => bucketOf p (ofPeriod p l)) (monthsOf l) /\
  (forall st, ByStatus s !! st = orNone (ofStatus st l) (wrap64 (Z.of_nat (length (ofStatus st l))))) /\
  TotalInvoices s = wrap64 (Z.of_nat (length l)) /\
  TotalTaxKobo s = wrap64 (sumZ TaxKobo l) /\ TotalPayableKobo s = wrap64 (sumZ PayableKobo l).
Proof.
  intros s l. destruct (tally_spec tenant invs) as (I1 & I2 & I3).
  unfold s, SummarizeVAT. cbn [Periods ByStatus TotalInvoices TotalTaxKobo TotalPayableKobo]. split; [|done].
  set (m := byPeriod _) in *. fold l in I1.
  assert (Hkey : forall p b, m !! p = Some b -> b = bucketOf p (ofPeriod p l)).
  { intros p b Hb. rewrite I1 in Hb. destruct (ofPeriod p l) eqn:E; [done|]. by injection Hb as <-. }
  apply periods_by_month.
  - intros b. rewrite merge_sort_Permutation. intros ([p b'] & -> & Hb)%list_elem_of_fmap. apply elem_of_map_to_list in Hb.
    cbn. rewrite (Hkey p b' Hb) at 1. by rewrite (Hkey p b' Hb).
  - apply Sorted_merge_sort, _.
  - assert (Hks : map Period (merge_sort earlier (map_to_list m).*2) ≡ₚ (map_to_list m).*1).
    { rewrite merge_sort_Permutation.
      assert (Hf : Forall (fun kv => m !! kv.1 = Some kv.2) (map_to_list m)).
      { apply Forall_forall. intros [p b] Hb. by apply elem_of_map_to_list in Hb. }
      induction Hf as [|[p b] ks Hpb _ IH]; [done|]. csimpl in *. rewrite (Hkey _ _ Hpb) at 1. cbn. by rewrite IH. }
    rewrite Hks. apply NoDup_Permutation; [apply NoDup_fst_map_to_list|apply NoDup_remove_dups|].
    intros p. rewrite elem_of_remove_dups. split.
    + intros ([p' b] & -> & Hb)%list_elem_of_fmap. apply elem_of_map_to_list in Hb. cbn in *. rewrite I1 in Hb.
      destruct (ofPeriod p' l) as [|x xs] eqn:E; [done|].
      assert (Hx : In x (ofPeriod p' l)) by (rewrite E; by left).
      unfold ofPeriod in Hx. apply filter_In in Hx as [Hx Hp]. bools. subst. apply list_elem_of_In, in_map, Hx.
    + intros Hp. apply list_elem_of_In, in_map_iff in Hp as (x & <- & Hx).
      assert (Hin : In x (ofPeriod (invoicePeriod x) l)).
      { apply filter_In. split; [done|]. by apply bool_decide_eq_true. }
      apply list_elem_of_fmap. exists (invoicePeriod x, bucketOf (invoicePeriod x) (ofPeriod (invoicePeriod x) l)).
      split; [done|]. apply elem_of_map_to_list. rewrite I1. by destruct (ofPeriod (invoicePeriod x) l).
Qed.
End Summary.

(** ** Witnesses *)

Definition demo_stored : CanonicalInvoice := demo_invoice{{ ID := "a"; IdempotencyKey := "k" }}.

Definition demo_reused : CanonicalInvoice := demo_stored{{ ID := "b" }}.
Definition demo_saved : InvoiceStore := index (stamped 0 demo_stored) (mkInvoiceStore ∅ ∅ ∅ ∅ [] [stamped 0 demo_stored] false).

Lemma save_idempotent_witness :
  @SaveCtx Toy.crypto allGood 5 demo_reused demo_saved =
    (demo_saved, demo_reused, "a",
     Some (if bool_decide (@CoreHash Toy.crypto demo_stored = @CoreHash Toy.crypto demo_reused)
           then ErrIdempotentReplay else ErrIdempotencyPayloadConflict)).
Proof.
  refine (@save_idempotent Toy.crypto allGood 0 demo_stored (emptyStore []) demo_saved (stamped 0 demo_stored) []
            allGood 5 demo_reused _ _ _ _ _ _ _).
  - reflexivity.
  - discriminate.
  - constructor.
  - reflexivity.
  - discriminate.
  - discriminate.
  - discriminate.
Defined.

Definition demo_pg : InvoiceStore := mkInvoiceStore ∅ ∅ ∅ ∅ [] [] true.

Lemma refused_write_is_logged_witness :
  exists s', @SaveCtx Toy.crypto (mkSaveIO true (pgUnique "einvoicing_irn_ux")) 0 demo_stored demo_pg
               = (s', stamped 0 demo_stored, "", Some (ErrConflict "einvoicing_irn_ux")) /\
    Get "a" s' = None /\ Get "a" (NewInvoiceStore (invLog s')) = Some (stamped 0 demo_stored).
Proof. by apply (@refused_write_is_logged Toy.crypto 0 demo_stored demo_pg "einvoicing_irn_ux"). Defined.
