(* ===== verification/Outbox.v ===== *)
(** * The event envelope and the outbox (packages/shared/envelope)

    Events are appended to a log and forwarded to the bus by a relay.  A row
    of the log is written in full or not at all; a write whose flush fails is
    in the log although an error is returned.  The identifiers, the clock and
    the answers of the bus are arguments. *)

From S2P Require Import Prelude StrFacts Ids Crypto.

Record Envelope := mkEnvelope {
  e_ID : string;
  Type_ : string;
  Source : string;
  Time : string;
  e_TenantID : string;
  TraceID : string;
  RulePackVersion : string;
  Data : string;
}.
#[export] Instance Envelope_eq_dec : EqDecision Envelope.
Proof. solve_decision. Defined.

(** [newTraceID]: from sixteen random bytes *)
Definition newTraceID (raw : string) : string := hex raw.

Record OutboxRow := mkRow {
  Seq : Z;
  Topic : string;
  r_Envelope : Envelope;
  r_Status : string;
  Attempts : Z;
  r_CreatedAt : Z;
}.
#[export] Instance OutboxRow_eq_dec : EqDecision OutboxRow.
Proof. solve_decision. Defined.

Record Outbox := mkOutbox { rowLog : list OutboxRow; seq : Z }.

(** ** The log *)

Definition foldRow (st : gmap Z OutboxRow * list Z) (r : OutboxRow) : gmap Z OutboxRow * list Z :=
  (<[Seq r := r]> st.1, match st.1 !! Seq r with Some _ => st.2 | None => st.2 ++ [Seq r] end).

(** [Rows]: the last record of each number, in the order of the first *)
Definition Rows (o : Outbox) : list OutboxRow :=
  let '(byID, order) := foldl foldRow (∅, []) (rowLog o) in
  omap (fun id => byID !! id) order.

Definition NewOutbox (l : list OutboxRow) : Outbox :=
  mkOutbox l (foldl (fun m r => if m <? Seq r then Seq r else m) 0 (Rows (mkOutbox l 0))).

(** What happens to an append: whether the row reaches the file, and whether
    the flush succeeds *)
Record appendIO := mkAppend { written : bool; synced : bool }.
Definition diskOk : appendIO := mkAppend true true.

Definition appendLocked (io : appendIO) (row : OutboxRow) (o : Outbox) : Outbox * bool :=
  if negb (written io) then (o, false) else (mkOutbox (rowLog o ++ [row]) (seq o), synced io).

Definition Publish (io : appendIO) (now : Z) (topic : string) (env : Envelope) (o : Outbox) : Outbox * bool :=
  let n := seq o +! 1 in
  appendLocked io (mkRow n topic env "pending" 0 now) (mkOutbox (rowLog o) n).

Definition Mark (io : appendIO) (n : Z) (status : string) (attempts : Z) (o : Outbox) : Outbox * bool :=
  match List.find (fun r => bool_decide (Seq r = n)) (Rows o) with
  | None => (o, false)
  | Some r => appendLocked io (mkRow (Seq r) (Topic r) (r_Envelope r) status attempts (r_CreatedAt r)) o
  end.

(** ** The relay *)

Definition due (r : OutboxRow) : bool := bool_decide (r_Status r = "pending") || bool_decide (r_Status r = "failed").

(** One row of a pass: [accept] is the answer of the bus.  The result says
    whether the row was sent. *)
Definition sendRow (accept : bool) (io : appendIO) (r : OutboxRow) (o : Outbox) : Outbox * bool :=
  if accept then ((Mark io (Seq r) "published" (Attempts r +! 1) o).1, true)
  else ((Mark io (Seq r) "failed" (Attempts r +! 1) o).1, false).

Fixpoint drainRows (accept : OutboxRow -> bool) (io : OutboxRow -> appendIO) (rows : list OutboxRow) (o : Outbox)
  : Outbox * list OutboxRow :=
  match rows with
  | [] => (o, [])
  | r :: rows =>
      let '(o, sent) := sendRow (accept r) (io r) r o in
      let '(o, more) := drainRows accept io rows o in
      (o, if sent then r :: more else more)
  end.

(** The rows sent, in order; their number is the result of the code. *)
Definition Drain (accept : OutboxRow -> bool) (io : OutboxRow -> appendIO) (o : Outbox) : Outbox * list OutboxRow :=
  drainRows accept io (List.filter due (Rows o)) o.

(** ** The log as a map from numbers to their last record *)

Definition latest (l : list OutboxRow) (n : Z) : option OutboxRow :=
  foldl (fun acc r => if bool_decide (Seq r = n) then Some r else acc) None l.

#[global] Arguments latest : simpl never.

Lemma latest_snoc l r n : latest (l ++ [r]) n = if bool_decide (Seq r = n) then Some r else latest l n.
Proof. unfold latest. by rewrite foldl_app. Qed.

Lemma latest_seq l n r : latest l n = Some r -> Seq r = n.
Proof.
  induction l as [|x l IH] using rev_ind; [done|]. rewrite latest_snoc.
  case_bool_decide as Hx; [by intros [= <-]|done].
Qed.

Lemma fold_spec l :
  let st := foldl foldRow (∅, []) l in
  (forall n, st.1 !! n = latest l n) /\ (forall n, n ∈ st.2 <-> is_Some (latest l n)) /\ NoDup st.2.
Proof.
  induction l as [|r l IH] using rev_ind; cbn zeta.
  { split; [|split]; [intros n; apply lookup_empty| |constructor].
    intros n. split; [by intros ?%elem_of_nil|by intros [? ?]]. }
  rewrite foldl_app. cbn [foldl]. set (st := foldl foldRow (∅, []) l) in *.
  destruct IH as (Hm & Ho & Hd). unfold foldRow; cbn [fst snd]. split; [|split].
  - intros n. rewrite latest_snoc. case_bool_decide as Hn; [subst n; apply lookup_insert_eq|].
    by rewrite lookup_insert_ne, Hm.
  - intros n. rewrite latest_snoc, Hm. destruct (latest l (Seq r)) eqn:E.
    + rewrite Ho. case_bool_decide as Hn; [subst n; rewrite E; by split|done].
    + rewrite elem_of_app, list_elem_of_singleton, Ho. case_bool_decide as Hn; [subst n; naive_solver|].
      split; [intros [?| ->]; [done|congruence]|by left].
  - rewrite Hm. destruct (latest l (Seq r)) eqn:E; [done|]. apply NoDup_app. split; [done|split; [|apply NoDup_singleton]].
    intros n Hn ->%list_elem_of_singleton. apply Ho in Hn as [? ?]. congruence.
Qed.

Lemma omap_ext' {A B} (f g : A -> option B) (l : list A) : (forall x, f x = g x) -> omap f l = omap g l.
Proof. intros H. induction l as [|x l IH]; [done|]. cbn. rewrite H. by destruct (g x); rewrite IH. Qed.

Lemma Rows_eq o : Rows o = omap (latest (rowLog o)) (foldl foldRow (∅, []) (rowLog o)).2.
Proof.
  unfold Rows. destruct (fold_spec (rowLog o)) as (Hm & _). destruct (foldl _ _ _) as [m order]. by apply omap_ext'.
Qed.

Lemma elem_of_Rows o r : r ∈ Rows o <-> latest (rowLog o) (Seq r) = Some r.
Proof.
  rewrite Rows_eq, list_elem_of_omap. destruct (fold_spec (rowLog o)) as (_ & Ho & _). split.
  - intros (n & _ & Hn). by rewrite (latest_seq _ _ _ Hn).
  - intros Hr. exists (Seq r). split; [|done]. apply Ho. by rewrite Hr.
Qed.

Lemma find_Rows o n : List.find (fun r => bool_decide (Seq r = n)) (Rows o) = latest (rowLog o) n.
Proof.
  destruct (List.find _ _) as [r|] eqn:E.
  - apply List.find_some in E as [Hin Hn]. bools. subst n. symmetry. by apply elem_of_Rows, list_elem_of_In.
  - destruct (latest (rowLog o) n) as [r|] eqn:El; [|done]. pose proof (latest_seq _ _ _ El) as Hn. subst n.
    apply elem_of_Rows, list_elem_of_In in El. eapply List.find_none in El; [|exact E]. cbn in El. by bools.
Qed.

(** The record a mark writes *)
Definition marked (status : string) (attempts : Z) (r : OutboxRow) : OutboxRow :=
  mkRow (Seq r) (Topic r) (r_Envelope r) status attempts (r_CreatedAt r).

Lemma Mark_latest io n status attempts o m :
  latest (rowLog (Mark io n status attempts o).1) m =
    if written io && bool_decide (n = m) then marked status attempts <$> latest (rowLog o) n else latest (rowLog o) m.
Proof.
  unfold Mark. rewrite find_Rows. destruct (latest (rowLog o) n) as [r|] eqn:E.
  - pose proof (latest_seq _ _ _ E) as Hn. unfold appendLocked. destruct (written io); [|done]. cbn [negb fst rowLog andb].
    rewrite latest_snoc. cbn. unfold marked. rewrite Hn. by case_bool_decide.
  - cbn [fst]. destruct (written io); [|done]. cbn. case_bool_decide as Hn; [subst m; by rewrite E|done].
Qed.

(** A record of a known number takes the place of the one before. *)
Lemma Rows_again l s s' r : is_Some (latest l (Seq r)) ->
  Rows (mkOutbox (l ++ [r]) s) = map (fun x => if bool_decide (Seq x = Seq r) then r else x) (Rows (mkOutbox l s')).
Proof.
  intros Hr. rewrite !Rows_eq. cbn [rowLog]. rewrite foldl_app. cbn [foldl].
  destruct (fold_spec l) as (Hm & Ho & _). set (st := foldl foldRow (∅, []) l) in *.
  unfold foldRow; cbn [fst snd]. rewrite Hm. destruct Hr as [r0 Hr0]. rewrite Hr0.
  assert (Hall : forall n, n ∈ st.2 -> is_Some (latest l n)) by (intros n; apply Ho). clear Ho.
  induction st.2 as [|n order IH]; [done|]. cbn. rewrite latest_snoc.
  destruct (Hall n ltac:(apply list_elem_of_here)) as [x Hx]. rewrite Hx. cbn. rewrite (latest_seq _ _ _ Hx).
  rewrite (bool_decide_ext (Seq r = n) (n = Seq r)) by (split; congruence).
  rewrite IH by (intros k Hk; apply Hall; by right). by case_bool_decide.
Qed.

Lemma Rows_Mark io n status attempts o :
  Rows (Mark io n status attempts o).1 =
    map (fun x => if written io && bool_decide (Seq x = n) then marked status attempts x else x) (Rows o).
Proof.
  unfold Mark. rewrite find_Rows. destruct (latest (rowLog o) n) as [r|] eqn:E.
  - pose proof (latest_seq _ _ _ E) as <-. unfold appendLocked. destruct (written io) eqn:Ew; cbn [negb fst rowLog andb].
    + rewrite (Rows_again _ _ (seq o)) by (cbn; by rewrite E). destruct o as [l s]. cbn [rowLog seq] in *.
      apply map_ext_in. intros x Hx%list_elem_of_In%elem_of_Rows. cbn in *. case_bool_decide as Hn; [|done].
      rewrite Hn in Hx. assert (x = r) as -> by congruence. reflexivity.
    + symmetry. apply map_id.
  - cbn [fst]. symmetry. rewrite <- (map_id (Rows o)) at 2. apply map_ext_in. intros x Hx%list_elem_of_In%elem_of_Rows.
    case_bool_decide as Hn; [|by rewrite andb_false_r]. rewrite Hn in Hx. congruence.
Qed.

Lemma NoDup_Rows o : NoDup (Seq <$> Rows o).
Proof.
  rewrite Rows_eq. destruct (fold_spec (rowLog o)) as (_ & _ & Hd). induction Hd as [|n order Hn Hd IH]; [constructor|].
  cbn. destruct (latest (rowLog o) n) as [r|] eqn:E; [|done]. cbn. constructor; [|done].
  rewrite (latest_seq _ _ _ E). intros (x & Hx & Hin)%list_elem_of_fmap.
  apply list_elem_of_omap in Hin as (k & Hk & Hl). apply latest_seq in Hl. congruence.
Qed.

(** What a pass leaves of a row *)
Definition afterPass (accept : OutboxRow -> bool) (io : OutboxRow -> appendIO) (r : OutboxRow) : OutboxRow :=
  if due r && written (io r) then marked (if accept r then "published" else "failed") (Attempts r +! 1) r else r.

Lemma sendRow_spec accept io r o :
  (sendRow accept io r o).2 = accept /\
  (sendRow accept io r o).1 = (Mark io (Seq r) (if accept then "published" else "failed") (Attempts r +! 1) o).1.
Proof. by destruct accept. Qed.

Lemma drainRows_spec accept io rows o :
  NoDup (Seq <$> Rows o) -> NoDup (Seq <$> rows) -> (forall r, r ∈ rows -> r ∈ Rows o) ->
  let '(o', sent) := drainRows accept io rows o in
  sent = List.filter accept rows /\
  Rows o' = map (fun x => if bool_decide (x ∈ rows) && written (io x)
                          then marked (if accept x then "published" else "failed") (Attempts x +! 1) x else x) (Rows o).
Proof.
  revert o. induction rows as [|r rows IH]; intros o Ho Hr Hin; cbn [drainRows].
  { split; [done|]. symmetry. rewrite <- (map_id (Rows o)) at 2. apply map_ext. intros x.
    by rewrite bool_decide_eq_false_2 by apply not_elem_of_nil. }
  destruct (sendRow (accept r) (io r) r o) as [o1 sent] eqn:E.
  pose proof (sendRow_spec (accept r) (io r) r o) as [Hs H1]. rewrite E in Hs, H1. cbn in Hs, H1. subst sent o1.
  set (o1 := (Mark _ _ _ _ o).1).
  apply NoDup_cons in Hr as [Hnr Hr].
  assert (HR1 : Rows o1 = map (fun x => if written (io r) && bool_decide (Seq x = Seq r)
      then marked (if accept r then "published" else "failed") (Attempts r +! 1) x else x) (Rows o)) by apply Rows_Mark.
  assert (Hkeep : forall x, x ∈ rows -> Seq x <> Seq r).
  { intros x Hx Hq. apply Hnr. rewrite <- Hq. by apply list_elem_of_fmap_2. }
  specialize (IH o1 (NoDup_Rows o1) Hr). destruct (drainRows accept io rows o1) as [o' more].
  destruct IH as [-> HR].
  { intros x Hx. rewrite HR1, list_elem_of_fmap. exists x. split; [|apply Hin; by right].
    by rewrite (bool_decide_eq_false_2 _ (Hkeep x Hx)), andb_false_r. }
  split; [cbn; by destruct (accept r)|]. rewrite HR, HR1, map_map. apply map_ext_in. intros x Hx%list_elem_of_In.
  assert (Hxr : Seq x = Seq r -> x = r).
  { intros Hq. assert (Hlr : r ∈ Rows o) by (apply Hin; left). apply elem_of_Rows in Hx, Hlr. congruence. }
  destruct (decide (x = r)) as [->|Hne].
  - rewrite (bool_decide_eq_true_2 (Seq r = Seq r)), andb_true_r by done.
    rewrite (bool_decide_eq_true_2 (r ∈ r :: rows)) by left. cbn [andb].
    destruct (written (io r)) eqn:Ew.
    + rewrite bool_decide_eq_false_2; [done|]. intros Hx'. by apply (Hkeep _ Hx').
    + rewrite bool_decide_eq_false_2; [done|]. intros Hx'. by apply (Hkeep _ Hx').
  - rewrite (bool_decide_eq_false_2 (Seq x = Seq r)), andb_false_r by naive_solver.
    rewrite (bool_decide_ext (x ∈ r :: rows) (x ∈ rows)); [done|]. rewrite elem_of_cons. naive_solver.
Qed.

(** A pass of the relay sends exactly the rows that are due and that the
    bus accepts, in their order, and leaves every other row alone: a row sent
    is published, a refused one failed, each with one more attempt, unless
    the mark could not be written. *)
Theorem drain_exact accept io o :
  let '(o', sent) := Drain accept io o in
  sent = List.filter (fun r => due r && accept r) (Rows o) /\
  Rows o' = map (afterPass accept io) (Rows o).
Proof.
  unfold Drain. pose proof (drainRows_spec accept io (List.filter due (Rows o)) o) as H.
  destruct (drainRows _ _ _ _) as [o' sent]. destruct H as [-> ->].
  - apply NoDup_Rows.
  - pose proof (NoDup_Rows o) as Hd. induction (Rows o) as [|r l IH]; [constructor|].
    cbn in Hd |- *. apply NoDup_cons in Hd as [Hn Hd]. destruct (due r); [|by apply IH]. cbn. constructor; [|by apply IH].
    intros (x & Hx & Hin)%list_elem_of_fmap. apply Hn. rewrite Hx.
    apply list_elem_of_In, filter_In in Hin as [Hin _]. apply list_elem_of_fmap_2. by apply list_elem_of_In.
  - intros r Hr. apply list_elem_of_In in Hr. apply filter_In in Hr as [Hr _]. by apply list_elem_of_In.
  - split.
    + induction (Rows o) as [|r l IH]; [done|]. cbn. destruct (due r); cbn; rewrite IH; done.
    + apply map_ext_in. intros x Hx%list_elem_of_In. unfold afterPass.
      replace (bool_decide (x ∈ List.filter due (Rows o))) with (due x); [done|]. symmetry.
      destruct (due x) eqn:Ed; [apply bool_decide_eq_true_2|apply bool_decide_eq_false_2]; rewrite list_elem_of_In, filter_In.
      * split; [by apply list_elem_of_In|done].
      * intros [_ Hd]. congruence.
Qed.

(** ** The outbox under restarts and replays *)

(** The relay between two rows of a pass: [queue] are the rows it read at its
    start and has not sent yet.  [sentLog] and [acked] record what the bus
    took and which publications returned without an error. *)
Record relay := mkRelay {
  box : Outbox;
  queue : list OutboxRow;
  sentLog : list OutboxRow;
  acked : list OutboxRow;
}.

(** A replay (services/einvoicing/main.go, handleReplayOne) marks a row
    pending with a count of attempts it read earlier. *)
Inductive relayOp :=
| OPublish (io : appendIO) (now : Z) (topic : string) (env : Envelope)
| OBegin
| OSend (accept : bool) (io : appendIO)
| OReplay (io : appendIO) (n attempts : Z)
| ORestart.

Definition relayStep (s : relay) (op : relayOp) : relay :=
  match op with
  | OPublish io now topic env =>
      let '(b, ok) := Publish io now topic env (box s) in
      mkRelay b (queue s) (sentLog s)
        (if ok then acked s ++ [mkRow (seq b) topic env "pending" 0 now] else acked s)
  | OBegin => match queue s with
              | [] => mkRelay (box s) (List.filter due (Rows (box s))) (sentLog s) (acked s)
              | _ => s
              end
  | OSend accept io =>
      match queue s with
      | [] => s
      | r :: rest =>
          let '(b, sent) := sendRow accept io r (box s) in
          mkRelay b rest (if sent then sentLog s ++ [r] else sentLog s) (acked s)
      end
  | OReplay io n attempts => mkRelay (Mark io n "pending" attempts (box s)).1 (queue s) (sentLog s) (acked s)
  | ORestart => mkRelay (NewOutbox (rowLog (box s))) [] (sentLog s) (acked s)
  end.

Definition runRelay (ops : list relayOp) : relay := foldl relayStep (mkRelay (NewOutbox []) [] [] []) ops.

Definition sameEvent (a b : OutboxRow) : Prop := Seq a = Seq b /\ Topic a = Topic b /\ r_Envelope a = r_Envelope b.

Record relayInv (k : nat) (s : relay) : Prop := {
  ri_acked : forall a, a ∈ acked s -> exists r, latest (rowLog (box s)) (Seq a) = Some r /\ sameEvent a r;
  ri_status : forall n r, latest (rowLog (box s)) n = Some r ->
    due r = true \/ (exists d, d ∈ sentLog s /\ sameEvent r d);
  ri_queue : forall q, q ∈ queue s -> exists r, latest (rowLog (box s)) (Seq q) = Some r /\ sameEvent q r;
  ri_seq : forall n r, latest (rowLog (box s)) n = Some r -> 0 < n <= seq (box s);
  ri_bound : 0 <= seq (box s) <= Z.of_nat k;
}.

Lemma Mark_seq io n st att o : seq (Mark io n st att o).1 = seq o.
Proof. unfold Mark, appendLocked. by destruct (List.find _ _), (written io). Qed.

Lemma sameEvent_trans a b c : sameEvent a b -> sameEvent b c -> sameEvent a c.
Proof. intros (? & ? & ?) (? & ? & ?). repeat split; congruence. Qed.

Lemma sameEvent_sym a b : sameEvent a b -> sameEvent b a.
Proof. intros (? & ? & ?). by repeat split. Qed.

(** A mark keeps the event of every number. *)
Lemma Mark_known io n st att o a :
  (exists r, latest (rowLog o) (Seq a) = Some r /\ sameEvent a r) ->
  exists r, latest (rowLog (Mark io n st att o).1) (Seq a) = Some r /\ sameEvent a r.
Proof.
  intros (r & Hr & He). rewrite Mark_latest. destruct (written io && bool_decide (n = Seq a)) eqn:E; [|by exists r].
  bools. subst n. rewrite Hr. cbn. exists (marked st att r). split; [done|]. by destruct He as (? & ? & ?).
Qed.

Lemma mark_keeps k s io n st att queue' sent' :
  relayInv k s -> (forall q, q ∈ queue' -> q ∈ queue s) -> (forall d, d ∈ sentLog s -> d ∈ sent') ->
  (due (marked st att (mkRow 0 "" (mkEnvelope "" "" "" "" "" "" "" "") "" 0 0)) = true \/
   forall r, latest (rowLog (box s)) n = Some r -> exists d, d ∈ sent' /\ sameEvent r d) ->
  relayInv k (mkRelay (Mark io n st att (box s)).1 queue' sent' (acked s)).
Proof.
  intros [Ha Hs Hq Hb Hk] Hqueue Hsent Hst. constructor; cbn.
  - intros a Hin. by apply Mark_known, Ha.
  - intros m r. rewrite Mark_latest. destruct (written io && bool_decide (n = m)) eqn:E.
    + bools. subst m. destruct (latest (rowLog (box s)) n) as [r0|] eqn:E0; [|done]. cbn. intros [= <-].
      destruct Hst as [Hd|Hd]; [left; exact Hd|]. right. destruct (Hd r0 eq_refl) as (d & Hd1 & Hd2). by exists d.
    + intros Hr. destruct (Hs m r Hr) as [?|(d & ? & ?)]; [by left|right]. eauto.
  - intros q Hin. apply Mark_known, Hq, Hqueue, Hin.
  - intros m r. rewrite Mark_latest, Mark_seq. destruct (written io && bool_decide (n = m)) eqn:E; [|apply Hb].
    bools. subst m. destruct (latest (rowLog (box s)) n) as [r0|] eqn:E0; [|done]. intros _. by apply (Hb n r0).
  - by rewrite Mark_seq.
Qed.

Lemma newest l :
  let m := foldl (fun m r => if m <? Seq r then Seq r else m) 0 l in
  0 <= m /\ (forall r, r ∈ l -> Seq r <= m) /\ (m = 0 \/ exists r, r ∈ l /\ Seq r = m).
Proof.
  induction l as [|r l IH] using rev_ind; cbn zeta.
  { cbn. split; [lia|split; [by intros ? ?%elem_of_nil|by left]]. }
  rewrite foldl_app. cbn [foldl]. cbn zeta in IH. destruct IH as (H0 & Hle & Hm). destruct (_ <? Seq r) eqn:E; bools.
  - split; [lia|split].
    + intros x [Hx| ->%list_elem_of_singleton]%elem_of_app; [specialize (Hle x Hx)|]; lia.
    + right. exists r. split; [set_solver|done].
  - split; [lia|split].
    + intros x [Hx| ->%list_elem_of_singleton]%elem_of_app; [by apply Hle|lia].
    + destruct Hm as [?|(x & ? & ?)]; [by left|right]. exists x. split; [set_solver|done].
Qed.

Lemma publish_keeps k s io now topic env :
  Z.of_nat (S k) < two63 -> relayInv k s -> relayInv (S k) (relayStep s (OPublish io now topic env)).
Proof.
  intros Hk [Ha Hs Hq Hb Hn]. cbn [relayStep]. unfold Publish, appendLocked.
  rewrite (wrap64_id (seq (box s) + 1)) by (unfold in64, two63 in *; lia). set (n := seq (box s) + 1).
  destruct (written io) eqn:Ew; cbn [negb].
  2:{ constructor; cbn; try done; [|lia]. intros m r Hr. specialize (Hb m r Hr). lia. }
  assert (Hfresh : latest (rowLog (box s)) n = None).
  { destruct (latest _ n) as [r|] eqn:E; [|done]. specialize (Hb n r E). lia. }
  assert (Hkeep : forall a, (exists r, latest (rowLog (box s)) (Seq a) = Some r /\ sameEvent a r) ->
    exists r, latest (rowLog (box s) ++ [mkRow n topic env "pending" 0 now]) (Seq a) = Some r /\ sameEvent a r).
  { intros a (r & Hr & He). exists r. split; [|done]. rewrite latest_snoc. cbn. case_bool_decide as Hc; [rewrite <- Hc in Hr; congruence|done]. }
  constructor; cbn.
  - intros a Ha'. destruct (synced io); [|by apply Hkeep, Ha]. apply elem_of_app in Ha' as [Ha'| ->%list_elem_of_singleton].
    + by apply Hkeep, Ha.
    + eexists. rewrite latest_snoc. cbn. by rewrite bool_decide_eq_true_2.
  - intros m r. rewrite latest_snoc. cbn. case_bool_decide as Hm; [|apply Hs]. intros [= <-]. by left.
  - intros q Hin. by apply Hkeep, Hq.
  - intros m r. rewrite latest_snoc. cbn. case_bool_decide as Hm; [intros _; lia|]. intros Hr. specialize (Hb m r Hr). lia.
  - lia.
Qed.

Lemma relayInv_S k s : relayInv k s -> relayInv (S k) s.
Proof. intros [? ? ? ? ?]. constructor; try done. lia. Qed.

Lemma relayStep_inv k s op : Z.of_nat (S k) < two63 -> relayInv k s -> relayInv (S k) (relayStep s op).
Proof.
  intros Hk Hi. destruct op as [io now topic env| |accept io|io n att|]; [by apply publish_keeps| | | |]; apply relayInv_S.
  - cbn. destruct (queue s) eqn:E; [|done]. destruct Hi as [Ha Hs Hq Hb Hn]. constructor; cbn; try done.
    intros q Hin. apply list_elem_of_In, filter_In in Hin as [Hin%list_elem_of_In%elem_of_Rows _]. by exists q.
  - cbn. destruct (queue s) as [|r rest] eqn:E; [done|].
    pose proof (sendRow_spec accept io r (box s)) as [Hsent Hbox]. destruct (sendRow _ _ _ _) as [b sent]. cbn in Hsent, Hbox.
    subst b sent. destruct accept; apply mark_keeps; try done.
    + rewrite E. intros q Hin. by right.
    + intros d Hd. apply elem_of_app. by left.
    + right. intros x Hx. exists r. split; [set_solver|].
      destruct (ri_queue _ _ Hi r) as (x' & Hx' & He); [rewrite E; left|]. assert (x' = x) as -> by congruence.
      by apply sameEvent_sym.
    + rewrite E. intros q Hin. by right.
    + by left.
  - cbn. apply mark_keeps; try done. by left.
  - destruct Hi as [Ha Hs Hq Hb Hn]. cbn. unfold NewOutbox.
    pose proof (newest (Rows (mkOutbox (rowLog (box s)) 0))) as (H0 & Hle & Hm).
    constructor; cbn [box queue sentLog acked rowLog seq]; try done.
    + by intros q ?%elem_of_nil.
    + intros n r Hr. specialize (Hb n r Hr) as Hb'. pose proof (latest_seq _ _ _ Hr) as <-.
      specialize (Hle r). rewrite elem_of_Rows in Hle. specialize (Hle Hr). lia.
    + split; [done|]. destruct Hm as [->|(r & Hr & <-)]; [lia|]. apply elem_of_Rows in Hr. specialize (Hb _ _ Hr). lia.
Qed.

Lemma runRelay_inv ops : Z.of_nat (length ops) < two63 -> relayInv (length ops) (runRelay ops).
Proof.
  unfold runRelay. induction ops as [|op ops IH] using rev_ind; intros Hl.
  - constructor; cbn; try by intros ? ?%elem_of_nil. 1,2: by intros. lia.
  - rewrite foldl_app. cbn [foldl]. rewrite length_app in *. cbn in *. rewrite Nat.add_1_r in *.
    apply relayStep_inv; [done|]. apply IH. lia.
Qed.

(** C25: No event is lost.  After any interleaving of publications, relay
    passes, replays and restarts, whatever writes and sends fail, an event
    whose publication was acknowledged is in the log under its number, and it
    is due for the next pass or the bus has taken it. *)
Theorem outbox_no_loss ops :
  Z.of_nat (length ops) < two63 ->
  let s := runRelay ops in
  forall a, a ∈ acked s ->
    exists r, r ∈ Rows (box s) /\ sameEvent a r /\ (due r = true \/ exists d, d ∈ sentLog s /\ sameEvent a d).
Proof.
  intros Hl s a Ha. destruct (runRelay_inv ops Hl) as [Hacked Hs _ _ _]. fold s in Hacked, Hs.
  destruct (Hacked a Ha) as (r & Hr & He). exists r. split; [|split; [done|]].
  - apply elem_of_Rows. by rewrite (latest_seq _ _ _ Hr).
  - destruct (Hs _ _ Hr) as [?|(d & ? & ?)]; [by left|right]. exists d. split; [done|]. by eapply sameEvent_trans.
Qed.

Definition demo_event : Envelope := mkEnvelope "01" "t" "einvoicing" "2026-01-01T00:00:00Z" "t1" "" "" "{}".
(** A refused send, a restart, and a send whose mark is lost *)
Definition demo_ops : list relayOp :=
  [OPublish diskOk 1 "t" demo_event; OBegin; OSend false diskOk; ORestart; OBegin; OSend true (mkAppend false false)].

Lemma outbox_no_loss_witness :
  exists r, r ∈ Rows (box (runRelay demo_ops)) /\ sameEvent (mkRow 1 "t" demo_event "pending" 0 1) r /\
    (due r = true \/ exists d, d ∈ sentLog (runRelay demo_ops) /\ sameEvent (mkRow 1 "t" demo_event "pending" 0 1) d).
Proof.
  apply (outbox_no_loss demo_ops); [reflexivity|].
  refine (@bool_decide_eq_true_1 _ _ _). vm_compute. reflexivity.
Defined.
