(* ===== verification/EnvelopeBus.v ===== *)
(** * The producer side of the events (packages/shared/envelope)

    [New] makes an envelope with an identifier of its own generator: ten
    characters of milliseconds and sixteen of eighty random bits.  Events go
    to a [Publisher]: the bus of a single process, the outbox on disk, or the
    relay, which hands them to the bus behind it.  [Outbox] has the log and the
    marks of the relay; here the relay meets the bus.  The clock, the random
    bytes and the JSON of the data are arguments. *)

From S2P Require Import Prelude StrFacts Crypto Auth Ids GoTime Outbox.

(** ** Identifiers *)

(** The [n] lowest digits of [x] in front of [tail], as the loops write them
    from the right *)
Fixpoint base32 (n : nat) (x : Z) (tail : string) : string :=
  match n with
  | O => tail
  | S n => base32 n (Z.shiftr x 5) (String (crockford_char (Z.land x 31)) tail)
  end.

(** [x = x<<8 | c] over the bytes, in 64 bits *)
Definition foldBytes (s : string) : Z :=
  foldl (fun x c => Z.lor (Z.shiftl x 8 mod 2 ^ 64) (byte_val c)) 0 (String.list_ascii_of_string s).

Definition byteAt (s : string) (i : nat) : Z :=
  match String.get i s with Some c => byte_val c | None => 0 end.

(** [rand]: the ten random bytes.  The code computes a second number of them
    that it does not use. *)
Definition ULID_text (now : Z) (rand : string) : string :=
  let rv := Z.lor (Z.shiftl (byteAt rand 0) 8) (byteAt rand 1) in
  let x := foldBytes (Str.drop 2 rand) in
  base32 10 (now mod 2 ^ 64)
    (String (crockford_char (Z.land (Z.shiftr rv 11) 31))
    (String (crockford_char (Z.land (Z.shiftr rv 6) 31))
    (String (crockford_char (Z.land (Z.shiftr rv 1) 31))
    (String (crockford_char (Z.lor (Z.shiftl (Z.land rv 1) 4) (Z.shiftr (byteAt rand 2) 4)))
    (base32 12 x EmptyString))))).

(** [last] is [ulidLast], the state *)
Definition ULID (now : Z) (rand : string) (last : Z) : Z * string :=
  let now := if now <? last then last else now in
  (now, ULID_text now rand).

(** The identifiers of a process: the clock readings and the random bytes of
    the calls in their order; each identifier with the time it carries *)
Fixpoint issue (calls : list (Z * string)) (last : Z) : list (Z * string) :=
  match calls with
  | [] => []
  | (now, rand) :: calls => let '(t, id) := ULID now rand last in (t, id) :: issue calls t
  end.

(** ** Reading an identifier *)

Fixpoint index_of (c : ascii) (s : string) : option Z :=
  match s with
  | EmptyString => None
  | String d s => if bool_decide (c = d) then Some 0 else Z.succ <$> index_of c s
  end.

(** The number the characters denote *)
Fixpoint number (acc : Z) (s : string) : option Z :=
  match s with
  | EmptyString => Some acc
  | String c s => d ← index_of c crockford; number (32 * acc + d) s
  end.

(** The milliseconds and the ten random bytes *)
Definition readULID (id : string) : option (Z * string) :=
  ms ← number 0 (Str.take 10 id);
  bits ← number 0 (Str.drop 10 id);
  Some (ms, be_bytes 10 bits).

(** ** Envelopes *)

(** [data]: the JSON of the data, [None] when it cannot be written; [nowID]
    and [now] are the two readings of the clock *)
Definition New (eventType source tenantID rulePackVersion : string) (data : option string)
    (nowID : Z) (rand : string) (now : Z) (raw : string) (last : Z) : Z * option Envelope :=
  match data with
  | None => (last, None)
  | Some data =>
      let '(last, id) := ULID nowID rand last in
      (last, Some (mkEnvelope id eventType source (GoTime.format now) tenantID (newTraceID raw) rulePackVersion data))
  end.

(** ** Publishers *)

(** [Publisher]: the new state and whether the publication was accepted *)
Class Publisher (B : Type) := publish : string -> Envelope -> B -> B * bool.

Record InprocBus := mkBus { messages : gmap string (list Envelope) }.
Definition NewInprocBus : InprocBus := mkBus ∅.

#[export] Instance inprocPublish : Publisher InprocBus := fun topic env b =>
  (mkBus (<[topic := default [] (messages b !! topic) ++ [env]]> (messages b)), true).

Definition Messages (b : InprocBus) (topic : string) : list Envelope := default [] (messages b !! topic).

(** [Relay]: the log and the bus behind it *)
Record Relay (B : Type) := mkRelayTo { Box : Outbox; Bus : B }.
Arguments mkRelayTo {B}. Arguments Box {B}. Arguments Bus {B}.

#[export] Instance relayPublish {B} `{Publisher B} : Publisher (Relay B) := fun topic env r =>
  let '(b, ok) := publish topic env (Bus r) in (mkRelayTo (Box r) b, ok).

Fixpoint drainTo {B} `{Publisher B} (io : OutboxRow -> appendIO) (rows : list OutboxRow) (r : Relay B)
  : Relay B * Z :=
  match rows with
  | [] => (r, 0)
  | row :: rows =>
      if negb (due row) then drainTo io rows r
      else
        let '(b, ok) := publish (Topic row) (r_Envelope row) (Bus r) in
        if ok then
          let '(r, n) := drainTo io rows
            (mkRelayTo (Mark (io row) (Seq row) "published" (Attempts row +! 1) (Box r)).1 b) in
          (r, n + 1)
        else drainTo io rows (mkRelayTo (Mark (io row) (Seq row) "failed" (Attempts row +! 1) (Box r)).1 b)
  end.

(** [Drain] of the relay; the rows of a log that can be read *)
Definition DrainTo {B} `{Publisher B} (io : OutboxRow -> appendIO) (r : Relay B) : Relay B * Z :=
  drainTo io (Rows (Box r)) r.

(** ** Auxiliary lemmas *)

Section Digits.

(** The digits of [x] on top of those read before *)
Lemma index_char v : 0 <= v < 32 -> index_of (crockford_char v) crockford = Some v.
Proof.
  intros Hv. assert (H : forallb (fun v => bool_decide (index_of (crockford_char v) crockford = Some v))
    (map Z.of_nat (List.seq 0 32)) = true) by (vm_compute; reflexivity).
  rewrite forallb_forall in H. specialize (H v). apply bool_decide_eq_true in H; [exact H|].
  apply in_map_iff. exists (Z.to_nat v). rewrite in_seq. lia.
Qed.

Lemma land31 x : Z.land x 31 = x mod 32.
Proof. apply (Z.land_ones x 5). lia. Qed.

Lemma number_char acc v s : 0 <= v < 32 -> number acc (String (crockford_char v) s) = number (32 * acc + v) s.
Proof. intros Hv. cbn [number]. by rewrite index_char. Qed.

Lemma base32_tail n x tail : base32 n x tail = base32 n x EmptyString +:+ tail.
Proof.
  revert x tail. induction n as [|n IH]; intros x tail; [done|]. cbn [base32].
  rewrite IH. rewrite (IH _ (String _ EmptyString)). rewrite <- str_app_assoc. done.
Qed.

Lemma base32_length n x tail : String.length (base32 n x tail) = (n + String.length tail)%nat.
Proof. revert x tail. induction n as [|n IH]; intros x tail; [done|]. cbn [base32]. rewrite IH. simpl. lia. Qed.

Lemma number_base32 n x acc tail : 0 <= x ->
  number acc (base32 n x tail) = number (acc * 32 ^ Z.of_nat n + x mod 32 ^ Z.of_nat n) tail.
Proof.
  revert x acc tail. induction n as [|n IH]; intros x acc tail Hx.
  { simpl base32. f_equal. rewrite Z.mod_1_r. lia. }
  cbn [base32]. rewrite land31, Z.shiftr_div_pow2 by lia. change (2 ^ 5) with 32.
  rewrite IH by (apply Z.div_pos; lia). rewrite number_char by (apply Z.mod_pos_bound; lia).
  f_equal. rewrite Nat2Z.inj_succ, Z.pow_succ_r by lia.
  rewrite (Z.rem_mul_r x 32 (32 ^ Z.of_nat n)) by lia. ring.
Qed.

(** The bytes as one number *)
Definition bytesNum (s : string) : Z :=
  foldl (fun x c => 256 * x + byte_val c) 0 (String.list_ascii_of_string s).

Lemma bytesNum_snoc s c : bytesNum (s +:+ String c "") = 256 * bytesNum s + byte_val c.
Proof.
  unfold bytesNum. enough (H : forall x, foldl (fun x c => 256 * x + byte_val c) x (String.list_ascii_of_string (s +:+ String c ""))
    = 256 * foldl (fun x c => 256 * x + byte_val c) x (String.list_ascii_of_string s) + byte_val c) by apply H.
  induction s as [|d s IH]; intros x; [done|]. cbn. apply IH.
Qed.

Lemma byte_char c : Ascii.ascii_of_N (Z.to_N (byte_val c)) = c.
Proof. unfold byte_val. rewrite N2Z.id. apply Ascii.ascii_N_embedding. Qed.

(** Strings by their last character *)
Lemma str_snoc_ind (P : string -> Prop) :
  P EmptyString -> (forall s c, P s -> P (s +:+ String c "")) -> forall s, P s.
Proof.
  intros H0 H1 s. rewrite <- (rev_involutive s). induction (Str.rev s) as [|c r IH]; [exact H0|].
  rewrite rev_cons. by apply H1.
Qed.

Lemma bytesNum_range s : 0 <= bytesNum s < 256 ^ Z.of_nat (String.length s).
Proof.
  induction s as [|s c IH] using str_snoc_ind; [vm_compute; split; congruence|].
  rewrite bytesNum_snoc, str_length_app. pose proof (byte_range c). simpl String.length.
  rewrite Nat2Z.inj_add, Z.pow_add_r by lia. change (256 ^ Z.of_nat 1) with 256. lia.
Qed.

Lemma be_bytesNum s : be_bytes (String.length s) (bytesNum s) = s.
Proof.
  induction s as [|s c IH] using str_snoc_ind; [done|].
  rewrite bytesNum_snoc, str_length_app. simpl String.length. rewrite Nat.add_1_r. cbn [be_bytes].
  pose proof (byte_range c). rewrite Z.shiftr_div_pow2 by lia. change (2 ^ 8) with 256.
  rewrite (Z.add_comm (256 * _)), (Z.mul_comm 256), Z.div_add, Z.div_small, Z.add_0_l, IH by lia.
  change 255 with (Z.ones 8). rewrite Z.land_ones, Z.mod_add, Z.mod_small by lia. by rewrite byte_char.
Qed.

Lemma foldBytes_num s : (String.length s <= 8)%nat -> foldBytes s = bytesNum s.
Proof.
  induction s as [|s c IH] using str_snoc_ind; [done|]. rewrite str_length_app. simpl String.length. intros Hl.
  specialize (IH ltac:(lia)). rewrite bytesNum_snoc, <- IH. pose proof (byte_range c).
  pose proof (bytesNum_range s) as Hr. rewrite <- IH in Hr.
  assert (256 ^ Z.of_nat (String.length s) <= 256 ^ 7) by (apply Z.pow_le_mono_r; lia).
  assert (Hsnoc : foldBytes (s +:+ String c "") = Z.lor (Z.shiftl (foldBytes s) 8 mod 2 ^ 64) (byte_val c)).
  { unfold foldBytes. generalize 0. clear. induction s as [|d s IH]; intros z; [done|]. cbn. apply IH. }
  rewrite Hsnoc, Z.mod_small by (rewrite Z.shiftl_mul_pow2 by lia; lia). rewrite lor_shiftl_add by lia. lia.
Qed.
End Digits.

Lemma rand_bytes rand : String.length rand = 10%nat ->
  exists c0 c1 c2 s, rand = String c0 (String c1 (String c2 s)) /\ String.length s = 7%nat.
Proof.
  destruct rand as [|c0 [|c1 [|c2 s]]]; [done..|]. cbn. intros [= H]. by exists c0, c1, c2, s.
Qed.

Lemma bytesNum_cons c s : bytesNum (String c s) = byte_val c * 256 ^ Z.of_nat (String.length s) + bytesNum s.
Proof.
  induction s as [|s d IH] using str_snoc_ind; [unfold bytesNum; simpl; lia|].
  replace (String c (s +:+ String d "")) with (String c s +:+ String d "") by done.
  rewrite !bytesNum_snoc, IH, str_length_app, Nat2Z.inj_add, Z.pow_add_r by lia.
  change (256 ^ Z.of_nat (String.length (String d ""))) with 256. ring.
Qed.

(** The sixteen characters of the random bytes denote them. *)
Lemma number_text now rand : String.length rand = 10%nat -> 0 <= now < 2 ^ 64 ->
  exists ms bits, ULID_text now rand = ms +:+ bits /\ String.length ms = 10%nat /\ String.length bits = 16%nat /\
    number 0 ms = Some (now mod 2 ^ 50) /\ number 0 bits = Some (bytesNum rand).
Proof.
  intros Hr Hn. apply rand_bytes in Hr as (c0 & c1 & c2 & s & -> & Hs).
  unfold ULID_text. rewrite base32_tail, (Z.mod_small now) by lia.
  eexists _, _. split; [reflexivity|]. split; [apply base32_length|].
  split; [cbn [String.length]; rewrite base32_length; done|]. split.
  { rewrite number_base32 by lia. reflexivity. }
  change (byteAt _ 0) with (byte_val c0). change (byteAt _ 1) with (byte_val c1). change (byteAt _ 2) with (byte_val c2).
  replace (Str.drop 2 _) with (String c2 s) by (cbn; by rewrite (str_substring_all s) by lia).
  rewrite foldBytes_num by (simpl; lia). rewrite (bytesNum_cons c0), (bytesNum_cons c1), (bytesNum_cons c2).
  pose proof (byte_range c0). pose proof (byte_range c1). pose proof (byte_range c2). pose proof (bytesNum_range s) as Hb.
  simpl String.length. rewrite Hs in *. set (y := bytesNum s) in *. clearbody y.
  change (256 ^ Z.of_nat 7) with (2 ^ 56) in *. change (256 ^ Z.of_nat 8) with (2 ^ 64). change (256 ^ Z.of_nat 9) with (2 ^ 72).
  rewrite lor_shiftl_add by lia. change (2 ^ 8) with 256.
  set (rv := byte_val c0 * 256 + byte_val c1) in *. set (b2 := byte_val c2) in *.
  rewrite !Z.shiftr_div_pow2 by lia. rewrite !land31. replace (Z.land rv 1) with (rv mod 2) by (symmetry; apply (Z.land_ones rv 1); lia).
  rewrite lor_shiftl_add by (first [lia | split; [apply Z.div_pos; lia | apply Z.div_lt_upper_bound; lia]]).
  change (2 ^ 11) with 2048. change (2 ^ 6) with 64. change (2 ^ 1) with 2. change (2 ^ 4) with 16.
  rewrite !number_char by (Z.to_euclidean_division_equations; lia).
  rewrite number_base32 by lia. cbn [number]. f_equal. subst rv. clearbody b2.
  change (32 ^ Z.of_nat 12) with (2 ^ 60).
  Z.to_euclidean_division_equations. lia.
Qed.

Section Order.

Lemma char_order u v : 0 <= u < v -> v < 32 ->
  Ascii.compare (crockford_char u) (crockford_char v) = Lt.
Proof.
  intros Hu Hv. assert (H : forallb (fun u => forallb (fun v =>
      negb (u <? v) || bool_decide (Ascii.compare (crockford_char u) (crockford_char v) = Lt))
      (map Z.of_nat (List.seq 0 32))) (map Z.of_nat (List.seq 0 32)) = true) by (vm_compute; reflexivity).
  assert (Hin : forall z, 0 <= z < 32 -> In z (map Z.of_nat (List.seq 0 32))).
  { intros z Hz. apply in_map_iff. exists (Z.to_nat z). rewrite in_seq. lia. }
  rewrite forallb_forall in H. specialize (H u (Hin u ltac:(lia))). cbn beta in H.
  rewrite forallb_forall in H. specialize (H v (Hin v ltac:(lia))). cbn beta in H.
  apply orb_prop in H as [H|H]; [|apply bool_decide_eq_true in H; exact H].
  rewrite (proj2 (Z.ltb_lt u v)) in H by lia. discriminate H.
Qed.

Lemma ascii_compare_refl c : Ascii.compare c c = Eq.
Proof. unfold Ascii.compare. apply N.compare_refl. Qed.

Lemma compare_app p a b : String.compare (p +:+ a) (p +:+ b) = String.compare a b.
Proof. induction p as [|c p IH]; [done|]. rewrite !str_app_cons. cbn [String.compare]. by rewrite ascii_compare_refl. Qed.

(** Numerals of one length are ordered as their numbers, whatever follows. *)
Lemma base32_order n x y a b : 0 <= x < y -> y < 32 ^ Z.of_nat n ->
  String.compare (base32 n x a) (base32 n y b) = Lt.
Proof.
  revert x y a b. induction n as [|n IH]; intros x y a b Hx Hy; [simpl in Hy; lia|].
  rewrite Nat2Z.inj_succ, Z.pow_succ_r in Hy by lia. cbn [base32].
  rewrite !land31, !Z.shiftr_div_pow2 by lia. change (2 ^ 5) with 32.
  destruct (Z.lt_ge_cases (x / 32) (y / 32)) as [H|H].
  - apply IH; [split; [apply Z.div_pos|]; lia | apply Z.div_lt_upper_bound; lia].
  - assert (x / 32 = y / 32) as -> by (apply Z.le_antisymm; [apply Z.div_le_mono; lia | exact H]).
    rewrite base32_tail, (base32_tail n (y / 32) (String _ b)), compare_app. cbn [String.compare].
    rewrite char_order; [done | |apply Z.mod_pos_bound; lia].
    Z.to_euclidean_division_equations. lia.
Qed.

Lemma text_order now now' rand rand' : 0 <= now < now' -> now' < 2 ^ 50 ->
  String.ltb (ULID_text now rand) (ULID_text now' rand') = true.
Proof.
  intros Hn Hl. unfold String.ltb, ULID_text. rewrite !Z.mod_small by lia.
  by rewrite base32_order by (change (32 ^ Z.of_nat 10) with (2 ^ 50); lia).
Qed.

Lemma readULID_text now rand : String.length rand = 10%nat -> 0 <= now < 2 ^ 50 ->
  readULID (ULID_text now rand) = Some (now, rand).
Proof.
  intros Hr Hn. destruct (number_text now rand Hr ltac:(lia)) as (ms & bits & -> & Lm & Lb & Hm & Hb).
  unfold readULID. replace (Str.take 10 (ms +:+ bits)) with ms by (by rewrite <- Lm, str_take_app).
  replace (Str.drop 10 (ms +:+ bits)) with bits by (by rewrite <- Lm, str_drop_app).
  rewrite Hm, Hb. cbn [mbind option_bind]. rewrite Z.mod_small, <- Hr, be_bytesNum by lia. done.
Qed.
End Order.

(** ** Properties *)

(** The identifiers of a process carry the time and the ten random bytes they
    were made of, so that both can be read back and no two calls with
    different bytes share one; the time is never before the clock's, never
    goes back, and where it has advanced the identifiers are ordered as
    texts. *)
Theorem event_ids_in_order (calls : list (Z * string)) (last : Z) :
  0 <= last < 2 ^ 50 -> Forall (fun c => c.1 < 2 ^ 50 /\ String.length c.2 = 10%nat) calls ->
  Forall2 (fun c o => readULID o.2 = Some (o.1, c.2) /\ c.1 <= o.1) calls (issue calls last) /\
  StronglySorted (fun a b => a.1 <= b.1 /\ (a.1 < b.1 -> String.ltb a.2 b.2 = true)) (issue calls last).
Proof.
  intros Hl Hc.
  enough (H : Forall2 (fun c o => (readULID o.2 = Some (o.1, c.2) /\ c.1 <= o.1)) calls (issue calls last) /\
    StronglySorted (fun a b => a.1 <= b.1 /\ (a.1 < b.1 -> String.ltb a.2 b.2 = true)) (issue calls last) /\
    Forall (fun o => last <= o.1 < 2 ^ 50 /\ exists r, o.2 = ULID_text o.1 r) (issue calls last)) by (split; apply H).
  revert last Hl. induction Hc as [|[now rand] calls [Hn Hr] Hc IH]; intros last Hl; [by repeat constructor|].
  cbn [issue fst snd] in *. unfold ULID. cbn zeta. set (t := if now <? last then last else now).
  assert (Ht : last <= t < 2 ^ 50 /\ now <= t) by (subst t; destruct (now <? last) eqn:E; bools; lia). clearbody t.
  destruct (IH t ltac:(lia)) as (H2 & Hs & Hf). split; [|split].
  - constructor; [|exact H2]. cbn. split; [apply readULID_text; lia | lia].
  - constructor; [exact Hs|]. eapply Forall_impl; [exact Hf|]. cbn. intros [t' id'] [Hle [r ->]]. cbn in *.
    split; [lia|]. intros Hlt. apply text_order; lia.
  - constructor; [split; [exact (proj1 Ht) | by exists rand]|].
    eapply Forall_impl; [exact Hf|]. cbn. intros o [Hle He]. split; [lia | exact He].
Qed.

(** ** The relay and the bus of a process *)

Section InprocRelay.

(** The events of a topic *)
Definition ofTopic (topic : string) (rows : list OutboxRow) : list Envelope :=
  map r_Envelope (List.filter (fun r => bool_decide (Topic r = topic)) rows).

Lemma Messages_publish t env b topic :
  Messages (publish t env b).1 topic = Messages b topic ++ (if bool_decide (t = topic) then [env] else []).
Proof.
  unfold publish, inprocPublish, Messages. cbn [fst messages]. case_bool_decide as Ht.
  - subst t. by rewrite lookup_insert_eq.
  - by rewrite lookup_insert_ne, app_nil_r.
Qed.

(** The bus of a process accepts everything: the log is left as [drainRows]
    leaves it, and the bus has the rows it sends. *)
Lemma drainTo_inproc io rows (r : Relay InprocBus) :
  let '(o, sent) := drainRows (fun _ => true) io (List.filter due rows) (Box r) in
  let '(r', n) := drainTo io rows r in
  Box r' = o /\ n = Z.of_nat (length sent) /\
  forall topic, Messages (Bus r') topic = Messages (Bus r) topic ++ ofTopic topic sent.
Proof.
  revert r. induction rows as [|row rows IH]; intros r; cbn [List.filter drainTo].
  { cbn. split; [done|split; [done|]]. intros topic. by rewrite app_nil_r. }
  destruct (due row); cbn [negb drainRows sendRow]; [|apply IH].
  pose proof (surjective_pairing (publish (Topic row) (r_Envelope row) (Bus r))) as Ep.
  change ((publish (Topic row) (r_Envelope row) (Bus r)).2) with true in Ep. rewrite Ep.
  specialize (IH (mkRelayTo (Mark (io row) (Seq row) "published" (Attempts row +! 1) (Box r)).1
    (publish (Topic row) (r_Envelope row) (Bus r)).1)). cbn [Box Bus] in IH.
  destruct (drainRows _ _ _ _) as [o sent]. destruct (drainTo _ _ _) as [r' n]. destruct IH as (Ho & Hn & Hm).
  split; [exact Ho|]. split; [simpl length; lia|]. intros topic.
  rewrite (Hm topic), Messages_publish, <- app_assoc. f_equal. unfold ofTopic. cbn [List.filter].
  by case_bool_decide.
Qed.

(** A pass over the bus of the process *)
Lemma DrainTo_inproc io (r : Relay InprocBus) :
  let '(r', n) := DrainTo io r in
  n = Z.of_nat (length (List.filter due (Rows (Box r)))) /\
  (forall topic, Messages (Bus r') topic = Messages (Bus r) topic ++ ofTopic topic (List.filter due (Rows (Box r)))) /\
  Rows (Box r') = map (afterPass (fun _ => true) io) (Rows (Box r)).
Proof.
  pose proof (drain_exact (fun _ => true) io (Box r)) as H. pose proof (drainTo_inproc io (Rows (Box r)) r) as Hd.
  unfold Drain, DrainTo in *. destruct (drainRows _ _ _ _) as [o sent]. destruct (drainTo _ _ _) as [r' n].
  destruct H as [-> Hr], Hd as (-> & -> & Hm).
  replace (List.filter (fun r => due r && true) (Rows (Box r))) with (List.filter due (Rows (Box r))) in *;
    [by split; [|split] | apply filter_ext; intros x; by rewrite andb_true_r].
Qed.

(** Events published to a log that was empty, as [Publish] numbers them *)
Definition published (now : Z) (events : list (string * Envelope)) (o : Outbox) : Outbox :=
  foldl (fun o e => (Publish diskOk now e.1 e.2 o).1) o events.

Lemma published_rows now events : Z.of_nat (length events) < two63 ->
  let o := published now events (NewOutbox []) in
  seq o = Z.of_nat (length events) /\
  Rows o = imap (fun i e => mkRow (Z.of_nat (S i)) e.1 e.2 "pending" 0 now) events.
Proof.
  induction events as [|e events IH] using rev_ind; intros Hl; [done|]. rewrite length_app in Hl |- *.
  cbn zeta in *. unfold published. rewrite foldl_app. fold (published now events (NewOutbox [])). simpl length in Hl.
  destruct (IH ltac:(lia)) as [Hs Hr]. set (o := published now events (NewOutbox [])) in *. clearbody o.
  cbn [foldl]. unfold Publish, appendLocked. cbn [written diskOk negb fst]. rewrite Hs, wrap64_id by (unfold in64, two63 in *; lia).
  split; [cbn [seq]; simpl length; lia|]. rewrite imap_app, <- Hr. cbn [imap compose].
  assert (Hnew : latest (rowLog o) (Z.of_nat (length events) + 1) = None).
  { destruct (latest _ _) as [r|] eqn:E; [|done]. pose proof (latest_seq _ _ _ E) as Hq.
    assert (Hin : r ∈ Rows o) by (apply elem_of_Rows; by rewrite Hq). rewrite Hr in Hin.
    apply elem_of_lookup_imap in Hin as (i & x & -> & Hi). apply lookup_lt_Some in Hi. cbn in Hq. lia. }
  rewrite !Rows_eq. cbn [rowLog]. rewrite foldl_app. cbn [foldl].
  destruct (fold_spec (rowLog o)) as (Hm & Ho & _). set (st := foldl foldRow (∅, []) (rowLog o)) in *.
  unfold foldRow. cbn [fst snd]. rewrite Hm. cbn [Seq]. rewrite Hnew, omap_app. f_equal.
  - apply list_omap_ext, Forall_Forall2_diag, Forall_forall. intros n Hn. rewrite latest_snoc. cbn [Seq]. rewrite bool_decide_eq_false_2; [done|].
    intros <-. apply Ho in Hn. rewrite Hnew in Hn. by destruct Hn.
  - cbn. rewrite latest_snoc. cbn [Seq]. rewrite bool_decide_eq_true_2 by done. cbn. do 2 f_equal. lia.
Qed.

(** The rows of such a log are due, have the topics of the events, and are
    done after a pass. *)
Lemma filter_due_fresh (f : nat -> Z) now (events : list (string * Envelope)) :
  List.filter due (imap (fun i e => mkRow (f i) e.1 e.2 "pending" 0 now) events)
  = imap (fun i e => mkRow (f i) e.1 e.2 "pending" 0 now) events.
Proof. revert f. induction events as [|e events IH]; intros f; [done|]. cbn. f_equal. apply IH. Qed.

Lemma ofTopic_fresh (f : nat -> Z) now topic (events : list (string * Envelope)) :
  ofTopic topic (imap (fun i e => mkRow (f i) e.1 e.2 "pending" 0 now) events)
  = map snd (List.filter (fun e => bool_decide (e.1 = topic)) events).
Proof.
  unfold ofTopic. revert f. induction events as [|e events IH]; intros f; [done|]. cbn.
  case_bool_decide; cbn; [f_equal|]; apply IH.
Qed.

Lemma after_fresh (f : nat -> Z) now (events : list (string * Envelope)) :
  List.filter due (map (afterPass (fun _ => true) (fun _ => diskOk))
    (imap (fun i e => mkRow (f i) e.1 e.2 "pending" 0 now) events)) = [].
Proof. revert f. induction events as [|e events IH]; intros f; [done|]. cbn. apply IH. Qed.

Lemma drain_nothing {B} `{Publisher B} io (r : Relay B) : List.filter due (Rows (Box r)) = [] -> DrainTo io r = (r, 0).
Proof.
  unfold DrainTo. induction (Rows (Box r)) as [|row rows IH]; [done|]. cbn [List.filter drainTo].
  destruct (due row); [done|]. cbn [negb]. exact IH.
Qed.
End InprocRelay.

(** What the services publish to the outbox of a fresh process and the relay
    passes on arrives at the bus once, every topic with its events in their
    order, and a second pass finds nothing to send. *)
Theorem events_arrive_once (now : Z) (events : list (string * Envelope)) :
  Z.of_nat (length events) < two63 ->
  let '(r, n) := DrainTo (fun _ => diskOk) (mkRelayTo (published now events (NewOutbox [])) NewInprocBus) in
  n = Z.of_nat (length events) /\
  (forall topic, Messages (Bus r) topic = map snd (List.filter (fun e => bool_decide (e.1 = topic)) events)) /\
  DrainTo (fun _ => diskOk) r = (r, 0).
Proof.
  intros Hl. destruct (published_rows now events Hl) as [_ Hr].
  pose proof (DrainTo_inproc (fun _ => diskOk) (mkRelayTo (published now events (NewOutbox [])) NewInprocBus)) as H.
  destruct (DrainTo _ _) as [r n]. cbn [Box Bus] in H. rewrite Hr in H. destruct H as (-> & Hm & Hp).
  rewrite filter_due_fresh in *. rewrite length_imap. split; [done|]. split.
  - intros topic. rewrite Hm. apply ofTopic_fresh.
  - apply drain_nothing. rewrite Hp. apply after_fresh.
Qed.

(** ** Witnesses *)

Lemma event_ids_in_order_witness :
  let calls := [(1735689600000, "abcdefghij"); (1735689599000, "ABCDEFGHIJ"); (1735689600001, "0000000000")] in
  map snd (issue calls 0) =
    ["01JGFJJZ00C5H66S35CSKPGTBA"; "01JGFJJZ0085146H258S3MGJAA"; "01JGFJJZ0160R30C1G60R30C1G"] /\
  Forall2 (fun c o => readULID o.2 = Some (o.1, c.2) /\ c.1 <= o.1) calls (issue calls 0) /\
  StronglySorted (fun a b => a.1 <= b.1 /\ (a.1 < b.1 -> String.ltb a.2 b.2 = true)) (issue calls 0).
Proof.
  split; [vm_compute; reflexivity|]. apply event_ids_in_order; [lia|]. repeat constructor; cbn; lia.
Defined.

Lemma events_arrive_once_witness :
  let env := fun id => mkEnvelope id "t" "s" "" "tenant" "" "" "{}" in
  let events := [("a", env "1"); ("b", env "2"); ("a", env "3")] in
  let '(r, n) := DrainTo (fun _ => diskOk) (mkRelayTo (published 5 events (NewOutbox [])) NewInprocBus) in
  n = 3 /\
  (forall topic, Messages (Bus r) topic = map snd (List.filter (fun e => bool_decide (e.1 = topic)) events)) /\
  DrainTo (fun _ => diskOk) r = (r, 0).
Proof. apply (events_arrive_once 5). cbn. unfold two63. lia. Defined.
