(* ===== verification/Prodx.v ===== *)
(** * The tables of Postgres (packages/prodx/prodx.go)

    The document table the invoice store and the case store mirror, and the
    outbox table: what their SQL statements do to rows.  A statement takes
    effect and is acknowledged, takes effect while its acknowledgement is lost,
    or fails; the clock of the database and its collation are arguments.  The
    pool and the Kafka client are left out. *)

From S2P Require Import Prelude StrFacts Crypto EinvModel EinvStore.
From S2P Require Outbox.

Inductive sqlAnswer := acknowledged | ackLost | failed.

(** ** The document table *)

Section DocStore.
Context {D : Type}.

(** By collection and identifier: the document and the time of its write *)
Abbreviation docTable := (gmap (string * string) (D * Z)).

Definition Put (a : sqlAnswer) (now : Z) (collection id : string) (doc : D) (t : docTable) : docTable * bool :=
  match a with
  | acknowledged => (<[(collection, id) := (doc, now)]> t, true)
  | ackLost => (<[(collection, id) := (doc, now)]> t, false)
  | failed => (t, false)
  end.

(** [ORDER BY updated_at, id] *)
Definition listedBefore (collate : string -> string -> bool) (x y : string * (D * Z)) : Prop :=
  x.2.2 < y.2.2 \/ x.2.2 = y.2.2 /\ collate x.1 y.1 = true.
#[export] Instance listedBefore_dec collate x y : Decision (listedBefore collate x y).
Proof. unfold listedBefore. apply _. Defined.

Definition inCollection (collection : string) (t : docTable) : list (string * (D * Z)) :=
  omap (fun kv => if bool_decide (kv.1.1 = collection) then Some (kv.1.2, kv.2) else None) (map_to_list t).

Definition List_docs (collate : string -> string -> bool) (collection : string) (t : docTable) : list D :=
  (fun x => x.2.1) <$> merge_sort (listedBefore collate) (inCollection collection t).

Lemma elem_of_inCollection c t id d now : (id, (d, now)) ∈ inCollection c t <-> t !! (c, id) = Some (d, now).
Proof.
  unfold inCollection. rewrite list_elem_of_omap. split.
  - intros ([[c' id'] [d' now']] & Hin & E). cbn in E. case_bool_decide; [|done]. injection E as -> -> ->. subst. by apply elem_of_map_to_list in Hin.
  - intros Ht. exists ((c, id), (d, now)). split; [by apply elem_of_map_to_list|]. cbn. by rewrite bool_decide_eq_true_2.
Qed.

Lemma NoDup_inCollection c t : NoDup (inCollection c t).*1.
Proof.
  unfold inCollection. pose proof (NoDup_fst_map_to_list t) as Hd. induction (map_to_list t) as [|[[c' id'] [d n]] l IH]; [constructor|].
  cbn [fmap list_fmap fst] in Hd. apply NoDup_cons in Hd as [Hn Hd]. cbn [omap list_omap fst snd]. case_bool_decide as Hc; [|by apply IH].
  cbn [fmap list_fmap fst]. apply NoDup_cons. split; [|by apply IH]. intros ([i [d' n']] & Ei & Hin)%list_elem_of_fmap. cbn in Ei. subst i.
  apply list_elem_of_omap in Hin as ([[c2 i2] [d2 n2]] & Hin & E). cbn in E. case_bool_decide; [|done]. injection E as -> -> ->.
  apply Hn. apply list_elem_of_fmap. eexists. split; [|exact Hin]. cbn. congruence.
Qed.

(** A listing has every document of its collection once. *)
Lemma elem_of_List_docs collate c t d : d ∈ List_docs collate c t <-> exists id now, t !! (c, id) = Some (d, now).
Proof.
  unfold List_docs. rewrite list_elem_of_fmap. setoid_rewrite (merge_sort_Permutation (listedBefore collate) (inCollection c t)). split.
  - intros ([id [d' now]] & -> & Hin). exists id, now. by apply elem_of_inCollection.
  - intros (id & now & Ht). exists (id, (d, now)). split; [done|]. by apply elem_of_inCollection.
Qed.

Lemma NoDup_List_docs (key : D -> string) collate c t :
  (forall id d now, t !! (c, id) = Some (d, now) -> key d = id) -> NoDup (key <$> List_docs collate c t).
Proof.
  intros Hk. unfold List_docs. rewrite <- list_fmap_compose, (merge_sort_Permutation (listedBefore collate) (inCollection c t)).
  assert (E : (key ∘ (fun x : string * (D * Z) => x.2.1)) <$> inCollection c t = (inCollection c t).*1).
  { apply list_fmap_ext. intros i [id [d now]] Hi. apply list_elem_of_lookup_2 in Hi. apply elem_of_inCollection in Hi. by apply (Hk id d now). }
  rewrite E. apply NoDup_inCollection.
Qed.
End DocStore.
Abbreviation docTable D := (gmap (string * string) (D * Z)).

(** ** The invoices in Postgres *)

Inductive dbAnswer := dbDone | dbUnacknowledged | dbRefuses (constraint : string) | dbFails.

Record saveOp := mkSaveOp { op_log : bool; op_db : dbAnswer; op_now : Z; op_inv : CanonicalInvoice }.

Definition pgOf (a : dbAnswer) : pgAnswer :=
  match a with dbDone => pgOk | dbRefuses c => pgUnique c | dbUnacknowledged | dbFails => pgFails end.
Definition sqlOf (a : dbAnswer) : sqlAnswer :=
  match a with dbDone => acknowledged | dbUnacknowledged => ackLost | dbRefuses _ | dbFails => failed end.

Section Invoices.
Context `{Crypto} (collate : string -> string -> bool).

(** A save of a service with Postgres: the store, and the table it writes *)
Definition saveStep (w : InvoiceStore * docTable CanonicalInvoice) (o : saveOp) : InvoiceStore * docTable CanonicalInvoice :=
  let '(s, t) := w in
  let '(s', _, _, _) := SaveCtx (mkSaveIO (op_log o) (pgOf (op_db o))) (op_now o) (op_inv o) s in
  (s', match replayed (op_now o) (op_inv o) s with
       | Some _ => t
       | None => if op_log o then (Put (sqlOf (op_db o)) (op_now o) "invoices" (ID (op_inv o)) (stamped (op_now o) (op_inv o)) t).1 else t
       end).

(** A new process on another host: its log is empty, the table is there. *)
Definition bootPG (t : docTable CanonicalInvoice) : InvoiceStore := (SetPG (Some (List_docs collate "invoices" t)) (NewInvoiceStore [])).1.

Lemma index_fold l : NoDup (ID <$> l) -> forall s, (forall inv, inv ∈ l -> byID (foldl (fun s inv => index inv s) s l) !! ID inv = Some inv) /\
  (forall id, id ∉ ID <$> l -> byID (foldl (fun s inv => index inv s) s l) !! id = byID s !! id).
Proof.
  induction l as [|x l IH]; intros Hd s; [split; [by intros ? ?%elem_of_nil|done]|]. cbn [fmap list_fmap] in Hd. apply NoDup_cons in Hd as [Hn Hd].
  cbn [foldl]. destruct (IH Hd (index x s)) as [H1 H2]. split.
  - intros inv [->|Hin]%elem_of_cons; [|by apply H1]. rewrite H2 by done. cbn [index byID]. by rewrite lookup_insert_eq.
  - intros id Hid. cbn [fmap list_fmap] in Hid. apply not_elem_of_cons in Hid as [Hne Hid]. rewrite (H2 id Hid). cbn [index byID].
    by rewrite lookup_insert_ne by congruence.
Qed.

Definition mirrored (w : InvoiceStore * docTable CanonicalInvoice) : Prop :=
  hasPG w.1 = true /\ (forall id, byID w.1 !! id = fst <$> w.2 !! ("invoices", id)) /\
  forall id inv now, w.2 !! ("invoices", id) = Some (inv, now) -> ID inv = id.

Lemma saveStep_mirrored w o : op_db o <> dbUnacknowledged -> mirrored w -> mirrored (saveStep w o).
Proof.
  destruct w as [s t]. intros Hdb (Hpg & Hm & Hid). cbn [fst snd] in *. unfold saveStep, SaveCtx.
  destruct (replayed (op_now o) (op_inv o) s) as [[id e]|]; [done|]. cbn [logWritten pgPut]. destruct (op_log o); cbn [negb]; [|done].
  cbn [hasPG]. rewrite Hpg. destruct (op_db o) as [| |c|]; cbn [pgOf sqlOf Put fst]; [|done| |done].
  - split; [done|]. cbn [fst snd]. split.
    + intros id. cbn [index byID].
      assert (E : ID (stamped (op_now o) (op_inv o)) = ID (op_inv o)) by by destruct (op_inv o).
      rewrite E. destruct (decide (ID (op_inv o) = id)) as [->|Hne]; [by rewrite !lookup_insert_eq|].
      rewrite !lookup_insert_ne by congruence. apply Hm.
    + intros id inv now. destruct (decide (ID (op_inv o) = id)) as [<-|Hne].
      * rewrite lookup_insert_eq. intros [= <- _]. by destruct (op_inv o).
      * rewrite lookup_insert_ne by congruence. apply Hid.
  - by destruct (pgConflict c (stamped (op_now o) (op_inv o)) _).
Qed.

(** C32: A service with Postgres can lose its disk: after any saves - replayed,
    refused by a constraint, failed in the log or in the database, as long as
    no acknowledgement of the database is lost -, a new process that has only
    the table has exactly the invoices the old one had, in their last
    version. *)
Theorem pg_boot_restores ops id :
  Forall (fun o => op_db o <> dbUnacknowledged) ops ->
  let w := foldl saveStep (bootPG ∅, ∅) ops in
  byID (bootPG w.2) !! id = byID w.1 !! id.
Proof.
  intros Hops. assert (Hw : mirrored (foldl saveStep (bootPG ∅, ∅) ops)).
  { assert (H0 : mirrored (bootPG ∅, ∅)).
    { split; [done|]. split; [|intros ? ? ?; cbn [snd]; by rewrite lookup_empty]. intros i. unfold bootPG, List_docs, inCollection. rewrite map_to_list_empty. cbn. by rewrite !lookup_empty. }
    revert H0. generalize (bootPG ∅, (∅ : docTable CanonicalInvoice)). induction Hops as [|o ops Ho _ IH]; intros w Hw; [done|].
    cbn [foldl]. by apply IH, saveStep_mirrored. }
  cbn zeta. destruct (foldl saveStep (bootPG ∅, ∅) ops) as [s t]. cbn [fst snd] in *. destruct Hw as (_ & Hm & Hid). cbn [fst snd] in *. rewrite Hm.
  unfold bootPG, SetPG. cbn [fst]. destruct (index_fold _ (NoDup_List_docs ID collate "invoices" t Hid) (mkInvoiceStore ∅ ∅ ∅ ∅ [] [] true)) as [H1 H2].
  cbn [NewInvoiceStore foldl emptyStore byID byIdemKey bySuppNum byIRN order invLog] in *.
  destruct (t !! ("invoices", id)) as [[inv now]|] eqn:Et; cbn [fmap option_fmap option_map fst].
  - rewrite <- (Hid _ _ _ Et). apply H1. apply elem_of_List_docs. by exists id, now.
  - rewrite H2; [by rewrite lookup_empty|]. intros (inv & -> & Hin)%list_elem_of_fmap. apply elem_of_List_docs in Hin as (i & now & Hi).
    pose proof (Hid _ _ _ Hi). subst. congruence.
Qed.
End Invoices.

(** A listing is in the order of the last writes: a document written again
    moves behind the others, so a boot from Postgres does not give the order in
    which they were first seen. *)
Example listing_reorders :
  let t := (Put acknowledged 2 "invoices" "b" "B" (Put acknowledged 1 "invoices" "a" "A" ∅).1).1 in
  List_docs (fun _ _ => true) "invoices" t = ["A"; "B"] /\
  List_docs (fun _ _ => true) "invoices" (Put acknowledged 3 "invoices" "a" "A2" t).1 = ["B"; "A2"].
Proof. split; vm_compute; reflexivity. Qed.

(** ** The outbox table *)

(** The rows by their key, and the next value of the sequence *)
Record OutboxStore := mkOutboxStore { rows : list Outbox.OutboxRow; nextSeq : Z }.

Definition NewOutboxStore : OutboxStore := mkOutboxStore [] 1.

(** An insert takes its number from the sequence even when it fails later. *)
Definition Publish (a : sqlAnswer) (now : Z) (topic : string) (env : Outbox.Envelope) (o : OutboxStore) : OutboxStore * option Z :=
  let n := nextSeq o in
  match a with
  | failed => (mkOutboxStore (rows o) (n + 1), None)
  | _ => (mkOutboxStore (rows o ++ [Outbox.mkRow n topic env "pending" 0 now]) (n + 1),
          match a with acknowledged => Some n | _ => None end)
  end.

Definition Pending (limit : nat) (o : OutboxStore) : list Outbox.OutboxRow := take limit (List.filter Outbox.due (rows o)).

Definition Mark (a : sqlAnswer) (n : Z) (status : string) (attempts : Z) (o : OutboxStore) : OutboxStore * bool :=
  match a with
  | failed => (o, false)
  | _ => (mkOutboxStore (map (fun r => if bool_decide (Outbox.Seq r = n) then Outbox.marked status attempts r else r) (rows o)) (nextSeq o),
          match a with acknowledged => existsb (fun r => bool_decide (Outbox.Seq r = n)) (rows o) | _ => false end)
  end.

(** The operations of both outboxes, and what each answers *)
Inductive outboxOp := opPublish (now : Z) (topic : string) (env : Outbox.Envelope) | opMark (n : Z) (status : string) (attempts : Z) | opPending (limit : nat).
Inductive outboxAnswer := published (n : Z) | markedOk (ok : bool) | pending (l : list Outbox.OutboxRow).

Definition tableStep (o : OutboxStore) (op : outboxOp) : OutboxStore * option outboxAnswer :=
  match op with
  | opPublish now topic env => let '(o, n) := Publish acknowledged now topic env o in (o, option_map published n)
  | opMark n status attempts => let '(o, ok) := Mark acknowledged n status attempts o in (o, Some (markedOk ok))
  | opPending limit => (o, Some (pending (Pending limit o)))
  end.

(** The file outbox on a disk that does not fail *)
Definition fileStep (o : Outbox.Outbox) (op : outboxOp) : Outbox.Outbox * option outboxAnswer :=
  match op with
  | opPublish now topic env => let '(o, ok) := Outbox.Publish Outbox.diskOk now topic env o in (o, if ok then Some (published (Outbox.seq o)) else None)
  | opMark n status attempts => let '(o, ok) := Outbox.Mark Outbox.diskOk n status attempts o in (o, Some (markedOk ok))
  | opPending limit => (o, Some (pending (take limit (List.filter Outbox.due (Outbox.Rows o)))))
  end.

(** The table holds the rows of the file, and the sequence is one ahead. *)
Definition agrees (t : OutboxStore) (o : Outbox.Outbox) : Prop :=
  rows t = Outbox.Rows o /\ nextSeq t = Outbox.seq o + 1 /\ 0 <= Outbox.seq o /\ forall r, r ∈ Outbox.Rows o -> Outbox.Seq r <= Outbox.seq o.

Lemma Rows_new l r s s' : Outbox.latest l (Outbox.Seq r) = None -> Outbox.Rows (Outbox.mkOutbox (l ++ [r]) s) = Outbox.Rows (Outbox.mkOutbox l s') ++ [r].
Proof.
  intros Hr. rewrite !Outbox.Rows_eq. cbn [Outbox.rowLog]. rewrite foldl_app. cbn [foldl].
  destruct (Outbox.fold_spec l) as (Hm & Ho & _). set (st := foldl Outbox.foldRow (∅, []) l) in *.
  unfold Outbox.foldRow; cbn [fst snd]. rewrite Hm, Hr, omap_app. f_equal.
  - assert (Hall : forall n, n ∈ st.2 -> n <> Outbox.Seq r).
    { intros n Hn ->. apply Ho in Hn as [? Hn]. congruence. }
    clear Ho. induction st.2 as [|n order IH]; [done|]. cbn. rewrite Outbox.latest_snoc.
    rewrite bool_decide_eq_false_2 by (intros E; by apply (Hall n); [left|]).
    rewrite IH; [done|]. intros k Hk. apply Hall. by right.
  - cbn. rewrite Outbox.latest_snoc. by rewrite bool_decide_eq_true_2.
Qed.

(** The outbox table implements the outbox of the file: on the same
    publishes, marks and reads it answers the same numbers, the same errors
    and the same pending rows in the same order, as long as the numbers fit
    in 63 bits. *)
Theorem pg_outbox_refines t o op : agrees t o -> Outbox.seq o < 2^63 - 1 ->
  agrees (tableStep t op).1 (fileStep o op).1 /\ (tableStep t op).2 = (fileStep o op).2.
Proof.
  intros (Hr & Hn & H0 & Hle) Hs. destruct op as [now topic env|n status attempts|limit]; cbn [tableStep fileStep].
  - unfold Publish, Outbox.Publish, Outbox.appendLocked. cbn [Outbox.written Outbox.synced Outbox.diskOk negb fst snd option_map Outbox.seq Outbox.rowLog].
    assert (E : Outbox.seq o +! 1 = nextSeq t).
    { rewrite Hn. apply wrap64_id. unfold in64, two63 in *. lia. }
    rewrite E. split; [|done]. destruct o as [l sq]. cbn [Outbox.seq Outbox.rowLog] in *.
    assert (Hnew : Outbox.latest l (nextSeq t) = None).
    { destruct (Outbox.latest l (nextSeq t)) as [r|] eqn:El; [|done]. pose proof (Outbox.latest_seq _ _ _ El) as Hq.
      assert (Hin : r ∈ Outbox.Rows (Outbox.mkOutbox l sq)) by (apply Outbox.elem_of_Rows; by rewrite Hq). specialize (Hle r Hin). lia. }
    unfold agrees. cbn [rows nextSeq Outbox.seq]. rewrite (Rows_new l (Outbox.mkRow (nextSeq t) topic env "pending" 0 now) (nextSeq t) sq) by exact Hnew.
    rewrite Hr. split; [done|]. split; [done|]. split; [lia|]. intros r [Hin|Hx%list_elem_of_singleton]%elem_of_app; [specialize (Hle r Hin); lia|subst r; cbn; lia].
  - pose proof (Outbox.Rows_Mark Outbox.diskOk n status attempts o) as HR.
    assert (Hsq : Outbox.seq (Outbox.Mark Outbox.diskOk n status attempts o).1 = Outbox.seq o).
    { unfold Outbox.Mark. destruct (List.find _ _); [|done]. done. }
    assert (Hok : (Outbox.Mark Outbox.diskOk n status attempts o).2 = existsb (fun r => bool_decide (Outbox.Seq r = n)) (Outbox.Rows o)).
    { unfold Outbox.Mark. destruct (List.find _ _) as [r|] eqn:Ef; cbn [snd].
      - symmetry. apply existsb_exists. apply List.find_some in Ef. by exists r.
      - symmetry. apply not_true_iff_false. intros (r & Hin & Hq)%existsb_exists. pose proof (List.find_none _ _ Ef r Hin) as Hx. cbn in Hx. congruence. }
    destruct (Outbox.Mark Outbox.diskOk n status attempts o) as [o' ok]. cbn [fst snd] in *. subst ok. unfold Mark. rewrite Hr. split; [|done].
    unfold agrees. cbn [fst rows nextSeq]. rewrite HR, Hsq. split; [done|]. split; [done|]. split; [done|].
    intros r (x & <- & Hin%list_elem_of_In)%list_elem_of_In%in_map_iff. specialize (Hle x Hin). by case_bool_decide.
  - cbn [fst snd]. split; [done|]. unfold Pending. by rewrite Hr.
Qed.

(** ** Witnesses *)

#[local] Existing Instance Toy.crypto.

Definition anyOrder (_ _ : string) : bool := true.
Definition save_ops : list saveOp :=
  [mkSaveOp true dbDone 1 demo_stored; mkSaveOp true dbDone 2 demo_reused; mkSaveOp true (dbRefuses "einvoicing_irn_ux") 3 (demo_stored{{ ID := "c"; IdempotencyKey := "" }});
   mkSaveOp false dbDone 4 (demo_stored{{ ID := "d"; IdempotencyKey := "" }})].

Lemma pg_boot_restores_witness :
  byID (bootPG anyOrder (foldl saveStep (bootPG anyOrder ∅, ∅) save_ops).2) !! "a" = byID (foldl saveStep (bootPG anyOrder ∅, ∅) save_ops).1 !! "a".
Proof.
  apply (pg_boot_restores anyOrder save_ops "a"). unfold save_ops. do 4 (apply Forall_cons; split; [discriminate|]). apply Forall_nil. exact I.
Defined.

(** Of the four saves of the witness the first alone is kept. *)
Example one_kept : map_to_list (ID <$> byID (foldl saveStep (bootPG anyOrder ∅, ∅) save_ops).1) = [("a", "a")].
Proof. vm_compute. reflexivity. Qed.

Lemma pg_outbox_refines_witness :
  let t := NewOutboxStore in let o := Outbox.NewOutbox [] in
  agrees (tableStep t (opPublish 5 "t" Outbox.demo_event)).1 (fileStep o (opPublish 5 "t" Outbox.demo_event)).1 /\
  (tableStep t (opPublish 5 "t" Outbox.demo_event)).2 = (fileStep o (opPublish 5 "t" Outbox.demo_event)).2.
Proof.
  apply (pg_outbox_refines NewOutboxStore (Outbox.NewOutbox []) (opPublish 5 "t" Outbox.demo_event)).
  - split; [reflexivity|]. split; [reflexivity|]. split; [cbn; lia|]. intros r Hr. exfalso. by apply (not_elem_of_nil r).
  - reflexivity.
Defined.
