(* ===== verification/RulePack.v ===== *)
(** * Rule packs and their evaluation (packages/shared/rulepack/rulepack.go)

    The evaluation of a pack on a context, and the evaluator that asks the
    rules engine first and falls back to the local pack.  The packs as the YAML
    library decodes them, and the answers of the engine, are parameters.  The
    texts that explain why a rule did not match are left out. *)

From S2P Require Import Prelude StrFacts GoAny Yaml GoFmt.

(** A decoded [map\[string\]any] of a rule *)
Abbreviation Attrs := (gmap string any).

Record Rule := mkRule {
  r_ID : string;
  Precedence : option Z;
  When : Attrs;
  Then : Attrs;
}.

Record Pack := mkPack { p_ID : string; Version : string; Rules : list Rule }.

Definition Ref (p : Pack) : string := p_ID p +:+ "@" +:+ Version p.

(** [Parse], on what the YAML library decoded *)
Definition parsedPack (p : Pack) : option Pack :=
  if bool_decide (p_ID p = "") || bool_decide (Version p = "") then None else Some p.

(** ** Numbers *)

Definition toFloat (v : any) : option spec_float :=
  match v with
  | VInt z => Some (float_of_int z)
  | VFloat f => Some f
  | _ => None
  end.

(** [int(f)]: towards zero; out of range as on amd64 *)
Definition int_of_float (f : spec_float) : Z :=
  match f with
  | S754_zero _ => 0
  | S754_finite s m e =>
      let z := if 0 <=? e then Z.pos m * 2 ^ e else Z.pos m / 2 ^ (- e) in
      let z := if s then - z else z in
      if decide (in64 z) then z else - two63
  | _ => - two63
  end.

Definition precedence (r : Rule) : Z :=
  match Precedence r with
  | Some z => z
  | None => match Then r !! "precedence" with
            | Some v => match toFloat v with Some f => int_of_float f | None => 0 end
            | None => 0
            end
  end.

Definition float_cmp (op : string) (g w : spec_float) : bool :=
  if bool_decide (op = "lt") then SFltb g w
  else if bool_decide (op = "lte") then SFleb g w
  else if bool_decide (op = "gt") then SFltb w g
  else if bool_decide (op = "gte") then SFleb w g
  else false.

Definition text_cmp (op : string) (g w : string) : bool :=
  if bool_decide (op = "lt") then String.ltb g w
  else if bool_decide (op = "lte") then String.leb g w
  else if bool_decide (op = "gt") then String.ltb w g
  else if bool_decide (op = "gte") then String.leb w g
  else false.

(** [cmpOrdered]; an error compares as false *)
Definition cmpOrdered (got want : any) (op : string) : bool :=
  match got with
  | VNil => false
  | _ => match toFloat got, toFloat want with
         | Some g, Some w => float_cmp op g w
         | _, _ => text_cmp op (Sprint got) (Sprint want)
         end
  end.

(** ** Conditions *)

Definition sameText (a b : any) : bool := bool_decide (Sprint a = Sprint b).
Definition inList (l : list any) (got : any) : bool := existsb (fun item => sameText item got) l.
Definition isNil (v : any) : bool := match v with VNil => true | _ => false end.
Definition items (v : any) : list any := default [] (as_list v).

Definition matchMap (conds : list (string * any)) (got : any) (exists_ : bool) : bool :=
  forallb (fun '(op, w) =>
    if bool_decide (op = "in") then inList (items w) got
    else if bool_decide (op = "not_in") then negb (inList (items w) got)
    else if bool_decide (op = "present") then Bool.eqb (exists_ && negb (isNil got)) (as_bool w)
    else if bool_decide (op = "ne") then negb (sameText got w)
    else if bool_decide (op ∈ ["lt"; "lte"; "gt"; "gte"]) then cmpOrdered got w op
    else sameText got w) conds.

(** The operator suffixes, in the order they are tried *)
Definition suffixes : list (string * string) :=
  [("__in", "in"); ("__ne", "ne"); ("__lte", "lte"); ("__lt", "lt"); ("__gte", "gte"); ("__gt", "gt"); ("__exists", "exists")].

Definition splitOp (key : string) : string * string :=
  match List.find (fun so => Str.has_suffix key so.1) suffixes with
  | Some (s, op) => (Str.trim_suffix key s, op)
  | None => (key, "eq")
  end.

Definition matchEq (want got : any) : bool :=
  sameText got want || match toFloat got, toFloat want with Some g, Some w => SFeqb g w | _, _ => false end.

(** The value the context has under a key; [VNil] when it has none *)
Definition ctxGet (ctx : Attrs) (k : string) : any := default VNil (ctx !! k).
Definition ctxHas (ctx : Attrs) (k : string) : bool := match ctx !! k with Some _ => true | None => false end.

(** The fuel is the number of suffixes a key can have: its length is enough
    ([matchCond_ne]). *)
Fixpoint matchCond_fuel (n : nat) (key : string) (want : any) (ctx : Attrs) : bool :=
  let '(base, op) := splitOp key in
  let got := ctxGet ctx base in
  let ok := ctxHas ctx base in
  if bool_decide (op = "eq") then
    match want with
    | VNil => negb ok || isNil got
    | VList l => inList l got
    | VMap m => matchMap m got ok
    | _ => matchEq want got
    end
  else if bool_decide (op = "exists") then Bool.eqb ok (as_bool want) || isNil want
  else if bool_decide (op = "in") then inList (items want) got
  else if bool_decide (op = "ne") then
    match n with
    | O => false
    | S n => negb (matchCond_fuel n base want ctx)
    end
  else match toFloat got, toFloat want with
       | Some g, Some w => float_cmp op g w
       | _, _ => false
       end.

Definition matchCond (key : string) (want : any) (ctx : Attrs) : bool := matchCond_fuel (String.length key) key want ctx.

Definition Match_ (r : Rule) (ctx : Attrs) : bool :=
  forallb (fun kv => matchCond kv.1 kv.2 ctx) (map_to_list (When r)).

(** ** Evaluation *)

Record TraceEntry := mkTrace { t_RuleID : string; Matched : bool }.
Record EvalDecision := mkDecision { d_Pack : string; d_Attrs : Attrs; Trace : list TraceEntry }.

(** A stable sort by precedence keeps the order of the file among equals. *)
Definition byPrecedence (a b : Rule) : Prop := precedence a <= precedence b.
#[export] Instance byPrecedence_dec a b : Decision (byPrecedence a b).
Proof. unfold byPrecedence. apply _. Defined.

Fixpoint insert_rule (r : Rule) (l : list Rule) : list Rule :=
  match l with
  | [] => [r]
  | x :: l' => if decide (byPrecedence r x) then r :: l else x :: insert_rule r l'
  end.

(** [sort.SliceStable] *)
Definition stableSort (l : list Rule) : list Rule := foldr insert_rule [] l.

Definition mergeThen (attrs : Attrs) (r : Rule) : Attrs := delete "precedence" (Then r) ∪ attrs.

Definition Evaluate (p : Pack) (ctx : Attrs) : EvalDecision :=
  mkDecision (Ref p)
    (foldl mergeThen ∅ (stableSort (List.filter (fun r => Match_ r ctx) (Rules p))))
    (map (fun r => mkTrace (r_ID r) (Match_ r ctx)) (Rules p)).

(** ** The evaluator *)

(** [engine]: whether a rules engine is configured, and its answer to a
    request ([None]: not reachable, another status, or unreadable);
    [dir], [embedded]: the packs found in the override directory and in the
    binary, by identifier. *)
Record Evaluator := mkEvaluator {
  engine : option (string -> Attrs -> option (Attrs * list TraceEntry));
  dir : string -> option Pack;
  embedded : string -> option Pack;
}.

Definition LoadPack (e : Evaluator) (packID : string) : option Pack :=
  match dir e packID with Some p => Some p | None => embedded e packID end.

(** For the latest version, as every caller asks *)
Definition EvaluateWith (e : Evaluator) (packID : string) (ctx : Attrs) : option EvalDecision :=
  match engine e with
  | Some ask =>
      match ask packID ctx with
      | Some (attrs, trace) => Some (mkDecision (packID +:+ "@") attrs trace)
      | None => p ← LoadPack e packID; Some (Evaluate p ctx)
      end
  | None => p ← LoadPack e packID; Some (Evaluate p ctx)
  end.

(** ** The fuel of a condition *)

Lemma prefix_drop p s : String.prefix p s = true -> exists r, s = p +:+ r.
Proof.
  revert s. induction p as [|c p IH]; intros [|d s]; simpl; [by exists ""|by exists (String d s)|done|].
  destruct (Ascii.ascii_dec c d) as [->|]; [|done]. intros [r ->]%IH. by exists r.
Qed.

Lemma has_suffix_app key s : Str.has_suffix key s = true -> exists b, key = b +:+ s.
Proof.
  unfold Str.has_suffix. intros [r Hr]%prefix_drop. exists (Str.rev r).
  rewrite <-(rev_involutive key), Hr, rev_app, rev_involutive. done.
Qed.

Lemma trim_suffix_app b s : Str.has_suffix (b +:+ s) s = true -> Str.trim_suffix (b +:+ s) s = b.
Proof.
  intros Hs. unfold Str.trim_suffix. rewrite Hs, str_length_app, Nat.add_sub. apply str_take_app.
Qed.

Lemma splitOp_ne key base : splitOp key = (base, "ne") -> (String.length base < String.length key)%nat.
Proof.
  unfold splitOp. destruct (List.find _ suffixes) as [[s op]|] eqn:E; [|done]. intros [= <- ->].
  apply List.find_some in E as [Hin Hs]. cbn [fst] in Hs.
  destruct (has_suffix_app _ _ Hs) as [b ->]. rewrite trim_suffix_app, str_length_app by done.
  assert (String.length s <> 0)%nat; [|lia]. cbn in Hin. intuition; by simplify_eq.
Qed.

Lemma matchCond_fuel_enough n m key want ctx :
  (String.length key <= n)%nat -> (String.length key <= m)%nat -> matchCond_fuel n key want ctx = matchCond_fuel m key want ctx.
Proof.
  revert m key. induction n as [|n IH]; intros m key Hn Hm.
  - destruct key as [|c key]; [|cbn in Hn; lia]. by destruct m.
  - destruct m as [|m].
    { destruct key as [|c key]; [|cbn in Hm; lia]. done. }
    cbn [matchCond_fuel]. destruct (splitOp key) as [base op] eqn:E.
    destruct (bool_decide (op = "eq")); [done|]. destruct (bool_decide (op = "exists")); [done|].
    destruct (bool_decide (op = "in")); [done|]. destruct (bool_decide (op = "ne")) eqn:Ene; [|done]. bools. subst.
    apply splitOp_ne in E. f_equal. apply IH; lia.
Qed.

(** [ne] negates the condition on the key without its suffix. *)
Lemma matchCond_ne key base want ctx :
  splitOp key = (base, "ne") -> matchCond key want ctx = negb (matchCond base want ctx).
Proof.
  intros E. pose proof (splitOp_ne _ _ E) as Hl. unfold matchCond at 1.
  destruct (String.length key) as [|n] eqn:En; [lia|]. cbn [matchCond_fuel]. rewrite E.
  do 3 (rewrite bool_decide_false by done). rewrite bool_decide_true by done. f_equal.
  unfold matchCond. apply matchCond_fuel_enough; lia.
Qed.

(** ** Which rule decides a field *)

(** The matched rule that has the field, of the highest precedence, and the
    last in the file among equals *)
Fixpoint winner (k : string) (l : list Rule) : option Rule :=
  match l with
  | [] => None
  | r :: l =>
      match winner k l with
      | Some w => if bool_decide (is_Some (Then r !! k)) && (precedence w <? precedence r) then Some r else Some w
      | None => if bool_decide (is_Some (Then r !! k)) then Some r else None
      end
  end.

(** The last rule of a list that has the field *)
Fixpoint lastWith (k : string) (l : list Rule) : option Rule :=
  match l with
  | [] => None
  | r :: l => match lastWith k l with
              | Some w => Some w
              | None => if bool_decide (is_Some (Then r !! k)) then Some r else None
              end
  end.

Lemma merge_lookup k l attrs :
  k <> "precedence" ->
  foldl mergeThen attrs l !! k = match lastWith k l with Some w => Then w !! k | None => attrs !! k end.
Proof.
  intros Hk. revert attrs. induction l as [|r l IH]; intros attrs; [done|]. cbn [foldl lastWith]. rewrite IH.
  destruct (lastWith k l) as [w|]; [done|]. unfold mergeThen.
  rewrite lookup_union, lookup_delete_ne by done.
  destruct (Then r !! k) as [v|] eqn:E; [|by rewrite bool_decide_false by (by intros [? ?]); destruct (attrs !! k)].
  rewrite bool_decide_true by done. rewrite E. by destruct (attrs !! k).
Qed.

Lemma lastWith_in k l w : lastWith k l = Some w -> w ∈ l /\ is_Some (Then w !! k).
Proof.
  induction l as [|r l IH]; [done|]. cbn. destruct (lastWith k l) as [x|].
  - intros [= ->]. destruct (IH eq_refl). split; [by right|done].
  - destruct (bool_decide _) eqn:E; bools; [|done]. intros [= ->]. split; [by left|done].
Qed.

Lemma lastWith_insert k r l :
  Sorted byPrecedence l ->
  lastWith k (insert_rule r l) =
  match lastWith k l with
  | Some w => if bool_decide (is_Some (Then r !! k)) && (precedence w <? precedence r) then Some r else Some w
  | None => if bool_decide (is_Some (Then r !! k)) then Some r else None
  end.
Proof.
  intros Hs%Sorted_StronglySorted; [|intros ???; unfold byPrecedence; lia].
  induction Hs as [|x l Hs IH Hx]; [done|]. cbn [insert_rule]. destruct (decide (byPrecedence r x)) as [Hd|Hd].
  - assert (Hall : forall w, w ∈ x :: l -> precedence r <= precedence w).
    { rewrite Forall_forall in Hx. unfold byPrecedence in *. intros w [->|Hw]%elem_of_cons; [done|].
      specialize (Hx w Hw). lia. }
    change (lastWith k (r :: x :: l)) with
      (match lastWith k (x :: l) with Some w => Some w
       | None => if bool_decide (is_Some (Then r !! k)) then Some r else None end).
    destruct (lastWith k (x :: l)) as [w|] eqn:E; [|done].
    apply lastWith_in in E as [Hw _]. apply Hall in Hw.
    replace (precedence w <? precedence r) with false by (symmetry; apply Z.ltb_ge; lia). by rewrite andb_false_r.
  - cbn [lastWith]. rewrite IH. destruct (lastWith k l) as [w|]; [by destruct (_ && _)|].
    unfold byPrecedence in Hd. destruct (bool_decide (is_Some (Then r !! k))) eqn:Er; cbn [andb].
    + destruct (bool_decide (is_Some (Then x !! k))); [|done].
      by replace (precedence x <? precedence r) with true by (symmetry; apply Z.ltb_lt; lia).
    + by destruct (bool_decide (is_Some (Then x !! k))).
Qed.

Lemma insert_sorted r l : Sorted byPrecedence l -> Sorted byPrecedence (insert_rule r l).
Proof.
  unfold byPrecedence. induction 1 as [|x l Hs IH Hd]; [by repeat constructor|]. cbn. case_decide as Hc; [by repeat constructor|].
  constructor; [done|]. destruct l as [|y l]; cbn; [constructor; unfold byPrecedence in *; lia|].
  case_decide; constructor; unfold byPrecedence in *; [lia|by inversion Hd].
Qed.

Lemma stableSort_sorted l : Sorted byPrecedence (stableSort l).
Proof. induction l as [|r l IH]; [constructor|]. by apply insert_sorted. Qed.

Lemma lastWith_sorted k l : lastWith k (stableSort l) = winner k l.
Proof.
  induction l as [|r l IH]; [done|]. cbn [stableSort foldr winner]. rewrite lastWith_insert by apply stableSort_sorted.
  fold (stableSort l). by rewrite IH.
Qed.

(** The winner, declaratively *)
Definition decides (k : string) (l : list Rule) (w : Rule) : Prop :=
  is_Some (Then w !! k) /\
  exists l1 l2, l = l1 ++ w :: l2 /\
    (forall r, r ∈ l1 -> is_Some (Then r !! k) -> precedence r <= precedence w) /\
    (forall r, r ∈ l2 -> is_Some (Then r !! k) -> precedence r < precedence w).

Lemma winner_decides k l :
  match winner k l with
  | Some w => decides k l w
  | None => forall r, r ∈ l -> Then r !! k = None
  end.
Proof.
  induction l as [|r l IH]; cbn [winner]; [by intros r ?%elem_of_nil|].
  destruct (winner k l) as [w|].
  - destruct IH as [Hw (l1 & l2 & -> & H1 & H2)].
    destruct (bool_decide (is_Some (Then r !! k))) eqn:Er; bools; cbn [andb].
    + destruct (precedence w <? precedence r) eqn:Ep; bools.
      * split; [done|]. exists [], (l1 ++ w :: l2). split; [done|]. split; [by intros x ?%elem_of_nil|].
        intros x Hx Hs. apply elem_of_app in Hx as [Hx|[->|Hx]%elem_of_cons].
        -- specialize (H1 x Hx Hs). lia.
        -- lia.
        -- specialize (H2 x Hx Hs). lia.
      * split; [done|]. exists (r :: l1), l2. split; [done|]. split; [|done].
        intros x [->|Hx]%elem_of_cons Hs; [lia|by apply H1].
    + split; [done|]. exists (r :: l1), l2. split; [done|]. split; [|done].
      intros x [->|Hx]%elem_of_cons Hs; [done|by apply H1].
  - destruct (bool_decide (is_Some (Then r !! k))) eqn:Er; bools.
    + split; [done|]. exists [], l. split; [done|]. split; [by intros x ?%elem_of_nil|].
      intros x Hx Hs. rewrite IH in Hs by done. by destruct Hs.
    + intros x [->|Hx]%elem_of_cons; [|by apply IH]. by apply eq_None_not_Some.
Qed.

(** Every field of a decision comes from one matched rule: among the
    matched rules that set the field, the one of the highest precedence, and
    the last in the file among those of equal precedence; a field no matched
    rule sets is absent, and [precedence] is never a field. *)
Theorem evaluate_precedence p ctx k :
  let d := d_Attrs (Evaluate p ctx) in
  let matched := List.filter (fun r => Match_ r ctx) (Rules p) in
  (k = "precedence" -> d !! k = None) /\
  (k <> "precedence" ->
   (exists w, decides k matched w /\ d !! k = Then w !! k) \/
   (forall r, r ∈ matched -> Then r !! k = None) /\ d !! k = None).
Proof.
  intros d matched. split.
  - intros ->. unfold d, Evaluate. cbn [d_Attrs]. fold matched.
    assert (Hp : forall l (attrs : Attrs), attrs !! "precedence" = None -> foldl mergeThen attrs l !! "precedence" = None).
    { induction l as [|r l IH]; intros attrs Ha; [done|]. cbn [foldl]. apply IH. unfold mergeThen.
      by rewrite lookup_union, lookup_delete_eq, Ha. }
    by apply Hp.
  - intros Hk. assert (E : d !! k = match winner k matched with Some w => Then w !! k | None => None end).
    { unfold d, Evaluate. cbn [d_Attrs]. fold matched. rewrite merge_lookup by done. by rewrite lastWith_sorted. }
    pose proof (winner_decides k matched) as Hw. destruct (winner k matched) as [w|]; [left; by exists w|by right].
Qed.
