(* ===== verification/EinvValidate.v ===== *)
(** * einvoicing: validation against the rule packs
    (services/einvoicing/model.go RuleContext, validate.go)

    The context of an invoice, the collection of violations from the decision
    and the trace of each pack, and the rules executed by the service itself:
    the backdating window and the liveness of the supplier's TIN.  The packs
    and the answer of the TIN registry are parameters; the two packs shipped
    with the repository are transcribed as the YAML library decodes them. *)

From S2P Require Import Prelude StrFacts GoAny Yaml GoFmt GoTime RulePack EinvModel.

(** ** The context *)

Definition maxRate (ls : list InvoiceLine) : Z := foldl (fun m l => if m <? VatRateBps l then VatRateBps l else m) 0 ls.

(** The categories of the lines, ascending, each once *)
Definition categories (ls : list InvoiceLine) : list string := merge_sort String.le (remove_dups (map VatCategory ls)).

(** [None] is the run-time panic of [keys\[0\]] on an invoice without lines. *)
Definition RuleContext (inv : CanonicalInvoice) (duplicate : bool) : option Attrs :=
  match categories (Lines inv) with
  | [] => None
  | cat :: _ =>
      let ctx : Attrs := list_to_map [
        ("invoice_number", VStr (InvoiceNumber inv)); ("issue_date", VStr (IssueDate inv));
        ("currency", VStr (Currency inv)); ("invoice_type", VStr (InvoiceType inv));
        ("supplier_tin", VStr (TIN (Supplier inv))); ("supplier_name", VStr (p_Name (Supplier inv)));
        ("customer_tin", VStr (TIN (Customer inv))); ("customer_name", VStr (p_Name (Customer inv)));
        ("payable_amount_kobo", VInt (PayableKobo inv)); ("line_count", VInt (Z.of_nat (length (Lines inv))));
        ("totals_consistent", VBool (TotalsConsistent inv)); ("duplicate", VBool duplicate);
        ("vat_rate_bps", VInt (maxRate (Lines inv))); ("vat_category", VStr cat)] in
      Some (if bool_decide (TIN (Supplier inv) = "") then ctx
            else <["supplier_tin_len" := VInt (Str.len (Str.trim_space (TIN (Supplier inv))))]> ctx)
  end.

(** ** The rules the service executes *)

(** [time.Parse("2006-01-02", s)], in days since 1970 *)
Definition parse_day (s : string) : option Z :=
  '(y, s) ← num 4 0 s; s ← expect "-" s; '(mo, s) ← num 2 0 s; s ← expect "-" s; '(d, s) ← num 2 0 s;
  if bool_decide (s = "") && (1 <=? mo) && (mo <=? 12) && (1 <=? d) && (d <=? days_in mo y)
  then Some (days_from_civil y mo d) else None.

(** [int(now.Sub(issue).Hours()/24 + 0.5)] for two midnights [d] days apart:
    towards zero, and a difference of more than 292 years saturates *)
Definition ageDays (d : Z) : Z :=
  if 106751 <? d then 106752 else if d <? -106751 then -106751 else if d <? 0 then d + 1 else d.

Definition packRule (p : Pack) (id : string) : option Rule := List.find (fun r => bool_decide (r_ID r = id)) (Rules p).

Definition thenInt (r : Rule) (key : string) : option Z :=
  match Then r !! key with
  | Some (VInt z) => Some z
  | Some (VFloat f) => Some (int_of_float f)
  | _ => None
  end.

(** [v_now]: the clock; [tinStatus]: the registry, when one is configured *)
Record Validator := mkValidator {
  eval : Evaluator;
  v_now : Z;
  tinStatus : option (string -> option string);
}.

Definition quote (s : string) : string := String "034" (s +:+ String "034" "").

Definition backdated (p : Pack) (now : Z) (inv : CanonicalInvoice) : list Violation :=
  match packRule p "mbs.date.window" with
  | None => []
  | Some r =>
      match thenInt r "max_backdate_days" with
      | None => []
      | Some days =>
          if bool_decide (IssueDate inv = "") then []
          else match parse_day (IssueDate inv) with
               | None => []
               | Some issue =>
                   let age := ageDays (now / (24 * hour) - issue) in
                   if days <? age
                   then [mkViolation (Ref p)
                           ("MBS-BR-05: invoice issue_date " +:+ IssueDate inv +:+ " is backdated " +:+ pretty age +:+
                            " days (max " +:+ pretty days +:+ " per mbs.date.window)") "fatal"]
                   else []
               end
      end
  end.

(** [None] when the registry fails *)
Definition dead (p : Pack) (status : option (string -> option string)) (inv : CanonicalInvoice) : option (list Violation) :=
  match packRule p "mbs.tin.live", status with
  | Some _, Some status =>
      let tin := Str.trim_space (TIN (Supplier inv)) in
      if bool_decide (tin = "") then Some []
      else match status tin with
           | None => None
           | Some st =>
               if bool_decide (st = "active") then Some []
               else Some [mkViolation (Ref p)
                            ("MBS-BR-06: supplier TIN " +:+ tin +:+ " is not live (registry status " +:+ quote st +:+
                             ") per mbs.tin.live") "fatal"]
           end
  | _, _ => Some []
  end.

Definition enforceMBSRules (v : Validator) (inv : CanonicalInvoice) : option (list Violation) :=
  p ← LoadPack (eval v) "rp-mbs-business-rules";
  ev ← dead p (tinStatus v) inv;
  Some (backdated p (v_now v) inv ++ ev).

(** ** Collecting violations *)

Definition attrText (a : Attrs) (k : string) : string := match a !! k with Some (VStr s) => s | _ => "" end.

Definition severityOf (a : Attrs) : string := Str.or_default (attrText a "severity") "fatal".

(** The violation of the merged decision *)
Definition decided (d : EvalDecision) : list Violation :=
  if bool_decide (attrText (d_Attrs d) "violation" = "") then []
  else [mkViolation (d_Pack d) (attrText (d_Attrs d) "violation") (severityOf (d_Attrs d))].

(** One rule of the pack named by a matched trace entry *)
Definition addRule (packID : string) (p : Pack) (id : string) (vs : list Violation) (r : Rule) : list Violation :=
  let msg := attrText (Then r) "violation" in
  if negb (bool_decide (r_ID r = id)) || bool_decide (msg = "") then vs
  else if existsb (fun ex => bool_decide (v_Message ex = msg) && Str.has_prefix (v_Pack ex) packID) vs then vs
  else vs ++ [mkViolation (Ref p) msg (severityOf (Then r))].

Definition addTrace (e : Evaluator) (packID : string) (vs : list Violation) (t : TraceEntry) : list Violation :=
  if negb (Matched t) then vs
  else match LoadPack e packID with
       | None => vs
       | Some p => foldl (addRule packID p (t_RuleID t)) vs (Rules p)
       end.

Definition validatePack (e : Evaluator) (ctx : Attrs) (vs : list Violation) (packID : string) : option (list Violation) :=
  d ← EvaluateWith e packID ctx;
  Some (foldl (addTrace e packID) (vs ++ decided d) (Trace d)).

Definition isFatal (v : Violation) : bool := bool_decide (v_Severity v = "fatal").

Inductive validateErr := vPanic | vFails (partial : list Violation).

(** The flag of the code is raised exactly with the fatal violations it
    appends. *)
Definition Validate (v : Validator) (inv : CanonicalInvoice) (duplicate : bool)
  : result validateErr (list Violation * bool) :=
  match RuleContext inv duplicate with
  | None => Err vPanic
  | Some ctx =>
      match (vs ← validatePack (eval v) ctx [] "rp-ubl-bis"; validatePack (eval v) ctx vs "rp-mbs-business-rules") with
      | None => Err (vFails [])
      | Some vs =>
          match enforceMBSRules v inv with
          | None => Err (vFails vs)
          | Some ev => Ok (vs ++ ev, existsb isFatal (vs ++ ev))
          end
      end
  end.

(** ** The packs of the repository *)

Definition rule (id : string) (when_ then_ : list (string * any)) : Rule :=
  mkRule id None (list_to_map when_) (list_to_map then_).
Definition T := VBool true.
Definition F := VBool false.

Definition rp_ubl_bis : Pack := mkPack "rp-ubl-bis" "1.0.0" [
  rule "ubl.inv.number.present" [("invoice_number__exists", T)]
    [("check_invoice_number", VStr "pass"); ("narrate", VStr "IBT-001 Invoice number present")];
  rule "ubl.inv.number.missing" [("invoice_number__exists", F)]
    [("check_invoice_number", VStr "fail"); ("violation", VStr "BR-01: An Invoice shall have an Invoice number (IBT-001)"); ("severity", VStr "fatal")];
  rule "ubl.inv.issue_date.present" [("issue_date__exists", T)]
    [("check_issue_date", VStr "pass"); ("narrate", VStr "IBT-002 Issue date present")];
  rule "ubl.inv.issue_date.missing" [("issue_date__exists", F)]
    [("check_issue_date", VStr "fail"); ("violation", VStr "BR-02: An Invoice shall have an Issue date (IBT-002)"); ("severity", VStr "fatal")];
  rule "ubl.inv.currency.ngn" [("currency", VStr "NGN")]
    [("check_currency", VStr "pass"); ("narrate", VStr "IBT-005 Document currency NGN")];
  rule "ubl.inv.currency.other" [("currency__ne", VStr "NGN")]
    [("check_currency", VStr "warn"); ("violation", VStr "NRS profile prefers NGN document currency; FX must be stated"); ("severity", VStr "warning")];
  rule "ubl.supplier.tin.present" [("supplier_tin__exists", T)]
    [("check_supplier_tin", VStr "pass"); ("narrate", VStr "Supplier TIN present (NRS profile mandatory)")];
  rule "ubl.supplier.tin.missing" [("supplier_tin__exists", F)]
    [("check_supplier_tin", VStr "fail"); ("violation", VStr "BR-NRS-01: Supplier PartyTaxScheme shall carry TIN"); ("severity", VStr "fatal")];
  rule "ubl.supplier.name.present" [("supplier_name__exists", T)] [("check_supplier_name", VStr "pass")];
  rule "ubl.supplier.name.missing" [("supplier_name__exists", F)]
    [("check_supplier_name", VStr "fail"); ("violation", VStr "BR-06: An Invoice shall contain the Seller name (IBT-027)"); ("severity", VStr "fatal")];
  rule "ubl.customer.name.present" [("customer_name__exists", T)] [("check_customer_name", VStr "pass")];
  rule "ubl.customer.name.missing" [("customer_name__exists", F)]
    [("check_customer_name", VStr "fail"); ("violation", VStr "BR-07: An Invoice shall contain the Buyer name (IBT-044)"); ("severity", VStr "fatal")];
  rule "ubl.totals.positive" [("payable_amount_kobo__gt", VInt 0)]
    [("check_totals", VStr "pass"); ("narrate", VStr "IBT-115 payable amount positive")];
  rule "ubl.totals.nonpositive" [("payable_amount_kobo__lte", VInt 0)]
    [("check_totals", VStr "fail"); ("violation", VStr "BR-NRS-02: Payable amount shall be > 0"); ("severity", VStr "fatal")];
  rule "ubl.lines.present" [("line_count__gte", VInt 1)]
    [("check_lines", VStr "pass"); ("narrate", VStr "IBT-126 at least one invoice line")];
  rule "ubl.lines.missing" [("line_count__lt", VInt 1)]
    [("check_lines", VStr "fail"); ("violation", VStr "BR-16: An Invoice shall have at least one Invoice line"); ("severity", VStr "fatal")];
  rule "ubl.vat.category.valid" [("vat_category__in", VList [VStr "S"; VStr "Z"; VStr "E"; VStr "AE"; VStr "O"])]
    [("check_vat_category", VStr "pass"); ("narrate", VStr "VAT category code recognised")]
].

Definition rp_mbs_business_rules : Pack := mkPack "rp-mbs-business-rules" "1.0.0" [
  rule "mbs.tin.format" [("supplier_tin_len", VInt 13)] [("check_tin_format", VStr "pass"); ("narrate", VStr "TIN is 13 digits")];
  rule "mbs.tin.format.bad" [("supplier_tin_len__ne", VInt 13)]
    [("check_tin_format", VStr "fail"); ("violation", VStr "MBS-BR-01: Supplier TIN must be 13 digits"); ("severity", VStr "fatal")];
  rule "mbs.amount.b2b.threshold" [("invoice_type", VStr "B2B"); ("payable_amount_kobo__gte", VInt 1)]
    [("preclearance_required", T); ("narrate", VStr "B2B invoices require MBS pre-clearance before issuance")];
  rule "mbs.b2c.realtime" [("invoice_type", VStr "B2C")]
    [("preclearance_required", F); ("realtime_report_required", T); ("narrate", VStr "B2C: real-time report within 24h, no pre-clearance")];
  rule "mbs.vat.rate.standard" [("vat_rate_bps", VInt 750)] [("check_vat_rate", VStr "pass"); ("narrate", VStr "VAT 7.5% standard rate")];
  rule "mbs.vat.rate.nonstandard" [("vat_rate_bps__gt", VInt 0); ("vat_rate_bps__ne", VInt 750)]
    [("check_vat_rate", VStr "warn"); ("violation", VStr "MBS-BR-02: VAT rate differs from standard 7.5%"); ("severity", VStr "warning")];
  rule "mbs.duplicate.guard" [("duplicate", T)]
    [("check_duplicate", VStr "fail"); ("violation", VStr "MBS-BR-03: duplicate invoice number for supplier"); ("severity", VStr "fatal")];
  rule "mbs.lines.consistent" [("totals_consistent", T)]
    [("check_line_totals", VStr "pass"); ("narrate", VStr "line extensions sum to tax-exclusive amount")];
  rule "mbs.lines.inconsistent" [("totals_consistent", F)]
    [("check_line_totals", VStr "fail"); ("violation", VStr "MBS-BR-04: line totals do not reconcile with document totals"); ("severity", VStr "fatal")];
  rule "mbs.large.invoice.flag" [("payable_amount_kobo__gte", VInt 10000000000)]
    [("large_invoice_review", T); ("narrate", VStr ">= N100m flagged for enhanced review")];
  rule "mbs.date.window" [("supplier_tin_len__gte", VInt 1)]
    [("check_backdate_window", VStr "enforce"); ("max_backdate_days", VInt 7);
     ("narrate", VStr "issue_date must not be backdated more than max_backdate_days before submission")];
  rule "mbs.tin.live" [("supplier_tin_len__gte", VInt 1)]
    [("check_tin_liveness", VStr "enforce");
     ("narrate", VStr "supplier TIN must be live in the registry (active); deregistered/suspended/unknown TINs are rejected")]
].

Definition embeddedPacks (id : string) : option Pack :=
  if bool_decide (id = "rp-ubl-bis") then Some rp_ubl_bis
  else if bool_decide (id = "rp-mbs-business-rules") then Some rp_mbs_business_rules
  else None.

(** Neither an engine nor an override directory *)
Definition standalone : Evaluator := mkEvaluator None (fun _ => None) embeddedPacks.

(** ** What a pack contributes *)

Definition msgOf (r : Rule) : string := attrText (Then r) "violation".
Definition violationOf (p : Pack) (r : Rule) : Violation := mkViolation (Ref p) (msgOf r) (severityOf (Then r)).

(** Rules with distinct identifiers, that set a severity exactly with a
    violation, both texts, with distinct messages *)
Record tidyPack (p : Pack) : Prop := {
  tidy_ids r r' : r ∈ Rules p -> r' ∈ Rules p -> r_ID r = r_ID r' -> r = r';
  tidy_keys r : r ∈ Rules p -> is_Some (Then r !! "violation") <-> is_Some (Then r !! "severity");
  tidy_msgs r r' : r ∈ Rules p -> r' ∈ Rules p -> msgOf r <> "" -> msgOf r = msgOf r' -> r = r';
}.

Lemma winner_ext k k' l :
  (forall r, r ∈ l -> is_Some (Then r !! k) <-> is_Some (Then r !! k')) -> winner k l = winner k' l.
Proof.
  induction l as [|r l IH]; intros Hk; [done|]. cbn [winner]. rewrite IH by set_solver.
  assert (E : bool_decide (is_Some (Then r !! k)) = bool_decide (is_Some (Then r !! k'))).
  { apply bool_decide_ext, Hk. set_solver. }
  by rewrite E.
Qed.

Section Packs.
Context (e : Evaluator) (p : Pack) (packID : string) (ctx : Attrs).
Hypothesis Htidy : tidyPack p.
Hypothesis Hload : LoadPack e packID = Some p.
Hypothesis Hid : p_ID p = packID.

Definition matchedRule (r : Rule) : Prop := r ∈ Rules p /\ Match_ r ctx = true.

(** The violations of matched rules *)
Definition fromRules (v : Violation) : Prop := exists r, matchedRule r /\ msgOf r <> "" /\ v = violationOf p r.

Lemma elem_of_matched r : r ∈ List.filter (fun r => Match_ r ctx) (Rules p) <-> matchedRule r.
Proof. by rewrite list_elem_of_In, filter_In, <-list_elem_of_In. Qed.

Lemma Attrs_winner k :
  k <> "precedence" ->
  d_Attrs (Evaluate p ctx) !! k =
  match winner k (List.filter (fun r => Match_ r ctx) (Rules p)) with Some w => Then w !! k | None => None end.
Proof. intros Hk. unfold Evaluate. cbn [d_Attrs]. rewrite merge_lookup by done. by rewrite lastWith_sorted. Qed.

Lemma decided_fromRules v : v ∈ decided (Evaluate p ctx) -> fromRules v.
Proof.
  unfold decided, severityOf, attrText. rewrite !Attrs_winner by done.
  rewrite (winner_ext "severity" "violation").
  2: { intros r Hr%elem_of_matched. symmetry. apply (tidy_keys _ Htidy). apply Hr. }
  pose proof (winner_decides "violation" (List.filter (fun r => Match_ r ctx) (Rules p))) as Hw.
  destruct (winner "violation" _) as [w|]; [|rewrite bool_decide_true by done; by intros ?%elem_of_nil].
  destruct Hw as [_ (l1 & l2 & El & _)].
  assert (Hm : matchedRule w) by (apply elem_of_matched; rewrite El; set_solver).
  destruct (bool_decide _) eqn:E; bools; [by intros ?%elem_of_nil|]. intros ->%list_elem_of_singleton.
  exists w. split; [done|]. split; [exact E|]. done.
Qed.

Lemma has_prefix_ref : Str.has_prefix (Ref p) packID = true.
Proof. unfold Ref, Str.has_prefix. rewrite Hid. apply prefix_app. Qed.

(** The violations of this pack so far; those before are of other packs. *)
Definition goodAcc (vs acc : list Violation) : Prop :=
  exists new, acc = vs ++ new /\ forall v, v ∈ new -> fromRules v.

Context (vs0 : list Violation).
Hypothesis Hvs0 : forall v, v ∈ vs0 -> Str.has_prefix (v_Pack v) packID = false.

Lemma addRule_good id acc r :
  goodAcc vs0 acc -> matchedRule r -> 
  goodAcc vs0 (addRule packID p id acc r) /\
  (r_ID r = id -> msgOf r <> "" -> violationOf p r ∈ addRule packID p id acc r) /\
  (forall v, v ∈ acc -> v ∈ addRule packID p id acc r).
Proof.
  intros (new & -> & Hnew) Hr. unfold addRule. fold (msgOf r).
  destruct (bool_decide (r_ID r = id)) eqn:Ei; bools; cbn [negb orb].
  2: { split; [by exists new|]. by split. }
  destruct (bool_decide (msgOf r = "")) eqn:Em; bools.
  { split; [by exists new|]. by split. }
  destruct (existsb _ (vs0 ++ new)) eqn:Ex.
  - split; [by exists new|]. split; [|done]. intros _ _. apply existsb_exists in Ex as (x & Hx & Hx2). bools.
    apply list_elem_of_In, elem_of_app in Hx as [Hx|Hx].
    { rewrite Hvs0 in * by done. done. }
    destruct (Hnew x Hx) as (r' & Hr' & Hm' & ->). cbn in *.
    assert (r' = r) as -> by (apply (tidy_msgs _ Htidy); [apply Hr'|apply Hr|done|done]).
    apply elem_of_app. by right.
  - split.
    + exists (new ++ [mkViolation (Ref p) (msgOf r) (severityOf (Then r))]). split; [by rewrite app_assoc|].
      intros v [Hv| ->%list_elem_of_singleton]%elem_of_app; [by apply Hnew|]. by exists r.
    + split; [intros; set_solver|]. intros v Hv. apply elem_of_app. by left.
Qed.

Lemma addRules_good id rs acc :
  goodAcc vs0 acc -> (forall r, r ∈ rs -> r ∈ Rules p) -> (forall r, r ∈ Rules p -> r_ID r = id -> matchedRule r) ->
  goodAcc vs0 (foldl (addRule packID p id) acc rs) /\
  (forall r, r ∈ rs -> r_ID r = id -> msgOf r <> "" -> violationOf p r ∈ foldl (addRule packID p id) acc rs) /\
  (forall v, v ∈ acc -> v ∈ foldl (addRule packID p id) acc rs).
Proof.
  revert acc. induction rs as [|r rs IH]; intros acc Hacc Hrs Hm; [split; [done|split; [set_solver|done]]|].
  cbn [foldl]. assert (Hcase : r_ID r = id \/ addRule packID p id acc r = acc).
  { unfold addRule. destruct (bool_decide (r_ID r = id)) eqn:E; bools; [by left|by right]. }
  assert (Hstep : goodAcc vs0 (addRule packID p id acc r) /\
    (r_ID r = id -> msgOf r <> "" -> violationOf p r ∈ addRule packID p id acc r) /\
    (forall v, v ∈ acc -> v ∈ addRule packID p id acc r)).
  { destruct (decide (r_ID r = id)) as [Ei|Hne].
    - apply addRule_good; [done|]. apply Hm; [set_solver|done].
    - destruct Hcase as [?|E]; [done|]. rewrite E. split; [done|]. by split. }
  destruct Hstep as (S1 & S2 & S3). destruct (IH _ S1) as (I1 & I2 & I3); [set_solver|done|].
  split; [done|]. split; [|auto]. intros r' [->|Hr']%elem_of_cons Ei Hn; auto.
Qed.

Lemma addTraces_good rs acc :
  (forall r, r ∈ rs -> r ∈ Rules p) -> goodAcc vs0 acc ->
  let tr := map (fun r => mkTrace (r_ID r) (Match_ r ctx)) rs in
  goodAcc vs0 (foldl (addTrace e packID) acc tr) /\
  (forall r, r ∈ rs -> matchedRule r -> msgOf r <> "" -> violationOf p r ∈ foldl (addTrace e packID) acc tr) /\
  (forall v, v ∈ acc -> v ∈ foldl (addTrace e packID) acc tr).
Proof.
  revert acc. induction rs as [|r rs IH]; intros acc Hrs Hacc; cbn [map foldl]; [split; [done|split; [set_solver|done]]|].
  cbn zeta in IH. unfold addTrace at 2 4 6. cbn [Matched t_RuleID]. rewrite Hload.
  destruct (Match_ r ctx) eqn:Em; cbn [negb].
  - destruct (addRules_good (r_ID r) (Rules p) acc Hacc ltac:(done)) as (A1 & A2 & A3).
    { intros r' Hr' Ei. assert (r' = r) as -> by (apply (tidy_ids _ Htidy); [done|set_solver|done]). by split. }
    destruct (IH _ ltac:(set_solver) A1) as (I1 & I2 & I3). split; [done|]. split; [|auto].
    intros r' [->|Hr']%elem_of_cons Hmr Hn; [|by apply I2]. apply I3, A2; [set_solver|done..].
  - destruct (IH _ ltac:(set_solver) Hacc) as (I1 & I2 & I3). split; [done|]. split; [|auto].
    intros r' [->|Hr']%elem_of_cons Hmr Hn; [|by apply I2]. destruct Hmr as [_ Hmr]. congruence.
Qed.

Lemma validatePack_exact :
  engine e = None ->
  exists new, validatePack e ctx vs0 packID = Some (vs0 ++ new) /\ forall v, v ∈ new <-> fromRules v.
Proof.
  intros He. unfold validatePack, EvaluateWith. rewrite He, Hload. cbn [mbind option_bind].
  assert (H0 : goodAcc vs0 (vs0 ++ decided (Evaluate p ctx))).
  { exists (decided (Evaluate p ctx)). split; [done|]. apply decided_fromRules. }
  destruct (addTraces_good (Rules p) _ ltac:(done) H0) as ((new & E & Hnew) & H2 & _).
  unfold Evaluate in E, H2 |- *. cbn [Trace] in E, H2 |- *. rewrite E. exists new. split; [done|].
  intros v. split; [apply Hnew|]. intros (r & Hr & Hm & ->).
  specialize (H2 r (proj1 Hr) Hr Hm). rewrite E in H2. apply elem_of_app in H2 as [H2|H2]; [|done].
  apply Hvs0 in H2. change (Str.has_prefix (Ref p) packID = false) in H2. by rewrite has_prefix_ref in H2.
Qed.
End Packs.

(** ** The verdict on an invoice, with the packs of the repository *)

Lemma tidy_of (p : Pack) :
  NoDup (map r_ID (Rules p)) ->
  Forall (fun r => is_Some (Then r !! "violation") <-> is_Some (Then r !! "severity")) (Rules p) ->
  NoDup (List.filter (fun m => negb (bool_decide (m = ""))) (map msgOf (Rules p))) ->
  tidyPack p.
Proof.
  intros H1 H2 H3. split.
  - revert H1. clear. induction (Rules p) as [|x l IH]; intros H1 r r' Hr Hr' E; [by apply elem_of_nil in Hr|].
    cbn [map] in H1. apply NoDup_cons in H1 as [Hx Hl].
    assert (Hin : forall y, y ∈ l -> r_ID y <> r_ID x).
    { intros y Hy Ey. apply Hx. rewrite <-Ey. apply list_elem_of_In, in_map. by apply list_elem_of_In. }
    apply elem_of_cons in Hr as [->|Hr], Hr' as [->|Hr']; [done| | |exact (IH Hl r r' Hr Hr' E)].
    + by destruct (Hin r' Hr').
    + by destruct (Hin r Hr).
  - rewrite Forall_forall in H2. auto.
  - revert H3. clear. induction (Rules p) as [|x l IH]; intros H3 r r' Hr Hr' Hn E; [by apply elem_of_nil in Hr|].
    cbn [map List.filter] in H3.
    assert (Hin : forall y, y ∈ l -> msgOf y <> "" -> msgOf y <> msgOf x).
    { intros y Hy Hne Ey. rewrite <-Ey, bool_decide_false in H3 by done. cbn [negb] in H3.
      apply NoDup_cons in H3 as [Hx _]. apply Hx, list_elem_of_In, filter_In. split; [|by rewrite bool_decide_false].
      apply in_map. by apply list_elem_of_In. }
    assert (Hl : NoDup (List.filter (fun m => negb (bool_decide (m = ""))) (map msgOf l))).
    { destruct (negb _); [by apply NoDup_cons in H3 as [_ H3]|done]. }
    apply elem_of_cons in Hr as [->|Hr], Hr' as [->|Hr']; [done| | |by apply IH].
    + destruct (Hin r' Hr'); congruence.
    + by destruct (Hin r Hr).
Qed.

Lemma tidy_ubl : tidyPack rp_ubl_bis.
Proof.
  apply tidy_of.
  - refine (@bool_decide_eq_true_1 _ _ _). vm_compute. reflexivity.
  - cbn [Rules rp_ubl_bis]. repeat (apply Forall_cons; split); [..|apply Forall_nil_2];
      vm_compute; (split; intros [? ?]; try discriminate; eexists; reflexivity).
  - refine (@bool_decide_eq_true_1 _ _ _). vm_compute. reflexivity.
Qed.

Lemma tidy_mbs : tidyPack rp_mbs_business_rules.
Proof.
  apply tidy_of.
  - refine (@bool_decide_eq_true_1 _ _ _). vm_compute. reflexivity.
  - cbn [Rules rp_mbs_business_rules]. repeat (apply Forall_cons; split); [..|apply Forall_nil_2];
      vm_compute; (split; intros [? ?]; try discriminate; eexists; reflexivity).
  - refine (@bool_decide_eq_true_1 _ _ _). vm_compute. reflexivity.
Qed.

Lemma validate_exact' v inv duplicate ctx vs fatal :
  eval v = standalone -> RuleContext inv duplicate = Some ctx -> Validate v inv duplicate = Ok (vs, fatal) ->
  (forall x, x ∈ vs <->
     fromRules rp_ubl_bis ctx x \/ fromRules rp_mbs_business_rules ctx x \/
     x ∈ backdated rp_mbs_business_rules (v_now v) inv \/
     (exists d, dead rp_mbs_business_rules (tinStatus v) inv = Some d /\ x ∈ d)) /\
  (fatal = true <-> exists x, x ∈ vs /\ v_Severity x = "fatal").
Proof.
  intros He Hc. unfold Validate, enforceMBSRules. rewrite Hc, He.
  destruct (validatePack_exact standalone rp_ubl_bis "rp-ubl-bis" ctx tidy_ubl eq_refl eq_refl [])
    as (n1 & E1 & H1); [by intros x ?%elem_of_nil|done|].
  rewrite E1. cbn [mbind option_bind app].
  destruct (validatePack_exact standalone rp_mbs_business_rules "rp-mbs-business-rules" ctx tidy_mbs eq_refl eq_refl n1)
    as (n2 & E2 & H2); [|done|].
  { intros x (r & _ & _ & ->)%H1. change (Str.has_prefix (Ref rp_ubl_bis) "rp-mbs-business-rules" = false). vm_compute. reflexivity. }
  rewrite E2. clear E1 E2. change (LoadPack standalone "rp-mbs-business-rules") with (Some rp_mbs_business_rules). cbn [mbind option_bind].
  destruct (dead rp_mbs_business_rules (tinStatus v) inv) as [d|]; cbn [mbind option_bind]; [|done].
  intros [= <- <-]. split.
  - intros x. rewrite !elem_of_app, H1, H2.
    assert (Hd : (exists d', Some d = Some d' /\ x ∈ d') <-> x ∈ d).
    { split; [intros (d' & Ed & Hx); injection Ed as <-; exact Hx|intros Hx; exists d; exact (conj eq_refl Hx)]. }
    rewrite Hd. generalize (fromRules rp_ubl_bis ctx x) (fromRules rp_mbs_business_rules ctx x)
      (x ∈ backdated rp_mbs_business_rules (v_now v) inv) (x ∈ d). tauto.
  - unfold isFatal. rewrite existsb_exists. split.
    + intros (x & Hx & Hf). bools. exists x. by rewrite list_elem_of_In.
    + intros (x & Hx & Hf). exists x. rewrite <-list_elem_of_In, bool_decide_eq_true. done.
Qed.

(** C30: With the packs of the repository and no rules engine, the violations
    reported for an invoice are exactly those of the rules of either pack that
    match its context - none lost to the merging of decisions, none reported
    twice in different words - and those of the backdating window and of the
    TIN registry; the verdict is fatal exactly when one of them is fatal. *)
Theorem validate_exact v inv duplicate ctx vs fatal :
  eval v = standalone -> RuleContext inv duplicate = Some ctx -> Validate v inv duplicate = Ok (vs, fatal) ->
  (forall x, x ∈ vs <->
     fromRules rp_ubl_bis ctx x \/ fromRules rp_mbs_business_rules ctx x \/
     x ∈ backdated rp_mbs_business_rules (v_now v) inv \/
     (exists d, dead rp_mbs_business_rules (tinStatus v) inv = Some d /\ x ∈ d)) /\
  (fatal = true <-> exists x, x ∈ vs /\ v_Severity x = "fatal").
Proof. apply validate_exact'. Qed.

(** ** Rules that cannot fire *)

(** Fields of the context that are always present *)
Lemma context_has inv duplicate ctx k :
  RuleContext inv duplicate = Some ctx ->
  k ∈ ["invoice_number"; "issue_date"; "supplier_tin"; "supplier_name"; "customer_name"] -> ctxHas ctx k = true.
Proof.
  unfold RuleContext. destruct (categories (Lines inv)) as [|cat cats]; [done|].
  intros Hc Hk. injection Hc as <-. unfold ctxHas. destruct (bool_decide _).
  - repeat (apply elem_of_cons in Hk as [->|Hk]; [reflexivity|]). by apply elem_of_nil in Hk.
  - repeat (apply elem_of_cons in Hk as [->|Hk]; [rewrite lookup_insert_ne by done; reflexivity|]). by apply elem_of_nil in Hk.
Qed.

Lemma exists_false_never k ctx r id then_ :
  r = rule id [(k +:+ "__exists", F)] then_ -> splitOp (k +:+ "__exists") = (k, "exists") ->
  ctxHas ctx k = true -> Match_ r ctx = false.
Proof.
  intros -> Hs Hc. apply not_true_iff_false. unfold Match_. rewrite forallb_forall. intros Hall.
  assert (Hin : In (k +:+ "__exists", F) (map_to_list (When (rule id [(k +:+ "__exists", F)] then_)))).
  { apply list_elem_of_In, elem_of_map_to_list. cbn. apply lookup_insert_eq. }
  apply Hall in Hin. cbn [fst snd] in Hin. unfold matchCond in Hin.
  destruct (String.length _) as [|n]; cbn [matchCond_fuel] in Hin; rewrite Hs, Hc in Hin; discriminate.
Qed.

Definition mandatoryMessages : list string :=
  ["BR-01: An Invoice shall have an Invoice number (IBT-001)"; "BR-02: An Invoice shall have an Issue date (IBT-002)";
   "BR-NRS-01: Supplier PartyTaxScheme shall carry TIN"; "BR-06: An Invoice shall contain the Seller name (IBT-027)";
   "BR-07: An Invoice shall contain the Buyer name (IBT-044)"].

Lemma never_in_ubl inv duplicate ctx v :
  RuleContext inv duplicate = Some ctx -> fromRules rp_ubl_bis ctx v -> v_Message v ∉ mandatoryMessages.
Proof.
  intros Hc (r & [Hr Hm] & _ & ->). unfold violationOf. cbn [v_Message].
  assert (Hk : forall k, k ∈ ["invoice_number"; "issue_date"; "supplier_tin"; "supplier_name"; "customer_name"] -> ctxHas ctx k = true).
  { intros k. by apply (context_has inv duplicate). }
  cbn [Rules rp_ubl_bis] in Hr.
  repeat (apply elem_of_cons in Hr as [Er|Hr];
    [first [exfalso; revert Hm; rewrite Er; apply not_true_iff_false;
            first [eapply (exists_false_never "invoice_number"); [reflexivity|reflexivity|apply Hk; set_solver]
                  |eapply (exists_false_never "issue_date"); [reflexivity|reflexivity|apply Hk; set_solver]
                  |eapply (exists_false_never "supplier_tin"); [reflexivity|reflexivity|apply Hk; set_solver]
                  |eapply (exists_false_never "supplier_name"); [reflexivity|reflexivity|apply Hk; set_solver]
                  |eapply (exists_false_never "customer_name"); [reflexivity|reflexivity|apply Hk; set_solver]]
           |rewrite Er; clear; apply (bool_decide_eq_false_1 _); vm_compute; reflexivity]|]).
  by apply elem_of_nil in Hr.
Qed.

Lemma never_in_mbs ctx v : fromRules rp_mbs_business_rules ctx v -> v_Message v ∉ mandatoryMessages.
Proof.
  intros (r & [Hr _] & _ & ->). unfold violationOf. cbn [v_Message]. cbn [Rules rp_mbs_business_rules] in Hr.
  repeat (apply elem_of_cons in Hr as [Er|Hr];
    [rewrite Er; clear; apply (bool_decide_eq_false_1 _); vm_compute; reflexivity|]).
  by apply elem_of_nil in Hr.
Qed.

Lemma mbs_text_not_mandatory s : ("MBS-BR-0" +:+ s) ∉ mandatoryMessages.
Proof.
  intros Hs. unfold mandatoryMessages in Hs. rewrite !str_app_cons in Hs.
  repeat (apply elem_of_cons in Hs as [Hs|Hs]; [discriminate Hs|]). by apply elem_of_nil in Hs.
Qed.

(** The rules of the packs for missing mandatory fields never fire: the
    context always carries the invoice number, the issue date, the supplier's
    TIN and name and the customer's name, empty or not, and the rules test
    their presence.  No validated invoice is ever reported for one of them. *)
Theorem mandatory_rules_never_fire v inv duplicate vs fatal :
  eval v = standalone -> Validate v inv duplicate = Ok (vs, fatal) ->
  forall x, x ∈ vs -> v_Message x ∉ mandatoryMessages.
Proof.
  intros He Hv. destruct (RuleContext inv duplicate) as [ctx|] eqn:Hc; [|unfold Validate in Hv; by rewrite Hc in Hv].
  destruct (validate_exact' v inv duplicate ctx vs fatal He Hc Hv) as [Hall _]. intros x Hin.
  destruct (proj1 (Hall x) Hin) as [Hx|[Hx|[Hx|(d & Hd & Hx)]]].
  - by apply (never_in_ubl inv duplicate ctx).
  - by apply (never_in_mbs ctx).
  - unfold backdated in Hx. cases; try by apply elem_of_nil in Hx.
    apply list_elem_of_singleton in Hx as ->. apply (mbs_text_not_mandatory _).
  - unfold dead in Hd. cases; try by apply elem_of_nil in Hx.
    apply list_elem_of_singleton in Hx as ->. apply (mbs_text_not_mandatory _).
Qed.

(** An invoice without lines cannot be validated: building its context
    panics. *)
Lemma no_lines_panic v inv duplicate : Lines inv = [] <-> Validate v inv duplicate = Err vPanic.
Proof.
  split.
  - intros Hl. unfold Validate, RuleContext, categories. by rewrite Hl.
  - unfold Validate. destruct (RuleContext inv duplicate) as [ctx|] eqn:Hc.
    + destruct (vs ← _; _) as [vs|]; [|done]. by destruct (enforceMBSRules v inv).
    + intros _. unfold RuleContext in Hc. destruct (categories (Lines inv)) as [|c cs] eqn:E; [|done].
      destruct (Lines inv) as [|l ls] eqn:El; [done|]. exfalso.
      assert (Hin : VatCategory l ∈ categories (l :: ls)).
      { unfold categories. rewrite merge_sort_Permutation, elem_of_remove_dups. cbn [map]. apply list_elem_of_here. }
      rewrite E in Hin. by apply elem_of_nil in Hin.
Qed.

Definition demo_bare : CanonicalInvoice :=
  mkInvoice "x" "t1" "" "B2B" "2026-01-27" "" "NGN" (mkParty "1234567890123" "" "" "" "" "NG" "") (mkParty "" "" "" "" "" "NG" "")
    [mkLine "1" "Cement" 1000 10000 10000 "S" 750 750 []] 10000 750 10750 "" "" None "" "" "" "" "" "" "" "" "" "" ""
    [] "" [] None None.
Definition demo_validator : Validator := mkValidator standalone (1769500000 * second) None.

(** An invoice without number and without names passes. *)
Example bare_invoice_passes : Validate demo_validator demo_bare false = Ok ([], false).
Proof. vm_compute. reflexivity. Qed.

Lemma mandatory_rules_never_fire_witness : forall x : Violation, x ∈ [] -> v_Message x ∉ mandatoryMessages.
Proof.
  apply (mandatory_rules_never_fire demo_validator demo_bare false [] false); [reflexivity|vm_compute; reflexivity].
Defined.

Definition demo_unnumbered : CanonicalInvoice := demo_bare{{ PayableKobo := 10751 }}.

Definition demo_violation : Violation :=
  mkViolation "rp-mbs-business-rules@1.0.0" "MBS-BR-04: line totals do not reconcile with document totals" "fatal".

Lemma validate_exact_witness : true = true <-> exists x : Violation, x ∈ [demo_violation] /\ v_Severity x = "fatal".
Proof.
  destruct (RuleContext demo_unnumbered false) as [ctx|] eqn:E; [|vm_compute in E; discriminate E].
  apply (validate_exact demo_validator demo_unnumbered false ctx [demo_violation] true);
    [reflexivity|exact E|vm_compute; reflexivity].
Defined.
