(* ===== verification/RulePackLoad.v ===== *)
(** * Where rules come from (packages/shared/rulepack/rulepack.go, the registry
    client of services/einvoicing/validate.go)

    Packs are files [packs/<id>/<version>.yaml] of an override directory and of
    the binary; the latest version is the last file name.  The rules engine and
    the TIN registry are asked over HTTP.  The YAML and JSON decoders are
    parameters. *)

From S2P Require Import Prelude StrFacts GoAny EinvModel RulePack EinvValidate.

(** ** Files *)

(** By pack and file name *)
Abbreviation Files := (gmap (string * string) string).

(** The names under [packs/<id>], sorted, as Glob and ReadDir list them *)
Definition names (fs : Files) (id : string) : list string :=
  merge_sort String.le (omap (fun k => if bool_decide (k.1 = id) then Some k.2 else None) (map_to_list fs).*1).

Definition yamlNames (fs : Files) (id : string) : list string := List.filter (fun n => Str.has_suffix n ".yaml") (names fs id).

Definition versionOf (name : string) : string := Str.trim_suffix name ".yaml".

Section Packs.
(** [yaml.Unmarshal] on a pack *)
Variable decode : string -> option Pack.

Definition Parse (data : string) : option Pack := p ← decode data; parsedPack p.

Definition readPack (fs : Files) (id version : string) : option Pack := data ← fs !! (id, version +:+ ".yaml"); Parse data.

Definition Load (fs : Files) (id version : string) : option Pack :=
  if bool_decide (version = "") then name ← last (yamlNames fs id); readPack fs id (versionOf name) else readPack fs id version.

(** Embedded entries are not filtered. *)
Definition LoadEmbedded (fs : Files) (id version : string) : option Pack :=
  if bool_decide (version = "") then name ← last (names fs id); readPack fs id (versionOf name) else readPack fs id version.

(** ** The client of the rules engine *)

Record engineRequest := mkEngineRequest { en_url : string; en_pack : string; en_version : string; en_context : Attrs }.

Definition stripSlashes (s : string) : string :=
  let fix go s := match s with String "/" s => go s | _ => s end in Str.rev (go (Str.rev s)).

(** [net]: the status and the decoded body, if there is an answer *)
Definition engineEvaluate (net : engineRequest -> option (Z * option (Attrs * list TraceEntry))) (base packID version : string) (ctx : Attrs)
  : option EvalDecision :=
  if bool_decide (base = "") then None
  else match net (mkEngineRequest (stripSlashes base +:+ "/v1/evaluate") packID version ctx) with
       | Some (200, Some (attrs, trace)) => Some (mkDecision (packID +:+ "@" +:+ version) attrs trace)
       | _ => None
       end.

(** ** The evaluator *)

(** [Engine]: the base URL, empty when there is none; [PacksDir]: the files of
    the override directory, when one is named *)
Record Sources := mkSources {
  Engine : string;
  net : engineRequest -> option (Z * option (Attrs * list TraceEntry));
  PacksDir : option Files;
  embeddedFiles : Files;
}.

Definition loadLocal (s : Sources) (packID version : string) : option Pack :=
  match PacksDir s with
  | Some fs => match Load fs packID version with Some p => Some p | None => LoadEmbedded (embeddedFiles s) packID version end
  | None => LoadEmbedded (embeddedFiles s) packID version
  end.

Definition EvaluateFrom (s : Sources) (packID version : string) (ctx : Attrs) : option EvalDecision :=
  match engineEvaluate (net s) (Engine s) packID version ctx with
  | Some d => Some d
  | None => p ← loadLocal s packID version; Some (Evaluate p ctx)
  end.

(** The evaluator of RulePack.v made of these sources *)
Definition latest (s : Sources) : Evaluator :=
  mkEvaluator
    (if bool_decide (Engine s = "") then None
     else Some (fun packID ctx => match net s (mkEngineRequest (stripSlashes (Engine s) +:+ "/v1/evaluate") packID "" ctx) with
                                  | Some (200, Some a) => Some a | _ => None end))
    (fun id => fs ← PacksDir s; Load fs id "") (fun id => LoadEmbedded (embeddedFiles s) id "").

(** The evaluator of the validator is the one made of the rules engine, the
    override directory and the binary, in this order: asked for the latest
    version, the sources give the decision and the pack that it gives. *)
Theorem sources_refine s packID ctx :
  EvaluateFrom s packID "" ctx = EvaluateWith (latest s) packID ctx /\ loadLocal s packID "" = LoadPack (latest s) packID.
Proof.
  assert (Hl : loadLocal s packID "" = LoadPack (latest s) packID) by (unfold loadLocal, LoadPack; cbn; by destruct (PacksDir s)).
  split; [|exact Hl]. unfold EvaluateFrom, EvaluateWith, engineEvaluate. rewrite Hl. unfold latest at 2. cbn [engine].
  case_bool_decide as He; [done|]. destruct (net s _) as [[code body]|]; [|done].
  destruct (decide (code = 200)) as [->|Hc]; [destruct body as [[attrs trace]|]; [by rewrite str_app_nil_r|done]|].
  assert (E : forall A (x y : A), match code with 200 => x | _ => y end = y).
  { intros A x y. destruct code as [|c|c]; try done. do 9 (destruct c as [c|c|]; try done). }
  by rewrite !E.
Qed.

(** ** Which version is the latest *)

Lemma names_elem fs id n : n ∈ names fs id <-> is_Some (fs !! (id, n)).
Proof.
  unfold names. rewrite merge_sort_Permutation, list_elem_of_omap. split.
  - intros ([i m] & Hin & Hn). cbn in Hn. case_bool_decide as Hi; [|done]. subst i. injection Hn as ->.
    apply list_elem_of_fmap in Hin as ([k v] & Hk & Hin%elem_of_map_to_list). cbn in Hk. subst k. by exists v.
  - intros [v Hv]. exists (id, n). split; [|cbn; by rewrite bool_decide_eq_true_2]. apply list_elem_of_fmap. exists ((id, n), v).
    split; [done|]. by apply elem_of_map_to_list.
Qed.

Lemma yaml_elem fs id n : n ∈ yamlNames fs id <-> is_Some (fs !! (id, n)) /\ Str.has_suffix n ".yaml" = true.
Proof. unfold yamlNames. rewrite list_elem_of_In, filter_In, <- list_elem_of_In, names_elem. done. Qed.

Lemma sorted_filter (f : string -> bool) l : Sorted String.le l -> Sorted String.le (List.filter f l).
Proof.
  intros Hs. apply Sorted_StronglySorted in Hs; [|intros x y z; apply transitivity]. apply StronglySorted_Sorted.
  induction Hs as [|x l Hs IH Hx]; [constructor|]. cbn [List.filter]. destruct (f x); [|done]. constructor; [done|].
  apply Forall_forall. intros y Hy. rewrite Forall_forall in Hx. apply Hx. apply list_elem_of_In in Hy. apply filter_In in Hy as [Hy _]. by apply list_elem_of_In.
Qed.

Lemma sorted_last l n : Sorted String.le l -> last l = Some n -> forall m, m ∈ l -> String.le m n.
Proof.
  intros Hs Hn m Hm. apply Sorted_StronglySorted in Hs; [|intros x y z; apply transitivity].
  apply last_Some in Hn as [l' ->]. apply StronglySorted_app in Hs as (Hs & _ & _). apply elem_of_app in Hm as [Hm|Hm]; [|apply list_elem_of_singleton in Hm; by subst m].
  apply (Hs m n); [exact Hm|by apply list_elem_of_singleton].
Qed.

(** The latest version of the override directory is the one whose file name
    sorts last, and there is one exactly when the pack has a file. *)
Theorem load_latest fs id :
  (yamlNames fs id = [] /\ Load fs id "" = None) \/
  exists v, is_Some (fs !! (id, v +:+ ".yaml")) /\ Load fs id "" = readPack fs id v /\
    forall v', is_Some (fs !! (id, v' +:+ ".yaml")) -> String.le (v' +:+ ".yaml") (v +:+ ".yaml").
Proof.
  assert (Hs : Sorted String.le (yamlNames fs id)) by (apply sorted_filter, Sorted_merge_sort; apply _).
  unfold Load. rewrite bool_decide_eq_true_2 by done. destruct (last (yamlNames fs id)) as [n|] eqn:E.
  - right. assert (Hin : n ∈ yamlNames fs id) by by apply last_Some_elem_of.
    apply yaml_elem in Hin as [Hf Hx]. destruct (has_suffix_app _ _ Hx) as [v ->]. exists v. split; [done|]. split.
    + cbn [mbind option_bind]. unfold versionOf. by rewrite trim_suffix_app.
    + intros v' Hv'. apply (sorted_last _ _ Hs E). apply yaml_elem. split; [done|]. unfold Str.has_suffix. rewrite rev_app. apply prefix_app.
  - left. by apply last_None in E as ->.
Qed.

Definition semver (a b c : N) : string := pretty a +:+ "." +:+ pretty b +:+ "." +:+ pretty c.

Definition semver_le (t t' : N * N * N) : Prop :=
  let '(a, b, c) := t in let '(a', b', c') := t' in
  (a < a')%N \/ (a = a' /\ ((b < b')%N \/ (b = b' /\ (c <= c')%N))).

Definition digit (n : N) : ascii := Ascii.ascii_of_N (48 + n).

Lemma in_range (lo k : nat) (n : N) : (N.of_nat lo <= n < N.of_nat (lo + k))%N -> n ∈ map N.of_nat (seq lo k).
Proof. intros Hn. apply list_elem_of_fmap. exists (N.to_nat n). split; [lia|]. apply elem_of_seq. lia. Qed.

Lemma small_cases (n : N) : (n < 10)%N -> n ∈ map N.of_nat (seq 0 10).
Proof. intros Hn. apply (in_range 0 10). lia. Qed.

Lemma pretty_digit n : (n < 10)%N -> pretty n = String (digit n) "".
Proof. intros Hn%small_cases. revert n Hn. apply Forall_forall. repeat constructor. Qed.

Lemma digit_compare n m : (n < 10)%N -> (m < 10)%N -> Ascii.compare (digit n) (digit m) = N.compare n m.
Proof.
  intros Hn%small_cases Hm%small_cases. revert n Hn m Hm. apply (Forall_forall (fun n => forall m, m ∈ map N.of_nat (seq 0 10) -> Ascii.compare (digit n) (digit m) = N.compare n m)).
  repeat constructor; apply Forall_forall; repeat constructor.
Qed.

Lemma compare_cons c d s t : String.compare (String c s) (String d t) = match Ascii.compare c d with Eq => String.compare s t | x => x end.
Proof. done. Qed.

Lemma compare_dot s t : String.compare (String "." s) (String "." t) = String.compare s t.
Proof. done. Qed.

Lemma semver_sorted a b c a' b' c' : (a < 10)%N -> (b < 10)%N -> (c < 10)%N -> (a' < 10)%N -> (b' < 10)%N -> (c' < 10)%N ->
  String.le (semver a b c +:+ ".yaml") (semver a' b' c' +:+ ".yaml") -> semver_le (a, b, c) (a', b', c').
Proof.
  intros Ha Hb Hc Ha' Hb' Hc'. unfold semver. rewrite !pretty_digit by done.
  change ((String (digit a) "" +:+ "." +:+ String (digit b) "" +:+ "." +:+ String (digit c) "") +:+ ".yaml")
    with (String (digit a) (String "." (String (digit b) (String "." (String (digit c) ".yaml"))))).
  change ((String (digit a') "" +:+ "." +:+ String (digit b') "" +:+ "." +:+ String (digit c') "") +:+ ".yaml")
    with (String (digit a') (String "." (String (digit b') (String "." (String (digit c') ".yaml"))))).
  unfold String.le, String.leb. rewrite compare_cons, digit_compare by done.
  destruct (N.compare_spec a a'); [subst a'|intros _; by left|done]. rewrite compare_dot, compare_cons, digit_compare by done.
  destruct (N.compare_spec b b'); [subst b'|intros _; right; split; [done|by left]|done]. rewrite compare_dot, compare_cons, digit_compare by done.
  destruct (N.compare_spec c c'); [subst c'| |done]; intros _; right; (split; [done|]); right; split; try done; lia.
Qed.

(** As long as no part of a version exceeds nine, the latest version is the
    newest. *)
Theorem latest_is_newest fs id :
  (forall v, is_Some (fs !! (id, v +:+ ".yaml")) -> exists a b c, v = semver a b c /\ (a < 10 /\ b < 10 /\ c < 10)%N) ->
  (exists v, is_Some (fs !! (id, v +:+ ".yaml"))) ->
  exists a b c, Load fs id "" = readPack fs id (semver a b c) /\ is_Some (fs !! (id, semver a b c +:+ ".yaml")) /\
    forall a' b' c', is_Some (fs !! (id, semver a' b' c' +:+ ".yaml")) -> (a' < 10 /\ b' < 10 /\ c' < 10)%N -> semver_le (a', b', c') (a, b, c).
Proof.
  intros Hsmall [v0 Hv0]. destruct (load_latest fs id) as [[Hn _]|(v & Hv & Hl & Hmax)].
  - assert (Hin : v0 +:+ ".yaml" ∈ yamlNames fs id).
    { apply yaml_elem. split; [done|]. unfold Str.has_suffix. rewrite rev_app. apply prefix_app. }
    rewrite Hn in Hin. by apply not_elem_of_nil in Hin.
  - destruct (Hsmall v Hv) as (a & b & c & -> & Ha & Hb & Hc). exists a, b, c. split; [done|]. split; [done|].
    intros a' b' c' Hs (Ha' & Hb' & Hc'). apply semver_sorted; try done. by apply Hmax.
Qed.

(** The tenth release is never the latest: while the ninth is there, none
    from the tenth to the eighty-ninth is loaded, although each is newer. *)
Theorem tenth_release_never_latest fs id : is_Some (fs !! (id, "1.9.0.yaml")) ->
  exists v, Load fs id "" = readPack fs id v /\ forall n c, (10 <= n < 90)%N -> v <> semver 1 n c.
Proof.
  intros H9. destruct (load_latest fs id) as [[Hn _]|(v & Hv & Hl & Hmax)].
  - assert (Hin : "1.9.0.yaml" ∈ yamlNames fs id) by by apply yaml_elem. rewrite Hn in Hin. by apply not_elem_of_nil in Hin.
  - exists v. split; [done|]. intros n c Hn ->. specialize (Hmax "1.9.0" H9). revert Hmax. unfold semver.
    assert (Hd : exists d r, pretty n = String d r /\ Ascii.compare "9" d = Gt).
    { assert (Hin : n ∈ map N.of_nat (seq 10 80)) by (apply (in_range 10 80); lia). revert n Hin Hn Hv Hl. clear. intros n Hin _ _ _. revert n Hin.
      apply Forall_forall. repeat constructor; eexists _, _; split; reflexivity. }
    destruct Hd as (d & r & -> & Hd). unfold String.le, String.leb.
    change ((pretty 1%N +:+ "." +:+ String d r +:+ "." +:+ pretty c) +:+ ".yaml") with (String "1" (String "." (String d ((r +:+ "." +:+ pretty c) +:+ ".yaml")))).
    change ("1.9.0" +:+ ".yaml") with (String "1" (String "." (String "9" ".0.yaml"))). rewrite !compare_cons. cbn [Ascii.compare]. 
    change (Ascii.compare "1" "1") with Eq. change (Ascii.compare "." ".") with Eq. cbv iota. by rewrite Hd.
Qed.
End Packs.

(** ** The registry of taxpayers *)

(** [get]: the status and the decoded field of the answer to a URL *)
Definition httpTINStatus (get : string -> option (Z * option string)) (base tin : string) : option string :=
  match get (base +:+ "/v1/tins/" +:+ tin) with
  | None => None
  | Some (code, status) => if code =? 404 then Some "unknown" else if negb (code =? 200) then None else status
  end.

Definition registryOf (get : string -> option (Z * option string)) (url : string) : option (string -> option string) :=
  let base := stripSlashes url in if bool_decide (base = "") then None else Some (httpTINStatus get base).

(** [NewValidator], with its clock *)
Definition NewValidator (decode : string -> option Pack) (s : Sources) (get : string -> option (Z * option string)) (tinGraphURL : string) (now : Z) : Validator :=
  mkValidator (latest decode s) now (registryOf get tinGraphURL).

Definition PackVersions (e : Evaluator) : gmap string string :=
  list_to_map (omap (fun id => (fun p => (id, Ref p)) <$> LoadPack e id) ["rp-ubl-bis"; "rp-mbs-business-rules"]).

(** With a registry configured, an invoice whose supplier is not known
    there as active is never let through by the MBS rules: when the answer is
    anything but 200 with the status active, validation either fails or finds
    a fatal violation - an unreachable registry and a broken answer included. *)
Theorem unregistered_supplier_rejected decode s get url now inv p :
  let v := NewValidator decode s get url now in
  stripSlashes url <> "" -> LoadPack (eval v) "rp-mbs-business-rules" = Some p -> packRule p "mbs.tin.live" <> None ->
  Str.trim_space (TIN (Supplier inv)) <> "" ->
  get (stripSlashes url +:+ "/v1/tins/" +:+ Str.trim_space (TIN (Supplier inv))) <> Some (200, Some "active") ->
  match enforceMBSRules v inv with None => True | Some vs => exists x, x ∈ vs /\ v_Severity x = "fatal" /\ v_Pack x = Ref p end.
Proof.
  intros v Hu Hp Hr Ht Hg. unfold enforceMBSRules. rewrite Hp. cbn [mbind option_bind]. unfold dead.
  destruct (packRule p "mbs.tin.live"); [|done]. assert (Es : tinStatus v = Some (httpTINStatus get (stripSlashes url))).
  { unfold v, NewValidator, registryOf. cbn [tinStatus]. by rewrite bool_decide_eq_false_2. }
  rewrite Es, bool_decide_eq_false_2 by done. destruct (httpTINStatus get _ _) as [st|] eqn:E; [|done].
  assert (Hst : st <> "active").
  { intros ->. revert E. unfold httpTINStatus. destruct (get _) as [[code status]|]; [|done].
    destruct (Z.eqb_spec code 404); [done|]. destruct (Z.eqb_spec code 200); [|done]. cbn [negb]. intros ->. by subst code. }
  rewrite bool_decide_eq_false_2 by done. cbn [mbind option_bind]. eexists. split; [apply elem_of_app; right; apply list_elem_of_singleton; reflexivity|]. done.
Qed.

(** ** The properties at concrete inputs *)

Definition toyPack (version : string) : Pack := mkPack "rp" version [].
(** Packs that decode to their own text *)
Definition toyDecode (data : string) : option Pack := Some (toyPack data).

Definition demo_files : Files := {[ ("rp", "1.8.0.yaml") := "1.8.0"; ("rp", "1.9.0.yaml") := "1.9.0" ]}.
Definition demo_files_10 : Files := <[ ("rp", "1.10.0.yaml") := "1.10.0" ]> demo_files.

Lemma version_name v : versionOf (v +:+ ".yaml") = v.
Proof. unfold versionOf. apply trim_suffix_app. unfold Str.has_suffix. rewrite rev_app. apply prefix_app. Qed.

Lemma demo_names v : is_Some (demo_files !! ("rp", v +:+ ".yaml")) -> v = "1.8.0" \/ v = "1.9.0".
Proof.
  intros [x Hx]. unfold demo_files in Hx. apply lookup_insert_Some in Hx as [[[= E] _]|[_ Hx]]; [left|right].
  - by rewrite <- (version_name v), <- E.
  - apply lookup_singleton_Some in Hx as [[= E] _]. by rewrite <- (version_name v), <- E.
Qed.

Lemma latest_is_newest_witness :
  exists a b c, Load toyDecode demo_files "rp" "" = readPack toyDecode demo_files "rp" (semver a b c) /\
    is_Some (demo_files !! ("rp", semver a b c +:+ ".yaml")) /\
    forall a' b' c', is_Some (demo_files !! ("rp", semver a' b' c' +:+ ".yaml")) -> (a' < 10 /\ b' < 10 /\ c' < 10)%N -> semver_le (a', b', c') (a, b, c).
Proof.
  apply (latest_is_newest toyDecode demo_files "rp").
  - intros v [-> | ->]%demo_names; [exists 1%N, 8%N, 0%N|exists 1%N, 9%N, 0%N]; (split; [reflexivity|done]).
  - exists "1.9.0". vm_compute. by eexists.
Defined.

Lemma tenth_release_never_latest_witness :
  exists v, Load toyDecode demo_files_10 "rp" "" = readPack toyDecode demo_files_10 "rp" v /\ forall n c, (10 <= n < 90)%N -> v <> semver 1 n c.
Proof. apply (tenth_release_never_latest toyDecode demo_files_10 "rp"). vm_compute. by eexists. Defined.

(** Version 1.10.0 is there, and 1.9.0 is loaded. *)
Example tenth_release : p_ID <$> Load toyDecode demo_files_10 "rp" "1.10.0" = Some "rp" /\ Version <$> Load toyDecode demo_files_10 "rp" "" = Some "1.9.0".
Proof. vm_compute. done. Qed.

Definition mbsDecode (data : string) : option Pack := Some rp_mbs_business_rules.
Definition demo_sources : Sources := mkSources "" (fun _ => None) None {[ ("rp-mbs-business-rules", "1.0.0.yaml") := "mbs" ]}.
Definition demo_get (url : string) : option (Z * option string) := Some (200, Some "suspended").

Lemma unregistered_supplier_rejected_witness :
  match enforceMBSRules (NewValidator mbsDecode demo_sources demo_get "https://tin.example/" 0) demo_bare with
  | None => True
  | Some vs => exists x, x ∈ vs /\ v_Severity x = "fatal" /\ v_Pack x = Ref rp_mbs_business_rules
  end.
Proof.
  apply (unregistered_supplier_rejected mbsDecode demo_sources demo_get "https://tin.example/" 0 demo_bare rp_mbs_business_rules).
  - vm_compute. discriminate.
  - vm_compute. reflexivity.
  - vm_compute. discriminate.
  - vm_compute. discriminate.
  - vm_compute. discriminate.
Defined.
