(* ===== verification/EinvSchema.v ===== *)
(** * einvoicing: the NRS schema and its catalogs (services/einvoicing/
    nrs_schema.go, catalogs.go)

    The payload of the authority, its validation against the catalogs, and the
    conversion to the canonical invoice and back.  Amounts are binary64 only
    here: they become integer kobo at this boundary.  The decoding of JSON
    leaves a record with zero values for what is absent. *)

From S2P Require Import Prelude StrFacts Crypto GoAny Yaml GoFmt RulePack EinvIrn EinvModel.

(** ** Catalogs *)

Record TaxCategory := mkTaxCategory { t_ID : string; RateBps : Z; Canonical : string; Label : string }.

Definition TaxCategories : list (string * TaxCategory) := [
  ("STANDARD_VAT", mkTaxCategory "STANDARD_VAT" 750 "S" "Standard VAT 7.5%");
  ("ZERO_VAT", mkTaxCategory "ZERO_VAT" 0 "Z" "Zero-rated VAT 0%");
  ("EXEMPT", mkTaxCategory "EXEMPT" 0 "E" "VAT exempt");
  ("VAT_EXEMPT", mkTaxCategory "VAT_EXEMPT" 0 "E" "VAT exempt (alias)");
  ("NON_VAT", mkTaxCategory "NON_VAT" 0 "E" "Outside scope of VAT")].

Fixpoint assoc {A} (k : string) (l : list (string * A)) : option A :=
  match l with
  | [] => None
  | (k', x) :: l => if bool_decide (k = k') then Some x else assoc k l
  end.

Definition upTrim (s : string) : string := Str.to_upper (Str.trim_space s).

Definition ValidTaxCategory (id : string) : option TaxCategory := assoc (upTrim id) TaxCategories.

Definition InvoiceTypeCodes : list string := ["380"; "381"; "383"; "384"; "386"; "389"; "751"].
Definition ValidInvoiceTypeCode (code : string) : bool := bool_decide (Str.trim_space code ∈ InvoiceTypeCodes).

Definition PaymentMeansCodes : list string := ["1"; "10"; "20"; "30"; "31"; "42"; "48"; "49"; "97"].
Definition ValidPaymentMeansCode (code : string) : bool := bool_decide (Str.trim_space code ∈ PaymentMeansCodes).

Definition StateCodes : list string := [
  "NG-AB"; "NG-AD"; "NG-AK"; "NG-AN"; "NG-BA"; "NG-BY"; "NG-BE"; "NG-BO"; "NG-CR"; "NG-DE"; "NG-EB"; "NG-ED";
  "NG-EK"; "NG-EN"; "NG-FC"; "NG-GO"; "NG-IM"; "NG-JI"; "NG-KD"; "NG-KN"; "NG-KT"; "NG-KE"; "NG-KO"; "NG-KW";
  "NG-LA"; "NG-NA"; "NG-NI"; "NG-OG"; "NG-ON"; "NG-OS"; "NG-OY"; "NG-PL"; "NG-RI"; "NG-SO"; "NG-TA"; "NG-YO"; "NG-ZA"].
Definition ValidStateCode (code : string) : bool := bool_decide (upTrim code ∈ StateCodes).

Definition LGACodes : list string := [
  "NG-AB-ANO"; "NG-AB-ASO"; "NG-AB-ARN"; "NG-AB-BEN"; "NG-AB-IKW"; "NG-AB-IAL"; "NG-AB-IAS"; "NG-AB-ISU"; "NG-AB-OBN";
  "NG-AB-OHA"; "NG-AB-OSF"; "NG-AB-UGW"; "NG-AB-UKW"; "NG-AB-UKE"; "NG-AB-UMN"; "NG-AB-UMS"; "NG-AB-UNN";
  "NG-LA-AGE"; "NG-LA-AJE"; "NG-LA-ALI"; "NG-LA-AMU"; "NG-LA-APA"; "NG-LA-BAD"; "NG-LA-EPE"; "NG-LA-ETI"; "NG-LA-IBE";
  "NG-LA-IFK"; "NG-LA-IKE"; "NG-LA-IKO"; "NG-LA-KOS"; "NG-LA-LAI"; "NG-LA-LAM"; "NG-LA-MUS"; "NG-LA-OJO"; "NG-LA-OSH";
  "NG-LA-SOM"; "NG-LA-SUR"; "NG-FC-ABC"; "NG-FC-AMC"; "NG-FC-BWA"; "NG-FC-GWA"; "NG-FC-KUJ"; "NG-FC-KWL"].

Definition is_upper (c : ascii) : bool := let n := Ascii.nat_of_ascii c in (65 <=? n)%nat && (n <=? 90)%nat.

(** [^NG-\[A-Z\]{2}-\[A-Z\]{3}$] *)
Definition lgaPattern (s : string) : bool :=
  match s with
  | String n (String g (String h1 (String a (String b (String h2 (String c (String d (String e EmptyString)))))))) =>
      bool_decide (n = "N"%char) && bool_decide (g = "G"%char) && bool_decide (h1 = "-"%char) && bool_decide (h2 = "-"%char) &&
      is_upper a && is_upper b && is_upper c && is_upper d && is_upper e
  | _ => false
  end.

Definition ValidLGACode (code : string) : bool :=
  let code := upTrim code in
  bool_decide (code ∈ LGACodes) || (lgaPattern code && ValidStateCode (Str.take 5 code)).

Definition Currencies : list string :=
  ["NGN"; "USD"; "EUR"; "GBP"; "GHS"; "KES"; "ZAR"; "XOF"; "XAF"; "CNY"; "JPY"; "CHF"; "CAD"; "AED"; "SAR"].
Definition ValidCurrency (code : string) : bool := bool_decide (upTrim code ∈ Currencies).

(** [^\[0-9\]{4,8}$] *)
Definition ValidHSNCode (code : string) : bool :=
  let code := Str.trim_space code in
  Str.all Str.is_digit code && (4 <=? String.length code)%nat && (String.length code <=? 8)%nat.

Definition PaymentStatuses : list string := ["PENDING"; "PAID"; "REJECTED"].
Definition ValidPaymentStatus (s : string) : bool := bool_decide (upTrim s ∈ PaymentStatuses).

(** ** Amounts *)

(** The value in millionths, to the nearest and to even on a tie: the digits
    of [strconv.FormatFloat(f, 'f', 6, 64)] *)
Definition micros (m : positive) (e : Z) : Z :=
  if 0 <=? e then Z.pos m * 2 ^ e * 1000000
  else
    let d := 2 ^ (- e) in
    let n := Z.pos m * 1000000 in
    let q := n / d in
    let r := n mod d in
    if 2 * r <? d then q else if d <? 2 * r then q + 1 else if Z.even q then q else q + 1.

(** [strconv.ParseInt] on digits: the largest number when it is out of range *)
Definition clamp64 (z : Z) : Z := if two63 <=? z then two63 - 1 else z.

(** Kobo of an amount of [u] millionths: the first two decimals, one more when
    the third is five or above *)
Definition koboOf (neg : bool) (u : Z) : Z :=
  let units := clamp64 (u / 1000000) in
  let frac := u mod 1000000 in
  let cents := frac / 10000 +! (if 5 <=? frac / 1000 mod 10 then 1 else 0) in
  let kobo := units *! 100 +! cents in
  if neg then -! kobo else kobo.

(** JSON has no infinity and no NaN. *)
Definition NGNToKobo (ngn : spec_float) : Z :=
  match ngn with
  | S754_finite s m e => koboOf s (micros m e)
  | _ => 0
  end.

Definition fdiv := SFdiv 53 1024.
Definition fmul := SFmul 53 1024.
Definition KoboToNGN (kobo : Z) : spec_float := fdiv (float_of_int kobo) (float_of_int 100).

(** [int64(math.Round(f))], half away from zero *)
Definition roundInt (f : spec_float) : Z :=
  match f with
  | S754_zero _ => 0
  | S754_finite s m e =>
      let z := if 0 <=? e then Z.pos m * 2 ^ e else (2 * Z.pos m + 2 ^ (- e)) / (2 * 2 ^ (- e)) in
      let z := if s then - z else z in
      if decide (in64 z) then z else - two63
  | _ => - two63
  end.

(** ** The payload *)

Record NRSPostalAddress := mkAddress {
  StreetName : string; CityName : string; PostalZone : string; a_Country : string; a_State : string; LGA : string;
}.
Record NRSParty := mkNRSParty {
  PartyName : string; n_TIN : string; n_Email : string; Telephone : string; BusinessDescription : string;
  PostalAddress : NRSPostalAddress;
}.
Record NRSItem := mkItem { i_Name : string; i_Description : string; SellersItemIdentification : string }.
Record NRSPrice := mkPrice { PriceAmount : spec_float; BaseQuantity : spec_float; PriceUnit : string }.
Record NRSInvoiceLine := mkNRSLine {
  HSNCode : string;
  ProductCategory : string;
  DiscountRate : spec_float;
  DiscountAmount : spec_float;
  FeeRate : spec_float;
  FeeAmount : spec_float;
  InvoicedQuantity : spec_float;
  LineExtensionAmount : spec_float;
  Item : NRSItem;
  Price : NRSPrice;
}.
Record NRSAllowanceCharge := mkAllowance { ac_Amount : spec_float; ChargeIndicator : bool }.
Record NRSTaxCategory := mkNRSTaxCategory { tc_ID : string; Percent : spec_float }.
Record NRSTaxSubtotal := mkSubtotal { TaxableAmount : spec_float; ts_TaxAmount : spec_float; ts_TaxCategory : NRSTaxCategory }.
Record NRSTaxTotal := mkTaxTotal { tt_TaxAmount : spec_float; TaxSubtotal : list NRSTaxSubtotal }.
Record NRSPaymentMeans := mkMeans { PaymentDueDate : string; PaymentMeansCode : string }.
Record NRSLegalMonetaryTotal := mkMonetary {
  lm_LineExtensionAmount : spec_float; TaxExclusiveAmount : spec_float; TaxInclusiveAmount : spec_float; PayableAmount : spec_float;
}.
Record NRSInvoiceDeliveryPeriod := mkDelivery { StartDate : string; EndDate : string }.

Record NRSInvoice := mkNRS {
  n_BusinessID : string;
  n_IRN : string;
  n_IssueDate : string;
  n_DueDate : string;
  IssueTime : string;
  n_InvoiceTypeCode : string;
  TaxPointDate : string;
  DocumentCurrencyCode : string;
  TaxCurrencyCode : string;
  InvoiceKind : string;
  n_PaymentStatus : string;
  Note : string;
  BuyerReference : string;
  OrderReference : string;
  AccountingCost : string;
  PaymentTermsNote : string;
  ActualDeliveryDate : string;
  InvoiceDeliveryPeriod : NRSInvoiceDeliveryPeriod;
  AccountingSupplierParty : NRSParty;
  AccountingCustomerParty : NRSParty;
  n_InvoiceLine : list NRSInvoiceLine;
  AllowanceCharge : list NRSAllowanceCharge;
  TaxTotal : list NRSTaxTotal;
  PaymentMeans : list NRSPaymentMeans;
  LegalMonetaryTotal : NRSLegalMonetaryTotal;
}.

(** ** Validation *)

Record NRSError := mkNRSError { Field : string; Code : string; Message : string }.
#[export] Instance NRSError_eq_dec : EqDecision NRSError.
Proof. solve_decision. Defined.

Definition quoted (s : string) : string := String "034" (s +:+ String "034" "").

(** For a value whose quotation needs no escape *)
Definition catalogError (field value catalog : string) : string :=
  field +:+ ": value " +:+ quoted value +:+ " not in " +:+ catalog +:+ " catalog".

(** [if cond { errs.add(...) }] *)
Definition add (cond : bool) (field code msg : string) : list NRSError := if cond then [mkNRSError field code msg] else [].

Definition blank (v : string) : bool := bool_decide (Str.trim_space v = "").
Definition given (v : string) : bool := negb (bool_decide (v = "")).
Definition req (field v : string) : list NRSError := add (blank v) field "REQUIRED" (field +:+ " is required").

Definition validateNRSParty (field : string) (p : NRSParty) (requireTIN : bool) : list NRSError :=
  let addr := PostalAddress p in
  add (blank (PartyName p)) (field +:+ ".party_name") "REQUIRED" (field +:+ " party_name is required") ++
  add (requireTIN && blank (n_TIN p)) (field +:+ ".tin") "REQUIRED" (field +:+ " tin is required") ++
  add (given (a_State addr) && negb (ValidStateCode (a_State addr))) (field +:+ ".postal_address.state") "CATALOG"
    (catalogError (field +:+ ".postal_address.state") (a_State addr) "state") ++
  add (given (LGA addr) && negb (ValidLGACode (LGA addr))) (field +:+ ".postal_address.lga") "CATALOG"
    (catalogError (field +:+ ".postal_address.lga") (LGA addr) "lga").

Definition fzero : spec_float := S754_zero false.
Definition indexed (s : string) (i : nat) : string := s +:+ "[" +:+ pretty (Z.of_nat i) +:+ "]".

Definition validateLine (i : nat) (l : NRSInvoiceLine) : list NRSError :=
  let f := indexed "invoice_line" i in
  add (blank (i_Name (Item l))) (f +:+ ".item.name") "REQUIRED" "line item name is required" ++
  add (SFleb (InvoicedQuantity l) fzero) (f +:+ ".invoiced_quantity") "INVALID" "invoiced_quantity must be > 0" ++
  add (SFltb (PriceAmount (Price l)) fzero) (f +:+ ".price.price_amount") "INVALID" "price_amount must be >= 0" ++
  add (SFltb (LineExtensionAmount l) fzero) (f +:+ ".line_extension_amount") "INVALID" "line_extension_amount must be >= 0" ++
  add (given (HSNCode l) && negb (ValidHSNCode (HSNCode l))) (f +:+ ".hsn_code") "CATALOG"
    (catalogError (f +:+ ".hsn_code") (HSNCode l) "hsn").

Definition validateSubtotal (i j : nat) (st : NRSTaxSubtotal) : list NRSError :=
  add (match ValidTaxCategory (tc_ID (ts_TaxCategory st)) with None => true | Some _ => false end)
    (indexed "tax_total" i +:+ indexed ".tax_subtotal" j +:+ ".tax_category.id") "CATALOG"
    (catalogError "tax_category.id" (tc_ID (ts_TaxCategory st)) "tax-category").

Definition validateMeans (i : nat) (pm : NRSPaymentMeans) : list NRSError :=
  add (negb (ValidPaymentMeansCode (PaymentMeansCode pm))) (indexed "payment_means" i +:+ ".payment_means_code") "CATALOG"
    (catalogError "payment_means_code" (PaymentMeansCode pm) "payment-means").

(** [for i, x := range l] *)
Definition eachOf {A B} (f : nat -> A -> list B) (l : list A) : list B := concat (imap f l).

Definition Validate (n : NRSInvoice) : list NRSError :=
  req "business_id" (n_BusinessID n) ++ req "issue_date" (n_IssueDate n) ++
  req "invoice_type_code" (n_InvoiceTypeCode n) ++ req "document_currency_code" (DocumentCurrencyCode n) ++
  add (given (n_IRN n) && negb (ValidIRN (n_IRN n))) "irn" "INVALID" "irn must be <InvoiceNumber>-<ServiceID>-<YYYYMMDD>" ++
  add (given (n_InvoiceTypeCode n) && negb (ValidInvoiceTypeCode (n_InvoiceTypeCode n))) "invoice_type_code" "CATALOG"
    (catalogError "invoice_type_code" (n_InvoiceTypeCode n) "invoice-type") ++
  add (given (DocumentCurrencyCode n) && negb (ValidCurrency (DocumentCurrencyCode n))) "document_currency_code" "CATALOG"
    (catalogError "document_currency_code" (DocumentCurrencyCode n) "currency") ++
  add (given (TaxCurrencyCode n) && negb (ValidCurrency (TaxCurrencyCode n))) "tax_currency_code" "CATALOG"
    (catalogError "tax_currency_code" (TaxCurrencyCode n) "currency") ++
  add (given (n_PaymentStatus n) && negb (ValidPaymentStatus (n_PaymentStatus n))) "payment_status" "INVALID"
    "payment_status must be PENDING|PAID|REJECTED" ++
  validateNRSParty "accounting_supplier_party" (AccountingSupplierParty n) true ++
  validateNRSParty "accounting_customer_party" (AccountingCustomerParty n) false ++
  add (match n_InvoiceLine n with [] => true | _ => false end) "invoice_line" "REQUIRED" "at least one invoice line is required" ++
  eachOf validateLine (n_InvoiceLine n) ++
  eachOf (fun i tt => eachOf (validateSubtotal i) (TaxSubtotal tt)) (TaxTotal n) ++
  eachOf validateMeans (PaymentMeans n) ++
  add (SFltb (PayableAmount (LegalMonetaryTotal n)) fzero) "legal_monetary_total.payable_amount" "INVALID"
    "payable_amount must be >= 0".

(** ** Conversion *)

Definition standardVAT : TaxCategory := mkTaxCategory "STANDARD_VAT" 750 "S" "Standard VAT 7.5%".

Definition firstTaxCategory (n : NRSInvoice) : TaxCategory :=
  match omap (fun st => ValidTaxCategory (tc_ID (ts_TaxCategory st))) (concat (map TaxSubtotal (TaxTotal n))) with
  | c :: _ => c
  | [] => standardVAT
  end.

Definition partyFromNRS (p : NRSParty) : Party :=
  mkParty (n_TIN p) (PartyName p) (StreetName (PostalAddress p)) (CityName (PostalAddress p)) (a_State (PostalAddress p))
    (a_Country (PostalAddress p)) (n_Email p).

Definition emDash : string := String "226" (String "128" (String "148" "")).

Definition lineDescription (l : NRSInvoiceLine) : string :=
  let d := if bool_decide (i_Description (Item l) = "") then i_Name (Item l)
           else i_Name (Item l) +:+ " " +:+ emDash +:+ " " +:+ i_Description (Item l) in
  if bool_decide (HSNCode l = "") then d else "[" +:+ HSNCode l +:+ "] " +:+ d.

Definition lineFromNRS (cat : TaxCategory) (i : nat) (l : NRSInvoiceLine) : InvoiceLine :=
  let q := roundInt (fmul (InvoicedQuantity l) (float_of_int 1000)) in
  let price := NGNToKobo (PriceAmount (Price l)) in
  let declared := NGNToKobo (LineExtensionAmount l) in
  let total := if declared =? 0
               then (q *! price) /! 1000 -! NGNToKobo (DiscountAmount l) +! NGNToKobo (FeeAmount l) else declared in
  mkLine (pretty (Z.of_nat i + 1)) (lineDescription l) q price total (Canonical cat) (RateBps cat)
    (RoundBpsHalfUp total (RateBps cat)) [].

(** The first declared tax amount that is not zero kobo *)
Definition declaredTax (tts : list NRSTaxTotal) : Z :=
  match List.filter (fun k => negb (k =? 0)) (map (fun tt => NGNToKobo (tt_TaxAmount tt)) tts) with
  | k :: _ => k
  | [] => 0
  end.

Definition orElse (a b : Z) : Z := if a =? 0 then b else a.

Definition numberFromNRS (n : NRSInvoice) (irn : string) : string :=
  let num := match ParseIRN irn with
             | Ok (num, _, _) => if bool_decide (irn = "") then BuyerReference n else num
             | Err _ => BuyerReference n
             end in
  Str.or_default num (OrderReference n).

Definition FromNRS (n : NRSInvoice) : result (list NRSError) CanonicalInvoice :=
  match Validate n with
  | e :: es => Err (e :: es)
  | [] =>
      let cat := firstTaxCategory n in
      let irn := Str.trim_space (n_IRN n) in
      let number := numberFromNRS n irn in
      if bool_decide (number = "")
      then Err [mkNRSError "irn|buyer_reference" "REQUIRED" "invoice number required: supply an irn or buyer_reference"]
      else
        let lines := imap (lineFromNRS cat) (n_InvoiceLine n) in
        let excl := orElse (NGNToKobo (TaxExclusiveAmount (LegalMonetaryTotal n))) (loop_sum LineTotalKobo lines 0) in
        let tax := orElse (declaredTax (TaxTotal n)) (loop_sum VatAmountKobo lines 0) in
        let payable := orElse (NGNToKobo (PayableAmount (LegalMonetaryTotal n))) (excl +! tax) in
        Ok (mkInvoice "" "" number "B2B" (n_IssueDate n) (n_DueDate n) (Str.or_default (Str.to_upper (DocumentCurrencyCode n)) "NGN")
              (partyFromNRS (AccountingSupplierParty n)) (partyFromNRS (AccountingCustomerParty n)) lines excl tax payable
              "received" irn None "" "" "" "nrs-schema" (n_BusinessID n) "" (n_InvoiceTypeCode n)
              (Str.or_default (Str.to_upper (n_PaymentStatus n)) "PENDING") "" "" "" [] "" [] None None)
  end.

(** ** Responses *)

Definition partyToNRS (p : Party) : NRSParty :=
  mkNRSParty (p_Name p) (TIN p) (Email p) "" "" (mkAddress (Address p) (City p) "" (Country p) (State p) "").

Definition lineToNRS (l : InvoiceLine) : NRSInvoiceLine :=
  mkNRSLine "" "" fzero fzero fzero fzero (fdiv (float_of_int (QuantityMilli l)) (float_of_int 1000))
    (KoboToNGN (LineTotalKobo l)) (mkItem (Description l) "" "") (mkPrice (KoboToNGN (UnitPriceKobo l)) (float_of_int 1) "").

Definition categoryOf (vat : string) : TaxCategory :=
  if bool_decide (vat = "Z") then mkTaxCategory "ZERO_VAT" 0 "Z" "Zero-rated VAT 0%"
  else if bool_decide (vat = "E") then mkTaxCategory "EXEMPT" 0 "E" "VAT exempt"
  else standardVAT.

Definition ToNRS (inv : CanonicalInvoice) : NRSInvoice :=
  let excl := loop_sum LineTotalKobo (Lines inv) 0 in
  let tax := loop_sum VatAmountKobo (Lines inv) 0 in
  mkNRS (BusinessID inv) (IRN inv) (IssueDate inv) (DueDate inv) "" (Str.or_default (InvoiceTypeCode inv) "380") ""
    (Currency inv) "" (InvoiceType inv) (PaymentStatus inv) "" "" "" "" "" "" (mkDelivery "" "")
    (partyToNRS (Supplier inv)) (partyToNRS (Customer inv)) (map lineToNRS (Lines inv)) []
    (match Lines inv with
     | [] => []
     | l :: _ =>
         let cat := categoryOf (VatCategory l) in
         [mkTaxTotal (KoboToNGN tax)
            [mkSubtotal (KoboToNGN excl) (KoboToNGN tax)
               (mkNRSTaxCategory (t_ID cat) (fdiv (float_of_int (RateBps cat)) (float_of_int 100)))]]
     end) []
    (mkMonetary (KoboToNGN excl) (KoboToNGN (TaxExclusiveKobo inv)) (KoboToNGN (TaxExclusiveKobo inv +! TaxKobo inv))
       (KoboToNGN (PayableKobo inv))).

(** 0.575 is not a binary fraction and still rounds half up. *)
Example ngn_kobo_examples :
  NGNToKobo (decimal_float false 575 (-3)) = 58 /\ NGNToKobo (decimal_float false 24523628024999998 (-11)) = 24523628 /\
  NGNToKobo (decimal_float true 1005 (-3)) = -101 /\ NGNToKobo (KoboToNGN 1234567890123) = 1234567890123.
Proof. repeat split; vm_compute; reflexivity. Qed.

(** ** Amounts to the kobo *)

Lemma micros_nearest m e : e <= 0 -> 2 * Z.abs (micros m e * 2 ^ (- e) - Z.pos m * 1000000) <= 2 ^ (- e).
Proof.
  intros He. unfold micros. destruct (0 <=? e) eqn:E; bools; [assert (e = 0) as -> by lia; simpl; lia|].
  set (d := 2 ^ (- e)). assert (Hd : 0 < d) by (apply Z.pow_pos_nonneg; lia). set (n := Z.pos m * 1000000).
  pose proof (Z.div_mod n d ltac:(lia)) as Hn. pose proof (Z.mod_pos_bound n d Hd) as Hr.
  set (q := n / d) in *. set (r := n mod d) in *.
  destruct (2 * r <? d) eqn:E1, (d <? 2 * r) eqn:E2, (Z.even q); bools; nia.
Qed.

Lemma micros_pos m e : e <= 0 -> 0 <= micros m e.
Proof.
  intros He. unfold micros. destruct (0 <=? e) eqn:E; bools; [assert (e = 0) as -> by lia; simpl; lia|].
  assert (Hq : 0 <= Z.pos m * 1000000 / 2 ^ (- e)) by (apply Z.div_pos; [lia|apply Z.pow_pos_nonneg; lia]).
  cases; lia.
Qed.

(** Half up on the third decimal *)
Lemma koboOf_half_up u : 0 <= u < two63 -> koboOf false u = (u + 5000) / 10000.
Proof.
  intros Hu. unfold koboOf, clamp64, two63 in *.
  pose proof (Z.div_mod u 1000000 ltac:(lia)). pose proof (Z.mod_pos_bound u 1000000 ltac:(lia)).
  assert (Hq : 0 <= u / 1000000) by (apply Z.div_pos; lia).
  set (q := u / 1000000) in *. set (f := u mod 1000000) in *.
  replace (9223372036854775808 <=? q) with false by (symmetry; apply Z.leb_gt; lia).
  pose proof (Z.div_mod f 10000 ltac:(lia)). pose proof (Z.mod_pos_bound f 10000 ltac:(lia)).
  set (c := f / 10000) in *. set (t := f mod 10000) in *.
  assert (Ht : f / 1000 mod 10 = t / 1000).
  { replace f with (t + c * 10 * 1000) by lia. rewrite Z.div_add by lia. rewrite Z.mod_add by lia. apply Z.mod_small.
    split; [apply Z.div_pos; lia|apply Z.div_lt_upper_bound; lia]. }
  rewrite Ht. pose proof (Z.div_mod t 1000 ltac:(lia)). pose proof (Z.mod_pos_bound t 1000 ltac:(lia)).
  set (h := t / 1000) in *. rewrite (wrap64_id (q * 100)), (wrap64_id (c + _)), wrap64_id
    by (destruct (5 <=? h) eqn:E; unfold in64, two63; lia).
  destruct (5 <=? h) eqn:E; bools.
  - apply (Z.div_unique _ _ _ (t - 5000)); lia.
  - apply (Z.div_unique _ _ _ (t + 5000)); lia.
Qed.

(** An amount becomes the nearest kobo: within half a kobo, and half of a
    millionth for the six decimals it is read at, for every amount below 9.2
    thousand billion; a negative amount is the opposite of its absolute value. *)
Theorem ngn_to_kobo_nearest s m e :
  e <= 0 -> micros m e < two63 ->
  2 * Z.abs (10000 * (NGNToKobo (S754_finite false m e) * 2 ^ (- e)) - 1000000 * Z.pos m) <= 10001 * 2 ^ (- e) /\
  NGNToKobo (S754_finite s m e) = (if s then -1 else 1) * NGNToKobo (S754_finite false m e).
Proof.
  intros He Hu. pose proof (micros_nearest m e He) as Hn. pose proof (micros_pos m e He) as Hp. cbn [NGNToKobo].
  assert (Hd : 0 < 2 ^ (- e)) by (apply Z.pow_pos_nonneg; lia).
  pose proof (koboOf_half_up (micros m e) (conj Hp Hu)) as Hk.
  pose proof (Z.div_mod (micros m e + 5000) 10000 ltac:(lia)) as Hdm.
  pose proof (Z.mod_pos_bound (micros m e + 5000) 10000 ltac:(lia)) as Hmb.
  split.
  - rewrite Hk. set (u := micros m e) in *. set (k := (u + 5000) / 10000) in *. set (d := 2 ^ (- e)) in *. nia.
  - destruct s; [|lia]. unfold koboOf in *. set (x := (_ *! 100 +! _)) in *. rewrite wrap64_id; [lia|].
    rewrite Hk. unfold in64, two63 in *. lia.
Qed.

(** ** The conversion *)

Lemma ParseIRN_trim s : ParseIRN (Str.trim_space s) = ParseIRN s.
Proof. unfold ParseIRN. by rewrite trim_space_id by apply trim_space_unspaced. Qed.

Lemma ParseIRN_number s num sid ds : ParseIRN s = Ok (num, sid, ds) -> num <> "".
Proof.
  unfold ParseIRN. destruct (lastHyphen _) as [[rest d]|]; [|done]. destruct (lastHyphen rest) as [[a b]|] eqn:E; [|done].
  destruct (negb _); [done|]. destruct (DateStamp d); [|done]. cbn. intros [= -> _ _].
  unfold lastHyphen in E. destruct (Str.cut_last _ _) as [[x y]|]; [|done]. destruct (_ || _) eqn:Eb; [done|].
  injection E as -> ->. by bools.
Qed.

Lemma valid_payload n :
  Validate n = [] ->
  n_InvoiceLine n <> [] /\ (Str.trim_space (n_IRN n) <> "" -> is_ok (ParseIRN (Str.trim_space (n_IRN n))) = true).
Proof.
  intros Hv. split.
  - intros Hl. unfold Validate in Hv. rewrite Hl in Hv. do 11 (apply app_eq_nil in Hv as [_ Hv]). by apply app_eq_nil in Hv as [Hv _].
  - intros Hne. unfold Validate in Hv. do 4 (apply app_eq_nil in Hv as [_ Hv]). apply app_eq_nil in Hv as [Hv _].
    unfold add in Hv. destruct (given (n_IRN n)) eqn:Eg.
    + cbn [andb] in Hv. destruct (ValidIRN (n_IRN n)) eqn:Ev; [|done]. rewrite ParseIRN_trim. unfold ValidIRN in Ev.
      by destruct (ParseIRN (n_IRN n)).
    + unfold given in Eg. bools. by rewrite Eg in Hne.
Qed.

Lemma imap_Forall {A B} (P : B -> Prop) (f : nat -> A -> B) l : (forall i x, P (f i x)) -> Forall P (imap f l).
Proof. revert f. induction l as [|x l IH]; intros f H; cbn; constructor; [apply H|]. apply IH. intros i y. apply H. Qed.

Lemma orElse_zero a b : a = 0 -> orElse a b = b.
Proof. by intros ->. Qed.

Lemma lines_nonempty cat n : n_InvoiceLine n <> [] -> imap (lineFromNRS cat) (n_InvoiceLine n) <> [].
Proof. by destruct (n_InvoiceLine n). Qed.

(** The totals of a conversion, with the lines, the declared amounts and the
    sums as they are computed *)
Lemma converted_totals cat l excl tax payable :
  let lines := imap (lineFromNRS cat) l in
  let e := orElse excl (loop_sum LineTotalKobo lines 0) in
  let t := orElse tax (loop_sum VatAmountKobo lines 0) in
  Forall (fun l => VatAmountKobo l = RoundBpsHalfUp (LineTotalKobo l) (VatRateBps l) /\ l_ID l <> "") lines /\
  (excl = 0 -> e ≡64 sumZ LineTotalKobo lines) /\ (tax = 0 -> t ≡64 sumZ VatAmountKobo lines) /\
  (payable = 0 -> orElse payable (e +! t) ≡64 e + t).
Proof.
  cbn zeta. split; [|split; [|split]].
  - apply imap_Forall. intros i x. split; [done|]. apply pretty_Z_nonempty.
  - intros ->. rewrite orElse_zero, loop_sum_eq64 by done. done.
  - intros ->. rewrite orElse_zero, loop_sum_eq64 by done. done.
  - intros ->. rewrite orElse_zero by done. apply wrap64_eq64.
Qed.

(** A payload becomes an invoice exactly when every check passes and a
    number can be found, and then the lines are priced in whole kobo, what the
    payload does not declare is the sum of the lines, and the number is the one
    of the IRN when there is one. *)
Theorem from_nrs_exact n :
  let irn := Str.trim_space (n_IRN n) in
  match FromNRS n with
  | Ok inv =>
      Validate n = [] /\ Status inv = "received" /\ IRN inv = irn /\ InvoiceNumber inv <> "" /\ Lines inv <> [] /\
      (irn <> "" -> exists sid ds, ParseIRN irn = Ok (InvoiceNumber inv, sid, ds)) /\
      Forall (fun l => VatAmountKobo l = RoundBpsHalfUp (LineTotalKobo l) (VatRateBps l) /\ l_ID l <> "") (Lines inv) /\
      (NGNToKobo (TaxExclusiveAmount (LegalMonetaryTotal n)) = 0 -> TaxExclusiveKobo inv ≡64 sumZ LineTotalKobo (Lines inv)) /\
      (declaredTax (TaxTotal n) = 0 -> TaxKobo inv ≡64 sumZ VatAmountKobo (Lines inv)) /\
      (NGNToKobo (PayableAmount (LegalMonetaryTotal n)) = 0 -> PayableKobo inv ≡64 TaxExclusiveKobo inv + TaxKobo inv)
  | Err es =>
      Validate n = es /\ es <> [] \/
      Validate n = [] /\ irn = "" /\ BuyerReference n = "" /\ OrderReference n = ""
  end.
Proof.
  cbn zeta. unfold FromNRS. destruct (Validate n) as [|e es] eqn:Hv; [|by left].
  destruct (valid_payload n Hv) as [Hl Hirn]. set (irn := Str.trim_space (n_IRN n)) in *. unfold numberFromNRS.
  assert (Hnum : irn <> "" -> exists num sid ds, ParseIRN irn = Ok (num, sid, ds) /\ num <> "").
  { intros Hi. specialize (Hirn Hi). destruct (ParseIRN irn) as [[[num sid] ds]|] eqn:Ep; [|done].
    exists num, sid, ds. split; [done|]. by eapply ParseIRN_number. }
  destruct (decide (irn = "")) as [Hi|Hi].
  - rewrite Hi. change (ParseIRN "") with (@Err string (string * string * string) "irn malformed: want <InvoiceNumber>-<ServiceID>-<YYYYMMDD>").
    cbv beta iota. destruct (bool_decide (Str.or_default _ _ = "")) eqn:En; bools.
    + right. split; [done|]. split; [done|]. unfold Str.or_default in En.
      destruct (bool_decide (BuyerReference n = "")) eqn:Eb; bools; [done|congruence].
    + do 4 (split; [done|]). split; [by apply lines_nonempty|]. split; [done|]. by apply converted_totals.
  - destruct (Hnum Hi) as (num & sid & ds & Hp & Hne). rewrite Hp, (bool_decide_eq_false_2 (irn = "")) by done.
    replace (Str.or_default num (OrderReference n)) with num
      by (unfold Str.or_default; by rewrite (bool_decide_eq_false_2 (num = ""))).
    rewrite (bool_decide_eq_false_2 (num = "")) by done.
    do 4 (split; [done|]). split; [by apply lines_nonempty|]. split; [intros _; by exists sid, ds|]. by apply converted_totals.
Qed.

(** ** Witness *)

Lemma ngn_to_kobo_nearest_witness :
  2 * Z.abs (10000 * (NGNToKobo (S754_finite false 3 (-1)) * 2 ^ (- (-1))) - 1000000 * 3) <= 10001 * 2 ^ (- (-1)) /\
  NGNToKobo (S754_finite true 3 (-1)) = -1 * NGNToKobo (S754_finite false 3 (-1)).
Proof. apply (ngn_to_kobo_nearest true 3 (-1)); [lia|vm_compute; reflexivity]. Defined.
