(* ===== verification/EinvApiKeys.v ===== *)
(** * einvoicing: merchant API keys (services/einvoicing/apikeys.go)

    The keys, their index by prefix, the snapshot file, the verification of a
    presented key and the middleware that maps it to a principal.  The random
    bytes, the clock and the outcome of the snapshot write are arguments.  The
    write is a temporary file renamed into place: it replaces the snapshot or
    leaves it.  A history is followed by what the service knows and what the
    file holds of each secret, which part when a write fails. *)

From S2P Require Import Prelude StrFacts Crypto GoJson GoTime.
From S2P Require Auth.
From coqutil Require Export Datatypes.RecordSetters.
Export RecordSetters.DoubleBraceUpdate.

Definition apiKeyPrefix : string := "mrk_".

Record APIKey := mkKey {
  k_ID : string;
  k_TenantID : string;
  k_Name : string;
  Prefix : string;
  Hash : string;
  CreatedBy : string;
  k_CreatedAt : Z;
  RotatedAt : option Z;
  RevokedAt : option Z;
  LastUsedAt : option Z;
}.
#[export] Instance APIKey_eq_dec : EqDecision APIKey.
Proof. solve_decision. Defined.

Definition Active (k : APIKey) : bool := match RevokedAt k with None => true | Some _ => false end.

Record APIKeyStore := mkKeyStore {
  keys : gmap string APIKey;
  byPrefix : gmap string (list string);
  snapshot : list APIKey;
}.

Definition prefixIDs (p : string) (s : APIKeyStore) : list string := default [] (byPrefix s !! p).

(** ** The snapshot *)

Definition loadKey (s : APIKeyStore) (k : APIKey) : APIKeyStore :=
  mkKeyStore (<[k_ID k := k]> (keys s)) (<[Prefix k := prefixIDs (Prefix k) s ++ [k_ID k]]> (byPrefix s)) (snapshot s).

(** [load], of a snapshot that reads *)
Definition NewAPIKeyStore (l : list APIKey) : APIKeyStore := foldl loadKey (mkKeyStore ∅ ∅ l) l.

Definition idOrder (a b : string * APIKey) : Prop := String.le a.1 b.1.
#[export] Instance idOrder_dec a b : Decision (idOrder a b).
Proof. unfold idOrder. apply _. Defined.

Definition persistLocked (io : bool) (s : APIKeyStore) : APIKeyStore :=
  if io then mkKeyStore (keys s) (byPrefix s) (merge_sort idOrder (map_to_list (keys s))).*2 else s.

(** ** Digests in text *)

(** [hex.DecodeString] *)
Definition nibble (c : ascii) : option nat :=
  let n := Ascii.nat_of_ascii c in
  if (48 <=? n)%nat && (n <=? 57)%nat then Some (n - 48)%nat
  else if (97 <=? n)%nat && (n <=? 102)%nat then Some (n - 87)%nat
  else if (65 <=? n)%nat && (n <=? 70)%nat then Some (n - 55)%nat
  else None.

Fixpoint unhexText (s : string) : option string :=
  match s with
  | EmptyString => Some EmptyString
  | String a (String b s) =>
      x ← nibble a; y ← nibble b; r ← unhexText s; Some (String (Ascii.ascii_of_nat (16 * x + y)) r)
  | _ => None
  end.

Section Keys.
Context `{Crypto}.

(** [generateSecret], from 32 random bytes: the plaintext, the prefix and the
    digest *)
Definition plaintextOf (raw : string) : string := apiKeyPrefix +:+ hex raw.
Definition lookupPrefix (plain : string) : string := Str.take 12 plain.
Definition keyHash (plain : string) : string := hex (sha256 plain).

Inductive keyErr := ErrRandom | ErrNotExist | ErrRevoked | ErrKeyPersist.
#[export] Instance keyErr_eq_dec : EqDecision keyErr.
Proof. solve_decision. Defined.

(** [raw], [idRaw]: what the random source gives, [None] when it fails *)
Definition Create (tenant name actor : string) (raw idRaw : option string) (now : Z) (io : bool) (s : APIKeyStore)
  : APIKeyStore * result keyErr (APIKey * string) :=
  match raw, idRaw with
  | Some raw, Some idRaw =>
      let plain := plaintextOf raw in
      let prefix := lookupPrefix plain in
      let k := mkKey ("key_" +:+ hex idRaw) tenant name prefix (keyHash plain) actor now None None None in
      let s := mkKeyStore (<[k_ID k := k]> (keys s)) (<[prefix := prefixIDs prefix s ++ [k_ID k]]> (byPrefix s)) (snapshot s) in
      if io then (persistLocked true s, Ok (k, plain))
      else (mkKeyStore (delete (k_ID k) (keys s)) (byPrefix s) (snapshot s), Err ErrKeyPersist)
  | _, _ => (s, Err ErrRandom)
  end.

Definition earlierKey (a b : APIKey) : Prop := k_CreatedAt a <= k_CreatedAt b.
#[export] Instance earlierKey_dec a b : Decision (earlierKey a b).
Proof. unfold earlierKey. apply _. Defined.

Definition List_ (tenant : string) (s : APIKeyStore) : list APIKey :=
  merge_sort earlierKey (List.filter (fun k => bool_decide (k_TenantID k = tenant)) (map_to_list (keys s)).*2).

(** The list without the first occurrence *)
Fixpoint dropFirst (id : string) (l : list string) : list string :=
  match l with
  | [] => []
  | x :: l => if bool_decide (x = id) then l else x :: dropFirst id l
  end.

(** The key of a tenant; another tenant's is not found *)
Definition ownKey (tenant id : string) (s : APIKeyStore) : option APIKey :=
  k ← keys s !! id; if bool_decide (k_TenantID k = tenant) then Some k else None.

Definition Rotate (tenant id : string) (raw : option string) (now : Z) (io : bool) (s : APIKeyStore)
  : APIKeyStore * result keyErr (APIKey * string) :=
  match ownKey tenant id s with
  | None => (s, Err ErrNotExist)
  | Some k =>
      if negb (Active k) then (s, Err ErrRevoked)
      else match raw with
           | None => (s, Err ErrRandom)
           | Some raw =>
               let plain := plaintextOf raw in
               let prefix := lookupPrefix plain in
               let bp := <[Prefix k := dropFirst id (prefixIDs (Prefix k) s)]> (byPrefix s) in
               let k := k{{ Prefix := prefix; Hash := keyHash plain; RotatedAt := Some now }} in
               let bp := <[prefix := default [] (bp !! prefix) ++ [id]]> bp in
               let s := mkKeyStore (<[id := k]> (keys s)) bp (snapshot s) in
               (persistLocked io s, if io then Ok (k, plain) else Err ErrKeyPersist)
           end
  end.

Definition Revoke (tenant id : string) (now : Z) (io : bool) (s : APIKeyStore) : APIKeyStore * result keyErr APIKey :=
  match ownKey tenant id s with
  | None => (s, Err ErrNotExist)
  | Some k =>
      match RevokedAt k with
      | Some _ => (s, Ok k)
      | None =>
          let k := k{{ RevokedAt := Some now }} in
          let s := mkKeyStore (<[id := k]> (keys s)) (byPrefix s) (snapshot s) in
          (persistLocked io s, if io then Ok k else Err ErrKeyPersist)
      end
  end.

Definition usageStampInterval : Z := 60 * second.

(** [vPanicked]: a candidate of the prefix that is not in the store *)
Inductive verdict := vPanicked | vDenied | vGranted (k : APIKey).

(** The last candidate whose stored digest is that of the key presented;
    [None] is the panic *)
Definition candidate (sum : string) (s : APIKeyStore) (m : option (option APIKey)) (id : string) : option (option APIKey) :=
  m ← m; k ← keys s !! id;
  Some (if bool_decide (unhexText (Hash k) = Some sum) then Some k else m).

Definition Verify (plain : string) (now : Z) (io : bool) (s : APIKeyStore) : APIKeyStore * verdict :=
  if negb (Str.has_prefix plain apiKeyPrefix) || (String.length plain <? 12)%nat then (s, vDenied)
  else match foldl (candidate (sha256 plain) s) (Some None) (prefixIDs (lookupPrefix plain) s) with
       | None => (s, vPanicked)
       | Some None => (s, vDenied)
       | Some (Some k) =>
           if negb (Active k) then (s, vDenied)
           else if match LastUsedAt k with None => true | Some t => usageStampInterval <? now - t end
                then let k := k{{ LastUsedAt := Some now }} in
                     (persistLocked io (mkKeyStore (<[k_ID k := k]> (keys s)) (byPrefix s) (snapshot s)), vGranted k)
                else (s, vGranted k)
       end.

(** ** The middleware and the handlers *)

Definition apiKeyAllowedPath (p : string) : bool :=
  if bool_decide (p = "/v1/apikeys") || Str.has_prefix p "/v1/apikeys/" then false
  else existsb (Str.has_prefix p) ["/v1/invoices"; "/v1/b2c/"; "/v1/vat/"].

(** Where a request goes: to the next middleware, to the routes with the
    principal of the key, or back with a problem *)
Inductive routed := toFallback | toRoutes (c : Auth.Claims) | refused (code : Z) | crashed.

Definition apiKeyMiddleware (key path : string) (now : Z) (io : bool) (s : APIKeyStore) : APIKeyStore * routed :=
  if bool_decide (key = "") then (s, toFallback)
  else if negb (apiKeyAllowedPath path) then (s, refused 403)
  else match Verify key now io s with
       | (s, vPanicked) => (s, crashed)
       | (s, vDenied) => (s, refused 401)
       | (s, vGranted k) => (s, toRoutes (Auth.mkClaims ("apikey:" +:+ k_ID k) ["operator"] (k_TenantID k) 0))
       end.

Definition hasAnyRole (have want : list string) : bool :=
  existsb (fun h => existsb (fun w => bool_decide (h = w)) want) have.

Definition requireSelfService (claims : option Auth.Claims) : result (Z * string) Auth.Claims :=
  match claims with
  | None => Err (401, "unauthorized")
  | Some c =>
      if bool_decide (Auth.Sub c = "") then Err (401, "unauthorized")
      else if negb (hasAnyRole (Auth.Roles c) ["admin"; "operator"]) then Err (403, "forbidden")
      else if bool_decide (Auth.c_TenantID c = "") then Err (403, "forbidden")
      else Ok c
  end.

(** [public]: the record without its digest *)
Definition public (k : APIKey) : APIKey := k{{ Hash := "" }}.

(** [body]: the name of the request, [None] when the body does not decode *)
Definition handleAPIKeyCreate (claims : option Auth.Claims) (body : option string) (raw idRaw : option string)
    (now : Z) (io : bool) (s : APIKeyStore) : APIKeyStore * response (APIKey * string) :=
  match requireSelfService claims with
  | Err (code, title) => (s, Problem code title)
  | Ok c =>
      match body with
      | None => (s, Problem 400 "bad request")
      | Some name =>
          let name := Str.trim_space name in
          if bool_decide (name = "") || (120 <? String.length name)%nat then (s, Problem 422 "invalid name")
          else match Create (Auth.c_TenantID c) name (Auth.Sub c) raw idRaw now io s with
               | (s, Err _) => (s, Problem 500 "persist failed")
               | (s, Ok (k, plain)) => (s, JSON 201 (public k, plain))
               end
      end
  end.

Definition handleAPIKeyList (claims : option Auth.Claims) (s : APIKeyStore) : response (list APIKey) :=
  match requireSelfService claims with
  | Err (code, title) => Problem code title
  | Ok c => JSON 200 (map public (List_ (Auth.c_TenantID c) s))
  end.

Definition handleAPIKeyRotate (claims : option Auth.Claims) (id : string) (raw : option string) (now : Z) (io : bool)
    (s : APIKeyStore) : APIKeyStore * response (APIKey * string) :=
  match requireSelfService claims with
  | Err (code, title) => (s, Problem code title)
  | Ok c =>
      match Rotate (Auth.c_TenantID c) id raw now io s with
      | (s, Err ErrNotExist) => (s, Problem 404 "not found")
      | (s, Err _) => (s, Problem 409 "conflict")
      | (s, Ok (k, plain)) => (s, JSON 200 (public k, plain))
      end
  end.

Definition handleAPIKeyRevoke (claims : option Auth.Claims) (id : string) (now : Z) (io : bool) (s : APIKeyStore)
  : APIKeyStore * response APIKey :=
  match requireSelfService claims with
  | Err (code, title) => (s, Problem code title)
  | Ok c =>
      match Revoke (Auth.c_TenantID c) id now io s with
      | (s, Err ErrNotExist) => (s, Problem 404 "not found")
      | (s, Err _) => (s, Problem 500 "persist failed")
      | (s, Ok k) => (s, JSON 200 (public k))
      end
  end.

(** ** The secrets a history has issued *)

(** What a key stands for: its current plaintext, its tenant, and whether it
    may be used *)
Record secret := mkSecret { plain : string; tenant : string; live : bool }.

(** [raw], [idRaw]: what the random source gives; [io]: whether the snapshot
    can be written *)
Inductive keyOp :=
| KCreate (tenant name actor : string) (raw idRaw : option string) (now : Z) (io : bool)
| KRotate (tenant id : string) (raw : option string) (now : Z) (io : bool)
| KRevoke (tenant id : string) (now : Z) (io : bool)
| KVerify (plain : string) (now : Z) (io : bool)
| KRestart.

Definition keyStep (s : APIKeyStore) (op : keyOp) : APIKeyStore :=
  match op with
  | KCreate t name actor raw idRaw now io => (Create t name actor raw idRaw now io s).1
  | KRotate t id raw now io => (Rotate t id raw now io s).1
  | KRevoke t id now io => (Revoke t id now io s).1
  | KVerify p now io => (Verify p now io s).1
  | KRestart => NewAPIKeyStore (snapshot s)
  end.

(** The secrets the running service knows and those of the file, which a
    restart brings back; [lost]: the identifiers of creations that could not be
    written, which the index by prefix keeps until a restart *)
Record issue := mkIssue { known : gmap string secret; stored : gmap string secret; lost : gset string }.

Definition noIssue : issue := mkIssue ∅ ∅ ∅.

(** New secrets in memory, in the file too when it is written *)
Definition issueSet (io : bool) (m : gmap string secret) (l : gset string) (sp : issue) : issue :=
  mkIssue m (if io then m else stored sp) l.

(** [stamped]: a use was recorded, and the file written with it *)
Definition specStep (stamped : bool) (sp : issue) (op : keyOp) : issue :=
  match op with
  | KCreate t _ _ (Some raw) (Some idRaw) _ io =>
      let id := "key_" +:+ hex idRaw in
      if io then issueSet true (<[id := mkSecret (plaintextOf raw) t true]> (known sp)) (lost sp ∖ {[ id ]}) sp
      else issueSet false (delete id (known sp)) (lost sp ∪ {[ id ]}) sp
  | KCreate _ _ _ _ _ _ _ => sp
  | KRotate t id (Some raw) _ io =>
      match known sp !! id with
      | Some e => if bool_decide (tenant e = t) && live e
                  then issueSet io (<[id := mkSecret (plaintextOf raw) t true]> (known sp)) (lost sp) sp else sp
      | None => sp
      end
  | KRotate _ _ None _ _ => sp
  | KRevoke t id _ io =>
      match known sp !! id with
      | Some e => if bool_decide (tenant e = t) && live e
                  then issueSet io (<[id := mkSecret (plain e) t false]> (known sp)) (lost sp) sp else sp
      | None => sp
      end
  | KVerify _ _ _ => issueSet stamped (known sp) (lost sp) sp
  | KRestart => mkIssue (stored sp) (stored sp) ∅
  end.

(** The random source gives 32 bytes, when it gives any. *)
Definition wellDrawn (op : keyOp) : Prop :=
  match op with
  | KCreate _ _ _ (Some raw) _ _ _ | KRotate _ _ (Some raw) _ _ => String.length raw = 32%nat
  | _ => True
  end.

(** Every creation, rotation and revocation can write the file. *)
Definition writable (op : keyOp) : Prop :=
  match op with
  | KCreate _ _ _ _ _ _ io | KRotate _ _ _ _ io | KRevoke _ _ _ io => io = true
  | _ => True
  end.

Definition minted (e : secret) : Prop := exists raw, String.length raw = 32%nat /\ plain e = plaintextOf raw.

(** A record represents a secret. *)
Definition stands (id : string) (k : APIKey) (e : secret) : Prop :=
  k_ID k = id /\ k_TenantID k = tenant e /\ Prefix k = lookupPrefix (plain e) /\ Hash k = keyHash (plain e) /\
  Active k = live e /\ minted e.

Record represents (l : gset string) (sp : gmap string secret) (s : APIKeyStore) : Prop := {
  rp_keys : forall id, option_Forall2 (stands id) (keys s !! id) (sp !! id);
  rp_prefix : forall p id, id ∈ prefixIDs p s -> is_Some (keys s !! id) \/ id ∈ l;
  rp_index : forall id k, keys s !! id = Some k -> id ∈ prefixIDs (Prefix k) s;
  rp_lost : forall id, id ∈ l -> keys s !! id = None;
}.

Lemma hex_length s : String.length (hex s) = (2 * String.length s)%nat.
Proof. induction s as [|c s IH]; [done|]. simpl in *. rewrite IH. lia. Qed.

Lemma unhex_hex s : unhexText (hex s) = Some s.
Proof.
  induction s as [|c s IH]; [done|]. cbn [hex unhexText]. rewrite IH.
  assert (Hc : forall c, (x ← nibble (hex_char (Ascii.nat_of_ascii c / 16)); y ← nibble (hex_char (Ascii.nat_of_ascii c mod 16));
                          Some (Ascii.ascii_of_nat (16 * x + y))) = Some c).
  { clear. intros [[] [] [] [] [] [] [] []]; reflexivity. }
  specialize (Hc c). destruct (nibble (hex_char (_ / 16))) as [x|]; [|discriminate Hc].
  destruct (nibble (hex_char (_ mod 16))) as [y|]; [|discriminate Hc]. cbn -[Nat.mul] in Hc |- *. congruence.
Qed.

Lemma minted_shape e : minted e -> Str.has_prefix (plain e) apiKeyPrefix = true /\ String.length (plain e) = 68%nat.
Proof.
  intros (raw & Hl & ->). unfold plaintextOf. split.
  - apply prefix_app.
  - rewrite str_length_app, hex_length, Hl. reflexivity.
Qed.
End Keys.

Section History.
Context `{Crypto}.
Implicit Types (s : APIKeyStore) (k : APIKey).

Lemma represents_empty : represents ∅ ∅ (NewAPIKeyStore []).
Proof.
  constructor; cbn.
  - intros id. rewrite !lookup_empty. constructor.
  - intros p id. unfold prefixIDs; cbn. rewrite lookup_empty. by intros ?%elem_of_nil.
  - intros id k. by rewrite lookup_empty.
  - set_solver.
Qed.

(** Only the parts that a secret fixes matter. *)
Lemma represents_snapshot l sp ks bp sn sn' : represents l sp (mkKeyStore ks bp sn) -> represents l sp (mkKeyStore ks bp sn').
Proof. intros [? ? ? ?]. by constructor. Qed.

Lemma stands_id l sp s id k : represents l sp s -> keys s !! id = Some k -> k_ID k = id.
Proof. intros [Hk _ _ _] Hid. specialize (Hk id). rewrite Hid in Hk. inversion Hk as [? e He|]; subst. apply He. Qed.

Lemma represents_set l sp s id k e bp sn :
  represents l sp s -> stands id k e ->
  (forall p x, x ∈ default [] (bp !! p) -> x = id \/ x ∈ prefixIDs p s) ->
  (forall p x, x ∈ prefixIDs p s -> x <> id -> x ∈ default [] (bp !! p)) ->
  id ∈ default [] (bp !! Prefix k) ->
  represents (l ∖ {[ id ]}) (<[id := e]> sp) (mkKeyStore (<[id := k]> (keys s)) bp sn).
Proof.
  intros [Hk Hp Hi Hl] Hst Hin Hout Hid. constructor; cbn.
  - intros x. destruct (decide (id = x)) as [<-|Hne]; [rewrite !lookup_insert_eq; by constructor|].
    by rewrite !lookup_insert_ne.
  - unfold prefixIDs. cbn. intros p x Hx. destruct (decide (id = x)) as [<-|Hne]; [rewrite lookup_insert_eq; eauto|].
    rewrite lookup_insert_ne by done. destruct (Hin p x Hx) as [->|Hx']; [done|]. destruct (Hp p x Hx'); [by left|right; set_solver].
  - unfold prefixIDs. cbn. intros x k'. destruct (decide (id = x)) as [<-|Hne].
    + rewrite lookup_insert_eq. by intros [= <-].
    + rewrite lookup_insert_ne by done. intros Hx. apply Hout; [by apply Hi|done].
  - intros x [Hx Hne]%elem_of_difference. rewrite lookup_insert_ne by set_solver. by apply Hl.
Qed.

(** A key that goes, and stays in the index *)
Lemma represents_lose l sp s id bp sn :
  represents l sp s ->
  (forall p x, x ∈ default [] (bp !! p) -> x = id \/ x ∈ prefixIDs p s) ->
  (forall p x, x ∈ prefixIDs p s -> x ∈ default [] (bp !! p)) ->
  represents (l ∪ {[ id ]}) (delete id sp) (mkKeyStore (delete id (keys s)) bp sn).
Proof.
  intros [Hk Hp Hi Hl] Hin Hout. constructor; cbn.
  - intros x. destruct (decide (id = x)) as [<-|Hne]; [rewrite !lookup_delete_eq; by constructor|].
    by rewrite !lookup_delete_ne.
  - unfold prefixIDs. cbn. intros p x Hx. destruct (decide (id = x)) as [<-|Hne]; [right; set_solver|].
    rewrite lookup_delete_ne by done. destruct (Hin p x Hx) as [->|Hx']; [done|]. destruct (Hp p x Hx'); [by left|right; set_solver].
  - unfold prefixIDs. cbn. intros x k' [Hne Hx]%lookup_delete_Some. by apply Hout, Hi.
  - intros x Hx. destruct (decide (id = x)) as [<-|Hne]; [apply lookup_delete_eq|]. rewrite lookup_delete_ne by done. apply Hl. set_solver.
Qed.

Lemma known_not_lost l sp s id k : represents l sp s -> keys s !! id = Some k -> l ∖ {[ id ]} = l.
Proof. intros Hr Hk. apply set_eq. intros x. pose proof (rp_lost _ _ _ Hr x). set_solver. Qed.

(** A change of the fields no secret fixes, or of a use *)
Lemma represents_again l sp s id k k' e sn :
  represents l sp s -> keys s !! id = Some k -> stands id k' e -> Prefix k' = Prefix k ->
  represents l (<[id := e]> sp) (mkKeyStore (<[id := k']> (keys s)) (byPrefix s) sn).
Proof.
  intros Hr Hk Hst Hpre. rewrite <- (known_not_lost _ _ _ _ _ Hr Hk). apply represents_set; try done.
  - intros p x Hx. by right.
  - rewrite Hpre. by apply (rp_index _ _ _ Hr).
Qed.

(** ** Loading *)

Lemma NewAPIKeyStore_keys l id k :
  NoDup (k_ID <$> l) -> (keys (NewAPIKeyStore l) !! id = Some k <-> k ∈ l /\ k_ID k = id).
Proof.
  unfold NewAPIKeyStore. generalize l at 2 as sn. intros sn. induction l as [|x l IH] using rev_ind; intros Hd.
  { cbn. rewrite lookup_empty. split; [done|]. by intros [?%elem_of_nil _]. }
  rewrite fmap_app in Hd. apply NoDup_app in Hd as (Hd & Hx & _). rewrite foldl_app. cbn [foldl loadKey keys].
  rewrite elem_of_app, list_elem_of_singleton. destruct (decide (k_ID x = id)) as [Hid|Hid].
  - rewrite Hid, lookup_insert_eq. split; [intros [= <-]; by split; [right|]|]. intros [[Hk| ->] Hkid]; [|done].
    exfalso. apply (Hx id); [rewrite <- Hkid; by apply list_elem_of_fmap_2|]. cbn. rewrite Hid. by left.
  - rewrite lookup_insert_ne by done. rewrite IH by done. naive_solver.
Qed.

Lemma NewAPIKeyStore_prefix l p id :
  id ∈ prefixIDs p (NewAPIKeyStore l) <-> exists k, k ∈ l /\ Prefix k = p /\ k_ID k = id.
Proof.
  unfold NewAPIKeyStore. generalize l at 1 as sn. intros sn. induction l as [|x l IH] using rev_ind.
  { cbn. split; [by intros ?%elem_of_nil|]. by intros (k & ?%elem_of_nil & _). }
  rewrite foldl_app. cbn [foldl]. set (s := foldl _ _ _) in *. unfold prefixIDs at 1. cbn [loadKey byPrefix].
  destruct (decide (Prefix x = p)) as [Hp|Hp].
  - rewrite Hp, lookup_insert_eq. simpl default. rewrite elem_of_app, IH, list_elem_of_singleton.
    setoid_rewrite elem_of_app. setoid_rewrite list_elem_of_singleton. naive_solver.
  - rewrite lookup_insert_ne by done. fold (prefixIDs p s). rewrite IH.
    setoid_rewrite elem_of_app. setoid_rewrite list_elem_of_singleton. naive_solver.
Qed.

Lemma snapshot_values l sp s :
  represents l sp s ->
  let ks := (merge_sort idOrder (map_to_list (keys s))).*2 in
  (forall k, k ∈ ks <-> keys s !! k_ID k = Some k) /\ NoDup (k_ID <$> ks).
Proof.
  intros Hr. cbn zeta.
  assert (Hperm : (merge_sort idOrder (map_to_list (keys s))).*2 ≡ₚ (map_to_list (keys s)).*2).
  { apply fmap_Permutation, merge_sort_Permutation. }
  split.
  - intros k. rewrite Hperm, list_elem_of_fmap. split.
    + intros ([id k'] & -> & Hin%elem_of_map_to_list). cbn. by rewrite (stands_id _ _ _ _ _ Hr Hin).
    + intros Hk. exists (k_ID k, k). split; [done|]. by apply elem_of_map_to_list.
  - rewrite Hperm, <- list_fmap_compose.
    rewrite (list_fmap_ext _ fst); [apply NoDup_fst_map_to_list|].
    intros i [id k] Hi. cbn. apply (stands_id _ _ _ _ _ Hr). apply elem_of_map_to_list. by eapply list_elem_of_lookup_2.
Qed.

Lemma represents_reload l sp s :
  represents l sp s -> represents ∅ sp (NewAPIKeyStore (merge_sort idOrder (map_to_list (keys s))).*2).
Proof.
  intros Hr. pose proof (snapshot_values l sp s Hr) as [Hl Hd]. set (ks := (merge_sort _ _).*2) in *.
  assert (Hkeys : keys (NewAPIKeyStore ks) = keys s).
  { apply map_eq. intros id. apply option_eq. intros k. rewrite NewAPIKeyStore_keys, Hl by done. split.
    - by intros [Hk <-].
    - intros Hk. by rewrite (stands_id _ _ _ _ _ Hr Hk). }
  destruct Hr as [Hk Hp Hi Hlo]. constructor; [by rewrite Hkeys|..]; rewrite ?Hkeys.
  - intros p id (k & Hin & _ & <-)%NewAPIKeyStore_prefix. apply Hl in Hin. left. by rewrite Hin.
  - intros id k Hid. apply NewAPIKeyStore_prefix. exists k.
    assert (k_ID k = id) as <- by (apply (stands_id l sp s); [by constructor|done]). split; [by apply Hl|done].
  - set_solver.
Qed.

(** ** The operations *)

(** What is in memory and what the snapshot would bring back *)
Definition faithful (sp : issue) s : Prop :=
  represents (lost sp) (known sp) s /\ represents ∅ (stored sp) (NewAPIKeyStore (snapshot s)).

(** A new memory that was written, or could not be *)
Lemma faithful_persist io m l sp s :
  represents l m s -> represents ∅ (stored sp) (NewAPIKeyStore (snapshot s)) -> faithful (issueSet io m l sp) (persistLocked io s).
Proof.
  intros Hr Hs. destruct io; [|by split]. split; [destruct s; by eapply represents_snapshot|by eapply represents_reload].
Qed.

Lemma elem_of_dropFirst id x l : x ∈ dropFirst id l -> x ∈ l.
Proof.
  induction l as [|y l IH]; [done|]. cbn. case_bool_decide; [by right|]. intros [->|?]%elem_of_cons; [left|right; auto].
Qed.

Lemma dropFirst_other id x l : x ∈ l -> x <> id -> x ∈ dropFirst id l.
Proof.
  intros Hx Hne. induction l as [|y l IH]; [by apply elem_of_nil in Hx|]. cbn. apply elem_of_cons in Hx as [->|Hx].
  - rewrite bool_decide_eq_false_2 by done. left.
  - case_bool_decide; [done|]. right. by apply IH.
Qed.

Lemma own_spec l sp s t id :
  represents l sp s ->
  match ownKey t id s with
  | Some k => exists e, keys s !! id = Some k /\ sp !! id = Some e /\ stands id k e /\ tenant e = t
  | None => forall e, sp !! id = Some e -> tenant e <> t
  end.
Proof.
  intros [Hk _ _ _]. specialize (Hk id). unfold ownKey.
  destruct (keys s !! id) as [k|] eqn:Ek, (sp !! id) as [e|] eqn:Ee; inversion Hk as [? ? He|]; subst; cbn; [|done].
  pose proof He as (_ & Ht & _). case_bool_decide as Hb; [exists e; repeat split; try apply He; congruence|]. intros e' [= <-]. congruence.
Qed.

(** An identifier at the end of the list of a prefix *)
Lemma append_index (bp : gmap string (list string)) p id q x :
  let bp' := <[p := default [] (bp !! p) ++ [id]]> bp in
  (x ∈ default [] (bp' !! q) -> x = id \/ x ∈ default [] (bp !! q)) /\
  (x ∈ default [] (bp !! q) -> x ∈ default [] (bp' !! q)) /\ (q = p -> id ∈ default [] (bp' !! q)).
Proof.
  cbn zeta. destruct (decide (p = q)) as [<-|Hq]; [rewrite lookup_insert_eq|rewrite lookup_insert_ne by done]; cbn.
  - rewrite !elem_of_app, !list_elem_of_singleton. naive_solver.
  - naive_solver.
Qed.

Lemma create_faithful stamped sp s t name actor raw idRaw now io :
  wellDrawn (KCreate t name actor raw idRaw now io) -> faithful sp s ->
  faithful (specStep stamped sp (KCreate t name actor raw idRaw now io)) (Create t name actor raw idRaw now io s).1.
Proof.
  intros Hl Hf. pose proof Hf as [Hr Hs]. destruct raw as [raw|]; [|exact Hf]. destruct idRaw as [idRaw|]; [|exact Hf]. cbn in Hl. cbn [specStep]. unfold Create.
  set (id := "key_" +:+ hex idRaw). set (p := lookupPrefix (plaintextOf raw)). cbn [k_ID].
  pose proof (append_index (byPrefix s) p id) as Hi. destruct io; cbn [fst].
  - apply (faithful_persist true); [|done]. apply (represents_snapshot _ _ _ _ (snapshot s)), represents_set; [done|..].
    + repeat split. by exists raw.
    + intros q x. apply (Hi q x).
    + intros q x Hx _. by apply (Hi q x).
    + by apply (proj2 (proj2 (Hi p ""))).
  - split; [|exact Hs]. cbn [known lost issueSet keys byPrefix k_ID]. fold id p. rewrite delete_insert_eq.
    apply represents_lose; [exact Hr|..]; intros q x; apply (Hi q x).
Qed.

Lemma rotate_index p q id x l (bp : gmap string (list string)) :
  let bp1 := <[p := dropFirst id (default [] (bp !! p))]> bp in
  l = default [] (<[q := default [] (bp1 !! q) ++ [id]]> bp1 !! x) ->
  forall y, (y ∈ l -> y = id \/ y ∈ default [] (bp !! x)) /\ (y ∈ default [] (bp !! x) -> y <> id -> y ∈ l) /\ (x = q -> id ∈ l).
Proof.
  intros bp1 -> y. assert (H1 : forall z, (y ∈ default [] (bp1 !! z) -> y ∈ default [] (bp !! z)) /\
    (y ∈ default [] (bp !! z) -> y <> id -> y ∈ default [] (bp1 !! z))).
  { intros z. unfold bp1. destruct (decide (p = z)) as [<-|Hz]; [rewrite lookup_insert_eq|by rewrite lookup_insert_ne].
    cbn. split; [apply elem_of_dropFirst|apply dropFirst_other]. }
  destruct (decide (q = x)) as [<-|Hx]; [rewrite lookup_insert_eq|rewrite lookup_insert_ne by done]; cbn.
  - rewrite !elem_of_app, !list_elem_of_singleton. specialize (H1 q). naive_solver.
  - specialize (H1 x). naive_solver.
Qed.

Lemma rotate_faithful stamped sp s t id raw now io :
  wellDrawn (KRotate t id raw now io) -> faithful sp s ->
  faithful (specStep stamped sp (KRotate t id raw now io)) (Rotate t id raw now io s).1.
Proof.
  intros Hl Hf. pose proof Hf as [Hr Hs]. pose proof (own_spec _ _ s t id Hr) as Hown. cbn [specStep]. unfold Rotate.
  destruct (ownKey t id s) as [k|].
  - destruct Hown as (e & Hk & He & Hst & Ht). rewrite He, bool_decide_eq_true_2 by done. cbn [andb].
    pose proof Hst as (_ & _ & _ & _ & Hact & _). rewrite Hact. destruct raw as [raw|]; [|destruct (live e); exact Hf].
    destruct (live e); cbn [negb fst]; [|exact Hf]. cbn in Hl. apply faithful_persist; [|done].
    destruct Hst as (Hid & Hten & Hpre & Hh & Hrev & _).
    rewrite <- (known_not_lost _ _ _ _ _ Hr Hk). apply represents_set; [done|..].
    + unfold stands, Active in *. destruct k; cbn in *. repeat split; [congruence..|by exists raw].
    + intros p x. apply (rotate_index (Prefix k) (lookupPrefix (plaintextOf raw)) id p _ (byPrefix s) eq_refl x).
    + intros p x. apply (rotate_index (Prefix k) (lookupPrefix (plaintextOf raw)) id p _ (byPrefix s) eq_refl x).
    + by apply (rotate_index (Prefix k) (lookupPrefix (plaintextOf raw)) id _ _ (byPrefix s) eq_refl id).
  - cbn [fst]. destruct raw as [raw|]; [|exact Hf]. destruct (known sp !! id) as [e|] eqn:He; [|exact Hf].
    rewrite bool_decide_eq_false_2; [exact Hf|]. by apply Hown.
Qed.

Lemma revoke_faithful stamped sp s t id now io :
  faithful sp s -> faithful (specStep stamped sp (KRevoke t id now io)) (Revoke t id now io s).1.
Proof.
  intros Hf. pose proof Hf as [Hr Hs]. pose proof (own_spec _ _ s t id Hr) as Hown. cbn [specStep]. unfold Revoke.
  destruct (ownKey t id s) as [k|].
  - destruct Hown as (e & Hk & He & Hst & Ht). rewrite He, bool_decide_eq_true_2 by done.
    pose proof Hst as (Hid & Hten & Hpre & Hh & Hact & Hm). unfold Active in Hact. rewrite <- Hact. destruct (RevokedAt k) eqn:Erev; cbn [fst andb]; [exact Hf|].
    apply faithful_persist; [|done]. apply (represents_again _ _ _ _ k); [done..| |done].
    unfold stands, Active in *. destruct k; cbn in *. repeat split; done || congruence.
  - cbn [fst]. destruct (known sp !! id) as [e|] eqn:He; [|exact Hf].
    rewrite bool_decide_eq_false_2; [exact Hf|]. by apply Hown.
Qed.

(** A candidate that is not in the store ends the search. *)
Lemma candidate_panics sum s ids m id :
  id ∈ ids -> keys s !! id = None -> foldl (candidate sum s) m ids = None.
Proof.
  intros Hid Hk. apply list_elem_of_split in Hid as (l1 & l2 & ->). rewrite foldl_app. cbn [foldl].
  assert (E : candidate sum s (foldl (candidate sum s) m l1) id = None) by (unfold candidate; rewrite Hk; by destruct (foldl _ _ _)).
  rewrite E. clear. by induction l2.
Qed.

(** The candidate a verification settles on *)
Lemma candidate_last sum s ids m :
  (forall id, id ∈ ids -> is_Some (keys s !! id)) ->
  exists r, foldl (candidate sum s) (Some m) ids = Some r /\
    (r = m \/ exists id k, id ∈ ids /\ r = Some k /\ keys s !! id = Some k /\ unhexText (Hash k) = Some sum) /\
    (forall id k, id ∈ ids -> keys s !! id = Some k -> unhexText (Hash k) = Some sum ->
       exists id' k', id' ∈ ids /\ r = Some k' /\ keys s !! id' = Some k' /\ unhexText (Hash k') = Some sum).
Proof.
  induction ids as [|id ids IH] using rev_ind; intros Hin.
  { exists m. split; [done|]. split; [by left|]. by intros ? ? ?%elem_of_nil. }
  destruct IH as (r & Hf & Hr & Hall); [intros x Hx; apply Hin, elem_of_app; by left|].
  destruct (Hin id) as [k Hk]; [apply elem_of_app; right; by apply list_elem_of_singleton|].
  rewrite foldl_app, Hf. cbn. rewrite Hk. cbn. eexists. split; [reflexivity|].
  assert (Hlast : id ∈ ids ++ [id]) by (apply elem_of_app; right; by apply list_elem_of_singleton).
  assert (Hup : forall x, x ∈ ids -> x ∈ ids ++ [id]) by (intros x Hx; apply elem_of_app; by left).
  case_bool_decide as Hd; (split; [|]).
  - right. by exists id, k.
  - intros _ _ _ _ _. by exists id, k.
  - destruct Hr as [->|(x & kx & ? & ? & ? & ?)]; [by left|right]. exists x, kx. auto.
  - intros x kx [Hx| ->%list_elem_of_singleton]%elem_of_app Hkx Hu; [|congruence].
    destruct (Hall x kx Hx Hkx Hu) as (y & ky & ? & ? & ? & ?). exists y, ky. auto.
Qed.

Definition digestMatches (p : string) (e : secret) : Prop := sha256 (plain e) = sha256 p.

Lemma stands_digest id k e p : stands id k e -> (unhexText (Hash k) = Some (sha256 p) <-> digestMatches p e).
Proof.
  intros (_ & _ & _ & -> & _). unfold keyHash, digestMatches. rewrite unhex_hex. split; [by intros [= ->]|by intros ->].
Qed.

(** What a verification answers, in terms of the secrets *)
Definition shaped (p : string) : Prop := Str.has_prefix p apiKeyPrefix = true /\ (12 <= String.length p)%nat.

Lemma Verify_panics l sp s p now io :
  represents l sp s -> (Verify p now io s).2 = vPanicked <-> shaped p /\ exists id, id ∈ l /\ id ∈ prefixIDs (lookupPrefix p) s.
Proof.
  intros Hr. unfold Verify, shaped. destruct (Str.has_prefix p apiKeyPrefix); cbn [negb orb]; [|split; [done|by intros [[? _] _]]].
  destruct (Nat.ltb_spec (String.length p) 12) as [Hlt|Hge]; [split; [done|]; intros [[_ ?] _]; lia|]. split.
  - intros Hv. split; [done|]. destruct (decide (Exists (fun id => keys s !! id = None) (prefixIDs (lookupPrefix p) s))) as [He|He].
    + apply Exists_exists in He as (id & Hid & Hn). exists id. split; [|done]. destruct (rp_prefix _ _ _ Hr _ _ Hid) as [[? ?]|]; [congruence|done].
    + apply not_Exists_Forall in He; [|apply _]. rewrite Forall_forall in He.
      destruct (candidate_last (sha256 p) s (prefixIDs (lookupPrefix p) s) None) as (r & Hf & _);
        [intros id Hid; apply not_eq_None_Some; by apply He|]. rewrite Hf in Hv. exfalso. clear -Hv. destruct r as [k|]; [|done].
      destruct (negb (Active k)); [done|]. by destruct (match LastUsedAt k with None => _ | Some _ => _ end).
  - intros [_ (id & Hl & Hid)]. by rewrite (candidate_panics _ _ _ _ id Hid (rp_lost _ _ _ Hr id Hl)).
Qed.

Lemma Verify_spec l sp s p now io :
  represents l sp s ->
  let '(s', v) := Verify p now io s in
  (forall k, v = vGranted k -> exists e, sp !! k_ID k = Some e /\ live e = true /\ tenant e = k_TenantID k /\ digestMatches p e) /\
  (forall id e, sp !! id = Some e -> plain e = p -> live e = true -> v <> vPanicked ->
     (forall id' e', sp !! id' = Some e' -> digestMatches p e' -> id' = id) -> exists k, v = vGranted k /\ k_ID k = id) /\
  (represents l sp s' /\ (snapshot s' = snapshot s \/ exists s1, represents l sp s1 /\ s' = persistLocked true s1)).
Proof.
  intros Hr. pose proof (Verify_panics l sp s p now io Hr) as Hpan. revert Hpan.
  unfold Verify. destruct (negb _ || _) eqn:Eg.
  { intros _. split; [done|split; [|split; [done|by left]]]. intros id e He <- Hl _ _. exfalso.
    pose proof (rp_keys _ _ _ Hr id) as Hk. rewrite He in Hk. inversion Hk as [k ? Hst|]; subst.
    destruct (minted_shape e) as [Hp Hlen]; [apply Hst|]. rewrite Hp, Hlen in Eg. discriminate. }
  set (ids := prefixIDs (lookupPrefix p) s). destruct (foldl _ _ ids) as [r|] eqn:Ef; intros Hpan.
  2:{ split; [done|]. split; [done|]. split; [done|by left]. }
  assert (Hids : forall id, id ∈ ids -> is_Some (keys s !! id)).
  { intros id Hid. destruct (keys s !! id) eqn:Ek; [done|]. by rewrite (candidate_panics _ _ _ _ id Hid Ek) in Ef. }
  clear Hpan. destruct (candidate_last (sha256 p) s ids None Hids) as (r' & Ef' & Hrr & Hall).
  rewrite Ef in Ef'. injection Ef' as <-. clear Ef.
  assert (Hcomplete : forall id e, sp !! id = Some e -> plain e = p -> live e = true ->
     (forall id' e', sp !! id' = Some e' -> digestMatches p e' -> id' = id) ->
     exists k, r = Some k /\ k_ID k = id /\ Active k = true).
  { intros id e He Hp Hl Huni. pose proof (rp_keys _ _ _ Hr id) as Hk. rewrite He in Hk.
    inversion Hk as [k ? Hst Hkk|]; subst.
    destruct (Hall id k) as (id' & k' & Hin' & -> & Hk' & Hu').
    - unfold ids. destruct Hst as (_ & _ & <- & _). by apply (rp_index _ _ _ Hr).
    - done.
    - by apply (stands_digest id k e).
    - exists k'. pose proof (rp_keys _ _ _ Hr id') as Hkx. rewrite Hk' in Hkx. inversion Hkx as [? e' Hst' Hx1 Hx2|]; subst.
      apply (stands_digest _ _ _ _ Hst') in Hu'. assert (id' = id) as -> by (eapply Huni; [symmetry; eassumption|done]).
      split; [done|]. split; [apply Hst'|]. destruct Hst' as (_ & _ & _ & _ & -> & _). congruence. }
  assert (Hsound : forall k, r = Some k -> exists e, keys s !! k_ID k = Some k /\ sp !! k_ID k = Some e /\ stands (k_ID k) k e /\ digestMatches p e).
  { intros k ->. destruct Hrr as [?|(id & k' & _ & [= <-] & Hk & Hu)]; [done|].
    pose proof (stands_id _ _ _ _ _ Hr Hk) as <-. pose proof (rp_keys _ _ _ Hr (k_ID k)) as Hkx. rewrite Hk in Hkx.
    inversion Hkx as [? e Hst Hx1 Hx2|]; subst. exists e. split; [done|]. split; [done|]. split; [done|]. by apply (stands_digest _ _ _ _ Hst). }
  destruct r as [k|].
  2:{ split; [done|split; [|split; [done|by left]]]. intros id e He Hp Hl _ Hu.
      destruct (Hcomplete id e He Hp Hl Hu) as (? & ? & _). done. }
  destruct (Hsound k eq_refl) as (e & Hk & He & Hst & Hd).
  destruct (Active k) eqn:Ea; cbn [negb].
  2:{ split; [done|split; [|split; [done|by left]]]. intros id e' He' Hp Hl _ Hu.
      destruct (Hcomplete id e' He' Hp Hl Hu) as (? & [= <-] & _ & ?). congruence. }
  assert (Hg : sp !! k_ID k = Some e /\ live e = true /\ tenant e = k_TenantID k /\ digestMatches p e).
  { destruct Hst as (_ & ? & _ & _ & ? & _). repeat split; congruence. }
  assert (Hc : forall id e', sp !! id = Some e' -> plain e' = p -> live e' = true ->
     (forall id' e'', sp !! id' = Some e'' -> digestMatches p e'' -> id' = id) -> k_ID k = id).
  { intros id e' He' Hp Hl Hu. destruct (Hcomplete id e' He' Hp Hl Hu) as (? & [= <-] & ? & _). done. }
  destruct (match LastUsedAt k with None => _ | Some _ => _ end).
  - split; [|split].
    + intros k' [= <-]. cbn. by exists e.
    + intros id e' H1 H2 H3 _ H4. eexists. split; [reflexivity|]. cbn. by apply (Hc id e').
    + assert (Hrep : forall sn, represents l sp (mkKeyStore (<[k_ID k := k{{ LastUsedAt := Some now }}]> (keys s)) (byPrefix s) sn)).
      { intros sn. rewrite <- (insert_id sp (k_ID k) e) by done. apply (represents_again _ _ _ _ k); [done..| |done].
        destruct Hst as (? & ? & ? & ? & Hact & ?). repeat split; done. }
      destruct io; cbn [persistLocked].
      * split; [apply Hrep|]. right. eexists. split; [apply (Hrep (snapshot s))|reflexivity].
      * split; [apply Hrep|by left].
  - split; [|split; [|split; [done|by left]]].
    + intros k' [= <-]. by exists e.
    + intros id e' H1 H2 H3 _ H4. eexists. split; [reflexivity|]. by apply (Hc id e').
Qed.

(** The file was rewritten, as far as it shows *)
Definition stamps s (op : keyOp) : bool := negb (bool_decide (snapshot (keyStep s op) = snapshot s)).

Lemma keyStep_faithful sp s op : wellDrawn op -> faithful sp s -> faithful (specStep (stamps s op) sp op) (keyStep s op).
Proof.
  intros Hw Hf. pose proof Hf as [Hr Hs]. destruct op as [t name actor raw idRaw now io|t id raw now io|t id now io|p now io|].
  - by apply create_faithful.
  - by apply rotate_faithful.
  - by apply revoke_faithful.
  - unfold stamps. cbn [specStep keyStep]. pose proof (Verify_spec _ _ s p now io Hr) as Hv. destruct (Verify p now io s) as [s' v]. cbn [fst].
    destruct Hv as (_ & _ & Hr' & Hsn). split; [done|]. cbn [issueSet stored]. case_bool_decide as Hb; cbn [negb]; [by rewrite Hb|].
    destruct Hsn as [?|(s1 & Hr1 & ->)]; [done|]. by eapply represents_reload.
  - cbn [keyStep specStep]. unfold faithful. cbn [known stored lost].
    assert (E : snapshot (NewAPIKeyStore (snapshot s)) = snapshot s).
    { unfold NewAPIKeyStore. generalize (snapshot s) at 1 3 as sn. intros sn.
      clear. induction (snapshot s) as [|x l IH] using rev_ind; [done|]. rewrite foldl_app. exact IH. }
    by rewrite E.
Qed.
End History.

Section Theorems.
Context `{Crypto}.

Definition runKeys (ops : list keyOp) : APIKeyStore := foldl keyStep (NewAPIKeyStore []) ops.

(** The service and what it has issued, side by side *)
Definition runBoth (ops : list keyOp) : APIKeyStore * issue :=
  foldl (fun st op => (keyStep st.1 op, specStep (stamps st.1 op) st.2 op)) (NewAPIKeyStore [], noIssue) ops.
Definition issued (ops : list keyOp) : issue := (runBoth ops).2.

Lemma runBoth_store ops : (runBoth ops).1 = runKeys ops.
Proof. unfold runBoth, runKeys. induction ops as [|op ops IH] using rev_ind; [done|]. rewrite !foldl_app. cbn [foldl fst]. by rewrite IH. Qed.

Lemma issued_snoc ops op : issued (ops ++ [op]) = specStep (stamps (runKeys ops) op) (issued ops) op.
Proof. unfold issued at 1, runBoth. rewrite foldl_app. cbn [foldl snd]. fold (runBoth ops). by rewrite runBoth_store. Qed.

Lemma runKeys_faithful ops : Forall wellDrawn ops -> faithful (issued ops) (runKeys ops).
Proof.
  induction ops as [|op ops IH] using rev_ind; intros Hw.
  - split; apply represents_empty.
  - apply Forall_app in Hw as [Hw Ho]. rewrite issued_snoc. unfold runKeys. rewrite foldl_app. cbn [foldl].
    apply keyStep_faithful; [by inversion Ho|by apply IH].
Qed.

(** With a file that can be written the file holds what the service knows. *)
Lemma writable_in_step ops : Forall writable ops -> stored (issued ops) = known (issued ops) /\ lost (issued ops) = ∅.
Proof.
  induction ops as [|op ops IH] using rev_ind; intros Hw; [done|]. apply Forall_app in Hw as [Hw [Ho _]%Forall_cons].
  destruct (IH Hw) as [Hs Hl]. rewrite issued_snoc. set (b := stamps _ _). clearbody b.
  destruct op as [t name actor raw idRaw now io|t id raw now io|t id now io|p now io|]; cbn in Ho; subst; cbn [specStep].
  - destruct raw, idRaw; [|by split..]. cbn [issueSet stored known lost]. split; [done|]. rewrite Hl. set_solver.
  - destruct raw; [|by split]. by repeat case_match.
  - by repeat case_match.
  - by destruct b.
  - done.
Qed.


(** A revocation whose snapshot cannot be written is not repeated: the
    caller is told it failed, but asking again is answered as a success without
    a write, so a restart brings the key back as it was. *)
Theorem revoke_retry_not_durable tenant id k now now' s :
  ownKey tenant id s = Some k -> RevokedAt k = None ->
  let '(s1, r1) := Revoke tenant id now false s in
  let '(s2, r2) := Revoke tenant id now' true s1 in
  r1 = Err ErrKeyPersist /\ r2 = Ok (k{{ RevokedAt := Some now }}) /\ NewAPIKeyStore (snapshot s2) = NewAPIKeyStore (snapshot s).
Proof.
  intros Hown Hrev. unfold Revoke at 1. rewrite Hown, Hrev. cbn [persistLocked]. unfold Revoke, ownKey. cbn [keys].
  rewrite lookup_insert_eq. cbn. unfold ownKey in Hown. destruct (keys s !! id) as [k0|]; [|done]. cbn in Hown.
  case_bool_decide as Ht; [|done]. injection Hown as ->. rewrite bool_decide_eq_true_2 by done. cbn. done.
Qed.

(** A key opens the invoice and VAT routes only, as an operator of its
    tenant: a presented key never falls through to the next middleware, and no
    key reaches the key routes or another route. *)
Theorem apikey_scope key path now io s :
  key <> "" ->
  match (apiKeyMiddleware key path now io s).2 with
  | toRoutes c => apiKeyAllowedPath path = true /\ Str.has_prefix path "/v1/apikeys" = false /\ Auth.Roles c = ["operator"] /\
      exists k, (Verify key now io s).2 = vGranted k /\ Auth.c_TenantID c = k_TenantID k
  | toFallback => False
  | refused code => code = 403 /\ apiKeyAllowedPath path = false \/ code = 401 /\ (Verify key now io s).2 = vDenied
  | crashed => (Verify key now io s).2 = vPanicked
  end.
Proof.
  intros Hk. unfold apiKeyMiddleware. rewrite bool_decide_eq_false_2 by done.
  destruct (apiKeyAllowedPath path) eqn:Ep; cbn [negb]; [|by left].
  destruct (Verify key now io s) as [s' [| |k]]; cbn; [done|by right|]. split; [done|]. split; [|split; [done|by exists k]].
  unfold apiKeyAllowedPath in Ep. destruct (_ || _) eqn:Ea; [done|]. bools.
  destruct (Str.has_prefix path "/v1/apikeys") eqn:E; [|done]. exfalso. clear -Ep E.
  unfold Str.has_prefix in *. do 11 (destruct path as [|[[] [] [] [] [] [] [] []] path]; try discriminate).
Qed.
End Theorems.

(** ** Witnesses *)

Definition demo_raw (c : ascii) : string := String.concat "" (repeat (String c "") 32).
Definition demo_old : string := demo_raw "a".
Definition demo_new : string := demo_raw "b".
Definition demo_id : string := "key_6964".

(** A key that was created and rotated: the new secret works, the old one is
    dead, also after a restart. *)
Definition demo_history : list keyOp :=
  [KCreate "t1" "till" "ada" (Some demo_old) (Some "id") 0 true; KRotate "t1" demo_id (Some demo_new) 1 true; KRestart].

#[local] Existing Instance Toy.crypto.

(** The same key, its revocation not written, and a second key whose creation
    was not written: the service refuses the first until a restart, and panics
    on what looks like the second. *)
Definition demo_third : string := demo_raw "c".
Definition unwritten_history : list keyOp :=
  demo_history ++ [KRevoke "t1" demo_id 2 false; KCreate "t1" "till2" "ada" (Some demo_third) (Some "jd") 3 false].

Lemma demo_issued : issued unwritten_history =
  mkIssue {[ demo_id := mkSecret (plaintextOf demo_new) "t1" false ]} {[ demo_id := mkSecret (plaintextOf demo_new) "t1" true ]} {[ "key_6a64" ]}.
Proof. vm_compute. reflexivity. Qed.


Example unwritten_revocation :
  (Verify (plaintextOf demo_new) 4 true (runKeys unwritten_history)).2 = vDenied /\
  (exists k, (Verify (plaintextOf demo_new) 4 true (runKeys (unwritten_history ++ [KRestart]))).2 = vGranted k) /\
  (Verify (plaintextOf demo_third) 4 true (runKeys unwritten_history)).2 = vPanicked.
Proof. split_and!; [vm_compute; reflexivity|eexists; vm_compute; reflexivity|vm_compute; reflexivity]. Qed.

Example old_secret_dead : (Verify (plaintextOf demo_old) 2 true (runKeys demo_history)).2 = vDenied.
Proof. vm_compute. reflexivity. Qed.

Definition demo_store : APIKeyStore := runKeys [KCreate "t1" "till" "ada" (Some demo_old) (Some "id") 0 true].
Definition demo_key : APIKey :=
  mkKey demo_id "t1" "till" (lookupPrefix (plaintextOf demo_old)) (keyHash (plaintextOf demo_old)) "ada" 0 None None None.

Lemma revoke_retry_not_durable_witness :
  let '(s1, r1) := Revoke "t1" demo_id 5 false demo_store in
  let '(s2, r2) := Revoke "t1" demo_id 6 true s1 in
  r1 = Err ErrKeyPersist /\ r2 = Ok (demo_key{{ RevokedAt := Some 5 }}) /\
  NewAPIKeyStore (snapshot s2) = NewAPIKeyStore (snapshot demo_store).
Proof. apply (revoke_retry_not_durable "t1" demo_id demo_key 5 6 demo_store); vm_compute; reflexivity. Defined.

Lemma apikey_scope_witness :
  match (apiKeyMiddleware (plaintextOf demo_old) "/v1/invoices" 5 true demo_store).2 with
  | toRoutes c => apiKeyAllowedPath "/v1/invoices" = true /\ Str.has_prefix "/v1/invoices" "/v1/apikeys" = false /\
      Auth.Roles c = ["operator"] /\
      exists k, (Verify (plaintextOf demo_old) 5 true demo_store).2 = vGranted k /\ Auth.c_TenantID c = k_TenantID k
  | toFallback => False
  | refused code => code = 403 /\ apiKeyAllowedPath "/v1/invoices" = false \/
                    code = 401 /\ (Verify (plaintextOf demo_old) 5 true demo_store).2 = vDenied
  | crashed => (Verify (plaintextOf demo_old) 5 true demo_store).2 = vPanicked
  end.
Proof. apply (apikey_scope (plaintextOf demo_old) "/v1/invoices" 5 true demo_store). discriminate. Defined.
