(* ===== verification/Keyx.v ===== *)
(** * Keys (packages/keyx/provider/provider.go and software.go,
    services/einvoicing/sign.go)

    The choice of a key provider, the software provider with its key files,
    and the signing identity of the e-invoicing service.  Ed25519 is a
    parameter: the key of a seed, the public key, signing and verifying.  The
    files of the key directory are a map from names to contents; reads and
    writes may fail, a write also half-way.  The PKCS#11 and cloud providers
    are parameters. *)

From S2P Require Import Prelude StrFacts Crypto EinvModel EinvStore.
From S2P Require EinvApiKeys EinvValidate.

(** ** The choice of a provider *)

Record Config := mkConfig {
  Provider : string;
  KeyDir : string;
  PKCS11Plugin : string;
  KMSBaseURL : string;
  KMSStyle : string;
  KMSToken : string;
}.

Definition ConfigFromEnv (env : string -> string) : Config :=
  mkConfig (Str.to_lower (Str.trim_space (env "KEY_PROVIDER"))) (env "KEY_DIR") (env "KEY_PKCS11_PLUGIN") (env "KMS_BASE_URL")
    (Str.to_lower (Str.trim_space (env "KMS_STYLE"))) (env "KMS_BEARER_TOKEN").

Inductive SignerProvider := software (dir : string) | pkcs11 (plugin : string) | cloudKMS (base style tok : string).

Inductive providerError := ErrUnavailable | ErrStart.

Definition Mode (p : SignerProvider) : string :=
  match p with software _ => "software" | pkcs11 _ => "pkcs11" | cloudKMS _ _ _ => "cloud-kms" end.

(** [tmp]: the temporary directory; the three answers: the key directory can
    be made, the plugin starts, the client of the KMS is built *)
Definition New (tmp : string) (mkdirOk pluginOk kmsOk : bool) (cfg : Config) : result providerError SignerProvider :=
  let p := Provider cfg in
  if bool_decide (p = "") || bool_decide (p = "software") then
    if mkdirOk then Ok (software (if bool_decide (KeyDir cfg = "") then tmp +:+ "/meridian-keys" else KeyDir cfg)) else Err ErrStart
  else if bool_decide (p = "hsm") || bool_decide (p = "pkcs11") then
    if bool_decide (PKCS11Plugin cfg = "") then Err ErrUnavailable
    else if pluginOk then Ok (pkcs11 (PKCS11Plugin cfg)) else Err ErrUnavailable
  else if bool_decide (p = "cloud-kms") || bool_decide (p = "kms") then
    if bool_decide (KMSBaseURL cfg = "") then Err ErrUnavailable
    else if kmsOk then Ok (cloudKMS (KMSBaseURL cfg) (KMSStyle cfg) (KMSToken cfg)) else Err ErrStart
  else Err ErrUnavailable.

(** ** The software provider *)

(** What a write did: nothing, all, or left the file with other contents *)
Inductive writeAnswer := written | refused | torn (left_ : string).

(** The answers during one call: whether the key file can be read, what the
    random source gives for a private key and for a secret, what the write
    does *)
Record keyIO := mkKeyIO { readOk : bool; fresh : option string; secret : option string; write : writeAnswer }.

(** The two caches in memory, and the key directory *)
Record Software := mkSoftware { keys : gmap string string; macs : gmap string string; files : gmap string string }.

Definition writeFile (w : writeAnswer) (name content : string) (fs : gmap string string) : gmap string string * bool :=
  match w with
  | written => (<[name := content]> fs, true)
  | refused => (fs, false)
  | torn left_ => (<[name := left_]> fs, false)
  end.

Definition IsHMACKeyID (keyID : string) : bool := Str.has_suffix keyID "-hmac".

Definition underscore (c : ascii) : ascii := if bool_decide (c = "-"%char) || bool_decide (c = "."%char) then "_"%char else c.
Definition envName (keyID suffix : string) : string := Str.to_upper (Str.map underscore keyID) +:+ suffix.

Definition edFile (keyID : string) : string := keyID +:+ "_ed25519.key".
Definition macFile (keyID : string) : string := keyID +:+ ".key".

Inductive keyError := badSeed | noRandom | noWrite | ErrSymmetricKey | envSeeded.

Section Keys.
Context `{Crypto} (env : string -> string)
  (seedKey pubOf : string -> string) (edSign : string -> string -> string) (edVerify : string -> string -> string -> bool).

(** A key file is taken when it can be read and has the size of a key. *)
Definition readKey (io : keyIO) (name : string) (sized : string -> bool) (fs : gmap string string) : option string :=
  if readOk io then match fs !! name with Some data => if sized data then Some data else None | None => None end else None.

Definition privateSize (s : string) : bool := (String.length s =? 64)%nat.
Definition secretSize (s : string) : bool := (32 <=? String.length s)%nat.

Definition ed25519Key (io : keyIO) (keyID : string) (s : Software) : Software * result keyError string :=
  match keys s !! keyID with
  | Some k => (s, Ok k)
  | None =>
      let keep k fs := (mkSoftware (<[keyID := k]> (keys s)) (macs s) fs, Ok k) in
      let seedHex := env (envName keyID "_SEED_HEX") in
      if negb (bool_decide (seedHex = "")) then
        match EinvApiKeys.unhexText seedHex with
        | Some seed => if (String.length seed =? 32)%nat then keep (seedKey seed) (files s) else (s, Err badSeed)
        | None => (s, Err badSeed)
        end
      else
        match readKey io (edFile keyID) privateSize (files s) with
        | Some k => keep k (files s)
        | None => match fresh io with
                  | None => (s, Err noRandom)
                  | Some k => let '(fs, ok) := writeFile (write io) (edFile keyID) k (files s) in
                              if ok then keep k fs else (mkSoftware (keys s) (macs s) fs, Err noWrite)
                  end
        end
  end.

Definition hmacKey (io : keyIO) (keyID : string) (s : Software) : Software * result keyError string :=
  match macs s !! keyID with
  | Some k => (s, Ok k)
  | None =>
      let keep k fs := (mkSoftware (keys s) (<[keyID := k]> (macs s)) fs, Ok k) in
      let v := env (envName keyID "_KEY") in
      if negb (bool_decide (v = "")) then keep v (files s)
      else
        match readKey io (macFile keyID) secretSize (files s) with
        | Some k => keep k (files s)
        | None => match secret io with
                  | None => (s, Err noRandom)
                  | Some k => let '(fs, ok) := writeFile (write io) (macFile keyID) k (files s) in
                              if ok then keep k fs else (mkSoftware (keys s) (macs s) fs, Err noWrite)
                  end
        end
  end.

Definition Sign (io : keyIO) (keyID payload : string) (s : Software) : Software * result keyError string :=
  if IsHMACKeyID keyID then
    let '(s, k) := hmacKey io keyID s in (s, match k with Ok k => Ok (hmac256 k payload) | Err e => Err e end)
  else
    let '(s, k) := ed25519Key io keyID s in (s, match k with Ok k => Ok (edSign k payload) | Err e => Err e end).

Definition PublicKey (io : keyIO) (keyID : string) (s : Software) : Software * result keyError string :=
  if IsHMACKeyID keyID then (s, Err ErrSymmetricKey)
  else let '(s, k) := ed25519Key io keyID s in (s, match k with Ok k => Ok (pubOf k) | Err e => Err e end).

Definition Rotate (io : keyIO) (keyID : string) (s : Software) : Software * result keyError unit :=
  if negb (bool_decide (env (envName keyID "_SEED_HEX") = "")) || negb (bool_decide (env (envName keyID "_KEY") = "")) then (s, Err envSeeded)
  else let mac := IsHMACKeyID keyID in
       match (if mac then secret io else fresh io) with
       | None => (s, Err noRandom)
       | Some k =>
           let '(fs, ok) := writeFile (write io) (if mac then macFile keyID else edFile keyID) k (files s) in
           if ok then
             (if mac then mkSoftware (keys s) (<[keyID := k]> (macs s)) fs else mkSoftware (<[keyID := k]> (keys s)) (macs s) fs, Ok tt)
           else (mkSoftware (keys s) (macs s) fs, Err noWrite)
       end.

(** A new process on the same directory *)
Definition reopen (s : Software) : Software := mkSoftware ∅ ∅ (files s).

(** ** The signing identity *)

Record CSIDSigner := mkSigner { s_priv : option string; s_pub : string; s_keyID : string }.

Definition shortKeyID (pub : string) : string := "csid-" +:+ hex (Str.take 4 (sha256 pub)).

Definition csidOf (k : string) : CSIDSigner := mkSigner (Some k) (pubOf k) (shortKeyID (pubOf k)).

(** [LoadCSID] on the files of its directory *)
Definition LoadCSID (mkdirOk : bool) (io : keyIO) (fs : gmap string string) : gmap string string * result keyError CSIDSigner :=
  if negb mkdirOk then (fs, Err noWrite)
  else
    let seedHex := env "CSID_SEED_HEX" in
    if negb (bool_decide (seedHex = "")) then
      (fs, match EinvApiKeys.unhexText seedHex with
           | Some seed => if (String.length seed =? 32)%nat then Ok (csidOf (seedKey seed)) else Err badSeed
           | None => Err badSeed
           end)
    else
      match readKey io "csid_ed25519.key" privateSize fs with
      | Some k => (fs, Ok (csidOf k))
      | None => match fresh io with
                | None => (fs, Err noRandom)
                | Some k => let '(fs, ok) := writeFile (write io) "csid_ed25519.key" k fs in (fs, if ok then Ok (csidOf k) else Err noWrite)
                end
      end.

(** [provPub]: the answer of a provider that is not software to [PublicKey] *)
Definition LoadCSIDWithProvider (prov : option SignerProvider) (provPub : option string) (mkdirOk : bool) (io : keyIO) (fs : gmap string string)
  : gmap string string * result keyError CSIDSigner :=
  match prov with
  | None | Some (software _) => LoadCSID mkdirOk io fs
  | Some _ =>
      (fs, match provPub with
           | Some pub => if (String.length pub =? 32)%nat then Ok (mkSigner None pub (shortKeyID pub)) else Err badSeed
           | None => Err noRandom
           end)
  end.

(** [SignPayloadECtx]; [remote]: the signature of the provider *)
Definition SignPayload (remote : string -> option string) (s : CSIDSigner) (payload : string) : option string :=
  match s_priv s with
  | None => option_map hex (remote payload)
  | Some k => Some (hex (edSign k payload))
  end.

Definition SignInvoice (remote : string -> option string) (s : CSIDSigner) (inv : CanonicalInvoice) : CanonicalInvoice * bool :=
  match SignPayload remote s (Hash inv) with
  | None => (inv, false)
  | Some sig => (inv{{ CSIDSignature := sig; CSIDKeyID := s_keyID s }}, true)
  end.

Definition Verify (pubHex payload sigHex : string) : bool :=
  match EinvApiKeys.unhexText pubHex, EinvApiKeys.unhexText sigHex with
  | Some pub, Some sig => if (String.length pub =? 32)%nat then edVerify pub payload sig else false
  | _, _ => false
  end.
End Keys.

(** ** The choice fails closed *)

(** A provider that is configured and not to be had is an error, never the
    software provider: software keys are chosen only when nothing or software
    is named, and the other providers only with their plugin or address. *)
Theorem provider_fail_closed tmp mkdirOk pluginOk kmsOk cfg :
  match New tmp mkdirOk pluginOk kmsOk cfg with
  | Ok (software _) => (Provider cfg = "" \/ Provider cfg = "software") /\ mkdirOk = true
  | Ok (pkcs11 plugin) => (Provider cfg = "hsm" \/ Provider cfg = "pkcs11") /\ plugin = PKCS11Plugin cfg /\ plugin <> "" /\ pluginOk = true
  | Ok (cloudKMS base _ _) => (Provider cfg = "cloud-kms" \/ Provider cfg = "kms") /\ base = KMSBaseURL cfg /\ base <> "" /\ kmsOk = true
  | Err _ => Provider cfg = "" \/ Provider cfg = "software" -> mkdirOk = false
  end.
Proof.
  unfold New. repeat case_bool_decide; cbn [orb]; destruct mkdirOk, pluginOk, kmsOk; naive_solver congruence.
Qed.

(** ** Keys last *)

Lemma str_app_inj_r a b c : a +:+ c = b +:+ c -> a = b.
Proof.
  intros E. assert (R : Str.rev a = Str.rev b).
  { apply (f_equal Str.rev) in E. rewrite !rev_app in E. induction (Str.rev c) as [|x r IH]; [done|]. rewrite !str_app_cons in E. injection E as E. by apply IH. }
  by rewrite <- (rev_involutive a), R, rev_involutive.
Qed.

(** No secret's file is a private key's file. *)
Lemma files_apart a b : IsHMACKeyID b = true -> edFile a <> macFile b.
Proof.
  unfold edFile, macFile. intros Hb E. change "_ed25519.key" with ("_ed25519" +:+ ".key") in E. rewrite str_app_assoc in E. apply str_app_inj_r in E.
  subst b. unfold IsHMACKeyID, Str.has_suffix in Hb. rewrite rev_app in Hb. done.
Qed.

Lemma edFile_inj a b : edFile a = edFile b -> a = b.
Proof. apply str_app_inj_r. Qed.

Section Stability.
Context `{Crypto} (env : string -> string)
  (seedKey pubOf : string -> string) (edSign : string -> string -> string).

Inductive keyOp := opSign (keyID payload : string) | opPublic (keyID : string) | opRotate (keyID : string) | opReopen.

Definition step (s : Software) (o : keyIO * keyOp) : Software :=
  match o.2 with
  | opSign keyID payload => (Sign env seedKey edSign o.1 keyID payload s).1
  | opPublic keyID => (PublicKey env seedKey pubOf o.1 keyID s).1
  | opRotate keyID => (Rotate env o.1 keyID s).1
  | opReopen => reopen s
  end.

(** What gives [keyID] the key [k] in every process: the seed, or the file *)
Definition durable (keyID k : string) (s : Software) : Prop :=
  (if decide (env (envName keyID "_SEED_HEX") = "") then files s !! edFile keyID = Some k /\ privateSize k = true
   else exists seed, EinvApiKeys.unhexText (env (envName keyID "_SEED_HEX")) = Some seed /\ String.length seed = 32%nat /\ k = seedKey seed) /\
  (forall k', keys s !! keyID = Some k' -> k' = k).

(** The random source gives keys of the right size, and the directory can be
    read. *)
Definition sound (io : keyIO) : Prop := readOk io = true /\ forall k, fresh io = Some k -> privateSize k = true.

Definition leaves (keyID : string) (o : keyOp) : Prop := match o with opRotate id => id <> keyID | _ => True end.

Lemma ed25519Key_answer io keyID s s' k : IsHMACKeyID keyID = false -> sound io ->
  (forall k', keys s !! keyID = Some k' -> durable keyID k' s) ->
  ed25519Key env seedKey io keyID s = (s', Ok k) -> durable keyID k s'.
Proof.
  intros Hm [Hr Hf] Hw. unfold ed25519Key. destruct (keys s !! keyID) as [k0|] eqn:Ek; [intros [= <- <-]; by apply Hw|].
  unfold durable. case_bool_decide as Ee; cbn [negb].
  - rewrite decide_True by done. unfold readKey. rewrite Hr. destruct (files s !! edFile keyID) as [data|] eqn:Ed.
    + destruct (privateSize data) eqn:Es.
      * intros [= <- <-]. cbn. by split; [|rewrite lookup_insert_eq; intros ? [= ->]].
      * destruct (fresh io) as [k1|]; [|done]. destruct (write io); cbn [writeFile]; [|done..]. intros [= <- <-]. cbn.
        rewrite !lookup_insert_eq. split; [split; [done|by apply Hf]|by intros ? [= ->]].
    + destruct (fresh io) as [k1|]; [|done]. destruct (write io); cbn [writeFile]; [|done..]. intros [= <- <-]. cbn.
      rewrite !lookup_insert_eq. split; [split; [done|by apply Hf]|by intros ? [= ->]].
  - rewrite decide_False by done. destruct (EinvApiKeys.unhexText _) as [seed|]; [|done]. destruct (Nat.eqb_spec (String.length seed) 32); [|done].
    intros [= <- <-]. cbn. split; [by exists seed|]. rewrite lookup_insert_eq. by intros ? [= ->].
Qed.

Lemma ed25519Key_durable io keyID k s : readOk io = true -> durable keyID k s ->
  exists s', ed25519Key env seedKey io keyID s = (s', Ok k).
Proof.
  intros Hr [Hd Hc]. unfold ed25519Key. destruct (keys s !! keyID) as [k0|] eqn:Ek; [exists s; by rewrite (Hc k0)|].
  destruct (decide (env (envName keyID "_SEED_HEX") = "")) as [Ee|Ee].
  - destruct Hd as [Hf Hs]. rewrite bool_decide_eq_true_2 by done. cbn [negb]. unfold readKey. rewrite Hr, Hf, Hs. by eexists.
  - destruct Hd as (seed & Hu & Hl & ->). rewrite bool_decide_eq_false_2 by done. cbn [negb]. rewrite Hu, Hl. by eexists.
Qed.

(** Getting another key touches neither the cache nor the file of this one. *)
Lemma ed25519Key_other io id keyID s : id <> keyID ->
  let s' := (ed25519Key env seedKey io id s).1 in keys s' !! keyID = keys s !! keyID /\ files s' !! edFile keyID = files s !! edFile keyID.
Proof.
  intros Hne. unfold ed25519Key. destruct (keys s !! id); [done|].
  assert (Hf : edFile id <> edFile keyID) by (by intros ?%edFile_inj).
  destruct (negb _).
  - destruct (EinvApiKeys.unhexText _); [|done]. destruct (_ =? _)%nat; [|done]. cbn. by rewrite lookup_insert_ne.
  - destruct (readKey _ _ _ _); [cbn; by rewrite lookup_insert_ne|]. destruct (fresh io); [|done].
    destruct (write io); cbn; rewrite ?lookup_insert_ne by done; done.
Qed.

Lemma hmacKey_other io id keyID s : IsHMACKeyID id = true ->
  let s' := (hmacKey env io id s).1 in keys s' !! keyID = keys s !! keyID /\ files s' !! edFile keyID = files s !! edFile keyID.
Proof.
  intros Hm. unfold hmacKey. destruct (macs s !! id); [done|]. pose proof (files_apart keyID id Hm) as Hf.
  destruct (negb _); [done|]. destruct (readKey _ _ _ _); [done|]. destruct (secret io); [|done].
  destruct (write io); cbn; rewrite ?lookup_insert_ne by done; done.
Qed.

Lemma durable_frame keyID k s s' : keys s' !! keyID = keys s !! keyID -> files s' !! edFile keyID = files s !! edFile keyID ->
  durable keyID k s -> durable keyID k s'.
Proof. unfold durable. by intros -> ->. Qed.

(** Asking for the key itself, when it is durable, keeps it so. *)
Lemma ed25519Key_same io keyID k s : IsHMACKeyID keyID = false -> sound io -> durable keyID k s -> durable keyID k (ed25519Key env seedKey io keyID s).1.
Proof.
  intros Hm Hio Hd. destruct (ed25519Key_durable io keyID k s (proj1 Hio) Hd) as [s' E]. rewrite E.
  eapply ed25519Key_answer; [done|exact Hio| |exact E]. intros k' Hk'. destruct (proj2 Hd k' Hk'). exact Hd.
Qed.

Lemma step_durable keyID k s o : IsHMACKeyID keyID = false -> sound o.1 -> leaves keyID o.2 -> durable keyID k s -> durable keyID k (step s o).
Proof.
  intros Hm Hio Hl Hd. destruct o as [io [id payload|id|id|]]; cbn [fst snd] in *; unfold step; cbn [fst snd].
  - unfold Sign. destruct (IsHMACKeyID id) eqn:Hi.
    + pose proof (hmacKey_other io id keyID s Hi) as [H1 H2]. destruct (hmacKey _ _ _ _) as [s' r]. by eapply durable_frame.
    + destruct (decide (id = keyID)) as [->|Hne].
      * pose proof (ed25519Key_same io keyID k s Hm Hio Hd) as Hs. by destruct (ed25519Key _ _ _ _ _) as [s' r].
      * pose proof (ed25519Key_other io id keyID s Hne) as [H1 H2]. destruct (ed25519Key _ _ _ _ _) as [s' r]. by eapply durable_frame.
  - unfold PublicKey. destruct (IsHMACKeyID id) eqn:Hi; [done|]. destruct (decide (id = keyID)) as [->|Hne].
    + pose proof (ed25519Key_same io keyID k s Hm Hio Hd) as Hs. by destruct (ed25519Key _ _ _ _ _) as [s' r].
    + pose proof (ed25519Key_other io id keyID s Hne) as [H1 H2]. destruct (ed25519Key _ _ _ _ _) as [s' r]. by eapply durable_frame.
  - unfold Rotate. destruct (_ || _); [done|]. destruct (if IsHMACKeyID id then secret io else fresh io) as [k1|]; [|done].
    assert (Hf : (if IsHMACKeyID id then macFile id else edFile id) <> edFile keyID).
    { destruct (IsHMACKeyID id) eqn:Hi; [by intros E%eq_sym; apply (files_apart keyID id Hi)|by intros ?%edFile_inj]. }
    cbn in Hl. destruct (write io), (IsHMACKeyID id); cbn; eapply durable_frame; try exact Hd; cbn; rewrite ?lookup_insert_ne by done; done.
  - destruct Hd as [Hd _]. split; [exact Hd|]. cbn. intros k'. by rewrite lookup_empty.
Qed.

Lemma run_durable keyID k ops : IsHMACKeyID keyID = false -> Forall (fun o => sound o.1 /\ leaves keyID o.2) ops ->
  forall s, durable keyID k s -> durable keyID k (foldl step s ops).
Proof.
  intros Hm Hops. induction Hops as [|o ops [Ho Hl] _ IH]; intros s Hd; [done|]. cbn [foldl]. by apply IH, step_durable.
Qed.

(** C23: A signing key lasts: once a process has answered its public key, it
    and every later process on the same directory answer the same public key
    and sign with its private key - over any signatures, other keys being
    made, rotated or torn, and restarts -, as long as nobody rotates it, the
    directory can be read and the environment stays. *)
Theorem software_key_stable s keyID io1 io2 ops p payload :
  IsHMACKeyID keyID = false -> sound io1 -> sound io2 -> Forall (fun o => sound o.1 /\ leaves keyID o.2) ops ->
  (PublicKey env seedKey pubOf io1 keyID (reopen s)).2 = Ok p ->
  let s' := foldl step (PublicKey env seedKey pubOf io1 keyID (reopen s)).1 ops in
  exists k, pubOf k = p /\ (PublicKey env seedKey pubOf io2 keyID s').2 = Ok p /\ (Sign env seedKey edSign io2 keyID payload s').2 = Ok (edSign k payload).
Proof.
  intros Hm H1 H2 Hops. unfold PublicKey at 1 2, Sign. rewrite Hm. destruct (ed25519Key env seedKey io1 keyID (reopen s)) as [s1 [k|e]] eqn:E; [|done].
  cbn [fst snd]. intros [= <-]. exists k. split; [done|].
  assert (Hd : durable keyID k s1).
  { eapply ed25519Key_answer; [done|exact H1| |exact E]. intros k' Hk'. cbn in Hk'. by rewrite lookup_empty in Hk'. }
  destruct (ed25519Key_durable io2 keyID k _ (proj1 H2) (run_durable keyID k ops Hm Hops s1 Hd)) as [s2 E2].
  unfold PublicKey. rewrite Hm, E2. done.
Qed.

(** A rotation that is cut short while it writes the file is answered with
    an error, and the process goes on with the old key - but the file no longer
    holds a key, so the next process makes a new one without a word: the old
    public key is gone. *)
Theorem torn_rotation_loses_key s keyID k io io' left_ k1 k' :
  IsHMACKeyID keyID = false -> env (envName keyID "_SEED_HEX") = "" -> env (envName keyID "_KEY") = "" ->
  keys s !! keyID = Some k -> fresh io = Some k1 -> write io = torn left_ -> privateSize left_ = false ->
  fresh io' = Some k' -> write io' = written ->
  let '(s1, r) := Rotate env io keyID s in
  r = Err noWrite /\ (PublicKey env seedKey pubOf io' keyID s1).2 = Ok (pubOf k) /\ (PublicKey env seedKey pubOf io' keyID (reopen s1)).2 = Ok (pubOf k').
Proof.
  intros Hm He1 He2 Hk Hf Hw Hl Hf' Hw'. unfold Rotate. rewrite He1, He2. cbn [negb orb bool_decide]. rewrite !bool_decide_eq_true_2 by done. cbn [negb orb].
  rewrite Hm, Hf, Hw. cbn [writeFile]. split; [done|]. unfold PublicKey. rewrite Hm. unfold ed25519Key. cbn [keys files macs reopen]. rewrite Hk.
  split; [done|]. rewrite lookup_empty, He1, bool_decide_eq_true_2 by done. cbn [negb]. unfold readKey. rewrite lookup_insert_eq, Hl, Hf', Hw'.
  by destruct (readOk io').
Qed.
End Stability.

(** ** Signatures verify *)

Section Signatures.
Context `{Crypto} (env : string -> string)
  (seedKey pubOf : string -> string) (edSign : string -> string -> string) (edVerify : string -> string -> string -> bool).

Lemma hash_signed inv sig kid : Hash (inv{{ CSIDSignature := sig; CSIDKeyID := kid }}) = Hash inv.
Proof. by destruct inv. Qed.

(** The keys Ed25519 generates, and that seeds give *)
Context (genuine : string -> Prop).

Lemma LoadCSID_genuine mkdirOk io fs fs' signer :
  (forall seed, String.length seed = 32%nat -> genuine (seedKey seed)) -> (forall k, fresh io = Some k -> genuine k) ->
  (forall k, fs !! "csid_ed25519.key" = Some k -> privateSize k = true -> genuine k) ->
  LoadCSID env seedKey pubOf mkdirOk io fs = (fs', Ok signer) -> exists k, signer = csidOf pubOf k /\ genuine k.
Proof.
  intros Hseed Hfresh Hfile. unfold LoadCSID. destruct mkdirOk; [|done]. cbn [negb]. destruct (negb _).
  - destruct (EinvApiKeys.unhexText _) as [seed|]; [|done]. destruct (Nat.eqb_spec (String.length seed) 32); [|done]. intros [= _ <-].
    eexists. split; [done|]. by apply Hseed.
  - destruct (readKey _ _ _ _) as [k|] eqn:Ek.
    + intros [= _ <-]. eexists. split; [done|]. unfold readKey in Ek. destruct (readOk io); [|done].
      destruct (fs !! "csid_ed25519.key") as [data|] eqn:Ed; [|done]. destruct (privateSize data) eqn:Es; [|done]. injection Ek as ->. by apply Hfile.
    + destruct (fresh io) as [k|]; [|done]. destruct (writeFile _ _ _ _) as [fs1 []]; [intros [= _ <-]|done].
      eexists. split; [done|]. by apply Hfresh.
Qed.

(** An invoice signed with a key of this process - from the seed, the file
    or the random source - carries a signature of its hash that verifies under
    the public key the signer publishes, and the key identifier of that public
    key; signing changes nothing that is hashed. *)
Theorem csid_signature_verifies mkdirOk io fs fs' signer remote inv :
  (forall k m, genuine k -> edVerify (pubOf k) m (edSign k m) = true) -> (forall k, genuine k -> String.length (pubOf k) = 32%nat) ->
  (forall seed, String.length seed = 32%nat -> genuine (seedKey seed)) -> (forall k, fresh io = Some k -> genuine k) ->
  (forall k, fs !! "csid_ed25519.key" = Some k -> privateSize k = true -> genuine k) ->
  LoadCSID env seedKey pubOf mkdirOk io fs = (fs', Ok signer) ->
  let '(inv', ok) := SignInvoice edSign remote signer inv in
  ok = true /\ Hash inv' = Hash inv /\ CSIDKeyID inv' = shortKeyID (s_pub signer) /\
  Verify edVerify (hex (s_pub signer)) (Hash inv') (CSIDSignature inv') = true.
Proof.
  intros Hlaw Hlen Hseed Hfresh Hfile Hload.
  destruct (LoadCSID_genuine mkdirOk io fs fs' signer Hseed Hfresh Hfile Hload) as (k & -> & Hk).
  unfold SignInvoice, SignPayload, csidOf. cbn [s_priv s_keyID s_pub]. rewrite hash_signed.
  split; [done|]. split; [done|]. split; [by destruct inv|].
  assert (E : CSIDSignature (inv{{ CSIDSignature := hex (edSign k (Hash inv)); CSIDKeyID := shortKeyID (pubOf k) }}) = hex (edSign k (Hash inv)))
    by by destruct inv.
  rewrite E. unfold Verify. rewrite !EinvApiKeys.unhex_hex, (Hlen k Hk), (Hlaw k _ Hk). done.
Qed.
End Signatures.

(** ** Witnesses *)

Section Witnesses.
#[local] Existing Instance Toy.crypto.

Definition noEnv (_ : string) : string := "".
Definition key64 (c : ascii) : string := String.string_of_list_ascii (repeat c 64).
Definition toyPub (k : string) : string := Str.take 32 (k +:+ key64 "0").
Definition toySign (k m : string) : string := toyPub k +:+ m.
Definition toyVerify (p m sig : string) : bool := bool_decide (sig = p +:+ m).
Definition demo_io : keyIO := mkKeyIO true (Some (key64 "a")) (Some (key64 "s")) written.
Definition torn_io : keyIO := mkKeyIO true (Some (key64 "b")) None (torn "bb").
Definition none : Software := mkSoftware ∅ ∅ ∅.

Lemma take_length n s : (n <= String.length s)%nat -> String.length (Str.take n s) = n.
Proof.
  unfold Str.take. revert s. induction n as [|n IH]; intros [|c s] Hn; cbn in *; try lia. by rewrite IH by lia.
Qed.

Lemma toyPub_length k : String.length (toyPub k) = 32%nat.
Proof. apply take_length. rewrite str_length_app. change (String.length (key64 "0")) with 64%nat. lia. Qed.

Lemma sound_demo w : sound (mkKeyIO true (Some (key64 "a")) (Some (key64 "s")) w).
Proof. split; [done|]. intros k [= <-]. reflexivity. Qed.

Lemma software_key_stable_witness :
  exists k, toyPub k = toyPub (key64 "a") /\
    (PublicKey noEnv (fun s => s) toyPub demo_io "csid"
       (foldl (step noEnv (fun s => s) toyPub toySign) (PublicKey noEnv (fun s => s) toyPub demo_io "csid" (reopen none)).1
          [(demo_io, opReopen); (demo_io, opRotate "feed"); (demo_io, opSign "qr-hmac" "x")])).2 = Ok (toyPub (key64 "a")) /\
    (Sign noEnv (fun s => s) toySign demo_io "csid" "m"
       (foldl (step noEnv (fun s => s) toyPub toySign) (PublicKey noEnv (fun s => s) toyPub demo_io "csid" (reopen none)).1
          [(demo_io, opReopen); (demo_io, opRotate "feed"); (demo_io, opSign "qr-hmac" "x")])).2 = Ok (toySign k "m").
Proof.
  apply (software_key_stable noEnv (fun s => s) toyPub toySign none "csid" demo_io demo_io
           [(demo_io, opReopen); (demo_io, opRotate "feed"); (demo_io, opSign "qr-hmac" "x")] (toyPub (key64 "a")) "m").
  - reflexivity.
  - apply sound_demo.
  - apply sound_demo.
  - constructor; [split; [apply sound_demo|exact I]|]. constructor; [split; [apply sound_demo|intros E; discriminate E]|].
    constructor; [split; [apply sound_demo|exact I]|constructor].
  - vm_compute. reflexivity.
Defined.

Lemma torn_rotation_loses_key_witness :
  let '(s1, r) := Rotate noEnv torn_io "csid" (mkSoftware {[ "csid" := key64 "a" ]} ∅ {[ "csid_ed25519.key" := key64 "a" ]}) in
  r = Err noWrite /\ (PublicKey noEnv (fun s => s) toyPub (mkKeyIO true (Some (key64 "c")) None written) "csid" s1).2 = Ok (toyPub (key64 "a")) /\
  (PublicKey noEnv (fun s => s) toyPub (mkKeyIO true (Some (key64 "c")) None written) "csid" (reopen s1)).2 = Ok (toyPub (key64 "c")).
Proof.
  apply (torn_rotation_loses_key noEnv (fun s => s) toyPub (mkSoftware {[ "csid" := key64 "a" ]} ∅ {[ "csid_ed25519.key" := key64 "a" ]}) "csid" (key64 "a")
           torn_io (mkKeyIO true (Some (key64 "c")) None written) "bb" (key64 "b") (key64 "c")); vm_compute; reflexivity.
Defined.

Lemma csid_signature_verifies_witness :
  let '(inv', ok) := SignInvoice toySign (fun _ => None) (csidOf toyPub (key64 "a")) EinvValidate.demo_bare in
  ok = true /\ Hash inv' = Hash EinvValidate.demo_bare /\ CSIDKeyID inv' = shortKeyID (s_pub (csidOf toyPub (key64 "a"))) /\
  Verify toyVerify (hex (s_pub (csidOf toyPub (key64 "a")))) (Hash inv') (CSIDSignature inv') = true.
Proof.
  apply (csid_signature_verifies noEnv (fun s => s) toyPub toySign toyVerify (fun _ => True) true demo_io ∅ {[ "csid_ed25519.key" := key64 "a" ]}
           (csidOf toyPub (key64 "a")) (fun _ => None) EinvValidate.demo_bare).
  - intros k m _. unfold toyVerify, toySign. by apply bool_decide_eq_true_2.
  - intros k _. apply toyPub_length.
  - done.
  - done.
  - done.
  - vm_compute. reflexivity.
Defined.
End Witnesses.
