(* ===== verification/Mux.v ===== *)
(** * Routing of requests (net/http's ServeMux, as the services use it)

    The patterns the services register - a method, literal segments and
    wildcards of one segment -, the conflicts for which registration panics,
    and the search for the pattern of a request.  [Handler] finds the handler
    alone; [ServeHTTP] also binds the wildcards of the pattern, which is what
    [PathValue] reads. *)

From S2P Require Import Prelude StrFacts Crypto.

Inductive segment := lit (s : string) | wild (name : string).

#[export] Instance segment_eq_dec : EqDecision segment.
Proof. solve_decision. Defined.

Record pattern := mkPattern { str : string; method : string; segments : list segment }.

#[export] Instance pattern_eq_dec : EqDecision pattern.
Proof. solve_decision. Defined.

Definition braced (s : string) : option string :=
  match s with
  | String "{" r => match Str.cut_last "}" r with Some (name, "") => Some name | _ => None end
  | _ => None
  end.

Definition parseSegment (s : string) : segment := match braced s with Some name => wild name | None => lit s end.

(** A pattern with a method and a rooted path *)
Definition parsePattern (s : string) : option pattern :=
  match Str.cut " " s with
  | Some (m, String "/" path) => Some (mkPattern s m (parseSegment <$> Str.split "/" path))
  | _ => None
  end.

(** ** The paths of requests *)

Inductive pathSegment := seg (s : string) | slash.

Definition hexval (c : ascii) : option Z :=
  let n := byte_val c in
  if (48 <=? n) && (n <=? 57) then Some (n - 48)
  else if (65 <=? n) && (n <=? 70) then Some (n - 55)
  else if (97 <=? n) && (n <=? 102) then Some (n - 87)
  else None.

(** [url.PathUnescape]: [None] is its error *)
Fixpoint unescapeAll (s : string) : option string :=
  match s with
  | EmptyString => Some EmptyString
  | String c r =>
      if bool_decide (c = "%"%char) then
        match r with
        | String a (String b r) =>
            match hexval a, hexval b with
            | Some x, Some y => option_map (String (Ascii.ascii_of_N (Z.to_N (x * 16 + y)))) (unescapeAll r)
            | _, _ => None
            end
        | _ => None
        end
      else option_map (String c) (unescapeAll r)
  end.
Definition unescape (s : string) : string := default s (unescapeAll s).

(** The segments, and whether the path ends in a slash *)
Fixpoint pathSegs (parts : list string) : list pathSegment :=
  match parts with
  | [] => []
  | [s] => if bool_decide (s = "") then [slash] else [seg (unescape s)]
  | s :: parts => seg (unescape s) :: pathSegs parts
  end.

Definition segsOf (path : string) : list pathSegment :=
  match path with String "/" rest => pathSegs (Str.split "/" rest) | _ => [] end.

(** [path.Clean] of a rooted path, on its parts *)
Definition cleanParts (parts : list string) : list string :=
  foldl (fun acc p => if bool_decide (p = "") || bool_decide (p = ".") then acc
                      else if bool_decide (p = "..") then removelast acc else acc ++ [p]) [] parts.

Definition cleanPath (p : string) : string :=
  if bool_decide (p = "") then "/"
  else
    let rest := match p with String "/" rest => rest | _ => p end in
    let np := "/" +:+ Str.join "/" (cleanParts (Str.split "/" rest)) in
    if Str.has_suffix p "/" && negb (bool_decide (np = "/")) then np +:+ "/" else np.

(** ** Conflicts *)

Inductive relationship := equivalent | moreGeneral | moreSpecific | disjoint | overlaps.

Definition combine (r1 r2 : relationship) : relationship :=
  match r1, r2 with
  | equivalent, _ => r2
  | disjoint, _ => disjoint
  | overlaps, disjoint => disjoint
  | overlaps, _ => overlaps
  | _, equivalent => r1
  | moreGeneral, moreSpecific | moreSpecific, moreGeneral => overlaps
  | _, _ => r2
  end.

Definition compareSegments (a b : segment) : relationship :=
  match a, b with
  | wild _, wild _ => equivalent
  | wild _, lit _ => moreGeneral
  | lit _, wild _ => moreSpecific
  | lit s, lit t => if bool_decide (s = t) then equivalent else disjoint
  end.

Fixpoint comparePaths (a b : list segment) : relationship :=
  match a, b with
  | [], [] => equivalent
  | s :: a, t :: b => combine (compareSegments s t) (comparePaths a b)
  | _, _ => disjoint
  end.

Definition compareMethods (m1 m2 : string) : relationship :=
  if bool_decide (m1 = m2) then equivalent
  else if bool_decide (m1 = "GET") && bool_decide (m2 = "HEAD") then moreGeneral
  else if bool_decide (m2 = "GET") && bool_decide (m1 = "HEAD") then moreSpecific
  else disjoint.

Definition compare (p q : pattern) : relationship := combine (compareMethods (method p) (method q)) (comparePaths (segments p) (segments q)).

Definition conflicts (p q : pattern) : bool := match compare p q with equivalent | overlaps => true | _ => false end.

(** ** The mux *)

Section Mux.
Context {H : Type}.

Abbreviation ServeMux := (list (pattern * H)).

(** [HandleFunc]: [None] panics *)
Definition HandleFunc (mux : ServeMux) (route : string * H) : option ServeMux :=
  p ← parsePattern route.1;
  if existsb (fun q => conflicts p q.1) mux then None else Some (mux ++ [(p, route.2)]).

Definition register (routes : list (string * H)) : option ServeMux :=
  foldl (fun mux route => mux ← mux; HandleFunc mux route) (Some []) routes.

(** The children of a node of the routing tree *)
Definition childLit (s : string) (rs : list (list segment * (pattern * H))) : list (list segment * (pattern * H)) :=
  omap (fun r => match r.1 with lit t :: ss => if bool_decide (t = s) then Some (ss, r.2) else None | _ => None end) rs.
Definition childWild (rs : list (list segment * (pattern * H))) : list (list segment * (pattern * H)) :=
  omap (fun r => match r.1 with wild _ :: ss => Some (ss, r.2) | _ => None end) rs.

(** [matchPath]: the literal child first, then the wildcard *)
Fixpoint matchPath (rs : list (list segment * (pattern * H))) (path : list pathSegment) : option (pattern * H * list string) :=
  match path with
  | [] => match List.find (fun r => bool_decide (r.1 = [])) rs with Some r => Some (r.2, []) | None => None end
  | slash :: _ => None
  | seg s :: rest =>
      match matchPath (childLit s rs) rest with
      | Some found => Some found
      | None => match matchPath (childWild rs) rest with Some (r, vals) => Some (r, s :: vals) | None => None end
      end
  end.

Definition byMethod (m : string) (mux : ServeMux) : list (list segment * (pattern * H)) :=
  (fun r => (segments r.1, r)) <$> filter (fun r => method r.1 = m) mux.

Definition matchMethodAndPath (mux : ServeMux) (m : string) (path : list pathSegment) : option (pattern * H * list string) :=
  match matchPath (byMethod m mux) path with
  | Some found => Some found
  | None => if bool_decide (m = "HEAD") then matchPath (byMethod "GET" mux) path else None
  end.

Inductive answer := found (p : pattern) (h : H) (vals : list string) | redirect (pat to : string) | methodNotAllowed | notFound.

(** [path]: the escaped path of the request *)
Definition findHandler (mux : ServeMux) (m path : string) : answer :=
  let connect := bool_decide (m = "CONNECT") in
  let clean := if connect then path else cleanPath path in
  let n := matchMethodAndPath mux m (segsOf clean) in
  if negb connect && negb (bool_decide (clean = path)) then redirect (match n with Some (p, _, _) => str p | None => "" end) clean
  else match n with
       | Some (p, h, vals) => found p h vals
       | None => if existsb (fun r => bool_decide (is_Some (matchPath (byMethod (method r.1) mux) (segsOf clean)))) mux
                 then methodNotAllowed else notFound
       end.

(** The value of a wildcard, by its name *)
Fixpoint valueOf (ss : list segment) (vals : list string) (name : string) : string :=
  match ss, vals with
  | wild n :: ss, v :: vals => if bool_decide (n = name) then v else valueOf ss vals name
  | lit _ :: ss, _ => valueOf ss vals name
  | _, _ => ""
  end.

(** What becomes of a request: a handler runs with its path values, or the
    mux answers *)
Inductive reply := runs (h : H) (PathValue : string -> string) | redirected (to : string) | code405 | code404.

Definition ServeHTTP (mux : ServeMux) (m path : string) : reply :=
  match findHandler mux m path with
  | found p h vals => runs h (valueOf (segments p) vals)
  | redirect _ to => redirected to
  | methodNotAllowed => code405
  | notFound => code404
  end.

(** [Handler]: the handler and the pattern, which leaves the request as it is:
    a handler run by hand sees no path values. *)
Definition Handler (mux : ServeMux) (m path : string) : reply * string :=
  match findHandler mux m path with
  | found p h _ => (runs h (fun _ => ""), str p)
  | redirect pat to => (redirected to, pat)
  | methodNotAllowed => (code405, "")
  | notFound => (code404, "")
  end.
End Mux.

#[global] Arguments reply : clear implicits.
#[global] Arguments answer : clear implicits.
Abbreviation ServeMux H := (list (pattern * H)).

(** ** The search finds the most specific pattern *)

(** The values a pattern's wildcards take on a path it fits *)
Fixpoint fits (ss : list segment) (path : list pathSegment) : option (list string) :=
  match ss, path with
  | [], [] => Some []
  | lit t :: ss, seg s :: path => if bool_decide (t = s) then fits ss path else None
  | wild _ :: ss, seg s :: path => option_map (cons s) (fits ss path)
  | _, _ => None
  end.

Definition accepts (p : pattern) (m : string) : Prop := method p = m \/ method p = "GET" /\ m = "HEAD".

(** The order in which the search tries patterns: literals before wildcards *)
Fixpoint tried_before (a b : list segment) : bool :=
  match a, b with
  | lit _ :: _, wild _ :: _ => true
  | wild _ :: _, lit _ :: _ => false
  | _ :: a, _ :: b => tried_before a b
  | _, _ => true
  end.

Section Search.
Context {H : Type}.
Implicit Types (rs : list (list segment * (pattern * H))) (mux : ServeMux H).

Lemma elem_of_childLit s rs ss r : (ss, r) ∈ childLit s rs <-> (lit s :: ss, r) ∈ rs.
Proof.
  unfold childLit. rewrite list_elem_of_omap. split.
  - intros ([[|[t|n] ss'] r'] & Hin & E); cbn in E; try done. case_bool_decide; [|done]. injection E as -> ->. by subst.
  - intros Hin. exists (lit s :: ss, r). split; [done|]. cbn. by rewrite bool_decide_eq_true_2.
Qed.

Lemma elem_of_childWild rs ss r : (ss, r) ∈ childWild rs <-> exists n, (wild n :: ss, r) ∈ rs.
Proof.
  unfold childWild. rewrite list_elem_of_omap. split.
  - intros ([[|[t|n] ss'] r'] & Hin & E); cbn in E; try done. injection E as -> ->. by exists n.
  - intros [n Hin]. by exists (wild n :: ss, r).
Qed.

Lemma matchPath_none path : forall rs, matchPath rs path = None -> forall ss r, (ss, r) ∈ rs -> fits ss path = None.
Proof.
  induction path as [|[s|] path IH]; intros rs E ss r Hin; cbn [matchPath] in E.
  - destruct (List.find _ rs) eqn:Ef; [done|]. destruct ss as [|[] ss]; [|done..].
    apply list_elem_of_In in Hin. pose proof (List.find_none _ _ Ef _ Hin) as Hn. cbn in Hn. by bools.
  - destruct (matchPath (childLit s rs) path) eqn:E1; [done|]. destruct (matchPath (childWild rs) path) as [[]|] eqn:E2; [done|].
    destruct ss as [|[t|n] ss]; cbn [fits]; [done| |].
    + case_bool_decide; [|done]. subst. by eapply (IH _ E1), elem_of_childLit.
    + rewrite (IH _ E2 ss r); [done|]. apply elem_of_childWild. by exists n.
  - by destruct ss as [|[] ss].
Qed.

Lemma matchPath_some path : forall rs r vals, matchPath rs path = Some (r, vals) ->
  exists ss, (ss, r) ∈ rs /\ fits ss path = Some vals /\ forall ss' r', (ss', r') ∈ rs -> fits ss' path <> None -> tried_before ss ss' = true.
Proof.
  induction path as [|[s|] path IH]; intros rs r vals E; cbn [matchPath] in E; [| |done].
  - destruct (List.find _ rs) as [[ss r0]|] eqn:Ef; [|done]. injection E as <- <-. apply List.find_some in Ef as [Hin Hn]. cbn in Hn. bools.
    subst. exists []. split; [by apply list_elem_of_In|done].
  - destruct (matchPath (childLit s rs) path) as [[r1 vals1]|] eqn:E1.
    + injection E as -> ->. destruct (IH _ _ _ E1) as (ss & Hin & Hf & Hmin). apply elem_of_childLit in Hin. exists (lit s :: ss).
      split; [done|]. cbn [fits]. rewrite bool_decide_eq_true_2 by done. split; [done|].
      intros [|[t|n] ss'] r' Hin' Hf'; cbn [tried_before]; [done| |done]. cbn [fits] in Hf'. case_bool_decide; [|done]. subst.
      eapply Hmin; [|exact Hf']. by apply elem_of_childLit.
    + destruct (matchPath (childWild rs) path) as [[r2 vals2]|] eqn:E2; [|done]. injection E as -> <-.
      destruct (IH _ _ _ E2) as (ss & Hin & Hf & Hmin). apply elem_of_childWild in Hin as [n Hin]. exists (wild n :: ss).
      split; [done|]. cbn [fits]. rewrite Hf. split; [done|].
      intros [|[t|n'] ss'] r' Hin' Hf'; cbn [tried_before]; [done| |].
      * cbn [fits] in Hf'. case_bool_decide; [|done]. subst. destruct Hf'. by eapply (matchPath_none _ _ E1), elem_of_childLit.
      * cbn [fits] in Hf'. eapply Hmin; [|by destruct (fits ss' path)]. apply elem_of_childWild. by exists n'.
Qed.

(** Two patterns that fit one path are never disjoint, and the one tried first
    is not the more general. *)
Lemma comparePaths_fit path : forall a b, fits a path <> None -> fits b path <> None -> comparePaths a b <> disjoint.
Proof.
  induction path as [|[s|] path IH]; intros [|[x|x] a] [|[y|y] b] Ha Hb; cbn [fits] in *; try done; cbn [comparePaths compareSegments].
  - repeat case_bool_decide; subst; try done. by apply IH.
  - case_bool_decide; [|done]. assert (Hd : comparePaths a b <> disjoint) by (apply IH; by destruct (fits b path)).
    by destruct (comparePaths a b).
  - case_bool_decide; [|done]. assert (Hd : comparePaths a b <> disjoint) by (apply IH; by destruct (fits a path)).
    by destruct (comparePaths a b).
  - apply IH; [by destruct (fits a path)|by destruct (fits b path)].
Qed.

Lemma comparePaths_tried path : forall a b, fits a path <> None -> fits b path <> None -> tried_before a b = true -> comparePaths a b <> moreGeneral.
Proof.
  induction path as [|[s|] path IH]; intros [|[x|x] a] [|[y|y] b] Ha Hb Ht; cbn [fits tried_before] in *; try done; cbn [comparePaths compareSegments].
  - repeat case_bool_decide; subst; try done. by apply IH.
  - case_bool_decide; [|done]. by destruct (comparePaths a b).
  - apply IH; [by destruct (fits a path)|by destruct (fits b path)|done].
Qed.

Lemma elem_of_byMethod m mux ss r : (ss, r) ∈ byMethod m mux <-> ss = segments r.1 /\ method r.1 = m /\ r ∈ mux.
Proof.
  unfold byMethod. rewrite list_elem_of_fmap. setoid_rewrite list_elem_of_filter. split.
  - intros (r' & [= -> ->] & ? & ?). done.
  - intros (-> & ? & ?). by exists r.
Qed.

(** What registration keeps: no pattern twice, and no two in conflict *)
Definition conflictFree mux : Prop :=
  NoDup mux.*1 /\ forall p q, p ∈ mux.*1 -> q ∈ mux.*1 -> p <> q -> conflicts p q = false.

Lemma combine_comm_conflict p q : conflicts p q = conflicts q p.
Proof.
  assert (Hs : forall a b, compareSegments b a = match compareSegments a b with moreGeneral => moreSpecific | moreSpecific => moreGeneral | r => r end).
  { intros [x|x] [y|y]; cbn; try done. repeat case_bool_decide; congruence. }
  assert (Hp : forall a b, comparePaths b a = match comparePaths a b with moreGeneral => moreSpecific | moreSpecific => moreGeneral | r => r end).
  { induction a as [|x a IH]; intros [|y b]; cbn; try done. rewrite Hs, IH. by destruct (compareSegments x y), (comparePaths a b). }
  assert (Hm : compareMethods (method q) (method p) =
               match compareMethods (method p) (method q) with moreGeneral => moreSpecific | moreSpecific => moreGeneral | r => r end).
  { unfold compareMethods. repeat (case_bool_decide; cbn [andb]); try done; congruence. }
  unfold conflicts, compare. rewrite Hm, (Hp (segments p) (segments q)). by destruct (compareMethods (method p) (method q)), (comparePaths (segments p) (segments q)).
Qed.

Lemma HandleFunc_conflictFree mux mux' route : conflictFree mux -> HandleFunc mux route = Some mux' -> conflictFree mux'.
Proof.
  intros [Hn Hc]. unfold HandleFunc. destruct (parsePattern route.1) as [p|]; cbn [mbind option_bind]; [|done].
  destruct (existsb _ mux) eqn:Ee; [done|]. intros [= <-].
  assert (Hp : forall q, q ∈ mux.*1 -> conflicts p q = false).
  { intros q ([q' h] & -> & Hin)%list_elem_of_fmap. cbn. apply not_true_iff_false. intros E. apply not_true_iff_false in Ee. apply Ee.
    apply existsb_exists. exists (q', h). split; [by apply list_elem_of_In|exact E]. }
  unfold conflictFree. rewrite fmap_app. cbn [fmap list_fmap fst]. split.
  - apply NoDup_app. split; [done|]. split; [|apply NoDup_singleton]. intros q Hq Hs%list_elem_of_singleton. subst q. specialize (Hp p Hq).
    unfold conflicts, compare in Hp. assert (E : compareMethods (method p) (method p) = equivalent) by (unfold compareMethods; by rewrite bool_decide_eq_true_2).
    rewrite E in Hp. cbn [combine] in Hp. assert (Es : forall a, comparePaths a a = equivalent).
    { induction a as [|[t|n] a IH]; [done| |]; cbn [comparePaths compareSegments]; rewrite ?bool_decide_eq_true_2 by done; by rewrite IH. }
    by rewrite Es in Hp.
  - intros q q'. rewrite !elem_of_app, !list_elem_of_singleton. intros [Hq | ->] [Hq' | ->] Hne; [by apply Hc| |by apply Hp|done].
    rewrite combine_comm_conflict. by apply Hp.
Qed.

Lemma register_conflictFree routes mux : register routes = Some mux -> conflictFree mux.
Proof.
  unfold register. assert (HG : forall (m0 : option (ServeMux H)) (mux0 : ServeMux H), (forall x, m0 = Some x -> conflictFree x) ->
    foldl (fun acc route => x ← acc; HandleFunc x route) m0 routes = Some mux0 -> conflictFree mux0).
  { induction routes as [|r routes IH]; intros m0 mux0 Hm; cbn [foldl]; [apply Hm|]. apply IH. intros x. destruct m0 as [m0|]; cbn [mbind option_bind]; [|done].
    apply HandleFunc_conflictFree. by apply Hm. }
  apply HG. intros x [= <-]. split; [constructor|]. intros p q Hp. by apply not_elem_of_nil in Hp.
Qed.

(** The handler found is that of the one pattern that is more specific than
    every other pattern of the mux that fits the request. *)
Lemma match_most_specific mux m path p h vals :
  conflictFree mux -> matchMethodAndPath mux m path = Some (p, h, vals) ->
  (p, h) ∈ mux /\ accepts p m /\ fits (segments p) path = Some vals /\
  forall q, q ∈ mux.*1 -> accepts q m -> fits (segments q) path <> None -> q = p \/ compare p q = moreSpecific.
Proof.
  intros [_ Hc] E. unfold matchMethodAndPath in E.
  assert (HG : accepts p m /\ matchPath (byMethod (method p) mux) path = Some (p, h, vals) /\
    forall q, q ∈ mux.*1 -> accepts q m -> fits (segments q) path <> None -> method q = method p \/ method p = "HEAD" /\ method q = "GET").
  { destruct (matchPath (byMethod m mux) path) as [[[p0 h0] v0]|] eqn:E1.
    - injection E as -> -> ->. destruct (matchPath_some _ _ _ _ E1) as (ss & Hin & _). apply elem_of_byMethod in Hin as (_ & Hm & _). cbn in Hm.
      subst m. split; [by left|]. split; [done|]. intros q _ [?|[? ?]] _; [by left|by right].
    - case_bool_decide as Hh; [|done]. subst m. destruct (matchPath_some _ _ _ _ E) as (ss & Hin & _). apply elem_of_byMethod in Hin as (_ & Hm & _). cbn in Hm.
      split; [by right|]. split; [by rewrite Hm|]. intros q ([q' h'] & -> & Hq)%list_elem_of_fmap [Hq'|[? _]] Hf; [|left; cbn in *; congruence].
      destruct Hf. eapply (matchPath_none _ _ E1 _ (q', h')). by apply elem_of_byMethod. }
  destruct HG as (Ha & Hp & Hq). destruct (matchPath_some _ _ _ _ Hp) as (ss & Hin & Hf & Hmin).
  apply elem_of_byMethod in Hin as (-> & _ & Hin). cbn [fst] in *. split; [done|]. split; [done|]. split; [done|].
  intros q Hin' Ha' Hf'. destruct (decide (q = p)) as [|Hne]; [by left|]. right.
  assert (Hpin : p ∈ mux.*1) by (apply list_elem_of_fmap; by exists (p, h)).
  assert (Hpf : fits (segments p) path <> None) by by rewrite Hf.
  specialize (Hc p q Hpin Hin' ltac:(congruence)). unfold conflicts, compare in *.
  pose proof (comparePaths_fit path _ _ Hpf Hf') as Hd. destruct (Hq q Hin' Ha' Hf') as [Em|[Em1 Em2]].
  - assert (Et : tried_before (segments p) (segments q) = true).
    { apply list_elem_of_fmap in Hin' as ([q' h'] & -> & Hin'). eapply (Hmin _ (q', h')); [by apply elem_of_byMethod|done]. }
    pose proof (comparePaths_tried path _ _ Hpf Hf' Et) as Ht. rewrite Em in *. unfold compareMethods in *. rewrite bool_decide_eq_true_2 in * by done.
    cbn [combine] in *. by destruct (comparePaths (segments p) (segments q)).
  - rewrite Em1, Em2 in *. cbn in *. by destruct (comparePaths (segments p) (segments q)).
Qed.

(** A mux without conflict answers 404 or 405 only when no pattern fits. *)
Lemma match_complete mux m path q : matchMethodAndPath mux m path = None -> q ∈ mux.*1 -> accepts q m -> fits (segments q) path = None.
Proof.
  unfold matchMethodAndPath. destruct (matchPath (byMethod m mux) path) eqn:E1; [done|]. intros E ([q' h'] & -> & Hin)%list_elem_of_fmap [Hm|[Hm ->]].
  - eapply (matchPath_none _ _ E1 _ (q', h')). by apply elem_of_byMethod.
  - rewrite bool_decide_eq_true_2 in E by done. eapply (matchPath_none _ _ E _ (q', h')). by apply elem_of_byMethod.
Qed.

(** A pattern that is found is one of the mux's. *)
Lemma match_member mux m path p h vals : matchMethodAndPath mux m path = Some (p, h, vals) -> (p, h) ∈ mux.
Proof.
  unfold matchMethodAndPath. destruct (matchPath (byMethod m mux) _) as [[[]]|] eqn:E1.
  - intros [= -> -> ->]. apply matchPath_some in E1 as (ss & Hin & _). by apply elem_of_byMethod in Hin as (_ & _ & ?).
  - case_bool_decide; [|done]. intros (ss & Hin & _)%matchPath_some. by apply elem_of_byMethod in Hin as (_ & _ & ?).
Qed.

Lemma match_fits mux m path p h vals : matchMethodAndPath mux m path = Some (p, h, vals) -> fits (segments p) path = Some vals.
Proof.
  unfold matchMethodAndPath. destruct (matchPath (byMethod m mux) _) as [[[]]|] eqn:E1.
  - intros [= -> -> ->]. apply matchPath_some in E1 as (ss & Hin & ? & _). by apply elem_of_byMethod in Hin as (-> & _).
  - case_bool_decide; [|done]. intros (ss & Hin & ? & _)%matchPath_some. by apply elem_of_byMethod in Hin as (-> & _).
Qed.

Lemma findHandler_fits mux m path p h vals : findHandler mux m path = found p h vals -> fits (segments p) (segsOf path) = Some vals.
Proof.
  unfold findHandler. destruct (negb _ && negb _) eqn:En; [done|]. destruct (matchMethodAndPath _ _ _) as [[[p0 h0] v0]|] eqn:E.
  - intros [= -> -> ->]. apply match_fits in E. destruct (bool_decide (m = "CONNECT")); [done|]. cbn [negb andb] in En.
    apply negb_false_iff in En. bools. by rewrite En in E.
  - by destruct (existsb _ _).
Qed.

Lemma findHandler_member mux m path p h vals : findHandler mux m path = found p h vals -> (p, h) ∈ mux.
Proof.
  unfold findHandler. destruct (negb _ && negb _); [done|]. destruct (matchMethodAndPath _ _ _) as [[[p0 h0] v0]|] eqn:E.
  - intros [= -> -> ->]. by eapply match_member.
  - by destruct (existsb _ _).
Qed.
End Search.
