(* ===== verification/KeyxRemote.v ===== *)
(** * Remote keys (packages/keyx/provider/pkcs11.go and cloudkms.go)

    The provider that speaks to a PKCS#11 plugin over its standard streams,
    the soft token that stands in for it in tests, and the provider that signs
    through a key service over HTTP; with the software provider of Keyx.v, the
    values of the interface SignerProvider and the identity the e-invoicing
    service loads from one.  The plugin and the service are
    parameters - what they answer to each request -, as are Ed25519, the
    standard base64 and the decoding of their JSON answers. *)

From S2P Require Import Prelude StrFacts Crypto EinvModel EinvStore Keyx.
From S2P Require Mux.

(** ** What a provider promises *)

(** A provider on states [S], with answers [IO] of its surroundings during a
    call; [None] is any error *)
Definition ofResult {E A} (r : result E A) : option A := match r with Ok a => Some a | Err _ => None end.

Class Signer (S IO : Type) := {
  sign : IO -> string -> string -> S -> S * option string;
  publicKey : IO -> string -> S -> S * option string;
  rotate : IO -> string -> S -> S * option unit;
}.

(** Ed25519, on the keys that were generated or come from seeds *)
Class Ed25519 := {
  seedKey : string -> string;
  pubOf : string -> string;
  edSign : string -> string -> string;
  edVerify : string -> string -> string -> bool;
  genuine : string -> Prop;
  seed_genuine : forall seed, String.length seed = 32%nat -> genuine (seedKey seed);
  pub_length : forall k, genuine k -> String.length (pubOf k) = 32%nat;
  ed_verifies : forall k m, genuine k -> edVerify (pubOf k) m (edSign k m) = true;
}.

(** What a client that published a provider's public key can rely on.
    [shows s keyID]: the public key the provider has in use and answers.  A
    signature verifies under the key in use when it was made; the key in use
    changes at a rotation of that key only.  The class is the interface between
    the providers below, each of which is shown to be an instance, and their
    client; no theorem of the service assumes it. *)
Class Publishes (S IO : Type) `{Signer S IO} `{Ed25519} := {
  ok : S -> Prop;
  good : IO -> Prop;
  shows : S -> string -> option string;
  sign_ok io keyID payload s : ok s -> good io -> ok (sign io keyID payload s).1;
  publicKey_ok io keyID s : ok s -> good io -> ok (publicKey io keyID s).1;
  rotate_ok io keyID s : ok s -> good io -> ok (rotate io keyID s).1;
  publicKey_shows io keyID s s' p : ok s -> good io -> publicKey io keyID s = (s', Some p) -> shows s' keyID = Some p;
  sign_shows io keyID payload s s' sig : ok s -> good io -> IsHMACKeyID keyID = false ->
    sign io keyID payload s = (s', Some sig) ->
    exists p, shows s' keyID = Some p /\ String.length p = 32%nat /\ edVerify p payload sig = true;
  sign_keeps io id payload keyID s p : ok s -> good io -> shows s keyID = Some p -> shows (sign io id payload s).1 keyID = Some p;
  publicKey_keeps io id keyID s p : ok s -> good io -> shows s keyID = Some p -> shows (publicKey io id s).1 keyID = Some p;
  rotate_keeps io id keyID s p : ok s -> good io -> id <> keyID -> shows s keyID = Some p -> shows (rotate io id s).1 keyID = Some p;
}.

(** ** The plugin *)

Record pluginRequest := mkPluginRequest { Op : string; pr_KeyID : string; PayloadB64 : string; Mechanism : string }.

Record pluginResponse := mkPluginResponse { OK : bool; Error : string; SignatureB64 : string; PublicKeyB64 : string }.

(** The lines of the plugin's output that nobody has read; [None]: it does
    not run *)
Record PKCS11Plugin := mkPlugin { unread : option (list string) }.

(** [stat]: what the file is; [None] when there is none *)
Definition NewPKCS11Plugin (stat : option (bool * Z)) : option PKCS11Plugin :=
  match stat with
  | Some (isDir, mode) => if isDir || (Z.land mode 73 =? 0) then None else Some (mkPlugin None)
  | None => None
  end.

(** The surroundings of a call: whether the plugin starts and takes the
    request; the lines it writes on a request, and whether it then ends *)
Record pluginIO := mkPluginIO {
  starts : bool;
  takes : bool;
  writes : pluginRequest -> list string;
  ends : bool;
}.

Inductive callResult (A : Type) := answered (a : A) | unavailable | malformed | refusedBy (msg : string) | hangs.
#[global] Arguments answered {A} _.
#[global] Arguments unavailable {A}.
#[global] Arguments malformed {A}.
#[global] Arguments refusedBy {A} _.
#[global] Arguments hangs {A}.

Definition mechanism (keyID : string) : string := if IsHMACKeyID keyID then "hmac-sha256" else "ed25519".

Section Plugin.
Context (decodeResponse : string -> option pluginResponse) (b64 : string -> string) (unb64 : string -> option string).

(** [callLocked]: one line out, one line in.  With no line to read the call
    waits for ever, unless the plugin ends. *)
Definition callLocked (io : pluginIO) (req : pluginRequest) (p : PKCS11Plugin) : PKCS11Plugin * callResult pluginResponse :=
  match (match unread p with Some l => Some l | None => if starts io then Some [] else None end) with
  | None => (p, unavailable)
  | Some pending =>
      if negb (takes io) then (mkPlugin None, unavailable)
      else match pending ++ writes io req with
           | [] => if ends io then (mkPlugin None, unavailable) else (mkPlugin (Some []), hangs)
           | line :: rest =>
               (mkPlugin (Some rest),
                match decodeResponse line with
                | None => malformed
                | Some resp => if OK resp then answered resp else refusedBy (Error resp)
                end)
           end
  end.

Definition decoded (field : pluginResponse -> string) (r : callResult pluginResponse) : callResult string :=
  match r with
  | answered resp => match unb64 (field resp) with Some bytes => answered bytes | None => malformed end
  | unavailable => unavailable
  | malformed => malformed
  | refusedBy msg => refusedBy msg
  | hangs => hangs
  end.

Definition signRequest (keyID payload : string) : pluginRequest := mkPluginRequest "sign" keyID (b64 payload) (mechanism keyID).

Definition pluginSign (io : pluginIO) (keyID payload : string) (p : PKCS11Plugin) : PKCS11Plugin * callResult string :=
  let '(p, r) := callLocked io (signRequest keyID payload) p in (p, decoded SignatureB64 r).

(** [None]: the key is symmetric *)
Definition pluginPublicKey (io : pluginIO) (keyID : string) (p : PKCS11Plugin) : PKCS11Plugin * option (callResult string) :=
  if IsHMACKeyID keyID then (p, None)
  else let '(p, r) := callLocked io (mkPluginRequest "pubkey" keyID "" (mechanism keyID)) p in (p, Some (decoded PublicKeyB64 r)).

Definition pluginRotate (io : pluginIO) (keyID : string) (p : PKCS11Plugin) : PKCS11Plugin * callResult pluginResponse :=
  callLocked io (mkPluginRequest "rotate" keyID "" (mechanism keyID)) p.

Definition Close (p : PKCS11Plugin) : PKCS11Plugin := mkPlugin None.
End Plugin.

(** ** The soft token *)

Record SoftToken := mkToken { t_keys : gmap string string; t_macs : gmap string string }.
Definition NewSoftToken : SoftToken := mkToken ∅ ∅.

Section Token.
Context `{Crypto} `{Ed25519}.

(** What the random source gives for a new key and for a new secret *)
Record tokenIO := mkTokenIO { newKey : option string; newSecret : option string }.

Definition tokenKey (io : tokenIO) (keyID : string) (t : SoftToken) : SoftToken * option string :=
  match t_keys t !! keyID with
  | Some k => (t, Some k)
  | None => match newKey io with
            | Some k => (mkToken (<[keyID := k]> (t_keys t)) (t_macs t), Some k)
            | None => (t, None)
            end
  end.

Definition tokenMac (io : tokenIO) (keyID : string) (t : SoftToken) : SoftToken * option string :=
  match t_macs t !! keyID with
  | Some k => (t, Some k)
  | None => match newSecret io with
            | Some k => (mkToken (t_keys t) (<[keyID := k]> (t_macs t)), Some k)
            | None => (t, None)
            end
  end.

Definition tokenSign (io : tokenIO) (keyID payload : string) (t : SoftToken) : SoftToken * option string :=
  if IsHMACKeyID keyID then let '(t, k) := tokenMac io keyID t in (t, option_map (fun k => hmac256 k payload) k)
  else let '(t, k) := tokenKey io keyID t in (t, option_map (fun k => edSign k payload) k).

Definition tokenPublicKey (io : tokenIO) (keyID : string) (t : SoftToken) : SoftToken * option string :=
  if IsHMACKeyID keyID then (t, None)
  else let '(t, k) := tokenKey io keyID t in (t, option_map pubOf k).

Definition tokenRotate (io : tokenIO) (keyID : string) (t : SoftToken) : SoftToken * option unit :=
  match (if IsHMACKeyID keyID then newSecret io else newKey io) with
  | None => (t, None)
  | Some k => (if IsHMACKeyID keyID then mkToken (t_keys t) (<[keyID := k]> (t_macs t)) else mkToken (<[keyID := k]> (t_keys t)) (t_macs t), Some tt)
  end.

#[export] Instance token_signer : Signer SoftToken tokenIO := { sign := tokenSign; publicKey := tokenPublicKey; rotate := tokenRotate }.

Lemma tokenKey_answer io keyID t t' k : tokenKey io keyID t = (t', Some k) -> t_keys t' !! keyID = Some k.
Proof.
  unfold tokenKey. destruct (t_keys t !! keyID) as [k0|] eqn:Ek; [by intros [= <- <-]|]. destruct (newKey io); [|done]. intros [= <- <-].
  cbn [t_keys]. by rewrite lookup_insert_eq.
Qed.

Lemma tokenKey_keeps io id keyID t k : t_keys t !! keyID = Some k -> t_keys (tokenKey io id t).1 !! keyID = Some k.
Proof.
  intros Hk. unfold tokenKey. destruct (t_keys t !! id) as [k0|] eqn:Ek; [done|]. destruct (newKey io); [|done]. cbn [fst t_keys].
  rewrite lookup_insert_ne; [done|]. intros ->. congruence.
Qed.

Lemma tokenMac_keys io id t : t_keys (tokenMac io id t).1 = t_keys t.
Proof. unfold tokenMac. destruct (t_macs t !! id); [done|]. by destruct (newSecret io). Qed.

Definition genuineKeys (t : SoftToken) : Prop := map_Forall (fun _ k => genuine k) (t_keys t).
Definition genuineIO (io : tokenIO) : Prop := forall k, newKey io = Some k -> genuine k.

Lemma tokenKey_genuine io id t : genuineKeys t -> genuineIO io -> genuineKeys (tokenKey io id t).1.
Proof.
  intros Ht Hio. unfold tokenKey. destruct (t_keys t !! id); [done|]. destruct (newKey io) eqn:En; [|done]. apply map_Forall_insert_2; [by apply Hio|done].
Qed.

#[export] Program Instance token_publishes : Publishes SoftToken tokenIO := {
  ok := genuineKeys;
  good := genuineIO;
  shows t keyID := option_map pubOf (t_keys t !! keyID);
}.
Next Obligation.
  cbn. intros io keyID payload t Ht Hio. unfold tokenSign. destruct (IsHMACKeyID keyID).
  - pose proof (tokenMac_keys io keyID t) as Hk. destruct (tokenMac io keyID t) as [t' k]. cbn in *. unfold genuineKeys. by rewrite Hk.
  - pose proof (tokenKey_genuine io keyID t Ht Hio) as Hk. by destruct (tokenKey io keyID t).
Qed.
Next Obligation.
  cbn. intros io keyID t Ht Hio. unfold tokenPublicKey. destruct (IsHMACKeyID keyID); [done|].
  pose proof (tokenKey_genuine io keyID t Ht Hio) as Hk. by destruct (tokenKey io keyID t).
Qed.
Next Obligation.
  cbn. intros io keyID t Ht Hio. unfold tokenRotate. destruct (IsHMACKeyID keyID); [by destruct (newSecret io)|].
  destruct (newKey io) eqn:En; [|done]. apply map_Forall_insert_2; [by apply Hio|done].
Qed.
Next Obligation.
  cbn. intros io keyID t t' p _ _. unfold tokenPublicKey. destruct (IsHMACKeyID keyID); [done|]. destruct (tokenKey io keyID t) as [t1 [k|]] eqn:E; [|done].
  intros [= <- <-]. by rewrite (tokenKey_answer _ _ _ _ _ E).
Qed.
Next Obligation.
  cbn. intros io keyID payload t t' sig Ht Hio Hm. unfold tokenSign. rewrite Hm. pose proof (tokenKey_genuine io keyID t Ht Hio) as Hg.
  destruct (tokenKey io keyID t) as [t1 [k|]] eqn:E; [|done]. intros [= <- <-]. cbn [fst] in Hg. pose proof (tokenKey_answer _ _ _ _ _ E) as Hk.
  pose proof (Hg keyID k Hk) as Hgk. exists (pubOf k). rewrite Hk. split_and!; [done|by apply pub_length|by apply ed_verifies].
Qed.
Next Obligation.
  cbn. intros io id payload keyID t p _ _ Hp. unfold tokenSign. destruct (IsHMACKeyID id).
  - pose proof (tokenMac_keys io id t) as Hk. destruct (tokenMac io id t) as [t' k]. cbn in *. by rewrite Hk.
  - destruct (t_keys t !! keyID) as [k|] eqn:Ek; [|done]. pose proof (tokenKey_keeps io id keyID t k Ek) as Hk. destruct (tokenKey io id t). cbn in *. by rewrite Hk.
Qed.
Next Obligation.
  cbn. intros io id keyID t p _ _ Hp. unfold tokenPublicKey. destruct (IsHMACKeyID id); [done|].
  destruct (t_keys t !! keyID) as [k|] eqn:Ek; [|done]. pose proof (tokenKey_keeps io id keyID t k Ek) as Hk. destruct (tokenKey io id t). cbn in *. by rewrite Hk.
Qed.
Next Obligation.
  cbn. intros io id keyID t p _ _ Hne Hp. unfold tokenRotate. destruct (IsHMACKeyID id); [by destruct (newSecret io)|].
  destruct (newKey io); [|done]. cbn [fst t_keys]. by rewrite lookup_insert_ne.
Qed.
End Token.

(** The software provider of Keyx.v, as a signer *)
#[export] Instance software_signer `{Crypto} `{Ed25519} (env : string -> string) : Signer Software keyIO := {
  sign io keyID payload s := let '(s, r) := Sign env seedKey edSign io keyID payload s in (s, ofResult r);
  publicKey io keyID s := let '(s, r) := PublicKey env seedKey pubOf io keyID s in (s, ofResult r);
  rotate io keyID s := let '(s, r) := Rotate env io keyID s in (s, ofResult r);
}.

Section SoftwarePublishes.
Context `{Crypto} `{Ed25519} (env : string -> string).

(** Every key in memory and every key file of the right size is genuine. *)
Definition genuineSoftware (s : Software) : Prop :=
  map_Forall (fun _ k => genuine k) (keys s) /\ forall id k, files s !! edFile id = Some k -> privateSize k = true -> genuine k.

(** A write cut short does not leave as many bytes as a key has. *)
Definition genuineKeyIO (io : keyIO) : Prop :=
  (forall k, fresh io = Some k -> genuine k) /\ forall l, write io = torn l -> privateSize l = false.

Lemma ed_genuine io id s : genuineSoftware s -> genuineKeyIO io -> genuineSoftware (ed25519Key env seedKey io id s).1.
Proof.
  intros [Hk Hf] [Hfresh Htorn]. unfold ed25519Key. destruct (keys s !! id) as [k0|]; [done|]. destruct (negb _).
  - destruct (EinvApiKeys.unhexText _) as [seed|]; [|done]. destruct (Nat.eqb_spec (String.length seed) 32); [|done].
    split; [|exact Hf]. cbn [fst keys]. apply map_Forall_insert_2; [by apply seed_genuine|done].
  - destruct (readKey _ _ _ _) as [k|] eqn:Er.
    + split; [|exact Hf]. cbn [fst keys]. apply map_Forall_insert_2; [|done]. unfold readKey in Er. destruct (readOk io); [|done].
      destruct (files s !! edFile id) as [data|] eqn:Ed; [|done]. destruct (privateSize data) eqn:Es; [|done]. injection Er as ->. by apply (Hf id).
    + destruct (fresh io) as [k|] eqn:Efr; [|done]. pose proof (Hfresh k eq_refl) as Hgk.
      assert (Hw : forall v, (privateSize v = true -> genuine v) -> forall id' k', <[edFile id := v]> (files s) !! edFile id' = Some k' -> privateSize k' = true -> genuine k').
      { intros v Hv id' k'. destruct (decide (edFile id = edFile id')) as [->|Hne]; [rewrite lookup_insert_eq; by intros [= <-]|].
        rewrite lookup_insert_ne by done. apply Hf. }
      destruct (write io) as [| |l] eqn:Ew; cbn [writeFile fst keys files].
      * split; [by apply map_Forall_insert_2|by apply Hw].
      * done.
      * split; [done|]. apply Hw. cbn [files]. by rewrite (Htorn l eq_refl).
Qed.

Lemma mac_genuine io id s : IsHMACKeyID id = true -> genuineSoftware s -> genuineSoftware (hmacKey env io id s).1.
Proof.
  intros Hm [Hk Hf]. split.
  - intros id' k' Hk'. destruct (hmacKey_other env io id id' s Hm) as [E _]. rewrite E in Hk'. by apply (Hk id').
  - intros id' k' Hk'. destruct (hmacKey_other env io id id' s Hm) as [_ E]. rewrite E in Hk'. by apply (Hf id').
Qed.

Lemma ed_answer io id s s' k : ed25519Key env seedKey io id s = (s', Ok k) -> keys s' !! id = Some k.
Proof.
  unfold ed25519Key. destruct (keys s !! id) as [k0|] eqn:Ek; [by intros [= <- <-]|]. destruct (negb _).
  - destruct (EinvApiKeys.unhexText _) as [seed|]; [|done]. destruct (_ =? _)%nat; [|done]. intros [= <- <-]. cbn [keys]. by rewrite lookup_insert_eq.
  - destruct (readKey _ _ _ _) as [k1|]; [intros [= <- <-]; cbn [keys]; by rewrite lookup_insert_eq|]. destruct (fresh io) as [k1|]; [|done].
    destruct (writeFile _ _ _ _) as [fs []]; [|done]. intros [= <- <-]. cbn [keys]. by rewrite lookup_insert_eq.
Qed.

Lemma ed_keeps io id keyID s k : keys s !! keyID = Some k -> keys (ed25519Key env seedKey io id s).1 !! keyID = Some k.
Proof.
  intros Hk. destruct (decide (id = keyID)) as [->|Hne]; [unfold ed25519Key; by rewrite Hk|]. by rewrite (proj1 (ed25519Key_other env seedKey io id keyID s Hne)).
Qed.

Lemma rotate_genuine io id s : genuineSoftware s -> genuineKeyIO io -> genuineSoftware (Rotate env io id s).1.
Proof.
  intros [Hk Hf] [Hfresh Htorn]. unfold Rotate. destruct (_ || _); [done|]. destruct (IsHMACKeyID id) eqn:Hm.
  - destruct (secret io) as [k|]; [|done].
    assert (Hw : forall v id' k', <[macFile id := v]> (files s) !! edFile id' = Some k' -> privateSize k' = true -> genuine k').
    { intros v id' k'. rewrite lookup_insert_ne by (intros E; by apply (files_apart id' id Hm)). apply Hf. }
    destruct (write io); cbn [writeFile fst keys files]; (split; [done|]); [apply Hw|done|apply Hw].
  - destruct (fresh io) as [k|] eqn:Efr; [|done]. pose proof (Hfresh k eq_refl) as Hgk.
    assert (Hw : forall v, (privateSize v = true -> genuine v) -> forall id' k', <[edFile id := v]> (files s) !! edFile id' = Some k' -> privateSize k' = true -> genuine k').
    { intros v Hv id' k'. destruct (decide (edFile id = edFile id')) as [->|Hne]; [rewrite lookup_insert_eq; by intros [= <-]|].
      rewrite lookup_insert_ne by done. apply Hf. }
    destruct (write io) as [| |l] eqn:Ew; cbn [writeFile fst keys files].
    + split; [by apply map_Forall_insert_2|by apply Hw].
    + done.
    + split; [done|]. apply Hw. by rewrite (Htorn l eq_refl).
Qed.

Lemma rotate_other io id keyID s : id <> keyID -> keys (Rotate env io id s).1 !! keyID = keys s !! keyID.
Proof.
  intros Hne. unfold Rotate. destruct (_ || _); [done|]. destruct (IsHMACKeyID id).
  - destruct (secret io); [|done]. by destruct (write io).
  - destruct (fresh io); [|done]. destruct (write io); cbn [writeFile fst keys]; [by rewrite lookup_insert_ne|done..].
Qed.

#[export] Program Instance software_publishes : @Publishes Software keyIO (software_signer env) _ := {
  ok := genuineSoftware;
  good := genuineKeyIO;
  shows s keyID := option_map pubOf (keys s !! keyID);
}.
Next Obligation.
  cbn. intros io id payload s Hs Hio. unfold Sign. destruct (IsHMACKeyID id) eqn:Hm.
  - pose proof (mac_genuine io id s Hm Hs) as Hk. by destruct (hmacKey env io id s).
  - pose proof (ed_genuine io id s Hs Hio) as Hk. by destruct (ed25519Key env seedKey io id s).
Qed.
Next Obligation.
  cbn. intros io id s Hs Hio. unfold PublicKey. destruct (IsHMACKeyID id); [done|].
  pose proof (ed_genuine io id s Hs Hio) as Hk. by destruct (ed25519Key env seedKey io id s).
Qed.
Next Obligation.
  cbn. intros io id s Hs Hio. pose proof (rotate_genuine io id s Hs Hio) as Hk. by destruct (Rotate env io id s).
Qed.
Next Obligation.
  cbn. intros io id s s' p _ _. unfold PublicKey. destruct (IsHMACKeyID id); [done|]. destruct (ed25519Key env seedKey io id s) as [s1 [k|e]] eqn:E; [|done].
  intros [= <- <-]. by rewrite (ed_answer _ _ _ _ _ E).
Qed.
Next Obligation.
  cbn. intros io id payload s s' sig Hs Hio Hm. unfold Sign. rewrite Hm. pose proof (ed_genuine io id s Hs Hio) as [Hg _].
  destruct (ed25519Key env seedKey io id s) as [s1 [k|e]] eqn:E; [|done]. intros [= <- <-]. cbn [fst] in Hg. pose proof (ed_answer _ _ _ _ _ E) as Hk.
  pose proof (Hg id k Hk) as Hgk. exists (pubOf k). rewrite Hk. split_and!; [done|by apply pub_length|by apply ed_verifies].
Qed.
Next Obligation.
  cbn. intros io id payload keyID s p _ _ Hp. unfold Sign. destruct (IsHMACKeyID id) eqn:Hm.
  - pose proof (proj1 (hmacKey_other env io id keyID s Hm)) as Hk. destruct (hmacKey env io id s). cbn in *. by rewrite Hk.
  - destruct (keys s !! keyID) as [k|] eqn:Ek; [|done]. pose proof (ed_keeps io id keyID s k Ek) as Hk. destruct (ed25519Key env seedKey io id s).
    cbn in *. by rewrite Hk.
Qed.
Next Obligation.
  cbn. intros io id keyID s p _ _ Hp. unfold PublicKey. destruct (IsHMACKeyID id) eqn:Hm; [done|].
  destruct (keys s !! keyID) as [k|] eqn:Ek; [|done]. pose proof (ed_keeps io id keyID s k Ek) as Hk. destruct (ed25519Key env seedKey io id s).
  cbn in *. by rewrite Hk.
Qed.
Next Obligation.
  cbn. intros io id keyID s p _ _ Hne Hp. pose proof (rotate_other io id keyID s Hne) as Hk. destruct (Rotate env io id s). cbn in *. by rewrite Hk.
Qed.
End SoftwarePublishes.

(** ** The key service *)

Record CloudKMSConfig := mkKMSConfig { BaseURL : string; Style : string; BearerToken : string }.

(** The public keys the provider has seen *)
Record CloudKMS := mkKMS { cfg : CloudKMSConfig; pubs : gmap string string }.

(** [scheme]: that of the parsed address, [None] when it does not parse *)
Definition NewCloudKMS (scheme : option string) (c : CloudKMSConfig) : option CloudKMS :=
  if bool_decide (BaseURL c = "") then None
  else if negb (bool_decide (scheme = Some "https") || bool_decide (scheme = Some "http")) then None
  else if negb (bool_decide (Style c ∈ [""; "aws"; "azure"; "gcp"])) then None
  else Some (mkKMS c ∅).

(** [url.PathEscape] *)
Definition upper_hex (n : Z) : ascii := Ascii.ascii_of_N (Z.to_N (if n <? 10 then n + 48 else n + 55)).
Definition unescaped (c : ascii) : bool := Str.is_alnum c || Str.contains c "-_.~$&+:=@".
Fixpoint PathEscape (s : string) : string :=
  match s with
  | EmptyString => EmptyString
  | String c r => if unescaped c then String c (PathEscape r)
                  else String "%" (String (upper_hex (byte_val c / 16)) (String (upper_hex (byte_val c mod 16)) (PathEscape r)))
  end.

Record kmsRequest := mkKmsRequest {
  k_method : string;
  k_url : string;
  k_headers : list (string * string);
  k_body : list (string * string);
}.

Inductive kmsError := kmsUnavailable | kmsMalformed | kmsInvalidKey | kmsSymmetric.

Section KMS.
Context `{Ed25519} (b64 : string -> string) (unb64 : string -> option string)
  (decodeSignature decodePublic : string -> option string).

(** The code and body of the answer to the nth exchange of a call; [None]:
    the service cannot be reached *)
Abbreviation kmsIO := (nat -> kmsRequest -> option (Z * string)).

Definition kmsRequestOf (c : CloudKMSConfig) (m path : string) (body : list (string * string)) : kmsRequest :=
  mkKmsRequest m (Str.trim_suffix (BaseURL c) "/" +:+ path)
    ([("Content-Type", "application/json")]
     ++ (if bool_decide (BearerToken c = "") then [] else [("Authorization", "Bearer " +:+ BearerToken c)])
     ++ (if bool_decide (Style c = "azure") then [("api-version", "7.4")]
         else if bool_decide (Style c = "gcp") then [("X-Goog-Request-Params", "route=sign")] else []))
    body.

(** [do]; at most a megabyte of the body is read *)
Definition exchange (io : kmsIO) (n : nat) (c : CloudKMSConfig) (m path : string) (body : list (string * string)) : result kmsError string :=
  match io n (kmsRequestOf c m path body) with
  | None => Err kmsUnavailable
  | Some (code, raw) => if 300 <=? code then Err kmsUnavailable else Ok (Str.take (Z.to_nat 1048576) raw)
  end.

Definition algorithm (keyID : string) : string := if IsHMACKeyID keyID then "hmac-sha256" else "ed25519".

Definition remoteSign (io : kmsIO) (n : nat) (c : CloudKMSConfig) (keyID payload : string) : result kmsError string :=
  raw ← exchange io n c "POST" ("/v1/keys/" +:+ PathEscape keyID +:+ "/sign") [("payload_b64", b64 payload); ("algorithm", algorithm keyID)];
  match decodeSignature raw with Some sig64 => Ok sig64 | None => Err kmsMalformed end.

Definition kmsPublicKey (io : kmsIO) (n : nat) (keyID : string) (k : CloudKMS) : CloudKMS * result kmsError string :=
  if IsHMACKeyID keyID then (k, Err kmsSymmetric)
  else match pubs k !! keyID with
       | Some pub => (k, Ok pub)
       | None =>
           match exchange io n (cfg k) "GET" ("/v1/keys/" +:+ PathEscape keyID +:+ "/public") [] with
           | Err e => (k, Err e)
           | Ok raw =>
               match decodePublic raw with
               | None => (k, Err kmsMalformed)
               | Some pub64 =>
                   match unb64 pub64 with
                   | Some pub => if (String.length pub =? 32)%nat then (mkKMS (cfg k) (<[keyID := pub]> (pubs k)), Ok pub) else (k, Err kmsInvalidKey)
                   | None => (k, Err kmsInvalidKey)
                   end
               end
           end
       end.

Definition kmsSign (io : kmsIO) (keyID payload : string) (k : CloudKMS) : CloudKMS * result kmsError string :=
  match remoteSign io 0 (cfg k) keyID payload with
  | Err e => (k, Err e)
  | Ok sig64 =>
      match unb64 sig64 with
      | None => (k, Err kmsMalformed)
      | Some sig =>
          if IsHMACKeyID keyID then
            (k, match remoteSign io 1 (cfg k) keyID payload with
                | Err e => Err e
                | Ok again => if bool_decide (unb64 again = Some sig) then Ok sig else Err kmsUnavailable
                end)
          else
            let '(k, pub) := kmsPublicKey io 1 keyID k in
            (k, match pub with
                | Err e => Err e
                | Ok pub => if (String.length pub =? 32)%nat && edVerify pub payload sig then Ok sig else Err kmsUnavailable
                end)
      end
  end.

Definition kmsRotate (io : kmsIO) (keyID : string) (k : CloudKMS) : CloudKMS * result kmsError unit :=
  match exchange io 0 (cfg k) "POST" ("/v1/keys/" +:+ PathEscape keyID +:+ "/rotate") [] with
  | Err e => (k, Err e)
  | Ok _ => (mkKMS (cfg k) (delete keyID (pubs k)), Ok tt)
  end.

#[local] Instance kms_signer : Signer CloudKMS kmsIO := {
  sign io keyID payload k := let '(k, r) := kmsSign io keyID payload k in (k, ofResult r);
  publicKey io keyID k := let '(k, r) := kmsPublicKey io 0 keyID k in (k, ofResult r);
  rotate io keyID k := let '(k, r) := kmsRotate io keyID k in (k, ofResult r);
}.

(** ** The signatures of the key service verify *)

Lemma kms_pub_answer io n keyID k k' p : kmsPublicKey io n keyID k = (k', Ok p) -> pubs k' !! keyID = Some p.
Proof.
  unfold kmsPublicKey. destruct (IsHMACKeyID keyID); [done|]. destruct (pubs k !! keyID) as [pub|] eqn:Ek; [by intros [= <- <-]|].
  destruct (exchange _ _ _ _ _ _) as [raw|]; [|done]. destruct (decodePublic raw) as [pub64|]; [|done]. destruct (unb64 pub64) as [pub|]; [|done].
  destruct (_ =? _)%nat; [|done]. intros [= <- <-]. cbn [pubs]. by rewrite lookup_insert_eq.
Qed.

Lemma kms_pub_keeps io n id keyID k p : pubs k !! keyID = Some p -> pubs (kmsPublicKey io n id k).1 !! keyID = Some p.
Proof.
  intros Hp. unfold kmsPublicKey. destruct (IsHMACKeyID id); [done|]. destruct (pubs k !! id) as [pub|] eqn:Ek; [done|].
  destruct (exchange _ _ _ _ _ _) as [raw|]; [|done]. destruct (decodePublic raw) as [pub64|]; [|done]. destruct (unb64 pub64) as [pub|]; [|done].
  destruct (_ =? _)%nat; [|done]. cbn [fst pubs]. rewrite lookup_insert_ne; [done|]. intros ->. congruence.
Qed.

Lemma kms_sign_keeps io id payload keyID k p : pubs k !! keyID = Some p -> pubs (kmsSign io id payload k).1 !! keyID = Some p.
Proof.
  intros Hp. unfold kmsSign. destruct (remoteSign _ _ _ _ _) as [sig64|]; [|done]. destruct (unb64 sig64) as [sig|]; [|done].
  destruct (IsHMACKeyID id); [done|]. pose proof (kms_pub_keeps io 1 id keyID k p Hp) as Hk. by destruct (kmsPublicKey io 1 id k).
Qed.

(** Every signature of the key service that is passed on was verified under
    the key that is cached from then on. *)
Lemma kms_sign_checked io keyID payload k k' sig : IsHMACKeyID keyID = false -> kmsSign io keyID payload k = (k', Ok sig) ->
  exists p, pubs k' !! keyID = Some p /\ String.length p = 32%nat /\ edVerify p payload sig = true.
Proof.
  intros Hm. unfold kmsSign. destruct (remoteSign _ _ _ _ _) as [sig64|]; [|done]. destruct (unb64 sig64) as [sig'|]; [|done]. rewrite Hm.
  destruct (kmsPublicKey io 1 keyID k) as [k1 [p|e]] eqn:Ep; [|done]. destruct (Nat.eqb_spec (String.length p) 32) as [Hl|]; [|done].
  cbn [andb]. destruct (edVerify p payload sig') eqn:Ev; [|done]. intros [= <- <-]. exists p. split_and!; [by eapply kms_pub_answer|done..].
Qed.

#[local] Program Instance kms_publishes : Publishes CloudKMS kmsIO := {
  ok _ := True;
  good _ := True;
  shows k keyID := pubs k !! keyID;
}.
Next Obligation. done. Qed.
Next Obligation. done. Qed.
Next Obligation. done. Qed.
Next Obligation.
  cbn. intros io keyID k k' p _ _. destruct (kmsPublicKey io 0 keyID k) as [k1 [r|e]] eqn:E; [|done]. intros [= <- <-]. by eapply kms_pub_answer.
Qed.
Next Obligation.
  cbn. intros io keyID payload k k' sig _ _ Hm. destruct (kmsSign io keyID payload k) as [k1 [r|e]] eqn:E; [|done]. intros [= <- <-].
  by eapply kms_sign_checked.
Qed.
Next Obligation.
  cbn. intros io id payload keyID k p _ _ Hp. pose proof (kms_sign_keeps io id payload keyID k p Hp) as Hk. by destruct (kmsSign io id payload k).
Qed.
Next Obligation.
  cbn. intros io id keyID k p _ _ Hp. pose proof (kms_pub_keeps io 0 id keyID k p Hp) as Hk. by destruct (kmsPublicKey io 0 id k).
Qed.
Next Obligation.
  cbn. intros io id keyID k p _ _ Hne Hp. unfold kmsRotate. destruct (exchange _ _ _ _ _ _); [|done]. cbn [fst pubs]. by rewrite lookup_delete_ne.
Qed.
End KMS.

(** ** A client of a provider *)

Section Client.
Context `{Crypto} {St IO : Type} `{Publishes St IO}.

Inductive call := callSign (keyID payload : string) | callPublic (keyID : string) | callRotate (keyID : string).

Definition runCall (s : St) (c : IO * call) : St :=
  match c.2 with
  | callSign keyID payload => (sign c.1 keyID payload s).1
  | callPublic keyID => (publicKey c.1 keyID s).1
  | callRotate keyID => (rotate c.1 keyID s).1
  end.

Definition rotates (keyID : string) (c : call) : Prop := c = callRotate keyID.

Lemma runCall_ok s c : good c.1 -> ok s -> ok (runCall s c).
Proof. destruct c as [io []]; cbn [fst]; intros Hg Ho; unfold runCall; cbn [fst snd]; [by apply sign_ok|by apply publicKey_ok|by apply rotate_ok]. Qed.

Lemma runCall_keeps s c keyID p : good c.1 -> ok s -> ~ rotates keyID c.2 -> shows s keyID = Some p -> shows (runCall s c) keyID = Some p.
Proof.
  destruct c as [io []]; cbn [fst]; intros Hg Ho Hr Hp; unfold runCall; cbn [fst snd]; [by apply sign_keeps|by apply publicKey_keeps|].
  apply rotate_keeps; [done..| |done]. intros ->. by apply Hr.
Qed.

Lemma run_ok calls : Forall (fun c => good c.1) calls -> forall s, ok s -> ok (foldl runCall s calls).
Proof. induction 1 as [|c calls Hg _ IH]; intros s Ho; [done|]. cbn [foldl]. apply IH. by apply runCall_ok. Qed.

Lemma run_keeps calls keyID p : Forall (fun c => good c.1) calls -> Forall (fun c => ~ rotates keyID c.2) calls ->
  forall s, ok s -> shows s keyID = Some p -> shows (foldl runCall s calls) keyID = Some p.
Proof.
  induction 1 as [|c calls Hg _ IH]; intros Hr s Ho Hp; [done|]. apply Forall_cons in Hr as [Hr1 Hr2]. cbn [foldl].
  apply IH; [done|by apply runCall_ok|by apply runCall_keeps].
Qed.

(** A signature after any calls verifies under the key in use, which is the
    one answered before them unless a call rotated it. *)
Lemma signs_under_shown calls s keyID p io payload s' sig : Forall (fun c => good c.1) calls -> good io -> ok s ->
  IsHMACKeyID keyID = false -> shows s keyID = Some p -> sign io keyID payload (foldl runCall s calls) = (s', Some sig) ->
  exists q, shows s' keyID = Some q /\ String.length q = 32%nat /\ edVerify q payload sig = true /\
    (Forall (fun c => ~ rotates keyID c.2) calls -> q = p).
Proof.
  intros Hc Hg Ho Hm Hp Hs. pose proof (run_ok calls Hc s Ho) as Ho'.
  destruct (sign_shows io keyID payload _ s' sig Ho' Hg Hm Hs) as (q & Hq & Hl & Hv). exists q. do 3 (split; [done|]). intros Hr.
  pose proof (sign_keeps io keyID payload keyID _ p Ho' Hg (run_keeps calls keyID p Hc Hr s Ho Hp)) as Hk. rewrite Hs in Hk. cbn [fst] in Hk. congruence.
Qed.
End Client.

(** ** The providers of a service *)

(** A value of the interface SignerProvider of the package *)
Inductive Provider :=
  | inSoftware (s : Software)
  | inToken (t : SoftToken)
  | inPlugin (p : PKCS11Plugin)
  | inKMS (k : CloudKMS).

(** The surroundings of a call, whichever the provider *)
Record world := mkWorld {
  wSoft : keyIO;
  wToken : tokenIO;
  wPlugin : pluginIO;
  wKms : nat -> kmsRequest -> option (Z * string);
}.

Definition ofCall {A} (r : callResult A) : option A := match r with answered a => Some a | _ => None end.

Section Providers.
Context `{Crypto} `{Ed25519} (env : string -> string) (decodeResponse : string -> option pluginResponse)
  (b64 : string -> string) (unb64 : string -> option string) (decodeSignature decodePublic : string -> option string).

Definition providerSign (w : world) (keyID payload : string) (P : Provider) : Provider * option string :=
  match P with
  | inSoftware s => let '(s, r) := Sign env seedKey edSign (wSoft w) keyID payload s in (inSoftware s, ofResult r)
  | inToken t => let '(t, r) := tokenSign (wToken w) keyID payload t in (inToken t, r)
  | inPlugin p => let '(p, r) := pluginSign decodeResponse b64 unb64 (wPlugin w) keyID payload p in (inPlugin p, ofCall r)
  | inKMS k => let '(k, r) := kmsSign b64 unb64 decodeSignature decodePublic (wKms w) keyID payload k in (inKMS k, ofResult r)
  end.

Definition providerPublicKey (w : world) (keyID : string) (P : Provider) : Provider * option string :=
  match P with
  | inSoftware s => let '(s, r) := PublicKey env seedKey pubOf (wSoft w) keyID s in (inSoftware s, ofResult r)
  | inToken t => let '(t, r) := tokenPublicKey (wToken w) keyID t in (inToken t, r)
  | inPlugin p => let '(p, r) := pluginPublicKey decodeResponse unb64 (wPlugin w) keyID p in (inPlugin p, r ≫= ofCall)
  | inKMS k => let '(k, r) := kmsPublicKey unb64 decodePublic (wKms w) 0 keyID k in (inKMS k, ofResult r)
  end.

Definition providerRotate (w : world) (keyID : string) (P : Provider) : Provider * option unit :=
  match P with
  | inSoftware s => let '(s, r) := Rotate env (wSoft w) keyID s in (inSoftware s, ofResult r)
  | inToken t => let '(t, r) := tokenRotate (wToken w) keyID t in (inToken t, r)
  | inPlugin p => let '(p, r) := pluginRotate decodeResponse (wPlugin w) keyID p in (inPlugin p, (fun _ => tt) <$> ofCall r)
  | inKMS k => let '(k, r) := kmsRotate (wKms w) keyID k in (inKMS k, ofResult r)
  end.

#[local] Instance provider_signer : Signer Provider world := {
  sign := providerSign; publicKey := providerPublicKey; rotate := providerRotate;
}.

(** The public key a provider has in use; the plugin keeps none here. *)
Definition inUse (P : Provider) (keyID : string) : option string :=
  match P with
  | inSoftware s => option_map pubOf (keys s !! keyID)
  | inToken t => option_map pubOf (t_keys t !! keyID)
  | inPlugin _ => None
  | inKMS k => pubs k !! keyID
  end.

(** The keys a provider starts with are keys; a plugin is not checked by
    anything here. *)
Definition checkable (P : Provider) : Prop :=
  match P with
  | inSoftware s => genuineSoftware s
  | inToken t => genuineKeys t
  | inPlugin _ => False
  | inKMS _ => True
  end.

(** What the random source gives are keys, and a write cut short leaves no
    key; the key service may answer anything. *)
Definition goodWorld (w : world) : Prop := genuineKeyIO (wSoft w) /\ genuineIO (wToken w).

#[local] Existing Instance kms_signer.
#[local] Existing Instance kms_publishes.
#[local] Abbreviation softwareSigner := (software_signer env).
#[local] Abbreviation softwarePublishes := (software_publishes env).
#[local] Abbreviation kmsSigner := (kms_signer b64 unb64 decodeSignature decodePublic).
#[local] Abbreviation kmsPublishes := (kms_publishes b64 unb64 decodeSignature decodePublic).

(** The dispatch, through the interface *)
Definition dispatched {A} (P : Provider) (soft : Software -> Software * option A) (token : SoftToken -> SoftToken * option A)
    (plug : PKCS11Plugin -> PKCS11Plugin * option A) (kms : CloudKMS -> CloudKMS * option A) : Provider * option A :=
  match P with
  | inSoftware s => (inSoftware (soft s).1, (soft s).2)
  | inToken t => (inToken (token t).1, (token t).2)
  | inPlugin p => (inPlugin (plug p).1, (plug p).2)
  | inKMS k => (inKMS (kms k).1, (kms k).2)
  end.

Lemma provider_sign w id m P : exists plug, providerSign w id m P =
  dispatched P (sign (Signer := softwareSigner) (wSoft w) id m) (sign (wToken w) id m) plug (sign (Signer := kmsSigner) (wKms w) id m).
Proof.
  exists (fun p => let '(p, r) := pluginSign decodeResponse b64 unb64 (wPlugin w) id m p in (p, ofCall r)).
  destruct P; cbn; [by destruct (Sign _ _ _ _ _ _ _)|by destruct (tokenSign _ _ _ _)|by destruct (pluginSign _ _ _ _ _ _ _)|by destruct (kmsSign _ _ _ _ _ _ _ _)].
Qed.

Lemma provider_publicKey w id P : exists plug, providerPublicKey w id P =
  dispatched P (publicKey (Signer := softwareSigner) (wSoft w) id) (publicKey (wToken w) id) plug (publicKey (Signer := kmsSigner) (wKms w) id).
Proof.
  exists (fun p => let '(p, r) := pluginPublicKey decodeResponse unb64 (wPlugin w) id p in (p, r ≫= ofCall)).
  destruct P; cbn; [by destruct (PublicKey _ _ _ _ _ _)|by destruct (tokenPublicKey _ _ _)|by destruct (pluginPublicKey _ _ _ _ _)|by destruct (kmsPublicKey _ _ _ _ _ _)].
Qed.

Lemma provider_rotate w id P : exists plug, providerRotate w id P =
  dispatched P (rotate (Signer := softwareSigner) (wSoft w) id) (rotate (wToken w) id) plug (rotate (Signer := kmsSigner) (wKms w) id).
Proof.
  exists (fun p => let '(p, r) := pluginRotate decodeResponse (wPlugin w) id p in (p, (fun _ => tt) <$> ofCall r)).
  destruct P; cbn; [by destruct (Rotate _ _ _ _)|by destruct (tokenRotate _ _ _)|by destruct (pluginRotate _ _ _ _)|by destruct (kmsRotate _ _ _)].
Qed.

Lemma pair_of {A B} (x : A * B) b : x.2 = b -> x = (x.1, b).
Proof. intros <-. apply surjective_pairing. Qed.

#[local] Program Instance provider_publishes : @Publishes Provider world provider_signer _ := {
  ok := checkable;
  good := goodWorld;
  shows := inUse;
}.
Next Obligation.
  intros w id m P Ho [Hs Ht]. cbn [sign provider_signer]. destruct (provider_sign w id m P) as [plug ->].
  destruct P as [s|t|p|k]; [exact (sign_ok (Publishes := softwarePublishes) _ _ _ s Ho Hs)|exact (sign_ok _ _ _ t Ho Ht)|destruct Ho|exact I].
Qed.
Next Obligation.
  intros w id P Ho [Hs Ht]. cbn [publicKey provider_signer]. destruct (provider_publicKey w id P) as [plug ->].
  destruct P as [s|t|p|k]; [exact (publicKey_ok (Publishes := softwarePublishes) _ _ s Ho Hs)|exact (publicKey_ok _ _ t Ho Ht)|destruct Ho|exact I].
Qed.
Next Obligation.
  intros w id P Ho [Hs Ht]. cbn [rotate provider_signer]. destruct (provider_rotate w id P) as [plug ->].
  destruct P as [s|t|p|k]; [exact (rotate_ok (Publishes := softwarePublishes) _ _ s Ho Hs)|exact (rotate_ok _ _ t Ho Ht)|destruct Ho|exact I].
Qed.
Next Obligation.
  intros w id P P' q Ho [Hs Ht]. cbn [publicKey provider_signer]. destruct (provider_publicKey w id P) as [plug ->].
  destruct P as [s|t|p|k]; [..|destruct Ho|]; unfold dispatched; intros E; injection E as <- Hq; apply pair_of in Hq.
  - exact (publicKey_shows (Publishes := softwarePublishes) _ _ _ _ _ Ho Hs Hq).
  - exact (publicKey_shows _ _ _ _ _ Ho Ht Hq).
  - exact (publicKey_shows (Publishes := kmsPublishes) _ _ _ _ _ I I Hq).
Qed.
Next Obligation.
  intros w id m P P' sig Ho [Hs Ht] Hm. cbn [sign provider_signer]. destruct (provider_sign w id m P) as [plug ->].
  destruct P as [s|t|p|k]; [..|destruct Ho|]; unfold dispatched; intros E; injection E as <- Hq; apply pair_of in Hq.
  - exact (sign_shows (Publishes := softwarePublishes) _ _ _ _ _ _ Ho Hs Hm Hq).
  - exact (sign_shows _ _ _ _ _ _ Ho Ht Hm Hq).
  - exact (sign_shows (Publishes := kmsPublishes) _ _ _ _ _ _ I I Hm Hq).
Qed.
Next Obligation.
  intros w id m keyID P q Ho [Hs Ht] Hq. cbn [sign provider_signer]. destruct (provider_sign w id m P) as [plug ->].
  destruct P as [s|t|p|k]; [exact (sign_keeps (Publishes := softwarePublishes) _ _ _ _ s q Ho Hs Hq)|exact (sign_keeps _ _ _ _ t q Ho Ht Hq)|destruct Ho|].
  exact (sign_keeps (Publishes := kmsPublishes) _ _ _ _ k q I I Hq).
Qed.
Next Obligation.
  intros w id keyID P q Ho [Hs Ht] Hq. cbn [publicKey provider_signer]. destruct (provider_publicKey w id P) as [plug ->].
  destruct P as [s|t|p|k]; [exact (publicKey_keeps (Publishes := softwarePublishes) _ _ _ s q Ho Hs Hq)|exact (publicKey_keeps _ _ _ t q Ho Ht Hq)|destruct Ho|].
  exact (publicKey_keeps (Publishes := kmsPublishes) _ _ _ k q I I Hq).
Qed.
Next Obligation.
  intros w id keyID P q Ho [Hs Ht] Hne Hq. cbn [rotate provider_signer]. destruct (provider_rotate w id P) as [plug ->].
  destruct P as [s|t|p|k]; [exact (rotate_keeps (Publishes := softwarePublishes) _ _ _ s q Ho Hs Hne Hq)|exact (rotate_keeps _ _ _ t q Ho Ht Hne Hq)|destruct Ho|].
  exact (rotate_keeps (Publishes := kmsPublishes) _ _ _ k q I I Hne Hq).
Qed.

(** ** The signing identity of the e-invoicing service *)

(** What the choice of the configuration is, for [LoadCSIDWithProvider] *)
Definition kindOf (P : Provider) : SignerProvider :=
  match P with
  | inSoftware _ => software ""
  | inToken _ | inPlugin _ => pkcs11 ""
  | inKMS k => cloudKMS (BaseURL (cfg k)) (Style (cfg k)) (BearerToken (cfg k))
  end.

(** [LoadCSIDWithProvider]: only a provider that is not software is asked. *)
Definition loadIdentity (w : world) (mkdirOk : bool) (fs : gmap string string) (P : Provider) : Provider * result keyError CSIDSigner :=
  match P with
  | inSoftware _ => (P, (LoadCSIDWithProvider env seedKey pubOf (Some (kindOf P)) None mkdirOk (wSoft w) fs).2)
  | _ => let '(P', pub) := providerPublicKey w "csid" P in
         (P', (LoadCSIDWithProvider env seedKey pubOf (Some (kindOf P)) pub mkdirOk (wSoft w) fs).2)
  end.

(** The calls of a provider by the rest of the process *)
Definition providerCall (P : Provider) (c : world * call) : Provider :=
  match c.2 with
  | callSign keyID payload => (providerSign c.1 keyID payload P).1
  | callPublic keyID => (providerPublicKey c.1 keyID P).1
  | callRotate keyID => (providerRotate c.1 keyID P).1
  end.

Lemma hex_verifies q m sig : String.length q = 32%nat -> edVerify q m sig = true -> Verify edVerify (hex q) m (hex sig) = true.
Proof. intros Hl Hv. unfold Verify. by rewrite !EinvApiKeys.unhex_hex, Hl, Hv. Qed.

Lemma signed_facts (inv : CanonicalInvoice) sig kid : let inv' := inv{{ CSIDSignature := sig; CSIDKeyID := kid }} in
  Hash inv' = Hash inv /\ CSIDKeyID inv' = kid /\ CSIDSignature inv' = sig.
Proof. by destruct inv. Qed.

Lemma remote_identity pub kind mkdirOk io fs signer : (match kind with software _ => False | _ => True end) ->
  (LoadCSIDWithProvider env seedKey pubOf (Some kind) pub mkdirOk io fs).2 = Ok signer ->
  exists p, pub = Some p /\ signer = mkSigner None p (shortKeyID p).
Proof.
  intros Hk. unfold LoadCSIDWithProvider. destruct kind; [done|..]; cbn [snd]; (destruct pub as [p|]; [|done]); (destruct (_ =? _)%nat; [|done]);
    intros [= <-]; by exists p.
Qed.

Lemma remote_invoice P p calls w inv : checkable P -> Forall (fun c => goodWorld c.1) calls -> goodWorld w -> inUse P "csid" = Some p ->
  let P2 := foldl providerCall P calls in
  let '(inv', signed) := SignInvoice edSign (fun payload => (providerSign w "csid" payload P2).2) (mkSigner None p (shortKeyID p)) inv in
  signed = true ->
  Hash inv' = Hash inv /\ CSIDKeyID inv' = shortKeyID p /\
  exists q, Verify edVerify (hex q) (Hash inv') (CSIDSignature inv') = true /\
    inUse (providerSign w "csid" (Hash inv) P2).1 "csid" = Some q /\ (Forall (fun c => ~ rotates "csid" c.2) calls -> q = p).
Proof.
  intros Ho Hc Hg Hp P2. unfold SignInvoice, SignPayload. cbn [s_priv s_keyID s_pub].
  destruct (providerSign w "csid" (Hash inv) P2) as [P3 [sig|]] eqn:Es; cbn [snd fst option_map]; [|done]. intros _.
  destruct (signed_facts inv (hex sig) (shortKeyID p)) as (E1 & E2 & E3). rewrite E1, E2, E3. split; [done|]. split; [done|].
  destruct (@signs_under_shown Provider world provider_signer _ provider_publishes calls P "csid" p w (Hash inv) P3 sig Hc Hg Ho eq_refl Hp Es) as (q & Hq & Hl & Hv & Hr).
  exists q. split; [by apply hex_verifies|done].
Qed.

Lemma local_invoice remote k inv : genuine k ->
  let '(inv', signed) := SignInvoice edSign remote (csidOf pubOf k) inv in
  Hash inv' = Hash inv /\ CSIDKeyID inv' = shortKeyID (pubOf k) /\ Verify edVerify (hex (pubOf k)) (Hash inv') (CSIDSignature inv') = true.
Proof.
  intros Hk. unfold SignInvoice, SignPayload. cbn [s_priv s_keyID csidOf].
  destruct (signed_facts inv (hex (edSign k (Hash inv))) (shortKeyID (pubOf k))) as (E1 & E2 & E3). rewrite E1, E2, E3.
  do 2 (split; [done|]). apply hex_verifies; [by apply pub_length|by apply ed_verifies].
Qed.

(** C33: A signed invoice verifies, whichever the provider.  The service loads
    its identity with a software provider, a soft token or a key service; after
    any further calls of the provider - signatures, public keys, rotations, of
    any key, each with any answers of the random source, the files and the
    key service - an invoice that gets a signature carries its own hash's: one
    that verifies under the key in use, which is the key published at start-up
    when the identity is a key of this process or no call rotated it.  Of the
    key service nothing is assumed; that its signatures verify is what the
    provider checks before it passes one on.  The client of a PKCS#11 plugin
    checks nothing and is left out. *)
Theorem remote_csid_verifies w0 mkdirOk fs P0 P1 signer calls w inv :
  checkable P0 -> (forall k, fs !! "csid_ed25519.key" = Some k -> privateSize k = true -> genuine k) ->
  goodWorld w0 -> Forall (fun c => goodWorld c.1) calls -> goodWorld w ->
  loadIdentity w0 mkdirOk fs P0 = (P1, Ok signer) ->
  let P2 := foldl providerCall P1 calls in
  let '(inv', signed) := SignInvoice edSign (fun payload => (providerSign w "csid" payload P2).2) signer inv in
  signed = true ->
  Hash inv' = Hash inv /\ CSIDKeyID inv' = shortKeyID (s_pub signer) /\
  exists q, Verify edVerify (hex q) (Hash inv') (CSIDSignature inv') = true /\
    match P0 with
    | inSoftware _ => q = s_pub signer
    | _ => inUse (providerSign w "csid" (Hash inv) P2).1 "csid" = Some q /\
           (Forall (fun c => ~ rotates "csid" c.2) calls -> q = s_pub signer)
    end.
Proof.
  intros Ho Hfile Hg0 Hc Hg Hload P2.
  destruct P0 as [s|t|p|k]; cbn [loadIdentity] in Hload.
  - injection Hload as <- Hl. cbn [kindOf LoadCSIDWithProvider] in Hl.
    destruct (LoadCSID env seedKey pubOf mkdirOk (wSoft w0) fs) as [fs' r] eqn:El. cbn [snd] in Hl. subst r.
    destruct (LoadCSID_genuine env seedKey pubOf genuine mkdirOk _ fs fs' signer seed_genuine (proj1 (proj1 Hg0)) Hfile El) as (k & -> & Hk).
    pose proof (local_invoice (fun payload => (providerSign w "csid" payload P2).2) k inv Hk) as Hi. destruct (SignInvoice _ _ _ _) as [inv' signed].
    intros _. destruct Hi as (H1 & H2 & H3). do 2 (split; [done|]). by exists (pubOf k).
  - destruct (providerPublicKey w0 "csid" (inToken t)) as [P' pub] eqn:Ep. injection Hload as <- Hl.
    destruct (remote_identity pub (kindOf (inToken t)) mkdirOk (wSoft w0) fs signer I Hl) as (p & -> & ->).
    pose proof (@publicKey_ok Provider world provider_signer _ provider_publishes w0 "csid" _ Ho Hg0) as Ho1. pose proof (@publicKey_shows Provider world provider_signer _ provider_publishes _ _ _ _ _ Ho Hg0 Ep) as Hp.
    cbn [publicKey provider_signer] in Ho1. rewrite Ep in Ho1. exact (remote_invoice P' p calls w inv Ho1 Hc Hg Hp).
  - destruct Ho.
  - destruct (providerPublicKey w0 "csid" (inKMS k)) as [P' pub] eqn:Ep. injection Hload as <- Hl.
    destruct (remote_identity pub (kindOf (inKMS k)) mkdirOk (wSoft w0) fs signer I Hl) as (p & -> & ->).
    pose proof (@publicKey_ok Provider world provider_signer _ provider_publishes w0 "csid" _ Ho Hg0) as Ho1. pose proof (@publicKey_shows Provider world provider_signer _ provider_publishes _ _ _ _ _ Ho Hg0 Ep) as Hp.
    cbn [publicKey provider_signer] in Ho1. rewrite Ep in Ho1. exact (remote_invoice P' p calls w inv Ho1 Hc Hg Hp).
Qed.
End Providers.

(** ** Lines and requests *)

Section Lines.
Context (decodeResponse : string -> option pluginResponse) (b64 : string -> string) (unb64 : string -> option string).

(** A plugin that answers a request with one line *)
Definition prompt (io : pluginIO) (req : pluginRequest) : Prop := takes io = true /\ exists line, writes io req = [line].

Definition inStep (p : PKCS11Plugin) : Prop := unread p = None \/ unread p = Some [].

Definition answerOf (line : string) : callResult pluginResponse :=
  match decodeResponse line with
  | None => malformed
  | Some resp => if OK resp then answered resp else refusedBy (Error resp)
  end.

Definition pluginCalls (p : PKCS11Plugin) (calls : list (pluginIO * pluginRequest)) : PKCS11Plugin * list (callResult pluginResponse) :=
  foldl (fun st c => let '(p, rs) := st in let '(p, r) := callLocked decodeResponse c.1 c.2 p in (p, rs ++ [r])) (p, []) calls.

(** As long as the plugin writes one line for each request, every call is
    answered by the line written for its own request, and the client never
    hangs: it stays in step, over restarts of the plugin too. *)
Theorem plugin_in_step p calls : inStep p -> Forall (fun c => prompt c.1 c.2) calls ->
  let '(p', rs) := pluginCalls p calls in
  inStep p' /\ Forall2 (fun c r => (exists line, writes c.1 c.2 = [line] /\ r = answerOf line) \/ starts c.1 = false /\ r = unavailable) calls rs.
Proof.
  intros Hp Hc. unfold pluginCalls.
  assert (HG : forall done_ p rs, inStep p ->
    Forall2 (fun c r => (exists line, writes c.1 c.2 = [line] /\ r = answerOf line) \/ starts c.1 = false /\ r = unavailable) done_ rs ->
    let '(p', rs') := foldl (fun st c => let '(p, rs) := st in let '(p, r) := callLocked decodeResponse c.1 c.2 p in (p, rs ++ [r])) (p, rs) calls in
    inStep p' /\ Forall2 (fun c r => (exists line, writes c.1 c.2 = [line] /\ r = answerOf line) \/ starts c.1 = false /\ r = unavailable) (done_ ++ calls) rs').
  { clear p Hp. induction Hc as [|[io req] calls [Ht [line Hw]] _ IH]; intros done_ p rs Hp HF; cbn [foldl]; [by rewrite app_nil_r|].
    cbn [fst snd] in *. destruct (callLocked decodeResponse io req p) as [p1 r] eqn:E.
    replace (done_ ++ (io, req) :: calls) with ((done_ ++ [(io, req)]) ++ calls) by by rewrite <- app_assoc.
    assert (Hpr : inStep p1 /\ ((exists line, writes io req = [line] /\ r = answerOf line) \/ starts io = false /\ r = unavailable)).
    { unfold callLocked in E. rewrite Ht, Hw in E. destruct Hp as [Hp|Hp]; rewrite Hp in E; cbn [negb app] in E.
      - destruct (starts io); [|by injection E as <- <-; split; [by left|right]]. injection E as <- <-. split; [by right|left]. by exists line.
      - injection E as <- <-. split; [by right|left]. by exists line. }
    apply IH; [apply Hpr|]. apply Forall2_app; [done|]. constructor; [apply Hpr|constructor]. }
  exact (HG [] p [] Hp ltac:(constructor)).
Qed.

(** One line too many and the client is out of step for good: after a line
    that is no answer the call fails, and the next signature it returns is the
    one the plugin made for the earlier payload, unchecked. *)
Theorem plugin_stray_line_signs_another io1 io2 keyID m1 m2 stray line1 line2 resp1 sig1 :
  starts io1 = true -> takes io1 = true -> takes io2 = true ->
  writes io1 (signRequest b64 keyID m1) = [stray; line1] -> writes io2 (signRequest b64 keyID m2) = [line2] ->
  decodeResponse stray = None -> decodeResponse line1 = Some resp1 -> OK resp1 = true -> unb64 (SignatureB64 resp1) = Some sig1 ->
  let '(p1, r1) := pluginSign decodeResponse b64 unb64 io1 keyID m1 (mkPlugin None) in
  let '(p2, r2) := pluginSign decodeResponse b64 unb64 io2 keyID m2 p1 in
  r1 = malformed /\ r2 = answered sig1 /\ unread p2 = Some [line2].
Proof.
  intros Hs Ht1 Ht2 Hw1 Hw2 Hd1 Hd2 Hok Hu. unfold pluginSign, callLocked. cbn [unread]. rewrite Hs, Ht1, Hw1. cbn [negb app]. rewrite Hd1.
  cbn [unread decoded]. rewrite Ht2, Hw2. cbn [negb app]. rewrite Hd2, Hok. cbn [decoded]. by rewrite Hu.
Qed.
End Lines.

(** ** Names of keys in paths *)

Lemma escape_facts c : Mux.hexval (upper_hex (byte_val c / 16)) = Some (byte_val c / 16) /\ Mux.hexval (upper_hex (byte_val c mod 16)) = Some (byte_val c mod 16) /\
  byte_val c / 16 * 16 + byte_val c mod 16 = byte_val c /\ Ascii.ascii_of_N (Z.to_N (byte_val c)) = c /\
  upper_hex (byte_val c / 16) <> "/"%char /\ upper_hex (byte_val c mod 16) <> "/"%char /\
  (unescaped c = true -> c <> "%"%char /\ c <> "/"%char).
Proof. destruct c as [[] [] [] [] [] [] [] []]; vm_compute; repeat split; congruence. Qed.

(** The name of a key, whatever its bytes, is one segment of the path of a
    request and is read back as it is. *)
Theorem pathescape_roundtrip s : Mux.unescapeAll (PathEscape s) = Some s /\ Str.contains "/" (PathEscape s) = false.
Proof.
  induction s as [|c s [IH1 IH2]]; [done|]. destruct (escape_facts c) as (H1 & H2 & H3 & H4 & H5 & H6 & H7). cbn [PathEscape].
  destruct (unescaped c) eqn:Eu.
  - destruct (H7 eq_refl) as [Hp Hs]. cbn [Mux.unescapeAll Str.contains]. rewrite bool_decide_eq_false_2 by done.
    rewrite IH1, IH2. split; [done|]. by rewrite bool_decide_eq_false_2 by congruence.
  - cbn [Mux.unescapeAll Str.contains]. rewrite bool_decide_eq_true_2 by done. rewrite H1, H2, H3, H4, IH1, IH2. split; [done|].
    rewrite !bool_decide_eq_false_2 by congruence. done.
Qed.

(** ** Witnesses *)

#[local] Existing Instance Toy.crypto.

#[local] Program Instance toy_ed : Ed25519 := {
  seedKey s := s;
  pubOf := toyPub;
  edSign := toySign;
  edVerify := toyVerify;
  genuine _ := True;
}.
Next Obligation. done. Qed.
Next Obligation. intros k _. apply toyPub_length. Qed.
Next Obligation. intros k m _. by apply bool_decide_eq_true_2. Qed.

(** A key service with one key whose every signature is the toy signature;
    its answers are the bytes themselves. *)
Definition same (s : string) : string := s.
Definition kms_answers (pub sig : string) (n : nat) (r : kmsRequest) : option (Z * string) :=
  Some (200, if Str.has_suffix (k_url r) "/public" then pub else sig).
Definition demo_hash : string := Hash EinvValidate.demo_bare.
Definition kms_world (key : string) : world :=
  mkWorld (mkKeyIO true None None refused) (mkTokenIO None None) (mkPluginIO false false (fun _ => []) true) (kms_answers (toyPub key) (toySign key demo_hash)).
Definition demo_kms : Provider := inKMS (mkKMS (mkKMSConfig "https://kms" "" "") ∅).
Definition demo_calls : list (world * call) :=
  [(kms_world (key64 "a"), callSign "feed" "x"); (kms_world (key64 "b"), callRotate "feed"); (kms_world (key64 "a"), callPublic "csid")].

Definition demo_loaded : Provider := inKMS (mkKMS (mkKMSConfig "https://kms" "" "") {[ "csid" := toyPub (key64 "a") ]}).
Definition demo_signer : CSIDSigner := mkSigner None (toyPub (key64 "a")) (shortKeyID (toyPub (key64 "a"))).
#[local] Abbreviation demo_run calls P := (foldl (providerCall noEnv (fun _ => None) same Some Some Some) P calls).
#[local] Abbreviation demo_sign key P payload := (providerSign noEnv (fun _ => None) same Some Some Some (kms_world key) "csid" payload P).

Lemma kms_world_good key : goodWorld (kms_world key).
Proof. split; [split; intros; discriminate|intros k Hk; discriminate Hk]. Qed.

Lemma remote_csid_verifies_witness :
  let '(inv', signed) := SignInvoice edSign (fun payload => (demo_sign (key64 "a") (demo_run demo_calls demo_loaded) payload).2) demo_signer EinvValidate.demo_bare in
  signed = true ->
  Hash inv' = Hash EinvValidate.demo_bare /\ CSIDKeyID inv' = shortKeyID (s_pub demo_signer) /\
  exists q, Verify edVerify (hex q) (Hash inv') (CSIDSignature inv') = true /\
    (inUse (demo_sign (key64 "a") (demo_run demo_calls demo_loaded) (Hash EinvValidate.demo_bare)).1 "csid" = Some q /\
     (Forall (fun c => ~ rotates "csid" c.2) demo_calls -> q = s_pub demo_signer)).
Proof.
  apply (remote_csid_verifies noEnv (fun _ => None) same Some Some Some (kms_world (key64 "a")) true ∅ demo_kms demo_loaded demo_signer
           demo_calls (kms_world (key64 "a")) EinvValidate.demo_bare).
  - exact I.
  - intros k Hk. discriminate Hk.
  - apply kms_world_good.
  - unfold demo_calls. do 3 (apply Forall_cons; split; [apply kms_world_good|]). apply Forall_nil. exact I.
  - apply kms_world_good.
  - vm_compute. reflexivity.
Defined.

(** The invoice of the witness is signed. *)
Example kms_signs :
  (SignInvoice edSign (fun payload => (demo_sign (key64 "a") (demo_run demo_calls demo_loaded) payload).2) demo_signer EinvValidate.demo_bare).2 = true.
Proof. vm_compute. reflexivity. Qed.

(** A token whose key was rotated after the start still signs, under a key
    that is not the published one; a key service whose key was rotated behind
    the provider's back does not. *)
Definition token_world (key : string) : world :=
  mkWorld (mkKeyIO true None None refused) (mkTokenIO (Some key) None) (mkPluginIO false false (fun _ => []) true) (fun _ _ => None).
Definition rotated_token : Provider := demo_run [(token_world (key64 "b"), callRotate "csid")] (inToken (mkToken {[ "csid" := key64 "a" ]} ∅)).

Example rotation_changes_key :
  let '(inv', signed) := SignInvoice edSign (fun payload => (demo_sign (key64 "a") rotated_token payload).2) demo_signer EinvValidate.demo_bare in
  signed = true /\ Verify edVerify (hex (toyPub (key64 "b"))) (Hash inv') (CSIDSignature inv') = true /\
  Verify edVerify (hex (s_pub demo_signer)) (Hash inv') (CSIDSignature inv') = false.
Proof. vm_compute. done. Qed.

Example foreign_rotation_refused :
  (SignInvoice edSign (fun payload => (demo_sign (key64 "b") demo_loaded payload).2) demo_signer EinvValidate.demo_bare).2 = false.
Proof. vm_compute. reflexivity. Qed.

(** Lines of a toy protocol: an answer is the letter s and the signature. *)
Definition toy_response (line : string) : option pluginResponse :=
  match line with String "s" sig => Some (mkPluginResponse true "" sig "") | _ => None end.
Definition toy_io (lines : list string) : pluginIO := mkPluginIO true true (fun req => lines) false.

Lemma plugin_in_step_witness :
  let calls := [(toy_io ["sA"], signRequest same "csid" "a"); (toy_io ["sB"], signRequest same "csid" "b")] in
  let '(p', rs) := pluginCalls toy_response (mkPlugin None) calls in
  inStep p' /\ Forall2 (fun c r => (exists line, writes c.1 c.2 = [line] /\ r = answerOf toy_response line) \/ starts c.1 = false /\ r = unavailable) calls rs.
Proof.
  apply (plugin_in_step toy_response (mkPlugin None) [(toy_io ["sA"], signRequest same "csid" "a"); (toy_io ["sB"], signRequest same "csid" "b")]).
  - left. reflexivity.
  - do 2 (apply Forall_cons; split; [split; [reflexivity|eexists; reflexivity]|]). apply Forall_nil. exact I.
Defined.

Lemma plugin_stray_line_signs_another_witness :
  let '(p1, r1) := pluginSign toy_response same Some (toy_io ["log"; "sA"]) "csid" "a" (mkPlugin None) in
  let '(p2, r2) := pluginSign toy_response same Some (toy_io ["sB"]) "csid" "b" p1 in
  r1 = malformed /\ r2 = answered "A" /\ unread p2 = Some ["sB"].
Proof.
  apply (plugin_stray_line_signs_another toy_response same Some (toy_io ["log"; "sA"]) (toy_io ["sB"]) "csid" "a" "b" "log" "sA" "sB"
           (mkPluginResponse true "" "A" "") "A"); reflexivity.
Defined.

(** The key service: a signature that does not verify is refused. *)
Example kms_accepts :
  (kmsSign same Some Some Some (kms_answers (toyPub "k") (toySign "k" "m")) "csid" "m" (mkKMS (mkKMSConfig "https://kms" "" "") ∅)).2 = Ok (toySign "k" "m").
Proof. vm_compute. reflexivity. Qed.

(** After the key was rotated elsewhere the cached public key refuses every
    signature of the new one. *)
Example kms_stale :
  (kmsSign same Some Some Some (kms_answers (toyPub "new") (toySign "new" "m")) "csid" "m"
     (mkKMS (mkKMSConfig "https://kms" "" "") {[ "csid" := toyPub "old" ]})).2 = Err kmsUnavailable.
Proof. vm_compute. reflexivity. Qed.
