(* ===== verification/Otelx.v ===== *)
(** * Tracing (packages/otelx)

    The bootstrap of the exporters, the span of a served request and of an
    outbound call, the tenant they carry, and the redaction of taxpayers'
    numbers from what they record.  The exporters, the propagation of trace
    contexts and the decoding of a token's claims are parameters; the mux
    under the middleware is that of Mux.v. *)

From S2P Require Import Prelude StrFacts Crypto.
From S2P Require Auth EinvIrn Mux.

(** ** Bootstrap *)

Record Config := mkConfig {
  Endpoint : string;
  Service : string;
  Version : string;
  Env : string;
  Profile : string;
  Insecure : bool;
}.

Fixpoint firstEnv (env : string -> string) (keys : list string) : string :=
  match keys with
  | [] => ""
  | k :: keys => if bool_decide (env k = "") then firstEnv env keys else env k
  end.

Definition ConfigFromEnv (env : string -> string) : Config :=
  mkConfig (env "OTEL_EXPORTER_OTLP_ENDPOINT")
    (Str.or_default (firstEnv env ["OTEL_SERVICE_NAME"; "SERVICE_NAME"]) "unknown-service")
    (Str.or_default (firstEnv env ["OTEL_SERVICE_VERSION"; "SERVICE_VERSION"]) "0.0.0")
    (Str.or_default (firstEnv env ["DEPLOYMENT_ENVIRONMENT"; "PROFILE"]) "dev")
    (env "PROFILE") (negb (bool_decide (env "OTEL_EXPORTER_OTLP_INSECURE" = "false"))).

Inductive signal := traces | metrics | logs.

#[export] Instance signal_eq_dec : EqDecision signal.
Proof. solve_decision. Defined.

(** The signals that have an exporter; the others have a provider that does
    nothing *)
Record Providers := mkProviders { enabled : bool; shutdown : list signal }.

(** [resourceOk], [exporterOk]: whether the resource and each exporter can be
    built *)
Definition InitProvidersWith (resourceOk : bool) (exporterOk : signal -> bool) (cfg : Config) : Providers :=
  if bool_decide (Endpoint cfg = "") then mkProviders false []
  else if negb resourceOk then mkProviders false []
  else mkProviders true (filter (fun s => exporterOk s = true) [traces; metrics; logs]).

(** The order in which [Shutdown] stops what runs *)
Definition Shutdown (p : Providers) : list signal := rev (shutdown p).

Definition longer (p s : string) : bool := (String.length p <? String.length s)%nat && Str.has_prefix s p.
Definition stripScheme (ep : string) : string :=
  if longer "http://" ep then Str.drop 7 ep else if longer "https://" ep then Str.drop 8 ep else ep.

(** ** Redaction *)

(** The length of the first rune of a string: invalid bytes are runes of
    their own *)
Definition between (lo hi : Z) (c : ascii) : bool := (lo <=? byte_val c) && (byte_val c <=? hi).
Definition runeLen (s : string) : nat :=
  match s with
  | EmptyString => 0
  | String c r =>
      let cont2 lo hi := match r with String c1 _ => between lo hi c1 | _ => false end in
      let cont3 lo hi := match r with String c1 (String c2 _) => between lo hi c1 && between 128 191 c2 | _ => false end in
      let cont4 lo hi := match r with String c1 (String c2 (String c3 _)) => between lo hi c1 && between 128 191 c2 && between 128 191 c3 | _ => false end in
      if between 194 223 c && cont2 128 191 then 2
      else if between 224 224 c && cont3 160 191 || between 225 236 c && cont3 128 191 || between 237 237 c && cont3 128 159
              || between 238 239 c && cont3 128 191 then 3
      else if between 240 240 c && cont4 144 191 || between 241 243 c && cont4 128 191 || between 244 244 c && cont4 128 143 then 4
      else 1
  end.

(** The number of runes, skipping the bytes left of the last one *)
Fixpoint runesFrom (skip : nat) (s : string) : nat :=
  match s with
  | EmptyString => 0
  | String _ r => match skip with
                  | S k => runesFrom k r
                  | O => S (runesFrom (runeLen s - 1) r)
                  end
  end.
Definition runes (s : string) : nat := runesFrom 0 s.

(** [^\[0-9\]\[0-9-\]{7,}$] *)
Definition digitOrDash (c : ascii) : bool := Str.is_digit c || bool_decide (c = "-"%char).
Definition tinSegment (s : string) : bool :=
  match s with
  | String c r => Str.is_digit c && Str.all digitOrDash r && (7 <=? String.length r)%nat
  | EmptyString => false
  end.

(** [^\[^/\]+-\[^/-\]{8}-\[0-9\]{8}$]: the parts around the last two hyphens *)
Definition irnSegment (s : string) : bool :=
  match Str.cut_last "-" s with
  | Some (ab, c) =>
      match Str.cut_last "-" ab with
      | Some (a, b) =>
          negb (bool_decide (a = "")) && negb (Str.contains "/" a) && (runes b =? 8)%nat && negb (Str.contains "/" b) &&
          (String.length c =? 8)%nat && Str.all Str.is_digit c
      | None => false
      end
  | None => false
  end.

Definition sensitive (seg : string) : bool := tinSegment seg || irnSegment seg.
Definition redactSegment (seg : string) : string := if sensitive seg then "{redacted}" else seg.

Definition redactPath (p : string) : string :=
  let segs := Str.split "/" p in
  if existsb sensitive segs then Str.join "/" (redactSegment <$> segs) else p.

Definition httpMethods : list string := ["GET"; "HEAD"; "POST"; "PUT"; "PATCH"; "DELETE"; "CONNECT"; "OPTIONS"; "TRACE"].

Definition stripMethodPrefix (pattern : string) : string :=
  match Str.cut " " pattern with
  | Some (m, rest) => if bool_decide (m ∈ httpMethods) then rest else pattern
  | None => pattern
  end.

(** ** The tenant *)

Section Tenant.
(** [decodeTenant]: the tenant_id of the JSON of a token's claims *)
Context (decodeTenant : string -> option string).

Definition tenantFromJWT (authz : string) : string :=
  if negb (Str.has_prefix authz "Bearer ") then ""
  else match Str.split "." (Str.trim_prefix authz "Bearer ") with
       | [_; payload; _] => default "" (text ← Auth.b64_decode payload; decodeTenant text)
       | _ => ""
       end.

(** [baggage]: the tenant the inbound propagation carries *)
Definition TenantFromRequest (h : Auth.Header) (baggage : string) : string :=
  let t := Auth.header "X-Meridian-Tenant" h in
  if negb (bool_decide (t = "")) then t
  else
    let t := Auth.header "X-Tenant-ID" h in
    if negb (bool_decide (t = "")) then t
    else
      let t := tenantFromJWT (Auth.header "Authorization" h) in
      if negb (bool_decide (t = "")) then t else baggage.

(** ** The span of a request *)

Record Span := mkSpan {
  startName : string;
  urlPath : string;
  tenantID : option string;
  spanName : string;
  httpRoute : string;
  statusCode : Z;
  isError : bool;
}.

(** What the response writer was told: the last code, 200 when none *)
Definition statusOf (codes : list Z) : Z := List.last codes 200.

Context {H : Type}.

(** [codes]: the codes the handler writes; the request's decoded path is what
    the span records, its escaped path what the mux routes. *)
Definition Middleware (mux : Mux.ServeMux H) (m path urlPath baggage : string) (h : Auth.Header) (codes : Mux.reply H -> list Z)
  : Mux.reply H * Span :=
  let tenant := TenantFromRequest h baggage in
  let '(handler, pat) := Mux.Handler mux m path in
  let status := statusOf (codes handler) in
  let route := if bool_decide (pat = "") then "unmatched" else stripMethodPrefix pat in
  (handler,
   mkSpan (m +:+ " " +:+ redactPath urlPath) (redactPath urlPath) (if bool_decide (tenant = "") then None else Some tenant)
     (m +:+ " " +:+ route) route status (500 <=? status)).
End Tenant.

(** ** Outbound calls *)

Record ClientSpan := mkClientSpan {
  cs_name : string;
  cs_urlPath : string;
  cs_server : string;
  cs_status : option Z;
  cs_error : bool;
}.

(** [answer]: the response's code or the transport's error *)
Definition RoundTrip (m host path : string) (answer : result string Z) : ClientSpan :=
  mkClientSpan (m +:+ " " +:+ host +:+ redactPath path) (redactPath path) host
    (match answer with Ok code => Some code | Err _ => None end)
    (match answer with Ok code => 500 <=? code | Err _ => true end).

(** ** Redaction is complete *)

Lemma split_no_sep sep s : Forall (fun w => Str.contains sep w = false) (Str.split sep s).
Proof.
  induction s as [|c s IH]; cbn [Str.split]; [by repeat constructor|]. case_bool_decide as Hc; [by constructor|].
  assert (E : bool_decide (sep = c) = false) by (apply bool_decide_eq_false_2; congruence).
  destruct IH as [|w ws Hw Hws]; (constructor; [cbn [Str.contains]; by rewrite E|done]).
Qed.

Lemma split_not_nil sep s : Str.split sep s <> [].
Proof. destruct s as [|c s]; cbn; [done|]. case_bool_decide; [done|]. by destruct (Str.split sep s). Qed.

Lemma split_app_sep sep w s : Str.contains sep w = false -> Str.split sep (w +:+ String sep s) = w :: Str.split sep s.
Proof.
  induction w as [|c w IH]; intros Hw; [rewrite str_app_nil_l; cbn [Str.split]; by rewrite bool_decide_eq_true_2|]. rewrite str_app_cons. cbn [Str.contains] in Hw.
  apply orb_false_elim in Hw as [Hc Hw]. bools. cbn [Str.split]. rewrite bool_decide_eq_false_2 by congruence. by rewrite (IH Hw).
Qed.

Lemma split_one sep w : Str.contains sep w = false -> Str.split sep w = [w].
Proof.
  induction w as [|c w IH]; intros Hw; [done|]. cbn [Str.contains] in Hw. apply orb_false_elim in Hw as [Hc Hw]. bools.
  cbn [Str.split]. rewrite bool_decide_eq_false_2 by congruence. by rewrite (IH Hw).
Qed.

Lemma split_join sep l : l <> [] -> Forall (fun w => Str.contains sep w = false) l -> Str.split sep (Str.join (String sep "") l) = l.
Proof.
  induction l as [|w [|w' l] IH]; intros Hne Hl; [done|inversion Hl; subst; by apply split_one|].
  inversion Hl as [|? ? Hw Hr]; subst. change (Str.join (String sep "") (w :: w' :: l)) with (w +:+ String sep "" +:+ Str.join (String sep "") (w' :: l)).
  rewrite str_app_one, split_app_sep, IH; done.
Qed.

Lemma redacted_insensitive seg : sensitive (redactSegment seg) = false.
Proof. unfold redactSegment. destruct (sensitive seg) eqn:E; [reflexivity|done]. Qed.

Lemma redactSegment_no_slash seg : Str.contains "/" seg = false -> Str.contains "/" (redactSegment seg) = false.
Proof. unfold redactSegment. by destruct (sensitive seg). Qed.

(** The segments of a redacted path are the path's, each replaced if it is
    sensitive. *)
Lemma redactPath_segments p : Str.split "/" (redactPath p) = redactSegment <$> Str.split "/" p.
Proof.
  unfold redactPath. destruct (existsb sensitive (Str.split "/" p)) eqn:E.
  - apply split_join; [|].
    + intros Hn%fmap_nil_inv. by apply split_not_nil in Hn.
    + apply Forall_fmap. eapply Forall_impl; [apply split_no_sep|]. intros w. apply redactSegment_no_slash.
  - symmetry. assert (Hid : forall l, existsb sensitive l = false -> redactSegment <$> l = l).
    { induction l as [|w l IH]; [done|]. cbn [existsb]. intros [Hw Hl]%orb_false_elim. cbn [fmap list_fmap]. unfold redactSegment at 1.
      rewrite Hw. by rewrite (IH Hl). }
    by apply Hid.
Qed.

(** Redaction is complete and touches nothing else: a redacted path has as
    many segments as the path, none of them has the shape of a taxpayer's or
    an invoice's number, every segment without that shape is kept, and
    redacting again changes nothing. *)
Theorem redact_sound p :
  Forall2 (fun seg seg' => sensitive seg' = false /\ (sensitive seg = false -> seg' = seg)) (Str.split "/" p) (Str.split "/" (redactPath p)) /\
  redactPath (redactPath p) = redactPath p.
Proof.
  rewrite redactPath_segments. split.
  - induction (Str.split "/" p) as [|w l IH]; cbn [fmap list_fmap]; constructor; [|exact IH]. split; [apply redacted_insensitive|].
    intros E. unfold redactSegment. by rewrite E.
  - unfold redactPath at 1. rewrite redactPath_segments. assert (E : existsb sensitive (redactSegment <$> Str.split "/" p) = false).
    { induction (Str.split "/" p) as [|w l IH]; [done|]. cbn [fmap list_fmap existsb]. by rewrite redacted_insensitive, IH. }
    by rewrite E.
Qed.

(** ** No invoice number reaches a span *)

Lemma runes_alnum s : Str.all Str.is_alnum s = true -> runes s = String.length s.
Proof.
  unfold runes. induction s as [|c s IH]; intros Hs; [done|]. cbn [Str.all] in Hs. apply andb_true_iff in Hs as [Hc Hs].
  assert (E : runeLen (String c s) = 1%nat).
  { clear -Hc. unfold runeLen. assert (Hb : byte_val c < 128).
    { unfold Str.is_alnum, Str.is_digit, Str.is_alpha, Ascii.nat_of_ascii in Hc. unfold byte_val.
      rewrite !orb_true_iff, !andb_true_iff, !Nat.leb_le in Hc. lia. }
    unfold between. rewrite !(proj2 (Z.leb_gt _ (byte_val c))) by lia. done. }
  cbn [runesFrom String.length]. rewrite E. cbn [Nat.sub]. by rewrite (IH Hs).
Qed.

Lemma contains_rev c s : Str.contains c (Str.rev s) = Str.contains c s.
Proof.
  induction s as [|d s IH]; [done|]. rewrite rev_cons, str_contains_app, IH. cbn [Str.contains]. rewrite orb_false_r. apply orb_comm.
Qed.

Lemma trim_no c s : Str.contains c s = false -> Str.contains c (Str.trim_space s) = false.
Proof.
  assert (Hl : forall s, Str.contains c s = false -> Str.contains c (Str.trim_left s) = false).
  { intros t Ht. destruct (trim_left_suffix t) as [w E]. rewrite E, str_contains_app in Ht. by apply orb_false_elim in Ht as [_ Ht]. }
  intros Hs. unfold Str.trim_space. rewrite contains_rev. apply Hl. rewrite contains_rev. by apply Hl.
Qed.

Lemma irn_sensitive n s date irn : EinvIrn.BuildIRN n s date = Ok irn -> Str.contains "/" n = false ->
  sensitive irn = true /\ Str.contains "/" irn = false.
Proof.
  unfold EinvIrn.BuildIRN. intros E Hn. apply trim_no in Hn. destruct (bool_decide (Str.trim_space n = "")) eqn:En; [done|].
  destruct (EinvIrn.ValidServiceID s) eqn:Es; [|done]. cbn [negb] in E.
  destruct (EinvIrn.DateStamp date) as [ds|] eqn:Ed; [|done]. cbn [mbind result_bind mret result_ret] in E. injection E as <-.
  destruct (EinvIrn.DateStamp_digits _ _ Ed) as [Hd Hl]. unfold EinvIrn.ValidServiceID in Es. apply andb_true_iff in Es as [Hs8 Hs]. bools.
  pose proof (EinvIrn.digits_no_hyphen _ Hd) as Hdh. pose proof (EinvIrn.all_no_hyphen _ Hs) as Hsh.
  assert (Hds : Str.contains "/" ds = false) by by eapply str_all_contains.
  assert (Hss : Str.contains "/" s = false) by by eapply str_all_contains.
  split.
  - unfold sensitive. apply orb_true_iff. right. unfold irnSegment.
    replace (Str.trim_space n +:+ "-" +:+ s +:+ "-" +:+ ds) with ((Str.trim_space n +:+ String "-" s) +:+ String "-" ds) by by rewrite <- !str_app_assoc.
    rewrite (cut_last_app "-" _ _ Hdh), (cut_last_app "-" _ _ Hsh), (runes_alnum _ Hs), Hs8, Hl, Hn, Hss, Hd.
    rewrite bool_decide_eq_false_2 by done. done.
  - rewrite !str_contains_app, Hn, Hss, Hds. done.
Qed.

(** No invoice's number reaches a span: when a request's path has the
    reference number of an invoice as a segment - any number [BuildIRN] gives,
    without a slash in the invoice number -, the path and the first name of
    the span do not have it, the final name and the route are those of a
    registered pattern or unmatched, and the status is an error exactly from
    500 on. *)
Theorem span_hides_irn {H} (decodeTenant : string -> option string) (mux : Mux.ServeMux H) m path url baggage h codes n s date irn :
  EinvIrn.BuildIRN n s date = Ok irn -> Str.contains "/" n = false ->
  let '(handler, span) := Middleware decodeTenant mux m path url baggage h codes in
  ~ In irn (Str.split "/" (urlPath span)) /\ startName span = m +:+ " " +:+ urlPath span /\
  spanName span = m +:+ " " +:+ httpRoute span /\
  (httpRoute span = "unmatched" \/ exists p h, (p, h) ∈ mux /\ httpRoute span = stripMethodPrefix (Mux.str p)) /\
  isError span = bool_decide (500 <= statusCode span).
Proof.
  intros Hb Hn. destruct (irn_sensitive _ _ _ _ Hb Hn) as [Hs _]. unfold Middleware.
  destruct (Mux.Handler mux m path) as [handler pat] eqn:Eh. cbn [urlPath startName spanName httpRoute isError statusCode].
  split; [|split; [done|split; [done|split]]].
  - rewrite redactPath_segments. intros (w & E & _)%list_elem_of_In%list_elem_of_fmap. pose proof (redacted_insensitive w) as Hw. rewrite <- E in Hw. congruence.
  - assert (Hp : pat = "" \/ exists p h, (p, h) ∈ mux /\ pat = Mux.str p).
    { unfold Mux.Handler in Eh. destruct (Mux.findHandler mux m path) as [p h0 vals|pat0 to| |] eqn:Ef; injection Eh as _ <-; [| |by left..].
      - right. exists p, h0. split; [by eapply Mux.findHandler_member|done].
      - unfold Mux.findHandler in Ef. destruct (negb _ && negb _); [|destruct (Mux.matchMethodAndPath _ _ _) as [[[] ?]|]; [done|by destruct (existsb _ _)]].
        destruct (Mux.matchMethodAndPath _ _ _) as [[[p h0] v0]|] eqn:Em; injection Ef as <- _; [|by left].
        right. exists p, h0. split; [by eapply Mux.match_member|done]. }
    case_bool_decide as Epat; [by left|]. right. destruct Hp as [|(p & h0 & Hin & ->)]; [done|]. by exists p, h0.
  - destruct (Z.leb_spec 500 (statusOf (codes handler))); symmetry; [by apply bool_decide_eq_true_2|apply bool_decide_eq_false_2; lia].
Qed.

(** ** What the middleware changes *)

(** The middleware is not the mux: it finds the handler by itself and runs
    it on a request whose path values were never set.  Every wildcard the mux
    would have bound reads as the empty string; everything else the mux
    answers is the same. *)
Theorem path_values_lost {H} (decodeTenant : string -> option string) (mux : Mux.ServeMux H) m path url baggage h codes :
  match Mux.ServeHTTP mux m path with
  | Mux.runs handler _ => exists none, (Middleware decodeTenant mux m path url baggage h codes).1 = Mux.runs handler none /\ forall name, none name = ""
  | r => (Middleware decodeTenant mux m path url baggage h codes).1 = r
  end.
Proof.
  unfold Middleware, Mux.Handler, Mux.ServeHTTP. destruct (Mux.findHandler mux m path) as [p h0 vals|pat to| |]; cbn [fst]; try done.
  by exists (fun _ => "").
Qed.

(** ** Examples *)

Definition demo_mux : Mux.ServeMux string :=
  default [] (Mux.register [("GET /v1/invoices/{id}", "get"); ("POST /v1/invoices", "create"); ("POST /v1/invoices/nrs", "nrs")]).

Definition no_token (_ : string) : option string := None.

Example route_found : Mux.ServeHTTP demo_mux "POST" "/v1/invoices/nrs" = Mux.runs "nrs" (Mux.valueOf [Mux.lit "v1"; Mux.lit "invoices"; Mux.lit "nrs"] []).
Proof. vm_compute. reflexivity. Qed.

Example route_value :
  match Mux.ServeHTTP demo_mux "GET" "/v1/invoices/INV%2F7" with Mux.runs h v => (h, v "id") = ("get", "INV/7") | _ => False end.
Proof. vm_compute. reflexivity. Qed.

Example route_405 : Mux.ServeHTTP demo_mux "DELETE" "/v1/invoices/1" = Mux.code405.
Proof. vm_compute. reflexivity. Qed.

Example route_cleaned : Mux.ServeHTTP demo_mux "GET" "/v1//invoices/./1" = Mux.redirected "/v1/invoices/1".
Proof. vm_compute. reflexivity. Qed.

(** An invoice number that ends in a slash escapes the redaction: what is left
    of the reference number has no part before its first hyphen. *)
Example slash_escapes_redaction :
  EinvIrn.BuildIRN "2026/" "BRANCH01" "2026-01-27" = Ok "2026/-BRANCH01-20260127" /\
  redactPath "/v1/invoices/2026/-BRANCH01-20260127" = "/v1/invoices/2026/-BRANCH01-20260127".
Proof. split; vm_compute; reflexivity. Qed.

Lemma span_hides_irn_witness :
  let '(handler, span) := Middleware no_token demo_mux "GET" "/v1/invoices/94ND90NR-BRANCH01-20260127" "/v1/invoices/94ND90NR-BRANCH01-20260127" "" ∅
                            (fun _ => [404]) in
  ~ In "94ND90NR-BRANCH01-20260127" (Str.split "/" (urlPath span)) /\ startName span = "GET" +:+ " " +:+ urlPath span /\
  spanName span = "GET" +:+ " " +:+ httpRoute span /\
  (httpRoute span = "unmatched" \/ exists p h, (p, h) ∈ demo_mux /\ httpRoute span = stripMethodPrefix (Mux.str p)) /\
  isError span = bool_decide (500 <= statusCode span).
Proof.
  apply (span_hides_irn no_token demo_mux "GET" "/v1/invoices/94ND90NR-BRANCH01-20260127" "/v1/invoices/94ND90NR-BRANCH01-20260127" "" ∅
           (fun _ => [404]) "94ND90NR" "BRANCH01" "2026-01-27"); reflexivity.
Defined.
