(* ===== verification/EinvWebhooks.v ===== *)
(** * einvoicing: stakeholder webhooks (services/einvoicing/webhooks.go and the
    two handlers of nrs_handlers.go)

    The registry of endpoints with the tenant that owns each business, the
    policy on the addresses of callbacks, and the delivery with its retries.
    The environment variables, the answers of the parser of URLs and of the
    resolver, and the outcome of each post are arguments; the texts of delivery
    errors are left out. *)

From S2P Require Import Prelude StrFacts Crypto GoJson EinvApiKeys.
From S2P Require Auth.

Record WebhookEndpoint := mkEndpoint { w_URL : string; Secret : string; w_CreatedAt : Z }.

Record WebhookDelivery := mkDelivery {
  d_URL : string;
  d_Event : string;
  d_Attempts : Z;
  d_Status : string;
  d_BusinessID : string;
}.

Record WebhookRegistry := mkRegistry {
  byBusiness : gmap string (list WebhookEndpoint);
  owners : gmap string string;
  deliveries : list WebhookDelivery;
}.

Definition NewWebhookRegistry : WebhookRegistry := mkRegistry ∅ ∅ [].

Definition Owner (business : string) (r : WebhookRegistry) : string := default "" (owners r !! business).

(** [Endpoints] *)
Definition endpointsOf (business : string) (r : WebhookRegistry) : list WebhookEndpoint := default [] (byBusiness r !! business).

(** ** Addresses *)

(** An address is its 4 or 16 bytes. *)
Abbreviation IP := (list Z).

(** [To4]: an IPv4 address, also when it is written in 16 bytes *)
Definition to4 (ip : IP) : option IP :=
  if Nat.eqb (length ip) 4 then Some ip
  else if Nat.eqb (length ip) 16 && bool_decide (take 12 ip = repeat 0 10 ++ [255; 255]) then Some (drop 12 ip)
  else None.

Definition IsLoopback (ip : IP) : bool :=
  match to4 ip with
  | Some (a :: _) => a =? 127
  | _ => bool_decide (ip = [0; 0; 0; 0; 0; 0; 0; 0; 0; 0; 0; 0; 0; 0; 0; 1])
  end.

Definition IsPrivate (ip : IP) : bool :=
  match to4 ip with
  | Some (a :: b :: _) => (a =? 10) || ((a =? 172) && (Z.land b 240 =? 16)) || ((a =? 192) && (b =? 168))
  | _ => (Z.of_nat (length ip) =? 16) && match ip with a :: _ => Z.land a 254 =? 252 | [] => false end
  end.

Definition IsLinkLocalUnicast (ip : IP) : bool :=
  match to4 ip with
  | Some (a :: b :: _) => (a =? 169) && (b =? 254)
  | _ => (Z.of_nat (length ip) =? 16) && match ip with a :: b :: _ => (a =? 254) && (Z.land b 192 =? 128) | _ => false end
  end.

Definition IsLinkLocalMulticast (ip : IP) : bool :=
  match to4 ip with
  | Some (a :: b :: c :: _) => (a =? 224) && (b =? 0) && (c =? 0)
  | _ => (Z.of_nat (length ip) =? 16) && match ip with a :: b :: _ => (a =? 255) && (Z.land b 15 =? 2) | _ => false end
  end.

Definition IsUnspecified (ip : IP) : bool :=
  bool_decide (ip = [0; 0; 0; 0]) || bool_decide (ip = repeat 0 16) ||
  bool_decide (ip = repeat 0 10 ++ [255; 255; 0; 0; 0; 0]).

Definition isPrivateEgressIP (ip : IP) : bool :=
  IsLoopback ip || IsPrivate ip || IsLinkLocalUnicast ip || IsLinkLocalMulticast ip || IsUnspecified ip.

(** ** The policy on callbacks *)

Record WebhookEnv := mkWebhookEnv { ENV : string; APP_ENV : string; PROFILE : string; ALLOWLIST : string }.

(** [strings.Contains] *)
Fixpoint has_text (p s : string) : bool :=
  String.prefix p s || match s with String _ s' => has_text p s' | EmptyString => false end.

Definition prodEnv (env : WebhookEnv) : bool := has_text "prod" (Str.to_lower (ENV env +:+ APP_ENV env)).
Definition devProfile (env : WebhookEnv) : bool :=
  negb (prodEnv env) && negb (bool_decide (Str.to_lower (PROFILE env) = "prod")).

Definition allowedHost (allow host : string) : bool :=
  existsb (fun suffix =>
    let suffix := Str.to_lower (Str.trim_space suffix) in
    negb (bool_decide (suffix = "")) && (bool_decide (host = suffix) || Str.has_suffix host ("." +:+ suffix)))
    (Str.split "," allow).

Inductive webhookErr :=
| errBusiness | errTenant | errURL | errInvalidURL | errScheme | errHTTP | errAllowlist | errResolve | errPrivate
| errSecret | errOwned | errDuplicate.
#[export] Instance webhookErr_eq_dec : EqDecision webhookErr.
Proof. solve_decision. Defined.

(** [parsed]: the scheme and the host name, [None] when the URL does not parse;
    [resolve]: the addresses of a host, [None] when there is no answer *)
Definition validateWebhookURL (env : WebhookEnv) (parsed : option (string * string)) (resolve : string -> option (list IP))
  : result webhookErr unit :=
  match parsed with
  | None => Err errInvalidURL
  | Some (scheme, hostname) =>
      if bool_decide (hostname = "") then Err errInvalidURL
      else
        let scheme := Str.to_lower scheme in
        if negb (bool_decide (scheme = "https")) && negb (bool_decide (scheme = "http")) then Err errScheme
        else if bool_decide (scheme = "http") && negb (devProfile env) then Err errHTTP
        else
          let host := Str.to_lower hostname in
          if negb (bool_decide (ALLOWLIST env = "")) && negb (allowedHost (ALLOWLIST env) host) then Err errAllowlist
          else if devProfile env then Ok tt
          else match resolve host with
               | None => Err errResolve
               | Some ips => if existsb isPrivateEgressIP ips then Err errPrivate else Ok tt
               end
  end.

Section Registry.
Context `{Crypto}.

(** The secret of an endpoint registered without one *)
Definition devSecret (business url : string) : string :=
  hex (Str.take 8 (sha256 ("meridian-dev-webhook|" +:+ business +:+ "|" +:+ url))).

Definition Register (env : WebhookEnv) (parsed : string -> option (string * string)) (resolve : string -> option (list IP))
    (business tenant url secret : string) (now : Z) (r : WebhookRegistry) : WebhookRegistry * option webhookErr :=
  if bool_decide (Str.trim_space business = "") then (r, Some errBusiness)
  else if bool_decide (Str.trim_space tenant = "") then (r, Some errTenant)
  else if bool_decide (Str.trim_space url = "") then (r, Some errURL)
  else match validateWebhookURL env (parsed url) resolve with
       | Err e => (r, Some e)
       | Ok _ =>
           if prodEnv env && (String.length secret <? 16)%nat then (r, Some errSecret)
           else
             let secret := if bool_decide (secret = "") then devSecret business url else secret in
             if match owners r !! business with Some o => negb (bool_decide (o = tenant)) | None => false end
             then (r, Some errOwned)
             else if existsb (fun ep => bool_decide (w_URL ep = url)) (endpointsOf business r) then (r, Some errDuplicate)
             else (mkRegistry (<[business := endpointsOf business r ++ [mkEndpoint url secret now]]> (byBusiness r))
                     (<[business := tenant]> (owners r)) (deliveries r), None)
       end.

Definition DeliveriesFor (tenant : string) (r : WebhookRegistry) : list WebhookDelivery :=
  List.filter (fun d => negb (bool_decide (d_BusinessID d = "")) && bool_decide (Owner (d_BusinessID d) r = tenant))
    (deliveries r).

Definition SignWebhook (secret body : string) : string := hex (hmac256 secret body).
Definition VerifyWebhookSignature (secret body signature : string) : bool := bool_decide (SignWebhook secret body = signature).

(** ** Delivery *)

(** [post]: whether the [n]-th attempt at a URL with this body and signature
    is accepted; [cancelled]: whether the context is done after it *)
Record sink := mkSink { post : string -> nat -> string -> string -> bool; cancelled : string -> nat -> bool }.

(** From attempt [i] on, [rest] attempts remaining: the number of the last
    attempt and whether it was accepted *)
Fixpoint attempts (s : sink) (url body sig : string) (i rest : nat) : nat * bool :=
  match rest with
  | O => ((i - 1)%nat, false)
  | S rest =>
      if post s url i body sig then (i, true)
      else if cancelled s url i then (i, false)
      else attempts s url body sig (S i) rest
  end.

Definition deliver (s : sink) (business event body : string) (ep : WebhookEndpoint) : WebhookDelivery :=
  let '(n, ok) := attempts s (w_URL ep) body (SignWebhook (Secret ep) body) 1 3 in
  mkDelivery (w_URL ep) event (Z.of_nat n) (if ok then "delivered" else "failed") business.

(** [Notify], on a body that encodes.  The result says whether an error is
    returned. *)
Definition Notify (s : sink) (business event body : string) (r : WebhookRegistry) : WebhookRegistry * bool :=
  let eps := endpointsOf business r in
  let ds := map (deliver s business event body) eps in
  (mkRegistry (byBusiness r) (owners r) (deliveries r ++ ds),
   match eps with [] => true | _ => existsb (fun d => bool_decide (d_Status d = "delivered")) ds end).
End Registry.

(** ** The policy *)

Definition ipNumber (a b c d : Z) : Z := ((a * 256 + b) * 256 + c) * 256 + d.
Definition inCIDR (n base len : Z) : Prop := n / 2 ^ (32 - len) = base / 2 ^ (32 - len).

(** The IPv4 blocks no callback may reach in production *)
Definition reserved (n : Z) : Prop :=
  inCIDR n (ipNumber 127 0 0 0) 8 \/ inCIDR n (ipNumber 10 0 0 0) 8 \/ inCIDR n (ipNumber 172 16 0 0) 12 \/
  inCIDR n (ipNumber 192 168 0 0) 16 \/ inCIDR n (ipNumber 169 254 0 0) 16 \/ inCIDR n (ipNumber 224 0 0 0) 24 \/ n = 0.

Definition isByte (z : Z) : Prop := 0 <= z < 256.

Lemma land_240 b : isByte b -> Z.land b 240 = 16 * (b / 16).
Proof.
  intros Hb. rewrite (Z.mul_comm 16), <- (Z.shiftl_mul_pow2 _ 4), <- (Z.shiftr_div_pow2 _ 4) by lia.
  apply Z.bits_inj'. intros n Hn. rewrite Z.land_spec, Z.shiftl_spec by done.
  destruct (Z.lt_ge_cases n 4) as [H4|H4].
  - rewrite (Z.testbit_neg_r _ (n - 4)) by lia.
    assert (n = 0 \/ n = 1 \/ n = 2 \/ n = 3) as [->|[->|[->| ->]]] by lia; apply andb_false_r.
  - rewrite Z.shiftr_spec by lia. replace (n - 4 + 4) with n by lia.
    destruct (Z.lt_ge_cases n 8) as [H8|H8].
    + assert (n = 4 \/ n = 5 \/ n = 6 \/ n = 7) as [->|[->|[->| ->]]] by lia; apply andb_true_r.
    + replace (Z.testbit b n) with false; [done|]. symmetry. apply Z.bits_above_log2; [by destruct Hb|].
      destruct (decide (b = 0)) as [->|]; [simpl; lia|]. apply Z.log2_lt_pow2; [destruct Hb; lia|].
      destruct Hb. apply (Z.lt_le_trans _ (2 ^ 8)); [lia|]. apply Z.pow_le_mono_r; lia.
Qed.

Lemma blocks a b c d :
  isByte a -> isByte b -> isByte c -> isByte d ->
  ipNumber a b c d / 16777216 = a /\ ipNumber a b c d / 1048576 = a * 16 + b / 16 /\
  ipNumber a b c d / 65536 = a * 256 + b /\ ipNumber a b c d / 256 = (a * 256 + b) * 256 + c /\
  (ipNumber a b c d = 0 <-> a = 0 /\ b = 0 /\ c = 0 /\ d = 0).
Proof.
  unfold isByte, ipNumber. intros Ha Hb Hc Hd. pose proof (Z.div_mod b 16 ltac:(lia)). pose proof (Z.mod_pos_bound b 16 ltac:(lia)).
  split; [|split; [|split; [|split; [|lia]]]]; symmetry.
  - apply (Z.div_unique _ _ _ ((b * 256 + c) * 256 + d)); lia.
  - apply (Z.div_unique _ _ _ ((b mod 16 * 256 + c) * 256 + d)); lia.
  - apply (Z.div_unique _ _ _ (c * 256 + d)); lia.
  - apply (Z.div_unique _ _ _ d); lia.
Qed.

Lemma reserved_private a b c d :
  isByte a -> isByte b -> isByte c -> isByte d ->
  (isPrivateEgressIP [a; b; c; d] = true <-> reserved (ipNumber a b c d)).
Proof.
  intros Ha Hb Hc Hd.
  unfold isPrivateEgressIP, IsLoopback, IsPrivate, IsLinkLocalUnicast, IsLinkLocalMulticast, IsUnspecified.
  change (to4 [a; b; c; d]) with (Some [a; b; c; d]). cbv beta iota.
  rewrite !orb_true_iff, !andb_true_iff, !Z.eqb_eq, !bool_decide_eq_true, land_240 by done.
  unfold reserved, inCIDR.
  change (2 ^ (32 - 8)) with 16777216. change (2 ^ (32 - 12)) with 1048576.
  change (2 ^ (32 - 16)) with 65536. change (2 ^ (32 - 24)) with 256.
  assert (Hz : ([a; b; c; d] = [0; 0; 0; 0] \/ [a; b; c; d] = repeat 0 16) \/ [a; b; c; d] = repeat 0 10 ++ [255; 255; 0; 0; 0; 0]
          <-> a = 0 /\ b = 0 /\ c = 0 /\ d = 0).
  { split; [by intros [[[= -> -> -> ->]|?]|?]|]. intros (-> & -> & -> & ->). left. by left. }
  rewrite Hz. clear Hz. fold (ipNumber a b c d). destruct (blocks a b c d Ha Hb Hc Hd) as (-> & -> & -> & -> & ->).
  change (ipNumber 127 0 0 0 / 16777216) with 127. change (ipNumber 10 0 0 0 / 16777216) with 10.
  change (ipNumber 172 16 0 0 / 1048576) with 2753. change (ipNumber 192 168 0 0 / 65536) with 49320.
  change (ipNumber 169 254 0 0 / 65536) with 43518. change (ipNumber 224 0 0 0 / 256) with 14680064.
  assert (Hq : 0 <= b / 16 < 16) by (unfold isByte in Hb; split; [apply Z.div_pos|apply Z.div_lt_upper_bound]; lia).
  generalize dependent (b / 16). intros q Hq. unfold isByte in *. lia.
Qed.

Section Properties.
Context `{Crypto}.

(** In production a callback is registered only over https, on a host of
    the allowlist when there is one, and when none of the addresses the host
    resolves to is loopback, private, link-local, local multicast or zero; and
    the business belongs to the caller's tenant. *)
Theorem webhook_egress_guarded env parsed resolve business tenant url secret now r :
  (Register env parsed resolve business tenant url secret now r).2 = None -> devProfile env = false ->
  exists scheme host ips, parsed url = Some (scheme, host) /\ Str.to_lower scheme = "https" /\
    (ALLOWLIST env = "" \/ allowedHost (ALLOWLIST env) (Str.to_lower host) = true) /\
    resolve (Str.to_lower host) = Some ips /\
    (forall a b c d, isByte a -> isByte b -> isByte c -> isByte d -> [a; b; c; d] ∈ ips -> ~ reserved (ipNumber a b c d)) /\
    (owners r !! business = None \/ owners r !! business = Some tenant) /\
    owners (Register env parsed resolve business tenant url secret now r).1 !! business = Some tenant.
Proof.
  intros Hreg Hdev. unfold Register in *.
  destruct (bool_decide (Str.trim_space business = "")); [done|]. destruct (bool_decide (Str.trim_space tenant = "")); [done|].
  destruct (bool_decide (Str.trim_space url = "")); [done|].
  destruct (validateWebhookURL env (parsed url) resolve) as [[]|e] eqn:Hv; [|done].
  destruct (_ && _); [done|]. destruct (match owners r !! business with Some _ => _ | None => _ end) eqn:Eo; [done|].
  destruct (existsb _ _); [done|]. clear Hreg.
  unfold validateWebhookURL in Hv. rewrite Hdev in Hv. cbn [negb andb] in Hv.
  destruct (parsed url) as [[scheme host]|]; [|done]. destruct (bool_decide (host = "")); [done|].
  destruct (_ && negb (bool_decide (_ = "http"))) eqn:Es; [done|]. rewrite andb_true_r in Hv.
  destruct (bool_decide (Str.to_lower scheme = "http")) eqn:Eh; [done|].
  destruct (_ && negb (allowedHost _ _)) eqn:Ea; [done|].
  destruct (resolve (Str.to_lower host)) as [ips|] eqn:Er; [|done]. destruct (existsb isPrivateEgressIP ips) eqn:Ep; [done|].
  exists scheme, host, ips. split; [done|]. split.
  { rewrite andb_true_r in Es. by bools. }
  split. { destruct (bool_decide (ALLOWLIST env = "")) eqn:El; [left; by bools|right]. cbn [negb andb] in Ea. by apply negb_false_iff in Ea. }
  split; [done|]. split; [|split].
  - intros a b c d Ha Hb Hc Hd Hin Hres. apply (reserved_private a b c d Ha Hb Hc Hd) in Hres.
    apply not_true_iff_false in Ep. apply Ep. apply existsb_exists. exists [a; b; c; d]. split; [by apply list_elem_of_In|done].
  - destruct (owners r !! business) as [o|]; [right|by left]. bools. by subst.
  - cbn. apply lookup_insert_eq.
Qed.

(** A registration leaves every other business alone, and the owner of a
    bound one. *)
Lemma Register_others env parsed resolve business tenant url secret now r b :
  b <> business -> let r' := (Register env parsed resolve business tenant url secret now r).1 in
  owners r' !! b = owners r !! b /\ endpointsOf b r' = endpointsOf b r.
Proof.
  intros Hne. cbn zeta. unfold Register, endpointsOf. cases; try done; cbn; by rewrite !lookup_insert_ne.
Qed.

Lemma Register_foreign env parsed resolve business tenant url secret now r o :
  owners r !! business = Some o -> o <> tenant ->
  (Register env parsed resolve business tenant url secret now r).1 = r.
Proof.
  intros Ho Hne. unfold Register. rewrite Ho, (bool_decide_eq_false_2 (o = tenant)) by done. cbn [negb]. repeat (case_match; try done).
Qed.

(** ** The attempts *)

(** Attempt [n] of three is the last: everything before was refused and the
    context was alive. *)
Definition stopsAt (s : sink) (url body sig : string) (i n : nat) : Prop :=
  forall j, (i <= j < n)%nat -> post s url j body sig = false /\ cancelled s url j = false.

Lemma attempts_spec s url body sig i rest n ok :
  attempts s url body sig i rest = (n, ok) ->
  stopsAt s url body sig i n /\
  (ok = true -> (i <= n < i + rest)%nat /\ post s url n body sig = true) /\
  (ok = false -> (0 < rest)%nat -> (i <= n < i + rest)%nat /\ post s url n body sig = false /\
     (cancelled s url n = true \/ n = (i + rest - 1)%nat)).
Proof.
  revert i. induction rest as [|rest IH]; intros i; cbn.
  { intros [= <- <-]. split; [intros j Hj; lia|]. split; [done|lia]. }
  destruct (post s url i body sig) eqn:Ep.
  { intros [= <- <-]. split; [intros j Hj; lia|]. split; [intros _; split; [lia|done]|done]. }
  destruct (cancelled s url i) eqn:Ec.
  { intros [= <- <-]. split; [intros j Hj; lia|]. split; [done|]. intros _ _. split; [lia|]. by split; [|left]. }
  destruct rest as [|rest].
  { cbn. intros [= <- <-]. rewrite Nat.sub_0_r. split; [intros j Hj; lia|]. split; [done|]. intros _ _. split; [lia|]. split; [done|right; lia]. }
  intros Ha. destruct (IH (S i) Ha) as (Hs & Ht & Hf). split; [|split].
  - intros j Hj. destruct (decide (j = i)) as [->|]; [done|]. apply Hs. lia.
  - intros Hok. destruct (Ht Hok). split; [lia|done].
  - intros Hok _. destruct (Hf Hok ltac:(lia)) as (? & ? & Hl). split; [lia|]. split; [done|]. destruct Hl; [by left|right; lia].
Qed.

(** Every registered endpoint gets one delivery of at most three attempts
    under the signature of its own secret, delivered when an attempt is
    accepted before the context ends; the notification fails only when there
    are endpoints and all of them failed. *)
Theorem notify_exact s business event body r :
  let '(r', ok) := Notify s business event body r in
  (ok = true <-> endpointsOf business r = [] \/
     exists ep n, ep ∈ endpointsOf business r /\ (1 <= n <= 3)%nat /\
       stopsAt s (w_URL ep) body (SignWebhook (Secret ep) body) 1 n /\
       post s (w_URL ep) n body (SignWebhook (Secret ep) body) = true) /\
  byBusiness r' = byBusiness r /\ owners r' = owners r /\
  exists ds, deliveries r' = deliveries r ++ ds /\ d_URL <$> ds = w_URL <$> endpointsOf business r /\
    Forall (fun d => 1 <= d_Attempts d <= 3 /\ d_BusinessID d = business /\ d_Event d = event) ds.
Proof.
  unfold Notify. split; [|split; [done|split; [done|]]].
  - assert (Hd : forall ep, bool_decide (d_Status (deliver s business event body ep) = "delivered") = true <->
      exists n, (1 <= n <= 3)%nat /\ stopsAt s (w_URL ep) body (SignWebhook (Secret ep) body) 1 n /\
        post s (w_URL ep) n body (SignWebhook (Secret ep) body) = true).
    { intros ep. unfold deliver. destruct (attempts _ _ _ _ 1 3) as [n ok] eqn:E.
      destruct (attempts_spec _ _ _ _ _ _ _ _ E) as (Hs & Ht & Hf). cbn [d_Status]. destruct ok.
      - split; [|done]. intros _. destruct (Ht eq_refl). exists n. split; [lia|done].
      - split; [done|]. intros (m & Hm & Hsm & Hpm). exfalso. destruct (Hf eq_refl ltac:(lia)) as (Hn & Hp & Hc).
        destruct (Nat.lt_trichotomy m n) as [?|[->|?]].
        + destruct (Hs m ltac:(lia)). congruence.
        + congruence.
        + destruct (Hsm n ltac:(lia)) as [_ ?]. destruct Hc as [?| ->]; [congruence|lia]. }
    destruct (endpointsOf business r) as [|ep eps]; [naive_solver|].
    rewrite existsb_exists. split.
    + intros (d & Hin & Hst). apply in_map_iff in Hin as (x & <- & Hx). right. apply Hd in Hst as (n & ?).
      exists x, n. by rewrite list_elem_of_In.
    + intros [?|(x & n & Hx & Hn)]; [done|]. exists (deliver s business event body x).
      split; [apply in_map, list_elem_of_In, Hx|]. apply Hd. by exists n.
  - exists (map (deliver s business event body) (endpointsOf business r)). split; [done|]. split.
    + induction (endpointsOf business r) as [|ep eps IH]; [done|]. cbn. rewrite IH. f_equal. unfold deliver. by destruct (attempts _ _ _ _ _ _).
    + apply Forall_forall. intros d Hd. apply list_elem_of_In, in_map_iff in Hd as (ep & <- & _). unfold deliver.
      destruct (attempts _ _ _ _ 1 3) as [n ok] eqn:E. destruct (attempts_spec _ _ _ _ _ _ _ _ E) as (_ & Ht & Hf).
      cbn. split; [|done]. destruct ok; [destruct (Ht eq_refl); lia|destruct (Hf eq_refl ltac:(lia)) as (? & _); lia].
Qed.
End Properties.

(** ** Witnesses *)

#[local] Existing Instance Toy.crypto.

Definition demo_prod : WebhookEnv := mkWebhookEnv "" "" "prod" "example.com".
Definition demo_parse (url : string) : option (string * string) := Some ("https", "Hooks.Example.com").
Definition demo_resolve (host : string) : option (list IP) := Some [[93; 184; 216; 34]].

(** Production by [PROFILE] alone: the secret of the registration may be empty,
    and is then made of public text. *)
Example weak_secret_in_prod :
  devProfile demo_prod = false /\
  Register demo_prod demo_parse demo_resolve "biz" "t1" "https://hooks.example.com/x" "" 0 NewWebhookRegistry =
    (mkRegistry {[ "biz" := [mkEndpoint "https://hooks.example.com/x" (devSecret "biz" "https://hooks.example.com/x") 0] ]}
       {[ "biz" := "t1" ]} [], None).
Proof. split; vm_compute; reflexivity. Qed.

Lemma webhook_egress_guarded_witness :
  exists scheme host ips, demo_parse "https://hooks.example.com/x" = Some (scheme, host) /\ Str.to_lower scheme = "https" /\
    (ALLOWLIST demo_prod = "" \/ allowedHost (ALLOWLIST demo_prod) (Str.to_lower host) = true) /\
    demo_resolve (Str.to_lower host) = Some ips /\
    (forall a b c d, isByte a -> isByte b -> isByte c -> isByte d -> [a; b; c; d] ∈ ips -> ~ reserved (ipNumber a b c d)) /\
    (owners NewWebhookRegistry !! "biz" = None \/ owners NewWebhookRegistry !! "biz" = Some "t1") /\
    owners (Register demo_prod demo_parse demo_resolve "biz" "t1" "https://hooks.example.com/x" "0123456789abcdef" 0
              NewWebhookRegistry).1 !! "biz" = Some "t1".
Proof.
  apply (webhook_egress_guarded demo_prod demo_parse demo_resolve "biz" "t1" "https://hooks.example.com/x" "0123456789abcdef" 0
           NewWebhookRegistry); vm_compute; reflexivity.
Defined.
