(* ===== verification/EinvWebhookSink.v ===== *)
(** * einvoicing: the sinks of the webhooks (services/einvoicing/webhooks.go)

    The post of a delivery over HTTP as the client of the standard library
    makes it, redirects included, and the sink of tests.  The answers of the
    other side are an argument, and so is the resolution of a [Location]. *)

From S2P Require Import Prelude StrFacts Crypto EinvWebhooks.

(** ** The HTTP client *)

Record webRequest := mkRequest {
  rq_method : string;
  rq_url : string;
  rq_body : option string;
  rq_event : string;
  rq_signature : string;
}.

(** [location]: the header [Location], empty when there is none *)
Inductive webReply := noReply | reply (status : Z) (location : string).

(** What other programs answer, and the parser of URLs *)
Record web := mkWeb {
  answer : webRequest -> webReply;
  parses : string -> bool;
  resolveRef : string -> string -> option string;
}.

(** The client follows a redirect with a new request: 307 and 308 repeat the
    method and the body, the others become a GET without one.  The headers the
    service set go along. *)
Definition redirects (status : Z) : bool :=
  (status =? 301) || (status =? 302) || (status =? 303) || (status =? 307) || (status =? 308).

Definition redirected (status : Z) (url : string) (rq : webRequest) : webRequest :=
  if (status =? 307) || (status =? 308) then mkRequest (rq_method rq) url (rq_body rq) (rq_event rq) (rq_signature rq)
  else mkRequest "GET" url None (rq_event rq) (rq_signature rq).

(** [Client.Do] with [n] requests left: the status of the last answer, if
    there is one, and the requests sent *)
Fixpoint follow (w : web) (n : nat) (rq : webRequest) : option Z * list webRequest :=
  match n with
  | O => (None, [])
  | S n =>
      match answer w rq with
      | noReply => (None, [rq])
      | reply status location =>
          if redirects status && negb (bool_decide (location = "")) then
            match resolveRef w (rq_url rq) location with
            | None => (None, [rq])
            | Some url => let '(st, sent) := follow w n (redirected status url rq) in (st, rq :: sent)
            end
          else (Some status, [rq])
      end
  end.

(** ** The sinks *)

(** [HTTPWebhookSink.Post]: whether the delivery succeeded, and the requests
    sent.  The client stops after ten requests. *)
Definition HTTPPost (w : web) (url body event signature : string) : bool * list webRequest :=
  if negb (parses w url) then (false, [])
  else
    let '(st, sent) := follow w 10 (mkRequest "POST" url (Some body) event signature) in
    (match st with Some status => negb (300 <=? status) | None => false end, sent).

(** The sink of a notification: the web at the [n]-th attempt *)
Definition HTTPWebhookSink (w : nat -> web) (event : string) (cancelled : string -> nat -> bool) : sink :=
  mkSink (fun url n body sig => (HTTPPost (w n) url body event sig).1) cancelled.

(** [InprocWebhookSink]: [Fail] is whether it is set *)
Record InprocWebhookSink := mkInproc {
  Bodies : list string;
  Headers : list (gmap string string);
  URLs : list string;
  Fail : bool;
}.

Definition InprocPost (url body : string) (headers : gmap string string) (s : InprocWebhookSink) : InprocWebhookSink * bool :=
  if Fail s then (s, false)
  else (mkInproc (Bodies s ++ [body]) (Headers s ++ [headers]) (URLs s ++ [url]) (Fail s), true).

(** ** Auxiliary lemmas *)

Section Following.
Context (w : web).

(** A request of the chain is one with the headers of the first. *)
Definition sameHeaders (a b : webRequest) : Prop := rq_event a = rq_event b /\ rq_signature a = rq_signature b.

Lemma redirected_headers status url rq : sameHeaders (redirected status url rq) rq.
Proof. unfold redirected. by destruct (_ || _). Qed.

Lemma follow_sent n rq :
  (length (follow w n rq).2 <= n)%nat /\ Forall (fun q => sameHeaders q rq) (follow w n rq).2.
Proof.
  revert rq. induction n as [|n IH]; intros rq; [by split|]. cbn [follow].
  assert (H1 : (length [rq] <= S n)%nat /\ Forall (fun q => sameHeaders q rq) [rq])
    by (split; [simpl; lia | by repeat constructor]).
  destruct (answer w rq) as [|status location]; [exact H1|]. destruct (_ && _); [|exact H1].
  destruct (resolveRef w (rq_url rq) location) as [url|]; [|exact H1].
  specialize (IH (redirected status url rq)). destruct (follow w n _) as [st sent]. cbn [snd] in *.
  destruct IH as [Hl Hf]. split; [simpl; lia|]. constructor; [done|].
  eapply Forall_impl; [exact Hf|]. intros q [He Hs]. destruct (redirected_headers status url rq) as [He' Hs'].
  split; congruence.
Qed.

Lemma follow_direct n rq status location : answer w rq = reply status location ->
  redirects status && negb (bool_decide (location = "")) = false -> follow w (S n) rq = (Some status, [rq]).
Proof. intros Ha Hr. cbn [follow]. by rewrite Ha, Hr. Qed.

Lemma follow_redirect n rq status location url : answer w rq = reply status location ->
  redirects status && negb (bool_decide (location = "")) = true -> resolveRef w (rq_url rq) location = Some url ->
  follow w (S n) rq = ((follow w n (redirected status url rq)).1, rq :: (follow w n (redirected status url rq)).2).
Proof. intros Ha Hr Hu. cbn [follow]. rewrite Ha, Hr, Hu. by destruct (follow w n _). Qed.
End Following.

(** ** Properties *)

Section SinkProperties.
Context `{Crypto}.

(** Whatever the other side answers, a post sends at most ten requests, all
    with the event and the signature of the delivery; when it answers without
    a redirect there is one, the POST of the body to the address registered,
    and the delivery succeeds exactly for a status below 300. *)
Theorem post_requests (w : web) (url body event signature : string) :
  let rq := mkRequest "POST" url (Some body) event signature in
  let '(ok, sent) := HTTPPost w url body event signature in
  (length sent <= 10)%nat /\ Forall (fun q => rq_event q = event /\ rq_signature q = signature) sent /\
  (parses w url = true -> forall status location, answer w rq = reply status location ->
     redirects status && negb (bool_decide (location = "")) = false -> sent = [rq] /\ (ok = true <-> status < 300)).
Proof.
  intros rq. unfold HTTPPost. destruct (parses w url); cbn [negb]; [|split; [simpl; lia|by split]].
  fold rq. destruct (follow_sent w 10 rq) as [Hl Hf].
  assert (Hd : forall status location, answer w rq = reply status location ->
    redirects status && negb (bool_decide (location = "")) = false -> follow w 10 rq = (Some status, [rq]))
    by (intros status location; apply follow_direct).
  destruct (follow w 10 rq) as [st sent]. cbn [snd] in *. split; [exact Hl|]. split; [exact Hf|].
  intros _ status location Ha Hr. specialize (Hd status location Ha Hr). injection Hd as -> ->. split; [done|].
  rewrite negb_true_iff, Z.leb_gt. done.
Qed.

(** The address of a host that resolves to a private one is refused outside
    development, whoever asks. *)
Lemma private_refused env parsed resolve business tenant url secret now r scheme host ips :
  devProfile env = false -> parsed url = Some (scheme, host) -> resolve (Str.to_lower host) = Some ips ->
  existsb isPrivateEgressIP ips = true ->
  (Register env parsed resolve business tenant url secret now r).2 <> None.
Proof.
  intros Hdev Hp Hr Hips. unfold Register, validateWebhookURL. rewrite Hp, Hdev, Hr, Hips.
  by repeat (case_match; try done).
Qed.

(** A first registration *)
Lemma registered_first env parsed resolve business tenant url secret now r :
  (Register env parsed resolve business tenant url secret now r).2 = None -> endpointsOf business r = [] ->
  let r' := (Register env parsed resolve business tenant url secret now r).1 in
  endpointsOf business r' = [mkEndpoint url (if bool_decide (secret = "") then devSecret business url else secret) now] /\
  deliveries r' = deliveries r.
Proof.
  intros Hreg Hnone. cbn zeta. unfold Register in *. repeat (case_match; try discriminate Hreg); cbn [fst];
    unfold endpointsOf at 1; cbn [byBusiness]; rewrite lookup_insert_eq; cbn [default]; rewrite Hnone; done.
Qed.

(** The guard on addresses ends at the registration: in production an
    endpoint that passed it can answer a delivery with a redirect, and the
    service posts the body with its signature to the address it names - a
    private one, which no caller can register - and records what is answered
    there. *)
Theorem redirect_escapes_guard env parsed resolve business tenant url secret now r
    (w : web) (event body inner scheme host location : string) (ips : list (list Z)) (code status : Z) :
  (Register env parsed resolve business tenant url secret now r).2 = None -> devProfile env = false ->
  endpointsOf business r = [] -> parses w url = true ->
  parsed inner = Some (scheme, host) -> resolve (Str.to_lower host) = Some ips -> existsb isPrivateEgressIP ips = true ->
  code = 307 \/ code = 308 -> location <> "" -> resolveRef w url location = Some inner ->
  let r' := (Register env parsed resolve business tenant url secret now r).1 in
  let key := if bool_decide (secret = "") then devSecret business url else secret in
  let rq := mkRequest "POST" url (Some body) event (SignWebhook key body) in
  let rq' := mkRequest "POST" inner (Some body) event (SignWebhook key body) in
  answer w rq = reply code location -> answer w rq' = reply status "" -> status < 300 ->
  (HTTPPost w url body event (SignWebhook key body)).2 = [rq; rq'] /\
  deliveries (Notify (HTTPWebhookSink (fun _ => w) event (fun _ _ => false)) business event body r').1 =
    deliveries r ++ [mkDelivery url event 1 "delivered" business] /\
  forall b t k n q, (Register env parsed resolve b t inner k n q).2 <> None.
Proof.
  intros Hreg Hdev Hnone Hp Hin Hips Hpriv Hcode Hloc Hres r' key rq rq' Ha Ha' Hst.
  assert (Hpost : HTTPPost w url body event (SignWebhook key body) = (true, [rq; rq'])).
  { unfold HTTPPost. rewrite Hp. cbn [negb]. fold rq.
    assert (Hred : redirects code && negb (bool_decide (location = "")) = true)
      by (rewrite bool_decide_eq_false_2 by exact Hloc; by destruct Hcode as [-> | ->]).
    assert (redirected code inner rq = rq') as Hrq by (by destruct Hcode as [-> | ->]).
    rewrite (follow_redirect w 9 rq code location inner Ha Hred Hres), Hrq.
    rewrite (follow_direct w 8 rq' status "" Ha') by (by rewrite bool_decide_eq_true_2, andb_false_r).
    cbn [fst snd]. f_equal. apply negb_true_iff, Z.leb_gt. exact Hst. }
  split; [by rewrite Hpost|]. split.
  - destruct (registered_first env parsed resolve business tenant url secret now r Hreg Hnone) as [He Hd].
    fold r' key in He, Hd. unfold Notify. rewrite He, Hd. cbn [map fst deliveries]. f_equal. f_equal.
    unfold deliver. cbn [w_URL Secret]. cbn [attempts HTTPWebhookSink post]. rewrite Hpost. done.
  - intros b t k n q. by eapply private_refused.
Qed.
End SinkProperties.

(** ** Witnesses *)

#[local] Existing Instance Toy.crypto.

(** A web where the host of the endpoint redirects to the metadata service
    of the cloud *)
Definition demo_inner : string := "https://169.254.169.254/latest".
Definition demo_url : string := "https://hooks.example.com/x".
Definition demo_web : web :=
  mkWeb (fun rq => if bool_decide (rq_url rq = demo_url) then reply 307 demo_inner else reply 200 "")
    (fun _ => true) (fun _ location => Some location).
Definition demo_parsed (url : string) : option (string * string) :=
  Some ("https", if bool_decide (url = demo_url) then "hooks.example.com" else "169.254.169.254").
Definition demo_names (host : string) : option (list (list Z)) :=
  Some [if bool_decide (host = "169.254.169.254") then [169; 254; 169; 254] else [93; 184; 216; 34]].
Definition demo_env : WebhookEnv := mkWebhookEnv "" "" "prod" "".

Lemma redirect_escapes_guard_witness :
  let r' := (Register demo_env demo_parsed demo_names "biz" "t1" demo_url "0123456789abcdef" 0 NewWebhookRegistry).1 in
  deliveries (Notify (HTTPWebhookSink (fun _ => demo_web) "e" (fun _ _ => false)) "biz" "e" "{}" r').1 =
    [mkDelivery demo_url "e" 1 "delivered" "biz"].
Proof.
  refine (proj1 (proj2 (redirect_escapes_guard demo_env demo_parsed demo_names "biz" "t1" demo_url "0123456789abcdef" 0
    NewWebhookRegistry demo_web "e" "{}" demo_inner "https" "169.254.169.254" demo_inner [[169; 254; 169; 254]] 307 200
    _ _ _ _ _ _ _ _ _ _ _ _ _))); try (vm_compute; reflexivity); [by left | done].
Defined.
