(* ===== verification/EinvUbl.v ===== *)
(** * einvoicing: the UBL document of an invoice (services/einvoicing/ubl.go)

    Amounts in naira with two decimals, quantities, the tax subtotals by
    category and rate - accumulated through their printed texts, as the code
    does -, and the document as it is marshalled. *)

From S2P Require Import Prelude Grouping StrFacts GoJson GoTime EinvModel.
From S2P Require Xml EinvSchema.
From Stdlib Require Import SpecFloat.

Definition nsUBL : string := "urn:oasis:names:specification:ubl:schema:xsd:Invoice-2".
Definition nsCAC : string := "urn:oasis:names:specification:ubl:schema:xsd:CommonAggregateComponents-2".
Definition nsCBC : string := "urn:oasis:names:specification:ubl:schema:xsd:CommonBasicComponents-2".
Definition peppolCustomization : string := "urn:cen.eu:en16931:2017#compliant#urn:fdc:peppol.eu:2017:poacc:billing:3.0".
Definition peppolProfile : string := "urn:fdc:peppol.eu:2017:poacc:billing:01:1.0".

(** ** Numbers as texts *)

(** [%02d]; the minus sign counts *)
Definition twoDigits (z : Z) : string := if z <? 0 then pretty z else if z <? 100 then pad 2 z else pretty z.
Definition threeDigits (z : Z) : string :=
  if z <? 0 then String "-" (if - z <? 100 then pad 2 (- z) else pretty (- z)) else if z <? 1000 then pad 3 z else pretty z.

Definition signOf (k : Z) : string := if k <? 0 then "-" else "".
Definition magnitude (k : Z) : Z := if k <? 0 then -! k else k.

Definition koboToNGN (k : Z) : string :=
  signOf k +:+ pretty (Z.quot (magnitude k) 100) +:+ "." +:+ twoDigits (Z.rem (magnitude k) 100).

Fixpoint trimZeros (s : string) : string :=
  match s with
  | EmptyString => EmptyString
  | String c s => let t := trimZeros s in if bool_decide (t = "") && bool_decide (c = "0"%char) then EmptyString else String c t
  end.

Definition milliToDecimal (m : Z) : string :=
  let whole := Z.quot (magnitude m) 1000 in
  let frac := Z.rem (magnitude m) 1000 in
  let s := signOf m +:+ pretty whole in
  if frac =? 0 then s else trimZeros (s +:+ "." +:+ threeDigits frac).

(** [fmt.Sscanf(s, "%d", &n)]: zero when it does not read or overflows *)
Fixpoint leadingDigits (s : string) : string :=
  match s with
  | String c s => if Str.is_digit c then String c (leadingDigits s) else ""
  | EmptyString => ""
  end.

Definition scanInt (s : string) : Z :=
  let '(neg, ds) := match s with
                    | String c s' => if bool_decide (c = "-"%char) then (true, s') else if bool_decide (c = "+"%char) then (false, s') else (false, s)
                    | EmptyString => (false, s)
                    end in
  let n := Str.digits_val (leadingDigits ds) in
  let v := if neg : bool then - n else n in
  if decide (in64 v) then v else 0.

(** [%.2f] *)
Definition hundredths (m : positive) (e : Z) : Z :=
  if 0 <=? e then Z.pos m * 2 ^ e * 100
  else
    let d := 2 ^ (- e) in
    let n := Z.pos m * 100 in
    let q := n / d in
    let r := n mod d in
    if 2 * r <? d then q else if d <? 2 * r then q + 1 else if Z.even q then q else q + 1.

Definition fixed2 (f : spec_float) : string :=
  let text neg h := (if neg : bool then "-" else "") +:+ pretty (h / 100) +:+ "." +:+ pad 2 (h mod 100) in
  match f with
  | S754_zero neg => text neg 0
  | S754_finite neg m e => text neg (hundredths m e)
  | S754_infinity neg => if neg then "-Inf" else "+Inf"
  | S754_nan => "NaN"
  end.

(** ** Amounts and subtotals *)

Record ublAmount := mkAmount { CurrencyID : string; Value : string }.
Definition noAmount : ublAmount := mkAmount "" "".
Definition amount (k : Z) (cur : string) : ublAmount := mkAmount cur (koboToNGN k).

Definition mustKobo (a : ublAmount) : Z := if bool_decide (Value a = "") then 0 else scanInt (Str.remove "." (Value a)).

Record ublTaxSubtotal := mkSubtotal {
  TaxableAmount : ublAmount;
  TaxAmount : ublAmount;
  cat_ID : string;
  cat_Percent : string;
}.

Abbreviation taxKey := (string * Z)%type.
Definition keyOf (l : InvoiceLine) : taxKey := (VatCategory l, VatRateBps l).

Definition newSubtotal (k : taxKey) : ublTaxSubtotal :=
  mkSubtotal noAmount noAmount k.1 (fixed2 (EinvSchema.fdiv (GoAny.float_of_int k.2) (GoAny.float_of_int 100))).

Definition addToSubtotal (cur : string) (l : InvoiceLine) (st : ublTaxSubtotal) : ublTaxSubtotal :=
  mkSubtotal (amount (mustKobo (TaxableAmount st) +! LineTotalKobo l) cur) (amount (mustKobo (TaxAmount st) +! VatAmountKobo l) cur)
    (cat_ID st) (cat_Percent st).

(** The groups in the order of their first line *)
Fixpoint addLine (cur : string) (l : InvoiceLine) (groups : list (taxKey * ublTaxSubtotal)) : list (taxKey * ublTaxSubtotal) :=
  match groups with
  | [] => [(keyOf l, addToSubtotal cur l (newSubtotal (keyOf l)))]
  | (k, st) :: groups => if bool_decide (k = keyOf l) then (k, addToSubtotal cur l st) :: groups else (k, st) :: addLine cur l groups
  end.

Definition subtotals (cur : string) (ls : list InvoiceLine) : list (taxKey * ublTaxSubtotal) :=
  foldl (fun g l => addLine cur l g) [] ls.

(** ** The document *)

Definition leaf (n v : string) : Xml.xml := Xml.Leaf n [] v.
Definition optLeaf (n v : string) : list Xml.xml := if bool_decide (v = "") then [] else [leaf n v].
Definition amountLeaf (n : string) (a : ublAmount) : Xml.xml := Xml.Leaf n [("currencyID", CurrencyID a)] (Value a).
Definition vatScheme : Xml.xml := Xml.Elem "cac:TaxScheme" [] [leaf "cbc:ID" "VAT"].

Definition mapParty (wrapper : string) (p : Party) : Xml.xml :=
  Xml.Elem wrapper [] [
    Xml.Elem "cac:Party" [] (
      [Xml.Elem "cac:PartyName" [] [leaf "cbc:Name" (p_Name p)];
       Xml.Elem "cac:PostalAddress" [] (
         optLeaf "cbc:StreetName" (Address p) ++ optLeaf "cbc:CityName" (City p) ++ optLeaf "cbc:CountrySubentity" (State p) ++
         [Xml.Elem "cac:Country" [] [leaf "cbc:IdentificationCode" (Country p)]])] ++
      (if bool_decide (TIN p = "") then []
       else [Xml.Elem "cac:PartyTaxScheme" [] [leaf "cbc:CompanyID" (TIN p); vatScheme]]))].

Definition subtotalElem (st : ublTaxSubtotal) : Xml.xml :=
  Xml.Elem "cac:TaxSubtotal" [] [
    amountLeaf "cbc:TaxableAmount" (TaxableAmount st); amountLeaf "cbc:TaxAmount" (TaxAmount st);
    Xml.Elem "cac:TaxCategory" [] [leaf "cbc:ID" (cat_ID st); leaf "cbc:Percent" (cat_Percent st); vatScheme]].

Definition lineElem (cur : string) (l : InvoiceLine) : Xml.xml :=
  Xml.Elem "cac:InvoiceLine" [] [
    leaf "cbc:ID" (l_ID l);
    Xml.Leaf "cbc:InvoicedQuantity" [("unitCode", "EA")] (milliToDecimal (QuantityMilli l));
    amountLeaf "cbc:LineExtensionAmount" (amount (LineTotalKobo l) cur);
    Xml.Elem "cac:TaxTotal" [] [amountLeaf "cbc:TaxAmount" (amount (VatAmountKobo l) cur)];
    Xml.Elem "cac:Item" [] [leaf "cbc:Description" (Description l); leaf "cbc:Name" (Description l)];
    Xml.Elem "cac:Price" [] [amountLeaf "cbc:PriceAmount" (amount (UnitPriceKobo l) cur)]].

Definition MapUBL (inv : CanonicalInvoice) : Xml.xml :=
  let cur := Currency inv in
  Xml.Elem "ubl:Invoice" [("xmlns", nsUBL); ("xmlns:cac", nsCAC); ("xmlns:cbc", nsCBC)] (
    [leaf "cbc:CustomizationID" peppolCustomization; leaf "cbc:ProfileID" peppolProfile; leaf "cbc:ID" (InvoiceNumber inv);
     leaf "cbc:IssueDate" (IssueDate inv)] ++ optLeaf "cbc:DueDate" (DueDate inv) ++
    [leaf "cbc:InvoiceTypeCode" "380"; leaf "cbc:DocumentCurrencyCode" cur;
     mapParty "cac:AccountingSupplierParty" (Supplier inv); mapParty "cac:AccountingCustomerParty" (Customer inv);
     Xml.Elem "cac:TaxTotal" [] (amountLeaf "cbc:TaxAmount" (amount (TaxKobo inv) cur) :: map (fun g => subtotalElem g.2) (subtotals cur (Lines inv)));
     Xml.Elem "cac:LegalMonetaryTotal" [] [
       amountLeaf "cbc:LineExtensionAmount" (amount (TaxExclusiveKobo inv) cur);
       amountLeaf "cbc:TaxExclusiveAmount" (amount (TaxExclusiveKobo inv) cur);
       amountLeaf "cbc:TaxInclusiveAmount" (amount (PayableKobo inv) cur);
       amountLeaf "cbc:PayableAmount" (amount (PayableKobo inv) cur)]] ++
    map (lineElem cur) (Lines inv)).

Definition GenerateUBL (inv : CanonicalInvoice) : string := Xml.Header +:+ Xml.MarshalIndent (MapUBL inv).

Example amounts_as_texts :
  (koboToNGN 12345, koboToNGN (-5), koboToNGN (- two63), milliToDecimal 1500, milliToDecimal (-20), milliToDecimal 3000,
   mustKobo (amount (-5) "NGN"), fixed2 (EinvSchema.fdiv (GoAny.float_of_int 750) (GoAny.float_of_int 100))) =
  ("123.45", "-0.05", "--92233720368547758.-8", "1.5", "-0.02", "3", -5, "7.50").
Proof. vm_compute. reflexivity. Qed.

(** ** Texts of amounts read back *)

Lemma digits_from_app s t : forall acc, Str.digits_from acc (s +:+ t) = Str.digits_from (Str.digits_from acc s) t.
Proof. induction s as [|c s IH]; intros acc; [done|]. rewrite str_app_cons. cbn [Str.digits_from]. apply IH. Qed.

Lemma pretty_nonneg z : 0 <= z -> pretty z = pretty (Z.to_N z).
Proof. intros Hz. by destruct z. Qed.

Lemma digits_pretty_Z z : 0 <= z -> Str.digits_val (pretty z) = z /\ Str.all Str.is_digit (pretty z) = true.
Proof. intros Hz. rewrite pretty_nonneg by done. rewrite digits_pretty. split; [lia|apply pretty_N_digits]. Qed.

Lemma digits_two z : 0 <= z < 100 -> forall acc, Str.digits_from acc (pad 2 z) = 100 * acc + z /\ Str.all Str.is_digit (pad 2 z) = true.
Proof.
  intros Hz acc.
  assert (H : forallb (fun z => (Str.digits_from 0 (pad 2 z) =? z) && Str.all Str.is_digit (pad 2 z) && (String.length (pad 2 z) =? 2)%nat)
                (map Z.of_nat (seq 0 100)) = true) by (vm_compute; reflexivity).
  rewrite forallb_forall in H. specialize (H z ltac:(apply in_map_iff; exists (Z.to_nat z); split; [lia|apply in_seq; lia])).
  rewrite !andb_true_iff, Z.eqb_eq, Nat.eqb_eq in H. destruct H as [[H1 H2] H3]. split; [|done].
  destruct (pad 2 z) as [|a [|b [|]]]; try done. cbn [Str.digits_from] in *. lia.
Qed.

Lemma leadingDigits_all s : Str.all Str.is_digit s = true -> leadingDigits s = s.
Proof. induction s as [|c s IH]; [done|]. cbn. intros [-> Hs]%andb_prop. by rewrite IH. Qed.

Lemma remove_app c s t : Str.remove c (s +:+ t) = Str.remove c s +:+ Str.remove c t.
Proof. induction s as [|d s IH]; [done|]. rewrite str_app_cons. cbn [Str.remove]. destruct (bool_decide _); [done|]. by rewrite IH. Qed.

Lemma remove_digits s : Str.all Str.is_digit s = true -> Str.remove "." s = s.
Proof.
  induction s as [|c s IH]; [done|]. cbn. intros [Hc Hs]%andb_prop. rewrite bool_decide_eq_false_2 by (intros ->; done). by rewrite IH.
Qed.

Lemma digits_head s : s <> "" -> Str.all Str.is_digit s = true -> exists c t, s = String c t /\ c <> "-"%char /\ c <> "+"%char.
Proof.
  destruct s as [|c s]; [done|]. cbn. intros _ [Hc _]%andb_prop. exists c, s. split; [done|]. split; intros ->; done.
Qed.

(** An amount printed and read back is the amount, but for the least integer. *)
Lemma mustKobo_amount k cur : - two63 < k < two63 -> mustKobo (amount k cur) = k.
Proof.
  intros Hk. assert (Hm : magnitude k = Z.abs k).
  { unfold magnitude. destruct (Z.ltb_spec k 0); [|lia]. rewrite wrap64_id; [lia|]. unfold in64, two63 in *. lia. }
  unfold mustKobo, amount. cbn [Value].
  assert (Hq : 0 <= Z.quot (Z.abs k) 100) by (apply Z.quot_pos; lia).
  assert (Hr : 0 <= Z.rem (Z.abs k) 100 < 100) by (apply Z.rem_bound_pos; lia).
  pose proof (Z.quot_rem (Z.abs k) 100 ltac:(lia)) as Hqr.
  destruct (digits_pretty_Z _ Hq) as [Hv Hd]. unfold koboToNGN. rewrite Hm.
  assert (E2 : twoDigits (Z.rem (Z.abs k) 100) = pad 2 (Z.rem (Z.abs k) 100)).
  { unfold twoDigits. destruct (Z.ltb_spec (Z.rem (Z.abs k) 100) 0); [lia|]. by destruct (Z.ltb_spec (Z.rem (Z.abs k) 100) 100); [|lia]. }
  rewrite E2. set (q := Z.quot (Z.abs k) 100) in *. set (r := Z.rem (Z.abs k) 100) in *.
  destruct (digits_two r Hr 0) as [_ Hd2].
  rewrite bool_decide_eq_false_2.
  2: { unfold signOf. destruct (k <? 0); [done|]. change ("" +:+ pretty q +:+ "." +:+ pad 2 r) with (pretty q +:+ "." +:+ pad 2 r).
       destruct (pretty q); done. }
  rewrite !remove_app, (remove_digits (pretty q)), (remove_digits (pad 2 r)) by done.
  change (Str.remove "." ".") with "". change ("" +:+ pad 2 r) with (pad 2 r).
  assert (Hall : Str.all Str.is_digit (pretty q +:+ pad 2 r) = true) by (rewrite str_all_app, Hd, Hd2; done).
  assert (Hval : Str.digits_val (leadingDigits (pretty q +:+ pad 2 r)) = Z.abs k).
  { rewrite leadingDigits_all by done. unfold Str.digits_val. rewrite digits_from_app. fold (Str.digits_val (pretty q)). rewrite Hv.
    rewrite (proj1 (digits_two r Hr q)). lia. }
  assert (Hin : in64 k) by (unfold in64; lia).
  unfold scanInt, signOf. destruct (Z.ltb_spec k 0) as [Hn|Hn].
  - change (Str.remove "." "-" +:+ pretty q +:+ pad 2 r) with (String "-" (pretty q +:+ pad 2 r)).
    cbn match. rewrite bool_decide_eq_true_2 by done. rewrite Hval. rewrite decide_True by (replace (- Z.abs k) with k by lia; done). lia.
  - change (Str.remove "." "" +:+ pretty q +:+ pad 2 r) with (pretty q +:+ pad 2 r).
    destruct (digits_head (pretty q +:+ pad 2 r)) as (c & t & Ec & Hc1 & Hc2); [|done|].
    { rewrite pretty_nonneg by done. destruct (pretty_N_head (Z.to_N q)) as (c & t & -> & _). done. }
    rewrite Ec in *. rewrite !bool_decide_eq_false_2 by done. rewrite Hval. rewrite decide_True by (replace (Z.abs k) with k by lia; done). lia.
Qed.

(** ** The subtotals *)

Definition groupTotal (cur : string) (ls : list InvoiceLine) (k : taxKey) : taxKey * ublTaxSubtotal :=
  (k, mkSubtotal (amount (sumZ LineTotalKobo (ofKey keyOf k ls)) cur) (amount (sumZ VatAmountKobo (ofKey keyOf k ls)) cur)
        (cat_ID (newSubtotal k)) (cat_Percent (newSubtotal k))).

Lemma sum_snoc (f : InvoiceLine -> Z) ls l : sumZ f (ls ++ [l]) = sumZ f ls + f l.
Proof. rewrite sumZ_app, sumZ_cons. unfold sumZ at 2. cbn. lia. Qed.

(** Adding a line to the groups *)
Lemma addLine_groups cur ls l ks :
  NoDup ks ->
  mustKobo (amount (sumZ LineTotalKobo (ofKey keyOf (keyOf l) ls)) cur) = sumZ LineTotalKobo (ofKey keyOf (keyOf l) ls) ->
  mustKobo (amount (sumZ VatAmountKobo (ofKey keyOf (keyOf l) ls)) cur) = sumZ VatAmountKobo (ofKey keyOf (keyOf l) ls) ->
  in64 (sumZ LineTotalKobo (ofKey keyOf (keyOf l) ls) + LineTotalKobo l) -> in64 (sumZ VatAmountKobo (ofKey keyOf (keyOf l) ls) + VatAmountKobo l) ->
  (keyOf l ∉ ks -> ofKey keyOf (keyOf l) ls = []) ->
  addLine cur l (map (groupTotal cur ls) ks) =
    map (groupTotal cur (ls ++ [l])) (if decide (keyOf l ∈ ks) then ks else ks ++ [keyOf l]).
Proof.
  intros Hnd Hm1 Hm2 Hi1 Hi2 Hnew. induction ks as [|k ks IH].
  - assert (Hn : keyOf l ∉ []) by by intros ?%elem_of_nil. specialize (Hnew Hn). rewrite decide_False by done.
    cbn [map addLine app]. unfold groupTotal. rewrite ofKey_snoc, decide_True by done. rewrite Hnew in *.
    unfold addToSubtotal, newSubtotal, sumZ in *. cbn [app foldr TaxableAmount TaxAmount cat_ID cat_Percent] in *.
    change (mustKobo noAmount) with 0. by rewrite !Z.add_0_r, !wrap64_id.
  - apply NoDup_cons in Hnd as [Hk Hnd]. cbn [map addLine]. unfold groupTotal at 1. destruct (decide (k = keyOf l)) as [->|Hne].
    + rewrite bool_decide_eq_true_2 by done. rewrite decide_True by apply list_elem_of_here. cbn [map]. f_equal.
      * unfold groupTotal, addToSubtotal. cbn. rewrite Hm1, Hm2, !wrap64_id by done. by rewrite ofKey_snoc, decide_True, !sum_snoc by done.
      * apply map_ext_in. intros k' Hk'%list_elem_of_In. unfold groupTotal. rewrite ofKey_snoc, decide_False by congruence. done.
    + rewrite bool_decide_eq_false_2 by done.
      rewrite IH; [|done|intros Hn; apply Hnew; rewrite elem_of_cons; intros [?|?]; [by subst|done]].
      assert (Hg : groupTotal cur (ls ++ [l]) k = groupTotal cur ls k) by (unfold groupTotal; by rewrite ofKey_snoc, decide_False by congruence).
      destruct (decide (keyOf l ∈ ks)) as [Hin|Hn].
      * rewrite decide_True by (by apply list_elem_of_further). cbn [map]. by rewrite Hg.
      * rewrite decide_False by (rewrite elem_of_cons; intros [?|?]; [by subst|done]). cbn [map app]. by rewrite Hg.
Qed.

Lemma subtotals_spec cur ls :
  (forall l, l ∈ ls -> 0 <= LineTotalKobo l /\ 0 <= VatAmountKobo l) ->
  sumZ LineTotalKobo ls < two63 -> sumZ VatAmountKobo ls < two63 ->
  subtotals cur ls = map (groupTotal cur ls) (firstKeys keyOf ls).
Proof.
  induction ls as [|l ls IH] using rev_ind; [done|]. intros Hnn H1 H2. rewrite sum_snoc in H1, H2.
  assert (Hnn' : forall x, x ∈ ls -> 0 <= LineTotalKobo x /\ 0 <= VatAmountKobo x) by (intros x Hx; apply Hnn, elem_of_app; by left).
  assert (Hl : 0 <= LineTotalKobo l /\ 0 <= VatAmountKobo l) by (apply Hnn, elem_of_app; right; by apply list_elem_of_singleton).
  destruct (ofKey_sum_le keyOf LineTotalKobo (keyOf l) ls (fun x Hx => proj1 (Hnn' x Hx))) as [P1 Q1].
  destruct (ofKey_sum_le keyOf VatAmountKobo (keyOf l) ls (fun x Hx => proj2 (Hnn' x Hx))) as [P2 Q2].
  unfold subtotals in *. rewrite foldl_app. cbn [foldl]. rewrite IH by (done || lia). rewrite firstKeys_snoc.
  pose proof (firstKeys_NoDup keyOf ls) as Hnd.
  apply addLine_groups; [done|rewrite mustKobo_amount; unfold two63 in *; lia|rewrite mustKobo_amount; unfold two63 in *; lia| | |].
  - unfold in64, two63 in *. lia.
  - unfold in64, two63 in *. lia.
  - apply ofKey_fresh.
Qed.

Lemma sumZ_map {A B} (f : B -> Z) (g : A -> B) l : sumZ f (map g l) = sumZ (fun x => f (g x)) l.
Proof. unfold sumZ. induction l as [|x l IH]; [done|]. cbn. by rewrite IH. Qed.

(** On lines whose totals are not negative and do not overflow together,
    the tax subtotals of the document are exactly one per category and rate, in
    the order of their first line, with the printed sums of the line totals and
    of the VAT of those lines - though the code adds through the printed texts
    -; and what is printed sums up to the totals of the lines. *)
Theorem ubl_subtotals_exact cur ls :
  (forall l, l ∈ ls -> 0 <= LineTotalKobo l /\ 0 <= VatAmountKobo l) ->
  sumZ LineTotalKobo ls < two63 -> sumZ VatAmountKobo ls < two63 ->
  subtotals cur ls = map (groupTotal cur ls) (firstKeys keyOf ls) /\
  NoDup (firstKeys keyOf ls) /\ (forall k, k ∈ firstKeys keyOf ls <-> exists l, l ∈ ls /\ keyOf l = k) /\
  sumZ (fun g => mustKobo (TaxableAmount g.2)) (subtotals cur ls) = sumZ LineTotalKobo ls /\
  sumZ (fun g => mustKobo (TaxAmount g.2)) (subtotals cur ls) = sumZ VatAmountKobo ls.
Proof.
  intros Hnn H1 H2. rewrite (subtotals_spec cur ls Hnn H1 H2). split; [done|]. split; [apply firstKeys_NoDup|].
  split; [intros k; apply firstKeys_elem|].
  assert (G : forall k, mustKobo (TaxableAmount (groupTotal cur ls k).2) = sumZ LineTotalKobo (ofKey keyOf k ls) /\
                        mustKobo (TaxAmount (groupTotal cur ls k).2) = sumZ VatAmountKobo (ofKey keyOf k ls)).
  { intros k. destruct (ofKey_sum_le keyOf LineTotalKobo k ls (fun x Hx => proj1 (Hnn x Hx))) as [P1 Q1].
    destruct (ofKey_sum_le keyOf VatAmountKobo k ls (fun x Hx => proj2 (Hnn x Hx))) as [P2 Q2].
    unfold groupTotal. cbn [snd TaxableAmount TaxAmount]. rewrite !mustKobo_amount by (unfold two63 in *; lia). done. }
  split; rewrite sumZ_map; rewrite <- (groups_sum keyOf); apply sumZ_ext; intros k _; apply G.
Qed.

(** ** Names *)

(** The prefixes of the element names, the root's apart *)
Definition prefixOf (n : string) : string := match Str.cut ":" n with Some (p, _) => p | None => "" end.
Fixpoint prefixes (x : Xml.xml) : list string :=
  match x with
  | Xml.Leaf n _ _ => [prefixOf n]
  | Xml.Elem n _ l => prefixOf n :: concat (map prefixes l)
  end.

(** The prefixes the root declares *)
Definition declared (x : Xml.xml) : list string :=
  match x with
  | Xml.Leaf _ attrs _ | Xml.Elem _ attrs _ => omap (fun kv => match Str.cut ":" kv.1 with Some (p, n) => if bool_decide (p = "xmlns") then Some n else None | None => None end) attrs
  end.

(** Elements all of whose names are in [cac] or [cbc] *)
Definition namesIn (x : Xml.xml) : Prop := Forall (fun p => p = "cac" \/ p = "cbc") (prefixes x).

Lemma namesIn_leaf n a v : prefixOf n = "cac" \/ prefixOf n = "cbc" -> namesIn (Xml.Leaf n a v).
Proof. intros Hn. constructor; [exact Hn|constructor]. Qed.

Lemma namesIn_elem n a l : prefixOf n = "cac" \/ prefixOf n = "cbc" -> Forall namesIn l -> namesIn (Xml.Elem n a l).
Proof.
  intros Hn Hl. unfold namesIn. cbn [prefixes]. constructor; [done|]. apply Forall_concat, Forall_map. exact Hl.
Qed.

Lemma namesIn_opt n v : prefixOf n = "cac" \/ prefixOf n = "cbc" -> Forall namesIn (optLeaf n v).
Proof. intros Hn. unfold optLeaf. case_bool_decide; [constructor|]. constructor; [by apply namesIn_leaf|constructor]. Qed.

Lemma namesIn_map {A} (f : A -> Xml.xml) l : (forall x, namesIn (f x)) -> Forall namesIn (map f l).
Proof. intros Hf. apply Forall_map, Forall_true. exact Hf. Qed.

Ltac names := repeat first [ apply Forall_app_2 | apply namesIn_elem | apply namesIn_leaf | apply namesIn_opt | apply List.Forall_cons
                           | apply List.Forall_nil | by left | by right | apply namesIn_map; intros ].

(** In every UBL document each element is named with the prefix [cac] or
    [cbc], both declared on the root, but for the root itself: it is printed as
    [ubl:Invoice] and declares no namespace for [ubl] - only the default one. *)
Theorem ubl_root_prefix_undeclared inv :
  declared (MapUBL inv) = ["cac"; "cbc"] /\
  exists ps, prefixes (MapUBL inv) = "ubl" :: ps /\ Forall (fun p => p = "cac" \/ p = "cbc") ps.
Proof.
  split; [reflexivity|]. eexists. split; [reflexivity|]. apply Forall_concat, Forall_map. unfold leaf, amountLeaf.
  match goal with |- Forall _ ?l => change (Forall namesIn l) end.
  names. all: case_bool_decide; names.
Qed.

(** ** At concrete lines *)
Definition demo_line (total vat rate : Z) : InvoiceLine :=
  mkLine "1" "goods" 1000 total total "S" rate vat [].
Definition demo_lines : list InvoiceLine := [demo_line 10000 750 750; demo_line 2500 0 0; demo_line 333 25 750].

Lemma ubl_subtotals_exact_witness :
  subtotals "NGN" demo_lines = map (groupTotal "NGN" demo_lines) (firstKeys keyOf demo_lines) /\
  sumZ (fun g => mustKobo (TaxableAmount g.2)) (subtotals "NGN" demo_lines) = 12833.
Proof.
  destruct (ubl_subtotals_exact "NGN" demo_lines) as (H1 & _ & _ & H2 & _).
  - intros l Hl. unfold demo_lines in Hl. rewrite !elem_of_cons in Hl.
    destruct Hl as [->|[->|[->|Hl]]]; [cbn; lia..|by apply elem_of_nil in Hl].
  - cbv. reflexivity.
  - cbv. reflexivity.
  - exact (conj H1 H2).
Defined.

Example demo_subtotals :
  map (fun g => (g.1, Value (TaxableAmount g.2), Value (TaxAmount g.2), cat_Percent g.2)) (subtotals "NGN" demo_lines) =
  [(("S", 750), "103.33", "7.75", "7.50"); (("S", 0), "25.00", "0.00", "0.00")].
Proof. vm_compute. reflexivity. Qed.
