(* ===== verification/EinvAdapters.v ===== *)
(** * einvoicing: the ERP adapters (services/einvoicing/adapters.go)

    The canonical JSON of the REST adapter, the rows of a CSV export grouped
    into invoices, the documents of SAP OData.  The records and documents come
    as [encoding/csv] and [encoding/json] decode them ([None]: they do not);
    the numbers of a CSV row are parsed here as [strconv.ParseInt] does. *)

From S2P Require Import Prelude Grouping StrFacts GoJson GoAny EinvModel.
From S2P Require Xml Yaml RulePack EinvSchema.

(** ** Numbers *)

(** [strconv.ParseUint] on the digits: [None] on a syntax error; it stops with
    the largest number as soon as the digits overflow 64 bits *)
Fixpoint scanUint (n : Z) (s : string) : option Z :=
  match s with
  | EmptyString => Some n
  | String c s =>
      if Str.is_digit c then
        let n := 10 * n + (Z.of_nat (Ascii.nat_of_ascii c) - 48) in
        if two64 <=? n then Some (two64 - 1) else scanUint n s
      else None
  end.

(** [strconv.ParseInt(s, 10, 64)]: the number and whether there is no error;
    out of range the number is the bound, on a syntax error it is zero *)
Definition ParseInt (s : string) : Z * bool :=
  let '(neg, ds) := match s with
                    | String c s' => if bool_decide (c = "-"%char) then (true, s') else if bool_decide (c = "+"%char) then (false, s') else (false, s)
                    | EmptyString => (false, s)
                    end in
  if bool_decide (ds = "") then (0, false)
  else match scanUint 0 ds with
       | None => (0, false)
       | Some n => if neg : bool then if two63 <? n then (- two63, false) else (- n, true)
                   else if two63 <=? n then (two63 - 1, false) else (n, true)
       end.

Definition def (s d : string) : string := if bool_decide (s = "") then d else s.

Definition noParty : Party := mkParty "" "" "" "" "" "" "".
Definition noInvoice : CanonicalInvoice :=
  mkInvoice "" "" "" "" "" "" "" noParty noParty [] 0 0 0 "" "" None "" "" "" "" "" "" "" "" "" "" "" [] "" [] None None.

(** ** CSV *)

Inductive csvError := csvUnreadable | csvTooShort | csvMissing (column : string) | csvBadPrice (row : nat).

(** [idx]: a column named twice is found at its last place *)
Fixpoint columnFrom (i : nat) (found : option nat) (header : list string) (col : string) : option nat :=
  match header with
  | [] => found
  | h :: header => columnFrom (S i) (if bool_decide (Str.trim_space h = col) then Some i else found) header col
  end.
Definition column (header : list string) (col : string) : option nat := columnFrom 0 None header col.

Definition cell (header row : list string) (col : string) : string :=
  match column header col with
  | None => ""
  | Some i => match row !! i with Some v => Str.trim_space v | None => "" end
  end.

Definition requiredColumns : list string := ["invoice_number"; "supplier_tin"; "supplier_name"; "line_description"; "unit_price_kobo"].

Definition missingColumn (header : list string) : option string :=
  List.find (fun c => match column header c with None => true | Some _ => false end) requiredColumns.

Section CSV.
Context (header : list string).

Definition numberOf (row : list string) : string := cell header row "invoice_number".

Definition headOf (row : list string) : CanonicalInvoice :=
  let get := cell header row in
  noInvoice{{ InvoiceNumber := get "invoice_number"; InvoiceType := get "invoice_type"; IssueDate := get "issue_date"; Currency := get "currency";
              Supplier := mkParty (get "supplier_tin") (get "supplier_name") (get "supplier_address") "" (get "supplier_state") "" "";
              Customer := mkParty (get "customer_tin") (get "customer_name") (get "customer_address") "" (get "customer_state") "" "";
              SourceAdapter := "csv" }}.

Definition priceOf (row : list string) : Z * bool := ParseInt (cell header row "unit_price_kobo").

Definition lineOf (row : list string) : InvoiceLine :=
  let get := cell header row in
  mkLine "" (get "line_description") (ParseInt (def (get "quantity_milli") "1000")).1 (priceOf row).1 0
    (def (get "vat_category") "S") (ParseInt (def (get "vat_rate_bps") "0")).1 0 [].

Definition addLineTo (inv : CanonicalInvoice) (l : InvoiceLine) : CanonicalInvoice := inv{{ Lines := Lines inv ++ [l] }}.

(** One row: [order] and [byNum] *)
Definition addRow (st : list string * gmap string CanonicalInvoice) (row : list string) : list string * gmap string CanonicalInvoice :=
  let num := numberOf row in
  match st.2 !! num with
  | Some inv => (st.1, <[num := addLineTo inv (lineOf row)]> st.2)
  | None => (st.1 ++ [num], <[num := addLineTo (headOf row) (lineOf row)]> st.2)
  end.

(** [n]: the number of the row in the file *)
Fixpoint addRows (n : nat) (rows : list (list string)) (st : list string * gmap string CanonicalInvoice)
  : result csvError (list string * gmap string CanonicalInvoice) :=
  match rows with
  | [] => Ok st
  | row :: rows => if (priceOf row).2 then addRows (S n) rows (addRow st row) else Err (csvBadPrice n)
  end.
End CSV.

Definition CSVParse (records : option (list (list string))) : result csvError (list CanonicalInvoice) :=
  match records with
  | None => Err csvUnreadable
  | Some (header :: row :: rows) =>
      match missingColumn header with
      | Some c => Err (csvMissing c)
      | None => match addRows header 2 (row :: rows) ([], ∅) with
                | Err e => Err e
                | Ok (order, byNum) => Ok (map (fun num => default noInvoice (byNum !! num)) order)
                end
      end
  | Some _ => Err csvTooShort
  end.

(** ** SAP OData *)

Record odataLine := mkODataLine {
  ItemCode : string;
  ItemDescription : string;
  od_Quantity : spec_float;
  UnitPriceMinor : spec_float;
  TaxCode : string;
  TaxPercent : spec_float;
}.

Record odataDoc := mkODataDoc {
  DocNum : string;
  DocDate : string;
  DocDueDate : string;
  DocCurrency : string;
  CardCode : string;
  CardName : string;
  CustomerTIN : string;
  SupplierTIN : string;
  SupplierName : string;
  Items : list odataLine;
}.

Inductive sapError := sapUndecoded | sapNoDocuments.

Definition first10 (s : string) : string := if (10 <=? String.length s)%nat then Str.take 10 s else s.

(** [int64(f * n)] *)
Definition scaled (f : spec_float) (n : Z) : Z := RulePack.int_of_float (EinvSchema.fmul f (float_of_int n)).

Definition sapLine (i : Z) (l : odataLine) : InvoiceLine :=
  let rate := scaled (TaxPercent l) 100 in
  mkLine (pretty (i + 1)) (def (ItemDescription l) (ItemCode l)) (scaled (od_Quantity l) 1000) (RulePack.int_of_float (UnitPriceMinor l)) 0
    (if rate =? 0 then "E" else "S") rate 0 [].

Definition sapInvoice (d : odataDoc) : CanonicalInvoice :=
  noInvoice{{ InvoiceNumber := DocNum d; IssueDate := first10 (DocDate d); DueDate := first10 (DocDueDate d);
              Currency := def (DocCurrency d) "NGN";
              Supplier := mkParty (SupplierTIN d) (def (SupplierName d) "SAP Business Partner") "" "" "" "" "";
              Customer := mkParty (CustomerTIN d) (CardName d) "" "" "" "" "";
              Lines := imap (fun i l => sapLine (Z.of_nat i) l) (Items d);
              SourceAdapter := "sap-odata" }}.

(** The payload: the array [value], and [d] when it is there *)
Definition SAPParse (payload : option (list odataDoc * option odataDoc)) : result sapError (list CanonicalInvoice) :=
  match payload with
  | None => Err sapUndecoded
  | Some (value, d) =>
      match value ++ option_list d with
      | [] => Err sapNoDocuments
      | docs => Ok (map sapInvoice docs)
      end
  end.

(** ** REST *)

Inductive restError := restEmpty | restUndecoded.

(** An array is decoded as such, anything else as one invoice; a null of an
    array is a nil pointer. *)
Definition RESTParse (decodeMany : string -> option (list (option CanonicalInvoice))) (decodeOne : string -> option CanonicalInvoice) (body : string)
  : result restError (list (option CanonicalInvoice)) :=
  match Str.trim_space body with
  | EmptyString => Err restEmpty
  | String c rest =>
      match (if bool_decide (c = "["%char) then decodeMany (String c rest)
             else option_map (fun inv => [Some inv]) (decodeOne (String c rest))) with
      | Some invs => Ok invs
      | None => Err restUndecoded
      end
  end.

(** ** The choice of an adapter *)

Inductive ERPAdapter := CSVAdapter | SAPODataAdapter | RESTAdapter.

Definition adapterName (a : ERPAdapter) : string :=
  match a with CSVAdapter => "csv" | SAPODataAdapter => "sap-odata" | RESTAdapter => "rest" end.

Definition AdapterFor (name contentType : string) : option ERPAdapter :=
  if bool_decide (name = "csv") || Str.has_prefix contentType "text/csv" then Some CSVAdapter
  else if bool_decide (name = "sap-odata") then Some SAPODataAdapter
  else if bool_decide (name = "rest") || bool_decide (name = "") || Xml.contains contentType "json" then Some RESTAdapter
  else None.

(** ** Numbers are read exactly or refused *)

Lemma is_digit_range c : Str.is_digit c = true -> 0 <= Z.of_nat (Ascii.nat_of_ascii c) - 48 <= 9.
Proof. destruct c as [[] [] [] [] [] [] [] []]; vm_compute; try discriminate; intros _; by split. Qed.

Lemma digits_from_ge s : forall n, 0 <= n -> Str.all Str.is_digit s = true -> n <= Str.digits_from n s.
Proof.
  induction s as [|c s IH]; intros n Hn; [done|]. cbn [Str.all Str.digits_from]. intros [Hc Hs]%andb_prop.
  pose proof (is_digit_range c Hc). specialize (IH (10 * n + (Z.of_nat (Ascii.nat_of_ascii c) - 48)) ltac:(lia) Hs). lia.
Qed.

Lemma scanUint_digits s : forall n, 0 <= n < two64 -> Str.all Str.is_digit s = true ->
  scanUint n s = Some (Z.min (Str.digits_from n s) (two64 - 1)).
Proof.
  induction s as [|c s IH]; intros n Hn; [cbn; intros _; f_equal; lia|]. cbn [Str.all Str.digits_from scanUint]. intros [Hc Hs]%andb_prop.
  rewrite Hc. pose proof (is_digit_range c Hc). destruct (Z.leb_spec two64 (10 * n + (Z.of_nat (Ascii.nat_of_ascii c) - 48))) as [Hb|Hb].
  - pose proof (digits_from_ge s (10 * n + (Z.of_nat (Ascii.nat_of_ascii c) - 48)) ltac:(lia) Hs). f_equal. lia.
  - apply IH; [lia|done].
Qed.

Lemma scanUint_other s : forall n, 0 <= n < two64 -> Str.all Str.is_digit s = false ->
  scanUint n s = None \/ scanUint n s = Some (two64 - 1).
Proof.
  induction s as [|c s IH]; intros n Hn; [done|]. cbn [Str.all scanUint]. destruct (Str.is_digit c) eqn:Hc; [|by left]. cbn [andb].
  intros Hs. pose proof (is_digit_range c Hc). destruct (Z.leb_spec two64 (10 * n + (Z.of_nat (Ascii.nat_of_ascii c) - 48))) as [Hb|Hb]; [by right|].
  apply IH; [lia|done].
Qed.

(** The number of a CSV cell is read without error exactly when the cell is
    an optional sign and digits within 64 bits, and then it is their value;
    with an error it is zero or the bound that was passed. *)
Theorem csv_number_exact s :
  match ParseInt s with
  | (v, true) => Yaml.parseInt s = Some v
  | (v, false) => Yaml.parseInt s = None /\ (v = 0 \/ v = two63 - 1 \/ v = - two63)
  end.
Proof.
  unfold ParseInt, Yaml.parseInt, Yaml.split_sign.
  destruct (match s with String c s' => _ | EmptyString => _ end) as [neg ds].
  case_bool_decide as He; cbn [negb andb]; [by split; [|left]|].
  assert (T : two64 = 2 * two63) by done. assert (P : 1 < two63) by done.
  destruct (Str.all Str.is_digit ds) eqn:Hd.
  - rewrite scanUint_digits by (done || unfold two64; lia). fold (Str.digits_val ds).
    pose proof (digits_from_ge ds 0 ltac:(lia) Hd) as Hge. fold (Str.digits_val ds) in Hge. set (v := Str.digits_val ds) in *.
    unfold in64. destruct neg.
    + destruct (Z.ltb_spec two63 (Z.min v (two64 - 1))); [rewrite decide_False by lia; tauto|rewrite decide_True by lia; f_equal; lia].
    + destruct (Z.leb_spec two63 (Z.min v (two64 - 1))); [rewrite decide_False by lia; tauto|rewrite decide_True by lia; f_equal; lia].
  - destruct (scanUint_other ds 0 ltac:(unfold two64; lia) Hd) as [-> | ->]; [by split; [|left]|].
    destruct neg; [rewrite (proj2 (Z.ltb_lt two63 _)) by lia|rewrite (proj2 (Z.leb_le two63 _)) by lia]; tauto.
Qed.

(** ** The invoices of a CSV export *)

Section Groups.
Context (header : list string).
#[local] Abbreviation num := (numberOf header).

(** The invoice of a number: its header from its first row, its lines from all
    its rows in order *)
Definition groupOf (rows : list (list string)) (k : string) : CanonicalInvoice :=
  match ofKey num k rows with
  | [] => noInvoice
  | row :: more => (headOf header row){{ Lines := map (lineOf header) (row :: more) }}
  end.

Definition readsAs (rows : list (list string)) (st : list string * gmap string CanonicalInvoice) : Prop :=
  st.1 = firstKeys num rows /\ forall k, st.2 !! k = if decide (k ∈ firstKeys num rows) then Some (groupOf rows k) else None.

Lemma groupOf_snoc_other rows row k : num row <> k -> groupOf (rows ++ [row]) k = groupOf rows k.
Proof. intros Hk. unfold groupOf. by rewrite ofKey_snoc, decide_False. Qed.

Lemma groupOf_snoc rows row : num row ∈ firstKeys num rows ->
  groupOf (rows ++ [row]) (num row) = addLineTo (groupOf rows (num row)) (lineOf header row).
Proof.
  intros Hin. unfold groupOf. rewrite ofKey_snoc, decide_True by done.
  destruct (ofKey_head num rows (num row) Hin) as (x & xs & -> & _). cbn [app]. rewrite app_comm_cons, map_app. unfold addLineTo.
  by destruct (headOf header x).
Qed.

Lemma groupOf_first rows row : num row ∉ firstKeys num rows ->
  groupOf (rows ++ [row]) (num row) = addLineTo (headOf header row) (lineOf header row).
Proof.
  intros Hn. unfold groupOf. rewrite ofKey_snoc, decide_True, ofKey_fresh by done. reflexivity.
Qed.

Lemma addRow_reads rows row st : readsAs rows st -> readsAs (rows ++ [row]) (addRow header st row).
Proof.
  intros [E1 E2]. unfold addRow. pose proof (E2 (num row)) as E. unfold readsAs. rewrite firstKeys_snoc.
  destruct (decide (num row ∈ firstKeys num rows)) as [Hin|Hn]; rewrite E; cbn [fst snd].
  - split; [done|]. intros k. destruct (decide (num row = k)) as [<-|Hk].
    + by rewrite lookup_insert_eq, decide_True, groupOf_snoc.
    + rewrite lookup_insert_ne, E2, groupOf_snoc_other by done. done.
  - split; [by rewrite E1|]. intros k. destruct (decide (num row = k)) as [<-|Hk].
    + rewrite lookup_insert_eq, decide_True by (apply elem_of_app; right; by apply list_elem_of_singleton). by rewrite groupOf_first.
    + rewrite lookup_insert_ne, E2, groupOf_snoc_other by done.
      destruct (decide (k ∈ firstKeys num rows)) as [Hk'|Hk']; [by rewrite decide_True by (apply elem_of_app; by left)|].
      rewrite decide_False; [done|]. rewrite elem_of_app, list_elem_of_singleton. naive_solver.
Qed.

Definition goodPrice (row : list string) : Prop := (priceOf header row).2 = true.

Lemma addRows_reads rows : forall n done st, readsAs done st ->
  match addRows header n rows st with
  | Ok st' => Forall goodPrice rows /\ readsAs (done ++ rows) st'
  | Err e => exists i row, rows !! i = Some row /\ ~ goodPrice row /\ Forall goodPrice (take i rows) /\ e = csvBadPrice (n + i)
  end.
Proof.
  induction rows as [|row rows IH]; intros n pre st Hst; cbn [addRows]; [by rewrite app_nil_r|].
  destruct (priceOf header row).2 eqn:Ep.
  - specialize (IH (S n) (pre ++ [row]) (addRow header st row) (addRow_reads _ _ _ Hst)).
    destruct (addRows header (S n) rows (addRow header st row)) as [st'|e].
    + destruct IH as [H1 H2]. rewrite <- app_assoc in H2. split; [by constructor|done].
    + destruct IH as (i & r & H1 & H2 & H3 & ->). exists (S i), r. repeat split; [done..|by constructor|f_equal; lia].
  - exists 0%nat, row. unfold goodPrice. repeat split; [by rewrite Ep|constructor|f_equal; lia].
Qed.
End Groups.

Lemma missingColumn_none header : missingColumn header = None <-> Forall (fun c => column header c <> None) requiredColumns.
Proof.
  unfold missingColumn. rewrite Forall_forall. split.
  - intros H c Hc%list_elem_of_In E. pose proof (List.find_none _ _ H c Hc) as F. cbn in F. by rewrite E in F.
  - intros H. destruct (List.find _ _) as [c|] eqn:F; [|done]. apply List.find_some in F as [Hc E].
    apply list_elem_of_In, H in Hc. by destruct (column header c).
Qed.

(** A CSV export is accepted exactly when it has a header with the required
    columns, at least one row, and a readable unit price on every row; then it
    gives exactly one invoice per invoice number, in the order of their first
    rows, whose header is the one of its first row and whose lines are those
    of its rows, in order - so every row becomes exactly one line. *)
Theorem csv_groups_exact header rows invs :
  CSVParse (Some (header :: rows)) = Ok invs <->
  rows <> [] /\ Forall (fun c => column header c <> None) requiredColumns /\ Forall (goodPrice header) rows /\
  invs = map (groupOf header rows) (firstKeys (numberOf header) rows).
Proof.
  destruct rows as [|row rows]; [split; [done|by intros (Hne & _)]|]. unfold CSVParse.
  destruct (missingColumn header) as [c|] eqn:Em.
  { split; [done|]. intros (_ & Hm%missingColumn_none & _). congruence. }
  assert (H0 : readsAs header [] ([], ∅)) by (split; [done|]; intros k; cbn; by rewrite decide_False by apply not_elem_of_nil).
  pose proof (addRows_reads header (row :: rows) 2 [] ([], ∅) H0) as H.
  destruct (addRows header 2 (row :: rows) ([], ∅)) as [[order byNum]|e].
  2: { split; [done|]. intros (_ & _ & Hg & _). destruct H as (i & r & Hr & Hb & _). by destruct (Hb (proj1 (Forall_lookup _ _) Hg i r Hr)). }
  - destruct H as [Hg [E1 E2]]. cbn [fst snd app] in E1, E2.
    assert (Emap : map (fun num => default noInvoice (byNum !! num)) order = map (groupOf header (row :: rows)) (firstKeys (numberOf header) (row :: rows))).
    { rewrite E1. apply map_ext_in. intros k Hk%list_elem_of_In. by rewrite E2, decide_True. }
    rewrite Emap, <- missingColumn_none. split; [by intros [= <-]|by intros (_ & _ & _ & ->)].
Qed.

(** ** At concrete exports *)

Definition demo_header : list string := ["invoice_number"; "supplier_tin"; "supplier_name"; "line_description"; "unit_price_kobo"; "quantity_milli"; "vat_rate_bps"].
Definition demo_rows : list (list string) :=
  [["INV-1"; "1234567890123"; "Ada"; "Cement"; "10000"; "2000"; "750"];
   ["INV-2"; "1234567890123"; "Ada"; "Sand"; "500"; ""; ""];
   [" INV-1 "; "9999999999999"; "Bola"; "Iron"; "700"; "1,5"; "7.5"]].

(** Rows of two suppliers under one number become one invoice of the first of
    them; a quantity and a rate that do not parse become zero. *)
Example csv_merges_suppliers :
  option_map (map (fun inv => (InvoiceNumber inv, TIN (Supplier inv), map (fun l => (Description l, QuantityMilli l, UnitPriceKobo l, VatRateBps l)) (Lines inv))))
    (match CSVParse (Some (demo_header :: demo_rows)) with Ok l => Some l | Err _ => None end) =
  Some [("INV-1", "1234567890123", [("Cement", 2000, 10000, 750); ("Iron", 0, 700, 0)]);
        ("INV-2", "1234567890123", [("Sand", 1000, 500, 0)])].
Proof. vm_compute. reflexivity. Qed.

(** A rate of 1.15 percent and a quantity of 1.001 lose their last unit: the
    product in binary64 is below the decimal one and is truncated. *)
Example sap_amounts_truncated :
  (scaled (Yaml.decimal_float false 115 (-2)) 100, scaled (Yaml.decimal_float false 1001 (-3)) 1000,
   scaled (Yaml.decimal_float false 75 (-1)) 100, RulePack.int_of_float (Yaml.decimal_float false 9999 (-1)),
   scaled (Yaml.decimal_float false 9 (-3)) 100) = (114, 1000, 750, 999, 0).
Proof. vm_compute. reflexivity. Qed.

Example adapters_chosen :
  map (fun nc : string * string => option_map adapterName (AdapterFor nc.1 nc.2))
    [("csv", ""); ("sap-odata", "application/json"); ("", "text/plain"); ("tally", "application/json"); ("tally", "text/plain"); ("rest", "text/csv")] =
  [Some "csv"; Some "sap-odata"; Some "rest"; Some "rest"; None; Some "csv"].
Proof. vm_compute. reflexivity. Qed.
