(* ===== verification/EinvWorkflow.v ===== *)
(** * einvoicing: the workflows of an invoice (services/einvoicing/workflow.go,
    nrs_lifecycle.go, nrs_resume.go, mbs.go, router.go, sign.go and the event
    of main.go)

    The server, the activities of the two workflows with their retries, the
    runner with its history, the guard that keeps two drivers of one invoice
    apart, and the recovery sweep.  Everything outside the process (clock,
    random source, signer, registry, disk, bus, webhook endpoints) answers
    through a record of its own for every attempt, and other requests may
    change the server before any attempt.  The texts of steps and errors are
    left out. *)

From S2P Require Import Prelude StrFacts Crypto GoJson GoTime EinvModel EinvStore EinvIrn.
From S2P Require Outbox EinvWebhooks EinvValidate EinvSchema EinvUbl Citation.

(** ** The server *)

Record Step := mkStep { st_Name : string; st_Attempt : Z; st_ok : bool }.

Record WorkflowRun := mkRun {
  run_ID : string;
  run_Name : string;
  InputID : string;
  Steps : list Step;
  run_ok : bool;
  StartedAt : Z;
  FinishedAt : Z;
}.

Record Server := mkServer {
  store : InvoiceStore;
  outbox : Outbox.Outbox;
  webhooks : EinvWebhooks.WebhookRegistry;
  serviceIDs : ServiceIDRegistry;
  runs : list WorkflowRun;
  runSeq : Z;
  resumeInFlight : gset string;
}.

Definition setStore (s : InvoiceStore) (sv : Server) : Server :=
  mkServer s (outbox sv) (webhooks sv) (serviceIDs sv) (runs sv) (runSeq sv) (resumeInFlight sv).
Definition setOutbox (o : Outbox.Outbox) (sv : Server) : Server :=
  mkServer (store sv) o (webhooks sv) (serviceIDs sv) (runs sv) (runSeq sv) (resumeInFlight sv).
Definition setWebhooks (w : EinvWebhooks.WebhookRegistry) (sv : Server) : Server :=
  mkServer (store sv) (outbox sv) w (serviceIDs sv) (runs sv) (runSeq sv) (resumeInFlight sv).
Definition setServiceIDs (r : ServiceIDRegistry) (sv : Server) : Server :=
  mkServer (store sv) (outbox sv) (webhooks sv) r (runs sv) (runSeq sv) (resumeInFlight sv).
Definition setInFlight (g : gset string) (sv : Server) : Server :=
  mkServer (store sv) (outbox sv) (webhooks sv) (serviceIDs sv) (runs sv) (runSeq sv) g.

(** ** The rail *)

Record ClearanceResult := mkClearance {
  cl_IRN : string;
  cl_Stamp : option CryptoStamp;
  cl_Status : string;
  ClearedAt : string;
}.

Record B2CReportReceipt := mkReceipt { ReportID : string; rc_IRN : string; AcceptedAt : string; rc_Status : string }.

Definition sandboxServiceID : string := "MBSSIM01".

Section Sandbox.
Context `{Crypto} (stampSign : string -> string).

Definition stampPayload (irn invoiceHash ts : string) : string :=
  "MBS-STAMP-V1|" +:+ irn +:+ "|" +:+ invoiceHash +:+ "|" +:+ ts.

(** [SandboxMBS.Preclear]: the simulator never fails; [stampSign]: the hex
    signature of its key *)
Definition sandboxPreclear (now : Z) (inv : CanonicalInvoice) : ClearanceResult :=
  if bool_decide (CSIDSignature inv = "") then mkClearance "" None "rejected" ""
  else
    let svcID := if ValidServiceID (ServiceID inv) then ServiceID inv else sandboxServiceID in
    match BuildIRN (InvoiceNumber inv) svcID (IssueDate inv) with
    | Err _ => mkClearance "" None "rejected" ""
    | Ok irn =>
        let ts := format now in
        let payload := stampPayload irn (Hash inv) ts in
        mkClearance irn (Some (mkStamp "ed25519" "mbs-sandbox-2026" irn payload (stampSign payload) ts)) "cleared" ts
    end.

(** [%08d] *)
Definition pad8 (n : Z) : string := if n <? 100000000 then pad 8 n else pretty n.

Definition sandboxReportB2C (seq now : Z) (inv : CanonicalInvoice) : B2CReportReceipt :=
  mkReceipt ("B2C-RPT-" +:+ pad8 seq) (IRN inv) (format now) "accepted".
End Sandbox.

(** [Resolve] of the router: the app of a tenant, or the default one *)
Definition Resolve {App} (apps : gmap string App) (routes : gmap string string) (tenant : string) : option (string * App) :=
  let appID := default (default "" (routes !! "*")) (routes !! tenant) in
  app ← apps !! appID; Some (appID, app).

(** ** One attempt at an activity *)

(** What the process gets from outside during one attempt: [io_sign], the hex
    signature of the CSID key; [io_preclear], the answer of the rail of the
    tenant; [io_event], identifier and trace of a new event *)
Record attemptIO := mkIO {
  io_now : Z;
  io_rand : option string;
  io_sign : string -> option string;
  io_validator : EinvValidate.Validator;
  io_preclear : CanonicalInvoice -> option ClearanceResult;
  io_save : saveIO;
  io_sink : EinvWebhooks.sink;
  io_event : string * string;
  io_publish : Outbox.appendIO;
}.

(** An activity gives a result, or fails and may be tried again, or panics. *)
Inductive outcome (R : Type) := succeeds (r : R) | failed_ | panicked_.
Arguments succeeds {R} r.
Arguments failed_ {R}.
Arguments panicked_ {R}.
Abbreviation done_ := (succeeds tt).
#[export] Instance outcome_eq_dec R `{EqDecision R} : EqDecision (outcome R).
Proof. solve_decision. Defined.

(** The invoice the workflow holds, and the server *)
Abbreviation world := (CanonicalInvoice * Server)%type.
Abbreviation activity R := (attemptIO -> world -> world * outcome R).

Section Activities.
Context `{Crypto} (keyID : string) (decodeNRS : string -> option EinvSchema.NRSInvoice).

(** [store.Save]: the invoice keeps the time stamps it was given *)
Definition saveInv (io : attemptIO) (w : world) : world * outcome unit :=
  let '(s, inv, _, err) := SaveCtx (io_save io) (io_now io) w.1 (store w.2) in
  ((inv, setStore s w.2), match err with None => done_ | Some _ => failed_ end).

(** [newInvoiceEvent] *)
Definition newInvoiceEvent (io : attemptIO) (ty : string) (inv : CanonicalInvoice) : Outbox.Envelope :=
  Outbox.mkEnvelope (io_event io).1 ty "einvoicing" (format (io_now io)) (TenantID inv) (io_event io).2
    "rp-mbs-business-rules@1.0.0"
    (json_text (JObj [("invoice_id", JStr (ID inv)); ("invoice_number", JStr (InvoiceNumber inv)); ("irn", JStr (IRN inv));
                      ("payable_kobo", JNum (PayableKobo inv)); ("status", JStr (Status inv));
                      ("supplier_tin_hash", JStr (Str.take 16 (Hash inv)))])).

Definition publish (io : attemptIO) (ty : string) (w : world) : world * outcome unit :=
  let '(o, ok) := Outbox.Publish (io_publish io) (io_now io) ty (newInvoiceEvent io ty w.1) (outbox w.2) in
  ((w.1, setOutbox o w.2), if ok then done_ else failed_).

(** [f] after [r], unless that failed *)
Definition andThen (r : world * outcome unit) (f : world -> world * outcome unit) : world * outcome unit :=
  match r.2 with succeeds _ => f r.1 | _ => r end.

(** *** The steps of wf-nrs-einvoice *)

Definition actCreate (id : string) : activity unit := fun _ w =>
  (w, match Get id (store w.2) with Some _ => done_ | None => failed_ end).

Definition actIRNGen : activity unit := fun io w =>
  let '(inv, sv) := w in
  if negb (bool_decide (IRN inv = "")) then (w, done_)
  else match GetOrAssign (BusinessID inv) (io_rand io) (serviceIDs sv) with
       | (ids, Err _) => ((inv, setServiceIDs ids sv), failed_)
       | (ids, Ok sid) =>
           let sv := setServiceIDs ids sv in
           match BuildIRN (InvoiceNumber inv) sid (IssueDate inv) with
           | Err _ => ((inv, sv), failed_)
           | Ok irn => ((inv{{ ServiceID := sid; IRN := irn }}, sv), done_)
           end
       end.

Definition stampOf (s : result string string) : string := match s with Ok d => d | Err _ => "" end.

Definition actIRNValid : activity unit := fun _ w =>
  let '(inv, sv) := w in
  match ParseIRN (IRN inv) with
  | Err _ => (w, failed_)
  | Ok (num, sid, ds) =>
      if negb (bool_decide (num = InvoiceNumber inv)) then (w, failed_)
      else if negb (bool_decide (ds = stampOf (DateStamp (IssueDate inv)))) then (w, failed_)
      else if negb (ValidServiceID sid) then (w, failed_)
      else if match GetByIRN (IRN inv) (store sv) with
              | Some existing => negb (bool_decide (ID existing = ID inv))
              | None => false
              end then (w, failed_)
      else ((inv{{ ServiceID := sid }}, sv), done_)
  end.

Definition signaturePayload (inv : CanonicalInvoice) : string :=
  "NRS-IRN-SIGN-V1|" +:+ IRN inv +:+ "|" +:+ TIN (Supplier inv) +:+ "|" +:+ Hash inv.

Definition actIRNSign : activity unit := fun io w =>
  let '(inv, sv) := w in
  let payload := signaturePayload inv in
  match io_sign io payload with
  | None => (w, failed_)
  | Some sig =>
      ((inv{{ Stamp := Some (mkStamp "ed25519" keyID (IRN inv) payload sig (format (io_now io))) }}, sv), done_)
  end.

(** Whether the stored payload, if there is one, decodes and is valid *)
Definition payloadValid (payload : string) : bool :=
  if bool_decide (payload = "") then true
  else match decodeNRS payload with
       | None => false
       | Some n => match EinvSchema.Validate n with [] => true | _ => false end
       end.

(** The packs, as the steps of both workflows run them *)
Definition runPacks (io : attemptIO) (duplicate : bool) (w : world) : world * outcome unit :=
  let '(inv, sv) := w in
  match EinvValidate.Validate (io_validator io) inv duplicate with
  | Err EinvValidate.vPanic => (w, panicked_)
  | Err (EinvValidate.vFails _) => (w, failed_)
  | Ok (violations, fatal) => ((inv{{ Validation := violations }}, sv), if fatal then failed_ else done_)
  end.

Definition actSchema : activity unit := fun io w =>
  if negb (payloadValid (NRSPayload w.1)) then (w, failed_) else runPacks io false w.

(** [SignInvoiceCtx] *)
Definition SignInvoice (io : attemptIO) (inv : CanonicalInvoice) : CanonicalInvoice * bool :=
  match io_sign io (Hash inv) with
  | None => (inv, false)
  | Some sig => (inv{{ CSIDSignature := sig; CSIDKeyID := keyID }}, true)
  end.

(** The error of the signer is not looked at. *)
Definition actSign : activity unit := fun io w =>
  let inv := (SignInvoice io w.1).1 in
  let inv := inv{{ SignedCoreHash := CoreHash inv; Status := "signed" }} in
  saveInv io (inv, w.2).

Definition notifyBody (io : attemptIO) (inv : CanonicalInvoice) : string :=
  json_text (JObj [("business_id", JStr (BusinessID inv));
                   ("data", JObj [("invoice_id", JStr (ID inv)); ("irn", JStr (IRN inv));
                                  ("payable_kobo", JNum (PayableKobo inv)); ("status", JStr (Status inv))]);
                   ("event", JStr "nrs.einvoice.transmitted.v1"); ("sent_at", JStr (format (io_now io)))]).

Definition actTransmit : activity unit := fun io w =>
  let '(inv, sv) := w in
  let '(hooks, ok) := EinvWebhooks.Notify (io_sink io) (BusinessID inv) "nrs.einvoice.transmitted.v1" (notifyBody io inv) (webhooks sv) in
  let w := (inv, setWebhooks hooks sv) in
  if negb ok then (w, failed_)
  else andThen (publish io "nrs.einvoice.transmitted.v1" w) (fun w => saveInv io (w.1{{ Status := "transmitted" }}, w.2)).

Definition actConfirm : activity unit := fun io w =>
  let '(inv, sv) := w in
  match Get (ID inv) (store sv) with
  | None => (w, failed_)
  | Some stored =>
      if negb (bool_decide (IRN stored = IRN inv)) then (w, failed_)
      else if negb (bool_decide (CoreHash stored = SignedCoreHash inv)) then (w, failed_)
      else if negb (PayableKobo stored =? PayableKobo inv) then (w, failed_)
      else andThen (saveInv io (inv{{ Status := "confirmed" }}, sv)) (publish io "nrs.einvoice.confirmed.v1")
  end.

(** *** The steps of wf-mbs-preclearance *)

Definition actValidate : activity unit := fun io w => runPacks io (IsDuplicate w.1 (store w.2)) w.

Definition actCSIDSign : activity unit := fun io w =>
  let '(inv, ok) := SignInvoice io w.1 in ((inv, w.2), if ok then done_ else failed_).

Definition actUBL : activity unit := fun _ w => ((w.1{{ UBLXML := EinvUbl.GenerateUBL w.1 }}, w.2), done_).

(** The clearance is kept for the step that records it. *)
Definition actSubmit : activity ClearanceResult := fun io w =>
  (w, match io_preclear io w.1 with
      | None => failed_
      | Some r => if bool_decide (cl_Status r = "cleared") then succeeds r else failed_
      end).

Definition actRecord (r : ClearanceResult) : activity unit := fun io w =>
  andThen (saveInv io (w.1{{ IRN := cl_IRN r; Stamp := cl_Stamp r; Status := "precleared" }}, w.2))
    (publish io "nrs.mbs.preclearance.v1").

(** ** Retries *)

(** The environment of a run: the answers of every attempt of every activity,
    whether the context ends after a failed one, what other requests do to
    the server before it, and the answers when the failure is recorded *)
Record RunEnv := mkEnv {
  io : string -> nat -> attemptIO;
  ends : string -> nat -> bool;
  other : string -> nat -> Server -> Server;
  ioFail : attemptIO;
}.

(** [rec]: a step replaces the one of its name *)
Fixpoint recStep (s : Step) (steps : list Step) : list Step :=
  match steps with
  | [] => [s]
  | x :: steps => if bool_decide (st_Name x = st_Name s) then s :: steps else x :: recStep s steps
  end.

Fixpoint retry {R} (E : RunEnv) (name : string) (act : activity R) (i rest : nat) (w : world) (steps : list Step)
  : world * list Step * outcome R :=
  match rest with
  | O => (w, steps, failed_)
  | S rest =>
      match act (io E name i) (w.1, other E name i w.2) with
      | (w, succeeds r) => (w, recStep (mkStep name (Z.of_nat i) true) steps, succeeds r)
      | (w, panicked_) => (w, steps, panicked_)
      | (w, failed_) =>
          let steps := recStep (mkStep name (Z.of_nat i) false) steps in
          if ends E name i then (w, steps, failed_) else retry E name act (S i) rest w steps
      end
  end.

(** [retryActivity], three attempts *)
Definition retryActivity {R} (E : RunEnv) (name : string) (act : activity R) := retry E name act 1 3.

(** The activities in turn, up to the first that does not succeed *)
Fixpoint sequence (E : RunEnv) (acts : list (string * activity unit)) (w : world) (steps : list Step)
  : world * list Step * outcome unit :=
  match acts with
  | [] => (w, steps, done_)
  | (name, act) :: acts =>
      match retryActivity E name act w steps with
      | (w, steps, succeeds _) => sequence E acts w steps
      | r => r
      end
  end.

Definition nrsStepCreate : string := "1-create-store".
Definition nrsSteps : list (string * activity unit) := [
  ("2-irn-generate", actIRNGen); ("3-irn-validate", actIRNValid); ("4-irn-sign", actIRNSign);
  ("5-schema-validate", actSchema); ("6-invoice-sign", actSign); ("7-transmit", actTransmit); ("8-confirm", actConfirm)].

(** [nrsFail]: the outcome of the save is not looked at *)
Definition recordFailure (io : attemptIO) (w : world) : Server := (saveInv io (w.1{{ Status := "failed" }}, w.2)).1.2.

Definition wfNRSEinvoice (E : RunEnv) (id : string) (sv : Server) : Server * list Step * outcome unit :=
  match Get id (store sv) with
  | None => (sv, [], failed_)
  | Some inv =>
      match retryActivity E nrsStepCreate (actCreate id) (inv, sv) [] with
      | (w, steps, succeeds _) =>
          match sequence E nrsSteps w steps with
          | (w, steps, failed_) => (recordFailure (ioFail E) w, steps, failed_)
          | (w, steps, r) => (w.2, steps, r)
          end
      | (w, steps, r) => (w.2, steps, r)
      end
  end.

Definition wfMBSPreclearance (E : RunEnv) (id : string) (sv : Server) : Server * list Step * outcome unit :=
  match Get id (store sv) with
  | None => (sv, [], failed_)
  | Some inv =>
      match retryActivity E "validate" actValidate (inv, sv) [] with
      | (w, steps, failed_) => (recordFailure (ioFail E) w, steps, failed_)
      | (w, steps, panicked_) => (w.2, steps, panicked_)
      | (w, steps, succeeds _) =>
          match sequence E [("csid-sign", actCSIDSign); ("ubl-map", actUBL)] w steps with
          | (w, steps, succeeds _) =>
              match retryActivity E "mbs-submit" actSubmit w steps with
              | (w, steps, succeeds r) => let '(w, steps, o) := retryActivity E "record" (actRecord r) w steps in (w.2, steps, o)
              | (w, steps, failed_) => (recordFailure (ioFail E) w, steps, failed_)
              | (w, steps, panicked_) => (w.2, steps, panicked_)
              end
          | (w, steps, o) => (w.2, steps, o)
          end
      end
  end.

(** ** The runner and the recovery *)

Definition workflow := RunEnv -> string -> Server -> Server * list Step * outcome unit.

(** [%06d] *)
Definition pad6 (n : Z) : string := if n <? 1000000 then pad 6 n else pretty n.

(** [Run]: a run that panics leaves no history.  [started], [finished]: the
    clock *)
Definition Run (name : string) (wf : workflow) (E : RunEnv) (id : string) (started finished : Z) (sv : Server)
  : Server * WorkflowRun * outcome unit :=
  let n := runSeq sv + 1 in
  let sv := mkServer (store sv) (outbox sv) (webhooks sv) (serviceIDs sv) (runs sv) n (resumeInFlight sv) in
  let '(sv, steps, o) := wf E id sv in
  let run := mkRun ("run-" +:+ name +:+ "-" +:+ pad6 n) name id steps (bool_decide (o = done_)) started finished in
  match o with
  | panicked_ => (sv, run, o)
  | _ => (mkServer (store sv) (outbox sv) (webhooks sv) (serviceIDs sv) (runs sv ++ [run]) (runSeq sv) (resumeInFlight sv), run, o)
  end.

Definition nrsInterimStatus (inv : CanonicalInvoice) : bool :=
  negb (bool_decide (NRSPayload inv = "")) && bool_decide (Status inv ∈ ["received"; "signed"; "transmitted"]).

(** [runNRSWorkflow]: [None] when another driver has the invoice *)
Definition runNRSWorkflow (E : RunEnv) (id : string) (started finished : Z) (sv : Server)
  : Server * option (WorkflowRun * outcome unit) :=
  if bool_decide (id ∈ resumeInFlight sv) then (sv, None)
  else
    let '(sv, run, o) := Run "wf-nrs-einvoice" wfNRSEinvoice E id started finished
                             (setInFlight ({[ id ]} ∪ resumeInFlight sv) sv) in
    (setInFlight (resumeInFlight sv ∖ {[ id ]}) sv, Some (run, o)).

(** [RecoverInterruptedNRS]: the invoices are those listed at the start; the
    result is the number of runs started, [None] when one of them panics *)
Fixpoint recoverAll (E : string -> RunEnv) (started finished : Z) (invs : list CanonicalInvoice) (n : nat) (sv : Server)
  : Server * option nat :=
  match invs with
  | [] => (sv, Some n)
  | inv :: invs =>
      if negb (nrsInterimStatus inv) then recoverAll E started finished invs n sv
      else match runNRSWorkflow (E (ID inv)) (ID inv) started finished sv with
           | (sv, None) => recoverAll E started finished invs n sv
           | (sv, Some (_, panicked_)) => (sv, None)
           | (sv, Some _) => recoverAll E started finished invs (S n) sv
           end
  end.

Definition RecoverInterruptedNRS (E : string -> RunEnv) (started finished : Z) (sv : Server) : Server * option nat :=
  recoverAll E started finished (List_ (store sv)) 0 sv.
End Activities.
