(* ===== verification/EinvHandlers.v ===== *)
(** * einvoicing: the handlers (services/einvoicing/main.go, nrs_handlers.go)

    Ingestion through the adapters and through the NRS schema, the update of
    the payment status, pre-clearance, the B2C report and the replay queue.  A
    request is given as decoded: [None] is a body that does not decode.  A
    handler whose result is [None] panics.  The rendered QR code of a response
    is left out. *)

From S2P Require Import Prelude StrFacts Crypto GoJson GoTime EinvModel EinvStore EinvIrn EinvWorkflow.
From S2P Require Auth EinvUbl Outbox EinvWebhooks EinvValidate EinvSchema Citation EinvApiKeys.

(** ** Access *)

(** [tenantGuard]: the problem written, when access is refused *)
Definition tenantGuard (claims : option Auth.Claims) (inv : CanonicalInvoice) : option (Z * string) :=
  match claims with
  | None => None
  | Some c =>
      if bool_decide (TenantID inv = "") || bool_decide (TenantID inv = Auth.c_TenantID c) then None
      else if bool_decide (Auth.c_TenantID c = "") then Some (403, "forbidden")
      else Some (404, "not found")
  end.

Definition tenantOf (claims : option Auth.Claims) : string := match claims with Some c => Auth.c_TenantID c | None => "" end.

Definition writeStoreConflict {A} (e : saveErr) : response A :=
  match e with
  | ErrIdempotencyPayloadConflict | ErrIdempotentReplay | ErrConflict _ => Problem 409 "conflict"
  | ErrPersist => Problem 500 "persist failed"
  end.

Section Handlers.
Context `{Crypto} (citations : Citation.CitationResolver) (keyID : string)
        (decodeNRS : string -> option EinvSchema.NRSInvoice).

(** ** The NRS lifecycle *)

Record nrsResponse := mkResponse {
  rs_invoice : CanonicalInvoice;
  rs_nrs : EinvSchema.NRSInvoice;
  rs_run : option WorkflowRun;
  rs_replay : bool;
  rs_error : bool;
}.

Definition respond (inv : CanonicalInvoice) (run : option WorkflowRun) (replay err : bool) : nrsResponse :=
  mkResponse inv (EinvSchema.ToNRS inv) run replay err.

(** The answer after a run of an invoice: [ok] when it succeeded *)
Definition afterRun (id : string) (ok : Z) (replay : bool) (run : WorkflowRun) (o : outcome unit) (sv : Server)
  : Server * option (response nrsResponse) :=
  match o, Get id (store sv) with
  | panicked_, _ | _, None => (sv, None)
  | failed_, Some stored => (sv, Some (JSON 422 (respond stored (Some run) replay true)))
  | succeeds _, Some stored => (sv, Some (JSON ok (respond stored (Some run) replay false)))
  end.

(** The answer to a request for an invoice that exists: resumed when it is
    mid-flow and nobody drives it ([resumeInterrupted]) *)
Definition replayExisting (E : RunEnv) (now : Z) (claims : option Auth.Claims) (existing : CanonicalInvoice) (sv : Server)
  : Server * option (response nrsResponse) :=
  match tenantGuard claims existing with
  | Some (code, title) => (sv, Some (Problem code title))
  | None =>
      if nrsInterimStatus existing then
        match runNRSWorkflow keyID decodeNRS E (ID existing) now now sv with
        | (sv, None) => (sv, Some (JSON 200 (respond existing None true false)))
        | (sv, Some (run, o)) => afterRun (ID existing) 200 true run o sv
        end
      else (sv, Some (JSON 200 (respond existing None true false)))
  end.

(** What a handler takes from outside: a new identifier, the date, and the
    answers for its own save and event *)
Record handlerIO := mkHandlerIO { h_id : string; h_today : string; h_io : attemptIO }.

Definition draftOf (hio : handlerIO) (claims : option Auth.Claims) (key body : string) (inv : CanonicalInvoice) : CanonicalInvoice :=
  let inv := inv{{ TenantID := tenantOf claims; IdempotencyKey := key; NRSPayload := body }} in
  let inv := Normalise citations (h_id hio) (h_today hio) inv in
  inv{{ PaymentStatus := Str.or_default (PaymentStatus inv) "PENDING" }}.

(** [body]: [None] when it is too large *)
Definition handleNRSCreate (E : RunEnv) (hio : handlerIO) (claims : option Auth.Claims) (key : string) (body : option string)
    (sv : Server) : Server * option (response nrsResponse) :=
  let now := io_now (h_io hio) in
  match body with
  | None => (sv, Some (Problem 413 "payload too large"))
  | Some body =>
      match decodeNRS body with
      | None => (sv, Some (Problem 400 "bad request"))
      | Some n =>
          match (if bool_decide (EinvSchema.n_IRN n = "") then None else GetByIRN (Str.trim_space (EinvSchema.n_IRN n)) (store sv)) with
          | Some existing => replayExisting E now claims existing sv
          | None =>
              match EinvSchema.FromNRS n with
              | Err _ => (sv, Some (Problem 422 "NRS schema validation failed"))
              | Ok inv =>
                  let '(s, inv, priorID, err) := SaveCtx (io_save (h_io hio)) now (draftOf hio claims key body inv) (store sv) in
                  let sv := setStore s sv in
                  if negb (bool_decide (priorID = "")) then
                    match err with
                    | None | Some ErrIdempotentReplay =>
                        match Get priorID s with
                        | None => (sv, None)
                        | Some prior => replayExisting E now claims prior sv
                        end
                    | Some e => (sv, Some (writeStoreConflict e))
                    end
                  else match err with
                       | Some e => (sv, Some (writeStoreConflict e))
                       | None =>
                           match runNRSWorkflow keyID decodeNRS E (ID inv) now now sv with
                           | (sv, None) =>
                               match Get (ID inv) (store sv) with
                               | None => (sv, None)
                               | Some stored => (sv, Some (JSON 202 (respond stored None false false)))
                               end
                           | (sv, Some (run, o)) => afterRun (ID inv) 201 false run o sv
                           end
                       end
              end
          end
      end
  end.

(** The keys of the body, and its two mutable fields *)
Record updateBody := mkUpdate { u_keys : list string; u_status : string; u_reference : string }.

Definition actorOf (claims : option Auth.Claims) : string := match claims with Some c => Auth.Sub c | None => "" end.

(** The update, on a body that names only mutable fields *)
Definition updated (now : Z) (claims : option Auth.Claims) (b : updateBody) (inv : CanonicalInvoice) : CanonicalInvoice :=
  let ps := if bool_decide (u_status b = "") then PaymentStatus inv else Str.to_upper (u_status b) in
  let ref := if bool_decide (u_reference b = "") then PaymentReference inv else u_reference b in
  inv{{ PaymentStatus := ps; PaymentReference := ref;
        Audit := Audit inv ++ [mkAudit (format now) "payment_status_update"
                                 ("payment_status=" +:+ ps +:+ " reference=" +:+ ref) (actorOf claims)] }}.

(** An event of a handler: its publication is not looked at *)
Definition emit (io : attemptIO) (ty : string) (inv : CanonicalInvoice) (sv : Server) : Server := (publish io ty (inv, sv)).1.2.

Definition handleNRSUpdate (hio : handlerIO) (claims : option Auth.Claims) (irn : string) (body : option updateBody) (sv : Server)
  : Server * response CanonicalInvoice :=
  let io := h_io hio in
  match GetByIRN irn (store sv) with
  | None => (sv, Problem 404 "not found")
  | Some inv =>
      match tenantGuard claims inv with
      | Some (code, title) => (sv, Problem code title)
      | None =>
          match body with
          | None => (sv, Problem 400 "bad request")
          | Some b =>
              if existsb (fun k => negb (bool_decide (k = "payment_status")) && negb (bool_decide (k = "reference"))) (u_keys b)
              then (sv, Problem 409 "field locked")
              else if bool_decide (u_status b = "") && bool_decide (u_reference b = "") then (sv, Problem 400 "bad request")
              else if negb (bool_decide (u_status b = "")) && negb (EinvSchema.ValidPaymentStatus (u_status b))
              then (sv, Problem 422 "invalid payment_status")
              else
                let '(s, inv, _, err) := SaveCtx (io_save io) (io_now io) (updated (io_now io) claims b inv) (store sv) in
                let sv := setStore s sv in
                match err with
                | Some _ => (sv, Problem 500 "persist failed")
                | None => (emit io "nrs.einvoice.payment_status.v1" inv sv, JSON 200 inv)
                end
          end
      end
  end.

(** ** Ingestion through the adapters *)

(** One invoice of a request: [inr] is the response that ends the request *)
Definition createOne (hio : handlerIO) (claims : option Auth.Claims) (adapter key : string) (inv : CanonicalInvoice) (sv : Server)
  : Server * (CanonicalInvoice + option (response (list CanonicalInvoice))) :=
  let io := h_io hio in
  let inv := Normalise citations (h_id hio) (h_today hio) inv in
  let inv := inv{{ TenantID := tenantOf claims; IdempotencyKey := key; SourceAdapter := Str.or_default (SourceAdapter inv) adapter }} in
  match EinvValidate.Validate (io_validator io) inv (IsDuplicate inv (store sv)) with
  | Err EinvValidate.vPanic => (sv, inr None)
  | Err (EinvValidate.vFails _) => (sv, inr (Some (Problem 500 "validation error")))
  | Ok (violations, fatal) =>
      let inv := inv{{ Validation := violations; Status := (if fatal then "failed" else "validated") }} in
      let '(s, inv, priorID, err) := SaveCtx (io_save io) (io_now io) inv (store sv) in
      let sv := setStore s sv in
      if negb (bool_decide (priorID = "")) then
        match err with
        | None | Some ErrIdempotentReplay => (sv, inr (Some (JSON 200 (from_option (fun i => [i]) [] (Get priorID s)))))
        | Some e => (sv, inr (Some (writeStoreConflict e)))
        end
      else match err with
           | Some e => (sv, inr (Some (writeStoreConflict e)))
           | None => (emit io "nrs.mbs.invoice.received.v1" inv sv, inl inv)
           end
  end.

(** [hios]: what each invoice of the request takes from outside *)
Fixpoint createAll (claims : option Auth.Claims) (adapter key : string) (invs : list (handlerIO * CanonicalInvoice))
    (created : list CanonicalInvoice) (sv : Server) : Server * option (response (list CanonicalInvoice)) :=
  match invs with
  | [] => (sv, Some (JSON 201 created))
  | (hio, inv) :: invs =>
      match createOne hio claims adapter key inv sv with
      | (sv, inl inv) => createAll claims adapter key invs (created ++ [inv]) sv
      | (sv, inr r) => (sv, r)
      end
  end.

(** [adapter]: the name of the adapter, [None] when there is none; [parsed]:
    what it makes of the body *)
Definition handleCreateInvoice (claims : option Auth.Claims) (key : string) (body : option string) (adapter : option string)
    (parsed : option (list (handlerIO * CanonicalInvoice))) (sv : Server) : Server * option (response (list CanonicalInvoice)) :=
  match body, adapter, parsed with
  | None, _, _ => (sv, Some (Problem 413 "payload too large"))
  | _, None, _ => (sv, Some (Problem 400 "bad adapter"))
  | _, _, None => (sv, Some (Problem 422 "parse failed"))
  | Some _, Some adapter, Some invs => createAll claims adapter key invs [] sv
  end.

(** ** Reads, pre-clearance and reports *)

(** [format]: the query parameter; the document as text for [ubl] *)
Definition handleGetInvoice (claims : option Auth.Claims) (id format : string) (sv : Server) : response (CanonicalInvoice + string) :=
  match Get id (store sv) with
  | None => Problem 404 "not found"
  | Some inv => match tenantGuard claims inv with
                | Some (code, title) => Problem code title
                | None => if bool_decide (format = "ubl") then JSON 200 (inr (EinvUbl.GenerateUBL inv)) else JSON 200 (inl inv)
                end
  end.

Definition handlePreclear (E : RunEnv) (now : Z) (claims : option Auth.Claims) (id : string) (sv : Server)
  : Server * option (response (WorkflowRun * option CanonicalInvoice)) :=
  match Get id (store sv) with
  | None => (sv, Some (Problem 404 "not found"))
  | Some inv =>
      match tenantGuard claims inv with
      | Some (code, title) => (sv, Some (Problem code title))
      | None =>
          match Run "wf-mbs-preclearance" (wfMBSPreclearance keyID) E id now now sv with
          | (sv, _, panicked_) => (sv, None)
          | (sv, run, failed_) => (sv, Some (JSON 422 (run, None)))
          | (sv, run, succeeds _) => (sv, Some (JSON 200 (run, Get id (store sv))))
          end
      end
  end.

(** The request names an invoice or carries one. *)
Inductive b2cRequest := b2cStored (id : string) | b2cCarried (inv : CanonicalInvoice) | b2cNothing.

Definition b2cInvoice (hio : handlerIO) (claims : option Auth.Claims) (req : b2cRequest) (sv : Server)
  : Server * result (Z * string) CanonicalInvoice :=
  match req with
  | b2cNothing => (sv, Err (400, "bad request"))
  | b2cStored id =>
      match Get id (store sv) with
      | None => (sv, Err (404, "not found"))
      | Some inv => (sv, match tenantGuard claims inv with Some p => Err p | None => Ok inv end)
      end
  | b2cCarried inv =>
      let inv := Normalise citations (h_id hio) (h_today hio) inv in
      let inv := inv{{ InvoiceType := "B2C"; TenantID := (match claims with Some c => Auth.c_TenantID c | None => TenantID inv end);
                       Status := Str.or_default (Status inv) "received" }} in
      let '(s, inv, _, err) := SaveCtx (io_save (h_io hio)) (io_now (h_io hio)) inv (store sv) in
      (setStore s sv, match err with Some _ => Err (500, "persist failed") | None => Ok inv end)
  end.

(** [report]: the answer of the rail; [io2]: the answers for the last save *)
Definition handleB2CReport (hio : handlerIO) (io2 : attemptIO) (report : CanonicalInvoice -> option B2CReportReceipt)
    (claims : option Auth.Claims) (body : option b2cRequest) (sv : Server) : Server * response B2CReportReceipt :=
  match body with
  | None => (sv, Problem 400 "bad request")
  | Some req =>
      match b2cInvoice hio claims req sv with
      | (sv, Err (code, title)) => (sv, Problem code title)
      | (sv, Ok inv) =>
          let inv := inv{{ InvoiceType := "B2C" }} in
          match report inv with
          | None => (sv, Problem 502 "mbs report failed")
          | Some receipt =>
              let '(inv, sv) := (saveInv io2 (inv{{ Status := "reported" }}, sv)).1 in
              (emit io2 "nrs.mbs.b2c.report.v1" inv sv, JSON 200 receipt)
          end
      end
  end.

(** ** The replay queue *)

Definition handleReplayList (status : string) (sv : Server) : response (list Outbox.OutboxRow) :=
  let rows := Outbox.Rows (outbox sv) in
  JSON 200 (if bool_decide (status = "") then rows
            else List.filter (fun r => bool_decide (Outbox.r_Status r = status)) rows).

(** [seq]: the number of the path, [None] when it does not parse *)
Definition handleReplayOne (io : Outbox.appendIO) (seq : option Z) (sv : Server) : Server * response (Z * string) :=
  match seq with
  | None => (sv, Problem 400 "bad seq")
  | Some n =>
      match List.find (fun r => bool_decide (Outbox.Seq r = n)) (Outbox.Rows (outbox sv)) with
      | None => (sv, Problem 404 "not found")
      | Some r =>
          let '(o, ok) := Outbox.Mark io n "pending" (Outbox.Attempts r +! 1) (outbox sv) in
          (setOutbox o sv, if ok then JSON 200 (n, Outbox.Topic r) else Problem 500 "mark failed")
      end
  end.

(** ** Webhooks *)

(** [req]: business, URL and secret *)
Definition handleWebhookRegister (env : EinvWebhooks.WebhookEnv) (parse : string -> option (string * string))
    (resolve : string -> option (list (list Z))) (now : Z) (claims : option Auth.Claims) (req : option (string * string * string))
    (sv : Server) : Server * response string :=
  match EinvApiKeys.requireSelfService claims with
  | Err (code, title) => (sv, Problem code title)
  | Ok c =>
      match req with
      | None => (sv, Problem 400 "bad request")
      | Some (business, url, secret) =>
          if existsb (fun inv => bool_decide (BusinessID inv = business) && negb (bool_decide (TenantID inv = "")) &&
                                 negb (bool_decide (TenantID inv = Auth.c_TenantID c))) (List_ (store sv))
          then (sv, Problem 403 "forbidden")
          else match EinvWebhooks.Register env parse resolve business (Auth.c_TenantID c) url secret now (webhooks sv) with
               | (w, None) => (setWebhooks w sv, JSON 201 url)
               | (w, Some EinvWebhooks.errOwned) => (setWebhooks w sv, Problem 403 "webhook registration failed")
               | (w, Some _) => (setWebhooks w sv, Problem 422 "webhook registration failed")
               end
      end
  end.

Definition handleWebhookList (claims : option Auth.Claims) (business : string) (sv : Server)
  : response (list EinvWebhooks.WebhookEndpoint * list EinvWebhooks.WebhookDelivery) :=
  match claims with
  | None => Problem 401 "unauthorized"
  | Some c =>
      if bool_decide (Auth.Sub c = "") then Problem 401 "unauthorized"
      else
        let owner := EinvWebhooks.Owner business (webhooks sv) in
        if negb (bool_decide (business = "")) && negb (bool_decide (owner = "")) && negb (bool_decide (owner = Auth.c_TenantID c))
        then Problem 403 "forbidden"
        else if bool_decide (Auth.c_TenantID c = "") then Problem 403 "forbidden"
        else JSON 200 (EinvWebhooks.endpointsOf business (webhooks sv), EinvWebhooks.DeliveriesFor (Auth.c_TenantID c) (webhooks sv))
  end.
End Handlers.
