(* ===== verification/EinvNrsProps.v ===== *)
(** * einvoicing: properties of the workflows

    What a confirmed invoice is guaranteed to be, whatever fails and whatever
    other requests do meanwhile; that a run in a working environment confirms;
    and what becomes of the identifiers of duplicates. *)

From S2P Require Import Prelude StrFacts Crypto GoJson GoTime EinvModel EinvStore EinvIrn EinvWorkflow EinvHandlers.
From S2P Require Auth Outbox EinvWebhooks EinvValidate EinvSchema Citation.

Section Props.
Context `{Crypto} (keyID : string) (decodeNRS : string -> option EinvSchema.NRSInvoice).

(** ** Retries *)

(** What every attempt keeps of the invoice, and what the last one gives *)
Lemma retry_spec {R} E name (act : activity R) (I : CanonicalInvoice -> Prop) (Q : world -> R -> Prop) i rest w steps :
  (forall n w, I w.1 -> match act (io E name n) w with (w', succeeds r) => Q w' r | (w', _) => I w'.1 end) ->
  I w.1 ->
  match retry E name act i rest w steps with (w', _, succeeds r) => Q w' r | (w', _, _) => I w'.1 end.
Proof.
  intros Hact. revert i w steps. induction rest as [|rest IH]; intros i w steps Hw; [done|]. cbn [retry].
  specialize (Hact i (w.1, other E name i w.2) Hw). destruct (act _ _) as [w' [r| |]]; [done| |done].
  destruct (ends E name i); [done|]. by apply IH.
Qed.

(** ** What the steps keep *)

(** The parts of the invoice no step may change *)
Record kept (inv0 inv : CanonicalInvoice) : Prop := {
  k_core : coreFields inv = coreFields inv0;
  k_id : ID inv = ID inv0;
  k_irn : IRN inv0 <> "" -> IRN inv = IRN inv0;
  k_payload : NRSPayload inv = NRSPayload inv0;
  k_tenant : TenantID inv = TenantID inv0;
  k_idem : IdempotencyKey inv = IdempotencyKey inv0;
  k_business : BusinessID inv = BusinessID inv0;
}.

Definition irnMatches (inv : CanonicalInvoice) : Prop :=
  exists ds, ParseIRN (IRN inv) = Ok (InvoiceNumber inv, ServiceID inv, ds) /\ DateStamp (IssueDate inv) = Ok ds.

Definition irnSigned (E : RunEnv) (inv : CanonicalInvoice) : Prop :=
  exists n sig at_, Stamp inv = Some (mkStamp "ed25519" keyID (IRN inv) (signaturePayload inv) sig at_) /\
    io_sign (io E "4-irn-sign" n) (signaturePayload inv) = Some sig.

Definition schemaPassed (inv : CanonicalInvoice) : Prop :=
  payloadValid decodeNRS (NRSPayload inv) = true /\ existsb EinvValidate.isFatal (Validation inv) = false.

(** The fields these look at *)
Definition locked (inv : CanonicalInvoice) :=
  (coreFields inv, ID inv, IRN inv, NRSPayload inv, TenantID inv, IdempotencyKey inv, BusinessID inv,
   (ServiceID inv, Stamp inv, Validation inv, SignedCoreHash inv)).

Lemma locked_parts a b : locked a = locked b ->
  coreFields a = coreFields b /\ ID a = ID b /\ IRN a = IRN b /\ NRSPayload a = NRSPayload b /\ TenantID a = TenantID b /\
  IdempotencyKey a = IdempotencyKey b /\ BusinessID a = BusinessID b /\ ServiceID a = ServiceID b /\ Stamp a = Stamp b /\
  Validation a = Validation b /\ SignedCoreHash a = SignedCoreHash b.
Proof. unfold locked. intros E. repeat split; congruence. Qed.

Lemma core_parts a b : coreFields a = coreFields b ->
  InvoiceNumber a = InvoiceNumber b /\ IssueDate a = IssueDate b /\ Supplier a = Supplier b /\ PayableKobo a = PayableKobo b.
Proof. unfold coreFields. intros E. repeat split; congruence. Qed.

Lemma core_hash_eq a b : coreFields a = coreFields b -> CoreHash a = CoreHash b.
Proof. unfold coreFields, CoreHash, core_json. intros E. injection E as E1 E2 E3 E4 E5 E6 E7 E8 E9 E10 E11. congruence. Qed.

Lemma signature_eq a b : coreFields a = coreFields b -> IRN a = IRN b -> signaturePayload a = signaturePayload b.
Proof.
  unfold coreFields, signaturePayload, Hash, hash_json. intros E Hi. injection E as E1 E2 E3 E4 E5 E6 E7 E8 E9 E10 E11. congruence.
Qed.

(** The stages of an invoice on its way *)
Record signed (E : RunEnv) (inv0 inv : CanonicalInvoice) : Prop := {
  sg_kept : kept inv0 inv;
  sg_irn : irnMatches inv;
  sg_stamp : irnSigned E inv;
  sg_schema : schemaPassed inv;
  sg_lock : SignedCoreHash inv = CoreHash inv;
}.

Lemma kept_locked inv0 a b : locked a = locked b -> kept inv0 a -> kept inv0 b.
Proof.
  intros (? & ? & ? & ? & ? & ? & ? & _)%locked_parts []. constructor; try congruence.
  intros Hi. rewrite <- k_irn0 by done. congruence.
Qed.

Lemma signed_locked E inv0 a b : locked a = locked b -> signed E inv0 a -> signed E inv0 b.
Proof.
  intros El [Hk (ds & Hp & Hd) (n & sig & t & Hs & Hio) [Hpay Hv] Hl]. split; [by eapply kept_locked|..];
    apply locked_parts in El as (Ec & Ei & Eirn & Epay & Et & Eid & Eb & Es & Est & Ev & Eh).
  - exists ds. apply core_parts in Ec as (? & ? & _). split; congruence.
  - exists n, sig, t. rewrite <- (signature_eq a b) by done. split; [|done]. congruence.
  - split; congruence.
  - rewrite <- (core_hash_eq a b) by done. congruence.
Qed.

(** ** The store *)

Lemma saveInv_spec io w :
  let '(w', o) := saveInv io w in
  locked w'.1 = locked w.1 /\ Status w'.1 = Status w.1 /\ outbox w'.2 = outbox w.2 /\
  match o with
  | succeeds _ => Get (ID w.1) (store w'.2) = Some w'.1
  | failed_ => True
  | panicked_ => False
  end.
Proof.
  destruct w as [inv sv]. unfold saveInv, SaveCtx. cbn [fst snd].
  destruct (replayed _ _ _) as [[id e]|]; [by cbn|]. destruct (negb (logWritten _)); [by destruct inv|].
  destruct (match hasPG _ with true => _ | false => _ end); [|destruct (pgConflict _ _ _); by destruct inv|by destruct inv].
  cbn. split; [by destruct inv|]. split; [by destruct inv|]. split; [done|]. unfold Get, index. cbn.
  destruct inv. cbn. apply lookup_insert_eq.
Qed.

Lemma publish_spec io ty w :
  let '(w', o) := publish io ty w in
  w'.1 = w.1 /\ store w'.2 = store w.2 /\
  match o with
  | succeeds _ => exists row, row ∈ Outbox.rowLog (outbox w'.2) /\ Outbox.Topic row = ty /\ Outbox.r_Status row = "pending" /\
                    Outbox.r_Envelope row = newInvoiceEvent io ty w.1
  | failed_ => True
  | panicked_ => False
  end.
Proof.
  unfold publish, Outbox.Publish, Outbox.appendLocked. destruct (negb _); [done|]. cbn.
  destruct (Outbox.synced _); [|done]. split; [done|]. split; [done|]. eexists.
  split; [apply elem_of_app; right; by apply list_elem_of_singleton|done].
Qed.

(** ** The steps *)

Lemma step_irngen io w inv0 :
  kept inv0 w.1 -> match actIRNGen io w with (w', succeeds _) => kept inv0 w'.1 | (w', _) => kept inv0 w'.1 end.
Proof.
  destruct w as [inv sv]. intros Hk. unfold actIRNGen. cbn [fst] in Hk.
  destruct (bool_decide (IRN inv = "")) eqn:Ei; cbn [negb]; [|done]. bools.
  destruct (GetOrAssign _ _ _) as [ids [sid|e]]; [|done]. destruct (BuildIRN _ _ _) as [irn|e]; [|done].
  cbn [fst]. destruct Hk as [Hc Hid Hirn Hp Ht Hi Hb]. constructor; try (by destruct inv).
  intros Hne. specialize (Hirn Hne). congruence.
Qed.

Lemma step_irnvalid io w inv0 :
  kept inv0 w.1 ->
  match actIRNValid io w with
  | (w', succeeds _) => kept inv0 w'.1 /\ irnMatches w'.1
  | (w', _) => kept inv0 w'.1
  end.
Proof.
  destruct w as [inv sv]. intros Hk. unfold actIRNValid. cbn [fst] in Hk.
  destruct (ParseIRN (IRN inv)) as [[[num sid] ds]|] eqn:Ep; [|done].
  destruct (negb (bool_decide (num = _))) eqn:En; [done|]. destruct (negb (bool_decide (ds = _))) eqn:Ed; [done|].
  destruct (negb (ValidServiceID sid)); [done|]. destruct (match GetByIRN _ _ with Some _ => _ | None => _ end); [done|].
  cbn [fst]. split; [destruct Hk; constructor; by destruct inv|]. bools. subst num.
  assert (Hds : ds <> "").
  { unfold ParseIRN in Ep. destruct (lastHyphen _) as [[rest d]|] eqn:El; [|done]. destruct (lastHyphen rest) as [[x y]|]; [|done].
    destruct (negb _); [done|]. destruct (DateStamp d); [|done]. cbn in Ep. injection Ep as _ _ <-.
    unfold lastHyphen in El. destruct (Str.cut_last _ _) as [[? ?]|]; [|done]. destruct (_ || _) eqn:Eb; [done|].
    injection El as <- <-. by bools. }
  destruct (DateStamp (IssueDate inv)) as [d|] eqn:Edd; [|done]. cbn in Ed. subst d.
  exists ds. destruct inv; cbn in *. by split.
Qed.

Lemma step_irnsign E n w inv0 :
  kept inv0 w.1 /\ irnMatches w.1 ->
  match actIRNSign keyID (io E "4-irn-sign" n) w with
  | (w', succeeds _) => kept inv0 w'.1 /\ irnMatches w'.1 /\ irnSigned E w'.1
  | (w', _) => kept inv0 w'.1 /\ irnMatches w'.1
  end.
Proof.
  destruct w as [inv sv]. intros [Hk Hm]. unfold actIRNSign. cbn [fst] in *.
  destruct (io_sign _ _) as [sig|] eqn:Es; [|done]. cbn [fst]. split; [destruct Hk; constructor; by destruct inv|].
  split; [destruct Hm as (ds & ? & ?); exists ds; by destruct inv|]. exists n, sig, (format (io_now (io E "4-irn-sign" n))).
  by destruct inv.
Qed.

Lemma runPacks_spec io dup w :
  match runPacks io dup w with
  | (w', succeeds _) => existsb EinvValidate.isFatal (Validation w'.1) = false /\ w'.2 = w.2 /\ exists vs, w'.1 = w.1{{ Validation := vs }}
  | (w', _) => w' = w \/ exists vs, w' = (w.1{{ Validation := vs }}, w.2)
  end.
Proof.
  destruct w as [inv sv]. unfold runPacks. destruct (EinvValidate.Validate _ _ _) as [[vs fatal]|[|p]] eqn:Ev; [|by left|by left].
  assert (Hf : fatal = existsb EinvValidate.isFatal vs).
  { unfold EinvValidate.Validate in Ev. destruct (EinvValidate.RuleContext _ _); [|done]. destruct (vs ← _; _); [|done].
    destruct (EinvValidate.enforceMBSRules _ _); [|done]. by injection Ev as <- <-. }
  destruct fatal; [right; by exists vs|]. cbn. split; [by destruct inv|]. split; [done|]. by exists vs.
Qed.

Definition irnDone (E : RunEnv) (inv0 inv : CanonicalInvoice) : Prop := kept inv0 inv /\ irnMatches inv /\ irnSigned E inv.

Lemma irnDone_validation E inv0 inv vs : irnDone E inv0 inv -> irnDone E inv0 (inv{{ Validation := vs }}).
Proof.
  intros (Hk & (ds & ? & ?) & (n & sig & t & ? & ?)). split; [destruct Hk; constructor; by destruct inv|].
  split; [exists ds; by destruct inv|]. exists n, sig, t. by destruct inv.
Qed.

Lemma step_schema E io w inv0 :
  irnDone E inv0 w.1 ->
  match actSchema decodeNRS io w with
  | (w', succeeds _) => irnDone E inv0 w'.1 /\ schemaPassed w'.1
  | (w', _) => irnDone E inv0 w'.1
  end.
Proof.
  intros Hd. unfold actSchema. destruct (payloadValid _ _) eqn:Ep; cbn [negb]; [|done].
  pose proof (runPacks_spec io false w) as Hr. destruct (runPacks io false w) as [w' [u| |]].
  - destruct Hr as (Hv & _ & vs & E'). rewrite E'. split; [by apply irnDone_validation|]. split; [by destruct (w.1)|].
    by rewrite <- E'.
  - destruct Hr as [->|[vs ->]]; [done|]. by apply irnDone_validation.
  - destruct Hr as [->|[vs ->]]; [done|]. by apply irnDone_validation.
Qed.

Lemma step_sign E io w inv0 :
  irnDone E inv0 w.1 /\ schemaPassed w.1 ->
  match actSign keyID io w with
  | (w', succeeds _) => signed E inv0 w'.1
  | (w', _) => irnDone E inv0 w'.1 /\ schemaPassed w'.1
  end.
Proof.
  destruct w as [inv sv]. cbn [fst]. intros [(Hk & Hm & Hs) Hp]. unfold actSign. cbn [fst snd].
  set (i1 := (SignInvoice keyID io inv).1). set (i2 := i1{{ SignedCoreHash := CoreHash i1; Status := "signed" }}).
  assert (H1 : locked i1 = locked inv) by (unfold i1, SignInvoice; destruct (io_sign _ _); [by destruct inv|done]).
  assert (Hg : signed E inv0 i2).
  { apply locked_parts in H1 as (Ec & Ei & Eirn & Epay & Et & Eid & Eb & Esv & Est & Ev & _).
    assert (P : coreFields i2 = coreFields inv /\ IRN i2 = IRN inv /\ ServiceID i2 = ServiceID inv /\ Stamp i2 = Stamp inv /\
                NRSPayload i2 = NRSPayload inv /\ Validation i2 = Validation inv).
    { rewrite <- Ec, <- Eirn, <- Esv, <- Est, <- Epay, <- Ev. unfold i2. generalize i1. clear. intros []. done. }
    destruct P as (P1 & P2 & P3 & P4 & P5 & P6). constructor.
    - destruct Hk. constructor; try (unfold i2; destruct i1; cbn in *; congruence).
      intros Hne. rewrite P2. auto.
    - destruct Hm as (ds & ? & ?). exists ds. apply core_parts in P1 as (? & ? & _). split; congruence.
    - destruct Hs as (n & sig & t & ? & ?). exists n, sig, t. rewrite (signature_eq i2 inv) by done. split; [congruence|done].
    - destruct Hp. split; congruence.
    - unfold i2. by destruct i1. }
  pose proof (saveInv_spec io (i2, sv)) as Hsv. destruct (saveInv io (i2, sv)) as [w' o]. cbn [fst snd] in Hsv.
  destruct Hsv as (Hl & _). symmetry in Hl.
  assert (Hg' : signed E inv0 w'.1) by (by eapply signed_locked). destruct o; [done| |]; destruct Hg' as [? ? ? ? ?]; (split; [by split|done]).
Qed.

Lemma step_transmit E io w inv0 :
  signed E inv0 w.1 ->
  match actTransmit io w with (w', succeeds _) => signed E inv0 w'.1 | (w', _) => signed E inv0 w'.1 end.
Proof.
  destruct w as [inv sv]. cbn [fst]. intros Hg. unfold actTransmit. destruct (EinvWebhooks.Notify _ _ _ _ _) as [hooks ok].
  destruct ok; cbn [negb]; [|done]. unfold andThen.
  pose proof (publish_spec io "nrs.einvoice.transmitted.v1" (inv, setWebhooks hooks sv)) as Hp.
  destruct (publish _ _ _) as [[i1 sv1] [u| |]]; destruct Hp as (Ei & _); cbn [fst snd] in *; subst i1; [|done..].
  pose proof (saveInv_spec io (inv{{ Status := "transmitted" }}, sv1)) as Hs. destruct (saveInv _ _) as [w' o]. destruct Hs as (Hl & _).
  assert (signed E inv0 w'.1).
  { eapply signed_locked; [|exact Hg]. rewrite Hl. by destruct inv. }
  by destruct o.
Qed.

(** What a confirmation leaves *)
Definition confirmedIn (E : RunEnv) (inv0 : CanonicalInvoice) (sv : Server) : Prop :=
  exists inv, Get (ID inv0) (store sv) = Some inv /\ Status inv = "confirmed" /\ signed E inv0 inv /\
    exists row, row ∈ Outbox.rowLog (outbox sv) /\ Outbox.Topic row = "nrs.einvoice.confirmed.v1" /\
      Outbox.r_Status row = "pending" /\ exists io, Outbox.r_Envelope row = newInvoiceEvent io "nrs.einvoice.confirmed.v1" inv.

Lemma step_confirm E io w inv0 :
  signed E inv0 w.1 ->
  match actConfirm io w with (w', succeeds _) => confirmedIn E inv0 w'.2 | (w', _) => signed E inv0 w'.1 end.
Proof.
  destruct w as [inv sv]. cbn [fst]. intros Hg. unfold actConfirm. destruct (Get (ID inv) (store sv)) as [stored|]; [|done].
  destruct (negb _); [done|]. destruct (negb _); [done|]. destruct (negb _); [done|]. unfold andThen.
  set (ic := inv{{ Status := "confirmed" }}). assert (Hc : locked ic = locked inv) by (unfold ic; by destruct inv).
  pose proof (saveInv_spec io (ic, sv)) as Hs. destruct (saveInv _ _) as [[i1 sv1] o]. cbn [fst snd] in Hs.
  destruct Hs as (Hl & Hst & _ & Hget).
  assert (Hg1 : signed E inv0 i1) by (eapply signed_locked; [|exact Hg]; congruence).
  destruct o as [u| |]; [|done..]. cbn [fst snd].
  pose proof (publish_spec io "nrs.einvoice.confirmed.v1" (i1, sv1)) as Hp. destruct (publish _ _ _) as [[i2 sv2] o].
  cbn [fst snd] in Hp. destruct Hp as (-> & Es & Hrow). destruct o as [u'| |]; cbn [fst snd]; [|done..].
  exists i1. rewrite Es. destruct Hrow as (row & ? & ? & ? & ?).
  assert (HID : ID ic = ID inv0).
  { rewrite <- (k_id _ _ (sg_kept _ _ _ Hg)). unfold ic. by destruct inv. }
  rewrite <- HID. split; [done|]. split; [rewrite Hst; unfold ic; by destruct inv|]. split; [done|].
  exists row. repeat split; try done. by exists io.
Qed.

(** ** A confirmed run *)

Lemma retryActivity_spec {R} E name (act : activity R) (I : CanonicalInvoice -> Prop) (Q : world -> R -> Prop) w steps :
  (forall n w, I w.1 -> match act (io E name n) w with (w', succeeds r) => Q w' r | (w', _) => I w'.1 end) ->
  I w.1 ->
  forall w' steps' r, retryActivity E name act w steps = (w', steps', succeeds r) -> Q w' r.
Proof. intros Ha Hi w' st r Er. pose proof (retry_spec E name act I Q 1 3 w steps Ha Hi) as P. unfold retryActivity in Er. by rewrite Er in P. Qed.

Lemma sequence_inv E name act acts w steps w' steps' :
  sequence E ((name, act) :: acts) w steps = (w', steps', done_) ->
  exists w1 s1, retryActivity E name act w steps = (w1, s1, done_) /\ sequence E acts w1 s1 = (w', steps', done_).
Proof. cbn [sequence]. destruct (retryActivity _ _ _ _ _) as [[w1 s1] [[]| |]]; [|done..]. intros Hs. by exists w1, s1. Qed.

Lemma kept_refl inv : kept inv inv.
Proof. by split. Qed.

(** C10: Whatever fails on the way and whatever other requests do between the
    attempts: a run of the eight steps that reports success leaves, under the
    invoice's identifier, an invoice of status confirmed with the same core
    fields, tenant and payload it started from, whose reference number parses
    to its number, service identifier and date, whose stamp carries the
    signer's signature over that number and the invoice's hash, whose payload
    passes the NRS schema and whose packs found nothing fatal, whose locked
    core hash is its own - and a pending confirmation event about exactly that
    invoice is in the outbox. *)
Theorem nrs_confirmed_sound E id sv sv' steps inv0 :
  wfNRSEinvoice keyID decodeNRS E id sv = (sv', steps, done_) -> Get id (store sv) = Some inv0 -> confirmedIn E inv0 sv'.
Proof.
  intros Hw Hg. unfold wfNRSEinvoice in Hw. rewrite Hg in Hw.
  destruct (retryActivity E nrsStepCreate _ _ _) as [[w0 s0] [[]| |]] eqn:E1; [|done..].
  assert (H1 : kept inv0 w0.1).
  { refine (retryActivity_spec E _ (actCreate id) (kept inv0) (fun w _ => kept inv0 w.1) _ _ _ (kept_refl inv0 : kept inv0 (inv0, sv).1) _ _ _ E1).
    intros n w Hk. unfold actCreate. by destruct (Get id (store w.2)). }
  destruct (sequence E _ w0 s0) as [[w1 s1] [[]| |]] eqn:E2; [|done..]. injection Hw as <- <-.
  apply sequence_inv in E2 as (wa & sa & Ea & E2).
  eapply (retryActivity_spec _ _ _ _ (fun w _ => kept inv0 w.1)) in Ea; [|intros n w; apply step_irngen|done].
  apply sequence_inv in E2 as (wb & sb & Eb & E2).
  eapply (retryActivity_spec _ _ _ _ (fun w _ => kept inv0 w.1 /\ irnMatches w.1)) in Eb; [|intros n w; apply step_irnvalid|done].
  apply sequence_inv in E2 as (wc & sc & Ec & E2).
  eapply (retryActivity_spec _ _ _ (fun i => kept inv0 i /\ irnMatches i) (fun w _ => irnDone E inv0 w.1)) in Ec; [|intros n w; apply step_irnsign|done].
  apply sequence_inv in E2 as (wd & sd & Ed & E2).
  eapply (retryActivity_spec _ _ _ _ (fun w _ => irnDone E inv0 w.1 /\ schemaPassed w.1)) in Ed; [|intros n w; apply step_schema|done].
  apply sequence_inv in E2 as (we & se & Ee & E2).
  eapply (retryActivity_spec _ _ _ (fun i => irnDone E inv0 i /\ schemaPassed i) (fun w _ => signed E inv0 w.1)) in Ee; [|intros n w; apply step_sign|done].
  apply sequence_inv in E2 as (wf & sf & Ef & E2).
  eapply (retryActivity_spec _ _ _ _ (fun w _ => signed E inv0 w.1)) in Ef; [|intros n w; apply step_transmit|done].
  apply sequence_inv in E2 as (wg & sg & Eg & E2).
  eapply (retryActivity_spec _ _ _ _ (fun w _ => confirmedIn E inv0 w.2)) in Eg; [|intros n w; apply step_confirm|done].
  by injection E2 as <- <-.
Qed.

(** ** A run in a working environment *)

(** A save the replay window does not answer *)
Definition unreplayed (inv : CanonicalInvoice) (s : InvoiceStore) : Prop :=
  IdempotencyKey inv = "" \/ byIdemKey s !! idemKey inv = None \/ byIdemKey s !! idemKey inv = Some (ID inv).

Lemma unreplayed_none now inv s : unreplayed inv s -> replayed now inv s = None.
Proof.
  unfold unreplayed, replayed. intros [->|[->| ->]]; [done|..]; destruct (bool_decide (IdempotencyKey inv = "")); try done.
  by rewrite bool_decide_eq_true_2.
Qed.

Lemma save_good io inv sv : io_save io = allGood -> unreplayed inv (store sv) ->
  exists s inv', saveInv io (inv, sv) = ((inv', setStore s sv), done_) /\ inv' = stamped (io_now io) inv /\
    Get (ID inv) s = Some inv' /\ unreplayed inv' s /\ (IRN inv <> "" -> byIRN s !! IRN inv = Some (ID inv)) /\
    (forall id, id <> ID inv -> Get id s = Get id (store sv)).
Proof.
  intros Hio Hu. unfold saveInv, SaveCtx. cbn [fst snd]. rewrite unreplayed_none by done. rewrite Hio. cbn [allGood logWritten negb hasPG pgPut].
  replace (if hasPG (store sv) then pgOk else pgOk) with pgOk by by destruct (hasPG (store sv)). cbn [negb].
  eexists _, _. split; [reflexivity|]. split; [done|].
  split; [unfold Get, index; cbn; destruct inv; cbn; apply lookup_insert_eq|].
  split; [|split; [|intros id Hid; unfold Get, index; destruct inv; cbn in *; by apply lookup_insert_ne]].
  - unfold unreplayed, index. cbn [byIdemKey]. destruct (bool_decide (IdempotencyKey (stamped (io_now io) inv) = "")) eqn:E; bools; [by left|].
    right. right. destruct inv; cbn in *. apply lookup_insert_eq.
  - intros Hi. unfold index. cbn [byIRN]. rewrite bool_decide_eq_false_2 by by destruct inv. destruct inv; cbn in *. apply lookup_insert_eq.
Qed.

(** Outside the process all is well, and nobody else drives the invoice *)
Record working (E : RunEnv) (v : EinvValidate.Validator) (business : string) (sv : Server) : Prop := {
  wk_other : forall name n sv, other E name n sv = sv;
  wk_sign : forall name n p, is_Some (io_sign (io E name n) p);
  wk_validator : forall name n, io_validator (io E name n) = v;
  wk_save : forall name n, io_save (io E name n) = allGood;
  wk_publish : forall name n, io_publish (io E name n) = Outbox.diskOk;
  wk_sink : forall name n event body hooks, EinvWebhooks.byBusiness hooks = EinvWebhooks.byBusiness (webhooks sv) ->
    (EinvWebhooks.Notify (io_sink (io E name n)) business event body hooks).2 = true;
}.

(** An invoice at any point of its way - with a reference number already or
    not - that nothing about itself keeps from being confirmed: [irn] is the
    number of service [sid], nobody else's; the payload and the packs pass *)
Record ready (E : RunEnv) (v : EinvValidate.Validator) (sid irn : string) (inv : CanonicalInvoice) (sv : Server) : Prop := {
  rd_held : Get (ID inv) (store sv) = Some inv;
  rd_number : Str.trim_space (InvoiceNumber inv) = InvoiceNumber inv;
  rd_built : BuildIRN (InvoiceNumber inv) sid (IssueDate inv) = Ok irn;
  rd_irn : IRN inv = irn \/
    (IRN inv = "" /\ (GetOrAssign (BusinessID inv) (io_rand (io E "2-irn-generate" 1)) (serviceIDs sv)).2 = Ok sid);
  rd_free : forall e, GetByIRN irn (store sv) = Some e -> ID e = ID inv;
  rd_key : unreplayed inv (store sv);
  rd_payload : payloadValid decodeNRS (NRSPayload inv) = true;
  rd_packs : exists vs, EinvValidate.Validate v inv false = Ok (vs, false);
}.

Lemma retry_first {R} E name (act : activity R) inv sv steps w' r :
  (forall n sv, other E name n sv = sv) -> act (io E name 1) (inv, sv) = (w', succeeds r) ->
  retryActivity E name act (inv, sv) steps = (w', recStep (mkStep name 1 true) steps, succeeds r).
Proof. intros Ho Ha. unfold retryActivity. cbn [retry fst snd]. by rewrite Ho, Ha. Qed.

Lemma sequence_first E name act acts inv sv steps w' :
  (forall n sv, other E name n sv = sv) -> act (io E name 1) (inv, sv) = (w', done_) ->
  sequence E ((name, act) :: acts) (inv, sv) steps = sequence E acts w' (recStep (mkStep name 1 true) steps).
Proof. intros Ho Ha. cbn [sequence]. by rewrite (retry_first E name act inv sv steps w' tt). Qed.

Lemma publish_good io ty inv sv : io_publish io = Outbox.diskOk ->
  exists o, publish io ty (inv, sv) = ((inv, setOutbox o sv), done_).
Proof. intros Hp. unfold publish, Outbox.Publish, Outbox.appendLocked. rewrite Hp. cbn. by eexists. Qed.

(** What the packs read of an invoice *)
Definition packView (inv : CanonicalInvoice) :=
  (InvoiceNumber inv, IssueDate inv, Currency inv, InvoiceType inv, Supplier inv, Customer inv, (PayableKobo inv, Lines inv,
   TaxExclusiveKobo inv, TaxKobo inv)).

Lemma Validate_view v a b d : packView a = packView b -> EinvValidate.Validate v a d = EinvValidate.Validate v b d.
Proof.
  unfold packView. intros E. injection E as E1 E2 E3 E4 E5 E6 E7 E8 E9 E10.
  unfold EinvValidate.Validate, EinvValidate.RuleContext, EinvValidate.enforceMBSRules, EinvValidate.dead, EinvValidate.backdated,
    TotalsConsistent. by rewrite E1, E2, E3, E4, E5, E6, E7, E8, E9, E10.
Qed.

(** What no step of a good run touches *)
Definition frame (inv : CanonicalInvoice) :=
  (coreFields inv, packView inv, ID inv, NRSPayload inv, (TenantID inv, IdempotencyKey inv, BusinessID inv)).

Lemma frame_parts a b : frame a = frame b ->
  coreFields a = coreFields b /\ packView a = packView b /\ ID a = ID b /\ NRSPayload a = NRSPayload b /\
  TenantID a = TenantID b /\ IdempotencyKey a = IdempotencyKey b /\ BusinessID a = BusinessID b.
Proof. unfold frame. intros E. repeat split; congruence. Qed.

Lemma unreplayed_frame a b s : frame a = frame b -> unreplayed a s -> unreplayed b s.
Proof.
  intros (_ & _ & Eid & _ & Et & Ek & _)%frame_parts. unfold unreplayed, idemKey. by rewrite Eid, Et, Ek.
Qed.

Lemma good_irngen E v sid irn inv sv : ready E v sid irn inv sv ->
  exists inv' ids, actIRNGen (io E "2-irn-generate" 1) (inv, sv) = ((inv', setServiceIDs ids sv), done_) /\
    frame inv' = frame inv /\ IRN inv' = irn.
Proof.
  intros [_ _ Hb Hi _ _ _ _]. unfold actIRNGen.
  destruct Hi as [Hi|[Hi Hg]].
  - rewrite bool_decide_eq_false_2; [by exists inv, (serviceIDs sv); destruct sv|].
    rewrite Hi. intros ->. unfold BuildIRN in Hb. destruct (bool_decide _); [done|]. destruct (negb _); [done|].
    destruct (DateStamp _); [|done]. cbn in Hb. by destruct (Str.trim_space _).
  - rewrite bool_decide_eq_true_2 by done. cbn [negb]. destruct (GetOrAssign _ _ _) as [ids r]. cbn in Hg. subst r. rewrite Hb.
    exists (inv{{ ServiceID := sid; IRN := irn }}), ids. by destruct inv.
Qed.

Lemma good_irnvalid E v sid irn inv sv inv1 sv1 x : ready E v sid irn inv sv ->
  frame inv1 = frame inv -> IRN inv1 = irn -> store sv1 = store sv ->
  actIRNValid x (inv1, sv1) = ((inv1{{ ServiceID := sid }}, sv1), done_).
Proof.
  intros [_ Hn Hb _ Hf _ _ _] (Ec & _ & Eid & _)%frame_parts Hi Hs. unfold actIRNValid. rewrite Hi, Hs.
  apply core_parts in Ec as (En & Ed & _).
  destruct (irn_reads _ _ _ _ Hb) as (ds & Hds & _ & _ & Hp & _). rewrite Hp, Hn, En, Ed, Hds. cbn [stampOf].
  rewrite !bool_decide_eq_true_2 by done. cbn [negb].
  assert (Hv : ValidServiceID sid = true) by (unfold BuildIRN in Hb; destruct (bool_decide _); [done|]; by destruct (ValidServiceID sid)).
  rewrite Hv. cbn [negb]. destruct (GetByIRN irn (store sv)) as [e|] eqn:Eg; [|done].
  by rewrite bool_decide_eq_true_2 by by rewrite (Hf e eq_refl), Eid.
Qed.

Lemma good_schema E v sid irn inv sv inv1 x w : ready E v sid irn inv sv -> io_validator x = v -> frame inv1 = frame inv ->
  exists inv2, actSchema decodeNRS x (inv1, w) = ((inv2, w), done_) /\ frame inv2 = frame inv /\ IRN inv2 = IRN inv1.
Proof.
  intros [_ _ _ _ _ _ Hp [vs Hv]] Hx Hfr. pose proof (frame_parts _ _ Hfr) as (_ & Ev & _ & Ep & _). unfold actSchema, runPacks. cbn [fst].
  rewrite Ep, Hp, Hx. cbn [negb]. rewrite (Validate_view v inv1 inv) by done. rewrite Hv.
  eexists. split; [done|]. rewrite <- Hfr. by destruct inv1.
Qed.

Lemma good_sign x inv sv : io_save x = allGood -> unreplayed inv (store sv) ->
  exists inv1 s, actSign keyID x (inv, sv) = ((inv1, setStore s sv), done_) /\ frame inv1 = frame inv /\ IRN inv1 = IRN inv /\
    SignedCoreHash inv1 = CoreHash inv /\ Get (ID inv1) s = Some inv1 /\ unreplayed inv1 s.
Proof.
  intros Hx Hu. unfold actSign. cbn [fst snd]. set (i1 := (SignInvoice keyID x inv).1).
  set (i2 := i1{{ SignedCoreHash := CoreHash i1; Status := "signed" }}).
  assert (H2 : frame i2 = frame inv /\ IRN i2 = IRN inv /\ SignedCoreHash i2 = CoreHash inv).
  { unfold i2, i1, SignInvoice. destruct (io_sign x _); destruct inv; done. }
  destruct H2 as (Hf & Hi & Hh).
  destruct (save_good x i2 sv) as (s & inv1 & Es & E1 & Hg & Hu' & Hirn & Hoth); [done|by eapply unreplayed_frame|].
  exists inv1, s. rewrite Es. assert (P : frame inv1 = frame i2 /\ IRN inv1 = IRN i2 /\ SignedCoreHash inv1 = SignedCoreHash i2 /\ ID inv1 = ID i2)
    by (rewrite E1; by destruct i2).
  destruct P as (P1 & P2 & P3 & P4). split; [done|]. rewrite P4. by repeat split; try congruence.
Qed.

Lemma set_status inv x : frame (inv{{ Status := x }}) = frame inv /\ IRN (inv{{ Status := x }}) = IRN inv /\
  SignedCoreHash (inv{{ Status := x }}) = SignedCoreHash inv /\ Status (inv{{ Status := x }}) = x.
Proof. by destruct inv. Qed.

Lemma set_stamped inv now : frame (stamped now inv) = frame inv /\ IRN (stamped now inv) = IRN inv /\
  SignedCoreHash (stamped now inv) = SignedCoreHash inv /\ Status (stamped now inv) = Status inv.
Proof. by destruct inv. Qed.

(** A save with a new status, as steps 7 and 8 make it *)
Lemma save_status x st inv sv : io_save x = allGood -> unreplayed inv (store sv) ->
  exists inv1 s, saveInv x (inv{{ Status := st }}, sv) = ((inv1, setStore s sv), done_) /\ frame inv1 = frame inv /\
    IRN inv1 = IRN inv /\ SignedCoreHash inv1 = SignedCoreHash inv /\ Status inv1 = st /\
    Get (ID inv1) s = Some inv1 /\ unreplayed inv1 s /\ (IRN inv <> "" -> byIRN s !! IRN inv = Some (ID inv)) /\
    (forall id, id <> ID inv -> Get id s = Get id (store sv)).
Proof.
  intros Hx Hu. destruct (set_status inv st) as (F1 & F2 & F3 & F4).
  destruct (save_good x (inv{{ Status := st }}) sv) as (s & inv1 & Es & E1 & Hg & Hu' & Hirn & Hoth); [done|by eapply unreplayed_frame|].
  destruct (set_stamped (inv{{ Status := st }}) (io_now x)) as (G1 & G2 & G3 & G4). rewrite <- E1 in *.
  exists inv1, s. rewrite Es. split; [done|].
  assert (EI : ID inv1 = ID (inv{{ Status := st }})) by (apply frame_parts in G1; tauto).
  assert (EJ : ID inv1 = ID inv) by (apply frame_parts in F1 as (_ & _ & ? & _); congruence).
  rewrite EI. split; [congruence|]. split; [congruence|]. split; [congruence|]. split; [congruence|].
  split; [done|]. split; [done|]. rewrite <- F2, <- EJ, EI. by split.
Qed.

Lemma good_transmit x inv sv : io_save x = allGood -> io_publish x = Outbox.diskOk ->
  (forall event body, (EinvWebhooks.Notify (io_sink x) (BusinessID inv) event body (webhooks sv)).2 = true) ->
  unreplayed inv (store sv) ->
  exists inv1 s sv1, actTransmit x (inv, sv) = ((inv1, setStore s sv1), done_) /\ frame inv1 = frame inv /\ IRN inv1 = IRN inv /\
    SignedCoreHash inv1 = SignedCoreHash inv /\ Get (ID inv1) s = Some inv1 /\ unreplayed inv1 s.
Proof.
  intros Hx Hp Hn Hu. unfold actTransmit. specialize (Hn "nrs.einvoice.transmitted.v1" (notifyBody x inv)).
  destruct (EinvWebhooks.Notify _ _ _ _ _) as [hooks ok]. cbn in Hn. subst ok. cbn [negb].
  destruct (publish_good x "nrs.einvoice.transmitted.v1" inv (setWebhooks hooks sv) Hp) as [o ->].
  unfold andThen. cbn [fst snd].
  destruct (save_status x "transmitted" inv (setOutbox o (setWebhooks hooks sv)) Hx Hu) as (inv1 & s & Es & F & Fi & Fh & _ & Hg & Hu' & _).
  exists inv1, s, (setOutbox o (setWebhooks hooks sv)). by rewrite Es.
Qed.

Lemma good_confirm x inv sv : io_save x = allGood -> io_publish x = Outbox.diskOk -> Get (ID inv) (store sv) = Some inv ->
  SignedCoreHash inv = CoreHash inv -> unreplayed inv (store sv) ->
  exists inv1 sv1, actConfirm x (inv, sv) = ((inv1, sv1), done_) /\ frame inv1 = frame inv /\ IRN inv1 = IRN inv /\
    Status inv1 = "confirmed" /\ Get (ID inv) (store sv1) = Some inv1.
Proof.
  intros Hx Hp Hg Hh Hu. unfold actConfirm. rewrite Hg, !bool_decide_eq_true_2, Z.eqb_refl by congruence. cbn [negb].
  destruct (save_status x "confirmed" inv sv Hx Hu) as (inv1 & s & Es & F & Fi & _ & Fs & Hg' & _). rewrite Es.
  unfold andThen. cbn [fst snd]. destruct (publish_good x "nrs.einvoice.confirmed.v1" inv1 (setStore s sv) Hp) as [o ->].
  exists inv1, (setOutbox o (setStore s sv)). apply frame_parts in F as F'. destruct F' as (_ & _ & <- & _). by split.
Qed.

Definition nrsStepNames : list string := ["1-create-store"; "2-irn-generate"; "3-irn-validate"; "4-irn-sign"; "5-schema-validate";
  "6-invoice-sign"; "7-transmit"; "8-confirm"].

Lemma nrs_good_run E v sid irn inv sv :
  working E v (BusinessID inv) sv -> ready E v sid irn inv sv ->
  exists sv' inv', wfNRSEinvoice keyID decodeNRS E (ID inv) sv = (sv', map (fun n => mkStep n 1 true) nrsStepNames, done_) /\
    Get (ID inv) (store sv') = Some inv' /\ Status inv' = "confirmed" /\ IRN inv' = irn /\ frame inv' = frame inv.
Proof.
  intros [Ho Hsig Hv Hsv Hpub Hsink] Hr. unfold wfNRSEinvoice. rewrite (rd_held _ _ _ _ _ _ Hr).
  rewrite (retry_first E _ _ inv sv [] (inv, sv) tt) by (try apply Ho; unfold actCreate; cbn [fst snd]; by rewrite (rd_held _ _ _ _ _ _ Hr)).
  unfold nrsSteps.
  destruct (good_irngen E v sid irn inv sv Hr) as (i2 & ids & E2 & F2 & I2). erewrite sequence_first by (apply Ho || exact E2).
  erewrite sequence_first by (apply Ho || exact (good_irnvalid E v sid irn inv sv i2 (setServiceIDs ids sv) _ Hr F2 I2 eq_refl)).
  set (i3 := i2{{ ServiceID := sid }}). assert (H3 : frame i3 = frame inv /\ IRN i3 = irn) by (rewrite <- F2, <- I2; unfold i3; by destruct i2).
  destruct H3 as [F3 I3].
  set (sv3 := setServiceIDs ids sv).
  destruct (Hsig "4-irn-sign" 1%nat (signaturePayload i3)) as [sg Esg].
  assert (H4 : exists i4, actIRNSign keyID (io E "4-irn-sign" 1) (i3, sv3) = ((i4, sv3), done_) /\ frame i4 = frame inv /\ IRN i4 = irn).
  { unfold actIRNSign. rewrite Esg. eexists. split; [done|]. rewrite <- F3, <- I3. by destruct i3. }
  destruct H4 as (i4 & E4 & F4 & I4). erewrite sequence_first by (apply Ho || exact E4).
  destruct (good_schema E v sid irn inv sv i4 (io E "5-schema-validate" 1) sv3 Hr (Hv _ _) F4) as (i5 & E5 & F5 & I5).
  erewrite sequence_first by (apply Ho || exact E5).
  assert (U5 : unreplayed i5 (store sv3)) by (eapply unreplayed_frame; [symmetry; exact F5|apply (rd_key _ _ _ _ _ _ Hr)]).
  destruct (good_sign (io E "6-invoice-sign" 1) i5 sv3 (Hsv _ _) U5) as (i6 & s6 & E6 & F6 & I6 & S6 & G6 & U6).
  erewrite sequence_first by (apply Ho || exact E6).
  assert (B6 : BusinessID i6 = BusinessID inv) by (rewrite F5 in F6; apply frame_parts in F6; tauto).
  assert (N6 : forall event body, (EinvWebhooks.Notify (io_sink (io E "7-transmit" 1)) (BusinessID i6) event body (webhooks (setStore s6 sv3))).2 = true)
    by (intros; rewrite B6; by apply Hsink).
  destruct (good_transmit (io E "7-transmit" 1) i6 (setStore s6 sv3) (Hsv _ _) (Hpub _ _) N6 U6) as (i7 & s7 & sv7 & E7 & F7 & I7 & S7 & G7 & U7).
  erewrite sequence_first by (apply Ho || exact E7).
  assert (C7 : SignedCoreHash i7 = CoreHash i7).
  { rewrite S7, S6. apply core_hash_eq. rewrite F6 in F7. apply frame_parts in F7 as (-> & _). done. }
  destruct (good_confirm (io E "8-confirm" 1) i7 (setStore s7 sv7) (Hsv _ _) (Hpub _ _) G7 C7 U7) as (i8 & sv8 & E8 & F8 & I8 & S8 & G8).
  erewrite sequence_first by (apply Ho || exact E8). cbn [sequence snd].
  assert (F : frame i8 = frame inv) by congruence.
  assert (Eid : ID i7 = ID inv) by (assert (F' : frame i7 = frame inv) by congruence; apply frame_parts in F'; tauto).
  exists sv8, i8. split; [done|]. rewrite <- Eid. split; [done|]. split; [done|]. split; [congruence|done].
Qed.

(** C11: In a working environment - the signer, the disk, the bus, the random
    source and the callbacks answer, nobody else touches the server - a run
    confirms every invoice that nothing about itself keeps from it, from
    whichever point of its way it was left at (with a reference number already
    or not, signed, transmitted or not): every step succeeds at its first
    attempt, the invoice is stored as confirmed with the same core fields under
    the reference number of its number, service and date, the run is in the
    history, and the guard is released. *)
Theorem nrs_run_confirms E v sid irn inv sv started finished :
  working E v (BusinessID inv) sv -> ready E v sid irn inv sv -> ID inv ∉ resumeInFlight sv ->
  exists sv' run inv',
    runNRSWorkflow keyID decodeNRS E (ID inv) started finished sv = (sv', Some (run, done_)) /\
    run_ok run = true /\ Steps run = map (fun n => mkStep n 1 true) nrsStepNames /\ (run ∈ runs sv') /\
    (ID inv ∉ resumeInFlight sv') /\
    Get (ID inv) (store sv') = Some inv' /\ Status inv' = "confirmed" /\ IRN inv' = irn /\ coreFields inv' = coreFields inv.
Proof.
  intros Hw Hr Hf. unfold runNRSWorkflow. rewrite bool_decide_eq_false_2 by done. unfold Run. cbn [runSeq setInFlight].
  match goal with |- context [wfNRSEinvoice _ _ E (ID inv) ?s] => set (sv1 := s) end.
  assert (Hw1 : working E v (BusinessID inv) sv1) by by destruct Hw.
  assert (Hr1 : ready E v sid irn inv sv1) by by destruct Hr.
  destruct (nrs_good_run E v sid irn inv sv1 Hw1 Hr1) as (sv2 & inv' & -> & Hg & Hs & Hi & F).
  eexists _, _, inv'. split; [reflexivity|]. rewrite bool_decide_eq_true_2 by done. cbn.
  repeat split; try done; [apply elem_of_app; right; by apply list_elem_of_singleton|set_solver|].
  by apply frame_parts in F as (-> & _).
Qed.

(** ** Duplicates *)

Lemma retry_fails {R} E name (act : activity R) inv sv i rest steps :
  (forall n sv, other E name n sv = sv) -> (forall n, act (io E name n) (inv, sv) = ((inv, sv), failed_)) ->
  exists steps', retry E name act i rest (inv, sv) steps = ((inv, sv), steps', failed_).
Proof.
  intros Ho Ha. revert i steps. induction rest as [|rest IH]; intros i steps; [by eexists|]. cbn [retry fst snd].
  rewrite Ho, Ha. destruct (ends E name i); [by eexists|]. apply IH.
Qed.

(** A second invoice of the same number, date and service identifier is
    refused for the reference number it shares - but recording the failure
    stores the refused invoice with that number, and from then on the number
    answers with the failed duplicate (of whatever tenant), no longer with the
    invoice that holds it. *)
Theorem duplicate_takes_over_irn E sid irn a b sv :
  (forall name n sv, other E name n sv = sv) -> io_save (ioFail E) = allGood ->
  Get (ID a) (store sv) = Some a -> GetByIRN irn (store sv) = Some a ->
  Get (ID b) (store sv) = Some b -> ID b <> ID a -> unreplayed b (store sv) -> IRN b = "" ->
  (GetOrAssign (BusinessID b) (io_rand (io E "2-irn-generate" 1)) (serviceIDs sv)).2 = Ok sid ->
  BuildIRN (InvoiceNumber b) sid (IssueDate b) = Ok irn ->
  exists sv' steps b', wfNRSEinvoice keyID decodeNRS E (ID b) sv = (sv', steps, failed_) /\
    GetByIRN irn (store sv') = Some b' /\ ID b' = ID b /\ Status b' = "failed" /\ TenantID b' = TenantID b /\
    Get (ID a) (store sv') = Some a.
Proof.
  intros Ho Hio Ha Hirn Hb Hne Hu Hi Hg Hbuild. unfold wfNRSEinvoice. rewrite Hb.
  rewrite (retry_first E _ _ b sv [] (b, sv) tt) by (try apply Ho; unfold actCreate; cbn [fst snd]; by rewrite Hb).
  unfold nrsSteps.
  assert (E2 : exists ids, actIRNGen (io E "2-irn-generate" 1) (b, sv) = ((b{{ ServiceID := sid; IRN := irn }}, setServiceIDs ids sv), done_)).
  { unfold actIRNGen. rewrite bool_decide_eq_true_2 by done. cbn [negb]. destruct (GetOrAssign _ _ _) as [ids r]. cbn in Hg. subst r.
    rewrite Hbuild. by exists ids. }
  destruct E2 as [ids E2]. erewrite sequence_first by (apply Ho || exact E2).
  set (b2 := b{{ ServiceID := sid; IRN := irn }}). set (sv2 := setServiceIDs ids sv).
  assert (P : IRN b2 = irn /\ ID b2 = ID b /\ TenantID b2 = TenantID b /\ frame b2 = frame b) by (unfold b2; by destruct b).
  destruct P as (P1 & P2 & P3 & P4).
  assert (E3 : forall n, actIRNValid (io E "3-irn-validate" n) (b2, sv2) = ((b2, sv2), failed_)).
  { intros n. unfold actIRNValid. destruct (ParseIRN (IRN b2)) as [[[num s] ds]|]; [|done].
    destruct (negb _); [done|]. destruct (negb _); [done|]. destruct (negb _); [done|]. rewrite P1.
    unfold sv2. cbn [store setServiceIDs]. rewrite Hirn, bool_decide_eq_false_2 by by rewrite P2. done. }
  cbn [sequence]. unfold retryActivity.
  destruct (retry_fails E "3-irn-validate" actIRNValid b2 sv2 1 3 (recStep (mkStep "2-irn-generate" 1 true)
             (recStep (mkStep nrsStepCreate 1 true) [])) (Ho _) E3) as [steps ->].
  unfold recordFailure. cbn [fst snd].
  destruct (save_status (ioFail E) "failed" b2 sv2 Hio) as (b3 & s & Es & F & Fi & _ & Fs & Gs & _ & Hirn' & Hoth).
  { eapply unreplayed_frame; [symmetry; exact P4|done]. }
  rewrite Es. exists (setStore s sv2), steps, b3. split; [done|]. cbn [store setStore].
  apply frame_parts in F as (_ & _ & Eid & _ & Et & _).
  assert (Hs1 : byIRN s !! irn = Some (ID b)).
  { rewrite <- P1, <- P2. apply Hirn'. rewrite P1. intros ->. unfold BuildIRN in Hbuild. destruct (bool_decide _); [done|].
    destruct (negb _); [done|]. destruct (DateStamp _); [|done]. cbn in Hbuild. by destruct (Str.trim_space _). }
  assert (Hs2 : Get (ID a) s = Some a) by (rewrite Hoth by congruence; exact Ha).
  repeat split; try done; try congruence. unfold GetByIRN. rewrite Hs1. cbn. unfold Get in Gs. congruence.
Qed.

End Props.

(** ** Witnesses *)

Module Demo.
#[local] Existing Instance Toy.crypto.

Definition io_demo : attemptIO :=
  mkIO (1769500000 * second) (Some "abcdefgh") (fun _ => Some "5160") EinvValidate.demo_validator (fun _ => None)
    allGood (EinvWebhooks.mkSink (fun _ _ _ _ => true) (fun _ _ => false)) ("01ARZ3NDEKTSV4RRFFQ69G5FAV", "00f067aa0ba902b7") Outbox.diskOk.
Definition E_demo : RunEnv := mkEnv (fun _ _ => io_demo) (fun _ _ => false) (fun _ _ sv => sv) io_demo.
Definition decode_none (_ : string) : option EinvSchema.NRSInvoice := None.

Definition inv_a : CanonicalInvoice := EinvValidate.demo_bare{{ ID := "a"; InvoiceNumber := "INV-1"; BusinessID := "biz"; Status := "received" }}.
Definition inv_b : CanonicalInvoice := inv_a{{ ID := "b"; TenantID := "t2" }}.
Definition store_a : InvoiceStore := NewInvoiceStore [inv_a].
Definition server_of (s : InvoiceStore) : Server := mkServer s (Outbox.NewOutbox []) (EinvWebhooks.mkRegistry ∅ ∅ []) ∅ [] 0 ∅.
Definition irn_a : string := "INV-1-Z0123456-20260127".
Definition run_a := wfNRSEinvoice "k" decode_none E_demo "a" (server_of store_a).
Definition inv_a_confirmed : CanonicalInvoice := inv_a{{ IRN := irn_a; Status := "confirmed" }}.
Definition store_ab : InvoiceStore := NewInvoiceStore [inv_a_confirmed; inv_b].
End Demo.

Section Witnesses.
#[local] Existing Instance Toy.crypto.
Import Demo.

Lemma nrs_confirmed_sound_witness : confirmedIn "k" decode_none E_demo inv_a run_a.1.1.
Proof.
  apply (nrs_confirmed_sound "k" decode_none E_demo "a" (server_of store_a) run_a.1.1 run_a.1.2 inv_a);
    [|vm_compute; reflexivity].
  transitivity (run_a.1.1, run_a.1.2, run_a.2); [unfold run_a; by destruct (wfNRSEinvoice _ _ _ _ _) as [[? ?] ?]|].
  assert (H : run_a.2 = done_) by (vm_compute; reflexivity). rewrite H. reflexivity.
Defined.

Lemma nrs_run_confirms_witness : exists sv' run inv',
  runNRSWorkflow "k" decode_none E_demo "a" 0 0 (server_of store_a) = (sv', Some (run, done_)) /\
  run_ok run = true /\ Get "a" (store sv') = Some inv' /\ Status inv' = "confirmed" /\ IRN inv' = irn_a.
Proof.
  destruct (nrs_run_confirms "k" decode_none E_demo EinvValidate.demo_validator "Z0123456" irn_a inv_a (server_of store_a) 0 0)
    as (sv' & run & inv' & H1 & H2 & _ & _ & _ & H3 & H4 & H5 & _).
  - split; try done. intros name n event body hooks Hh. unfold EinvWebhooks.Notify, EinvWebhooks.endpointsOf.
    by rewrite Hh.
  - split; [vm_compute; reflexivity..|right; split; vm_compute; reflexivity|by intros e He; vm_compute in He|by left|vm_compute; reflexivity|].
    eexists. vm_compute. reflexivity.
  - by apply not_elem_of_empty.
  - exists sv', run, inv'. exact (conj H1 (conj H2 (conj H3 (conj H4 H5)))).
Defined.

Lemma duplicate_takes_over_irn_witness : exists sv' steps b',
  wfNRSEinvoice "k" decode_none E_demo "b" (server_of store_ab) = (sv', steps, failed_) /\
  GetByIRN irn_a (store sv') = Some b' /\ ID b' = "b" /\ Status b' = "failed" /\ TenantID b' = "t2" /\
  Get "a" (store sv') = Some inv_a_confirmed.
Proof.
  apply (duplicate_takes_over_irn "k" decode_none E_demo "Z0123456" irn_a inv_a_confirmed inv_b (server_of store_ab));
    [intros; reflexivity|reflexivity|vm_compute; reflexivity|vm_compute; reflexivity|vm_compute; reflexivity|discriminate|
     left; reflexivity|reflexivity|vm_compute; reflexivity..].
Defined.
End Witnesses.
