(* ===== verification/EinvHandlerProps.v ===== *)
(** * einvoicing: properties of the handlers

    What the update of the payment status may touch, what an upload with a
    chosen identifier does to the invoice that has it, and what becomes of an
    invoice whose number is uploaded again. *)

From S2P Require Import Prelude StrFacts Crypto GoJson GoTime EinvModel EinvStore EinvIrn EinvWorkflow EinvHandlers EinvNrsProps.
From S2P Require Auth Outbox EinvWebhooks EinvValidate EinvSchema Citation EinvApiKeys.

Section Props.
Context `{Crypto} (citations : Citation.CitationResolver).

(** What a save does, by how it ends *)
Lemma SaveCtx_cases io now inv s :
  match SaveCtx io now inv s with
  | (s', inv', id, None) => inv' = stamped now inv /\ id = "" /\
      s' = index inv' (mkInvoiceStore (byID s) (byIdemKey s) (bySuppNum s) (byIRN s) (order s) (invLog s ++ [inv']) (hasPG s))
  | (s', _, _, Some _) => byID s' = byID s /\ byIdemKey s' = byIdemKey s /\ bySuppNum s' = bySuppNum s /\ byIRN s' = byIRN s
  end.
Proof.
  unfold SaveCtx. destruct (replayed now inv s) as [[id e]|]; [done|]. destruct (negb _); [done|].
  destruct (match hasPG _ with true => _ | false => _ end); [done|destruct (pgConflict _ _ _); done|done].
Qed.

Lemma publish_store io ty w : store (publish io ty w).1.2 = store w.2.
Proof. unfold publish. by destruct (Outbox.Publish _ _ _ _ _). Qed.

Lemma stamped_ID now inv : ID (stamped now inv) = ID inv.
Proof. by destruct inv. Qed.

Lemma index_byID inv s : byID (index inv s) = <[ID inv := inv]> (byID s).
Proof. done. Qed.

(** From [inv] to [inv'] only the payment status and reference, the time stamps
    and one audit entry of [actor] change. *)
Definition paymentChange (actor : string) (inv inv' : CanonicalInvoice) : Prop :=
  exists at_ detail,
    inv' = inv{{ PaymentStatus := PaymentStatus inv'; PaymentReference := PaymentReference inv';
                 Audit := Audit inv ++ [mkAudit at_ "payment_status_update" detail actor];
                 UpdatedAt := UpdatedAt inv'; CreatedAt := CreatedAt inv' }}.

(** The update of a payment status changes, on the invoice of that
    reference number and only if the caller's tenant may see it, the payment
    status (to a value the catalogue accepts), the reference and the time
    stamps, and appends one audit entry naming the caller; nothing else of the
    invoice and no other invoice changes.  Any other answer changes no
    invoice. *)
Theorem payment_update_locked hio claims irn body sv :
  match handleNRSUpdate hio claims irn body sv with
  | (sv', JSON code inv') => code = 200 /\
      exists inv b, GetByIRN irn (store sv) = Some inv /\ tenantGuard claims inv = None /\ body = Some b /\
        (forall k, k ∈ u_keys b -> k = "payment_status" \/ k = "reference") /\
        (PaymentStatus inv' = PaymentStatus inv \/ PaymentStatus inv' = Str.to_upper (u_status b) /\ EinvSchema.ValidPaymentStatus (u_status b) = true) /\
        paymentChange (actorOf claims) inv inv' /\ byID (store sv') = <[ID inv := inv']> (byID (store sv))
  | (sv', Problem code _) => 400 <= code /\ byID (store sv') = byID (store sv)
  end.
Proof.
  unfold handleNRSUpdate. destruct (GetByIRN irn (store sv)) as [inv|] eqn:Eg; [|done].
  destruct (tenantGuard claims inv) as [[code title]|] eqn:Et.
  { split; [|done]. unfold tenantGuard in Et. destruct claims; [|done]. repeat (case_match; try done); simplify_eq; lia. }
  destruct body as [b|]; [|done]. destruct (existsb _ (u_keys b)) eqn:Ek; [done|]. destruct (_ && _) eqn:Ee; [done|].
  destruct (negb _ && negb _) eqn:Ev; [done|].
  set (now := io_now (h_io hio)). pose proof (SaveCtx_cases (io_save (h_io hio)) now (updated now claims b inv) (store sv)) as Hs.
  destruct (SaveCtx _ now _ _) as [[[s inv1] id] [e|]]; [split; [done|apply Hs]|]. destruct Hs as (E1 & _ & Es).
  split; [done|]. exists inv, b. do 3 (split; [done|]). split.
  { intros k Hk. rewrite <- not_true_iff_false, existsb_exists in Ek.
    destruct (decide (k = "payment_status")); [by left|]. destruct (decide (k = "reference")); [by right|].
    exfalso. apply Ek. exists k. split; [by apply list_elem_of_In|]. by rewrite !bool_decide_eq_false_2. }
  assert (Hst : byID (store (emit (h_io hio) "nrs.einvoice.payment_status.v1" inv1 (setStore s sv))) = byID s).
  { unfold emit. pose proof (publish_store (h_io hio) "nrs.einvoice.payment_status.v1" (inv1, setStore s sv)) as ->. done. }
  rewrite Hst, Es, index_byID, E1, stamped_ID. unfold updated.
  split; [|split; [eexists _, _; by destruct inv|by destruct inv]].
  destruct (bool_decide (u_status b = "")) eqn:Eu; [left; by destruct inv|].
  destruct (EinvSchema.ValidPaymentStatus (u_status b)) eqn:Eps; [|done]. right. split; [by destruct inv|done].
Qed.

(** ** Uploads *)

(** The invoice of an upload as it is stored *)
Definition uploaded (hio : handlerIO) (claims : option Auth.Claims) (adapter key : string) (inv : CanonicalInvoice) : CanonicalInvoice :=
  let inv := Normalise citations (h_id hio) (h_today hio) inv in
  inv{{ TenantID := tenantOf claims; IdempotencyKey := key; SourceAdapter := Str.or_default (SourceAdapter inv) adapter }}.

Lemma uploaded_parts hio claims adapter key inv :
  let u := uploaded hio claims adapter key inv in
  ID u = Str.or_default (ID inv) (h_id hio) /\ TenantID u = tenantOf claims /\ IdempotencyKey u = key /\
  TIN (Supplier u) = TIN (Supplier inv) /\ InvoiceNumber u = InvoiceNumber inv.
Proof. unfold uploaded, Normalise, attachCitations. destruct inv. by destruct Supplier. Qed.

(** The save of an upload that the replay window does not answer and the disk
    takes *)
Lemma createOne_stored hio claims adapter key inv sv vs fatal :
  let u := uploaded hio claims adapter key inv in
  EinvValidate.Validate (io_validator (h_io hio)) u (IsDuplicate u (store sv)) = Ok (vs, fatal) ->
  unreplayed u (store sv) -> io_save (h_io hio) = allGood ->
  exists sv' u', createOne citations hio claims adapter key inv sv = (sv', inl u') /\
    ID u' = ID u /\ TenantID u' = TenantID u /\ suppKey u' = suppKey u /\ TIN (Supplier u') = TIN (Supplier u) /\
    InvoiceNumber u' = InvoiceNumber u /\ Status u' = (if fatal then "failed" else "validated") /\
    byID (store sv') = <[ID u := u']> (byID (store sv)) /\
    bySuppNum (store sv') = (if bool_decide (TIN (Supplier u) = "") || bool_decide (InvoiceNumber u = "") then bySuppNum (store sv)
                             else <[suppKey u := ID u]> (bySuppNum (store sv))).
Proof.
  intros u Hv Hu Hio. unfold createOne. change (Normalise citations (h_id hio) (h_today hio) inv) with
    (Normalise citations (h_id hio) (h_today hio) inv).
  fold (uploaded hio claims adapter key inv). fold u. rewrite Hv.
  set (u1 := u{{ Validation := vs; Status := (if fatal then "failed" else "validated") }}).
  assert (P1 : ID u1 = ID u /\ TenantID u1 = TenantID u /\ Supplier u1 = Supplier u /\ InvoiceNumber u1 = InvoiceNumber u /\
    IdempotencyKey u1 = IdempotencyKey u /\ Status u1 = (if fatal then "failed" else "validated")) by (unfold u1; by destruct u).
  destruct P1 as (P1 & P2 & P3 & P4 & P5 & P6).
  assert (Hu1 : unreplayed u1 (store sv)) by (unfold unreplayed, idemKey in *; by rewrite P1, P2, P5).
  assert (Es : SaveCtx (io_save (h_io hio)) (io_now (h_io hio)) u1 (store sv) =
    (index (stamped (io_now (h_io hio)) u1) (mkInvoiceStore (byID (store sv)) (byIdemKey (store sv)) (bySuppNum (store sv))
       (byIRN (store sv)) (order (store sv)) (invLog (store sv) ++ [stamped (io_now (h_io hio)) u1]) (hasPG (store sv))),
     stamped (io_now (h_io hio)) u1, "", None)).
  { unfold SaveCtx. rewrite unreplayed_none by done. rewrite Hio. cbn [allGood logWritten negb hasPG pgPut]. by destruct (hasPG (store sv)). }
  rewrite Es. cbn [bool_decide negb]. rewrite bool_decide_eq_true_2 by done. cbn [negb].
  set (u2 := stamped (io_now (h_io hio)) u1).
  assert (P : ID u2 = ID u /\ TenantID u2 = TenantID u /\ Supplier u2 = Supplier u /\ InvoiceNumber u2 = InvoiceNumber u /\
    Status u2 = (if fatal then "failed" else "validated")) by (rewrite <- P1, <- P2, <- P3, <- P4, <- P6; unfold u2; by destruct u1).
  destruct P as (Q1 & Q2 & Q3 & Q4 & Q6).
  eexists _, u2. split; [reflexivity|]. unfold emit. rewrite publish_store. cbn [fst snd store setStore].
  unfold suppKey. rewrite Q2, Q3, Q4. by repeat split.
Qed.

(** The identifier of an upload is the client's to choose, and no check
    stands between it and the store: an upload that names the identifier of
    another tenant's invoice replaces that invoice by its own, whatever its
    state - the other tenant is refused its own invoice afterwards. *)
Theorem create_overwrites_foreign hio claims adapter inv sv vs fatal victim owner :
  let u := uploaded hio claims adapter "" inv in
  Get (ID inv) (store sv) = Some victim -> ID inv <> "" -> TenantID victim = Auth.c_TenantID owner -> Auth.c_TenantID owner <> "" ->
  tenantOf claims <> "" -> tenantOf claims <> Auth.c_TenantID owner -> io_save (h_io hio) = allGood ->
  EinvValidate.Validate (io_validator (h_io hio)) u (IsDuplicate u (store sv)) = Ok (vs, fatal) ->
  handleGetInvoice (Some owner) (ID inv) "" sv = JSON 200 (inl victim) /\
  exists sv' u', createAll citations claims adapter "" [(hio, inv)] [] sv = (sv', Some (JSON 201 [u'])) /\
    Get (ID inv) (store sv') = Some u' /\ TenantID u' = tenantOf claims /\
    handleGetInvoice (Some owner) (ID inv) "" sv' = Problem 404 "not found".
Proof.
  intros u Hg Hid Ht Ho Hc Hne Hio Hv. split.
  { unfold handleGetInvoice, tenantGuard. rewrite Hg, Ht. rewrite (bool_decide_eq_true_2 (Auth.c_TenantID owner = Auth.c_TenantID owner)) by done. by rewrite orb_true_r. }
  destruct (uploaded_parts hio claims adapter "" inv) as (U1 & U2 & U3 & _). fold u in U1, U2, U3.
  assert (Hu : unreplayed u (store sv)) by by left.
  destruct (createOne_stored hio claims adapter "" inv sv vs fatal Hv Hu Hio) as (sv' & u' & Ec & _ & Et & _ & _ & _ & _ & Eb & _).
  fold u in Et, Eb. assert (EID : ID u = ID inv) by (rewrite U1; unfold Str.or_default; by rewrite bool_decide_eq_false_2).
  exists sv', u'. cbn [createAll]. rewrite Ec. split; [done|]. unfold handleGetInvoice, Get. rewrite Eb, EID, lookup_insert_eq.
  split; [done|]. split; [congruence|]. unfold tenantGuard. rewrite Et, U2. rewrite !bool_decide_eq_false_2; congruence || done.
Qed.

(** An upload whose supplier and number are already taken is stored like
    any other - with status failed when the packs refuse the duplicate -, and
    the index of duplicates then names the refused copy: the copy no longer
    counts as a duplicate, and the invoice it duplicates does. *)
Theorem rejected_duplicate_swaps hio claims adapter a b sv vs fatal :
  let u := uploaded hio claims adapter "" b in
  bySuppNum (store sv) !! suppKey a = Some (ID a) -> suppKey u = suppKey a -> ID u <> ID a ->
  TIN (Supplier b) <> "" -> InvoiceNumber b <> "" -> io_save (h_io hio) = allGood ->
  EinvValidate.Validate (io_validator (h_io hio)) u true = Ok (vs, fatal) ->
  IsDuplicate a (store sv) = false /\ IsDuplicate u (store sv) = true /\
  exists sv' u', createOne citations hio claims adapter "" b sv = (sv', inl u') /\ Status u' = (if fatal then "failed" else "validated") /\
    IsDuplicate u' (store sv') = false /\ IsDuplicate a (store sv') = true.
Proof.
  intros u Ha Hk Hid Ht Hn Hio Hv.
  assert (Hd : IsDuplicate u (store sv) = true) by (unfold IsDuplicate; rewrite Hk, Ha, bool_decide_eq_false_2 by congruence; done).
  split; [unfold IsDuplicate; by rewrite Ha, bool_decide_eq_true_2|]. split; [done|].
  destruct (uploaded_parts hio claims adapter "" b) as (_ & _ & U3 & U4 & U5). fold u in U3, U4, U5.
  assert (Hu : unreplayed u (store sv)) by by left. fold u in Hd. unfold u in Hv. rewrite <- Hd in Hv.
  destruct (createOne_stored hio claims adapter "" b sv vs fatal Hv Hu Hio) as (sv' & u' & Ec & Ei & _ & Ek & _ & _ & Est & _ & Eb).
  fold u in Ei, Ek, Eb. rewrite U4, U5 in Eb. rewrite !bool_decide_eq_false_2 in Eb by done. cbn [orb] in Eb.
  exists sv', u'. split; [done|]. split; [done|]. unfold IsDuplicate. rewrite Ek, Eb, <- Hk, !lookup_insert_eq.
  rewrite bool_decide_eq_true_2 by done. by rewrite bool_decide_eq_false_2.
Qed.

(** The invoices of one upload share its key: with one, every upload of two
    different invoices ends in a conflict after the first is stored. *)
Lemma batch_key_conflict hio hio2 claims adapter key a b rest sv sv1 a' :
  let u := uploaded hio2 claims adapter key b in
  createOne citations hio claims adapter key a sv = (sv1, inl a') ->
  key <> "" -> byIdemKey (store sv1) !! idemKey u = Some (ID a') -> Get (ID a') (store sv1) = Some a' -> ID u <> ID a' ->
  idemMappingExpired a' (io_now (h_io hio2)) = false -> CoreHash a' <> CoreHash u -> ID a' <> "" ->
  (exists vs fatal, EinvValidate.Validate (io_validator (h_io hio2)) u (IsDuplicate u (store sv1)) = Ok (vs, fatal)) ->
  (createAll citations claims adapter key ((hio, a) :: (hio2, b) :: rest) [] sv).2 = Some (Problem 409 "conflict").
Proof.
  intros u Ha Hk Hm Hg Hid He Hc Hne (vs & fatal & Hv). cbn [createAll]. rewrite Ha. unfold createOne.
  fold (uploaded hio2 claims adapter key b). fold u. rewrite Hv.
  set (u1 := u{{ Validation := vs; Status := (if fatal then "failed" else "validated") }}).
  destruct (uploaded_parts hio2 claims adapter key b) as (_ & _ & U3 & _). fold u in U3.
  assert (P : IdempotencyKey u1 = IdempotencyKey u /\ idemKey u1 = idemKey u /\ ID u1 = ID u /\ CoreHash u1 = CoreHash u)
    by (unfold u1; by destruct u). destruct P as (P1 & P2 & P3 & P4).
  unfold SaveCtx, replayed. rewrite P1, U3, (bool_decide_eq_false_2 (key = "")) by done. rewrite P2, Hm, P3.
  rewrite (bool_decide_eq_false_2 (ID a' = ID u)) by congruence. unfold Get in Hg. rewrite Hg, He, P4.
  rewrite (bool_decide_eq_false_2 (CoreHash a' = _)) by done. cbn [negb].
  by rewrite bool_decide_eq_false_2.
Qed.

End Props.

(** ** Witnesses *)

Section Witnesses.
#[local] Existing Instance Toy.crypto.
Import EinvNrsProps.Demo.

Definition hio_demo : handlerIO := mkHandlerIO "new" "2026-01-27" io_demo.
Definition claims_of (tenant : string) : Auth.Claims := Auth.mkClaims "u1" [] tenant 0.
Definition inv_c : CanonicalInvoice := inv_a{{ ID := "c" }}.

Lemma create_overwrites_foreign_witness :
  handleGetInvoice (Some (claims_of "t1")) "a" "" (server_of store_a) = JSON 200 (inl inv_a) /\
  exists sv' u', createAll ∅ (Some (claims_of "t2")) "rest" "" [(hio_demo, inv_a)] [] (server_of store_a) = (sv', Some (JSON 201 [u'])) /\
    Get "a" (store sv') = Some u' /\ TenantID u' = "t2" /\
    handleGetInvoice (Some (claims_of "t1")) "a" "" sv' = Problem 404 "not found".
Proof.
  apply (create_overwrites_foreign ∅ hio_demo (Some (claims_of "t2")) "rest" inv_a (server_of store_a) [] false inv_a (claims_of "t1"));
    [vm_compute; reflexivity|discriminate|reflexivity|discriminate|discriminate|discriminate|reflexivity|vm_compute; reflexivity].
Defined.

Lemma rejected_duplicate_swaps_witness :
  IsDuplicate inv_a (store (server_of store_a)) = false /\
  IsDuplicate (uploaded ∅ hio_demo (Some (claims_of "t1")) "rest" "" inv_c) (store (server_of store_a)) = true /\
  exists sv' u', createOne ∅ hio_demo (Some (claims_of "t1")) "rest" "" inv_c (server_of store_a) = (sv', inl u') /\ Status u' = "failed" /\
    IsDuplicate u' (store sv') = false /\ IsDuplicate inv_a (store sv') = true.
Proof.
  apply (rejected_duplicate_swaps ∅ hio_demo (Some (claims_of "t1")) "rest" inv_a inv_c (server_of store_a)
           [mkViolation "rp-mbs-business-rules@1.0.0" "MBS-BR-03: duplicate invoice number for supplier" "fatal"] true);
    [vm_compute; reflexivity|vm_compute; reflexivity|discriminate|discriminate|discriminate|reflexivity|vm_compute; reflexivity].
Defined.
End Witnesses.
