(* ===== verification/EinvRail.v ===== *)
(** * einvoicing: the rails and their router (services/einvoicing/nrs_rail.go,
    mbs.go, router.go)

    The configuration of the live rail, the client that logs in lazily and
    renews its token after a 401, the HTTP rail, the choice of a rail at
    start-up and the routing of tenants to access points.  The answers of the
    network are a parameter, which sees every request sent before; other
    goroutines may change the cached token whenever it is read.  Waiting for
    the login lock is left out: what it hides is a change by another goroutine. *)

From S2P Require Import Prelude StrFacts Crypto GoJson EinvModel EinvWorkflow.
From S2P Require EinvUbl EinvHandlers EinvNrsProps EinvHandlerProps EinvStore Auth Citation.

Abbreviation getenv := (string -> string) (only parsing).

(** ** The endpoints *)

(** [strings.ReplaceAll(s, old, new)] for [old] not empty; [skip] bytes of an
    occurrence remain *)
Fixpoint replaceFrom (old new : string) (skip : nat) (s : string) : string :=
  match s with
  | EmptyString => EmptyString
  | String c s' =>
      match skip with
      | S k => replaceFrom old new k s'
      | O => if Str.has_prefix s old then new +:+ replaceFrom old new (String.length old - 1) s'
             else String c (replaceFrom old new 0 s')
      end
  end.
Definition replaceAll (old new s : string) : string := replaceFrom old new 0 s.

Record NRSEndpoints := mkEndpoints {
  AuthLogin : string;
  InvoiceUpload : string;
  InvoiceUpdate : string;
  InvoiceStatus : string;
  InvoiceList : string;
  resources : list (string * string);
}.

Definition NRSEndpointCatalog : NRSEndpoints :=
  mkEndpoints "/api/v1/auth/login" "/api/v1/invoice/upload" "/api/v1/invoice/update/{irn}" "/api/v1/invoice/{irn}" "/api/v1/invoice/list"
    [("TaxCategories", "/api/v1/resources/tax-categories"); ("InvoiceTypes", "/api/v1/resources/invoice-types");
     ("PaymentMeans", "/api/v1/resources/payment-means"); ("ServiceCodes", "/api/v1/resources/service-codes");
     ("ProductCodes", "/api/v1/resources/product-codes"); ("LGAs", "/api/v1/resources/lgas");
     ("Currencies", "/api/v1/resources/currencies"); ("States", "/api/v1/resources/states"); ("Countries", "/api/v1/resources/countries")].

Definition InvoiceUpdatePath (e : NRSEndpoints) (irn : string) : string := replaceAll "{irn}" irn (InvoiceUpdate e).
Definition InvoiceStatusPath (e : NRSEndpoints) (irn : string) : string := replaceAll "{irn}" irn (InvoiceStatus e).

Example update_path :
  (InvoiceUpdatePath NRSEndpointCatalog "INV-1-Z0123456-20260127", InvoiceStatusPath NRSEndpointCatalog "X") =
  ("/api/v1/invoice/update/INV-1-Z0123456-20260127", "/api/v1/invoice/X").
Proof. vm_compute. reflexivity. Qed.

(** ** The configuration of the live rail *)

Record LiveRailConfig := mkLive {
  BaseURL : string;
  APIKey : string;
  APISecret : string;
  Email : string;
  Password : string;
  cfg_ServiceID : string;
}.

Fixpoint trimRight (c : ascii) (s : string) : string :=
  match s with
  | EmptyString => EmptyString
  | String d s => let t := trimRight c s in if bool_decide (t = "") && bool_decide (c = d) then EmptyString else String d t
  end.

Fixpoint firstEnv (env : getenv) (keys : list string) : string :=
  match keys with
  | [] => ""
  | k :: keys => if bool_decide (env k = "") then firstEnv env keys else env k
  end.

Inductive liveError := liveMissing (names : list string) | liveNotHTTPS (url : string).

Definition required (cfg : LiveRailConfig) : list (string * string) :=
  [("MBS_LIVE_BASE_URL", BaseURL cfg); ("MBS_LIVE_API_KEY", APIKey cfg); ("MBS_LIVE_API_SECRET", APISecret cfg);
   ("MBS_LIVE_EMAIL", Email cfg); ("MBS_LIVE_PASSWORD", Password cfg)].

Definition LiveRailConfigFromEnv (env : getenv) : result liveError LiveRailConfig :=
  let cfg := mkLive (trimRight "/" (env "MBS_LIVE_BASE_URL")) (env "MBS_LIVE_API_KEY") (env "MBS_LIVE_API_SECRET")
               (env "MBS_LIVE_EMAIL") (env "MBS_LIVE_PASSWORD") (firstEnv env ["NRS_SERVICE_ID"]) in
  match map fst (filter (fun kv => kv.2 = "") (required cfg)) with
  | [] => if Str.has_prefix (Str.to_lower (BaseURL cfg)) "https://" then Ok cfg else Err (liveNotHTTPS (BaseURL cfg))
  | missing => Err (liveMissing missing)
  end.

(** ** Requests and answers *)

Inductive payload :=
| loginBody (email password : string)
| uploadBody (inv : CanonicalInvoice) (ubl : string)
| reportBody (inv : CanonicalInvoice).

Record request := mkRequest {
  rq_Method : string;
  rq_URL : string;
  rq_Header : list (string * string);
  rq_Body : payload;
}.

(** What a response is: its status and what its body decodes to as the answer
    to a login (the token), to a pre-clearance and to a report - [None] when
    it does not decode *)
Record reply := mkReply {
  rp_Code : Z;
  as_login : option string;
  as_clearance : option ClearanceResult;
  as_receipt : option B2CReportReceipt;
}.

(** ** The client of the live rail *)

(** The cached token and the requests sent so far; [moves] counts the points
    where another goroutine may step in. *)
Record conn := mkConn { token : string; sent : list request; moves : nat }.

Definition setToken (t : string) (c : conn) : conn := mkConn t (sent c) (moves c).

(** [do] tells a 401 from the other errors. *)
Inductive verdict (A : Type) := unauthorized | railError | answered (a : A).
Arguments unauthorized {A}.
Arguments railError {A}.
Arguments answered {A} a.

Section LiveRail.
Context (cfg : LiveRailConfig) (rail : list request -> request -> option reply) (others : nat -> string -> string).

Definition endpoints : NRSEndpoints := NRSEndpointCatalog.

(** The token as it is found under the lock *)
Definition observe (c : conn) : conn := mkConn (others (moves c) (token c)) (sent c) (S (moves c)).

Definition exchange (rq : request) (c : conn) : conn * option reply := (mkConn (token c) (sent c ++ [rq]) (moves c), rail (sent c) rq).

Definition loginRequest : request :=
  mkRequest "POST" (BaseURL cfg +:+ AuthLogin endpoints) [("Content-Type", "application/json")] (loginBody (Email cfg) (Password cfg)).

Definition login (c : conn) : conn * bool :=
  let '(c, r) := exchange loginRequest c in
  match r with
  | Some r => match as_login r with
              | Some t => if (rp_Code r =? 200) && negb (bool_decide (t = "")) then (setToken t c, true) else (c, false)
              | None => (c, false)
              end
  | None => (c, false)
  end.

Definition refreshToken (c : conn) : conn * option string :=
  let c := observe c in
  if bool_decide (token c = "") then
    match login c with
    | (c, false) => (c, None)
    | (c, true) => let c := observe c in (c, if bool_decide (token c = "") then None else Some (token c))
    end
  else (c, Some (token c)).

Definition accessToken (c : conn) : conn * option string :=
  let c := observe c in
  if bool_decide (token c = "") then refreshToken c else (c, Some (token c)).

Definition invalidateToken (c : conn) : conn := setToken "" (observe c).

Definition authed (method path tok : string) (body : payload) : request :=
  mkRequest method (BaseURL cfg +:+ path)
    [("Content-Type", "application/json"); ("x-api-key", APIKey cfg); ("x-api-secret", APISecret cfg); ("Authorization", "Bearer " +:+ tok)] body.

Definition newRequest (method path : string) (body : payload) (c : conn) : conn * option request :=
  match accessToken c with
  | (c, None) => (c, None)
  | (c, Some tok) => (c, Some (authed method path tok body))
  end.

(** [do], decoding a successful answer with [out] *)
Definition do_ {A} (out : reply -> option A) (rq : request) (c : conn) : conn * verdict A :=
  let '(c, r) := exchange rq c in
  (c, match r with
      | None => railError
      | Some r => if rp_Code r =? 401 then unauthorized
                  else if (rp_Code r <? 200) || (299 <? rp_Code r) then railError
                  else match out r with Some a => answered a | None => railError end
      end).

(** The retried request is built anew and then given the renewed token. *)
Definition doAuthed {A} (method path : string) (body : payload) (out : reply -> option A) (c : conn) : conn * option A :=
  match newRequest method path body c with
  | (c, None) => (c, None)
  | (c, Some rq) =>
      match do_ out rq c with
      | (c, answered a) => (c, Some a)
      | (c, railError) => (c, None)
      | (c, unauthorized) =>
          match refreshToken (invalidateToken c) with
          | (c, None) => (c, None)
          | (c, Some tok) =>
              match newRequest method path body c with
              | (c, None) => (c, None)
              | (c, Some _) =>
                  match do_ out (authed method path tok body) c with
                  | (c, answered a) => (c, Some a)
                  | (c, _) => (c, None)
                  end
              end
          end
      end
  end.

Definition acceptClearance (inv : CanonicalInvoice) (r : ClearanceResult) : option ClearanceResult :=
  if bool_decide (cl_Status r = "cleared" \/ cl_Status r = "rejected")
  then Some (if bool_decide (cl_IRN r = "") then mkClearance (IRN inv) (cl_Stamp r) (cl_Status r) (ClearedAt r) else r)
  else None.

Definition Preclear (inv : CanonicalInvoice) (ubl : string) (c : conn) : conn * option ClearanceResult :=
  match doAuthed "POST" (InvoiceUpload endpoints) (uploadBody inv ubl) as_clearance c with
  | (c, None) => (c, None)
  | (c, Some r) => (c, acceptClearance inv r)
  end.

Definition acceptReceipt (inv : CanonicalInvoice) (r : B2CReportReceipt) : option B2CReportReceipt :=
  if bool_decide (rc_Status r = "accepted" \/ rc_Status r = "rejected")
  then Some (if bool_decide (rc_IRN r = "") then mkReceipt (ReportID r) (IRN inv) (AcceptedAt r) (rc_Status r) else r)
  else None.

Definition ReportB2C (inv : CanonicalInvoice) (c : conn) : conn * option B2CReportReceipt :=
  match doAuthed "POST" (InvoiceUpload endpoints) (reportBody inv) as_receipt c with
  | (c, None) => (c, None)
  | (c, Some r) => (c, acceptReceipt inv r)
  end.
End LiveRail.

(** ** The HTTP rail *)

(** Every request of its own; a pre-clearance must be answered with 200, a
    report with anything that decodes *)
Definition httpPreclear (base : string) (net : request -> option reply) (inv : CanonicalInvoice) (ubl : string) : option ClearanceResult :=
  r ← net (mkRequest "POST" (trimRight "/" base +:+ "/v1/preclearance") [("Content-Type", "application/json")] (uploadBody inv ubl));
  if rp_Code r =? 200 then as_clearance r else None.

Definition httpReportB2C (base : string) (net : request -> option reply) (inv : CanonicalInvoice) : option B2CReportReceipt :=
  r ← net (mkRequest "POST" (trimRight "/" base +:+ "/v1/b2c/reports") [("Content-Type", "application/json")] (reportBody inv));
  as_receipt r.

(** ** The choice of a rail *)

Inductive MBSClient := SandboxMBS | HTTPMBS (base : string) | LiveRail (cfg : LiveRailConfig).

Definition Name (m : MBSClient) : string :=
  match m with SandboxMBS => "mbs-sandbox" | HTTPMBS _ => "mbs-http" | LiveRail _ => "mbs-live-rail" end.

Definition selectMBSProfile (env : getenv) : string := Str.to_lower (Str.trim_space (env "MBS_PROFILE")).
Definition prodProfile (env : getenv) : bool := bool_decide (env "PROFILE" = "prod") || bool_decide (env "PROFILE" = "production").

(** [None]: the process ends *)
Definition newLiveRailOrFatal (env : getenv) : option MBSClient :=
  match LiveRailConfigFromEnv env with Ok cfg => Some (LiveRail cfg) | Err _ => None end.

Definition legacyGate (env : getenv) : option MBSClient :=
  if bool_decide (env "MBS_BASE_URL" = "") then if prodProfile env then None else Some SandboxMBS
  else Some (HTTPMBS (env "MBS_BASE_URL")).

Definition NewMBSClient (env : getenv) : option MBSClient :=
  let p := selectMBSProfile env in
  if bool_decide (p = "") then legacyGate env
  else if bool_decide (p = "sandbox") then if prodProfile env then None else Some SandboxMBS
  else if bool_decide (p = "live") then newLiveRailOrFatal env
  else None.

(** ** The router *)

Record APP := mkAPP { app_ID : string; Client : MBSClient; Kind : string }.
Record APPRouter := mkRouter { apps : gmap string APP; routes : gmap string string }.

Definition Register (app : APP) (r : APPRouter) : APPRouter := mkRouter (<[app_ID app := app]> (apps r)) (routes r).
Definition Route (tenant app : string) (r : APPRouter) : APPRouter := mkRouter (apps r) (<[tenant := app]> (routes r)).

(** One pair of [APP_ROUTES]; one without [=] is skipped *)
Definition addRoute (pair : string) (r : APPRouter) : APPRouter :=
  match Str.cut "=" (Str.trim_space pair) with Some (tenant, app) => Route tenant app r | None => r end.

Definition NewAPPRouter (env : getenv) (client : MBSClient) : APPRouter :=
  let kind := match client with HTTPMBS _ => "http" | _ => "simulator" end in
  let r := Route "*" (Name client) (Register (mkAPP (Name client) client kind) (mkRouter ∅ ∅)) in
  if bool_decide (env "APP_ROUTES" = "") then r
  else foldl (fun r pair => addRoute pair r) r (Str.split "," (env "APP_ROUTES")).

Definition resolve (r : APPRouter) (tenant : string) : option (string * APP) := Resolve (apps r) (routes r) tenant.

(** What the router lists: name and kind of each access point, in any order *)
Definition List (r : APPRouter) : list (string * string) := map (fun ka => (app_ID ka.2, Kind ka.2)) (map_to_list (apps r)).

(** A submission through the access point of the tenant, with its name *)
Definition routed {A} (submit : MBSClient -> option A) (r : APPRouter) (inv : CanonicalInvoice) : option A * string :=
  match resolve r (TenantID inv) with
  | None => (None, "")
  | Some (_, app) => (submit (Client app), app_ID app)
  end.

Arguments replaceAll : simpl never.
Arguments trimRight : simpl never.

(** ** What one submission does *)

(** A verdict on an answer *)
Definition verdictOn {A} (out : reply -> option A) (r : option reply) : verdict A :=
  match r with
  | None => railError
  | Some r => if rp_Code r =? 401 then unauthorized
              else if (rp_Code r <? 200) || (299 <? rp_Code r) then railError
              else match out r with Some a => answered a | None => railError end
  end.
Definition resultOf {A} (v : verdict A) : option A := match v with answered a => Some a | _ => None end.

Section Submission.
Context (cfg : LiveRailConfig) (rail : list request -> request -> option reply) (others : nat -> string -> string).

(** At most [n] logins *)
Definition logins (n : nat) (l : list request) : Prop := exists k, (k <= n)%nat /\ l = replicate k (loginRequest cfg).

(** The requests one submission may send after those of [h], and what it may
    return: without a token nothing is submitted; the request is sent once, or
    a second time after the first one was answered 401 and a token was found
    again. *)
Inductive submission {A} (out : reply -> option A) (rq : string -> request) (h : list request) : list request -> option A -> Prop :=
| noToken l : logins 1 l -> submission out rq h l None
| once l t : logins 1 l -> t <> "" -> verdictOn out (rail (h ++ l) (rq t)) <> unauthorized ->
    submission out rq h (l ++ [rq t]) (resultOf (verdictOn out (rail (h ++ l) (rq t))))
| notRenewed l t l' : logins 1 l -> t <> "" -> verdictOn out (rail (h ++ l) (rq t)) = unauthorized -> logins 2 l' ->
    submission out rq h (l ++ [rq t] ++ l') None
| twice l t l' t' : logins 1 l -> t <> "" -> verdictOn out (rail (h ++ l) (rq t)) = unauthorized -> logins 2 l' -> t' <> "" ->
    submission out rq h (l ++ [rq t] ++ l' ++ [rq t']) (resultOf (verdictOn out (rail (h ++ l ++ [rq t] ++ l') (rq t')))).

Lemma logins_0 n : logins n [].
Proof. exists 0%nat. split; [lia|done]. Qed.
Lemma logins_1 n : (1 <= n)%nat -> logins n [loginRequest cfg].
Proof. by exists 1%nat. Qed.
Lemma logins_app n m l l' : logins n l -> logins m l' -> logins (n + m) (l ++ l').
Proof. intros (k & Hk & ->) (k' & Hk' & ->). exists (k + k')%nat. split; [lia|]. by rewrite replicate_add. Qed.

Lemma refreshToken_spec c : exists l, logins 1 l /\ sent (refreshToken cfg rail others c).1 = sent c ++ l /\
  forall t, (refreshToken cfg rail others c).2 = Some t -> t <> "".
Proof.
  unfold refreshToken. case_bool_decide as E; [|exists []; split; [apply logins_0|]; cbn; rewrite app_nil_r; split; [done|intros t [= <-]; exact E]].
  exists [loginRequest cfg]. split; [by apply logins_1|]. unfold login. cbn [exchange]. unfold exchange. cbn [sent observe].
  destruct (rail _ _) as [r|]; [|done]. destruct (as_login r); [|done].
  destruct (_ && _); [|done]. cbn [fst snd sent observe setToken]. split; [done|]. intros t'. case_bool_decide; congruence.
Qed.

Lemma accessToken_spec c : exists l, logins 1 l /\ sent (accessToken cfg rail others c).1 = sent c ++ l /\
  forall t, (accessToken cfg rail others c).2 = Some t -> t <> "".
Proof.
  unfold accessToken. case_bool_decide as E; [apply (refreshToken_spec (observe others c))|].
  exists []. split; [apply logins_0|]. cbn. rewrite app_nil_r. split; [done|]. intros t [= <-]. exact E.
Qed.

Lemma do_spec {A} (out : reply -> option A) rq c :
  (do_ rail out rq c) = (mkConn (token c) (sent c ++ [rq]) (moves c), verdictOn out (rail (sent c) rq)).
Proof. reflexivity. Qed.

Lemma doAuthed_submission {A} method path body (out : reply -> option A) c :
  exists l, sent (doAuthed cfg rail others method path body out c).1 = sent c ++ l /\
    submission out (fun t => authed cfg method path t body) (sent c) l (doAuthed cfg rail others method path body out c).2.
Proof.
  unfold doAuthed, newRequest. destruct (accessToken_spec c) as (l & Hl & Hs & Ht).
  destruct (accessToken cfg rail others c) as [c1 [t|]]; cbn [fst snd] in Hs, Ht; [|by exists l; split; [done|constructor]].
  specialize (Ht t eq_refl). rewrite do_spec, Hs.
  pose proof (once out (fun t => authed cfg method path t body) (sent c) l t Hl Ht) as Once.
  pose proof (notRenewed out (fun t => authed cfg method path t body) (sent c) l t) as Not.
  pose proof (twice out (fun t => authed cfg method path t body) (sent c) l t) as Twice. cbn beta in Once, Not, Twice.
  destruct (verdictOn out _) as [| |a] eqn:V.
  2: { exists (l ++ [authed cfg method path t body]). cbn. rewrite app_assoc. split; [done|]. by apply Once. }
  2: { exists (l ++ [authed cfg method path t body]). cbn. rewrite app_assoc. split; [done|]. by apply Once. }
  clear Once. set (c2 := invalidateToken others _).
  assert (S2 : sent c2 = (sent c ++ l) ++ [authed cfg method path t body]) by done.
  destruct (refreshToken_spec c2) as (l2 & Hl2 & Hs2 & Ht2). destruct (refreshToken cfg rail others c2) as [c3 [t2|]]; cbn [fst snd] in Hs2, Ht2.
  2: { exists (l ++ [authed cfg method path t body] ++ l2). cbn [fst snd]. rewrite Hs2, S2, <- !app_assoc. split; [done|].
       apply Not; try done. change 2%nat with (1 + 1)%nat. rewrite <- (app_nil_r l2). apply logins_app; [done|apply logins_0]. }
  specialize (Ht2 t2 eq_refl). destruct (accessToken_spec c3) as (l3 & Hl3 & Hs3 & Ht3).
  assert (L23 : logins 2 (l2 ++ l3)) by (change 2%nat with (1 + 1)%nat; by apply logins_app).
  destruct (accessToken cfg rail others c3) as [c4 [t3|]]; cbn [fst snd] in Hs3, Ht3.
  - exists (l ++ [authed cfg method path t body] ++ (l2 ++ l3) ++ [authed cfg method path t2 body]). rewrite do_spec, Hs3, Hs2, S2.
    replace ((((sent c ++ l) ++ [authed cfg method path t body]) ++ l2) ++ l3)
      with (sent c ++ l ++ [authed cfg method path t body] ++ (l2 ++ l3)) by by rewrite !app_assoc.
    specialize (Twice (l2 ++ l3) t2 Hl Ht eq_refl L23 Ht2). destruct (verdictOn out (rail (sent c ++ l ++ _ ++ _) _)) as [| |a]; (split; [|exact Twice]); cbn [fst snd sent]; by rewrite <- ?app_assoc.
  - exists (l ++ [authed cfg method path t body] ++ (l2 ++ l3)). cbn [fst snd]. rewrite Hs3, Hs2, S2, <- !app_assoc. split; [done|].
    by apply Not.
Qed.
End Submission.

(** ** What is accepted *)

Lemma resultOf_verdict {A} (out : reply -> option A) r a :
  resultOf (verdictOn out r) = Some a -> exists rep, r = Some rep /\ 200 <= rp_Code rep <= 299 /\ out rep = Some a.
Proof.
  unfold verdictOn. destruct r as [rep|]; [|done]. destruct (Z.eqb_spec (rp_Code rep) 401); [done|].
  destruct (Z.ltb_spec (rp_Code rep) 200); [done|]. destruct (Z.ltb_spec 299 (rp_Code rep)); [done|]. cbn [orb].
  destruct (out rep) as [b|] eqn:E; [|done]. intros [= <-]. exists rep. split; [done|]. split; [lia|done].
Qed.

Lemma submission_answered cfg rail {A} (out : reply -> option A) rq h l a :
  submission cfg rail out rq h l (Some a) ->
  exists l' t rep, l = l' ++ [rq t] /\ t <> "" /\ rail (h ++ l') (rq t) = Some rep /\ 200 <= rp_Code rep <= 299 /\ out rep = Some a.
Proof.
  intros H. inversion H as [|l1 t Hl Ht Hv E1 E2| |l1 t l2 t' Hl Ht Hv Hl2 Ht' E1 E2]; subst.
  - destruct (resultOf_verdict _ _ _ E2) as (rep & ? & ? & ?). rewrite E2. by exists l1, t, rep.
  - destruct (resultOf_verdict _ _ _ E2) as (rep & ? & ? & ?).
    rewrite E2. exists (l1 ++ [rq t] ++ l2), t', rep. by rewrite <- !app_assoc.
Qed.

(** C12: The live rail implements the abstract submission: whatever the rail
    answers and other goroutines do to the token, a pre-clearance logs in at
    most three times and submits the invoice at most twice, with the rail's
    headers and a token that is not empty, the second time only after a 401 -
    and it yields a clearance only from a last answer in 200..299 whose status
    is known, with the invoice's own IRN when the answer names none. *)
Theorem live_preclear_refines cfg rail others inv ubl c :
  exists l res, sent (Preclear cfg rail others inv ubl c).1 = sent c ++ l /\
    submission cfg rail as_clearance (fun t => authed cfg "POST" "/api/v1/invoice/upload" t (uploadBody inv ubl)) (sent c) l res /\
    (Preclear cfg rail others inv ubl c).2 = (r ← res; acceptClearance inv r) /\
    (forall r, (Preclear cfg rail others inv ubl c).2 = Some r ->
       (cl_Status r = "cleared" \/ cl_Status r = "rejected") /\
       exists h t rep d, sent c ++ l = h ++ [authed cfg "POST" "/api/v1/invoice/upload" t (uploadBody inv ubl)] /\
         rail h (authed cfg "POST" "/api/v1/invoice/upload" t (uploadBody inv ubl)) = Some rep /\ 200 <= rp_Code rep <= 299 /\
         as_clearance rep = Some d /\ cl_Status r = cl_Status d /\ cl_IRN r = (if decide (cl_IRN d = "") then IRN inv else cl_IRN d)).
Proof.
  destruct (doAuthed_submission cfg rail others "POST" "/api/v1/invoice/upload" (uploadBody inv ubl) as_clearance c) as (l & Hs & Hsub).
  unfold Preclear. cbn [InvoiceUpload endpoints NRSEndpointCatalog] in *.
  destruct (doAuthed _ _ _ _ _ _ _ _) as [c' o]. exists l, o. cbn [fst snd] in *. destruct o as [d|]; cbn [fst snd mbind option_bind].
  2: { by repeat split. }
  split; [done|]. split; [done|]. split; [done|]. intros r Hr.
  destruct (submission_answered _ _ _ _ _ _ _ Hsub) as (l' & t & rep & -> & Ht & Hrep & Hc & Hd).
  unfold acceptClearance in Hr. case_bool_decide as Hst; [|done].
  split.
  - case_bool_decide; injection Hr as <-; done.
  - exists (sent c ++ l'), t, rep, d. rewrite app_assoc. repeat (split; [done|]).
    case_bool_decide as Hi; injection Hr as <-; [by rewrite decide_True|by rewrite decide_False].
Qed.

(** An expired token heals itself: when the rail answers 401 to the cached
    token, the login succeeds and the rail accepts the new token, then a
    pre-clearance returns the rail's decision - in at most one login and two
    submissions -, and the new token is cached. *)
Theorem live_rail_heals cfg rail inv ubl c t rep d r :
  t <> "" ->
  (forall h old, token c <> "" -> old <> t -> exists bad, rail h (authed cfg "POST" "/api/v1/invoice/upload" old (uploadBody inv ubl)) = Some bad /\ rp_Code bad = 401) ->
  (forall h, exists ok, rail h (loginRequest cfg) = Some ok /\ rp_Code ok = 200 /\ as_login ok = Some t) ->
  (forall h, rail h (authed cfg "POST" "/api/v1/invoice/upload" t (uploadBody inv ubl)) = Some rep) ->
  200 <= rp_Code rep <= 299 -> as_clearance rep = Some d -> acceptClearance inv d = Some r ->
  exists c', Preclear cfg rail (fun _ tok => tok) inv ubl c = (c', Some r) /\ token c' = t /\
    (length (sent c') <= length (sent c) + 3)%nat.
Proof.
  intros Ht Hbad Hlogin Hgood Hcode Hd Hr.
  assert (Hv : forall h, verdictOn as_clearance (rail h (authed cfg "POST" "/api/v1/invoice/upload" t (uploadBody inv ubl))) = answered d).
  { intros h. rewrite Hgood. unfold verdictOn. rewrite Hd. destruct (Z.eqb_spec (rp_Code rep) 401); [lia|].
    destruct (Z.ltb_spec (rp_Code rep) 200); [lia|]. by destruct (Z.ltb_spec 299 (rp_Code rep)); [lia|]. }
  assert (Hb : forall h, token c <> "" -> token c <> t ->
            verdictOn as_clearance (rail h (authed cfg "POST" "/api/v1/invoice/upload" (token c) (uploadBody inv ubl))) = unauthorized).
  { intros h H1 H2. destruct (Hbad h (token c) H1 H2) as (bad & -> & E). unfold verdictOn. by rewrite E. }
  assert (Hl : forall m s, login cfg rail (mkConn "" s m) = (mkConn t (s ++ [loginRequest cfg]) m, true)).
  { intros m s. unfold login, exchange. cbn [sent token moves]. destruct (Hlogin s) as (ok & -> & Hok & ->). rewrite Hok. cbn.
    by rewrite (bool_decide_eq_false_2 (t = "")). }
  clear Hbad Hlogin Hgood.
  unfold Preclear, doAuthed, newRequest, accessToken, refreshToken, observe, invalidateToken, observe, setToken.
  cbn [InvoiceUpload endpoints NRSEndpointCatalog token sent moves].
  destruct (decide (token c = "")) as [E|E].
  - rewrite E, bool_decide_eq_true_2 by done. cbn [token sent moves]. rewrite Hl.
    cbn [token sent moves]. rewrite (bool_decide_eq_false_2 (t = "")) by done. rewrite do_spec. cbn [sent]. rewrite Hv, Hr.
    eexists. split; [done|]. cbn [token sent]. split; [done|]. rewrite !length_app. cbn. lia.
  - rewrite (bool_decide_eq_false_2 (token c = "")) by done. cbn [token sent moves]. destruct (decide (token c = t)) as [Et|Et].
    + rewrite do_spec. cbn [sent token moves]. rewrite Et, Hv, Hr. eexists. split; [done|]. cbn [token sent]. split; [done|].
      rewrite !length_app. cbn. lia.
    + rewrite do_spec. cbn [sent token moves]. rewrite Hb by done. cbn [sent token moves].
      rewrite (bool_decide_eq_true_2 ("" = "")) by done. rewrite Hl. cbn [sent token moves].
      rewrite (bool_decide_eq_false_2 (t = "")) by done. cbn [sent token moves].
      rewrite do_spec. cbn [sent]. rewrite Hv, Hr. eexists. split; [done|]. cbn [token sent]. split; [done|]. rewrite !length_app. cbn. lia.
Qed.

(** ** The configuration *)

Lemma filter_nil {A} (P : A -> Prop) `{forall x, Decision (P x)} l : filter P l = [] <-> Forall (fun x => ~ P x) l.
Proof.
  induction l as [|x l IH]; [by split|]. rewrite filter_cons, Forall_cons, <- IH.
  destruct (decide (P x)); split; [done|by intros [? _]|done|by intros [_ ?]].
Qed.

(** The configuration of the live rail is read exactly when all five
    variables of the live profile are set - the base URL to more than slashes -
    and the base URL is https; it is these variables, and no other variable but
    NRS_SERVICE_ID decides anything. *)
Theorem live_config_exact env cfg :
  LiveRailConfigFromEnv env = Ok cfg <->
  cfg = mkLive (trimRight "/" (env "MBS_LIVE_BASE_URL")) (env "MBS_LIVE_API_KEY") (env "MBS_LIVE_API_SECRET")
          (env "MBS_LIVE_EMAIL") (env "MBS_LIVE_PASSWORD") (env "NRS_SERVICE_ID") /\
  Forall (fun kv => kv.2 <> "") (required cfg) /\ Str.has_prefix (Str.to_lower (BaseURL cfg)) "https://" = true.
Proof.
  unfold LiveRailConfigFromEnv. set (cfg0 := mkLive _ _ _ _ _ _).
  assert (E0 : cfg0 = mkLive (trimRight "/" (env "MBS_LIVE_BASE_URL")) (env "MBS_LIVE_API_KEY") (env "MBS_LIVE_API_SECRET")
          (env "MBS_LIVE_EMAIL") (env "MBS_LIVE_PASSWORD") (env "NRS_SERVICE_ID")).
  { unfold cfg0. f_equal. cbn [firstEnv]. by case_bool_decide. }
  rewrite <- E0. destruct (filter (fun kv : string * string => kv.2 = "") (required cfg0)) as [|m ms] eqn:F; cbn [map].
  - apply filter_nil in F. destruct (Str.has_prefix _ _) eqn:H; split.
    + by intros [= <-].
    + by intros (-> & _).
    + done.
    + intros (-> & _ & H'). congruence.
  - split; [done|]. intros (-> & Hf & _). apply (filter_nil (fun kv : string * string => kv.2 = "")) in Hf. congruence.
Qed.

(** In the production profile the service never runs on the simulator: it
    starts only on the HTTP rail at the configured base URL, with no rail
    named, or on the live rail with a complete configuration over https. *)
Theorem prod_rail_fails_closed env m :
  prodProfile env = true -> NewMBSClient env = Some m ->
  selectMBSProfile env = "" /\ env "MBS_BASE_URL" <> "" /\ m = HTTPMBS (env "MBS_BASE_URL") \/
  selectMBSProfile env = "live" /\ exists cfg, m = LiveRail cfg /\ LiveRailConfigFromEnv env = Ok cfg /\
    APIKey cfg <> "" /\ APISecret cfg <> "" /\ Email cfg <> "" /\ Password cfg <> "" /\
    Str.has_prefix (Str.to_lower (BaseURL cfg)) "https://" = true.
Proof.
  intros Hp. unfold NewMBSClient, legacyGate, newLiveRailOrFatal. rewrite Hp.
  case_bool_decide as H0; [case_bool_decide; [done|]; intros [= <-]; by left|].
  case_bool_decide as H1; [done|]. case_bool_decide as H2; [|done].
  destruct (LiveRailConfigFromEnv env) as [cfg|] eqn:E; [|done]. intros [= <-]. right. split; [done|]. exists cfg.
  split; [done|]. split; [done|]. unfold LiveRailConfigFromEnv in E. set (cfg0 := mkLive _ _ _ _ _ _) in E.
  destruct (filter (fun kv : string * string => kv.2 = "") (required cfg0)) as [|? ?] eqn:F; [|done]. cbn [map] in E.
  destruct (Str.has_prefix _ _) eqn:H; [|done]. injection E as <-. apply filter_nil in F. unfold required in F.
  rewrite !Forall_cons in F. cbn [snd] in F. tauto.
Qed.

(** ** The report of a consumer sale *)

Section B2C.
Context `{Crypto} (citations : Citation.CitationResolver).

(** On the HTTP rail a consumer sale counts as reported whatever the rail
    answers, as long as the body decodes: the status line of the response is
    never looked at, neither is the status of the receipt, and a failure to
    store is not reported either - the caller gets 200. *)
Theorem http_b2c_reported_unchecked hio io2 base net claims id inv rep receipt sv :
  EinvStore.Get id (store sv) = Some inv -> EinvHandlers.tenantGuard claims inv = None ->
  (forall rq, rq_URL rq = trimRight "/" base +:+ "/v1/b2c/reports" -> net rq = Some rep) -> as_receipt rep = Some receipt ->
  exists sv', EinvHandlers.handleB2CReport citations hio io2 (httpReportB2C base net) claims (Some (EinvHandlers.b2cStored id)) sv = (sv', JSON 200 receipt) /\
    (EinvStore.byID (store sv') = EinvStore.byID (store sv) \/
     exists inv', EinvStore.byID (store sv') = <[ID inv := inv']> (EinvStore.byID (store sv)) /\ Status inv' = "reported" /\ InvoiceType inv' = "B2C").
Proof.
  intros Hg Ht Hn Hr. unfold EinvHandlers.handleB2CReport, EinvHandlers.b2cInvoice. rewrite Hg, Ht.
  assert (E : httpReportB2C base net (inv{{ InvoiceType := "B2C" }}) = Some receipt) by (unfold httpReportB2C; rewrite Hn by done; exact Hr).
  rewrite E. unfold saveInv.
  pose proof (EinvHandlerProps.SaveCtx_cases (io_save io2) (io_now io2) (inv{{ InvoiceType := "B2C" }}{{ Status := "reported" }}) (store sv)) as Hs.
  cbn [fst snd]. destruct (EinvStore.SaveCtx _ _ _ _) as [[[s inv1] i] [e|]]; cbn [fst snd]; eexists; (split; [reflexivity|]);
    unfold EinvHandlers.emit; rewrite EinvHandlerProps.publish_store; cbn [snd store setStore].
  - left. apply Hs.
  - right. destruct Hs as (E1 & _ & ->). exists inv1. rewrite EinvHandlerProps.index_byID. subst inv1. rewrite EinvHandlerProps.stamped_ID. by destruct inv.
Qed.
End B2C.

(** ** At concrete environments *)

Definition demo_env (k : string) : string :=
  if bool_decide (k = "PROFILE") then "prod" else if bool_decide (k = "MBS_PROFILE") then " Live "
  else if bool_decide (k = "MBS_LIVE_BASE_URL") then "HTTPS://rail.example/" else if bool_decide (k = "APP_ROUTES") then "t1=x, t2=mbs-live-rail"
  else if Str.has_prefix k "MBS_LIVE_" then "v" else "".
Definition demo_cfg : LiveRailConfig := mkLive "HTTPS://rail.example" "v" "v" "v" "v" "".

Definition demo_clearance : ClearanceResult := mkClearance "" None "cleared" "2026-01-27T00:00:00Z".
Definition demo_rail (h : list request) (rq : request) : option reply :=
  match rq_Body rq with
  | loginBody _ _ => Some (mkReply 200 (Some "new") None None)
  | _ => if bool_decide (("Authorization", "Bearer new") ∈ rq_Header rq) then Some (mkReply 201 None (Some demo_clearance) None)
         else Some (mkReply 401 None None None)
  end.

Section Witnesses.
#[local] Existing Instance Toy.crypto.
Import EinvNrsProps.Demo.

Lemma live_rail_heals_witness :
  exists c', Preclear demo_cfg demo_rail (fun _ tok => tok) inv_a "<x/>" (mkConn "stale" [] 0) =
    (c', Some (mkClearance (IRN inv_a) None "cleared" "2026-01-27T00:00:00Z")) /\ token c' = "new" /\ (length (sent c') <= 0 + 3)%nat.
Proof.
  apply (live_rail_heals demo_cfg demo_rail inv_a "<x/>" (mkConn "stale" [] 0) "new" (mkReply 201 None (Some demo_clearance) None) demo_clearance).
  - discriminate.
  - intros h old _ Hold. unfold demo_rail. cbn [rq_Body authed rq_Header]. rewrite bool_decide_eq_false_2; [eexists; split; reflexivity|].
    intros Hin. rewrite !elem_of_cons in Hin. destruct Hin as [?|[?|[?|[E|Hin]]]]; [done..| |by apply elem_of_nil in Hin].
    apply Hold. injection E as E. by rewrite E.
  - intros h. eexists. split; [reflexivity|]. by split.
  - intros h. vm_compute. reflexivity.
  - cbn. lia.
  - reflexivity.
  - vm_compute. reflexivity.
Defined.

Lemma prod_rail_fails_closed_witness :
  prodProfile demo_env = true /\
  (selectMBSProfile demo_env = "" /\ demo_env "MBS_BASE_URL" <> "" /\ LiveRail demo_cfg = HTTPMBS (demo_env "MBS_BASE_URL") \/
  selectMBSProfile demo_env = "live" /\ exists cfg, LiveRail demo_cfg = LiveRail cfg /\ LiveRailConfigFromEnv demo_env = Ok cfg /\
    APIKey cfg <> "" /\ APISecret cfg <> "" /\ Email cfg <> "" /\ Password cfg <> "" /\
    Str.has_prefix (Str.to_lower (BaseURL cfg)) "https://" = true).
Proof.
  split; [vm_compute; reflexivity|]. apply (prod_rail_fails_closed demo_env (LiveRail demo_cfg)); vm_compute; reflexivity.
Defined.

(** An error page that happens to be a JSON object *)
Definition demo_net (_ : request) : option reply := Some (mkReply 500 None None (Some (mkReceipt "" "" "" ""))).

Lemma http_b2c_reported_unchecked_witness :
  exists sv', EinvHandlers.handleB2CReport ∅ EinvHandlerProps.hio_demo io_demo (httpReportB2C "http://rail" demo_net) None
      (Some (EinvHandlers.b2cStored "a")) (server_of store_a) = (sv', JSON 200 (mkReceipt "" "" "" "")) /\
    (EinvStore.byID (store sv') = EinvStore.byID store_a \/
     exists inv', EinvStore.byID (store sv') = <["a" := inv']> (EinvStore.byID store_a) /\ Status inv' = "reported" /\ InvoiceType inv' = "B2C").
Proof.
  apply (http_b2c_reported_unchecked ∅ EinvHandlerProps.hio_demo io_demo "http://rail" demo_net None "a" inv_a
           (mkReply 500 None None (Some (mkReceipt "" "" "" ""))) (mkReceipt "" "" "" "") (server_of store_a));
    [vm_compute; reflexivity|reflexivity|reflexivity|reflexivity].
Defined.

(** A tenant sent to an access point that is not registered is refused; the
    live rail is listed as a simulator. *)
Example routes_of_demo :
  let r := NewAPPRouter demo_env (LiveRail demo_cfg) in
  (option_map fst (resolve r "t1"), option_map fst (resolve r "t2"), option_map fst (resolve r "t3"), List r) =
  (None, Some "mbs-live-rail", Some "mbs-live-rail", [("mbs-live-rail", "simulator")]).
Proof. vm_compute. reflexivity. Qed.
End Witnesses.
