(* ===== verification/EinvQr.v ===== *)
(** * einvoicing: the QR code of an invoice (services/einvoicing/qr.go)

    The arithmetic of GF(256) by tables, the Reed-Solomon encoder, the data
    codewords, the matrix with its function patterns, placement and mask, the
    SVG, and the signed payload.  Bits are the numbers 0 and 1 as in the code;
    a matrix is a list of rows.  Every index the code uses is in range, as
    [EinvQrProps] shows, so a write out of range does nothing here. *)

From S2P Require Import Prelude Crypto GoTime EinvModel EinvStore.
From S2P Require Auth EinvHandlers EinvWorkflow.

(** ** GF(256) *)

Definition zget (l : list Z) (i : Z) : Z := default 0 (l !! Z.to_nat i).

(** One round of the loop of [init] *)
Definition gfNext (x : Z) : Z :=
  let x := Z.shiftl x 1 in
  if negb (Z.land x 256 =? 0) then Z.lxor x 285 else x.

Fixpoint gfFill (k : nat) (i x : Z) (exp log : list Z) : list Z * list Z :=
  match k with
  | O => (exp, log)
  | S k => gfFill k (i + 1) (gfNext x) (<[Z.to_nat i := x]> exp) (<[Z.to_nat x := i]> log)
  end.

Definition gfInit : list Z * list Z :=
  let '(exp, log) := gfFill 255 0 1 (replicate 512 0) (replicate 256 0) in
  (foldl (fun e i => <[i := default 0 (e !! (i - 255)%nat)]> e) exp (seq 255 257), log).

(** The tables, once filled *)
Definition gfTables : list Z * list Z := Eval vm_compute in gfInit.
Definition gfExp : list Z := Eval cbv in gfTables.1.
Definition gfLog : list Z := Eval cbv in gfTables.2.

Definition gfMul (a b : Z) : Z :=
  if (a =? 0) || (b =? 0) then 0 else zget gfExp (zget gfLog a + zget gfLog b).

(** ** Reed-Solomon *)

(** One factor: [p2[j] ^= c * e; p2[j+1] ^= c] *)
Definition mulRoot (e : Z) (p : list Z) : list Z :=
  zip_with Z.lxor (map (fun c => gfMul c e) p ++ [0]) (0 :: p).

Fixpoint genFrom (i n : nat) (p : list Z) : list Z :=
  match n with
  | O => p
  | S n => genFrom (S i) n (mulRoot (zget gfExp (Z.of_nat i)) p)
  end.

(** Ascending *)
Definition rsGenPoly (n : nat) : list Z := genFrom 0 n [1].

(** One symbol through the register; [gd]: the generator, descending *)
Definition rsStep (gd : list Z) (res : list Z) (d : Z) : list Z :=
  let factor := Z.lxor d (zget res 0) in
  let shifted := tail res ++ [0] in
  if factor =? 0 then shifted else zip_with (fun r g => Z.lxor r (gfMul g factor)) shifted (tail gd).

Definition rsEncode (data : list Z) (n : nat) : list Z :=
  foldl (rsStep (rev (rsGenPoly n))) (replicate n 0) data.

(** ** Codewords *)

(** Number of blocks, codewords and data codewords of a block, for level M *)
Definition qrRSGroups (v : nat) : list (nat * nat * nat) :=
  match v with
  | 1 => [(1, 26, 16)]
  | 2 => [(1, 44, 28)]
  | 3 => [(1, 70, 44)]
  | 4 => [(2, 50, 32)]
  | 5 => [(2, 67, 43)]
  | 6 => [(4, 43, 27)]
  | _ => []
  end%nat.

Definition qrAlign (v : nat) : list Z :=
  match v with
  | 2%nat => [6; 18] | 3%nat => [6; 22] | 4%nat => [6; 26] | 5%nat => [6; 30] | 6%nat => [6; 34]
  | _ => []
  end.

Definition qrDataCodewords (v : nat) : nat := foldl (fun n '(c, _, d) => (n + c * d)%nat) 0%nat (qrRSGroups v).

(** [put] *)
Definition put (val : Z) (n : nat) : list Z := map (fun i => Z.land (Z.shiftr val (Z.of_nat (n - 1 - i))) 1) (seq 0 n).

(** Bits up to a multiple of eight *)
Fixpoint alignBits (fuel : nat) (bits : list Z) : list Z :=
  match fuel with
  | O => bits
  | S fuel => if (length bits mod 8 =? 0)%nat then bits else alignBits fuel (bits ++ [0])
  end.

Fixpoint padBits (fuel : nat) (i : nat) (total : nat) (bits : list Z) : list Z :=
  match fuel with
  | O => bits
  | S fuel => if (length bits <? total)%nat
              then padBits fuel (S i) total (bits ++ put (if Nat.even i then 236 else 17) 8)
              else bits
  end.

(** [data\[j\]]: eight bits, the first the highest *)
Definition packByte (bits : list Z) : Z :=
  foldl (fun acc k => Z.lor acc (Z.shiftl (zget bits (Z.of_nat k)) (7 - Z.of_nat k))) 0 (seq 0 8).

(** Pieces of [d], [k] of them *)
Fixpoint chunks {A} (k d : nat) (l : list A) : list (list A) :=
  match k with
  | O => []
  | S k => take d l :: chunks k d (drop d l)
  end.

Definition qrVersion (len : nat) : option nat := List.find (fun v => (2 + len <=? qrDataCodewords v)%nat) (seq 1 6).

(** The bits of the data codewords *)
Definition qrBits (dcw : nat) (payload : list Z) : list Z :=
  let bits := put 4 4 ++ put (Z.of_nat (length payload)) 8 ++ concat (map (fun b => put b 8) payload) in
  let rem := (dcw * 8 - length bits)%nat in
  let bits := bits ++ put 0 (if (4 <? rem)%nat then 4 else rem) in
  padBits dcw 0 (dcw * 8) (alignBits 8 bits).

(** The blocks of a version: data and number of correction codewords *)
Fixpoint qrSplit (groups : list (nat * nat * nat)) (data : list Z) : list (list Z * nat) :=
  match groups with
  | [] => []
  | (cnt, total, dlen) :: groups =>
      map (fun d => (d, (total - dlen)%nat)) (chunks cnt dlen data) ++ qrSplit groups (drop (cnt * dlen) data)
  end.

(** Column by column over blocks of possibly different lengths *)
Definition interleave (blocks : list (list Z)) : list Z :=
  let m := foldl Nat.max 0%nat (map length blocks) in
  concat (map (fun j => omap (fun b => b !! j) blocks) (seq 0 m)).

Definition qrEncodeData (payload : list Z) : option (nat * list Z) :=
  v ← qrVersion (length payload);
  let dcw := qrDataCodewords v in
  let data := map packByte (chunks dcw 8 (qrBits dcw payload)) in
  let blocks := qrSplit (qrRSGroups v) data in
  let ecs := map (fun b => rsEncode b.1 b.2) blocks in
  Some (v, interleave (map fst blocks) ++ interleave ecs).

(** ** The matrix *)

Abbreviation matrix := (list (list bool)).

Definition inRange (n r c : Z) : bool := (0 <=? r) && (r <? n) && (0 <=? c) && (c <? n).

Definition mget (m : matrix) (p : Z * Z) : bool := default false (row ← m !! Z.to_nat p.1; row !! Z.to_nat p.2).
Definition mset (m : matrix) (p : Z * Z) (b : bool) : matrix := alter (fun row => <[Z.to_nat p.2 := b]> row) (Z.to_nat p.1) m.

(** The modules [m] and the function modules [fn] *)
Record canvas := mkCanvas { mods : matrix; func : matrix }.

Definition setF (cv : canvas) (r c : Z) (val : bool) : canvas := mkCanvas (mset (mods cv) (r, c) val) (mset (func cv) (r, c) true).

Definition zseq (lo : Z) (k : nat) : list Z := map (fun i => lo + Z.of_nat i) (seq 0 k).

Definition finderOn (dr dc : Z) : bool :=
  (0 <=? dr) && (dr <=? 6) && (0 <=? dc) && (dc <=? 6) &&
  ((dr =? 0) || (dr =? 6) || (dc =? 0) || (dc =? 6) || ((2 <=? dr) && (dr <=? 4) && (2 <=? dc) && (dc <=? 4))).

Definition finder (n r c : Z) (cv : canvas) : canvas :=
  foldl (fun cv dr => foldl (fun cv dc =>
    if negb (inRange n (r + dr) (c + dc)) then cv else setF cv (r + dr) (c + dc) (finderOn dr dc)) cv (zseq (-1) 9)) cv (zseq (-1) 9).

Definition timing (n : Z) (cv : canvas) : canvas :=
  foldl (fun cv i => setF (setF cv 6 i (Z.even i)) i 6 (Z.even i)) cv (zseq 8 (Z.to_nat (n - 16))).

Definition alignmentAt (cv : canvas) (r c : Z) : canvas :=
  if mget (func cv) (r, c) then cv
  else foldl (fun cv dr => foldl (fun cv dc =>
         setF cv (r + dr) (c + dc) (negb (Z.max (Z.abs dr) (Z.abs dc) =? 1))) cv (zseq (-2) 5)) cv (zseq (-2) 5).

Definition alignment (v : nat) (cv : canvas) : canvas :=
  foldl (fun cv r => foldl (fun cv c => alignmentAt cv r c) cv (qrAlign v)) cv (qrAlign v).

(** The areas of the format information *)
Definition reserve (n : Z) (cv : canvas) : canvas :=
  let mark f p := mset f p true in
  let f := foldl (fun f i => mark (mark f (8, i)) (i, 8)) (func cv) (zseq 0 9) in
  mkCanvas (mods cv) (foldl (fun f i => mark (mark f (8, n - 1 - i)) (n - 1 - i, 8)) f (zseq 0 8)).

Definition sizeOf (v : nat) : Z := 17 + 4 * Z.of_nat v.

Definition blankMatrix (n : Z) : matrix := replicate (Z.to_nat n) (replicate (Z.to_nat n) false).

(** Everything before the data is placed *)
Definition skeleton (v : nat) : canvas :=
  let n := sizeOf v in
  let cv := mkCanvas (blankMatrix n) (blankMatrix n) in
  let cv := finder n (n - 7) 0 (finder n 0 (n - 7) (finder n 0 0 cv)) in
  let cv := alignment v (timing n cv) in
  reserve n (setF cv (n - 8) 8 true).

(** The pairs of columns from right to left, past the timing column; [fuel]:
    one per pair *)
Fixpoint columns (fuel : nat) (col : Z) (upward : bool) : list (Z * bool) :=
  match fuel with
  | O => []
  | S fuel =>
      if col <=? 0 then []
      else let col := if col =? 6 then col - 1 else col in
           (col, upward) :: columns fuel (col - 2) (negb upward)
  end.

(** The modules in the order of the placement *)
Definition walk (n : Z) : list (Z * Z) :=
  concat (map (fun '(col, upward) =>
    concat (map (fun k => let r := if (upward : bool) then n - 1 - k else k in [(r, col); (r, col - 1)]) (zseq 0 (Z.to_nat n))))
    (columns (Z.to_nat n) (n - 1) true)).

(** A bit under mask 0 *)
Definition masked (p : Z * Z) (bit : Z) : bool :=
  let bit := if Z.even (p.1 + p.2) then Z.lxor bit 1 else bit in bit =? 1.

(** Placement: [i] counts the free modules passed *)
Fixpoint place (fn : matrix) (ps : list (Z * Z)) (bits : list Z) (m : matrix) : matrix :=
  match ps with
  | [] => m
  | p :: ps =>
      if mget fn p then place fn ps bits m
      else place fn ps (tail bits) (mset m p (masked p (default 0 (head bits))))
  end.

Definition formatBits : list Z := map (fun j => Z.land (Z.shiftr 21522 (Z.of_nat (14 - j))) 1) (seq 0 15).
Definition pos1 : list (Z * Z) :=
  [(8, 0); (8, 1); (8, 2); (8, 3); (8, 4); (8, 5); (8, 7); (8, 8); (7, 8); (5, 8); (4, 8); (3, 8); (2, 8); (1, 8); (0, 8)].
Definition pos2 (n : Z) : list (Z * Z) :=
  [(n - 1, 8); (n - 2, 8); (n - 3, 8); (n - 4, 8); (n - 5, 8); (n - 6, 8); (n - 7, 8); (8, n - 8); (8, n - 7); (8, n - 6);
   (8, n - 5); (8, n - 4); (8, n - 3); (8, n - 2); (8, n - 1)].
Definition setAll (m : matrix) (ps : list (Z * Z)) (bits : list Z) : matrix :=
  foldl (fun m '(p, b) => mset m p (b =? 1)) m (zip ps bits).

Definition QRMatrix (payload : list Z) : option matrix :=
  '(v, codewords) ← qrEncodeData payload;
  let n := sizeOf v in
  let cv := skeleton v in
  let bits := concat (map (fun b => put b 8) codewords) in
  let m := place (func cv) (walk n) bits (mods cv) in
  Some (setAll (setAll m pos1 formatBits) (pos2 n) formatBits).

(** ** The image *)

Definition dq : string := String "034" "".
Definition attr (k v : string) : string := k +:+ "=" +:+ dq +:+ v +:+ dq.

Definition QRSVG (m : matrix) (scale : Z) : string :=
  let n := Z.of_nat (length m) in
  let size := pretty ((n + 4) * scale) in
  "<svg " +:+ attr "xmlns" "http://www.w3.org/2000/svg" +:+ " " +:+ attr "viewBox" ("0 0 " +:+ size +:+ " " +:+ size) +:+ " " +:+
  attr "width" size +:+ " " +:+ attr "height" size +:+ "><rect " +:+ attr "width" size +:+ " " +:+ attr "height" size +:+ " " +:+
  attr "fill" "#fff" +:+ "/><g " +:+ attr "fill" "#000" +:+ ">" +:+
  String.concat "" (map (fun r => String.concat "" (map (fun c =>
    if mget m (r, c)
    then "<rect " +:+ attr "x" (pretty ((c + 2) * scale)) +:+ " " +:+ attr "y" (pretty ((r + 2) * scale)) +:+ " " +:+
         attr "width" (pretty scale) +:+ " " +:+ attr "height" (pretty scale) +:+ "/>"
    else "") (zseq 0 (length m)))) (zseq 0 (length m))) +:+ "</g></svg>".

(** ** The signed payload *)

Fixpoint textBytes (s : string) : list Z := match s with EmptyString => [] | String c s => byte_val c :: textBytes s end.

Definition qrDevKey : string := "meridian-dev-qr-key".
Definition qrKey (env : string) : string := Str.or_default env qrDevKey.

(** [validateQRKey]: whether the process may start *)
Definition validateQRKey (mode env : string) : bool :=
  negb (negb (bool_decide (mode = "")) && negb (bool_decide (mode = "dev")) && bool_decide (env = "")).

Section Payload.
Context `{Crypto}.

(** [qrMACCtx] without a provider; with one, its answer stands in its place *)
Definition qrMAC (env payload : string) : option string := Some (hmac256 (qrKey env) payload).

Definition unseparated (c : ascii) : bool :=
  negb (bool_decide (c = "-"%char) || bool_decide (c = ":"%char) || bool_decide (c = "T"%char) || bool_decide (c = "Z"%char)).

Fixpoint keepChars (P : ascii -> bool) (s : string) : string :=
  match s with
  | EmptyString => EmptyString
  | String c s => if P c then String c (keepChars P s) else keepChars P s
  end.

(** The zero time has its own text. *)
Definition qrTime (t : option Z) : string :=
  keepChars unseparated (match t with Some t => format t | None => "0001-01-01T00:00:00Z" end).

Definition qrText (inv : CanonicalInvoice) : string :=
  "NRS1|" +:+ IRN inv +:+ "|" +:+ TIN (Supplier inv) +:+ "|" +:+ pretty (PayableKobo inv) +:+ "|" +:+ qrTime (UpdatedAt inv).

Definition QRPayload (mac : string -> option string) (inv : CanonicalInvoice) : option (string * string) :=
  sum ← mac (qrText inv); Some (qrText inv, Str.take 12 (hex sum)).

Definition VerifyQRPayload (mac : string -> option string) (payload signature : string) : bool :=
  match mac payload with Some sum => bool_decide (Str.take 12 (hex sum) = signature) | None => false end.

(** The payload with its signature, and the image *)
Definition handleGetQR (mac : string -> option string) (claims : option Auth.Claims) (id : string) (s : InvoiceStore)
  : response (string * string * string) :=
  match Get id s with
  | None => Problem 404 "not found"
  | Some inv =>
      match EinvHandlers.tenantGuard claims inv with
      | Some (code, title) => Problem code title
      | None =>
          if bool_decide (IRN inv = "") then Problem 409 "not cleared"
          else match QRPayload mac inv with
               | None => Problem 500 "qr signing error"
               | Some (payload, sig) =>
                   let full := payload +:+ "|" +:+ sig in
                   match QRMatrix (textBytes full) with
                   | None => Problem 500 "qr error"
                   | Some m => JSON 200 (full, sig, QRSVG m 4)
                   end
               end
      end
  end.
End Payload.

(** ** The golden matrix of the tests *)

Definition rowText (row : list bool) : string := String.concat "" (map (fun b : bool => if b then "1" else "0") row).

Example golden_matrix :
  option_map (map rowText) (QRMatrix (textBytes "NRS1|00012345-0001-20260731120000|12345678-0001|10750000|20260731120000|82bc92fe019f")) = Some [
  "1111111001010101110110011001101111111";
  "1000001010110100011110110101001000001";
  "1011101001111111101110011011101011101";
  "1011101001110010100110011001101011101";
  "1011101011000111110100011001101011101";
  "1000001001010001010101010101001000001";
  "1111111010101010101010101010101111111";
  "0000000000001011011101010101000000000";
  "1010101001000101111011100110000010010";
  "1111000101111001011011100110001101000";
  "0010111010111010101011100010101100111";
  "0110010000111010111001110101100001011";
  "1001111010100000011001100111001101001";
  "0011100101001010011001100110001101001";
  "1100001000101010011010101110011011001";
  "1111100001010010110101001101100101010";
  "0000011100111000110011100111001101001";
  "0100110011010010110011100110101101000";
  "0011111010001110011010100010101010111";
  "1011110011000001010001110111011101011";
  "0100101100101111011001100110101101010";
  "0110100110100100011001100100001101001";
  "0100011110010000110010101100001011101";
  "1111010101100100110101000101110100000";
  "1111101010000110010001100110001101010";
  "0100010011100000010001100010001101010";
  "1001101001100010011010100000101111111";
  "0110010000010101011101100111001100010";
  "1010101111001000011101100110111111011";
  "0000000011000110011001100110100010111";
  "1111111000100110000010101011101010101";
  "1000001001000001111101010101100011010";
  "1011101011001100011001000110111111000";
  "1011101000100010011001100111010010100";
  "1011101010101010100011100111110010111";
  "1000001001000101010111001100110101010";
  "1111111010010110011101100110101011011"].
Proof. vm_compute. reflexivity. Qed.
