(* ===== verification/ReedSolomon.v ===== *)
(** * einvoicing: what the QR encoder computes with (services/einvoicing/qr.go)

    The table multiplication is that of the field GF(256) with the polynomial
    of the QR standard, and the correction codewords make the block a codeword
    of the Reed-Solomon code: every syndrome vanishes. *)

From S2P Require Import Prelude EinvQr.
From Stdlib Require Import Btauto.

Definition isByte (b : Z) : Prop := 0 <= b < 256.
#[global] Arguments isByte : simpl never.
#[export] Instance isByte_dec b : Decision (isByte b).
Proof. unfold isByte. apply _. Defined.

(** A property of bytes that a computation has checked *)
Lemma byte_all (f : Z -> bool) b : forallb f (zseq 0 256) = true -> isByte b -> f b = true.
Proof.
  intros Hf Hb. rewrite forallb_forall in Hf. apply Hf. unfold zseq. apply in_map_iff. exists (Z.to_nat b).
  unfold isByte in Hb. split; [lia|]. apply in_seq. lia.
Qed.

Lemma lxor_byte a b : isByte a -> isByte b -> isByte (Z.lxor a b).
Proof.
  unfold isByte. intros Ha Hb. assert (0 <= Z.lxor a b) by (apply Z.lxor_nonneg; lia). split; [done|].
  destruct (Z.eq_dec (Z.lxor a b) 0) as [->|Hn]; [lia|].
  assert (Hl : forall x, 0 <= x < 256 -> Z.log2 x < 8).
  { intros x Hx. destruct (Z.eq_dec x 0) as [->|]; [done|]. apply Z.log2_lt_pow2; lia. }
  pose proof (Z.log2_lxor a b ltac:(lia) ltac:(lia)). pose proof (Hl a Ha). pose proof (Hl b Hb).
  change 256 with (2 ^ 8). apply Z.log2_lt_pow2; lia.
Qed.

(** ** The field *)

Definition sel (c : bool) (x : Z) : Z := if c then x else 0.

(** Multiplication by x *)
Definition xt (a : Z) : Z := Z.lxor (Z.shiftl a 1) (sel (Z.testbit a 7) 285).

Fixpoint xts (k : nat) (a : Z) : Z := match k with O => a | S k => xt (xts k a) end.

(** The product of the polynomials of [a] and [b] over GF(2), modulo
    x^8 + x^4 + x^3 + x^2 + 1: the sum of the x^k a for the bits k of [b] *)
Definition gmul (a b : Z) : Z :=
  foldl (fun acc k => Z.lxor acc (sel (Z.testbit b (Z.of_nat k)) (xts k a))) 0 (seq 0 8).

Lemma gmul_unfold a b : gmul a b =
  Z.lxor (Z.lxor (Z.lxor (Z.lxor (Z.lxor (Z.lxor (Z.lxor (Z.lxor 0
    (sel (Z.testbit b 0) (xts 0 a))) (sel (Z.testbit b 1) (xts 1 a))) (sel (Z.testbit b 2) (xts 2 a)))
    (sel (Z.testbit b 3) (xts 3 a))) (sel (Z.testbit b 4) (xts 4 a))) (sel (Z.testbit b 5) (xts 5 a)))
    (sel (Z.testbit b 6) (xts 6 a))) (sel (Z.testbit b 7) (xts 7 a)).
Proof. reflexivity. Qed.

Lemma testbit_sel c x n : Z.testbit (sel c x) n = c && Z.testbit x n.
Proof. destruct c; [done|]. apply Z.bits_0. Qed.

(** Equalities of sums, bit by bit *)
Ltac by_bits :=
  apply Z.bits_inj'; intros ? ?; rewrite ?Z.lxor_spec, ?testbit_sel, ?Z.lxor_spec, ?testbit_sel, ?Z.bits_0; btauto.

Lemma xt_xor a b : xt (Z.lxor a b) = Z.lxor (xt a) (xt b).
Proof. unfold xt. rewrite Z.shiftl_lxor, Z.lxor_spec. by_bits. Qed.

Lemma xt_sel c a : xt (sel c a) = sel c (xt a).
Proof. by destruct c. Qed.

Lemma xts_xor k a b : xts k (Z.lxor a b) = Z.lxor (xts k a) (xts k b).
Proof. induction k as [|k IH]; [done|]. cbn [xts]. by rewrite IH, xt_xor. Qed.

Lemma gmul_xor_l a a' b : gmul (Z.lxor a a') b = Z.lxor (gmul a b) (gmul a' b).
Proof. rewrite !gmul_unfold, !xts_xor. by_bits. Qed.

Lemma gmul_xor_r a b b' : gmul a (Z.lxor b b') = Z.lxor (gmul a b) (gmul a b').
Proof. rewrite !gmul_unfold, !Z.lxor_spec. by_bits. Qed.

Lemma xts_0 k : xts k 0 = 0.
Proof. induction k as [|k IH]; [done|]. cbn [xts]. by rewrite IH. Qed.

Lemma gmul_0_l b : gmul 0 b = 0.
Proof. rewrite gmul_unfold, !xts_0. by_bits. Qed.
Lemma gmul_0_r a : gmul a 0 = 0.
Proof. rewrite gmul_unfold, !Z.bits_0. done. Qed.
Lemma gmul_1_r a : gmul a 1 = a.
Proof. rewrite gmul_unfold. cbn -[Z.lxor xt]. by rewrite !Z.lxor_0_r, Z.lxor_0_l. Qed.

(** x^8 = x^4 + x^3 + x^2 + 1 *)
Lemma reduce a : isByte a -> xts 8 a = Z.lxor (Z.lxor (Z.lxor a (xts 2 a)) (xts 3 a)) (xts 4 a).
Proof.
  intros Ha. apply Z.eqb_eq.
  apply (byte_all (fun a => xts 8 a =? Z.lxor (Z.lxor (Z.lxor a (xts 2 a)) (xts 3 a)) (xts 4 a))); [vm_compute; reflexivity|done].
Qed.

Lemma bits_xt b : isByte b ->
  map (fun k => Z.testbit (xt b) (Z.of_nat k)) (seq 0 8) =
  [Z.testbit b 7; Z.testbit b 0; xorb (Z.testbit b 1) (Z.testbit b 7); xorb (Z.testbit b 2) (Z.testbit b 7);
   xorb (Z.testbit b 3) (Z.testbit b 7); Z.testbit b 4; Z.testbit b 5; Z.testbit b 6].
Proof.
  intros Hb. unfold xt. cbn [map seq]. rewrite !Z.lxor_spec, !testbit_sel, !Z.shiftl_spec by lia.
  rewrite (Z.testbit_neg_r b (Z.of_nat 0 - 1)) by lia.
  change (Z.testbit 285 (Z.of_nat 0)) with true. change (Z.testbit 285 (Z.of_nat 1)) with false.
  change (Z.testbit 285 (Z.of_nat 2)) with true. change (Z.testbit 285 (Z.of_nat 3)) with true.
  change (Z.testbit 285 (Z.of_nat 4)) with true. change (Z.testbit 285 (Z.of_nat 5)) with false.
  change (Z.testbit 285 (Z.of_nat 6)) with false. change (Z.testbit 285 (Z.of_nat 7)) with false.
  change (Z.of_nat 1 - 1) with 0. change (Z.of_nat 2 - 1) with 1. change (Z.of_nat 3 - 1) with 2. change (Z.of_nat 4 - 1) with 3.
  change (Z.of_nat 5 - 1) with 4. change (Z.of_nat 6 - 1) with 5. change (Z.of_nat 7 - 1) with 6.
  by rewrite !andb_true_r, !andb_false_r, !xorb_false_r, xorb_false_l.
Qed.

Lemma gmul_xt_r a b : isByte a -> isByte b -> gmul a (xt b) = xt (gmul a b).
Proof.
  intros Ha Hb.
  assert (E0 : Z.testbit (xt b) 0 = Z.testbit b 7) by exact (f_equal (fun l => nth 0 l false) (bits_xt b Hb)).
  assert (E1 : Z.testbit (xt b) 1 = Z.testbit b 0) by exact (f_equal (fun l => nth 1 l false) (bits_xt b Hb)).
  assert (E2 : Z.testbit (xt b) 2 = xorb (Z.testbit b 1) (Z.testbit b 7)) by exact (f_equal (fun l => nth 2 l false) (bits_xt b Hb)).
  assert (E3 : Z.testbit (xt b) 3 = xorb (Z.testbit b 2) (Z.testbit b 7)) by exact (f_equal (fun l => nth 3 l false) (bits_xt b Hb)).
  assert (E4 : Z.testbit (xt b) 4 = xorb (Z.testbit b 3) (Z.testbit b 7)) by exact (f_equal (fun l => nth 4 l false) (bits_xt b Hb)).
  assert (E5 : Z.testbit (xt b) 5 = Z.testbit b 4) by exact (f_equal (fun l => nth 5 l false) (bits_xt b Hb)).
  assert (E6 : Z.testbit (xt b) 6 = Z.testbit b 5) by exact (f_equal (fun l => nth 6 l false) (bits_xt b Hb)).
  assert (E7 : Z.testbit (xt b) 7 = Z.testbit b 6) by exact (f_equal (fun l => nth 7 l false) (bits_xt b Hb)).
  rewrite !gmul_unfold, E0, E1, E2, E3, E4, E5, E6, E7. rewrite !xt_xor, !xt_sel.
  change (xt 0) with 0. change (xt (xts 7 a)) with (xts 8 a). rewrite (reduce a Ha). cbn [xts]. generalize (Z.testbit b 7). intros c. by_bits.
Qed.

(** ** The tables *)

Abbreviation E := (fun i => zget gfExp i).

Lemma gfNext_xt a : isByte a -> gfNext a = xt a.
Proof.
  intros Ha. apply Z.eqb_eq. apply (byte_all (fun a => gfNext a =? xt a)); [vm_compute; reflexivity|done].
Qed.

Lemma exp_facts i : 0 <= i < 510 -> isByte (E i) /\ E (i + 1) = xt (E i).
Proof.
  intros Hi. assert (H : forallb (fun i => bool_decide (isByte (E i)) && (E (i + 1) =? xt (E i))) (zseq 0 510) = true) by (vm_compute; reflexivity).
  rewrite forallb_forall in H. specialize (H i). unfold zseq in H. rewrite in_map_iff in H.
  destruct (andb_prop _ _ (H ltac:(exists (Z.to_nat i); split; [lia|apply in_seq; lia]))) as [H1%bool_decide_eq_true_1 H2%Z.eqb_eq]. done.
Qed.

Lemma log_facts a : isByte a -> a <> 0 -> 0 <= zget gfLog a <= 254 /\ E (zget gfLog a) = a.
Proof.
  intros Ha Hn.
  assert (H : (a =? 0) || ((0 <=? zget gfLog a) && (zget gfLog a <=? 254) && (E (zget gfLog a) =? a)) = true)
    by (apply (byte_all (fun a => (a =? 0) || ((0 <=? zget gfLog a) && (zget gfLog a <=? 254) && (E (zget gfLog a) =? a))));
        [vm_compute; reflexivity|done]).
  rewrite !orb_true_iff, !andb_true_iff, !Z.leb_le, !Z.eqb_eq in H. destruct H as [?|[[? ?] ?]]; [done|lia].
Qed.

Lemma E_0 : E 0 = 1.
Proof. reflexivity. Qed.

Lemma gmul_E i j : 0 <= i -> 0 <= j -> i + j < 510 -> gmul (E i) (E j) = E (i + j).
Proof.
  intros Hi. revert j. apply (natlike_ind (fun j => i + j < 510 -> gmul (E i) (E j) = E (i + j))).
  - intros _. rewrite E_0, gmul_1_r. by rewrite Z.add_0_r.
  - intros j Hj IH Hl. rewrite <- Z.add_1_r. destruct (exp_facts j ltac:(lia)) as [Hb ->].
    rewrite gmul_xt_r; [|apply exp_facts; lia|done]. rewrite IH by lia.
    rewrite Z.add_assoc. symmetry. apply exp_facts. lia.
Qed.

Lemma gfMul_gmul a b : isByte a -> isByte b -> gfMul a b = gmul a b.
Proof.
  intros Ha Hb. unfold gfMul. destruct (Z.eqb_spec a 0) as [->|Ha0]; [by rewrite gmul_0_l|].
  destruct (Z.eqb_spec b 0) as [->|Hb0]; [by rewrite gmul_0_r|]. cbn [orb].
  destruct (log_facts a Ha Ha0) as [Hla Ea], (log_facts b Hb Hb0) as [Hlb Eb].
  rewrite <- (gmul_E (zget gfLog a)) by lia. by rewrite Ea, Eb.
Qed.

Lemma gmul_byte a b : isByte a -> isByte b -> isByte (gmul a b).
Proof.
  intros Ha Hb. rewrite <- gfMul_gmul by done. unfold gfMul. destruct (_ || _) eqn:Eo; [done|].
  apply orb_false_iff in Eo as [Hna%Z.eqb_neq Hnb%Z.eqb_neq]. destruct (log_facts a Ha Hna), (log_facts b Hb Hnb). apply exp_facts. lia.
Qed.

Lemma gmul_comm a b : isByte a -> isByte b -> gmul a b = gmul b a.
Proof.
  intros Ha Hb. rewrite <- !gfMul_gmul by done. unfold gfMul. rewrite orb_comm. by rewrite Z.add_comm.
Qed.

Lemma byte_ind (P : Z -> Prop) : P 0 -> P 1 -> (forall c, isByte c -> P c -> P (xt c)) -> forall c, isByte c -> P c.
Proof.
  intros H0 H1 Hx c Hc. destruct (Z.eq_dec c 0) as [->|Hn]; [done|]. destruct (log_facts c Hc Hn) as [Hl <-].
  destruct Hl as [Hl0 Hl]. revert Hl. generalize (zget gfLog c) Hl0. clear c Hc Hn Hl0. apply (natlike_ind (fun i => i <= 254 -> P (E i))).
  - by rewrite E_0.
  - intros i Hi IH Hl. rewrite <- Z.add_1_r. destruct (exp_facts i ltac:(lia)) as [Hb ->]. apply Hx; [done|]. apply IH. lia.
Qed.

Lemma gmul_assoc a b c : isByte a -> isByte b -> isByte c -> gmul (gmul a b) c = gmul a (gmul b c).
Proof.
  intros Ha Hb. revert c. apply byte_ind.
  - by rewrite !gmul_0_r.
  - by rewrite !gmul_1_r.
  - intros c Hc IH. rewrite !gmul_xt_r by auto using gmul_byte. by rewrite IH.
Qed.

(** The multiplication by the tables of logarithms is that of polynomials
    over GF(2) modulo x^8 + x^4 + x^3 + x^2 + 1 (0x11D) on all bytes, and the
    tables give every byte but zero its inverse: the bytes are the field
    GF(256). *)
Theorem gf_mul_exact a b : isByte a -> isByte b ->
  gfMul a b = gmul a b /\ isByte (gfMul a b) /\
  (a <> 0 -> gfMul a (zget gfExp (255 - zget gfLog a)) = 1 /\ (gfMul a b = 0 -> b = 0)).
Proof.
  intros Ha Hb. split; [by apply gfMul_gmul|]. rewrite gfMul_gmul by done. split; [by apply gmul_byte|]. intros Hn.
  destruct (log_facts a Ha Hn) as [Hl Ea].
  assert (Hinv : gmul a (E (255 - zget gfLog a)) = 1).
  { rewrite <- Ea at 1. rewrite gmul_E by lia. replace (zget gfLog a + (255 - zget gfLog a)) with 255 by lia. reflexivity. }
  assert (Hib : isByte (E (255 - zget gfLog a))) by (apply exp_facts; lia).
  split; [by rewrite gfMul_gmul|]. intros H0.
  rewrite <- (gmul_1_r b), <- Hinv, <- gmul_assoc, (gmul_comm b a), H0 by done. apply gmul_0_l.
Qed.

(** ** Polynomials *)

#[global] Arguments gmul : simpl never.
#[global] Arguments xt : simpl never.
#[global] Arguments gfMul : simpl never.
#[global] Arguments zget : simpl never.

Abbreviation bytes l := (Forall isByte l).

(** The value at [x], coefficients ascending and descending *)
Definition eva (x : Z) (p : list Z) : Z := foldr (fun c acc => Z.lxor c (gmul acc x)) 0 p.
Definition ev (x : Z) (p : list Z) : Z := foldl (fun acc c => Z.lxor (gmul acc x) c) 0 p.

#[global] Arguments eva : simpl never.
#[global] Arguments ev : simpl never.
Lemma eva_cons x c p : eva x (c :: p) = Z.lxor c (gmul (eva x p) x).
Proof. done. Qed.

Fixpoint pow (x : Z) (n : nat) : Z := match n with O => 1 | S n => gmul (pow x n) x end.

Lemma byte_0 : isByte 0. Proof. done. Qed.
Lemma byte_1 : isByte 1. Proof. done. Qed.
Lemma pow_byte x n : isByte x -> isByte (pow x n).
Proof. intros Hx. induction n as [|n IH]; cbn [pow]; [exact byte_1|]. by apply gmul_byte. Qed.
Lemma eva_byte x p : isByte x -> bytes p -> isByte (eva x p).
Proof. intros Hx. induction 1; [exact byte_0|]. rewrite eva_cons. auto using lxor_byte, gmul_byte. Qed.
Lemma ev_snoc x p c : ev x (p ++ [c]) = Z.lxor (gmul (ev x p) x) c.
Proof. unfold ev. by rewrite foldl_app. Qed.
Lemma ev_byte x p : isByte x -> bytes p -> isByte (ev x p).
Proof.
  intros Hx. induction p as [|c p IH] using rev_ind; [done|]. rewrite Forall_app, Forall_singleton, ev_snoc. intros [? ?].
  auto using lxor_byte, gmul_byte.
Qed.
#[local] Hint Resolve lxor_byte gmul_byte byte_0 byte_1 pow_byte eva_byte ev_byte : core.

Lemma eva_rev x p : ev x (rev p) = eva x p.
Proof. induction p as [|c p IH]; [done|]. cbn [rev]. by rewrite ev_snoc, eva_cons, IH, Z.lxor_comm. Qed.

Lemma ev_cons x c p : isByte x -> isByte c -> bytes p -> ev x (c :: p) = Z.lxor (gmul c (pow x (length p))) (ev x p).
Proof.
  intros Hx Hc. induction p as [|d p IH] using rev_ind.
  - intros _. cbn. change (ev x [c]) with (Z.lxor (gmul 0 x) c). by rewrite gmul_0_l, gmul_1_r, Z.lxor_0_r, Z.lxor_0_l.
  - rewrite Forall_app, Forall_singleton. intros [Hp Hd]. rewrite app_comm_cons, !ev_snoc, IH by done.
    rewrite length_app, Nat.add_1_r. cbn [pow length]. rewrite gmul_xor_l, <- gmul_assoc by auto. by rewrite Z.lxor_assoc.
Qed.

Lemma ev_app x p q : isByte x -> bytes p -> bytes q -> ev x (p ++ q) = Z.lxor (gmul (ev x p) (pow x (length q))) (ev x q).
Proof.
  intros Hx Hp. induction q as [|d q IH] using rev_ind.
  - intros _. cbn [length pow]. by rewrite app_nil_r, gmul_1_r, Z.lxor_0_r.
  - rewrite Forall_app, Forall_singleton. intros [Hq Hd]. rewrite app_assoc, !ev_snoc, IH by done.
    rewrite length_app, Nat.add_1_r. cbn [pow length]. rewrite gmul_xor_l, <- gmul_assoc by auto. by rewrite Z.lxor_assoc.
Qed.

Lemma eva_app0 x p : eva x (p ++ [0]) = eva x p.
Proof. induction p as [|c p IH]; [cbn [app]; by rewrite eva_cons, gmul_0_l|]. cbn [app]. by rewrite !eva_cons, IH. Qed.

Lemma eva_zip x p q : length p = length q -> eva x (zip_with Z.lxor p q) = Z.lxor (eva x p) (eva x q).
Proof.
  revert q. induction p as [|c p IH]; intros [|d q] Hl; try done. cbn [zip_with length] in *. rewrite !eva_cons, IH, gmul_xor_l by lia.
  rewrite !Z.lxor_assoc. f_equal. by rewrite Z.lxor_comm, !Z.lxor_assoc, (Z.lxor_comm _ d).
Qed.

Lemma eva_scale x e p : isByte x -> isByte e -> bytes p -> eva x (map (fun c => gmul c e) p) = gmul (eva x p) e.
Proof.
  intros Hx He. induction 1 as [|c p Hc Hp IH]; [by rewrite gmul_0_l|]. cbn [map]. rewrite !eva_cons, IH, gmul_xor_l.
  f_equal. rewrite !gmul_assoc by auto. by rewrite (gmul_comm e x).
Qed.

(** ** The generator *)

Lemma map_gfMul e p : isByte e -> bytes p -> map (fun c => gfMul c e) p = map (fun c => gmul c e) p.
Proof. intros He. induction 1 as [|c p Hc Hp IH]; [done|]. cbn. by rewrite gfMul_gmul, IH. Qed.

Lemma mulRoot_eval x e p : isByte x -> isByte e -> bytes p ->
  eva x (mulRoot e p) = Z.lxor (gmul (eva x p) e) (gmul (eva x p) x).
Proof.
  intros Hx He Hp. unfold mulRoot. rewrite eva_zip by (cbn; rewrite length_app, length_map; cbn; lia).
  rewrite eva_app0, map_gfMul, eva_scale by done. by rewrite eva_cons, Z.lxor_0_l.
Qed.

Lemma zip_bytes p q : bytes p -> bytes q -> bytes (zip_with Z.lxor p q).
Proof. intros Hp. revert q. induction Hp; intros q Hq; [constructor|]. destruct Hq; constructor; auto. Qed.

Lemma scale_bytes e p : isByte e -> bytes p -> bytes (map (fun c => gmul c e) p).
Proof. intros He. induction 1; constructor; auto. Qed.

Lemma mulRoot_shape e p : isByte e -> bytes p -> bytes (mulRoot e p) /\ length (mulRoot e p) = S (length p) /\
  (forall q, p = q ++ [1] -> exists q', mulRoot e p = q' ++ [1]).
Proof.
  intros He Hp. unfold mulRoot. rewrite map_gfMul by done. split_and!.
  - apply zip_bytes; [|by constructor]. apply Forall_app. split; [by apply scale_bytes|by repeat constructor].
  - rewrite length_zip_with, length_app, length_map. cbn. lia.
  - intros q ->. rewrite app_comm_cons. exists (zip_with Z.lxor (map (fun c => gmul c e) (q ++ [1])) (0 :: q)).
    rewrite zip_with_app; [done|]. cbn. rewrite length_map, length_app. cbn. lia.
Qed.

Lemma exp_byte i : 0 <= i < 510 -> isByte (E i).
Proof. intros Hi. by apply exp_facts. Qed.

Lemma genFrom_spec n : forall i p, (i + n <= 255)%nat -> bytes p ->
  bytes (genFrom i n p) /\ length (genFrom i n p) = (n + length p)%nat /\
  (forall q, p = q ++ [1] -> exists q', genFrom i n p = q' ++ [1]) /\
  (forall x, isByte x -> eva x p = 0 -> eva x (genFrom i n p) = 0) /\
  (forall j, (i <= j < i + n)%nat -> eva (E (Z.of_nat j)) (genFrom i n p) = 0).
Proof.
  induction n as [|n IH]; intros i p Hl Hp; cbn [genFrom].
  { split_and!; try done; [intros q ->; by exists q|lia]. }
  assert (He : isByte (E (Z.of_nat i))) by (apply exp_byte; lia).
  destruct (mulRoot_shape (E (Z.of_nat i)) p He Hp) as (Hb & Hlen & Hlast).
  destruct (IH (S i) (mulRoot (E (Z.of_nat i)) p) ltac:(lia) Hb) as (G1 & G2 & G3 & G4 & G5). split_and!; [done|lia|..].
  - intros q Hq. destruct (Hlast q Hq) as [q' Hq']. by apply (G3 q').
  - intros x Hx H0. apply G4; [done|]. rewrite mulRoot_eval, H0 by done. by rewrite !gmul_0_l.
  - intros j Hj. destruct (Nat.eq_dec j i) as [->|]; [|apply G5; lia]. apply G4; [done|].
    rewrite mulRoot_eval by done. apply Z.lxor_nilpotent.
Qed.

(** ** The register *)

(** The generator, descending: one and [n] coefficients *)
Lemma generator n : (n <= 255)%nat -> exists g, rev (rsGenPoly n) = 1 :: g /\ length g = n /\ bytes g /\
  forall i, (i < n)%nat -> ev (E (Z.of_nat i)) g = pow (E (Z.of_nat i)) n.
Proof.
  intros Hn. destruct (genFrom_spec n 0 [1] ltac:(lia) ltac:(by repeat constructor)) as (Hb & Hl & Hlast & _ & Hroot).
  destruct (Hlast [] eq_refl) as [q Hq]. unfold rsGenPoly in *. rewrite Hq in Hb, Hl.
  apply Forall_app in Hb as [Hb _]. rewrite length_app in Hl. cbn in Hl.
  exists (rev q). rewrite Hq, rev_app_distr. cbn [rev app]. assert (Hr : length (rev q) = n) by (rewrite length_rev; lia).
  assert (Hbr : bytes (rev q)) by by apply Forall_rev. split_and!; try done.
  intros i Hi. pose proof (exp_byte (Z.of_nat i) ltac:(lia)) as Hx. pose proof (Hroot i ltac:(lia)) as H0.
  rewrite Hq, <- eva_rev, rev_app_distr in H0. cbn [rev app] in H0. rewrite ev_cons, Hr in H0 by done.
  rewrite (gmul_comm 1), gmul_1_r in H0 by auto. by apply Z.lxor_eq in H0.
Qed.

Lemma ev_zip x p q : isByte x -> bytes p -> bytes q -> length p = length q ->
  ev x (zip_with Z.lxor p q) = Z.lxor (ev x p) (ev x q).
Proof.
  intros Hx Hp. revert q. induction Hp as [|c p Hc Hp IH]; intros [|d q] Hq Hl; try done.
  apply Forall_cons in Hq as [Hd Hq]. cbn [zip_with length] in *. rewrite !ev_cons by auto using zip_bytes.
  rewrite IH, length_zip_with by (auto; lia). replace (length p `min` length q)%nat with (length p) by lia.
  replace (length q) with (length p) by lia. rewrite gmul_xor_l.
  rewrite !Z.lxor_assoc. f_equal. rewrite <- !Z.lxor_assoc. f_equal. apply Z.lxor_comm.
Qed.

Lemma ev_scale x e p : isByte x -> isByte e -> bytes p -> ev x (map (fun c => gmul c e) p) = gmul (ev x p) e.
Proof.
  intros Hx He Hp. rewrite <- (rev_involutive p), map_rev, !eva_rev. apply eva_scale; auto. by apply Forall_rev.
Qed.

Lemma zip_scale f r g : isByte f -> bytes g ->
  zip_with (fun r g => Z.lxor r (gfMul g f)) r g = zip_with Z.lxor r (map (fun c => gmul c f) g).
Proof.
  intros Hf Hg. revert r. induction Hg as [|c g Hc Hg IH]; intros [|d r]; try done. cbn. by rewrite IH, gfMul_gmul.
Qed.

Lemma rsStep_spec g res d : bytes g -> bytes res -> isByte d -> length g = length res -> length res <> 0%nat ->
  bytes (rsStep (1 :: g) res d) /\ length (rsStep (1 :: g) res d) = length res /\
  forall x, isByte x -> ev x g = pow x (length res) ->
    ev x (rsStep (1 :: g) res d) = Z.lxor (gmul (ev x res) x) (gmul d (pow x (length res))).
Proof.
  intros Hg Hres Hd Hl Hn. destruct res as [|r0 rs]; [done|]. apply Forall_cons in Hres as [Hr0 Hrs].
  assert (E' : rsStep (1 :: g) (r0 :: rs) d = zip_with Z.lxor (rs ++ [0]) (map (fun c => gmul c (Z.lxor d r0)) g)).
  { unfold rsStep. change (zget (r0 :: rs) 0) with r0. cbn [tail]. destruct (Z.eqb_spec (Z.lxor d r0) 0) as [->|Hf].
    - assert (Z0 : forall l g : list Z, length g = length l -> zip_with Z.lxor l (map (fun c => gmul c 0) g) = l).
      { intros l. induction l as [|a l IH]; intros [|b g'] Hl'; try done. cbn. rewrite gmul_0_r, Z.lxor_0_r. f_equal. apply IH. cbn in Hl'. lia. }
      symmetry. apply Z0. rewrite length_app. cbn in *. lia.
    - apply zip_scale; auto. }
  rewrite E'. assert (Hb0 : bytes (rs ++ [0])) by (apply Forall_app; split; [done|by repeat constructor]).
  split_and!.
  - apply zip_bytes; [done|]. apply scale_bytes; auto.
  - rewrite length_zip_with, length_app, length_map. cbn in *. lia.
  - intros x Hx Hgx. rewrite ev_zip; [|done|done|apply scale_bytes; auto|rewrite length_app, length_map; cbn in *; lia].
    rewrite ev_scale, Hgx, ev_snoc, Z.lxor_0_r by auto. rewrite ev_cons by done. cbn [length pow].
    set (P := gmul (pow x (length rs)) x). assert (HP : isByte P) by (unfold P; auto).
    rewrite gmul_xor_r, gmul_xor_l, (gmul_assoc r0) by auto. fold P. rewrite (gmul_comm P d), (gmul_comm P r0) by auto.
    rewrite (Z.lxor_comm (gmul r0 P)), !Z.lxor_assoc. f_equal. apply Z.lxor_comm.
Qed.

Lemma rs_encode_spec data n :
  bytes data -> (1 <= n <= 255)%nat ->
  length (rsEncode data n) = n /\ bytes (rsEncode data n) /\
  forall i, (i < n)%nat -> ev (zget gfExp (Z.of_nat i)) (data ++ rsEncode data n) = 0.
Proof.
  intros Hd Hn. destruct (generator n ltac:(lia)) as (g & Hg & Hl & Hgb & Hroot). unfold rsEncode. rewrite Hg.
  assert (I : length (foldl (rsStep (1 :: g)) (replicate n 0) data) = n /\ bytes (foldl (rsStep (1 :: g)) (replicate n 0) data) /\
    forall i, (i < n)%nat -> ev (E (Z.of_nat i)) (foldl (rsStep (1 :: g)) (replicate n 0) data) =
                         gmul (ev (E (Z.of_nat i)) data) (pow (E (Z.of_nat i)) n)).
  { induction data as [|d data IH] using rev_ind.
    - cbn [foldl]. split; [apply length_replicate|]. split; [by apply Forall_replicate|]. intros i Hi. cbn [ev foldl].
      rewrite gmul_0_l. clear. induction n as [|n IH]; [done|]. rewrite replicate_S_end, ev_snoc, IH. by rewrite gmul_0_l.
    - apply Forall_app in Hd as [Hd Hd1]. apply Forall_cons in Hd1 as [Hd1 _]. destruct (IH Hd) as (L & B & V).
      rewrite foldl_app. cbn [foldl]. destruct (rsStep_spec g _ d Hgb B Hd1 ltac:(lia) ltac:(lia)) as (B' & L' & V').
      split; [lia|]. split; [done|]. intros i Hi. pose proof (exp_byte (Z.of_nat i) ltac:(lia)) as Hx.
      rewrite V', V, L, ev_snoc by (auto; rewrite L; auto). rewrite gmul_xor_l. f_equal.
      rewrite !gmul_assoc by auto. f_equal. by rewrite gmul_comm by auto. }
  destruct I as (L & B & V). split; [done|]. split; [done|]. intros i Hi. pose proof (exp_byte (Z.of_nat i) ltac:(lia)) as Hx.
  rewrite ev_app, V, L by auto. apply Z.lxor_nilpotent.
Qed.

(** The correction codewords of any block of bytes, as many as asked for
    (from 1 to 255), make it a codeword of the Reed-Solomon code: the
    polynomial of the block followed by them vanishes at each of the [n]
    consecutive powers of the generator of the field - all the syndromes a
    scanner computes are zero. *)
Theorem rs_codeword data n :
  bytes data -> (1 <= n <= 255)%nat ->
  length (rsEncode data n) = n /\ bytes (rsEncode data n) /\
  forall i, (i < n)%nat -> ev (zget gfExp (Z.of_nat i)) (data ++ rsEncode data n) = 0.
Proof. apply rs_encode_spec. Qed.

(** ** Witnesses *)

Lemma gf_mul_exact_witness : gfMul 87 131 = gmul 87 131 /\ isByte (gfMul 87 131) /\
  (87 <> 0 -> gfMul 87 (zget gfExp (255 - zget gfLog 87)) = 1 /\ (gfMul 87 131 = 0 -> 131 = 0)).
Proof. apply (gf_mul_exact 87 131); split; done. Defined.

Lemma rs_codeword_witness : Forall (fun i => ev (zget gfExp (Z.of_nat i)) ([64; 84; 86] ++ rsEncode [64; 84; 86] 3) = 0) [0; 1; 2]%nat.
Proof.
  assert (Hb : Forall isByte [64; 84; 86]) by (repeat constructor; done).
  constructor; [|constructor; [|constructor; [|constructor]]]; apply (rs_codeword [64; 84; 86] 3 Hb); lia.
Defined.
