(* ===== verification/EinvQrProps.v ===== *)
(** * einvoicing: a scanner reads the payload back (services/einvoicing/qr.go)

    A reference scanner - it reads the modules along the walk, takes the mask
    off, undoes the interleaving, verifies the syndromes of every block and
    parses the bits - recovers from the matrix exactly the payload, for every
    payload the encoder takes. *)

From S2P Require Import Prelude Crypto EinvModel EinvStore EinvQr ReedSolomon.
From S2P Require Auth EinvHandlers EinvValidate.

(** ** The scanner *)

Definition bitsValue (l : list Z) : Z := foldl (fun acc b => 2 * acc + b) 0 l.
Definition allBits (cws : list Z) : list Z := concat (map (fun b => put b 8) cws).

Definition readPayload (bits : list Z) : option (list Z) :=
  if bool_decide (take 4 bits = [0; 1; 0; 0])
  then Some (map bitsValue (chunks (Z.to_nat (bitsValue (take 8 (drop 4 bits)))) 8 (drop 12 bits)))
  else None.

Definition unmask (p : Z * Z) (b : bool) : Z :=
  let x := if b then 1 else 0 in if Z.even (p.1 + p.2) then Z.lxor x 1 else x.

Definition free (v : nat) : list (Z * Z) :=
  let fn := func (skeleton v) in List.filter (fun p => negb (mget fn p)) (walk (sizeOf v)).

(** Block [i] of [cnt]: its [d] codewords from [off] on *)
Definition deinterleave (cws : list Z) (cnt off d i : nat) : list Z :=
  map (fun j => default 0 (cws !! (off + (j * cnt + i))%nat)) (seq 0 d).

Definition syndromesZero (block : list Z) (n : nat) : bool :=
  forallb (fun i => ev (zget gfExp (Z.of_nat i)) block =? 0) (seq 0 n).

Definition scan (m : matrix) : option (list Z) :=
  let v := ((length m - 17) / 4)%nat in
  let n := sizeOf v in
  match qrRSGroups v with
  | [(cnt, total, dlen)] =>
      if negb (bool_decide (map (mget m) pos1 = map (fun b => b =? 1) formatBits)) ||
         negb (bool_decide (map (mget m) (pos2 n) = map (fun b => b =? 1) formatBits)) then None
      else
        let cws := map bitsValue (chunks (cnt * total) 8 (map (fun p => unmask p (mget m p)) (free v))) in
        let data i := deinterleave cws cnt 0 dlen i in
        let ec i := deinterleave cws cnt (cnt * dlen) (total - dlen) i in
        if forallb (fun i => syndromesZero (data i ++ ec i) (total - dlen)) (seq 0 cnt)
        then readPayload (allBits (concat (map data (seq 0 cnt)))) else None
  | _ => None
  end.

(** ** Bits and bytes *)

Definition isBit (b : Z) : Prop := b = 0 \/ b = 1.
Abbreviation bits01 l := (Forall isBit l).

Lemma put_length v n : length (put v n) = n.
Proof. unfold put. by rewrite length_map, length_seq. Qed.

Lemma put_bits v n : bits01 (put v n).
Proof.
  unfold put. apply Forall_map, Forall_forall. intros i _. unfold isBit.
  set (x := Z.shiftr v (Z.of_nat (n - 1 - i))). assert (Ex : Z.land x 1 = x mod 2) by (apply (Z.land_ones x 1); lia).
  rewrite Ex. pose proof (Z.mod_pos_bound x 2). lia.
Qed.

Lemma bitsValue_put b : isByte b -> bitsValue (put b 8) = b.
Proof. intros Hb. apply Z.eqb_eq. apply (byte_all (fun b => bitsValue (put b 8) =? b)); [vm_compute; reflexivity|done]. Qed.

Lemma pack_bits l : bits01 l -> length l = 8%nat -> isByte (packByte l) /\ put (packByte l) 8 = l.
Proof.
  intros Hl Hn. do 8 (destruct l as [|? l]; [done|]). destruct l; [|done].
  repeat match goal with H : Forall _ (_ :: _) |- _ => apply Forall_cons in H as [[-> | ->] H] end; by vm_compute.
Qed.

Lemma chunks_concat {A} (ls : list (list A)) rest d : Forall (fun l => length l = d) ls -> chunks (length ls) d (concat ls ++ rest) = ls.
Proof.
  induction 1 as [|l ls Hl Hls IH]; [done|]. cbn [length chunks concat]. rewrite <- app_assoc, take_app_le, take_ge by lia.
  f_equal. rewrite drop_app_le, drop_ge by lia. apply IH.
Qed.

Lemma chunks_spec {A} k d (l : list A) : length l = (k * d)%nat ->
  concat (chunks k d l) = l /\ length (chunks k d l) = k /\ Forall (fun c => length c = d) (chunks k d l).
Proof.
  revert l. induction k as [|k IH]; intros l Hl; cbn [chunks]; [by destruct l|].
  destruct (IH (drop d l)) as (H1 & H2 & H3); [rewrite length_drop; cbn in Hl; lia|].
  cbn [concat length]. rewrite H1, H2, take_drop. split; [done|]. split; [done|]. constructor; [|done].
  rewrite length_take. cbn in Hl. lia.
Qed.

Lemma Forall_chunks {A} (P : A -> Prop) k d l : Forall P l -> Forall (Forall P) (chunks k d l).
Proof. revert l. induction k as [|k IH]; intros l Hl; constructor; [by apply Forall_take|apply IH; by apply Forall_drop]. Qed.

Lemma allBits_put cws : bytes cws -> bits01 (allBits cws) /\ length (allBits cws) = (length cws * 8)%nat.
Proof.
  intros Hc. unfold allBits. induction Hc as [|c cws Hc Hcs [IH1 IH2]]; [done|]. cbn [map concat length].
  rewrite length_app, put_length, IH2. split; [|lia]. apply Forall_app. split; [apply put_bits|done].
Qed.

Lemma read_bytes cws rest : bytes cws -> map bitsValue (chunks (length cws) 8 (allBits cws ++ rest)) = cws.
Proof.
  intros Hc. unfold allBits. rewrite <- (length_map (fun b => put b 8) cws).
  rewrite chunks_concat by (apply Forall_map, Forall_forall; intros; apply put_length).
  rewrite map_map. rewrite <- (map_id cws) at 2. apply map_ext_in. intros b Hb. apply bitsValue_put.
  rewrite Forall_forall in Hc. apply Hc. by apply list_elem_of_In.
Qed.

(** The bits of the data codewords: the header, the payload and padding *)
Lemma padBits_spec fuel : forall i k t bits, length bits = (k * 8)%nat -> (k <= t <= k + fuel)%nat -> bits01 bits ->
  exists p, padBits fuel i (t * 8) bits = bits ++ p /\ length (bits ++ p) = (t * 8)%nat /\ bits01 (bits ++ p).
Proof.
  induction fuel as [|fuel IH]; intros i k t bits Hl Ht Hb; cbn [padBits].
  { exists []. rewrite app_nil_r. split; [done|]. split; [lia|done]. }
  destruct (Nat.ltb_spec (length bits) (t * 8)) as [Hlt|Hge].
  - destruct (IH (S i) (S k) t (bits ++ put (if Nat.even i then 236 else 17) 8)) as (p & Ep & Lp & Bp);
      [rewrite length_app, put_length; lia|lia|apply Forall_app; split; [done|apply put_bits]|].
    exists (put (if Nat.even i then 236 else 17) 8 ++ p). rewrite app_assoc. by rewrite Ep.
  - exists []. rewrite app_nil_r. split; [done|]. split; [lia|done].
Qed.

Definition headed (payload : list Z) : list Z := put 4 4 ++ put (Z.of_nat (length payload)) 8 ++ allBits payload.

Lemma headed_spec payload : bytes payload -> length (headed payload) = (12 + length payload * 8)%nat /\ bits01 (headed payload).
Proof.
  intros Hp. destruct (allBits_put payload Hp) as [Hb Hl]. unfold headed. rewrite !length_app, !put_length, Hl. split; [lia|].
  rewrite !Forall_app. auto using put_bits.
Qed.

Lemma qrBits_spec dcw payload : bytes payload -> (2 + length payload <= dcw)%nat ->
  exists p, qrBits dcw payload = headed payload ++ p /\ length (qrBits dcw payload) = (dcw * 8)%nat /\ bits01 (qrBits dcw payload).
Proof.
  intros Hp Hd. destruct (headed_spec payload Hp) as [Hl Hb]. unfold qrBits. fold (allBits payload). fold (headed payload). rewrite Hl.
  assert (E4 : (if (4 <? dcw * 8 - (12 + length payload * 8))%nat then 4 else dcw * 8 - (12 + length payload * 8))%nat = 4%nat)
    by (destruct (Nat.ltb_spec 4 (dcw * 8 - (12 + length payload * 8))); lia).
  rewrite E4. set (b1 := headed payload ++ put 0 4).
  assert (L1 : length b1 = ((2 + length payload) * 8)%nat) by (unfold b1; rewrite length_app, put_length; lia).
  assert (B1 : bits01 b1) by (apply Forall_app; split; [done|apply put_bits]).
  assert (EA : alignBits 8 b1 = b1).
  { cbn [alignBits]. rewrite L1, Nat.Div0.mod_mul. done. }
  rewrite EA. destruct (padBits_spec dcw 0 (2 + length payload) dcw b1 L1 ltac:(lia) B1) as (p & Ep & Lp & Bp).
  exists (put 0 4 ++ p). rewrite Ep. split; [unfold b1; by rewrite <- app_assoc|done].
Qed.

Lemma readPayload_headed payload rest : bytes payload -> (length payload < 256)%nat -> readPayload (headed payload ++ rest) = Some payload.
Proof.
  intros Hp Hl. unfold readPayload, headed. rewrite <- !app_assoc.
  rewrite (take_app_le (put 4 4)), take_ge by (rewrite put_length; lia). rewrite bool_decide_eq_true_2 by done.
  rewrite (drop_app_le (put 4 4)), drop_ge by (rewrite put_length; lia). cbn [app].
  rewrite (take_app_le (put _ 8)), take_ge by (rewrite put_length; lia).
  rewrite bitsValue_put by (unfold isByte; lia). rewrite Nat2Z.id.
  replace (drop 12 (put 4 4 ++ put (Z.of_nat (length payload)) 8 ++ allBits payload ++ rest)) with (allBits payload ++ rest).
  - by rewrite read_bytes.
  - rewrite app_assoc. rewrite drop_app_ge; rewrite length_app, !put_length; [done|lia].
Qed.

(** ** Interleaving *)

Lemma lookup_concat_uniform {A} (ls : list (list A)) c j i :
  Forall (fun l => length l = c) ls -> (i < c)%nat -> concat ls !! (j * c + i)%nat = l ← ls !! j; l !! i.
Proof.
  intros Hf Hi. revert j. induction Hf as [|l ls Hl Hf IH]; intros j; [done|]. cbn [concat]. destruct j as [|j].
  - cbn. by rewrite lookup_app_l by lia.
  - rewrite lookup_app_r by (cbn; lia). replace (S j * c + i - length l)%nat with (j * c + i)%nat by (cbn; lia). apply IH.
Qed.

Lemma length_concat_uniform {A} (ls : list (list A)) c : Forall (fun l => length l = c) ls -> length (concat ls) = (length ls * c)%nat.
Proof. induction 1 as [|l ls Hl Hf IH]; [done|]. cbn. rewrite length_app. lia. Qed.

Lemma omap_total {A B} (f : A -> option B) l : (forall x, x ∈ l -> is_Some (f x)) ->
  length (omap f l) = length l /\ forall i, omap f l !! i = x ← l !! i; f x.
Proof.
  induction l as [|x l IH]; intros Hf; [done|]. destruct (IH (fun y Hy => Hf y (list_elem_of_further _ _ _ Hy))) as [IL IV].
  destruct (Hf x (list_elem_of_here _ _)) as [y Ey]. cbn. rewrite Ey. split; [cbn; lia|]. intros [|i]; cbn; [done|]. apply IV.
Qed.

Lemma fold_max d (ls : list (list Z)) m : Forall (fun l => length l = d) ls -> (m <= d)%nat -> ls <> [] ->
  foldl Nat.max m (map length ls) = d.
Proof.
  intros Hf. revert m. induction Hf as [|l ls Hl Hf IH]; intros m Hm Hne; [done|]. cbn.
  destruct ls as [|l' ls]; [cbn; lia|]. apply IH; [lia|done].
Qed.

Lemma interleave_spec blocks d : Forall (fun l => length l = d) blocks -> blocks <> [] ->
  length (interleave blocks) = (length blocks * d)%nat /\
  forall i j, (i < length blocks)%nat -> (j < d)%nat -> interleave blocks !! (j * length blocks + i)%nat = b ← blocks !! i; b !! j.
Proof.
  intros Hf Hne. unfold interleave. rewrite (fold_max d) by (done || lia).
  assert (Ht : forall j, (j < d)%nat -> length (omap (fun b => b !! j) blocks) = length blocks /\
            forall i, omap (fun b => b !! j) blocks !! i = b ← blocks !! i; b !! j).
  { intros j Hj. apply omap_total. intros b Hb. rewrite Forall_forall in Hf. apply lookup_lt_is_Some. rewrite (Hf b) by done. done. }
  assert (Hu : Forall (fun l : list Z => length l = length blocks) (map (fun j => omap (fun b => b !! j) blocks) (seq 0 d))).
  { apply Forall_map, Forall_forall. intros j Hj%elem_of_seq. apply Ht. lia. }
  split.
  - rewrite (length_concat_uniform _ _ Hu), length_map, length_seq. lia.
  - intros i j Hi Hj. rewrite (lookup_concat_uniform _ _ _ _ Hu Hi). rewrite list_lookup_fmap, lookup_seq_lt by done. cbn. by apply Ht.
Qed.

Lemma interleave_bytes blocks : Forall (Forall isByte) blocks -> bytes (interleave blocks).
Proof.
  intros Hb. unfold interleave. apply Forall_concat, Forall_map, Forall_forall. intros j _. apply Forall_forall.
  intros x (b & Hb' & Hx)%list_elem_of_omap. rewrite Forall_forall in Hb. specialize (Hb b Hb'). rewrite Forall_forall in Hb.
  apply Hb. by eapply list_elem_of_lookup_2.
Qed.

Lemma deinterleave_spec pre blocks post d : Forall (fun l => length l = d) blocks -> blocks <> [] -> forall i b, blocks !! i = Some b ->
  deinterleave (pre ++ interleave blocks ++ post) (length blocks) (length pre) d i = b.
Proof.
  intros Hf Hne i b Hb. pose proof (lookup_lt_Some _ _ _ Hb) as Hi. destruct (interleave_spec blocks d Hf Hne) as [Hl Hv].
  assert (Hlb : length b = d) by (rewrite Forall_forall in Hf; apply Hf; by eapply list_elem_of_lookup_2).
  apply list_eq_same_length with (n := d); [done|by unfold deinterleave; rewrite length_map, length_seq|].
  intros j x y Hj Hx Hy. unfold deinterleave in Hx. rewrite list_lookup_fmap, lookup_seq_lt in Hx by done. cbn in Hx.
  rewrite lookup_app_r, lookup_app_l in Hx; [|rewrite Hl; nia|lia].
  replace (length pre + (j * length blocks + i) - length pre)%nat with (j * length blocks + i)%nat in Hx by lia.
  rewrite Hv, Hb in Hx by done. cbn in Hx. rewrite Hy in Hx. cbn in Hx. congruence.
Qed.

Lemma map_seq_lookup {A} (f : nat -> A) (l : list A) : (forall i x, l !! i = Some x -> f i = x) -> map f (seq 0 (length l)) = l.
Proof.
  intros Hf. apply list_eq_same_length with (n := length l); [done|by rewrite length_map, length_seq|].
  intros i x y Hi Hx Hy. rewrite list_lookup_fmap, lookup_seq_lt in Hx by done. cbn in Hx. rewrite (Hf i y Hy) in Hx. congruence.
Qed.

(** ** The codewords of a version *)

Definition groupOf (v : nat) : option (nat * nat * nat) := match qrRSGroups v with [g] => Some g | _ => None end.

Lemma qrVersion_spec len :
  match qrVersion len with
  | Some v => (1 <= v <= 6)%nat /\ (2 + len <= qrDataCodewords v)%nat /\ (len <= 106)%nat
  | None => (106 < len)%nat
  end.
Proof.
  unfold qrVersion. cbn [seq List.find].
  repeat match goal with |- context [(?a <=? ?b)%nat] => destruct (Nat.leb_spec a b) end;
    unfold qrDataCodewords, qrRSGroups in *; cbn [foldl Nat.mul Nat.add] in *; lia.
Qed.

Lemma pack_chunks ls : Forall (fun l => length l = 8%nat) ls -> Forall (Forall isBit) ls ->
  bytes (map packByte ls) /\ allBits (map packByte ls) = concat ls.
Proof.
  intros Hl Hb. unfold allBits. induction ls as [|l ls IH]; [done|]. apply Forall_cons in Hl as [Hl Hls]. apply Forall_cons in Hb as [Hb Hbs].
  destruct (pack_bits l Hb Hl) as [P1 P2]. destruct (IH Hls Hbs) as [I1 I2]. split; [by constructor|]. cbn [map concat]. by rewrite P2, I2.
Qed.

(** What the scanner finds in the codewords *)
Lemma codewords_spec payload v cws : bytes payload -> qrEncodeData payload = Some (v, cws) ->
  (1 <= v <= 6)%nat /\ (length payload <= 106)%nat /\
  exists cnt total dlen, qrRSGroups v = [(cnt, total, dlen)] /\ bytes cws /\ length cws = (cnt * total)%nat /\
    forallb (fun i => syndromesZero (deinterleave cws cnt 0 dlen i ++ deinterleave cws cnt (cnt * dlen) (total - dlen) i) (total - dlen)) (seq 0 cnt) = true /\
    readPayload (allBits (concat (map (deinterleave cws cnt 0 dlen) (seq 0 cnt)))) = Some payload.
Proof.
  intros Hp He. unfold qrEncodeData in He. pose proof (qrVersion_spec (length payload)) as Hv.
  destruct (qrVersion (length payload)) as [v'|]; [|done]. destruct Hv as (Hv & Hcap & Hlen). cbn in He.
  injection He as <- <-. split; [done|]. split; [done|].
  assert (Hg : exists cnt total dlen, qrRSGroups v' = [(cnt, total, dlen)] /\ qrDataCodewords v' = (cnt * dlen)%nat /\
                 (1 <= cnt)%nat /\ (dlen < total)%nat /\ (total - dlen <= 255)%nat).
  { do 7 (destruct v' as [|v']; [first [lia|eexists _, _, _; split; [reflexivity|]; vm_compute; lia]|]). lia. }
  destruct Hg as (cnt & total & dlen & Eg & Edc & Hcnt & Hdt & Hec). exists cnt, total, dlen. split; [done|].
  rewrite Eg, Edc in *. set (dcw := (cnt * dlen)%nat) in *.
  destruct (qrBits_spec dcw payload Hp Hcap) as (p & Eb & Lb & Bb). set (bits := qrBits dcw payload) in *.
  destruct (chunks_spec dcw 8 bits Lb) as (C1 & C2 & C3). set (data := map packByte (chunks dcw 8 bits)).
  assert (Hdata : bytes data /\ allBits data = bits).
  { unfold data. destruct (pack_chunks (chunks dcw 8 bits) C3 (Forall_chunks _ dcw 8 bits Bb)) as [P1 P2]. by rewrite P2, C1. }
  destruct Hdata as [Db Dbits]. assert (Dl : length data = dcw) by (unfold data; by rewrite length_map).
  cbn [qrSplit]. rewrite app_nil_r. destruct (chunks_spec cnt dlen data Dl) as (B1 & B2 & B3). set (blocks := chunks cnt dlen data) in *.
  rewrite !map_map. cbn [fst snd]. rewrite map_id. set (ecs := map (fun b => rsEncode b (total - dlen)) blocks).
  assert (Bbytes : Forall (Forall isByte) blocks) by by apply Forall_chunks.
  assert (Hec_all : Forall (fun l => length l = (total - dlen)%nat) ecs /\ Forall (Forall isByte) ecs).
  { unfold ecs. split; apply Forall_map, Forall_forall; intros b Hb; rewrite Forall_forall in Bbytes;
      apply (rs_encode_spec b (total - dlen)); auto; lia. }
  destruct Hec_all as [El Eby]. assert (Elen : length ecs = cnt) by (unfold ecs; by rewrite length_map).
  assert (Hne : blocks <> []) by (intros E0; rewrite E0 in B2; cbn in B2; lia).
  assert (Hne2 : ecs <> []) by (intros E0; rewrite E0 in Elen; cbn in Elen; lia).
  destruct (interleave_spec blocks dlen B3 Hne) as [Il _]. destruct (interleave_spec ecs _ El Hne2) as [Il2 _]. rewrite B2 in Il. rewrite Elen in Il2.
  assert (Hdi : forall i b, blocks !! i = Some b -> deinterleave (interleave blocks ++ interleave ecs) cnt 0 dlen i = b).
  { intros i b Hb. rewrite <- B2. exact (deinterleave_spec [] blocks (interleave ecs) dlen B3 Hne i b Hb). }
  assert (Hei : forall i b, ecs !! i = Some b ->
            deinterleave (interleave blocks ++ interleave ecs) cnt (cnt * dlen) (total - dlen) i = b).
  { intros i b Hb. rewrite <- Il. rewrite <- Elen at 1. rewrite <- (app_nil_r (interleave ecs)).
    exact (deinterleave_spec (interleave blocks) ecs [] _ El Hne2 i b Hb). }
  fold dcw in Hei.
  split; [apply Forall_app; split; by apply interleave_bytes|]. split; [rewrite length_app, Il, Il2; nia|]. split.
  - apply forallb_forall. intros i Hi%in_seq. destruct (lookup_lt_is_Some_2 blocks i ltac:(lia)) as [b Hb].
    rewrite (Hdi i b Hb), (Hei i (rsEncode b (total - dlen))) by (unfold ecs; by rewrite list_lookup_fmap, Hb).
    apply forallb_forall. intros k Hk%in_seq. apply Z.eqb_eq. apply rs_encode_spec; [|lia|lia].
    rewrite Forall_forall in Bbytes. apply Bbytes. by eapply list_elem_of_lookup_2.
  - rewrite <- B2 at 2. rewrite (map_seq_lookup _ blocks Hdi), B1, Dbits, Eb. apply readPayload_headed; [done|lia].
Qed.

(** ** The matrix *)

Definition inside (n : Z) (p : Z * Z) : bool := inRange n p.1 p.2.

Definition shape (n : Z) (m : matrix) : Prop := length m = Z.to_nat n /\ Forall (fun row => length row = Z.to_nat n) m.

Lemma inside_spec n p : inside n p = true <-> 0 <= p.1 < n /\ 0 <= p.2 < n.
Proof. unfold inside, inRange. rewrite !andb_true_iff, !Z.leb_le, !Z.ltb_lt. lia. Qed.

Lemma mset_shape n m p b : shape n m -> shape n (mset m p b).
Proof.
  intros [Hl Hr]. unfold mset. split; [by rewrite length_alter|]. apply Forall_alter; [done|]. intros row _ Hrow.
  by rewrite length_insert.
Qed.

Lemma mget_mset n m p q b : shape n m -> inside n p = true -> inside n q = true ->
  mget (mset m p b) q = if bool_decide (p = q) then b else mget m q.
Proof.
  intros [Hl Hr] Hp%inside_spec Hq%inside_spec. unfold mget, mset. destruct p as [r c], q as [r' c']. cbn in Hp, Hq |- *.
  destruct (decide (r = r')) as [<-|Hrr].
  - rewrite list_lookup_alter_eq. destruct (m !! Z.to_nat r) as [row|] eqn:Erow.
    2: { apply lookup_ge_None in Erow. lia. }
    assert (Hlen : length row = Z.to_nat n) by (rewrite Forall_forall in Hr; apply Hr; by eapply list_elem_of_lookup_2).
    cbn. destruct (decide (c = c')) as [<-|Hcc].
    + rewrite list_lookup_insert_eq by lia. by rewrite bool_decide_eq_true_2.
    + rewrite list_lookup_insert_ne by lia. rewrite bool_decide_eq_false_2 by congruence. done.
  - rewrite list_lookup_alter_ne by lia. rewrite bool_decide_eq_false_2 by congruence. done.
Qed.

Abbreviation freeOf fn ps := (List.filter (fun p => negb (mget fn p)) ps).

Lemma place_spec n fn ps : forall bits m,
  shape n m -> forallb (inside n) ps = true -> NoDup (freeOf fn ps) ->
  shape n (place fn ps bits m) /\
  (forall k p, freeOf fn ps !! k = Some p -> mget (place fn ps bits m) p = masked p (default 0 (bits !! k))) /\
  (forall q, inside n q = true -> q ∉ freeOf fn ps -> mget (place fn ps bits m) q = mget m q).
Proof.
  induction ps as [|p ps IH]; intros bits m Hs Hin Hnd; [done|].
  cbn [forallb] in Hin. apply andb_prop in Hin as [Hp Hin]. cbn [place List.filter] in *.
  destruct (mget fn p) eqn:Ef; cbn [negb] in *; [by apply IH|].
  apply NoDup_cons in Hnd as [Hnp Hnd].
  destruct (IH (tail bits) (mset m p (masked p (default 0 (head bits)))) (mset_shape n m p _ Hs) Hin Hnd) as (I1 & I2 & I3).
  split; [done|]. split.
  - intros [|k] q Hk; cbn in Hk.
    + injection Hk as <-. rewrite I3 by done. rewrite (mget_mset n) by done. rewrite bool_decide_eq_true_2 by done. by destruct bits.
    + rewrite (I2 k q Hk). by destruct bits.
  - intros q Hq Hnq. apply not_elem_of_cons in Hnq as [Hne Hnq]. rewrite I3 by done. rewrite (mget_mset n) by done.
    by rewrite bool_decide_eq_false_2 by congruence.
Qed.

Lemma setAll_spec n ps : forall bits m, shape n m -> forallb (inside n) ps = true -> NoDup ps -> length bits = length ps ->
  shape n (setAll m ps bits) /\ map (mget (setAll m ps bits)) ps = map (fun b => b =? 1) bits /\
  (forall q, inside n q = true -> q ∉ ps -> mget (setAll m ps bits) q = mget m q).
Proof.
  induction ps as [|p ps IH]; intros [|b bits] m Hs Hin Hnd Hl; try done.
  cbn [forallb] in Hin. apply andb_prop in Hin as [Hp Hin]. apply NoDup_cons in Hnd as [Hnp Hnd]. cbn in Hl.
  destruct (IH bits (mset m p (b =? 1)) (mset_shape n m p _ Hs) Hin Hnd ltac:(lia)) as (I1 & I2 & I3).
  unfold setAll in *. cbn [zip zip_with foldl map]. split; [done|]. split.
  - f_equal; [|done]. rewrite I3 by done. rewrite (mget_mset n) by done. by rewrite bool_decide_eq_true_2.
  - intros q Hq Hnq. apply not_elem_of_cons in Hnq as [Hne Hnq]. rewrite I3 by done. rewrite (mget_mset n) by done.
    by rewrite bool_decide_eq_false_2 by congruence.
Qed.

(** ** The layouts of the six versions, by computation *)

Fixpoint distinct (seen : gset Z) (l : list Z) : bool :=
  match l with
  | [] => true
  | x :: l => negb (bool_decide (x ∈ seen)) && distinct ({[x]} ∪ seen) l
  end.

Lemma distinct_NoDup l : forall seen, distinct seen l = true -> NoDup l /\ forall x, x ∈ l -> x ∉ seen.
Proof.
  induction l as [|x l IH]; intros seen Hd; [split; [constructor|by intros x Hx%elem_of_nil]|].
  cbn in Hd. apply andb_prop in Hd as [Hx Hd]. apply negb_true_iff, bool_decide_eq_false_1 in Hx. destruct (IH _ Hd) as [Hn Hs].
  split; [constructor; [|done]|].
  - intros Hin. apply (Hs x Hin). set_solver.
  - intros y [->|Hy]%elem_of_cons; [done|]. specialize (Hs y Hy). set_solver.
Qed.

Definition key (p : Z * Z) : Z := p.1 * 64 + p.2.

Lemma distinct_keys l : distinct ∅ (map key l) = true -> NoDup l.
Proof. intros [Hn _]%distinct_NoDup. by apply NoDup_fmap_1 in Hn. Qed.

Definition layoutOk (v : nat) : bool :=
  let n := sizeOf v in
  let sk := skeleton v in
  (length (mods sk) =? Z.to_nat n)%nat && forallb (fun row => (length row =? Z.to_nat n)%nat) (mods sk) &&
  forallb (inside n) (walk n) && distinct ∅ (map key (free v)) &&
  match groupOf v with Some (cnt, total, _) => (cnt * total * 8 <=? length (free v))%nat | None => false end &&
  forallb (fun p => inside n p && mget (func sk) p) (pos1 ++ pos2 n) && distinct ∅ (map key (pos1 ++ pos2 n)) &&
  ((Z.to_nat n - 17) / 4 =? v)%nat.

Lemma layouts : forallb layoutOk (seq 1 6) = true.
Proof. vm_compute. reflexivity. Qed.

Record layout (v : nat) : Prop := {
  ly_shape : shape (sizeOf v) (mods (skeleton v));
  ly_walk : forallb (inside (sizeOf v)) (walk (sizeOf v)) = true;
  ly_free : NoDup (free v);
  ly_room : forall cnt total dlen, qrRSGroups v = [(cnt, total, dlen)] -> (cnt * total * 8 <= length (free v))%nat;
  ly_pos : forall p, p ∈ pos1 ++ pos2 (sizeOf v) -> inside (sizeOf v) p = true /\ mget (func (skeleton v)) p = true;
  ly_nodup : NoDup (pos1 ++ pos2 (sizeOf v));
  ly_version : ((Z.to_nat (sizeOf v) - 17) / 4)%nat = v;
}.

Lemma layout_of v : (1 <= v <= 6)%nat -> layout v.
Proof.
  intros Hv. assert (Hl : layoutOk v = true).
  { pose proof layouts as Hl. rewrite forallb_forall in Hl. apply Hl. apply in_seq. lia. }
  unfold layoutOk in Hl. rewrite !andb_true_iff in Hl. destruct Hl as (((((((H1 & H2) & H3) & H4) & H5) & H6) & H7) & H8).
  apply Nat.eqb_eq in H1, H8. rewrite forallb_forall in H2, H6. split; [|exact H3| | | | |exact H8].
  - split; [done|]. apply Forall_forall. intros row Hrow. apply Nat.eqb_eq, H2. by apply list_elem_of_In.
  - by apply distinct_keys.
  - intros cnt total dlen Eg. unfold groupOf in H5. rewrite Eg in H5. by apply Nat.leb_le.
  - intros p Hp. apply andb_prop, H6. by apply list_elem_of_In.
  - by apply distinct_keys.
Qed.

Lemma unmask_masked p b : isBit b -> unmask p (masked p b) = b.
Proof. unfold unmask, masked. intros [-> | ->]; by destruct (Z.even (p.1 + p.2)). Qed.

Lemma qr_roundtrip_all payload : bytes payload ->
  match QRMatrix payload with
  | Some m => (length payload <= 106)%nat /\ scan m = Some payload
  | None => (106 < length payload)%nat
  end.
Proof.
  intros Hp. unfold QRMatrix. destruct (qrEncodeData payload) as [[v cws]|] eqn:Ee.
  2: { cbn [mbind option_bind]. unfold qrEncodeData in Ee. pose proof (qrVersion_spec (length payload)). destruct (qrVersion _); done. }
  destruct (codewords_spec payload v cws Hp Ee) as (Hv & Hlen & cnt & total & dlen & Eg & Hc & Hl & Hsyn & Hread).
  cbn [mbind option_bind]. split; [done|]. destruct (layout_of v Hv) as [Ls Lw Lf Lr Lp Ln Lv]. fold (allBits cws).
  set (n := sizeOf v) in *. destruct (allBits_put cws Hc) as [Hb01 Hbl]. rewrite Hl in Hbl.
  destruct (place_spec n (func (skeleton v)) (walk n) (allBits cws) (mods (skeleton v)) Ls Lw Lf) as (P1 & P2 & _).
  set (m0 := place _ _ _ _) in *. apply NoDup_app in Ln as (Ln1 & Ln12 & Ln2).
  assert (Hin : forall ps, (forall p, p ∈ ps -> p ∈ pos1 ++ pos2 n) -> forallb (inside n) ps = true).
  { intros ps Hps. apply forallb_forall. intros p Hp'%list_elem_of_In. by apply Lp, Hps. }
  destruct (setAll_spec n pos1 formatBits m0 P1 (Hin pos1 ltac:(intros; apply elem_of_app; by left)) Ln1 eq_refl) as (S1 & S2 & S3).
  set (m1 := setAll m0 pos1 formatBits) in *.
  destruct (setAll_spec n (pos2 n) formatBits m1 S1 (Hin (pos2 n) ltac:(intros; apply elem_of_app; by right)) Ln2 eq_refl) as (T1 & T2 & T3).
  set (m2 := setAll m1 (pos2 n) formatBits) in *.
  assert (F1 : map (mget m2) pos1 = map (fun b => b =? 1) formatBits).
  { rewrite <- S2. apply map_ext_in. intros p Hp'%list_elem_of_In. apply T3; [apply Lp, elem_of_app; by left|by apply Ln12]. }
  unfold scan. rewrite (proj1 T1), Lv, Eg. fold n. rewrite F1, T2, !bool_decide_eq_true_2 by done. cbn [negb orb].
  assert (Hbits : map (fun p => unmask p (mget m2 p)) (free v) = allBits cws ++ replicate (length (free v) - cnt * total * 8) 0).
  { specialize (Lr _ _ _ Eg). apply list_eq_same_length with (n := length (free v)).
    - rewrite length_app, length_replicate, Hbl. lia.
    - by rewrite length_map.
    - intros k x y Hk Hx Hy. rewrite list_lookup_fmap in Hx. destruct (free v !! k) as [p|] eqn:Ek; [|done]. cbn in Hx.
      assert (Hin2 : p ∈ free v) by by eapply list_elem_of_lookup_2.
      assert (Hfree : mget (func (skeleton v)) p = false /\ inside n p = true).
      { unfold free in Hin2. apply list_elem_of_In, filter_In in Hin2 as [Hw Hn]. split; [by apply negb_true_iff in Hn|].
        rewrite forallb_forall in Lw. by apply Lw. }
      destruct Hfree as [Hfn Hi].
      assert (Hnp : p ∉ pos1 ++ pos2 n) by (intros Hpp; apply Lp in Hpp; destruct Hpp; congruence).
      rewrite T3, S3 in Hx by (try done; intros Hpp; apply Hnp, elem_of_app; auto). rewrite (P2 k p Ek) in Hx.
      rewrite unmask_masked in Hx.
      + injection Hx as <-. destruct (decide (k < cnt * total * 8)%nat) as [Hlt|Hge].
        * rewrite lookup_app_l in Hy by lia. by rewrite Hy.
        * rewrite lookup_app_r in Hy by lia. apply lookup_replicate in Hy as [-> _].
          rewrite (lookup_ge_None_2 (allBits cws)) by lia. done.
      + destruct (allBits cws !! k) as [b|] eqn:Eb; [|by left]. cbn. rewrite Forall_forall in Hb01. apply Hb01. by eapply list_elem_of_lookup_2. }
  rewrite Hbits, <- Hl, read_bytes by done. rewrite Hsyn. exact Hread.
Qed.

(** C37: Whatever the payload, the code either refuses it - exactly when it is
    longer than 106 bytes - or renders a matrix from which a scanner gets back
    that payload: the format information is in both places, the modules read
    along the walk give codewords whose blocks have vanishing syndromes, and
    their data parses to the bytes of the payload.  The scanner takes the walk
    and the map of function modules from the encoder: it does not look at the
    finder and alignment patterns. *)
Theorem qr_roundtrip payload : bytes payload ->
  match QRMatrix payload with
  | Some m => (length payload <= 106)%nat /\ scan m = Some payload
  | None => (106 < length payload)%nat
  end.
Proof. apply qr_roundtrip_all. Qed.

(** ** The QR code of an invoice *)

Lemma textBytes_bytes s : bytes (textBytes s) /\ length (textBytes s) = String.length s.
Proof.
  induction s as [|c s [IH1 IH2]]; [done|]. cbn [textBytes length String.length]. split; [|by rewrite IH2]. constructor; [|done].
  unfold isByte, byte_val. pose proof (Ascii.N_ascii_bounded c). lia.
Qed.

(** The QR code of an invoice the caller may see is served exactly when
    the invoice has a reference number, its signed payload can be computed and
    payload and signature together are at most 106 bytes; then the signature
    verifies against the payload, and a scanner reads from the image's modules
    exactly the payload with its signature.  A longer payload is answered with
    an error: nothing bounds it by construction. *)
Theorem qr_served_exact (mac : string -> option string) claims id s inv :
  Get id s = Some inv -> EinvHandlers.tenantGuard claims inv = None ->
  match handleGetQR mac claims id s with
  | JSON code (full, sig, svg) => code = 200 /\ IRN inv <> "" /\ (String.length full <= 106)%nat /\
      full = qrText inv +:+ "|" +:+ sig /\ VerifyQRPayload mac (qrText inv) sig = true /\
      exists m, svg = QRSVG m 4 /\ scan m = Some (textBytes full)
  | Problem code _ => code = 409 /\ IRN inv = "" \/
      code = 500 /\ forall sum, mac (qrText inv) = Some sum -> (106 < String.length (qrText inv +:+ "|" +:+ Str.take 12 (hex sum)))%nat
  end.
Proof.
  intros Hg Ht. unfold handleGetQR. rewrite Hg, Ht. destruct (decide (IRN inv = "")) as [Ei|Ei].
  { rewrite bool_decide_eq_true_2 by done. by left. }
  rewrite bool_decide_eq_false_2 by done. unfold QRPayload. destruct (mac (qrText inv)) as [sum|] eqn:Em; [|by right].
  cbn [mbind option_bind]. set (full := qrText inv +:+ "|" +:+ Str.take 12 (hex sum)).
  destruct (textBytes_bytes full) as [Hb Hl]. pose proof (qr_roundtrip_all (textBytes full) Hb) as Hq. rewrite Hl in Hq.
  destruct (QRMatrix (textBytes full)) as [m|].
  - destruct Hq as [Hlen Hscan]. split_and!; try done.
    + unfold VerifyQRPayload. rewrite Em. by apply bool_decide_eq_true_2.
    + by exists m.
  - right. split; [done|]. intros sum' [= <-]. exact Hq.
Qed.

Lemma qr_roundtrip_witness : match QRMatrix [78; 82; 83] with
  | Some m => (length [78; 82; 83] <= 106)%nat /\ scan m = Some [78; 82; 83]
  | None => (106 < length [78; 82; 83])%nat
  end.
Proof. apply (qr_roundtrip [78; 82; 83]). repeat constructor; done. Defined.

Definition demo_irn (irn : string) : CanonicalInvoice := EinvValidate.demo_bare{{ IRN := irn }}.
Definition demo_mac (payload : string) : option string := Some "0123456789abcdef".

Lemma qr_served_exact_witness :
  match handleGetQR demo_mac None "x" (NewInvoiceStore [demo_irn "INV1-94ND90NR-20260127"]) with
  | JSON code (full, sig, svg) => code = 200 /\ IRN (demo_irn "INV1-94ND90NR-20260127") <> "" /\ (String.length full <= 106)%nat /\
      full = qrText (demo_irn "INV1-94ND90NR-20260127") +:+ "|" +:+ sig /\
      VerifyQRPayload demo_mac (qrText (demo_irn "INV1-94ND90NR-20260127")) sig = true /\
      exists m, svg = QRSVG m 4 /\ scan m = Some (textBytes full)
  | Problem code _ => code = 409 /\ IRN (demo_irn "INV1-94ND90NR-20260127") = "" \/
      code = 500 /\ forall sum, demo_mac (qrText (demo_irn "INV1-94ND90NR-20260127")) = Some sum ->
        (106 < String.length (qrText (demo_irn "INV1-94ND90NR-20260127") +:+ "|" +:+ Str.take 12 (hex sum)))%nat
  end.
Proof.
  apply (qr_served_exact demo_mac None "x" (NewInvoiceStore [demo_irn "INV1-94ND90NR-20260127"]) (demo_irn "INV1-94ND90NR-20260127")).
  - vm_compute. reflexivity.
  - vm_compute. reflexivity.
Defined.

(** A cleared invoice with a number of 40 letters has no QR code. *)
Example long_number_no_qr : status (handleGetQR demo_mac None "x"
  (NewInvoiceStore [demo_irn "ABCDEFGHIJABCDEFGHIJABCDEFGHIJABCDEFGHIJ-94ND90NR-20260127"])) = 500.
Proof. vm_compute. reflexivity. Qed.
