(* ===== verification/Authx.v ===== *)
(** * Shared authentication (packages/authx/authx.go,
    packages/shared/devjwt/devjwt.go and keycloak.go)

    The Keycloak verifier with its cache of signing keys, the selection of the
    mode at start-up and the two middlewares.  The RSA check, the decoding of
    JSON documents and the answers of the key endpoint are parameters; times
    are in nanoseconds, expiries in seconds. *)

From S2P Require Import Prelude StrFacts Crypto GoJson GoAny GoTime.
From S2P Require Auth.

(** ** Signing keys *)

Record jwksKey := mkJwksKey { Kty : string; Kid : string; jk_N : string; jk_E : string }.

(** A public key: modulus and exponent *)
Abbreviation rsaKey := (Z * Z)%type.

(** [big.Int.SetBytes], and the exponent as a 64-bit integer *)
Definition bigOf (s : string) : Z := fold_left (fun n c => n * 256 + byte_val c) (String.list_ascii_of_string s) 0.
Definition intOf (s : string) : Z := fold_left (fun e c => Z.lor (wrap64 (Z.shiftl e 8)) (byte_val c)) (String.list_ascii_of_string s) 0.

Definition addKey (m : gmap string rsaKey) (k : jwksKey) : gmap string rsaKey :=
  if negb (bool_decide (Kty k = "RSA")) then m
  else match Auth.b64_decode (jk_N k), Auth.b64_decode (jk_E k) with
       | Some n, Some e => <[Kid k := (bigOf n, intOf e)]> m
       | _, _ => m
       end.

Definition keysOf (doc : list jwksKey) : gmap string rsaKey := foldl addKey ∅ doc.

Record KeycloakConfig := mkKeycloak { Issuer : string; Audience : string; JWKSURL : string }.

(** The cache; [None] is the zero time *)
Record keyCache := mkCache { keys : gmap string rsaKey; fetchedAt : option Z }.
Definition emptyCache : keyCache := mkCache ∅ None.

Definition NewKeycloakVerifier (issuer audience jwksURL : string) : KeycloakConfig :=
  mkKeycloak issuer audience
    (if bool_decide (jwksURL = "") then Str.trim_suffix issuer "/" +:+ "/protocol/openid-connect/certs" else jwksURL).

Definition jwksCacheTTL : Z := 5 * 60 * second.

(** [answer]: the document, when it arrives and decodes *)
Definition fetchJWKS (now : Z) (answer : option (list jwksKey)) (c : keyCache) : option keyCache :=
  doc ← answer; Some (mkCache (keysOf doc) (Some now)).

Definition fresh (now : Z) (c : keyCache) : bool :=
  match fetchedAt c with Some t => now - t <? jwksCacheTTL | None => false end.

Definition keyFor (now : Z) (answer : option (list jwksKey)) (kid : string) (c : keyCache) : keyCache * option rsaKey :=
  match keys c !! kid, fresh now c with
  | Some k, true => (c, Some k)
  | _, _ => match fetchJWKS now answer c with
            | None => (c, keys c !! kid)
            | Some c => (c, keys c !! kid)
            end
  end.

(** ** Tokens *)

Record kcHeader := mkHeader { Alg : string; h_Kid : string }.

Record kcClaims := mkKcClaims {
  kc_Sub : string;
  Iss : string;
  Aud : any;
  kc_Exp : Z;
  kc_TenantID : string;
  RealmRoles : list string;
  Resource : gmap string (list string);
}.

Definition audStrings (a : any) : list string :=
  match a with
  | VStr s => [s]
  | VList l => omap (fun x => match x with VStr s => Some s | _ => None end) l
  | _ => []
  end.

Section Tokens.
Context `{Crypto} (rsaVerify : rsaKey -> string -> string -> bool)
  (decodeHeader : string -> option kcHeader) (decodeKc : string -> option kcClaims) (decodeClaims : string -> option Auth.Claims).

Definition issuerOk (v : KeycloakConfig) (kc : kcClaims) : bool :=
  bool_decide (Issuer v = "") || bool_decide (Iss kc = Str.trim_suffix (Issuer v) "/") || bool_decide (Iss kc = Issuer v).

Definition audienceOk (v : KeycloakConfig) (kc : kcClaims) : bool :=
  bool_decide (Audience v = "") || existsb (fun a => bool_decide (a = Audience v)) (audStrings (Aud kc)).

Definition rolesFor (v : KeycloakConfig) (kc : kcClaims) : list string :=
  RealmRoles kc ++ (if bool_decide (Audience v = "") then [] else default [] (Resource kc !! Audience v)).

(** The checks after the signature; [None] refuses the token *)
Definition acceptClaims (v : KeycloakConfig) (now : Z) (kc : kcClaims) : option Auth.Claims :=
  if negb (issuerOk v kc) then None
  else if (kc_Exp kc =? 0) || (kc_Exp kc <? now / second) then None
  else if negb (audienceOk v kc) then None
  else Some (Auth.mkClaims (kc_Sub kc) (rolesFor v kc) (kc_TenantID kc) (kc_Exp kc)).

Definition Verify (v : KeycloakConfig) (now : Z) (answer : option (list jwksKey)) (token : string) (c : keyCache)
  : keyCache * option Auth.Claims :=
  match Str.split "."%char token with
  | [p0; p1; p2] =>
      match (h ← Auth.b64_decode p0; decodeHeader h) with
      | None => (c, None)
      | Some hdr =>
          if negb (bool_decide (Alg hdr = "RS256")) then (c, None)
          else match keyFor now answer (h_Kid hdr) c with
               | (c, None) => (c, None)
               | (c, Some key) =>
                   (c, sig ← Auth.b64_decode p2;
                       if negb (rsaVerify key (sha256 (p0 +:+ "." +:+ p1)) sig) then None
                       else pl ← Auth.b64_decode p1; kc ← decodeKc pl; acceptClaims v now kc)
               end
      end
  | _ => (c, None)
  end.

(** ** Start-up *)

Record AuthEnv := mkAuthEnv {
  AUTH_MODE : string;
  PROFILE : string;
  KEYCLOAK_ISSUER : string;
  KEYCLOAK_AUDIENCE : string;
  KEYCLOAK_JWKS_URL : string;
  DEV_SECRET : string;
}.

Definition KeycloakVerifierFromEnv (env : AuthEnv) : option KeycloakConfig :=
  if bool_decide (KEYCLOAK_ISSUER env = "") then None
  else Some (NewKeycloakVerifier (KEYCLOAK_ISSUER env) (KEYCLOAK_AUDIENCE env) (KEYCLOAK_JWKS_URL env)).

Inductive startError := needsIssuer | needsAudience | prodRefusesMode | needsSecret.

Definition middlewareConfigFromEnv (env : AuthEnv) : result startError (string * option KeycloakConfig) :=
  let mode := Str.or_default (AUTH_MODE env) "dev" in
  if bool_decide (mode = "keycloak") then
    match KeycloakVerifierFromEnv env with
    | None => Err needsIssuer
    | Some kc => if bool_decide (PROFILE env = "prod") && bool_decide (Audience kc = "") then Err needsAudience else Ok (mode, Some kc)
    end
  else if bool_decide (PROFILE env = "prod") then Err prodRefusesMode
  else if bool_decide (DEV_SECRET env = "") then Err needsSecret
  else Ok (mode, None).

(** ** The middlewares *)

(** A request passes with claims or without (the health probes), or is
    answered 401; or the process ends. *)
Inductive verdict := passes (c : option Auth.Claims) | unauthorized | exits.

Definition probe (path : string) : bool := bool_decide (path = "/healthz") || bool_decide (path = "/readyz").

Definition verdictOf (c : option Auth.Claims) : verdict := match c with Some c => passes (Some c) | None => unauthorized end.

Definition devToken (now : Z) (token secret : string) : option Auth.Claims :=
  match Auth.verifyHS256 decodeClaims (now / second) token secret with Ok c => Some c | Err _ => None end.

(** [Middleware] of authx, on an environment it starts in *)
Definition Middleware (mode : string) (kc : option KeycloakConfig) (env : AuthEnv) (now : Z) (answer : option (list jwksKey))
    (path : string) (h : Auth.Header) (c : keyCache) : keyCache * verdict :=
  if probe path then (c, passes None)
  else match Auth.bearer h with
       | Some tok =>
           match kc with
           | Some v => let '(c, r) := Verify v now answer tok c in (c, verdictOf r)
           | None => (c, verdictOf (devToken now tok (DEV_SECRET env)))
           end
       | None => (c, if bool_decide (mode = "dev") then verdictOf (Auth.devClaims h) else unauthorized)
       end.

(** [Secret] of devjwt: [None] ends the process *)
Definition defaultSecret : string := "meridian-dev-secret-change-me-32!".
Definition Secret (env : AuthEnv) : option string :=
  if negb (bool_decide (DEV_SECRET env = "")) then Some (DEV_SECRET env)
  else if negb (bool_decide (AUTH_MODE env = "")) && negb (bool_decide (AUTH_MODE env = "dev")) then None
  else Some defaultSecret.

(** [keycloakMiddleware] and [devMiddleware] of devjwt *)
Definition keycloakMiddleware (v : KeycloakConfig) (now : Z) (answer : option (list jwksKey)) (path : string) (h : Auth.Header)
    (c : keyCache) : keyCache * verdict :=
  if probe path then (c, passes None)
  else match Auth.bearer h with
       | Some tok => let '(c, r) := Verify v now answer tok c in (c, verdictOf r)
       | None => (c, unauthorized)
       end.

Definition devMiddleware (env : AuthEnv) (now : Z) (path : string) (h : Auth.Header) : verdict :=
  if probe path then passes None
  else match Auth.bearer h with
       | Some tok => match Secret env with
                     | None => exits
                     | Some secret => verdictOf (devToken now tok secret)
                     end
       | None => verdictOf (Auth.devClaims h)
       end.

(** [MiddlewareEnv]: [None] refuses to start *)
Definition MiddlewareEnv (env : AuthEnv) : option (Z -> option (list jwksKey) -> string -> Auth.Header -> keyCache -> keyCache * verdict) :=
  if bool_decide (AUTH_MODE env = "keycloak") then
    v ← KeycloakVerifierFromEnv env; Some (keycloakMiddleware v)
  else Some (fun now _ path h c => (c, devMiddleware env now path h)).

(** [IssueDev]; [iat] and [exp] default to now and in eight hours *)
Definition claimsJSON (c : Auth.Claims) (iat : Z) : json :=
  JObj [("sub", JStr (Auth.Sub c)); ("roles", JArr (map JStr (Auth.Roles c))); ("tenant_id", JStr (Auth.c_TenantID c));
        ("exp", JNum (Auth.Exp c)); ("iat", JNum iat)].

Definition IssueDev (secret : string) (now iat : Z) (c : Auth.Claims) : string :=
  let iat := if iat =? 0 then now / second else iat in
  let c := Auth.mkClaims (Auth.Sub c) (Auth.Roles c) (Auth.c_TenantID c) (if Auth.Exp c =? 0 then (now + 8 * hour) / second else Auth.Exp c) in
  Auth.signHS256 (json_text (JObj [("alg", JStr "HS256"); ("typ", JStr "JWT")])) (json_text (claimsJSON c iat)) secret.
End Tokens.

(** ** Which key a token was checked with *)

Section Properties.
Context `{Crypto} (rsaVerify : rsaKey -> string -> string -> bool)
  (decodeHeader : string -> option kcHeader) (decodeKc : string -> option kcClaims) (decodeClaims : string -> option Auth.Claims).

Abbreviation request := (Z * option (list jwksKey) * string)%type.

(** The cache after the requests, in the order of their turns at the lock *)
Definition runVerify (v : KeycloakConfig) (reqs : list request) : keyCache :=
  foldl (fun c '(now, answer, token) => (Verify rsaVerify decodeHeader decodeKc v now answer token c).1) emptyCache reqs.

(** The cache holds the keys of the last document that arrived. *)
Definition cacheOf (reqs : list request) (c : keyCache) : Prop :=
  c = emptyCache \/ exists t doc token, (t, Some doc, token) ∈ reqs /\ c = mkCache (keysOf doc) (Some t).

Lemma keyFor_cache now answer kid c :
  (keyFor now answer kid c).1 = c \/ exists doc, answer = Some doc /\ (keyFor now answer kid c).1 = mkCache (keysOf doc) (Some now).
Proof.
  unfold keyFor, fetchJWKS. destruct (keys c !! kid), (fresh now c); try (by left); (destruct answer as [doc|]; [right; by exists doc|by left]).
Qed.

Lemma Verify_cache v now answer token c :
  (Verify rsaVerify decodeHeader decodeKc v now answer token c).1 = c \/
  exists doc, answer = Some doc /\ (Verify rsaVerify decodeHeader decodeKc v now answer token c).1 = mkCache (keysOf doc) (Some now).
Proof.
  unfold Verify. destruct (Str.split _ _) as [|p0 [|p1 [|p2 [|]]]]; try (by left).
  destruct (h ← _; _) as [hdr|]; [|by left]. destruct (negb _); [by left|].
  pose proof (keyFor_cache now answer (h_Kid hdr) c) as Hk. by destruct (keyFor now answer (h_Kid hdr) c) as [c' [key|]].
Qed.

Lemma runVerify_cache v reqs : cacheOf reqs (runVerify v reqs).
Proof.
  unfold runVerify. induction reqs as [|[[now answer] token] reqs IH] using rev_ind; [by left|].
  rewrite foldl_app. cbn [foldl]. set (c := foldl _ emptyCache reqs) in *.
  destruct (Verify_cache v now answer token c) as [->|(doc & -> & ->)].
  - destruct IH as [->|(t & doc & tok & Hin & ->)]; [by left|]. right. exists t, doc, tok. split; [|done]. apply elem_of_app. by left.
  - right. exists now, doc, token. split; [|done]. apply elem_of_app. right. by apply list_elem_of_singleton.
Qed.

(** Where a key comes from: a document that arrives with this very request,
    or one that arrived with an earlier one, less than five minutes ago unless
    the endpoint does not answer now *)
Definition keyServed (reqs : list request) (now : Z) (answer : option (list jwksKey)) (kid : string) (key : rsaKey) : Prop :=
  (exists doc, answer = Some doc /\ keysOf doc !! kid = Some key) \/
  (exists t doc token, (t, Some doc, token) ∈ reqs /\ keysOf doc !! kid = Some key /\ (now - t < jwksCacheTTL \/ answer = None)).

Lemma keyFor_served reqs now answer kid c c' key :
  cacheOf reqs c -> keyFor now answer kid c = (c', Some key) -> keyServed reqs now answer kid key.
Proof.
  intros Hc Hk. unfold keyFor, fetchJWKS in Hk.
  assert (Hold : keys c !! kid = Some key -> fresh now c = true \/ answer = None -> keyServed reqs now answer kid key).
  { intros E Hf. destruct Hc as [->|(t & doc & token & Hin & ->)]; [cbn [emptyCache keys] in E; by rewrite lookup_empty in E|]. right. exists t, doc, token.
    split; [done|]. split; [done|]. destruct Hf as [Hf|]; [left|by right]. unfold fresh in Hf. cbn in Hf. by apply Z.ltb_lt. }
  destruct (keys c !! kid) as [k|] eqn:Ek, (fresh now c) eqn:Ef; cbn in Hk;
    try (injection Hk as _ <-; apply Hold; [done|by left]);
    (destruct answer as [doc|]; cbn in Hk; [injection Hk as _ Hk; left; by exists doc|]; injection Hk as _ Hk; apply Hold; [congruence|by right]).
Qed.

(** What a token has that the verifier accepts for [cl] *)
Definition genuine (v : KeycloakConfig) (reqs : list request) (now : Z) (answer : option (list jwksKey)) (token : string) (cl : Auth.Claims) : Prop :=
  exists p0 p1 p2 header hdr key sig payload kc,
    Str.split "."%char token = [p0; p1; p2] /\
    Auth.b64_decode p0 = Some header /\ decodeHeader header = Some hdr /\ Alg hdr = "RS256" /\
    keyServed reqs now answer (h_Kid hdr) key /\
    Auth.b64_decode p2 = Some sig /\ rsaVerify key (sha256 (p0 +:+ "." +:+ p1)) sig = true /\
    Auth.b64_decode p1 = Some payload /\ decodeKc payload = Some kc /\
    (Iss kc = Str.trim_suffix (Issuer v) "/" \/ Iss kc = Issuer v \/ Issuer v = "") /\
    kc_Exp kc <> 0 /\ now / second <= kc_Exp kc /\
    (Audience v = "" \/ Audience v ∈ audStrings (Aud kc)) /\
    cl = Auth.mkClaims (kc_Sub kc) (rolesFor v kc) (kc_TenantID kc) (kc_Exp kc).

Lemma accept_spec v now kc cl : acceptClaims v now kc = Some cl ->
  (Iss kc = Str.trim_suffix (Issuer v) "/" \/ Iss kc = Issuer v \/ Issuer v = "") /\ kc_Exp kc <> 0 /\ now / second <= kc_Exp kc /\
  (Audience v = "" \/ Audience v ∈ audStrings (Aud kc)) /\
  cl = Auth.mkClaims (kc_Sub kc) (rolesFor v kc) (kc_TenantID kc) (kc_Exp kc).
Proof.
  unfold acceptClaims. destruct (issuerOk v kc) eqn:Ei; [|done]. cbn [negb].
  destruct (_ || _) eqn:Ee; [done|]. destruct (audienceOk v kc) eqn:Ea; [|done]. intros [= <-].
  apply orb_false_iff in Ee as [E0%Z.eqb_neq E1%Z.ltb_ge]. unfold issuerOk in Ei. unfold audienceOk in Ea.
  rewrite !orb_true_iff, !bool_decide_eq_true in Ei. rewrite orb_true_iff, bool_decide_eq_true, existsb_exists in Ea.
  split_and!; try done; [tauto|]. destruct Ea as [?|(a & Ha & Hb)]; [by left|right]. bools. subst a. by apply list_elem_of_In.
Qed.

Lemma Verify_genuine v reqs now answer token c' cl :
  Verify rsaVerify decodeHeader decodeKc v now answer token (runVerify v reqs) = (c', Some cl) -> genuine v reqs now answer token cl.
Proof.
  intros Hv. unfold Verify in Hv. destruct (Str.split _ _) as [|p0 [|p1 [|p2 [|]]]] eqn:Es; try done.
  destruct (Auth.b64_decode p0) as [header|] eqn:E0; [|done]. cbn [mbind option_bind] in Hv.
  destruct (decodeHeader header) as [hdr|] eqn:Eh; [|done].
  destruct (bool_decide (Alg hdr = "RS256")) eqn:Ea; [|done]. cbn [negb] in Hv. bools.
  destruct (keyFor _ _ _ _) as [c1 [key|]] eqn:Ek; [|done].
  destruct (Auth.b64_decode p2) as [sig|] eqn:E2; [|done]. cbn [mbind option_bind] in Hv.
  destruct (rsaVerify _ _ _) eqn:Er; [|done]. cbn [negb] in Hv.
  destruct (Auth.b64_decode p1) as [payload|] eqn:E1; [|done]. cbn [mbind option_bind] in Hv.
  destruct (decodeKc payload) as [kc|] eqn:Ed; [|done]. cbn [mbind option_bind] in Hv. injection Hv as _ Hacc.
  destruct (accept_spec _ _ _ _ Hacc) as (A1 & A2 & A3 & A4 & A5).
  exists p0, p1, p2, header, hdr, key, sig, payload, kc. split_and!; try done. eapply keyFor_served; [apply runVerify_cache|done].
Qed.

(** C19: A service of authx that starts with PROFILE=prod lets a request pass -
    but for the health probes - only with a bearer token that is genuine: of
    algorithm RS256, its signature made with a key of the given kid that the
    issuer's endpoint published - in a document of less than five minutes,
    unless the endpoint does not answer -, of the configured issuer, not
    expired, and for the configured audience, which is not empty; and the
    caller then has the roles of the realm and of that audience.  No header
    but Authorization matters. *)
Theorem authx_prod_fails_closed env mode kc :
  PROFILE env = "prod" -> middlewareConfigFromEnv env = Ok (mode, kc) ->
  exists v, kc = Some v /\ mode = "keycloak" /\ Issuer v <> "" /\ Audience v <> "" /\
    forall reqs now answer path h c' cl, probe path = false ->
      Middleware rsaVerify decodeHeader decodeKc decodeClaims mode kc env now answer path h (runVerify v reqs) = (c', passes cl) ->
      exists token claims, Auth.bearer h = Some token /\ cl = Some claims /\ genuine v reqs now answer token claims.
Proof.
  intros Hp Hm. unfold middlewareConfigFromEnv in Hm. destruct (bool_decide (_ = "keycloak")) eqn:Ek.
  2: { rewrite Hp in Hm. done. }
  bools. unfold KeycloakVerifierFromEnv in Hm. destruct (bool_decide (KEYCLOAK_ISSUER env = "")) eqn:Ei; [done|]. bools.
  rewrite Hp in Hm. set (v := NewKeycloakVerifier _ _ _) in Hm. destruct (bool_decide (Audience v = "")) eqn:Ea; [done|]. bools.
  cbn in Hm. injection Hm as <- <-. exists v. split_and!; try done.
  intros reqs now answer path h c' cl Hpr Hv. unfold Middleware in Hv. rewrite Hpr in Hv.
  destruct (Auth.bearer h) as [token|] eqn:Eb.
  - destruct (Verify _ _ _ v now answer token _) as [c1 r] eqn:Er. destruct r as [claims|]; [|done]. injection Hv as _ <-.
    exists token, claims. split; [done|]. split; [done|]. by eapply Verify_genuine.
  - rewrite bool_decide_eq_false_2 in Hv by congruence. done.
Qed.

(** The middleware of devjwt, which the e-invoicing service uses, does not
    look at PROFILE: with PROFILE=prod and any AUTH_MODE but keycloak it starts
    and lets every request pass as the role - admin included - and the tenant
    its own headers name.  authx refuses to start in that environment. *)
Theorem devjwt_prod_accepts_dev_role env role tenant now answer path c :
  PROFILE env = "prod" -> AUTH_MODE env <> "keycloak" -> probe path = false -> role ∈ Auth.devRoles ->
  (exists e, middlewareConfigFromEnv env = Err e) /\
  exists serve, MiddlewareEnv rsaVerify decodeHeader decodeKc decodeClaims env = Some serve /\
    serve now answer path {[ "X-Dev-Role" := role; "X-Tenant-ID" := tenant ]} c =
      (c, passes (Some (Auth.mkClaims ("dev-" +:+ role) [role] tenant 0))).
Proof.
  intros Hp Hm Hpr Hr. split.
  - unfold middlewareConfigFromEnv. assert (Hne : Str.or_default (AUTH_MODE env) "dev" <> "keycloak").
    { unfold Str.or_default. destruct (bool_decide _); done. }
    rewrite bool_decide_eq_false_2 by done. rewrite Hp. by eexists.
  - unfold MiddlewareEnv. rewrite bool_decide_eq_false_2 by done. eexists. split; [done|]. unfold devMiddleware. rewrite Hpr.
    assert (Hb : Auth.bearer {[ "X-Dev-Role" := role; "X-Tenant-ID" := tenant ]} = None).
    { unfold Auth.bearer, Auth.header. rewrite lookup_insert_ne, lookup_singleton_ne by done. done. }
    rewrite Hb. unfold Auth.devClaims, Auth.header. rewrite lookup_insert_eq. cbn [default from_option id].
    rewrite bool_decide_eq_true_2 by done. rewrite lookup_insert_ne, lookup_singleton_eq by done. done.
Qed.

(** The claims an issued token carries *)
Definition issuedClaims (now : Z) (c : Auth.Claims) : Auth.Claims :=
  Auth.mkClaims (Auth.Sub c) (Auth.Roles c) (Auth.c_TenantID c) (if Auth.Exp c =? 0 then (now + 8 * hour) / second else Auth.Exp c).

(** A token [IssueDev] makes is accepted under the same secret, with the
    claims it was issued for, until it expires - eight hours after its issue
    when nothing else was asked for - and refused from then on. *)
Theorem issued_token_expires secret issued iat now c :
  decodeClaims (json_text (claimsJSON (issuedClaims issued c) (if iat =? 0 then issued / second else iat))) = Some (issuedClaims issued c) ->
  Auth.Exp (issuedClaims issued c) <> 0 ->
  devToken decodeClaims now (IssueDev secret issued iat c) secret =
    (if now / second <=? Auth.Exp (issuedClaims issued c) then Some (issuedClaims issued c) else None).
Proof.
  intros Hd Hne. unfold devToken, Auth.verifyHS256, IssueDev, Auth.signHS256. fold (issuedClaims issued c).
  rewrite Auth.split_b64url, Auth.split_b64url, Auth.split_b64url_last, Auth.b64_roundtrip.
  rewrite bool_decide_true by done. cbn [negb]. rewrite Auth.b64_roundtrip, Hd.
  rewrite (proj2 (Z.eqb_neq _ _) Hne). cbn [negb andb].
  destruct (Z.leb_spec (now / second) (Auth.Exp (issuedClaims issued c))), (Z.ltb_spec (Auth.Exp (issuedClaims issued c)) (now / second)); done || lia.
Qed.
End Properties.

(** ** Witnesses *)

Section Witnesses.
#[local] Existing Instance Toy.crypto.

Definition demo_env : AuthEnv := mkAuthEnv "keycloak" "prod" "https://id.example/realms/m/" "meridian" "" "".
Definition demo_env_dev : AuthEnv := mkAuthEnv "" "prod" "" "" "" "".
Definition demo_claims : Auth.Claims := Auth.mkClaims "ada" ["operator"] "t1" 0.
Definition demo_text : string := json_text (claimsJSON (issuedClaims 0 demo_claims) 1).
Definition demo_decode (s : string) : option Auth.Claims := if bool_decide (s = demo_text) then Some (issuedClaims 0 demo_claims) else None.

Lemma authx_prod_fails_closed_witness : exists v, KeycloakVerifierFromEnv demo_env = Some v /\
  "keycloak" = "keycloak" /\ Issuer v <> "" /\ Audience v <> "".
Proof.
  destruct (authx_prod_fails_closed (fun _ _ _ => true) (fun _ => None) (fun _ => None) (fun _ => None) demo_env "keycloak"
    (KeycloakVerifierFromEnv demo_env) eq_refl eq_refl) as (v & Ev & Em & Ei & Ea & _).
  exact (ex_intro _ v (conj Ev (conj Em (conj Ei Ea)))).
Defined.

Lemma devjwt_prod_accepts_dev_role_witness :
  (exists e, middlewareConfigFromEnv demo_env_dev = Err e) /\
  exists serve, MiddlewareEnv (fun _ _ _ => true) (fun _ => None) (fun _ => None) (fun _ => None) demo_env_dev = Some serve /\
    serve 0 None "/v1/vat/summary" {[ "X-Dev-Role" := "admin"; "X-Tenant-ID" := "t9" ]} emptyCache =
      (emptyCache, passes (Some (Auth.mkClaims ("dev-" +:+ "admin") ["admin"] "t9" 0))).
Proof.
  apply (devjwt_prod_accepts_dev_role (fun _ _ _ => true) (fun _ => None) (fun _ => None) (fun _ => None) demo_env_dev "admin" "t9" 0 None
           "/v1/vat/summary" emptyCache); [reflexivity|discriminate|reflexivity|].
  apply list_elem_of_here.
Defined.

Lemma issued_token_expires_witness :
  devToken demo_decode (7 * hour) (IssueDev "s" 0 1 demo_claims) "s" =
    (if 7 * hour / second <=? Auth.Exp (issuedClaims 0 demo_claims) then Some (issuedClaims 0 demo_claims) else None).
Proof.
  apply (issued_token_expires demo_decode "s" 0 1 (7 * hour) demo_claims); [|discriminate].
  unfold demo_decode. vm_compute. reflexivity.
Defined.
End Witnesses.
