(* ===== verification/Routes.v ===== *)
(** * What the services serve (the main functions of services/pos-vat,
    services/vasp-carf, services/case-mgmt and services/einvoicing)

    The routes each service registers, with the handler of each and whether it
    is behind the service's authentication, and the way of a request through
    the middlewares to a handler or an answer. *)

From S2P Require Import Prelude StrFacts Crypto EinvModel.
From S2P Require Auth Authx Mux Otelx EinvStore Outbox EinvWebhooks EinvWorkflow EinvApiKeys EinvHandlers.

(** A handler, by its name in the source: open, or wrapped in [auth] *)
Inductive route := public (handler : string) | guarded (handler : string).

(** What becomes of a request *)
Inductive outcome (P : Type) :=
| ran (handler : string) (PathValue : string -> string) (principal : option P)
| refused (code : Z)
| redirected (to : string)
| ended.
#[global] Arguments ran {P} _ _ _.
#[global] Arguments refused {P} _.
#[global] Arguments redirected {P} _.
#[global] Arguments ended {P}.

Record request := mkReq {
  Method : string;
  EscapedPath : string;
  URLPath : string;
  Headers : Auth.Header;
  Baggage : string;
}.

(** ** The tables *)

Definition posRoutes : list (string * route) := [
  ("GET /healthz", public "healthz");
  ("GET /readyz", public "readyz");
  ("POST /v1/receipts", guarded "handleIngestReceipt");
  ("GET /v1/receipts", guarded "handleListReceipts");
  ("GET /v1/receipts/{id}", guarded "handleGetReceipt");
  ("GET /v1/spool", guarded "handleListSpool");
  ("POST /v1/spool/drain", guarded "handleSpoolDrain");
  ("POST /v1/settlement/recon", guarded "handleSettlementRecon");
  ("GET /v1/settlement/recon", guarded "handleListRecon");
  ("GET /v1/variance", guarded "handleVariance");
  ("POST /v1/b2c/report", guarded "handleB2CReport");
  ("POST /v1/cert-run", guarded "handleCertRun");
  ("GET /v1/attribution/mode", guarded "handleAttributionMode");
  ("GET /v1/packs", guarded "handlePacks");
  ("GET /v1/events", guarded "handleEvents");
  ("POST /v1/workflows/{name}/run", guarded "handleWorkflowRun");
  ("GET /v1/workflows", guarded "handleWorkflowList")].

Definition carfRoutes : list (string * route) := [
  ("GET /healthz", public "healthz");
  ("GET /readyz", public "readyz");
  ("POST /v1/trades", guarded "handleIngestTrade");
  ("GET /v1/trades", guarded "handleListTrades");
  ("POST /v1/transfers", guarded "handleIngestTransfer");
  ("GET /v1/transfers", guarded "handleListTransfers");
  ("GET /v1/costbasis/{asset}", guarded "handleCostBasis");
  ("POST /v1/fmv/snapshots", guarded "handleAddFMV");
  ("GET /v1/fmv/{asset}", guarded "handleGetFMV");
  ("POST /v1/ringfence/compute", guarded "handleRingFence");
  ("GET /v1/gains", guarded "handleGains");
  ("GET /v1/ledger", guarded "handleGains");
  ("POST /v1/carf/build", guarded "handleCARFBuild");
  ("GET /v1/carf/messages", guarded "handleCARFList");
  ("GET /v1/carf/messages/{id}", guarded "handleCARFGet");
  ("GET /v1/carf/messages/{id}/xml", guarded "handleCARFXML");
  ("POST /v1/carf/messages/{id}/correct", guarded "handleCARFCorrect");
  ("POST /v1/carf/transmit", guarded "handleCARFTransmit");
  ("GET /v1/gates", guarded "handleGates");
  ("POST /v1/gates/{id}/flip", guarded "handleGateFlip");
  ("POST /v1/duties/evaluate", guarded "handleDuties");
  ("GET /v1/packs", guarded "handlePacks")].

Definition caseRoutes : list (string * route) := [
  ("GET /healthz", public "healthz");
  ("GET /readyz", public "readyz");
  ("POST /v1/matters", guarded "handleCreateMatter");
  ("GET /v1/matters", guarded "handleListMatters");
  ("GET /v1/matters/{id}", guarded "handleGetMatter");
  ("PATCH /v1/matters/{id}", guarded "handleUpdateMatter");
  ("POST /v1/matters/{id}/documents", guarded "handleUploadDoc");
  ("GET /v1/matters/{id}/documents", guarded "handleListDocs");
  ("GET /v1/documents/{id}", guarded "handleGetDoc");
  ("GET /v1/documents/{id}/content", guarded "handleGetDocContent");
  ("POST /v1/matters/{id}/deadlines", guarded "handleCreateDeadline");
  ("GET /v1/deadlines", guarded "handleListDeadlines");
  ("PATCH /v1/deadlines/{id}", guarded "handleUpdateDeadline");
  ("GET /v1/portal/matters", guarded "handlePortalMatters");
  ("GET /v1/portal/matters/{id}", guarded "handlePortalMatter");
  ("POST /v1/relations/check", guarded "handleRelCheck");
  ("GET /v1/relations", guarded "handleRelList");
  ("POST /v1/relations/grant", guarded "handleRelGrant");
  ("POST /v1/relations/revoke", guarded "handleRelRevoke");
  ("POST /v1/matters/{id}/evidence-pack", guarded "handleEvidencePack");
  ("GET /v1/workflows", guarded "handleWorkflowList");
  ("POST /v1/workflows/{name}/run", guarded "handleWorkflowRun")].

(** The routes of the e-invoicing service; its authentication is around the
    mux. *)
Definition einvRoutes : list (string * route) := [
  ("GET /healthz", public "healthz");
  ("GET /readyz", public "readyz");
  ("POST /v1/invoices", guarded "handleCreateInvoice");
  ("POST /v1/invoices/nrs", guarded "handleNRSCreate");
  ("PATCH /v1/invoices/{irn}", guarded "handleNRSUpdate");
  ("POST /v1/webhooks", guarded "handleWebhookRegister");
  ("GET /v1/webhooks", guarded "handleWebhookList");
  ("GET /v1/invoices/{id}", guarded "handleGetInvoice");
  ("POST /v1/invoices/{id}/preclear", guarded "handlePreclear");
  ("GET /v1/invoices/{id}/qr", guarded "handleGetQR");
  ("POST /v1/b2c/report", guarded "handleB2CReport");
  ("GET /v1/replay", guarded "handleReplayList");
  ("POST /v1/replay/{seq}", guarded "handleReplayOne");
  ("GET /v1/workflows", guarded "handleWorkflows");
  ("GET /v1/apps", guarded "apps");
  ("POST /v1/apikeys", guarded "handleAPIKeyCreate");
  ("GET /v1/apikeys", guarded "handleAPIKeyList");
  ("POST /v1/apikeys/{id}/rotate", guarded "handleAPIKeyRotate");
  ("POST /v1/apikeys/{id}/revoke", guarded "handleAPIKeyRevoke");
  ("GET /v1/vat/summary", guarded "handleVATSummary");
  ("GET /v1/csid/public-key", guarded "csidPublicKey")].

(** [None]: a registration panics *)
Definition posMux : option (Mux.ServeMux route) := Mux.register posRoutes.
Definition carfMux : option (Mux.ServeMux route) := Mux.register carfRoutes.
Definition caseMux : option (Mux.ServeMux route) := Mux.register caseRoutes.
Definition einvMux : option (Mux.ServeMux route) := Mux.register einvRoutes.

(** ** Serving *)

Section Serving.
Context `{Crypto} (decodeClaims : string -> option Auth.Claims) (decodeTenant : string -> option string).

(** [svc.auth] around a handler, and the mux's own answers *)
Definition handled {P} (auth : option P) (r : Mux.reply route) : outcome P :=
  match r with
  | Mux.runs (public h) v => ran h v None
  | Mux.runs (guarded h) v => match auth with Some p => ran h v (Some p) | None => refused 401 end
  | Mux.redirected to => redirected to
  | Mux.code405 => refused 405
  | Mux.code404 => refused 404
  end.

Definition traced (mux : Mux.ServeMux route) (codes : Mux.reply route -> list Z) (req : request) : Mux.reply route * Otelx.Span :=
  Otelx.Middleware decodeTenant mux (Method req) (EscapedPath req) (URLPath req) (Baggage req) (Headers req) codes.

Definition posServe (cfg : Auth.AuthConfig) (kc : Auth.Verifier) (now : Z) (mux : Mux.ServeMux route) (codes : Mux.reply route -> list Z)
    (req : request) : outcome Auth.Claims * Otelx.Span :=
  let '(r, span) := traced mux codes req in (handled (Auth.posAuth decodeClaims cfg kc now (Headers req)) r, span).

Definition carfServe (cfg : Auth.AuthConfig) (kc : option Auth.Verifier) (now : Z) (mux : Mux.ServeMux route) (codes : Mux.reply route -> list Z)
    (req : request) : outcome Auth.Claims * Otelx.Span :=
  let '(r, span) := traced mux codes req in (handled (Auth.carfAuth decodeClaims cfg kc now (Headers req)) r, span).

Definition caseServe (cfg : Auth.AuthConfig) (kc : option Auth.Verifier) (now : Z) (mux : Mux.ServeMux route) (codes : Mux.reply route -> list Z)
    (req : request) : outcome Auth.Header * Otelx.Span :=
  let '(r, span) := traced mux codes req in (handled (Auth.caseAuth decodeClaims cfg kc now (Headers req)) r, span).

(** The handlers of the e-invoicing service get whatever principal the
    middlewares left. *)
Definition handledAs (who : option Auth.Claims) (r : Mux.reply route) : outcome Auth.Claims :=
  match r with
  | Mux.runs (public h) v | Mux.runs (guarded h) v => ran h v who
  | Mux.redirected to => redirected to
  | Mux.code405 => refused 405
  | Mux.code404 => refused 404
  end.

(** [jwt]: the middleware of devjwt the environment chose; [store]: the keys,
    [io] whether their file can be written *)
Definition einvServe (jwt : Z -> option (list Authx.jwksKey) -> string -> Auth.Header -> Authx.keyCache -> Authx.keyCache * Authx.verdict)
    (now : Z) (answer : option (list Authx.jwksKey)) (cache : Authx.keyCache) (io : bool) (store : EinvApiKeys.APIKeyStore)
    (mux : Mux.ServeMux route) (codes : Mux.reply route -> list Z) (req : request)
  : EinvApiKeys.APIKeyStore * Authx.keyCache * outcome Auth.Claims :=
  let '(store, routed) := EinvApiKeys.apiKeyMiddleware (Auth.header "X-Api-Key" (Headers req)) (URLPath req) now io store in
  match routed with
  | EinvApiKeys.toRoutes c => (store, cache, handledAs (Some c) (traced mux codes req).1)
  | EinvApiKeys.refused code => (store, cache, refused code)
  | EinvApiKeys.crashed => (store, cache, ended)
  | EinvApiKeys.toFallback =>
      let '(cache, v) := jwt now answer (URLPath req) (Headers req) cache in
      (store, cache, match v with
                     | Authx.passes c => handledAs c (traced mux codes req).1
                     | Authx.unauthorized => refused 401
                     | Authx.exits => ended
                     end)
  end.
End Serving.

(** ** Literal prefixes *)

(** The text a pattern's path begins with *)
Fixpoint litPrefix (ss : list Mux.segment) : string :=
  match ss with
  | Mux.lit s :: ss => "/" +:+ s +:+ litPrefix ss
  | _ => ""
  end.

Lemma split_head sep s w ws : Str.split sep s = w :: ws ->
  ws = [] /\ s = w \/ exists s', s = w +:+ String sep s' /\ Str.split sep s' = ws.
Proof.
  revert w ws. induction s as [|c s IH]; intros w ws; cbn [Str.split]; [intros [= <- <-]; by left|]. case_bool_decide as Hc.
  - intros [= <- <-]. right. exists s. by subst.
  - destruct (Str.split sep s) as [|w' ws'] eqn:E; [by apply Otelx.split_not_nil in E|]. intros [= <- <-].
    destruct (IH w' ws' eq_refl) as [[-> ->]|(s' & -> & Hs)]; [by left|right]. by exists s'.
Qed.

Lemma unescape_app w s u : Mux.unescapeAll (w +:+ String "/" s) = Some u ->
  exists u1 u2, Mux.unescapeAll w = Some u1 /\ Mux.unescapeAll s = Some u2 /\ u = u1 +:+ String "/" u2.
Proof.
  remember (String.length w) as n eqn:En. revert w u En. induction (lt_wf n) as [n _ IH]. intros w u ->.
  destruct w as [|c w].
  - rewrite str_app_nil_l. cbn [Mux.unescapeAll]. rewrite bool_decide_eq_false_2 by done. destruct (Mux.unescapeAll s) as [u2|]; [|done].
    intros [= <-]. by exists "", u2.
  - rewrite str_app_cons. cbn [Mux.unescapeAll]. case_bool_decide as Hc.
    + destruct w as [|a [|b w]].
      * rewrite str_app_nil_l. destruct s; [done|]. done.
      * rewrite str_app_cons, str_app_nil_l. destruct (Mux.hexval a); done.
      * rewrite !str_app_cons. destruct (Mux.hexval a) as [x|]; [|done]. destruct (Mux.hexval b) as [y|]; [|done].
        destruct (Mux.unescapeAll (w +:+ String "/" s)) as [u'|] eqn:E; [|done]. intros [= <-].
        destruct (IH (String.length w) ltac:(cbn; lia) w u' eq_refl E) as (u1 & u2 & -> & -> & ->). by eexists _, _.
    + destruct (Mux.unescapeAll (w +:+ String "/" s)) as [u'|] eqn:E; [|done]. intros [= <-].
      destruct (IH (String.length w) ltac:(cbn; lia) w u' eq_refl E) as (u1 & u2 & -> & -> & ->). by eexists _, _.
Qed.

(** A path that fits a pattern begins, once decoded, with the literal segments
    the pattern begins with. *)
Lemma fits_prefix ss : forall rest u, Mux.fits ss (Mux.pathSegs (Str.split "/" rest)) <> None -> Mux.unescapeAll rest = Some u ->
  exists tail, String "/" u = litPrefix ss +:+ tail.
Proof.
  induction ss as [|[t|n] ss IH]; intros rest u Hf Hu; [by eexists|cbn [litPrefix]|by eexists].
  destruct (Str.split "/" rest) as [|w ws] eqn:Es; [done|]. destruct (split_head _ _ _ _ Es) as [[-> ->]|(rest' & -> & Hs)].
  - cbn [Mux.pathSegs] in Hf. case_bool_decide; [done|]. cbn [Mux.fits] in Hf. case_bool_decide as Ht; [|done]. unfold Mux.unescape in Ht.
    rewrite Hu in Ht. cbn [default from_option] in Ht. subst t. destruct ss as [|[] ss]; [|done..]. exists "". by rewrite !str_app_nil_r.
  - destruct (unescape_app _ _ _ Hu) as (u1 & u2 & Hu1 & Hu2 & ->).
    destruct ws as [|w' ws']; [by apply Otelx.split_not_nil in Hs|].
    change (Mux.pathSegs (w :: w' :: ws')) with (Mux.seg (Mux.unescape w) :: Mux.pathSegs (w' :: ws')) in Hf. rewrite <- Hs in Hf.
    cbn [Mux.fits] in Hf. case_bool_decide as Ht; [|done]. unfold Mux.unescape in Ht. rewrite Hu1 in Ht. cbn [default from_option] in Ht. subst t.
    destruct (IH rest' u2 Hf Hu2) as [tail E]. exists tail. rewrite E, <- !str_app_assoc. done.
Qed.

(** A handler that runs is that of a pattern whose literal segments begin the
    path; it sees no path values. *)
Lemma traced_runs decodeTenant mux codes req (h : route) v :
  (traced decodeTenant mux codes req).1 = Mux.runs h v -> Mux.unescapeAll (EscapedPath req) = Some (URLPath req) ->
  exists p tail, (p, h) ∈ mux /\ URLPath req = litPrefix (Mux.segments p) +:+ tail /\ forall name, v name = "".
Proof.
  unfold traced, Otelx.Middleware, Mux.Handler. intros E Hu.
  destruct (Mux.findHandler mux (Method req) (EscapedPath req)) as [p h0 vals| | |] eqn:Ef; cbn [fst] in E; try done. injection E as -> <-.
  exists p. pose proof (Mux.findHandler_fits _ _ _ _ _ _ Ef) as Hf. assert (Ht : exists tail, URLPath req = litPrefix (Mux.segments p) +:+ tail).
  { destruct (EscapedPath req) as [|c rest] eqn:Ep; [destruct (Mux.segments p) as [|[] ?]; [by eexists|done|by eexists]|].
    destruct (decide (c = "/"%char)) as [->|Hc].
    - cbn [Mux.unescapeAll] in Hu. rewrite bool_decide_eq_false_2 in Hu by done. destruct (Mux.unescapeAll rest) as [u|] eqn:Eu; [|done].
      injection Hu as <-. eapply fits_prefix; [|exact Eu]. cbn [Mux.segsOf] in Hf. by rewrite Hf.
    - assert (Es : Mux.segsOf (String c rest) = []) by (clear -Hc; by destruct c as [[] [] [] [] [] [] [] []]).
      rewrite Es in Hf. destruct (Mux.segments p) as [|[] ?]; [by eexists|done|by eexists]. }
  destruct Ht as [tail ->]. exists tail. split; [by eapply Mux.findHandler_member|done].
Qed.

(** ** Registration *)

Lemma registered_member routes mux p (h : route) : Mux.register routes = Some mux -> (p, h) ∈ mux -> exists s, (s, h) ∈ routes /\ Mux.parsePattern s = Some p.
Proof.
  unfold Mux.register. assert (HG : forall (m0 : option (Mux.ServeMux route)) (mux0 : Mux.ServeMux route),
    foldl (fun acc r => x ← acc; Mux.HandleFunc x r) m0 routes = Some mux0 ->
    exists x, m0 = Some x /\ ((p, h) ∈ mux0 -> (p, h) ∈ x \/ exists s, (s, h) ∈ routes /\ Mux.parsePattern s = Some p)).
  { induction routes as [|[s0 h0] routes IH]; intros m0 mux0; cbn [foldl]; [intros ->; exists mux0; naive_solver|]. intros E.
    destruct (IH _ _ E) as (x & Ex & Hx). destruct m0 as [x0|]; [|done]. exists x0. split; [done|]. intros Hin.
    destruct (Hx Hin) as [Hin'|(s & Hs & Hp)]; [|right; exists s; split; [by apply list_elem_of_further|done]].
    cbn [mbind option_bind] in Ex. unfold Mux.HandleFunc in Ex. cbn [fst snd] in Ex.
    destruct (Mux.parsePattern s0) as [p0|] eqn:Ep; cbn [mbind option_bind] in Ex; [|done]. destruct (existsb _ _); [done|]. injection Ex as <-.
    apply elem_of_app in Hin' as [?|[= -> ->]%list_elem_of_singleton]; [by left|]. right. exists s0. split; [by apply list_elem_of_here|done]. }
  intros E Hin. destruct (HG _ _ E) as (x & [= <-] & Hx). destruct (Hx Hin) as [[]%not_elem_of_nil|?]; done.
Qed.

Definition tables : list (list (string * route)) := [posRoutes; carfRoutes; caseRoutes; einvRoutes].

(** No service panics while it registers its routes, and its mux sends
    every request to the one pattern that is more specific than every other
    that fits it, whatever the order of registration; a request gets no
    handler only when no pattern fits it. *)
Theorem routes_unambiguous :
  Forall (fun routes => match Mux.register routes with
    | None => False
    | Some mux => forall m path,
        match Mux.matchMethodAndPath mux m path with
        | Some (p, h, vals) =>
            (p, h) ∈ mux /\ Mux.accepts p m /\ Mux.fits (Mux.segments p) path = Some vals /\
            forall q, q ∈ mux.*1 -> Mux.accepts q m -> Mux.fits (Mux.segments q) path <> None -> q = p \/ Mux.compare p q = Mux.moreSpecific
        | None => forall q, q ∈ mux.*1 -> Mux.accepts q m -> Mux.fits (Mux.segments q) path = None
        end
    end) tables.
Proof.
  assert (Hr : Forall (fun routes => is_Some (Mux.register routes)) tables).
  { unfold tables. do 4 (apply Forall_cons; split; [vm_compute; by eexists|]). apply Forall_nil. done. }
  eapply Forall_impl; [exact Hr|]. intros routes [mux E]. rewrite E. intros m path.
  destruct (Mux.matchMethodAndPath mux m path) as [[[p h] vals]|] eqn:Em.
  - apply Mux.match_most_specific; [by eapply Mux.register_conflictFree|done].
  - intros q. by apply Mux.match_complete.
Qed.

(** ** Nothing but the probes is open *)

Definition probes : list string := ["healthz"; "readyz"].

Definition guardedBy {P} (auth : option P) (o : outcome P) : Prop :=
  match o with
  | ran h _ who => h ∈ probes \/ is_Some auth /\ who = auth
  | refused code => code = 401 /\ auth = None \/ code = 404 \/ code = 405
  | redirected _ => True
  | ended => False
  end.

Definition opens (r : string * route) : Prop := match r.2 with public h => h ∈ probes | guarded _ => True end.

Lemma handled_guarded {P} decodeTenant mux codes req (auth : option P) routes : Mux.register routes = Some mux -> Forall opens routes ->
  guardedBy auth (handled auth (traced decodeTenant mux codes req).1).
Proof.
  intros Hm Ho. destruct (traced decodeTenant mux codes req).1 as [h v|to| |] eqn:E; cbn [handled guardedBy]; [|done|by right; right|by right; left].
  unfold traced, Otelx.Middleware, Mux.Handler in E.
  destruct (Mux.findHandler mux (Method req) (EscapedPath req)) as [p h0 vals| | |] eqn:Ef; cbn [fst] in E; try done. injection E as -> _.
  apply Mux.findHandler_member in Ef. destruct (registered_member _ _ _ _ Hm Ef) as (s & Hin & _). rewrite Forall_forall in Ho. specialize (Ho _ Hin).
  destruct h as [h|h]; [by left|]. destruct auth as [c|]; cbn; [by right|by left].
Qed.

(** In the three services that guard their routes one by one, every
    handler but the two health probes runs only with the principal of the
    service's authentication, and a request it refuses is answered 401. *)
Theorem routes_guarded `{Crypto} decodeClaims decodeTenant cfg kc kc' now codes req :
  match posMux, carfMux, caseMux with
  | Some pos, Some carf, Some cases =>
      guardedBy (Auth.posAuth decodeClaims cfg kc now (Headers req)) (posServe decodeClaims decodeTenant cfg kc now pos codes req).1 /\
      guardedBy (Auth.carfAuth decodeClaims cfg kc' now (Headers req)) (carfServe decodeClaims decodeTenant cfg kc' now carf codes req).1 /\
      guardedBy (Auth.caseAuth decodeClaims cfg kc' now (Headers req)) (caseServe decodeClaims decodeTenant cfg kc' now cases codes req).1
  | _, _, _ => False
  end.
Proof.
  assert (Hall : Forall (Forall opens) [posRoutes; carfRoutes; caseRoutes]).
  { unfold opens, probes. repeat constructor. }
  inversion Hall as [|? ? Hp Hr]; subst. inversion Hr as [|? ? Hc Hr']; subst. inversion Hr' as [|? ? Hk _]; subst.
  destruct posMux as [pos|] eqn:E1; [|by vm_compute in E1]. destruct carfMux as [carf|] eqn:E2; [|by vm_compute in E2].
  destruct caseMux as [cases|] eqn:E3; [|by vm_compute in E3]. unfold posServe, carfServe, caseServe.
  pose proof (fun P => @handled_guarded P decodeTenant pos codes req) as G1. pose proof (fun P => @handled_guarded P decodeTenant carf codes req) as G2.
  pose proof (fun P => @handled_guarded P decodeTenant cases codes req) as G3.
  destruct (traced decodeTenant pos codes req), (traced decodeTenant carf codes req), (traced decodeTenant cases codes req). cbn [fst] in *.
  split; [by eapply G1|split; [by eapply G2|by eapply G3]].
Qed.

(** ** What an API key reaches *)

Definition dataHandlers : list string :=
  ["handleCreateInvoice"; "handleNRSCreate"; "handleNRSUpdate"; "handleGetInvoice"; "handlePreclear"; "handleGetQR"; "handleB2CReport"; "handleVATSummary"].

Definition nameOf (r : route) : string := match r with public h | guarded h => h end.

(** Of the routes of the e-invoicing service, those whose literal segments are
    not on the list of the API keys, and those that are no probe's path *)
Lemma einv_prefixes :
  Forall (fun r => forall p, Mux.parsePattern r.1 = Some p -> forall tail,
    (nameOf r.2 ∈ dataHandlers \/ EinvApiKeys.apiKeyAllowedPath (litPrefix (Mux.segments p) +:+ tail) = false) /\
    (nameOf r.2 ∈ probes \/ Authx.probe (litPrefix (Mux.segments p) +:+ tail) = false)) einvRoutes.
Proof.
  unfold einvRoutes, dataHandlers, probes, nameOf.
  repeat (apply Forall_cons; split;
    [intros p Hp tail; vm_compute in Hp; injection Hp as <-; cbn [Mux.segments litPrefix fst snd]; split;
      [first [left; by (eapply bool_decide_unpack; vm_compute)
             |right; unfold EinvApiKeys.apiKeyAllowedPath; by destruct (bool_decide _ || _)]
      |first [left; by (eapply bool_decide_unpack; vm_compute)|right; reflexivity]] |]).
  by apply Forall_nil.
Qed.


Lemma verdictOf_some c : Authx.verdictOf c <> Authx.passes None.
Proof. by destruct c. Qed.

Section Einvoicing.
Context `{Crypto} (rsaVerify : Authx.rsaKey -> string -> string -> bool) (decodeHeader : string -> option Authx.kcHeader)
  (decodeKc : string -> option Authx.kcClaims) (decodeClaims : string -> option Auth.Claims) (decodeTenant : string -> option string).

(** The middleware passes a request without a principal only for the path of a
    probe. *)
Lemma jwt_anonymous env jwt now answer path h cache :
  Authx.MiddlewareEnv rsaVerify decodeHeader decodeKc decodeClaims env = Some jwt ->
  (jwt now answer path h cache).2 = Authx.passes None -> Authx.probe path = true.
Proof.
  unfold Authx.MiddlewareEnv. case_bool_decide.
  - destruct (Authx.KeycloakVerifierFromEnv env) as [v|]; cbn [mbind option_bind]; [|done]. intros [= <-]. unfold Authx.keycloakMiddleware.
    destruct (Authx.probe path); [done|]. destruct (Auth.bearer h) as [tok|]; [|done].
    destruct (Authx.Verify _ _ _ _ _ _ _ _) as [c r]. cbn [snd]. by intros ?%verdictOf_some.
  - intros [= <-]. cbn [snd]. unfold Authx.devMiddleware. destruct (Authx.probe path); [done|]. destruct (Auth.bearer h) as [tok|]; [|by intros ?%verdictOf_some].
    destruct (Authx.Secret env); [|done]. by intros ?%verdictOf_some.
Qed.

Lemma traced_named mux codes req h v : einvMux = Some mux ->
  (traced decodeTenant mux codes req).1 = Mux.runs h v -> Mux.unescapeAll (EscapedPath req) = Some (URLPath req) ->
  (nameOf h ∈ dataHandlers \/ EinvApiKeys.apiKeyAllowedPath (URLPath req) = false) /\ (nameOf h ∈ probes \/ Authx.probe (URLPath req) = false) /\
  forall name, v name = "".
Proof.
  intros Hm Ht Hu. destruct (traced_runs _ _ _ _ _ _ Ht Hu) as (p & tail & Hin & -> & Hv).
  destruct (registered_member _ _ _ _ Hm Hin) as (s & Hs & Hp). pose proof einv_prefixes as HF. rewrite Forall_forall in HF.
  destruct (HF _ Hs p Hp tail) as [H1 H2]. done.
Qed.

(** C21: In the e-invoicing service every handler but the probes runs with a
    principal, and which one is decided by the headers alone: with an API key
    it is an operator of the tenant of a key the store grants, and the handler
    is one of the eight that read and write invoices and VAT - never the keys,
    webhooks, replay, workflow or signing routes, however the path is escaped;
    without one it is the principal of the token the middleware verified. *)
Theorem einv_routes_confined env jwt now answer cache io store codes req :
  Authx.MiddlewareEnv rsaVerify decodeHeader decodeKc decodeClaims env = Some jwt ->
  Mux.unescapeAll (EscapedPath req) = Some (URLPath req) ->
  let key := Auth.header "X-Api-Key" (Headers req) in
  match einvMux with
  | None => False
  | Some mux =>
      match (einvServe decodeTenant jwt now answer cache io store mux codes req).2 with
      | ran h _ who =>
          if decide (key = "") then
            h ∈ probes \/ exists c, who = Some c /\ (jwt now answer (URLPath req) (Headers req) cache).2 = Authx.passes (Some c)
          else h ∈ dataHandlers /\ exists c k, who = Some c /\ Auth.Roles c = ["operator"] /\
                 (EinvApiKeys.Verify key now io store).2 = EinvApiKeys.vGranted k /\ Auth.c_TenantID c = EinvApiKeys.k_TenantID k
      | _ => True
      end
  end.
Proof.
  intros Hj Hu key. destruct einvMux as [mux|] eqn:Em; [|by vm_compute in Em]. unfold einvServe. fold key.
  assert (Hn : forall who h v w, handledAs who (traced decodeTenant mux codes req).1 = ran h v w ->
    w = who /\ (h ∈ dataHandlers \/ EinvApiKeys.apiKeyAllowedPath (URLPath req) = false) /\ (h ∈ probes \/ Authx.probe (URLPath req) = false)).
  { intros who h v w. destruct (traced decodeTenant mux codes req).1 as [h0 v0|to| |] eqn:Et; cbn [handledAs]; try done.
    destruct (traced_named mux codes req h0 v0 Em Et Hu) as (H1 & H2 & _). destruct h0; intros [= <- <- <-]; done. }
  unfold EinvApiKeys.apiKeyMiddleware. destruct (decide (key = "")) as [Ek|Ek].
  - rewrite (bool_decide_eq_true_2 (key = "")) by done. destruct (jwt now answer (URLPath req) (Headers req) cache) as [cache' v] eqn:Ev.
    pose proof (jwt_anonymous env jwt now answer (URLPath req) (Headers req) cache Hj) as Ha. rewrite Ev in Ha. cbn [snd] in *.
    destruct v as [c| |]; [|done..]. destruct (handledAs c (traced decodeTenant mux codes req).1) as [h v who|code|to|] eqn:Eh; [|done..].
    destruct (Hn _ _ _ _ Eh) as (-> & _ & Hp). destruct c as [c|]; [right; by exists c|]. destruct Hp as [|Hp]; [by left|]. by rewrite (Ha eq_refl) in Hp.
  - rewrite (bool_decide_eq_false_2 (key = "")) by done. destruct (EinvApiKeys.apiKeyAllowedPath (URLPath req)) eqn:Ea; cbn [negb snd]; [|done].
    destruct (EinvApiKeys.Verify key now io store) as [s' [| |k]]; cbn [snd]; [done..|].
    destruct (handledAs _ (traced decodeTenant mux codes req).1) as [h v who|code|to|] eqn:Eh; [|done..].
    destruct (Hn _ _ _ _ Eh) as (-> & [Hd|] & _); [|done]. split; [done|]. by eexists _, k.
Qed.
End Einvoicing.

(** What GET /v1/invoices/{id} answers: [None] when the request is not its *)
Definition serveGetInvoice decodeTenant (mux : Mux.ServeMux route) (codes : Mux.reply route -> list Z) (req : request)
    (claims : option Auth.Claims) (format : string) (sv : EinvWorkflow.Server) : option (response (CanonicalInvoice + string)) :=
  match (traced decodeTenant mux codes req).1 with
  | Mux.runs h v => if bool_decide (nameOf h = "handleGetInvoice") then Some (EinvHandlers.handleGetInvoice claims (v "id") format sv) else None
  | _ => None
  end.

(** No invoice is found by its path.  The handler of GET
    /v1/invoices/{id} runs on a request without path values, so it looks up
    the empty identifier: as long as no invoice has that one, every such
    request - for any stored invoice, by its owner - is answered 404. *)
Theorem invoice_never_found decodeTenant codes req claims format sv :
  EinvStore.Get "" (EinvWorkflow.store sv) = None -> Mux.unescapeAll (EscapedPath req) = Some (URLPath req) ->
  match einvMux with
  | None => False
  | Some mux => match serveGetInvoice decodeTenant mux codes req claims format sv with
                | Some answer => answer = Problem 404 "not found"
                | None => True
                end
  end.
Proof.
  intros Hg Hu. destruct einvMux as [mux|] eqn:Em; [|by vm_compute in Em]. unfold serveGetInvoice.
  destruct (traced decodeTenant mux codes req).1 as [h v|to| |] eqn:Et; try done. case_bool_decide; [|done].
  destruct (traced_named decodeTenant mux codes req _ v Em Et Hu) as (_ & _ & Hv). rewrite Hv. unfold EinvHandlers.handleGetInvoice. by rewrite Hg.
Qed.

(** ** Witnesses *)

#[local] Existing Instance Toy.crypto.

Definition no_rsa (_ : Authx.rsaKey) (_ _ : string) : bool := false.
Definition no_header (_ : string) : option Authx.kcHeader := None.
Definition no_kc (_ : string) : option Authx.kcClaims := None.
Definition no_claims (_ : string) : option Auth.Claims := None.
Definition dev_env : Authx.AuthEnv := Authx.mkAuthEnv "" "" "" "" "" "".
Definition dev_jwt (now : Z) (_ : option (list Authx.jwksKey)) (path : string) (h : Auth.Header) (c : Authx.keyCache) : Authx.keyCache * Authx.verdict :=
  (c, Authx.devMiddleware no_claims dev_env now path h).
Definition status_ok (_ : Mux.reply route) : list Z := [].

Definition summary_req : request :=
  mkReq "GET" "/v1/vat/%73ummary" "/v1/vat/summary" {[ "X-Api-Key" := EinvApiKeys.plaintextOf EinvApiKeys.demo_new ]} "".
Definition keyed_store : EinvApiKeys.APIKeyStore := EinvApiKeys.runKeys EinvApiKeys.demo_history.

(** The key of the example reaches the summary, as an operator of its tenant. *)
Example summary_served :
  match einvMux with
  | Some mux =>
      match (einvServe Otelx.no_token dev_jwt 2 None Authx.emptyCache true keyed_store mux status_ok summary_req).2 with
      | ran h _ (Some c) => (h, Auth.Roles c, Auth.c_TenantID c) = ("handleVATSummary", ["operator"], "t1")
      | _ => False
      end
  | None => False
  end.
Proof. vm_compute. reflexivity. Qed.

Lemma einv_routes_confined_witness :
  match einvMux with
  | None => False
  | Some mux =>
      match (einvServe Otelx.no_token dev_jwt 2 None Authx.emptyCache true keyed_store mux status_ok summary_req).2 with
      | ran h _ who =>
          if decide (Auth.header "X-Api-Key" (Headers summary_req) = "") then
            h ∈ probes \/ exists c, who = Some c /\ (dev_jwt 2 None (URLPath summary_req) (Headers summary_req) Authx.emptyCache).2 = Authx.passes (Some c)
          else h ∈ dataHandlers /\ exists c k, who = Some c /\ Auth.Roles c = ["operator"] /\
                 (EinvApiKeys.Verify (Auth.header "X-Api-Key" (Headers summary_req)) 2 true keyed_store).2 = EinvApiKeys.vGranted k /\
                 Auth.c_TenantID c = EinvApiKeys.k_TenantID k
      | _ => True
      end
  end.
Proof.
  apply (einv_routes_confined no_rsa no_header no_kc no_claims Otelx.no_token dev_env dev_jwt 2 None Authx.emptyCache true keyed_store status_ok summary_req).
  - reflexivity.
  - vm_compute. reflexivity.
Defined.

Definition get_req : request := mkReq "GET" "/v1/invoices/a" "/v1/invoices/a" ∅ "".
Definition one_invoice : EinvWorkflow.Server :=
  EinvWorkflow.mkServer EinvStore.demo_saved (Outbox.NewOutbox []) EinvWebhooks.NewWebhookRegistry ∅ [] 0 ∅.

(** The mux by itself would bind the identifier, and the invoice be found. *)
Example invoice_found_by_mux :
  match einvMux with
  | Some mux => match Mux.ServeHTTP mux (Method get_req) (EscapedPath get_req) with
                | Mux.runs _ v => EinvHandlers.handleGetInvoice None (v "id") "" one_invoice
                | _ => Problem 0 ""
                end
  | None => Problem 0 ""
  end = JSON 200 (inl (EinvStore.stamped 0 EinvStore.demo_stored)).
Proof. vm_compute. reflexivity. Qed.

Example invoice_lost :
  match einvMux with Some mux => serveGetInvoice Otelx.no_token mux status_ok get_req None "" one_invoice | None => None end =
  Some (Problem 404 "not found").
Proof. vm_compute. reflexivity. Qed.

Lemma invoice_never_found_witness :
  match einvMux with
  | None => False
  | Some mux => match serveGetInvoice Otelx.no_token mux status_ok get_req None "" one_invoice with
                | Some answer => answer = Problem 404 "not found"
                | None => True
                end
  end.
Proof.
  apply (invoice_never_found Otelx.no_token status_ok get_req None "" one_invoice); vm_compute; reflexivity.
Defined.
