(* ===== verification/CarfServed.v ===== *)
(** * vasp-carf: the listings, and what its routes make of the handlers
    (services/vasp-carf/main.go)

    The four listing handlers, and the handlers with an identifier in the path
    as the service runs them: behind the tracing middleware of packages/otelx,
    which runs the handler on a request without path values. *)

From S2P Require Import Prelude StrFacts Crypto EinvModel CarfEngine CarfGates CarfMessages Routes.
From S2P Require Auth Mux Otelx.

(** ** The listings *)

(** [tids], [xids], [ids]: the orders of the Go maps; [tenant]: the parameter
    tenant_id, empty when it is absent *)
Definition handleListTrades (tids : list string) (tenant : string) (s : Service) : response (list Trade) :=
  JSON 200 (Trades tids tenant (engine s)).
Definition handleListTransfers (xids : list string) (tenant : string) (s : Service) : response (list Transfer) :=
  JSON 200 (Transfers xids tenant (engine s)).
Definition handleGains (tenant : string) (s : Service) : response (list GainLossEntry) :=
  JSON 200 (Ledger tenant (engine s)).
Definition handleCARFList (ids : list string) (s : Service) : response (list CARFRecord) :=
  JSON 200 (List_ ids (carf s)).

(** ** Requests, from the route to the answer *)

Section Served.
Context `{Crypto} (decodeClaims : string -> option Auth.Claims) (decodeTenant : string -> option string).
Context (cfg : Auth.AuthConfig) (kc : option Auth.Verifier) (now : Z) (mux : Mux.ServeMux route).

(** POST /v1/gates/{id}/flip: [None] when the request does not get there *)
Definition serveGateFlip (codes : Mux.reply route -> list Z) (req : request) (written : bool) (body : option bool) (s : Service)
  : option (Service * response (string * bool)) :=
  match (carfServe decodeClaims decodeTenant cfg kc now mux codes req).1 with
  | ran h v (Some c) =>
      if bool_decide (h = "handleGateFlip") then Some (handleGateFlip (Auth.Roles c) written (v "id") body s) else None
  | _ => None
  end.

(** GET /v1/trades, with the parameter tenant_id of the query *)
Definition serveListTrades (codes : Mux.reply route -> list Z) (req : request) (tids : list string) (tenant : string) (s : Service)
  : option (response (list Trade)) :=
  match (carfServe decodeClaims decodeTenant cfg kc now mux codes req).1 with
  | ran h _ (Some _) => if bool_decide (h = "handleListTrades") then Some (handleListTrades tids tenant s) else None
  | _ => None
  end.

(** ** Auxiliary lemmas *)

(** A handler of the service runs without path values. *)
Lemma carf_no_values codes req h v p :
  (carfServe decodeClaims decodeTenant cfg kc now mux codes req).1 = ran h v p ->
  Mux.unescapeAll (EscapedPath req) = Some (URLPath req) -> forall name, v name = "".
Proof.
  unfold carfServe. destruct (traced decodeTenant mux codes req) as [r span] eqn:Et. cbn [fst]. intros Hr Hu.
  assert (Hv : exists route, r = Mux.runs route v).
  { destruct r as [[h0|h0] v0| | |]; cbn [handled] in Hr; try done.
    - injection Hr as _ -> _. by eexists.
    - destruct (Auth.carfAuth _ _ _ _ _); [|done]. injection Hr as _ -> _. by eexists. }
  destruct Hv as [rt ->]. destruct (traced_runs decodeTenant mux codes req rt v) as (p0 & tail & _ & _ & Hv); [by rewrite Et|exact Hu|exact Hv].
Qed.

(** A setting under the empty identifier is no other gate's. *)
Lemma empty_gate_file open g g' id : id <> "" -> SetLocal true "" open g = Some g' -> fileSays g' id = fileSays g id.
Proof.
  intros Hid [= <-]. unfold fileSays. cbn [file mbind option_bind]. rewrite lookup_insert_ne by congruence.
  destruct (file g) as [m|]; [done|]. change (default ∅ (None : option (gmap string bool))) with (∅ : gmap string bool).
  by rewrite lookup_empty.
Qed.

Lemma empty_gate env open g g' id : id <> "" -> SetLocal true "" open g = Some g' -> (Open env id g').2 = decision env g id.
Proof.
  intros Hid Hg. destruct (Open_stale env id g') as [Hs _]. rewrite Hs by (by injection Hg as <-).
  unfold decision. by rewrite (empty_gate_file _ _ _ _ Hid Hg).
Qed.
End Served.

(** ** Properties *)

Section ServedProperties.
Context `{Crypto} (decodeClaims : string -> option Auth.Claims) (decodeTenant : string -> option string).


(** Every principal of the service, of whatever tenant, is listed the trades
    of all tenants when it names none, and those of any tenant it names. *)
Theorem trades_listed_to_anyone cfg kc now mux codes req tids tenant s h v c :
  (carfServe decodeClaims decodeTenant cfg kc now mux codes req).1 = ran "handleListTrades" v (Some c) ->
  tids ≡ₚ (map_to_list (trades (engine s))).*1 ->
  exists l, serveListTrades decodeClaims decodeTenant cfg kc now mux codes req tids tenant s = Some (JSON 200 l) /\
    (h ∈ l <-> exists id, trades (engine s) !! id = Some h /\ (tenant = "" \/ t_TenantID h = tenant)).
Proof.
  intros Hr Hids. unfold serveListTrades. rewrite Hr, bool_decide_eq_true_2 by done. unfold handleListTrades. eexists. split; [done|].
  unfold Trades. rewrite merge_sort_Permutation, list_elem_of_In, filter_In, <- list_elem_of_In, list_elem_of_omap, orb_true_iff, !bool_decide_eq_true.
  split.
  - intros [(id & _ & Hid) Ht]. by exists id.
  - intros (id & Hid & Ht). split; [|exact Ht]. exists id. split; [|exact Hid]. rewrite Hids. apply list_elem_of_fmap.
    exists (id, h). split; [done|]. by apply elem_of_map_to_list.
Qed.
End ServedProperties.

(** ** Witnesses *)

#[local] Existing Instance Toy.crypto.

(** A service whose file has the transmit gate open, an administrator in
    development mode who closes it, and what becomes of the service *)
Definition demo_service : Service :=
  mkService (emptyEngine []) ∅ (NewGateChecker (Some {[ "carf.transmit_enabled" := true ]})) (NewCARFStore []).
Definition close_req : request :=
  mkReq "POST" "/v1/gates/carf.transmit_enabled/flip" "/v1/gates/carf.transmit_enabled/flip" {[ "X-Dev-Role" := "admin" ]} "".
Definition demo_cfg : Auth.AuthConfig := Auth.mkAuthConfig "dev" "secret".
Definition demo_mux : Mux.ServeMux route := default [] carfMux.
Definition demo_closed : Service * response (string * bool) :=
  default (demo_service, Problem 0 "")
    (serveGateFlip no_claims Otelx.no_token demo_cfg None 0 demo_mux status_ok close_req true (Some false) demo_service).


Definition list_req : request := mkReq "GET" "/v1/trades" "/v1/trades" {[ "X-Dev-Role" := "auditor"; "X-Tenant-ID" := "a" ]} "".
Definition trade_of_b : Trade := mkTrade "t1" "b" "vasp" "u" "BTC" "buy" 1000 1 0 "2026-01-01T00:00:00Z" "".
Definition list_service : Service :=
  mkService (mkEngine {[ "t1" := trade_of_b ]} ∅ ∅ ∅ ∅ [] []) ∅ (NewGateChecker None) (NewCARFStore []).

(** An auditor of the tenant a is listed the trade of the tenant b. *)
Lemma trades_listed_to_anyone_witness :
  Auth.c_TenantID <$> Auth.carfAuth no_claims demo_cfg None 0 (Headers list_req) = Some "a" /\
  exists l, serveListTrades no_claims Otelx.no_token demo_cfg None 0 demo_mux status_ok list_req ["t1"] "" list_service = Some (JSON 200 l) /\
    trade_of_b ∈ l.
Proof.
  split; [vm_compute; reflexivity|].
  destruct (Auth.carfAuth no_claims demo_cfg None 0 (Headers list_req)) as [c|] eqn:Ec; [|by vm_compute in Ec].
  destruct (trades_listed_to_anyone no_claims Otelx.no_token demo_cfg None 0 demo_mux status_ok list_req ["t1"] "" list_service
    trade_of_b (fun _ => "") c) as (l & Hl & Hin).
  - injection Ec as <-. vm_compute. reflexivity.
  - vm_compute. reflexivity.
  - exists l. split; [exact Hl|]. apply Hin. exists "t1". split; [reflexivity | by left].
Defined.
