(* ===== verification/Startup.v ===== *)
(** * Start-up (the main functions of the four services, [NewService] of
    services/pos-vat/types.go, and the selectors of packages/prodx/prodx.go)

    From the environment and from what a starting process finds, to the parts
    the service runs with, or to the reason it ends with.  The order is that of
    the code; log lines, the exporters of telemetry and the listening socket
    are left out. *)

From S2P Require Import Prelude StrFacts Crypto.
From S2P Require Auth Authx CaseStore PosCache Keyx EinvQr EinvRail.

Abbreviation getenv := (string -> string) (only parsing).

(** [env] of the services *)
Definition envOr (e : getenv) (k def : string) : string := Str.or_default (e k) def.

(** Why a process ends before it listens *)
Inductive exitReason :=
| noDataDir | noTINKey | noIssuer | noPermify | noQRKey | noStore | noAPIKeys | noOutbox | noKeyProvider | noCSID | noRail.

(** What a starting process finds *)
Record World := mkWorld {
  dirOk : string -> bool;                  (** the data directory can be made *)
  redisUp : string -> bool;                (** the address answers PING *)
  pgUp : string -> bool;                   (** the database answers a ping *)
  tableOk : bool;                          (** the table of documents is there *)
  rowsOk : bool;                           (** its invoices can be read *)
  migrationsOk : bool;
  brokersOk : string -> bool;              (** the client accepts the broker list *)
  fileOk : string -> bool;                 (** a log can be opened and read *)
  keyDirOk : bool;
  pluginOk : bool;
  kmsOk : bool;
  csidOk : Keyx.SignerProvider -> bool;    (** the signing identity can be loaded *)
  tempDir : string;
}.

Definition authEnv (e : getenv) : Authx.AuthEnv :=
  Authx.mkAuthEnv (e "AUTH_MODE") (e "PROFILE") (e "KEYCLOAK_ISSUER") (e "KEYCLOAK_AUDIENCE") (e "KEYCLOAK_JWKS_URL") (e "MERIDIAN_DEV_JWT_SECRET").

(** ** packages/prodx *)

Inductive choice (A : Type) := dev | prod (a : A) | unavailable.
Arguments dev {A}. Arguments prod {A}. Arguments unavailable {A}.

Definition PGFromEnv (w : World) (e : getenv) : choice string :=
  let dsn := e "DATABASE_URL" in
  if bool_decide (dsn = "") then dev else if pgUp w dsn then prod dsn else unavailable.

Definition ProducerFromEnv (w : World) (e : getenv) : choice (list string) :=
  let brokers := e "KAFKA_BROKERS" in
  if bool_decide (brokers = "") then dev else if brokersOk w brokers then prod (Str.split "," brokers) else unavailable.

(** ** pos-vat *)

Record PosConfig := mkPosConfig {
  p_Port : string; p_AuthMode : string; p_JWTSecret : string; GeoURL : string; LedgerURL : string; p_RegistryURL : string;
  RedisURL : string; p_DataDir : string; AttributionMode : string; EventBus : string;
}.

Definition PosConfigFromEnv (e : getenv) : PosConfig :=
  mkPosConfig (envOr e "PORT" "8106") (envOr e "AUTH_MODE" "dev") (envOr e "MERIDIAN_DEV_JWT_SECRET" "meridian-dev-secret")
    (envOr e "GEO_SVC_URL" "") (envOr e "LEDGER_SVC_URL" "") (envOr e "RP_REGISTRY_URL" "") (envOr e "REDIS_URL" "")
    (envOr e "DATA_DIR" "./data") (envOr e "ATTRIBUTION_MODE" "state") (envOr e "EVENT_BUS" "inproc").

Inductive cacheChoice := NewMemCache | RedisCache (addr : string).
Inductive geoChoice := EmbeddedGeo | HTTPGeoClient (base : string).
Inductive ledgerChoice := NewDevLedger | HTTPLedger (base : string).
Inductive busChoice := NewInprocBus | kafkaBus (brokers : list string).

Record PosParts := mkPosParts {
  p_cfg : PosConfig;
  tinKey : string;
  cache : cacheChoice;
  geo : geoChoice;
  ledger : ledgerChoice;
  p_bus : busChoice;
  p_verifier : option Authx.KeycloakConfig;
}.

Definition chooseCache (w : World) (url : string) : cacheChoice :=
  if bool_decide (url = "") then NewMemCache
  else let addr := PosCache.NewRedisCache url in if redisUp w addr then RedisCache addr else NewMemCache.

Definition posNewService (w : World) (e : getenv) (cfg : PosConfig) : result exitReason PosParts :=
  match Auth.resolveTINKey (e "TIN_HMAC_KEY") (e "PROFILE") (p_AuthMode cfg) with
  | None => Err noTINKey
  | Some key =>
      Ok (mkPosParts cfg key (chooseCache w (RedisURL cfg))
            (if bool_decide (GeoURL cfg = "") then EmbeddedGeo else HTTPGeoClient (GeoURL cfg))
            (if bool_decide (LedgerURL cfg = "") then NewDevLedger else HTTPLedger (LedgerURL cfg))
            NewInprocBus None)
  end.

(** The verifier is made when the first route is registered. *)
Definition posVerifier (e : getenv) (p : PosParts) : result exitReason PosParts :=
  if bool_decide (p_AuthMode (p_cfg p) = "keycloak") then
    match Authx.KeycloakVerifierFromEnv (authEnv e) with
    | None => Err noIssuer
    | Some v => Ok (mkPosParts (p_cfg p) (tinKey p) (cache p) (geo p) (ledger p) (p_bus p) (Some v))
    end
  else Ok p.

Definition posMain (w : World) (e : getenv) : result exitReason PosParts :=
  let cfg := PosConfigFromEnv e in
  if negb (dirOk w (p_DataDir cfg)) then Err noDataDir
  else match posNewService w e cfg with Ok p => posVerifier e p | Err r => Err r end.

(** ** vasp-carf *)

Record CarfConfig := mkCarfConfig {
  c_Port : string; c_AuthMode : string; c_JWTSecret : string; c_RegistryURL : string; RegWatchURL : string; c_DataDir : string }.

Definition CarfConfigFromEnv (e : getenv) : CarfConfig :=
  mkCarfConfig (envOr e "PORT" "8116") (envOr e "AUTH_MODE" "dev") (envOr e "MERIDIAN_DEV_JWT_SECRET" "meridian-dev-secret")
    (envOr e "RP_REGISTRY_URL" "") (envOr e "REG_WATCH_URL" "") (envOr e "DATA_DIR" "./data").

(** The verifier of vasp-carf and case-mgmt *)
Definition keycloakOf (e : getenv) (mode : string) : result exitReason (option Authx.KeycloakConfig) :=
  if bool_decide (mode = "keycloak") then
    match Authx.KeycloakVerifierFromEnv (authEnv e) with None => Err noIssuer | Some v => Ok (Some v) end
  else Ok None.

Definition carfMain (w : World) (e : getenv) : result exitReason (CarfConfig * option Authx.KeycloakConfig) :=
  let cfg := CarfConfigFromEnv e in
  if negb (dirOk w (c_DataDir cfg)) then Err noDataDir
  else match keycloakOf e (c_AuthMode cfg) with Ok kc => Ok (cfg, kc) | Err r => Err r end.

(** ** case-mgmt *)

Record CaseConfig := mkCaseConfig {
  m_Port : string; m_AuthMode : string; m_JWTSecret : string; m_DataDir : string; WORMURL : string; NotifyURL : string; WatchEvery : Z }.

Definition CaseConfigFromEnv (e : getenv) : CaseConfig :=
  mkCaseConfig (envOr e "PORT" "8113") (envOr e "AUTH_MODE" "dev") (envOr e "MERIDIAN_DEV_JWT_SECRET" "meridian-dev-secret")
    (envOr e "DATA_DIR" "./data") (envOr e "AUDIT_EVIDENCE_URL" "") (envOr e "NOTIFICATION_SVC_URL" "") (30 * 1000000000).

Inductive wormChoice := HTTPWORM (base : string) | LocalWORM (dir : string).
Inductive notifierChoice := HTTPNotifier (base : string) | LogNotifier.

Record CaseParts := mkCaseParts {
  m_cfg : CaseConfig;
  worm : wormChoice;
  notify : notifierChoice;
  m_live : bool;                           (** Permify answers the relation checks *)
  m_verifier : option Authx.KeycloakConfig;
  m_pg : bool;                             (** the documents are mirrored to Postgres *)
}.

Definition attached (w : World) (e : getenv) : bool := match PGFromEnv w e with prod _ => tableOk w | _ => false end.

Definition caseMain (w : World) (e : getenv) : result exitReason CaseParts :=
  let cfg := CaseConfigFromEnv e in
  if negb (dirOk w (m_DataDir cfg)) then Err noDataDir
  else match CaseStore.wirePermify (e "PERMIFY_URL") (e "PROFILE") (m_AuthMode cfg) with
       | None => Err noPermify
       | Some live =>
           match keycloakOf e (m_AuthMode cfg) with
           | Err r => Err r
           | Ok kc =>
               Ok (mkCaseParts cfg
                     (if bool_decide (WORMURL cfg = "") then LocalWORM (m_DataDir cfg) else HTTPWORM (WORMURL cfg))
                     (if bool_decide (NotifyURL cfg = "") then LogNotifier else HTTPNotifier (NotifyURL cfg))
                     live kc (attached w e))
           end
       end.

(** ** einvoicing *)

Inductive sinkChoice := HTTPWebhookSink | InprocWebhookSink.

Record EinvParts := mkEinvParts {
  dataDir_ : string;
  e_pg : bool;                             (** the invoices are those of Postgres *)
  e_migrated : bool;                       (** ... with its unique indexes *)
  e_bus : busChoice;
  keyProv : Keyx.SignerProvider;
  rail : EinvRail.MBSClient;
  sink : sinkChoice;
  e_port : string;
}.

Definition dataDir (w : World) (e : getenv) : string := Str.or_default (e "DATA_DIR") (tempDir w +:+ "/meridian-einvoicing").

(** [runnerKind]: what GET /v1/workflows says of the runner, which is always
    the one in process *)
Definition runnerKind (e : getenv) : string :=
  if bool_decide (e "TEMPORAL_URL" = "") then "inproc (TEMPORAL_URL unset)" else "temporal (via core temporal-sdkx)".

(** Whether the invoices are those of Postgres, and whether its migrations are
    applied: every failure is logged and the process goes on. *)
Definition wirePG (w : World) (e : getenv) : bool * bool :=
  match PGFromEnv w e with
  | prod _ => if tableOk w && rowsOk w then (true, migrationsOk w) else (false, false)
  | _ => (false, false)
  end.

Definition chooseBus (w : World) (e : getenv) : busChoice :=
  match ProducerFromEnv w e with prod brokers => kafkaBus brokers | _ => NewInprocBus end.

Section Einvoicing.
(** The functions the verifiers are made of *)
Context `{Crypto} (rsaVerify : Authx.rsaKey -> string -> string -> bool)
  (decodeHeader : string -> option Authx.kcHeader) (decodeKcClaims : string -> option Authx.kcClaims) (decodeClaims : string -> option Auth.Claims).

Definition einvMain (w : World) (e : getenv) : result exitReason EinvParts :=
  if negb (EinvQr.validateQRKey (e "AUTH_MODE") (e "QR_HMAC_KEY")) then Err noQRKey
  else
    let dir := dataDir w e in
    if negb (fileOk w (dir +:+ "/invoices.jsonl")) then Err noStore
    else
      let '(pg, migrated) := wirePG w e in
      if negb (fileOk w (dir +:+ "/apikeys.jsonl")) then Err noAPIKeys
      else if negb (fileOk w (dir +:+ "/outbox.jsonl")) then Err noOutbox
      else
        let bus := chooseBus w e in
        match Keyx.New (tempDir w) (keyDirOk w) (pluginOk w) (kmsOk w) (Keyx.ConfigFromEnv e) with
        | Err _ => Err noKeyProvider
        | Ok prov =>
            if negb (csidOk w prov) then Err noCSID
            else match EinvRail.NewMBSClient e with
                 | None => Err noRail
                 | Some rail =>
                     match Authx.MiddlewareEnv rsaVerify decodeHeader decodeKcClaims decodeClaims (authEnv e) with
                     | None => Err noIssuer
                     | Some _ =>
                         Ok (mkEinvParts dir pg migrated bus prov rail
                               (if bool_decide (e "WEBHOOK_SINK" = "inproc") then InprocWebhookSink else HTTPWebhookSink)
                               (Str.or_default (e "PORT") "8110"))
                     end
                 end
        end.

(** ** What a started process runs with *)

Lemma keycloak_issuer e v : Authx.KeycloakVerifierFromEnv (authEnv e) = Some v -> e "KEYCLOAK_ISSUER" <> "".
Proof. unfold Authx.KeycloakVerifierFromEnv. cbn [authEnv Authx.KEYCLOAK_ISSUER]. by case_bool_decide. Qed.

Lemma envOr_set e k d x : e k = x -> x <> "" -> envOr e k d = x.
Proof. intros <- Hx. unfold envOr, Str.or_default. by rewrite bool_decide_eq_false_2. Qed.

Lemma envOr_same e k : envOr e k "" = e k.
Proof. unfold envOr, Str.or_default. case_bool_decide; congruence. Qed.

Lemma tin_key_prod key profile mode k : Auth.resolveTINKey key profile mode = Some k -> profile = "prod" \/ mode = "keycloak" -> k <> Auth.devTINKey /\ k = key.
Proof.
  unfold Auth.resolveTINKey. intros Hk Hp. replace (bool_decide (profile = "prod") || bool_decide (mode = "keycloak")) with true in Hk
    by (symmetry; apply orb_true_iff; rewrite !bool_decide_eq_true; tauto).
  repeat case_bool_decide; cbn in Hk; naive_solver.
Qed.

Lemma posMain_ok w e p : posMain w e = Ok p ->
  let cfg := PosConfigFromEnv e in
  Auth.resolveTINKey (e "TIN_HMAC_KEY") (e "PROFILE") (p_AuthMode cfg) = Some (tinKey p) /\ p_cfg p = cfg /\
  cache p = chooseCache w (RedisURL cfg) /\ p_bus p = NewInprocBus /\
  ledger p = (if bool_decide (LedgerURL cfg = "") then NewDevLedger else HTTPLedger (LedgerURL cfg)) /\
  geo p = (if bool_decide (GeoURL cfg = "") then EmbeddedGeo else HTTPGeoClient (GeoURL cfg)) /\
  p_verifier p = (if bool_decide (p_AuthMode cfg = "keycloak") then Authx.KeycloakVerifierFromEnv (authEnv e) else None) /\
  (p_AuthMode cfg = "keycloak" -> is_Some (p_verifier p)).
Proof.
  unfold posMain, posNewService, posVerifier. cbv zeta. destruct (negb _); [done|].
  destruct (Auth.resolveTINKey _ _ _) as [key|] eqn:E; [|done]. cbn [p_cfg tinKey cache geo ledger p_bus].
  case_bool_decide as Hm; [|intros [= <-]; by repeat split].
  destruct (Authx.KeycloakVerifierFromEnv (authEnv e)); [|done]. intros [= <-]. by repeat split.
Qed.

Lemma keycloakOf_ok e mode kc : keycloakOf e mode = Ok kc -> mode = "keycloak" -> is_Some kc /\ Authx.KeycloakVerifierFromEnv (authEnv e) = kc.
Proof.
  unfold keycloakOf. intros Hk ->. rewrite bool_decide_eq_true_2 in Hk by done.
  destruct (Authx.KeycloakVerifierFromEnv (authEnv e)); [|done]. by injection Hk as <-.
Qed.

Lemma carfMain_ok w e cfg kc : carfMain w e = Ok (cfg, kc) -> cfg = CarfConfigFromEnv e /\ keycloakOf e (c_AuthMode cfg) = Ok kc.
Proof.
  unfold carfMain. destruct (negb _); [done|]. destruct (keycloakOf e _) as [k|] eqn:E; [|done]. by intros [= <- <-].
Qed.

Lemma caseMain_ok w e p : caseMain w e = Ok p ->
  let cfg := CaseConfigFromEnv e in
  CaseStore.wirePermify (e "PERMIFY_URL") (e "PROFILE") (m_AuthMode cfg) = Some (m_live p) /\ keycloakOf e (m_AuthMode cfg) = Ok (m_verifier p) /\
  m_cfg p = cfg /\ m_pg p = attached w e /\
  worm p = (if bool_decide (WORMURL cfg = "") then LocalWORM (m_DataDir cfg) else HTTPWORM (WORMURL cfg)) /\
  notify p = (if bool_decide (NotifyURL cfg = "") then LogNotifier else HTTPNotifier (NotifyURL cfg)).
Proof.
  unfold caseMain. cbv zeta. destruct (negb _); [done|]. destruct (CaseStore.wirePermify _ _ _) as [live|] eqn:E; [|done].
  destruct (keycloakOf e _) as [kc|] eqn:Ek; [|done]. intros [= <-]. by repeat split.
Qed.

Lemma einvMain_ok w e p : einvMain w e = Ok p ->
  EinvQr.validateQRKey (e "AUTH_MODE") (e "QR_HMAC_KEY") = true /\ (e_pg p, e_migrated p) = wirePG w e /\ e_bus p = chooseBus w e /\
  Keyx.New (tempDir w) (keyDirOk w) (pluginOk w) (kmsOk w) (Keyx.ConfigFromEnv e) = Ok (keyProv p) /\
  EinvRail.NewMBSClient e = Some (rail p) /\ is_Some (Authx.MiddlewareEnv rsaVerify decodeHeader decodeKcClaims decodeClaims (authEnv e)).
Proof.
  unfold einvMain. cbv zeta. destruct (EinvQr.validateQRKey _ _); [|done]. cbn [negb]. destruct (negb _); [done|].
  destruct (wirePG w e) as [pg migrated]. do 2 (destruct (negb _); [done|]).
  destruct (Keyx.New _ _ _ _ _) as [prov|]; [|done]. destruct (negb _); [done|].
  destruct (EinvRail.NewMBSClient e) as [m|]; [|done]. destruct (Authx.MiddlewareEnv _ _ _ _ _); [|done]. intros [= <-]. by repeat split.
Qed.

Lemma rail_prod e m : EinvRail.NewMBSClient e = Some m -> e "PROFILE" = "prod" -> m <> EinvRail.SandboxMBS.
Proof.
  unfold EinvRail.NewMBSClient, EinvRail.legacyGate, EinvRail.newLiveRailOrFatal. intros Hm Hp.
  assert (E : EinvRail.prodProfile e = true) by (unfold EinvRail.prodProfile; rewrite Hp; reflexivity). rewrite E in Hm.
  repeat case_bool_decide; try (by injection Hm as <-); try done. destruct (EinvRail.LiveRailConfigFromEnv e); [|done]. by injection Hm as <-.
Qed.

(** C36: With AUTH_MODE=keycloak no service starts on a development fallback of
    its security: every one that starts has a verifier with a configured
    issuer, pos-vat hashes with a key of its own, case-mgmt asks Permify,
    e-invoicing signs its QR codes with a key that was given to it, and with
    PROFILE=prod it submits to no simulator. *)
Theorem keycloak_starts_closed w e : e "AUTH_MODE" = "keycloak" ->
  (forall p, posMain w e = Ok p -> is_Some (p_verifier p) /\ tinKey p <> Auth.devTINKey /\ tinKey p = e "TIN_HMAC_KEY") /\
  (forall cfg kc, carfMain w e = Ok (cfg, kc) -> is_Some kc) /\
  (forall p, caseMain w e = Ok p -> is_Some (m_verifier p) /\ m_live p = true) /\
  (forall p, einvMain w e = Ok p -> e "QR_HMAC_KEY" <> "" /\ (e "PROFILE" = "prod" -> rail p <> EinvRail.SandboxMBS)) /\
  ((exists p, posMain w e = Ok p) \/ (exists p, carfMain w e = Ok p) \/ (exists p, caseMain w e = Ok p) \/ (exists p, einvMain w e = Ok p) ->
    e "KEYCLOAK_ISSUER" <> "").
Proof.
  intros Hm. assert (Hmode : envOr e "AUTH_MODE" "dev" = "keycloak") by by apply envOr_set.
  split; [|split; [|split; [|split]]].
  - intros p Hp. destruct (posMain_ok w e p Hp) as (Hk & _ & _ & _ & _ & _ & _ & Hv). cbn [PosConfigFromEnv p_AuthMode] in *.
    split; [by apply Hv|]. eapply tin_key_prod; [exact Hk|by right].
  - intros cfg kc [-> Hk]%carfMain_ok. by destruct (keycloakOf_ok e _ kc Hk Hmode).
  - intros p Hp. destruct (caseMain_ok w e p Hp) as (Hl & Hk & _). destruct (keycloakOf_ok e _ _ Hk Hmode) as [Hv _]. split; [exact Hv|].
    cbn [CaseConfigFromEnv m_AuthMode] in Hl. rewrite Hmode in Hl. unfold CaseStore.wirePermify in Hl.
    destruct (negb _); [by injection Hl as <-|]. by rewrite orb_true_r in Hl.
  - intros p Hp. destruct (einvMain_ok w e p Hp) as (Hq & _ & _ & _ & Hr & _). split; [|by apply rail_prod].
    intros Hq'. by rewrite Hm, Hq' in Hq.
  - assert (Hv : is_Some (Authx.KeycloakVerifierFromEnv (authEnv e)) -> e "KEYCLOAK_ISSUER" <> "") by (intros [v Hv]; by eapply keycloak_issuer).
    intros [[p Hp]|[[[cfg kc] Hp]|[[p Hp]|[p Hp]]]]; apply Hv.
    + destruct (posMain_ok w e p Hp) as (_ & _ & _ & _ & _ & _ & E & Hs). cbn [PosConfigFromEnv p_AuthMode] in *.
      rewrite Hmode, bool_decide_eq_true_2 in E by done. rewrite <- E. by apply Hs.
    + apply carfMain_ok in Hp as [-> Hk]. destruct (keycloakOf_ok e _ kc Hk Hmode) as [Hs ->]. exact Hs.
    + destruct (caseMain_ok w e p Hp) as (_ & Hk & _). destruct (keycloakOf_ok e _ _ Hk Hmode) as [Hs ->]. exact Hs.
    + destruct (einvMain_ok w e p Hp) as (_ & _ & _ & _ & _ & Hs). unfold Authx.MiddlewareEnv in Hs. cbn [authEnv Authx.AUTH_MODE] in Hs.
      rewrite Hm, bool_decide_eq_true_2 in Hs by done. destruct (Authx.KeycloakVerifierFromEnv (authEnv e)); [done|by destruct Hs].
Qed.

(** A part that is configured is the part that is used, or the process
    ends: the ledger, the geo service, the archive, the notifier and the
    brokers are those named, and a key provider that is named is never
    replaced by keys in files. *)
Theorem named_parts_are_used w e :
  (forall p, posMain w e = Ok p -> (e "LEDGER_SVC_URL" <> "" -> ledger p = HTTPLedger (e "LEDGER_SVC_URL")) /\
     (e "GEO_SVC_URL" <> "" -> geo p = HTTPGeoClient (e "GEO_SVC_URL"))) /\
  (forall p, caseMain w e = Ok p -> (e "AUDIT_EVIDENCE_URL" <> "" -> worm p = HTTPWORM (e "AUDIT_EVIDENCE_URL")) /\
     (e "NOTIFICATION_SVC_URL" <> "" -> notify p = HTTPNotifier (e "NOTIFICATION_SVC_URL")) /\ (e "PERMIFY_URL" <> "" -> m_live p = true)) /\
  (forall p, einvMain w e = Ok p ->
     (Str.to_lower (Str.trim_space (e "KEY_PROVIDER")) <> "" -> Str.to_lower (Str.trim_space (e "KEY_PROVIDER")) <> "software" ->
      Keyx.Mode (keyProv p) <> "software") /\
     (e "KAFKA_BROKERS" <> "" -> brokersOk w (e "KAFKA_BROKERS") = true -> e_bus p = kafkaBus (Str.split "," (e "KAFKA_BROKERS")))).
Proof.
  split; [|split]; intros p Hp.
  - destruct (posMain_ok w e p Hp) as (_ & _ & _ & _ & Hl & Hg & _). cbn [PosConfigFromEnv LedgerURL GeoURL] in *. rewrite envOr_same in Hl, Hg.
    split; intros Hne; [rewrite Hl|rewrite Hg]; by rewrite bool_decide_eq_false_2.
  - destruct (caseMain_ok w e p Hp) as (Hl & _ & _ & _ & Hw & Hn). cbn [CaseConfigFromEnv WORMURL NotifyURL] in *. rewrite envOr_same in Hw, Hn.
    split; [intros Hne; rewrite Hw; by rewrite bool_decide_eq_false_2|]. split; [intros Hne; rewrite Hn; by rewrite bool_decide_eq_false_2|].
    intros Hne. unfold CaseStore.wirePermify in Hl. rewrite bool_decide_eq_false_2 in Hl by done. by injection Hl as <-.
  - destruct (einvMain_ok w e p Hp) as (_ & _ & Hb & Hk & _). split.
    + intros H1 H2. unfold Keyx.New in Hk. cbn [Keyx.ConfigFromEnv Keyx.Provider Keyx.PKCS11Plugin Keyx.KMSBaseURL] in Hk.
      rewrite !(bool_decide_eq_false_2 (Str.to_lower _ = _)) in Hk by done || idtac. revert Hk.
      repeat case_bool_decide; try done; cbn [orb]; destruct (pluginOk w), (kmsOk w); try done; by intros [= <-].
    + intros Hne Hok. rewrite Hb. unfold chooseBus, ProducerFromEnv. by rewrite bool_decide_eq_false_2, Hok.
Qed.

Definition starts {A} (r : result exitReason A) : bool := match r with Ok _ => true | Err _ => false end.

(** The same world with a database and a cache that answer *)
Definition allUp (w : World) : World :=
  mkWorld (dirOk w) (fun _ => true) (fun _ => true) true true true (brokersOk w) (fileOk w) (keyDirOk w) (pluginOk w) (kmsOk w) (csidOk w) (tempDir w).

(** An outage at boot is not noticed: with a database and a cache
    configured but unreachable every service starts exactly when it would with
    both of them up, keeps its invoices and cases in its own files and its
    idempotency keys in its own memory, and does so until the next restart. *)
Theorem outage_at_boot_is_silent w e : e "DATABASE_URL" <> "" -> pgUp w (e "DATABASE_URL") = false ->
  (forall addr, redisUp w addr = false) ->
  starts (posMain w e) = starts (posMain (allUp w) e) /\ starts (caseMain w e) = starts (caseMain (allUp w) e) /\
  starts (einvMain w e) = starts (einvMain (allUp w) e) /\
  (forall p, posMain w e = Ok p -> cache p = NewMemCache) /\ (forall p, caseMain w e = Ok p -> m_pg p = false) /\
  (forall p, einvMain w e = Ok p -> e_pg p = false /\ e_migrated p = false).
Proof.
  intros Hd Hpg Hr. assert (Epg : PGFromEnv w e = unavailable) by (unfold PGFromEnv; by rewrite bool_decide_eq_false_2, Hpg).
  split; [|split; [|split; [|split; [|split]]]].
  - unfold posMain, posNewService, posVerifier. cbn [allUp dirOk]. destruct (negb _); [done|]. destruct (Auth.resolveTINKey _ _ _); [|done].
    cbn [p_cfg]. case_bool_decide; [|done]. by destruct (Authx.KeycloakVerifierFromEnv _).
  - unfold caseMain. cbn [allUp dirOk]. destruct (negb _); [done|]. destruct (CaseStore.wirePermify _ _ _); [|done]. by destruct (keycloakOf _ _).
  - unfold einvMain. cbn [allUp fileOk tempDir keyDirOk pluginOk kmsOk csidOk]. destruct (negb _); [done|].
    change (dataDir (allUp w) e) with (dataDir w e). destruct (negb _); [done|]. destruct (wirePG w e), (wirePG (allUp w) e).
    do 2 (destruct (negb _); [done|]). destruct (Keyx.New _ _ _ _ _); [|done]. destruct (negb _); [done|].
    destruct (EinvRail.NewMBSClient e); [|done]. by destruct (Authx.MiddlewareEnv _ _ _ _ _).
  - intros p Hp. destruct (posMain_ok w e p Hp) as (_ & _ & -> & _). unfold chooseCache. rewrite Hr. by case_bool_decide.
  - intros p Hp. destruct (caseMain_ok w e p Hp) as (_ & _ & _ & -> & _). unfold attached. by rewrite Epg.
  - intros p Hp. destruct (einvMain_ok w e p Hp) as (_ & E & _). unfold wirePG in E. rewrite Epg in E. by injection E as -> ->.
Qed.

Definition posAuthConfig (p : PosParts) : Auth.AuthConfig := Auth.mkAuthConfig (p_AuthMode (p_cfg p)) (p_JWTSecret (p_cfg p)).

(** PROFILE=prod does not protect a service whose AUTH_MODE is not exactly
    keycloak - unset, or misspelt: pos-vat starts, and accepts, as whoever it
    says, a token that anyone can make with the secret written in the source;
    unset, it takes the role and the tenant from the headers. *)
Theorem prod_accepts_public_secret w e key kc now hd payload c :
  e "PROFILE" = "prod" -> e "AUTH_MODE" <> "keycloak" -> e "MERIDIAN_DEV_JWT_SECRET" = "" ->
  e "TIN_HMAC_KEY" = key -> key <> "" -> key <> Auth.devTINKey -> dirOk w (envOr e "DATA_DIR" "./data") = true ->
  decodeClaims payload = Some c -> Auth.Exp c = 0 \/ now <= Auth.Exp c ->
  exists p, posMain w e = Ok p /\
    Auth.posAuth decodeClaims (posAuthConfig p) kc now {[ "Authorization" := "Bearer " +:+ Auth.signHS256 hd payload "meridian-dev-secret" ]} = Some c /\
    (e "AUTH_MODE" = "" -> forall role tenant, role ∈ Auth.devRoles ->
       Auth.posAuth decodeClaims (posAuthConfig p) kc now {[ "X-Dev-Role" := role; "X-Tenant-ID" := tenant ]} =
       Some (Auth.mkClaims ("dev-" +:+ role) [role] tenant 0)).
Proof.
  intros Hp Hm Hs Hk Hk1 Hk2 Hd Hc Hexp. set (cfg := PosConfigFromEnv e).
  assert (Hmode : p_AuthMode cfg <> "keycloak").
  { cbn. unfold envOr, Str.or_default. by case_bool_decide. }
  assert (Hsec : p_JWTSecret cfg = "meridian-dev-secret") by (cbn; unfold envOr; by rewrite Hs).
  unfold posMain, posNewService, posVerifier. fold cfg. change (p_DataDir cfg) with (envOr e "DATA_DIR" "./data"). rewrite Hd. cbn [negb].
  unfold Auth.resolveTINKey. rewrite Hk, !(bool_decide_eq_false_2 (key = _)) by done. cbn [orb p_cfg].
  rewrite bool_decide_eq_false_2 by done. eexists. split; [reflexivity|]. unfold posAuthConfig. cbn [p_cfg]. rewrite Hsec. split.
  - set (tok := Auth.signHS256 hd payload "meridian-dev-secret").
    assert (Hb : Auth.bearer {[ "Authorization" := "Bearer " +:+ tok ]} = Some tok).
    { unfold Auth.bearer. change (Auth.header "Authorization" {[ "Authorization" := "Bearer " +:+ tok ]}) with ("Bearer " +:+ tok).
      unfold Str.trim_prefix, Str.has_prefix. rewrite prefix_app. f_equal. exact (str_drop_app "Bearer " tok). }
    unfold Auth.posAuth. rewrite Hb. cbn [Auth.AuthMode Auth.JWTSecret]. rewrite bool_decide_eq_false_2 by done.
    destruct (Auth.hs256_sound_complete decodeClaims now "meridian-dev-secret") as [Hv _]. unfold tok. rewrite (Hv hd payload c Hc).
    destruct (negb (Auth.Exp c =? 0) && (Auth.Exp c <? now)) eqn:Ex; [|done]. bools. lia.
  - intros He role tenant Hr. assert (Hdev : p_AuthMode cfg = "dev") by (cbn; unfold envOr; by rewrite He).
    assert (Hb : Auth.bearer {[ "X-Dev-Role" := role; "X-Tenant-ID" := tenant ]} = None) by reflexivity.
    unfold Auth.posAuth. rewrite Hb. cbn [Auth.AuthMode]. rewrite Hdev. rewrite bool_decide_eq_true_2 by done. unfold Auth.devClaims.
    change (Auth.header "X-Dev-Role" {[ "X-Dev-Role" := role; "X-Tenant-ID" := tenant ]}) with role. 
    by rewrite bool_decide_eq_true_2.
Qed.
End Einvoicing.

(** ** The properties at concrete inputs *)

Definition demo_world : World :=
  mkWorld (fun _ => true) (fun _ => false) (fun _ => false) true true true (fun _ => true) (fun _ => true) true true true (fun _ => true) "/tmp".

Fixpoint envOf (l : list (string * string)) (k : string) : string :=
  match l with [] => "" | (k', v) :: l => if bool_decide (k = k') then v else envOf l k end.

Definition keycloak_env : string -> string := envOf [("AUTH_MODE", "keycloak"); ("KEYCLOAK_ISSUER", "https://id.example/realms/m"); ("TIN_HMAC_KEY", "k3y")].
Definition prod_env : string -> string := envOf [("PROFILE", "prod"); ("TIN_HMAC_KEY", "k3y")].
Definition outage_env : string -> string := envOf [("DATABASE_URL", "postgres://db/einvoicing"); ("REDIS_URL", "redis://cache")].
Definition hsm_env : string -> string := envOf [("KEY_PROVIDER", " HSM "); ("KEY_PKCS11_PLUGIN", "/opt/p11"); ("KAFKA_BROKERS", "a:9092,b:9092")].

Definition toy_rsa (k : Authx.rsaKey) (m s : string) : bool := true.
Definition no_decode {A} (s : string) : option A := None.

Lemma keycloak_starts_closed_witness :
  exists p, posMain demo_world keycloak_env = Ok p /\ is_Some (p_verifier p) /\ tinKey p <> Auth.devTINKey.
Proof.
  destruct (posMain demo_world keycloak_env) as [p|] eqn:E; [|vm_compute in E; discriminate E]. exists p. split; [reflexivity|].
  destruct (keycloak_starts_closed (H := Toy.crypto) toy_rsa no_decode no_decode no_decode demo_world keycloak_env eq_refl) as (Hp & _).
  destruct (Hp p E) as (Hv & Hk & _). split; assumption.
Defined.

Lemma named_parts_are_used_witness :
  exists p, einvMain (H := Toy.crypto) toy_rsa no_decode no_decode no_decode demo_world hsm_env = Ok p /\
    Keyx.Mode (keyProv p) <> "software" /\ e_bus p = kafkaBus (Str.split "," "a:9092,b:9092").
Proof.
  destruct (einvMain (H := Toy.crypto) toy_rsa no_decode no_decode no_decode demo_world hsm_env) as [p|] eqn:E; [|vm_compute in E; discriminate E].
  exists p. split; [reflexivity|].
  destruct (named_parts_are_used (H := Toy.crypto) toy_rsa no_decode no_decode no_decode demo_world hsm_env) as (_ & _ & He).
  destruct (He p E) as [Hk Hb]. split; [apply Hk; vm_compute; discriminate|]. apply Hb; [vm_compute; discriminate|reflexivity].
Defined.

Lemma outage_at_boot_is_silent_witness :
  exists p, einvMain (H := Toy.crypto) toy_rsa no_decode no_decode no_decode demo_world outage_env = Ok p /\ e_pg p = false.
Proof.
  destruct (einvMain (H := Toy.crypto) toy_rsa no_decode no_decode no_decode demo_world outage_env) as [p|] eqn:E; [|vm_compute in E; discriminate E].
  exists p. split; [reflexivity|].
  assert (Hd : outage_env "DATABASE_URL" <> "") by (vm_compute; discriminate).
  destruct (outage_at_boot_is_silent (H := Toy.crypto) toy_rsa no_decode no_decode no_decode demo_world outage_env Hd eq_refl (fun _ => eq_refl))
    as (_ & _ & _ & _ & _ & He). exact (proj1 (He p E)).
Defined.

Definition demo_claims : Auth.Claims := Auth.mkClaims "mallory" ["admin"] "t1" 0.

Lemma prod_accepts_public_secret_witness :
  exists p, posMain demo_world prod_env = Ok p /\
    Auth.posAuth (H := Toy.crypto) (fun _ => Some demo_claims) (posAuthConfig p) (fun _ => None) 5
      {[ "Authorization" := "Bearer " +:+ Auth.signHS256 (H := Toy.crypto) "{}" "{}" "meridian-dev-secret" ]} = Some demo_claims /\
    (prod_env "AUTH_MODE" = "" -> forall role tenant, role ∈ Auth.devRoles ->
       Auth.posAuth (H := Toy.crypto) (fun _ => Some demo_claims) (posAuthConfig p) (fun _ => None) 5 {[ "X-Dev-Role" := role; "X-Tenant-ID" := tenant ]} =
       Some (Auth.mkClaims ("dev-" +:+ role) [role] tenant 0)).
Proof.
  apply (prod_accepts_public_secret (H := Toy.crypto) (fun _ => Some demo_claims) demo_world prod_env "k3y" (fun _ => None) 5 "{}" "{}" demo_claims);
    try reflexivity; try discriminate.
  by left.
Defined.
